(* ===== verification/_CoqProject ===== *)
-Q . S2P
Prelude.v
Json.v
Float.v
Core.v
RulesGrammar.v
RulesParser.v
RulesEval.v
RulesOb.v
Query.v
Clock.v
TaskQueue.v
DocStore.v
Realtime.v
Storage.v
AuthLimits.v
AuthTokens.v
Handlers.v
Orders.v
Coupons.v
Checkout.v
Refunds.v
Returns.v
Capture.v
Subscriptions.v
Webhooks.v
Premium.v
Shipping.v
Digital.v
Ratings.v
Mcp.v
Cron.v
Chat.v
Warehouses.v
ShippingCalc.v
Storefront.v
