(* ===== verification/Prelude.v ===== *)
(** * OrignaBase: the verification library

    OrignaBase is a backend-as-a-service in one Rust binary: documents in
    PostgreSQL behind security rules, realtime subscriptions, file storage,
    authentication and background tasks.  This library models the parts that
    carry its own logic and proves what they guarantee.

    ** How the parts interact

    A request carries a user and roles.  The rules engine (ob-security) decides
    it against the policy file rules.ob.  Reads become SQL through the query
    builder, reads and writes of single documents go through the document store
    (ob-database), whose identifiers are checked and whose strings are escaped
    by ob-core.  Writes are announced to the dispatcher, which forwards them to
    the WebSocket sessions subscribed to the collection (ob-realtime).  Work to
    be done later is a row of the task queue, taken by polling workers.  Files
    are uploaded in chunks or through signed URLs (ob-storage).  ob-auth limits
    attempts, tracks logins, and keeps revoked tokens in the document store.
    The shop (ob-handlers) is a set of endpoint handlers over the document store:
    checkout prices a cart, opens a Stripe session and writes the order with its
    stock reservations in one transaction; coupons lower the price; the order
    handlers then move the order and its items through their statuses; captures,
    refunds, cancellations and returns move the money through Stripe and give the
    stock back.  Stripe reports what became of a session, a payment, a refund or a
    subscription through the webhook endpoint, which confirms or abandons the order.

    ** Files

    - [Prelude] (this file): outcomes of Rust code (a result or a panic),
      machine-width integers, strings and lists as the standard library of Rust
      treats them, tactics and hint databases.
    - [Json]: [serde_json::Value] and its numbers, with binary64 floats.
    - [Float]: the arithmetic on f64 the price computations use, and a bound on
      rounded products proved from the definition of rounding.
    - [Core]: crates/ob-core/src/error.rs and validate.rs.  One function per
      function of the source; [Error] has its constructors.
    - [RulesGrammar], [RulesParser], [RulesEval]: crates/ob-security/src, that
      is rules.pest (with an interpreter of parsing expressions), parser.rs and
      evaluator.rs.  [RulesOb]: the policy rules.ob as text, parsed by the
      modelled parser, with an entailment check on parsed conditions that is
      proved sound for the evaluator.
    - [Query]: crates/ob-database/src/query.rs, and the two readings of SQL
      literals that its theorems are about.
    - [Clock]: interfaces of the chrono and uuid crates.
    - [TaskQueue]: crates/ob-database/src/task_queue.rs.  The state is the table;
      each SQL statement is a function on it, each operation the sequence of its
      statements, and [step] interleaves the statements of any number of
      workers, crashes included.
    - [DocStore]: crates/ob-database/src/pg_store.rs (document operations and
      [named_to_positional]) and transaction.rs.  The state is a map from tables
      to rows.
    - [Realtime]: crates/ob-realtime/src/registry.rs, dispatcher.rs and
      websocket.rs.  The registry's maps are finite maps; [server_step] is any
      interleaving of sessions opening, sending, closing and of dispatches.
    - [Storage]: crates/ob-storage/src/signed_url.rs, local.rs, resumable.rs.
      The file system is a map from paths to contents.
    - [AuthLimits]: crates/ob-auth/src/rate_limit.rs and login_tracking.rs, on
      top of [DocStore].
    - [AuthTokens]: crates/ob-auth/src/revocation.rs, key_rotation.rs, totp.rs
      and password.rs.
    - [Handlers]: what the handlers of crates/ob-handlers/src share: the state and
      error monad of a handler over [DocStore], and shared/validation.rs, auth.rs,
      rate_limiter.rs and the statuses of schema.rs.
    - [Orders]: orders/status.rs.  Each handler is split into what it decides from
      the order read (a plan) and what it writes, so that concurrent requests are
      interleavings of these.
    - [Coupons]: coupons/mod.rs, in the same style; [redeem_step] interleaves any
      number of redemptions.
    - [Checkout]: payments/checkout.rs.  [quote] is the cart as the server prices
      it, [statement] the statements of the transaction, run by [commit] of
      [DocStore]; Stripe is a function from the form sent to the reply.
    - [Refunds]: orders/refunds.rs, that is the refund of an item and the
      cancellation of an order, with the optimistic reservation of the amount, its
      rollback and the restoration of stock; [refund_step] interleaves reservations.
    - [Returns]: orders/returns.rs, the return requests from their creation to the
      refund or the escalation, with the pushes they send.
    - [Capture]: payments/capture.rs, the capture of an authorised payment.
    - [Subscriptions]: payments/subscriptions.rs, the part Stripe's events reach.
    - [Webhooks]: payments/webhooks.rs, that is the check of a signature, the record
      that makes an event handled once, and the handlers of the events; [hook_step]
      interleaves deliveries of one event with anything else.
    - [Premium]: payments/subscriptions.rs, the endpoints: subscribing, cancelling,
      reactivating, the status and the preferences.
    - [Shipping]: orders/shipping.rs, the correction of a shipping cost by the seller
      and the answer of the buyer.
    - [Digital]: digital/mod.rs, the activation of licences on devices and the tokens
      with which files are downloaded.
    - [Ratings]: products/ratings.rs, ratings of products, votes on reviews and answers.
    - [Mcp]: the safeguards and errors of ob-mcp/src and the tools of tools/orders.rs,
      with which agents order for a user.
    - [Cron]: cron/mod.rs, the jobs that run by the clock under a lock: payouts, orders
      that are never paid, archiving, clean-up, subscriptions and overdue returns.
    - [Chat]: chat/mod.rs, the chats of buyers and sellers about a product.
    - [Warehouses]: warehouses/mod.rs, the warehouses of sellers and the default one.
    - [ShippingCalc]: shipping_calc/mod.rs, quotes for shipping by distance and province.
    - [Storefront]: products/stock.rs, products/questions.rs and addresses/mod.rs, the
      stock alerts, the questions about products and the addresses of buyers.

    ** What the theorems show

    - Security rules: the parser neither loops nor panics on any text; a check
      decides as the first-match reading of the rules; more roles never lose a
      permission of a policy without negation; and for the shipped policy, every
      write needs a user, per-user data is only its owner's, operational data
      only an administrator's.
    - Generated SQL: for a lexer in which a backslash escapes, no value a caller
      supplies changes the statement, only the contents of its literals.
    - Task queue: exclusive claims under any interleaving, final states stay
      final, failing tasks are retried as a schedule with exponential backoff says
      and exactly as often as configured, and the exact behaviour of a claim.
    - Document store: what is created is read back, updates merge and touch
      nothing else, racing compare-and-swaps have at most one winner.
    - Realtime: limits on sessions and subscriptions, exactness of the reverse
      index, and delivery of owned documents to their owners only.
    - Storage: paths stay under their root, signatures cannot be moved to another
      request, the upload counters are exact and chunks assemble to the file.
    - Authentication: bounds of the limiter, revocation until expiry, one
      accepted one-time password per step, key rotation, password strength.
    - Orders: every change of a status follows the transition graph or is a
      promotion by items, only parties change an order, sellers never deliver,
      guarded updates are atomic, and the graph has no cycle.
    - Coupons: a discount is bounded for every f64, a limited coupon is never
      overused under any interleaving, and what is created applies.
    - Checkout: the amount charged is the total stored and the sum of its parts,
      stock is taken exactly and never below zero, failures change nothing and
      retries place no second order.
    - Refunds, returns and captures: only an authorised party moves money, Stripe is
      asked for exactly the amount computed, concurrent refunds never exceed the
      total, refunds item by item add up to the order, a cancellation undoes the
      stock taken by the checkout, returns stay well formed and follow their graph, a
      return that is received is refunded where the order records a payment intent,
      and an order is captured only when Stripe reported success.
    - Webhooks: only signed and recent requests have an effect, an event is handled
      at most once under any interleaving, no sequence of events touches the buyer,
      items or amounts of an order or moves its status off the intended edges, an
      expired session undoes the checkout and a completed one confirms the order.
    - Subscriptions: each endpoint makes the steps a life cycle of statuses has for it,
      does its work when it succeeds and writes only the caller's documents; a
      cancellation that is taken back leaves no trace.
    - Shipping: the total of an order stays the sum of its parts, a cost rises only
      within bounds and with the consent they require, what is approved is what was
      asked for, and a rejection undoes the order once.
    - Digital goods: only the owner of a licence changes its devices, never beyond the
      limit; a download token gives the file to the owner, in time and once.
    - Ratings: the counts kept beside reviews and products are those of the votes and
      ratings stored (for ids that need no escaping), each user rates once, only buyers rate and sellers answer.
    - Agents: what an agent spends for a user never exceeds the daily limit, a repeated
      checkout is not made again, and order tools show a user his orders only.
    - Scheduled jobs: no sequence of jobs touches the buyer, items or amounts of an
      order; an unpaid order is given up once, with its stock, and so undoes its
      checkout; payouts are recorded once per order and seller of what was delivered,
      with the share of the fee to the nearest cent, and add up.
    - Chat: the numbers of messages and of unread messages a chat keeps are those of
      the messages stored, and every message is by one of its two parties.
    - Warehouses: a seller has at most one default, which passes on when it is deleted,
      and only he changes his warehouses.
    - Shipping quotes: the total is the sum of the items charged, without overflow, and
      does not depend on the order of the sellers; perishable goods stay local.
    - Storefront: at most one alert waits for each user and product, an alert taken back
      leaves no trace, and only the seller or an administrator answers a question.
    - Where the code falls short of its intent there is a theorem that says so:
      literals under PostgreSQL's standard reading, field-level rules without
      effect, a slow worker that re-runs a completed task, private changes sent to
      strangers, a lockout that never triggers, concurrent confirmations that
      lose one, orders placed without stock or at another product's price, receipts
      that cannot be confirmed, refunds beyond the total after a rollback, returns
      whose reported id is unknown or that are marked refunded without a refund, votes
      changed through a quote in an id, captures that overwrite a cancellation, paid
      intents that are not recorded, orders that can never be captured, subscriptions
      that nobody can cancel, approvals that are always refused, licences beyond their
      limit in a race, deliveries that cannot be rated, idempotency
      keys shared between users, clean-ups that forget handled events, subscriptions
      that expire while they are paid, payouts that never happen, chats that cannot be
      opened, negative quotes for shipping, questions that cannot be answered by the
      id they report, addresses anyone deletes, and others.

    ** Conventions

    Strings are sequences of bytes.  An operation that reads the clock, draws an
    id or random bytes takes them as arguments.  Third-party code is a class of
    parameters with laws ([Chrono], [UuidLib], [PgText], [PgJson], [Crypto], [Os],
    [Net], [Sha], [Totp], [Aead], [SerdeText], [TextLib], [HexLib], [Collation],
    [RegexLib], [CharLib]); each theorem that uses a
    law has a witness at a concrete instance.  The replies of Stripe and of the push
    service, the order in which the database scans a table, the rows of a join, the
    messages of PostgreSQL and the decoder of an event are arguments of the handlers that use them.  Arithmetic on i64 wraps around, as in
    the release build, where the source does not check it.  The database connection works: an operation
    fails where its statement can fail, not because the network does.

    ** Bounds and fuel

    Only two functions take fuel.  The grammar interpreter gets a budget linear in
    the length of the text, proved to be enough for every text.  The removal of
    parent references from a path gets the length of the path; each round
    shortens it, and the theorem about it holds for every path.  The worker loop
    runs over the list of its clock readings, so its theorem is about any number of
    rounds.

    ** Not modelled

    The migration of legacy tables, [find_where] and its relatives and raw queries
    of the store; directory listing; the forwarding task of a socket; the
    listing endpoints of the login tracking; the mails the order handlers send; the
    other HTTP and GraphQL handlers, the S3 backend, search, notifications,
    functions and administration, which call libraries and services.  Left for later:
    the product catalogue, users and native triggers of ob-handlers, the routes of
    ob-auth, and the query methods of the store. *)

From stdpp Require Export gmap strings list pretty sorting.
From Stdlib Require Export Ascii.
#[export] Set Warnings "-register-all,-clear-no-such-hyp".

(** ** Outcomes of Rust code

    A Rust function that returns [Result<T, E>] either returns [Ok] or
    [Err], or it panics ([unwrap] on [None], slicing out of range, checked
    arithmetic).  Panics are kept apart from errors so that their absence can
    be stated. *)
Inductive outcome (E A : Type) : Type :=
| Ok (a : A)
| Err (e : E)
| Panic.
Global Arguments Ok {E A} a.
Global Arguments Err {E A} e.
Global Arguments Panic {E A}.

Global Instance outcome_ret E : MRet (outcome E) := λ A a, Ok a.
Global Instance outcome_bind E : MBind (outcome E) := λ A B k m,
  match m with Ok a => k a | Err e => Err e | Panic => Panic end.
Global Instance outcome_fmap E : FMap (outcome E) := λ A B f m,
  match m with Ok a => Ok (f a) | Err e => Err e | Panic => Panic end.

(** [map_err]. *)
Definition map_err {E E' A} (f : E → E') (m : outcome E A) : outcome E' A :=
  match m with Ok a => Ok a | Err e => Err (f e) | Panic => Panic end.

(** [Option::ok_or], and [Option::unwrap]. *)
Definition ok_or {E A} (e : E) (o : option A) : outcome E A :=
  match o with Some a => Ok a | None => Err e end.
Definition unwrap {E A} (o : option A) : outcome E A :=
  match o with Some a => Ok a | None => Panic end.
Definition is_ok {E A} (m : outcome E A) : bool :=
  match m with Ok _ => true | _ => false end.

(** [iter.map(f).collect::<Result<Vec<_>, _>>()]: stops at the first error. *)
Definition collect {E A B} (f : A → outcome E B) : list A → outcome E (list B) :=
  fix go l :=
    match l with
    | [] => Ok []
    | x :: l =>
        match f x with
        | Ok y => match go l with Ok ys => Ok (y :: ys) | Err e => Err e | Panic => Panic end
        | Err e => Err e
        | Panic => Panic
        end
    end.

(** ** Strings

    A Rust [&str] is its UTF-8 bytes.  The source only splits, searches and
    replaces at ASCII characters and only tests ASCII classes, so working on
    bytes agrees with working on [char]s: no byte of a multi-byte sequence is
    below 128. *)
Abbreviation byte_of := N_of_ascii.

Global Arguments Ascii.eqb : simpl never.

Definition in_range (lo hi : ascii) (c : ascii) : bool :=
  (byte_of lo <=? byte_of c)%N && (byte_of c <=? byte_of hi)%N.
Definition is_digit : ascii → bool := in_range "0" "9".
Definition is_upper : ascii → bool := in_range "A" "Z".
Definition is_lower : ascii → bool := in_range "a" "z".
Definition is_alpha (c : ascii) : bool := is_upper c || is_lower c.
Definition is_alnum (c : ascii) : bool := is_alpha c || is_digit c.

(** The control characters the source names by an escape. *)
Definition TAB : ascii := "009".
Definition LF : ascii := "010".
Definition CR : ascii := "013".
Definition QUOTE : ascii := "034".
Definition APOS : ascii := "039".
Definition BACKSLASH : ascii := "092".
Definition str1 (c : ascii) : string := String c "".

Fixpoint str_forall (p : ascii → bool) (s : string) : bool :=
  match s with "" => true | String c s => p c && str_forall p s end.
Fixpoint str_exists (p : ascii → bool) (s : string) : bool :=
  match s with "" => false | String c s => p c || str_exists p s end.
Definition str_empty (s : string) : bool :=
  match s with "" => true | _ => false end.
Definition str_eqb (a b : string) : bool := bool_decide (a = b).
Infix "=s?" := str_eqb (at level 70, no associativity).

(** [to_ascii_lowercase]. *)
Definition ascii_lower (c : ascii) : ascii :=
  if is_upper c then ascii_of_N (byte_of c + 32) else c.
Fixpoint lower (s : string) : string :=
  match s with "" => "" | String c s => String (ascii_lower c) (lower s) end.
(** [to_ascii_uppercase]. *)
Definition ascii_upper (c : ascii) : ascii :=
  if is_lower c then ascii_of_N (byte_of c - 32) else c.
Fixpoint upper (s : string) : string :=
  match s with "" => "" | String c s => String (ascii_upper c) (upper s) end.

(** [str::strip_prefix], [starts_with], [ends_with]. *)
Fixpoint strip_prefix (p s : string) : option string :=
  match p, s with
  | "", _ => Some s
  | String a p, String b s => if Ascii.eqb a b then strip_prefix p s else None
  | _, "" => None
  end.
Definition starts_with (p s : string) : bool :=
  match strip_prefix p s with Some _ => true | None => false end.
Fixpoint ends_with (p s : string) : bool :=
  (s =s? p) || match s with "" => false | String _ s => ends_with p s end.

(** [str::contains] for a string pattern. *)
Fixpoint str_contains (p s : string) : bool :=
  starts_with p s || match s with "" => false | String _ s => str_contains p s end.

(** [s.split(c)]: always at least one piece. *)
Fixpoint split_on (c : ascii) (s : string) : list string :=
  match s with
  | "" => [""]
  | String a s =>
      if Ascii.eqb a c then "" :: split_on c s
      else match split_on c s with
           | [] => [str1 a]
           | w :: ws => String a w :: ws
           end
  end.

(** [slice.join(sep)]. *)
Fixpoint join (sep : string) (l : list string) : string :=
  match l with
  | [] => ""
  | [x] => x
  | x :: l => x +:+ sep +:+ join sep l
  end.

(** [s.replace(c, r)] for a character pattern. *)
Fixpoint replace_char (c : ascii) (r : string) (s : string) : string :=
  match s with
  | "" => ""
  | String a s => (if Ascii.eqb a c then r else str1 a) +:+ replace_char c r s
  end.

(** [s.replace(p, r)] for a non-empty string pattern: leftmost, non
    overlapping.  [skip] counts the bytes of a match still to drop. *)
Fixpoint replace_go (p r : string) (skip : nat) (s : string) : string :=
  match s with
  | "" => ""
  | String a s' =>
      match skip with
      | S k => replace_go p r k s'
      | O => if starts_with p s then r +:+ replace_go p r (String.length p - 1) s'
             else String a (replace_go p r 0 s')
      end
  end.
Definition str_replace (p r s : string) : string := replace_go p r 0 s.

(** [trim_start_matches(c)] and [trim_end_matches(c)]. *)
Fixpoint trim_start (c : ascii) (s : string) : string :=
  match s with
  | "" => ""
  | String a s' => if Ascii.eqb a c then trim_start c s' else s
  end.
Fixpoint trim_end (c : ascii) (s : string) : string :=
  match s with
  | "" => ""
  | String a s' =>
      match trim_end c s' with
      | "" => if Ascii.eqb a c then "" else str1 a
      | t => String a t
      end
  end.

(** Bytewise lexicographic order, the order of [str] in Rust. *)
Definition str_ltb (a b : string) : bool :=
  match String.compare a b with Lt => true | _ => false end.
Definition str_leb (a b : string) : bool :=
  match String.compare a b with Gt => false | _ => true end.

(** ** Machine integers

    Rust integers are [Z] or [N] with their width written out where the code
    depends on it: [as] casts and the arithmetic of the release profile wrap. *)
Definition wrap_signed (w z : Z) : Z := (z + 2 ^ (w - 1)) `mod` 2 ^ w - 2 ^ (w - 1).
Definition wrap_unsigned (w z : Z) : Z := z `mod` 2 ^ w.
Definition i32_max : Z := 2 ^ 31 - 1.
Definition i64_max : Z := 2 ^ 63 - 1.

(** ** Generic lemmas and automation *)

Create HintDb ob discriminated.
Create Rewrite HintDb ob_str.

(** Case analysis on the innermost match of the goal or of a hypothesis. *)
Ltac split_match :=
  match goal with
  | |- context [match ?x with _ => _ end] =>
      lazymatch x with context [match _ with _ => _ end] => fail | _ => destruct x eqn:? end
  end.
Ltac split_match_in H :=
  match type of H with
  | context [match ?x with _ => _ end] =>
      lazymatch x with context [match _ with _ => _ end] => fail | _ => destruct x eqn:? end
  end.
(** Exhaust the case analysis of [H : code = Ok v], dropping the branches
    that return something else. *)
Ltac cases_ok H := repeat (split_match_in H; try discriminate H).
(** Decompose boolean conjunctions in the context. *)
Ltac bools :=
  repeat match goal with
  | H : (_ && _)%bool = true |- _ => apply andb_true_iff in H as [? ?]
  | H : (_ || _)%bool = false |- _ => apply orb_false_iff in H as [? ?]
  | H : negb _ = true |- _ => apply negb_true_iff in H
  | H : negb _ = false |- _ => apply negb_false_iff in H
  | H : (_ =s? _) = true |- _ => apply bool_decide_eq_true in H
  | H : (_ =s? _) = false |- _ => apply bool_decide_eq_false in H
  | H : bool_decide _ = true |- _ => apply bool_decide_eq_true in H
  | H : bool_decide _ = false |- _ => apply bool_decide_eq_false in H
  end.

(** Decide a closed decidable proposition by computation. *)
Ltac concrete := apply (bool_decide_unpack _); by vm_compute.

(** A closed equation, by evaluation in the virtual machine. *)
Ltac evaluates := match goal with |- _ = ?b => vm_cast_no_check (eq_refl b) end.

Section strings.
Implicit Types s t p r : string.

Lemma str_eqb_refl s : (s =s? s) = true.
Proof. by apply bool_decide_eq_true. Qed.

Lemma str_eqb_eq s t : (s =s? t) = true ↔ s = t.
Proof. apply bool_decide_eq_true. Qed.

Lemma str_app_cons c s t : String c s +:+ t = String c (s +:+ t).
Proof. done. Qed.

Lemma str_app_nil_l s : "" +:+ s = s.
Proof. done. Qed.

Lemma str_app_nil_r s : s +:+ "" = s.
Proof. induction s as [|c s IH]; [done|]. by rewrite str_app_cons, IH. Qed.

Lemma str_app_assoc s t r : (s +:+ t) +:+ r = s +:+ t +:+ r.
Proof. induction s as [|c s IH]; [done|]. by rewrite !str_app_cons, IH. Qed.

Lemma str_length_app s t :
  String.length (s +:+ t) = String.length s + String.length t.
Proof. induction s as [|c s IH]; [done|]. rewrite str_app_cons. cbn. by rewrite IH. Qed.

Lemma str_forall_app f s t :
  str_forall f (s +:+ t) = str_forall f s && str_forall f t.
Proof. induction s as [|c s IH]; [done|]. rewrite str_app_cons. cbn. by rewrite IH, andb_assoc. Qed.

Lemma str_exists_app f s t :
  str_exists f (s +:+ t) = str_exists f s || str_exists f t.
Proof. induction s as [|c s IH]; [done|]. rewrite str_app_cons. cbn. by rewrite IH, orb_assoc. Qed.

Lemma str_forall_impl (f g : ascii → bool) s :
  (∀ c, f c = true → g c = true) → str_forall f s = true → str_forall g s = true.
Proof.
  intros Hfg. induction s as [|c s IH]; [done|]. cbn. intros. bools.
  rewrite Hfg, IH; done.
Qed.

Lemma strip_prefix_Some p s r : strip_prefix p s = Some r ↔ s = p +:+ r.
Proof.
  revert s. induction p as [|a p IH]; intros s.
  - rewrite str_app_nil_l. cbn. destruct s; naive_solver.
  - destruct s as [|b s]; rewrite str_app_cons; cbn; [done|].
    destruct (Ascii.eqb_spec a b) as [->|Hne]; [rewrite IH|]; clear IH; naive_solver.
Qed.

Lemma strip_prefix_app p s : strip_prefix p (p +:+ s) = Some s.
Proof. by apply strip_prefix_Some. Qed.

Lemma starts_with_spec p s : starts_with p s = true ↔ ∃ r, s = p +:+ r.
Proof.
  unfold starts_with. destruct (strip_prefix p s) as [r|] eqn:E.
  - apply strip_prefix_Some in E. naive_solver.
  - split; [done|]. intros [r ->]. by rewrite strip_prefix_app in E.
Qed.

Lemma starts_with_app p s : starts_with p (p +:+ s) = true.
Proof. apply starts_with_spec. eauto. Qed.

Lemma split_on_nonempty c s : split_on c s ≠ [].
Proof. destruct s; cbn; [done|]. case_match; [done|]. by case_match. Qed.

Lemma join_split_on c s : join (str1 c) (split_on c s) = s.
Proof.
  induction s as [|a s IH]; [done|]. cbn [split_on].
  pose proof (split_on_nonempty c s) as Hne.
  destruct (split_on c s) as [|w ws]; [done|].
  destruct (Ascii.eqb_spec a c) as [->|Hac].
  - change (String c (join (str1 c) (w :: ws)) = String c s). by rewrite IH.
  - rewrite <- IH. by destruct ws.
Qed.

Lemma split_on_no_sep c s :
  str_exists (Ascii.eqb c) s = false → split_on c s = [s].
Proof.
  induction s as [|a s IH]; [done|]. cbn. intros. bools.
  rewrite Ascii.eqb_sym. rewrite H, IH; done.
Qed.

Lemma replace_char_app c r s t :
  replace_char c r (s +:+ t) = replace_char c r s +:+ replace_char c r t.
Proof.
  induction s as [|a s IH]; [done|]. rewrite str_app_cons. cbn [replace_char].
  by rewrite IH, str_app_assoc.
Qed.

Lemma str_compare_refl s : String.compare s s = Datatypes.Eq.
Proof.
  induction s as [|c s IH]; [done|]. cbn. unfold Ascii.compare.
  by rewrite N.compare_refl.
Qed.

Lemma str_ltb_asym s t : str_ltb s t = true → str_ltb t s = false ∧ (t =s? s) = false.
Proof.
  unfold str_ltb. intros H. rewrite String.compare_antisym.
  destruct (String.compare s t) eqn:E; try done. split; [done|].
  apply bool_decide_eq_false. intros ->. by rewrite str_compare_refl in E.
Qed.
End strings.

Section integers.
Local Open Scope Z_scope.

Lemma wrap_signed_id w z :
  0 < w → - 2 ^ (w - 1) ≤ z < 2 ^ (w - 1) → wrap_signed w z = z.
Proof.
  intros Hw Hz. unfold wrap_signed.
  assert (2 ^ w = 2 * 2 ^ (w - 1)) as ->.
  { rewrite <- Z.pow_succ_r by lia. f_equal. lia. }
  rewrite Z.mod_small; lia.
Qed.

Lemma wrap_signed_range w z :
  0 < w → - 2 ^ (w - 1) ≤ wrap_signed w z < 2 ^ (w - 1).
Proof.
  intros Hw. unfold wrap_signed.
  assert (2 ^ w = 2 * 2 ^ (w - 1)) as ->.
  { rewrite <- Z.pow_succ_r by lia. f_equal. lia. }
  pose proof (Z.mod_pos_bound (z + 2 ^ (w - 1)) (2 * 2 ^ (w - 1))) as H.
  pose proof (Z.pow_pos_nonneg 2 (w - 1)). lia.
Qed.
End integers.

#[export] Hint Rewrite str_app_nil_r str_app_assoc str_length_app : ob_str.
#[export] Hint Resolve str_eqb_refl starts_with_app : ob.
