(* ===== verification/Json.v ===== *)
(** * JSON values

    The JSON data the whole backend works on ([serde_json::Value]), in the
    part the source constructs, matches and compares, and the IEEE-754 binary64
    numbers ([f64]) behind its numbers.  A float is a [spec_float] of the
    Standard Library at precision 53 and exponent bound 1024, so every
    comparison is exact and computes.  Objects are key/value lists in key
    order, the order of the [BTreeMap] behind [serde_json::Map]. *)

From Stdlib Require Export SpecFloat.
From S2P Require Export Prelude.

(** ** Binary64 *)
Abbreviation f64 := spec_float.
Definition f64_prec : Z := 53.
Definition f64_emax : Z := 1024.

(** [z as f64]: round to nearest, ties to even. *)
Definition f64_of_Z (z : Z) : f64 := binary_normalize f64_prec f64_emax z 0 false.
Definition f64_eqb (a b : f64) : bool := SFeqb a b.
Definition f64_ltb (a b : f64) : bool := SFltb a b.
Definition f64_leb (a b : f64) : bool := SFleb a b.
Definition f64_is_finite (a : f64) : bool :=
  match a with S754_zero _ | S754_finite _ _ _ => true | _ => false end.

(** The decimal [±m / 10^k], correctly rounded. *)
Definition f64_of_decimal (neg : bool) (m : N) (k : nat) : f64 :=
  match m with
  | N0 => S754_zero neg
  | Npos p => SFdiv f64_prec f64_emax (S754_finite neg p 0)
                (S754_finite false (Z.to_pos (10 ^ Z.of_nat k)) 0)
  end.

(** [str::parse::<f64>] on the literals [-?d+(.d+)?], the only texts the
    source parses. *)
Fixpoint digits_value (acc : N) (s : string) : option N :=
  match s with
  | "" => Some acc
  | String c s => if is_digit c then digits_value (10 * acc + (byte_of c - 48)) s else None
  end.
Definition parse_f64 (text : string) : option f64 :=
  let '(neg, s) := match strip_prefix "-" text with
                   | Some s => (true, s) | None => (false, text) end in
  match split_on "." s with
  | [i] => if str_empty i then None else
             m ← digits_value 0 i; Some (f64_of_decimal neg m 0)
  | [i; f] => if str_empty i || str_empty f then None else
             m ← digits_value 0 (i +:+ f);
             Some (f64_of_decimal neg m (String.length f))
  | _ => None
  end.

(** ** Values *)

(** [serde_json::Number]: a literal without fraction is an integer, signed
    only when negative; anything else is a float. *)
Inductive Number : Type :=
| PosInt (n : N)
| NegInt (z : Z)
| Float (f : f64).

Inductive Value : Type :=
| VNull
| VBool (b : bool)
| VNumber (n : Number)
| VString (s : string)
| VArray (l : list Value)
| VObject (m : list (string * Value)).

(** Equality as derived by serde_json: the three kinds of number never equal
    one another. *)
Definition number_eqb (a b : Number) : bool :=
  match a, b with
  | PosInt a, PosInt b => (a =? b)%N
  | NegInt a, NegInt b => (a =? b)%Z
  | Float a, Float b => f64_eqb a b
  | _, _ => false
  end.

Fixpoint value_eqb (v w : Value) {struct v} : bool :=
  match v, w with
  | VNull, VNull => true
  | VBool a, VBool b => Bool.eqb a b
  | VNumber a, VNumber b => number_eqb a b
  | VString a, VString b => a =s? b
  | VArray l, VArray l' =>
      (fix go l l' := match l, l' with
        | [], [] => true
        | x :: l, y :: l' => value_eqb x y && go l l'
        | _, _ => false
        end) l l'
  | VObject m, VObject m' =>
      (fix go m m' := match m, m' with
        | [], [] => true
        | (k, x) :: m, (k', y) :: m' => (k =s? k') && value_eqb x y && go m m'
        | _, _ => false
        end) m m'
  | _, _ => false
  end.

(** ** Accessors *)

Fixpoint assoc_get (k : string) (m : list (string * Value)) : option Value :=
  match m with
  | [] => None
  | (k', v) :: m => if k =s? k' then Some v else assoc_get k m
  end.
(** Insertion in key order, replacing an entry with the same key. *)
Fixpoint assoc_insert (k : string) (v : Value) (m : list (string * Value)) :
    list (string * Value) :=
  match m with
  | [] => [(k, v)]
  | (k', v') :: m' =>
      if k =s? k' then (k, v) :: m'
      else if str_ltb k k' then (k, v) :: m
      else (k', v') :: assoc_insert k v m'
  end.

(** [value.get("key")]. *)
Definition get (key : string) (v : Value) : option Value :=
  match v with VObject m => assoc_get key m | _ => None end.
(** [value["key"] = v] on an object, and [obj.insert]. *)
Definition put (key : string) (x : Value) (v : Value) : Value :=
  match v with VObject m => VObject (assoc_insert key x m) | _ => v end.

Definition as_str (v : Value) : option string :=
  match v with VString s => Some s | _ => None end.
Definition as_bool (v : Value) : option bool :=
  match v with VBool b => Some b | _ => None end.
Definition as_array (v : Value) : option (list Value) :=
  match v with VArray l => Some l | _ => None end.
Definition as_object (v : Value) : option (list (string * Value)) :=
  match v with VObject m => Some m | _ => None end.
Definition is_null (v : Value) : bool :=
  match v with VNull => true | _ => false end.
Definition as_f64 (v : Value) : option f64 :=
  match v with
  | VNumber (PosInt n) => Some (f64_of_Z (Z.of_N n))
  | VNumber (NegInt z) => Some (f64_of_Z z)
  | VNumber (Float f) => Some f
  | _ => None
  end.
Definition as_i64 (v : Value) : option Z :=
  match v with
  | VNumber (PosInt n) => if (Z.of_N n <=? i64_max)%Z then Some (Z.of_N n) else None
  | VNumber (NegInt z) => Some z
  | _ => None
  end.
Definition as_u64 (v : Value) : option N :=
  match v with VNumber (PosInt n) => Some n | _ => None end.
(** [Value::from(i64)] and [Number::from_f64]. *)
Definition of_i64 (z : Z) : Value :=
  VNumber (if (z <? 0)%Z then NegInt z else PosInt (Z.to_N z)).
Definition number_from_f64 (f : f64) : option Number :=
  if f64_is_finite f then Some (Float f) else None.

(** ** Facts shared by the components *)

Lemma value_eqb_string v s : value_eqb v (VString s) = true ↔ v = VString s.
Proof.
  destruct v; cbn; split; try done.
  - intros ?%str_eqb_eq. by subst.
  - intros [= ->]. apply str_eqb_refl.
Qed.

Lemma value_eqb_string_l v s : value_eqb (VString s) v = true ↔ v = VString s.
Proof.
  destruct v; cbn; split; try done.
  - intros ?%str_eqb_eq. by subst.
  - intros [= ->]. apply str_eqb_refl.
Qed.

Lemma assoc_get_insert k v m :
  assoc_get k (assoc_insert k v m) = Some v.
Proof.
  induction m as [|[k' v'] m IH]; cbn; [by rewrite str_eqb_refl|].
  destruct (k =s? k') eqn:E; cbn; [by rewrite str_eqb_refl|].
  destruct (str_ltb k k'); cbn; [by rewrite str_eqb_refl|]. by rewrite E.
Qed.

Lemma assoc_get_insert_ne k k' v m :
  k ≠ k' → assoc_get k' (assoc_insert k v m) = assoc_get k' m.
Proof.
  intros Hne. induction m as [|[k'' v''] m IH]; cbn.
  - destruct (k' =s? k) eqn:E; [|done]. bools. congruence.
  - destruct (k =s? k'') eqn:E; cbn.
    + bools. subst k''. destruct (k' =s? k) eqn:E'; [|done]. bools. congruence.
    + destruct (str_ltb k k''); cbn.
      * destruct (k' =s? k) eqn:E'; [|done]. bools. congruence.
      * by rewrite IH.
Qed.

Lemma get_put k v o : is_Some (as_object o) → get k (put k v o) = Some v.
Proof. destruct o; intros [? [=]]; cbn. apply assoc_get_insert. Qed.

Lemma get_put_ne k k' v o : k ≠ k' → get k' (put k v o) = get k' o.
Proof. destruct o; try done. apply assoc_get_insert_ne. Qed.

#[export] Hint Resolve assoc_get_insert assoc_get_insert_ne get_put get_put_ne : ob.

(** Literals parse as floats with the value they denote. *)
Example parse_f64_literals :
  parse_f64 "5" = Some (f64_of_Z 5) ∧ parse_f64 "-12.50" = parse_f64 "-12.5"
  ∧ parse_f64 "0.1" = Some (S754_finite false 7205759403792794 (-56)).
Proof. by vm_compute. Qed.

(** ** Printing

    [Number::to_string] and [Value::to_string] belong to serde_json: they are
    parameters of the definitions that print values.  What the source relies
    on is that a number is printed by the JSON grammar's number rule. *)
Class SerdeText := {
  number_to_string : Number → string;
  value_to_string : Value → string;
}.
Definition is_number_char (c : ascii) : bool :=
  is_digit c || Ascii.eqb c "-" || Ascii.eqb c "+" || Ascii.eqb c "." || Ascii.eqb c "e".
Class SerdeTextLaws (T : SerdeText) : Prop := {
  number_text n : str_forall is_number_char (number_to_string n) = true;
}.

(** A concrete printer, for witnesses: integers in decimal; a float as its
    binary mantissa and exponent, in decimal. *)
Definition plain_number (n : Number) : string :=
  match n with
  | PosInt n => pretty n
  | NegInt z => pretty z
  | Float (S754_finite s m e) =>
      (if s then "-" else "") +:+ pretty (Npos m) +:+ "e" +:+ pretty e
  | Float _ => "0"
  end.
Fixpoint plain_value (v : Value) : string :=
  match v with
  | VNull => "null"
  | VBool b => if b then "true" else "false"
  | VNumber n => plain_number n
  | VString s => str1 QUOTE +:+ s +:+ str1 QUOTE
  | VArray l => "[" +:+ join "," (map plain_value l) +:+ "]"
  | VObject m => "{" +:+ join "," ((λ '(k, v), str1 QUOTE +:+ k +:+ str1 QUOTE +:+ ":" +:+ plain_value v) <$> m) +:+ "}"
  end.
Definition plain_text : SerdeText :=
  {| number_to_string := plain_number; value_to_string := plain_value |}.

Lemma pretty_N_char_digit x : (x < 10)%N → is_digit (pretty_N_char x) = true.
Proof.
  intros H. assert (x ∈ [0; 1; 2; 3; 4; 5; 6; 7; 8; 9]%N) as Hin.
  { rewrite !elem_of_cons. lia. }
  repeat (apply elem_of_cons in Hin as [->|Hin]; [by vm_compute|]).
  by apply not_elem_of_nil in Hin.
Qed.

Lemma pretty_N_go_digits x s :
  str_forall is_digit s = true → str_forall is_digit (pretty_N_go x s) = true.
Proof.
  revert s. induction (N.lt_wf_0 x) as [x _ IH]; intros s Hs.
  destruct (decide (x = 0)%N) as [->|Hx]; [by rewrite pretty_N_go_0|].
  rewrite pretty_N_go_step by lia. apply IH; [apply N.div_lt; lia|].
  cbn. rewrite pretty_N_char_digit, Hs; [done|]. apply N.mod_lt. lia.
Qed.

Lemma pretty_N_digits (x : N) : str_forall is_digit (pretty x) = true.
Proof.
  unfold pretty, pretty_N. case_decide; [by vm_compute|]. by apply pretty_N_go_digits.
Qed.

Lemma pretty_nat_digits (x : nat) : str_forall is_digit (pretty x) = true.
Proof. unfold pretty, pretty_nat. apply pretty_N_digits. Qed.

Lemma digits_number s : str_forall is_digit s = true → str_forall is_number_char s = true.
Proof. apply str_forall_impl. intros c H. unfold is_number_char. by rewrite H. Qed.

Lemma pretty_Z_number (z : Z) : str_forall is_number_char (pretty z) = true.
Proof.
  unfold pretty, pretty_Z. destruct z as [|p|p]; [by vm_compute| |].
  - apply digits_number, pretty_N_digits.
  - rewrite str_forall_app. apply andb_true_intro. split; [by vm_compute|].
    apply digits_number, pretty_N_digits.
Qed.

#[export] Hint Resolve pretty_N_digits pretty_nat_digits pretty_Z_number digits_number : ob.

Lemma plain_text_laws : SerdeTextLaws plain_text.
Proof.
  constructor. intros [n|z|[| | |s m e]]; cbn -[pretty]; try by vm_compute.
  1,2: auto with ob.
  rewrite !str_forall_app, pretty_Z_number, (digits_number (pretty _)) by auto with ob.
  by destruct s.
Qed.

(** ** Decimal texts *)

(** [str::parse::<i64>]. *)
Definition parse_i64 (s : string) : option Z :=
  let '(neg, ds) :=
    match s with
    | String c r => if Ascii.eqb c "-" then (true, r)
                    else if Ascii.eqb c "+" then (false, r) else (false, s)
    | "" => (false, s)
    end in
  if str_empty ds then None
  else
    n ← digits_value 0 ds;
    let z := if neg then (- Z.of_N n)%Z else Z.of_N n in
    if ((- 2 ^ 63 <=? z) && (z <=? i64_max))%Z then Some z else None.

Lemma digit_value_char d : (d < 10)%N → (byte_of (pretty_N_char d) - 48)%N = d.
Proof.
  intros H. assert (d ∈ [0; 1; 2; 3; 4; 5; 6; 7; 8; 9]%N) as Hin.
  { rewrite !elem_of_cons. lia. }
  repeat (apply elem_of_cons in Hin as [->|Hin]; [by vm_compute|]).
  by apply not_elem_of_nil in Hin.
Qed.

Lemma digits_value_pretty_go x s : digits_value 0 (pretty_N_go x s) = digits_value x s.
Proof.
  revert s. induction (N.lt_wf_0 x) as [x _ IH]; intros s.
  destruct (decide (x = 0)%N) as [->|Hx]; [by rewrite pretty_N_go_0|].
  rewrite pretty_N_go_step by lia. rewrite IH by (apply N.div_lt; lia).
  cbn [digits_value]. assert (x mod 10 < 10)%N as Hm by (apply N.mod_lt; lia).
  rewrite pretty_N_char_digit, digit_value_char by done. f_equal.
  pose proof (N.div_mod x 10 ltac:(lia)). lia.
Qed.

Lemma digits_value_pretty (x : N) : digits_value 0 (pretty x) = Some x.
Proof.
  unfold pretty, pretty_N. case_decide as H; [by subst|]. by rewrite digits_value_pretty_go.
Qed.

Lemma pretty_N_cons (x : N) : ∃ c s, pretty x = String c s ∧ is_digit c = true.
Proof.
  pose proof (pretty_N_digits x) as H. destruct (pretty x) as [|c s] eqn:E.
  - unfold pretty, pretty_N in E. case_decide; [done|]. rewrite pretty_N_go_step in E by lia.
    assert (∀ x y s, pretty_N_go x (String y s) ≠ "") as Hne; [|by apply Hne in E].
    intros z. induction (N.lt_wf_0 z) as [z _ IH]; intros y s.
    destruct (decide (z = 0)%N) as [->|]; [by rewrite pretty_N_go_0|].
    rewrite pretty_N_go_step by lia. apply IH, N.div_lt; lia.
  - cbn in H. bools. eauto.
Qed.

Lemma digit_not_sign c : is_digit c = true → Ascii.eqb c "-" = false ∧ Ascii.eqb c "+" = false.
Proof. intros H. split; apply Ascii.eqb_neq; intros ->; by vm_compute in H. Qed.

Lemma parse_i64_pretty (z : Z) : (- 2 ^ 63 ≤ z ≤ i64_max)%Z → parse_i64 (pretty z) = Some z.
Proof.
  intros Hz. unfold parse_i64.
  assert (∀ (n : N) (z : Z), (- 2 ^ 63 ≤ z ≤ i64_max)%Z →
    (if ((- 2 ^ 63 <=? z) && (z <=? i64_max))%Z then Some z else None) = Some z) as Hrange.
  { intros _ z' Hz'. by rewrite !(proj2 (Z.leb_le _ _)) by lia. }
  destruct z as [|p|p].
  - by vm_compute.
  - change (pretty (Z.pos p)) with (pretty (N.pos p)).
    destruct (pretty_N_cons (N.pos p)) as (c & s & E & Hc).
    pose proof (digits_value_pretty (N.pos p)) as Hv. rewrite E in *.
    destruct (digit_not_sign c Hc) as [-> ->]. cbn [str_empty]. rewrite Hv. cbn.
    apply (Hrange 0%N). done.
  - change (pretty (Z.neg p)) with (String "-" (pretty (N.pos p))). cbv beta iota. rewrite Ascii.eqb_refl.
    destruct (pretty_N_cons (N.pos p)) as (c & s & E & Hc).
    pose proof (digits_value_pretty (N.pos p)) as Hv. rewrite E in *. cbn [str_empty].
    rewrite Hv. cbn. apply (Hrange 0%N). done.
Qed.
