(* ===== verification/Float.v ===== *)
(** * Arithmetic on f64

    The operations of Rust's [f64] the price computations of ob-handlers use
    (multiplication, [min], [round] and [trunc] followed by [as i64]) on the
    binary64 numbers of Json.v, and one fact about them: a product that is at
    most a small integer exactly rounds to at most that integer. *)

From S2P Require Export Json.

(** ** Operations *)

Definition f64_mul (a b : f64) : f64 := SFmul f64_prec f64_emax a b.

(** [f64::min]: a NaN is ignored. *)
Definition f64_min (a b : f64) : f64 :=
  match a, b with
  | S754_nan, _ => b
  | _, S754_nan => a
  | _, _ => if f64_ltb b a then b else a
  end.

(** The cast to [i64] saturates; NaN becomes 0. *)
Definition saturate_i64 (z : Z) : Z := Z.max (- 2 ^ 63) (Z.min i64_max z).
Definition signed (s : bool) (z : Z) : Z := (if s then - z else z)%Z.
Definition f64_to_i64 (integral : Z → Z → Z) (f : f64) : Z :=
  match f with
  | S754_zero _ | S754_nan => 0
  | S754_infinity s => (if s then - 2 ^ 63 else i64_max)%Z
  | S754_finite s m e => saturate_i64 (signed s (integral (Zpos m) e))
  end.

(** [m * 2^e] without its fraction, and rounded half away from zero. *)
Definition trunc_int (m e : Z) : Z := (if 0 <=? e then m * 2 ^ e else m / 2 ^ (- e))%Z.
Definition round_int (m e : Z) : Z :=
  (if 0 <=? e then m * 2 ^ e else (m + 2 ^ (- e - 1)) / 2 ^ (- e))%Z.

(** [f as i64] and [f.round() as i64]: the integer [round] gives is an f64. *)
Definition f64_as_i64 : f64 → Z := f64_to_i64 trunc_int.
Definition f64_round_as_i64 : f64 → Z := f64_to_i64 round_int.

Definition f64_valid (f : f64) : bool := valid_binary f64_prec f64_emax f.

(** ** Rounding *)
Section rounding.
Local Open Scope Z_scope.

Lemma digits2_log2 m : 0 < m → Zdigits2 m = Z.log2 m + 1.
Proof.
  intros Hm. destruct m as [|p|p]; try lia. cbn [Zdigits2].
  assert (digits2_pos p = Pos.size p) as ->.
  { clear Hm. induction p; cbn; congruence. }
  destruct p; cbn [Z.log2 Pos.size]; lia.
Qed.

Lemma digits2_le m k : 0 < m → 0 ≤ k → m < 2 ^ k → Zdigits2 m ≤ k.
Proof. intros Hm Hk H. rewrite digits2_log2 by lia. apply Z.log2_lt_pow2 in H; lia. Qed.

Lemma iter_shr_m p mrs : 0 ≤ shr_m mrs → shr_m (SpecFloat.iter_pos shr_1 p mrs) = shr_m mrs / 2 ^ Zpos p.
Proof.
  assert (∀ mrs, 0 ≤ shr_m mrs → shr_m (shr_1 mrs) = shr_m mrs / 2) as H1.
  { intros [m r s]. cbn [shr_m]. intros Hm. unfold shr_1. cbn [shr_m].
    destruct m as [|[p'|p'|]|p']; cbn [shr_m]; try lia; try done.
    - rewrite (Pos2Z.inj_xI p'). apply Z.div_unique with 1; lia.
    - rewrite (Pos2Z.inj_xO p'). apply Z.div_unique with 0; lia. }
  revert mrs. induction p as [p IH|p IH|]; intros mrs Hm; cbn [SpecFloat.iter_pos].
  - assert (0 ≤ shr_m mrs / 2) by (apply Z.div_pos; lia).
    assert (0 ≤ shr_m mrs / 2 / 2 ^ Zpos p) by (apply Z.div_pos; [lia|apply Z.pow_pos_nonneg; lia]).
    rewrite !IH, H1 by (rewrite ?IH, ?H1 by (rewrite ?H1; lia); lia).
    rewrite !Z.div_div by (try apply Z.pow_pos_nonneg; lia). f_equal.
    replace (Zpos p~1) with (1 + Zpos p + Zpos p) by lia. rewrite !Z.pow_add_r by lia. lia.
  - assert (0 ≤ shr_m mrs / 2 ^ Zpos p) by (apply Z.div_pos; [lia|apply Z.pow_pos_nonneg; lia]).
    rewrite !IH by (rewrite ?IH by lia; lia).
    rewrite Z.div_div by (try apply Z.pow_pos_nonneg; lia). f_equal.
    replace (Zpos p~0) with (Zpos p + Zpos p) by lia. by rewrite Z.pow_add_r by lia.
  - by rewrite H1.
Qed.

(** One normalising shift: the mantissa loses [n] bits. *)
Lemma shr_fexp_spec m e : 0 ≤ m →
  let n := Z.max 0 (fexp f64_prec f64_emax (Zdigits2 m + e) - e) in
  ∃ mrs, shr_fexp f64_prec f64_emax m e loc_Exact = (mrs, e + n) ∧ shr_m mrs = m / 2 ^ n
    ∧ (n = 0 → loc_of_shr_record mrs = loc_Exact).
Proof.
  intros Hm n. unfold shr_fexp, shr. cbn [shr_record_of_loc].
  destruct (fexp _ _ _ - e) as [|p|p] eqn:E; subst n.
  1, 3: eexists; split_and!; [f_equal; lia| |done]; cbn; change (2 ^ 0) with 1; by rewrite Z.div_1_r.
  eexists. split_and!; [f_equal; lia| |lia]. rewrite iter_shr_m by done. cbn [shr_m]. repeat f_equal.
Qed.

Lemma round_nearest_even_le m l : m ≤ round_nearest_even m l ≤ m + 1.
Proof. unfold round_nearest_even. destruct l as [|[]]; try lia. destruct (Z.even m); lia. Qed.

(** A shift of a number below [2^20] leaves a small exponent. *)
Lemma shift_exponent m e b :
  0 ≤ m → e ≤ -33 → 0 < b < 2 ^ 20 → m ≤ b * 2 ^ (- e) + 1 →
  e + Z.max 0 (fexp f64_prec f64_emax (Zdigits2 m + e) - e) ≤ -33.
Proof.
  intros Hm He Hb Hmb. destruct (decide (m = 0)) as [->|Hne].
  { unfold fexp, f64_prec, f64_emax, emin. cbn [Zdigits2]. lia. }
  assert (Zdigits2 m ≤ 20 - e) as Hd.
  { apply digits2_le; [lia..|]. replace (20 - e) with (20 + - e) by lia. rewrite Z.pow_add_r by lia.
    assert (2 ^ 33 ≤ 2 ^ (- e)) by (apply Z.pow_le_mono_r; lia). nia. }
  unfold fexp, f64_prec, f64_emax, emin. lia.
Qed.

(** A positive number that is at most the integer [b], rounded to 53 bits, is
    at most [b] after rounding to an integer. *)
Lemma round_aux_bound m e b :
  0 < m → e ≤ -33 → 0 < b < 2 ^ 20 → m ≤ b * 2 ^ (- e) →
  0 ≤ f64_round_as_i64 (binary_round_aux f64_prec f64_emax false m e loc_Exact) ≤ b.
Proof.
  intros Hm He Hb Hmb. unfold binary_round_aux.
  assert (e + Z.max 0 (fexp f64_prec f64_emax (Zdigits2 m + e) - e) ≤ -33) as Hn by (eapply shift_exponent; eauto; lia).
  destruct (shr_fexp_spec m e) as (mrs & -> & Hq & _); [lia|].
  assert (0 ≤ Z.max 0 (fexp f64_prec f64_emax (Zdigits2 m + e) - e)) as Hn0 by lia.
  set (n := Z.max 0 _) in *. clearbody n. remember (e + n) as e1 eqn:He1.
  pose proof (round_nearest_even_le (shr_m mrs) (loc_of_shr_record mrs)) as Hr.
  set (r := round_nearest_even _ _) in *.
  assert (0 ≤ shr_m mrs) by (rewrite Hq; apply Z.div_pos; [lia|apply Z.pow_pos_nonneg; lia]).
  assert (r ≤ b * 2 ^ (- e1) + 1) as Hrb.
  { enough (shr_m mrs ≤ b * 2 ^ (- e1)) by lia. rewrite Hq. apply Z.div_le_upper_bound; [apply Z.pow_pos_nonneg; lia|].
    replace (2 ^ n * (b * 2 ^ (- e1))) with (b * (2 ^ n * 2 ^ (- e1))) by lia.
    rewrite <- Z.pow_add_r by lia. by replace (n + - e1) with (- e) by lia. }
  assert (e1 + Z.max 0 (fexp f64_prec f64_emax (Zdigits2 r + e1) - e1) ≤ -33) as Hn2
    by (eapply shift_exponent; eauto; lia).
  destruct (shr_fexp_spec r e1) as (mrs2 & -> & Hq2 & _); [lia|].
  assert (0 ≤ Z.max 0 (fexp f64_prec f64_emax (Zdigits2 r + e1) - e1)) as Hn20 by lia.
  set (n2 := Z.max 0 (_ - e1)) in *. clearbody n2. remember (e1 + n2) as e2 eqn:He2.
  destruct (shr_m mrs2) as [|q|q] eqn:Eq.
  - cbn. lia.
  - replace (e2 <=? f64_emax - f64_prec) with true by (symmetry; apply Z.leb_le; unfold f64_emax, f64_prec; lia).
    assert (Zpos q ≤ b * 2 ^ (- e2) + 1) as Hqb.
    { rewrite Hq2. apply Z.div_le_upper_bound; [apply Z.pow_pos_nonneg; lia|].
      replace (- e1) with (- e2 + n2) in Hrb by lia. rewrite Z.pow_add_r in Hrb by lia.
      assert (0 < 2 ^ n2) by (apply Z.pow_pos_nonneg; lia). nia. }
    unfold f64_round_as_i64, f64_to_i64, round_int, signed, saturate_i64.
    replace (0 <=? e2) with false by (symmetry; apply Z.leb_gt; lia).
    assert (2 ^ 33 ≤ 2 ^ (- e2)) by (apply Z.pow_le_mono_r; lia).
    assert (2 ^ (- e2) = 2 * 2 ^ (- e2 - 1)) by (rewrite <- Z.pow_succ_r by lia; f_equal; lia).
    assert (0 ≤ (Zpos q + 2 ^ (- e2 - 1)) / 2 ^ (- e2) < b + 1); [|unfold i64_max; lia].
    split; [apply Z.div_pos; lia|]. apply Z.div_lt_upper_bound; nia.
  - exfalso. assert (0 ≤ r / 2 ^ n2) by (apply Z.div_pos; [lia|apply Z.pow_pos_nonneg; lia]). lia.
Qed.

(** A valid mantissa has 53 bits. *)
Lemma valid_mantissa s m e : f64_valid (S754_finite s m e) = true → Zpos m < 2 ^ 53.
Proof.
  intros H. apply andb_true_iff in H as [H _]. apply Z.eqb_eq in H.
  pose proof (digits2_log2 (Zpos m)) as Hd. cbn [Zdigits2] in Hd.
  assert (Z.log2 (Zpos m) + 1 ≤ 53) as Hl by (unfold fexp, f64_prec, f64_emax, emin in H; lia).
  apply Z.log2_lt_pow2; lia.
Qed.

(** A number not above a normalised one of exponent [ec]. *)
Lemma not_above mc ec m e :
  f64_valid (S754_finite false m e) = true → 2 ^ 52 ≤ Zpos mc →
  f64_ltb (S754_finite false mc ec) (S754_finite false m e) = false →
  e ≤ ec ∧ Zpos m ≤ Zpos mc * 2 ^ (ec - e).
Proof.
  intros Hv%valid_mantissa Hc H. unfold f64_ltb, SFltb, SFcompare in H.
  destruct (Z.compare_spec ec e) as [->|Hlt|Hgt]; [|done|].
  - rewrite Z.sub_diag. split; [done|]. change (2 ^ 0) with 1.
    change (Pos.compare_cont Eq mc m) with (Pos.compare mc m) in H.
    destruct (Pos.compare_spec mc m); try done; subst; lia.
  - split; [lia|]. assert (2 ^ 1 ≤ 2 ^ (ec - e)) by (apply Z.pow_le_mono_r; lia). nia.
Qed.

(** The product of a constant and of a number that is not negative, first
    capped by another constant, is at most the product of the constants. *)
Lemma capped_product v mc ec my ey b :
  f64_valid v = true → (v = S754_nan ∨ f64_leb (S754_zero false) v = true) →
  2 ^ 52 ≤ Zpos mc → ec + ey ≤ -33 → 0 < b < 2 ^ 20 → Zpos mc * Zpos my ≤ b * 2 ^ (- (ec + ey)) →
  0 ≤ f64_round_as_i64 (f64_mul (f64_min v (S754_finite false mc ec)) (S754_finite false my ey)) ≤ b.
Proof.
  intros Hv Hs Hc He Hb Hm.
  assert (∀ m e, e ≤ ec → Zpos m ≤ Zpos mc * 2 ^ (ec - e) →
    0 ≤ f64_round_as_i64 (f64_mul (S754_finite false m e) (S754_finite false my ey)) ≤ b) as Hmul.
  { intros m e Hle Hme. cbn [f64_mul SFmul xorb]. apply round_aux_bound; [lia..|].
    replace (- (e + ey)) with (- (ec + ey) + (ec - e)) by lia. rewrite Z.pow_add_r by lia.
    assert (0 < 2 ^ (ec - e)) by (apply Z.pow_pos_nonneg; lia). nia. }
  assert (0 ≤ f64_round_as_i64 (f64_mul (S754_finite false mc ec) (S754_finite false my ey)) ≤ b) as Hcap.
  { apply Hmul; [done|]. rewrite Z.sub_diag. lia. }
  destruct v as [s|s| |s m e]; cbn [f64_min]; try case_match; try exact Hcap.
  - cbn. lia.
  - destruct s; [|done]. destruct Hs as [|Hs]; [done|]. by cbn in Hs.
  - destruct s; [destruct Hs as [|Hs]; [done|]; by cbn in Hs|].
    apply not_above in H as [??]; [|done..]. by apply Hmul.
Qed.
End rounding.
