(* ===== verification/Core.v ===== *)
(** * ob-core: errors and identifier validation

    The error type every handler returns with its mapping to an HTTP response
    ([ob-core/src/error.rs]), and the validators and the SQL string escaping
    that the query layer relies on ([ob-core/src/validate.rs]). *)

From S2P Require Export Json.

(** ** error.rs *)

Inductive Error : Type :=
| Config (m : string)
| Database (m : string)
| Auth (m : string)
| Forbidden (m : string)
| NotFound (m : string)
| Validation (m : string)
| UnsupportedMediaType (m : string)
| TooManyRequests (m : string)
| Internal (m : string).

(** [ob_core::Result]. *)
Abbreviation Result := (outcome Error).

Definition status_code (e : Error) : N :=
  match e with
  | Config _ => 500
  | Database _ => 500
  | Auth _ => 401
  | Forbidden _ => 403
  | NotFound _ => 404
  | Validation _ => 400
  | UnsupportedMediaType _ => 415
  | TooManyRequests _ => 429
  | Internal _ => 500
  end%N.

Definition error_code (e : Error) : string :=
  match e with
  | Config _ => "CONFIG_ERROR"
  | Database _ => "DATABASE_ERROR"
  | Auth _ => "AUTH_ERROR"
  | Forbidden _ => "FORBIDDEN"
  | NotFound _ => "NOT_FOUND"
  | Validation _ => "VALIDATION_ERROR"
  | UnsupportedMediaType _ => "UNSUPPORTED_MEDIA_TYPE"
  | TooManyRequests _ => "TOO_MANY_REQUESTS"
  | Internal _ => "INTERNAL_ERROR"
  end.

(** The [Display] implementation the [#[error("...")]] attributes derive. *)
Definition error_to_string (e : Error) : string :=
  match e with
  | Config m => "Configuration error: " +:+ m
  | Database m => "Database error: " +:+ m
  | Auth m => "Authentication error: " +:+ m
  | Forbidden m => "Authorization denied: " +:+ m
  | NotFound m => "Not found: " +:+ m
  | Validation m => "Validation error: " +:+ m
  | UnsupportedMediaType m => "Unsupported media type: " +:+ m
  | TooManyRequests m => "Too many requests: " +:+ m
  | Internal m => "Internal error: " +:+ m
  end.

Definition field_validation (field message : string) : Error :=
  Validation (field +:+ ": " +:+ message).
Definition resource_not_found (resource : string) : Error :=
  NotFound (resource +:+ " not found").

Definition safe_message (e : Error) : string :=
  match e with
  | Database _ | Internal _ | Config _ => "Internal server error"
  | other => error_to_string other
  end.

(** The response an error becomes: its status and its JSON body. *)
Definition into_response (e : Error) : N * Value :=
  (status_code e,
   VObject [("error", VObject
     [("code", VString (error_code e));
      ("message", VString (safe_message e));
      ("status", VNumber (PosInt (status_code e)))])]).

(** ** validate.rs *)

Definition KNOWN_COLLECTIONS : list string :=
  ["users"; "products"; "orders"; "reviews"; "payouts"; "refunds"; "webhook_logs";
   "webhook_events"; "security_alerts"; "rate_limits"; "config"; "admin_logs";
   "product_ratings"; "seller_ratings"; "review_votes"; "meilisearch_sync_failures";
   "_cron_locks"; "_cron_failures"; "return_requests"; "pending_profiles";
   "warehouses"; "cart"; "favorites"; "notifications"; "fcm_tokens"; "licenses";
   "book_access_tokens"; "software_access_tokens"; "addresses"; "buyer_addresses";
   "download_sessions"; "stock_notifications"; "product_questions"; "seller_metrics";
   "coupons"; "inventoryLevels"; "events"; "coupon_uses"; "user_security";
   "seller_profiles"; "seller_skus"; "_mail_logs"; "pending_redemptions";
   "subscriptions"; "chats"; "messages"; "platform_debt"; "message_reports";
   "disputes"; "payment_providers"].

Definition is_word (c : ascii) : bool := is_alnum c || Ascii.eqb c "_".

Definition validate_identifier (name : string) : Result string :=
  match name with
  | "" => Err (Validation "Identifier cannot be empty")
  | String first _ =>
      if 255 <? String.length name then Err (Validation "Identifier too long (max 255)")
      else if negb (is_alpha first) && negb (Ascii.eqb first "_") then
        Err (Validation ("Identifier must start with a letter or underscore, got: '"
               +:+ str1 first +:+ "'"))
      else if negb (str_forall is_word name) then
        Err (Validation ("Identifier '" +:+ name +:+
          "' contains invalid characters (only ASCII alphanumeric and underscore allowed)"))
      else Ok name
  end.

Definition validate_known_collection (name : string) : Result string :=
  _ ← validate_identifier name;
  if bool_decide (name ∈ KNOWN_COLLECTIONS) then Ok name
  else Err (Validation ("Unknown collection '" +:+ name +:+ "': not in allowlist")).

Definition is_doc_id_char (c : ascii) : bool :=
  is_alnum c || Ascii.eqb c "_" || Ascii.eqb c "-" || Ascii.eqb c ".".

Definition validate_document_id (id : string) : Result string :=
  if str_empty id then Err (Validation "Document ID cannot be empty")
  else if 512 <? String.length id then Err (Validation "Document ID too long (max 512)")
  else if negb (str_forall is_doc_id_char id) then
    Err (Validation ("Document ID '" +:+ id +:+ "' contains invalid characters"))
  else Ok id.

Definition escape_sql_string (s : string) : string :=
  replace_char APOS (String BACKSLASH (str1 APOS))
    (replace_char BACKSLASH (String BACKSLASH (str1 BACKSLASH)) s).

(** [validate_record_id]; [?] and the final [Ok(id)] make the value returned
    the input itself. *)
Definition validate_record_id (id : string) : Result string :=
  if str_empty id then Err (Validation "Record ID cannot be empty")
  else if 512 <? String.length id then Err (Validation "Record ID too long (max 512)")
  else match split_on ":" id with
  | [collection; record_id] =>
      if str_empty collection then Err (Validation "Collection name cannot be empty")
      else
        _ ← validate_identifier collection;
        if str_empty record_id then Err (Validation "Record ID part cannot be empty")
        else
          _ ← validate_document_id record_id;
          Ok id
  | _ => Err (Validation
      ("Record ID '" +:+ id +:+ "' must be in format 'collection:record_id'"))
  end.

(** ** Reading a SQL string literal

    What a SQL lexer reads after the opening quote: the value of the literal
    and the text left after its closing quote.  [lex_backslash] is the reading
    in which a backslash escapes the next character; [lex_standard] is the SQL
    standard's (PostgreSQL with [standard_conforming_strings] on, its default),
    in which a backslash is an ordinary character and a quote is written
    twice. *)
Fixpoint lex_backslash (s : string) : option (string * string) :=
  match s with
  | "" => None
  | String c s' =>
      if Ascii.eqb c APOS then Some ("", s')
      else if Ascii.eqb c BACKSLASH then
        match s' with
        | "" => None
        | String d s'' => '(v, r) ← lex_backslash s''; Some (String d v, r)
        end
      else '(v, r) ← lex_backslash s'; Some (String c v, r)
  end.

Fixpoint lex_standard (s : string) : option (string * string) :=
  match s with
  | "" => None
  | String c s' =>
      if Ascii.eqb c APOS then
        match s' with
        | String d s'' =>
            if Ascii.eqb d APOS then '(v, r) ← lex_standard s''; Some (String APOS v, r)
            else Some ("", s')
        | "" => Some ("", "")
        end
      else '(v, r) ← lex_standard s'; Some (String c v, r)
  end.

(** ** Properties *)

Lemma validate_identifier_Ok name r :
  validate_identifier name = Ok r ↔
  r = name ∧ name ≠ "" ∧ (String.length name ≤ 255) ∧ str_forall is_word name = true
  ∧ ∀ c s, name = String c s → is_digit c = false.
Proof.
  unfold validate_identifier. destruct name as [|c s]; [split; [done|]; intros (_ & ? & _); done|].
  destruct (255 <? String.length (String c s)) eqn:E1.
  { apply Nat.ltb_lt in E1. split; [done|]. intros. lia. }
  apply Nat.ltb_ge in E1.
  destruct (negb (is_alpha c) && negb (Ascii.eqb c "_")) eqn:E2; cbn [negb].
  - split; [done|]. intros (_ & _ & _ & Hw & Hd). specialize (Hd _ _ eq_refl).
    cbn in Hw. apply andb_true_iff in Hw as [Hw _].
    apply andb_true_iff in E2 as [Ea Eb]. apply negb_true_iff in Ea, Eb.
    unfold is_word, is_alnum in Hw. by rewrite Ea, Eb, Hd in Hw.
  - destruct (str_forall is_word (String c s)) eqn:E3; cbn [negb].
    + split; [|naive_solver]. intros [= <-]. split_and!; try done.
      intros c' s' [= <- <-]. clear E3 E1.
      destruct (Ascii.eqb_spec c "_") as [->|_]; [by vm_compute|].
      apply andb_false_iff in E2 as [E2|[=]]. apply negb_false_iff in E2.
      clear -E2. revert E2. unfold is_alpha, is_upper, is_lower, is_digit, in_range.
      cbn. intros H. apply orb_true_iff in H. destruct H; bools;
      rewrite ?N.leb_le in *; apply andb_false_iff; right; apply N.leb_gt; lia.
    + naive_solver.
Qed.

Lemma validate_identifier_word name r :
  validate_identifier name = Ok r → str_forall is_word name = true.
Proof. rewrite validate_identifier_Ok. naive_solver. Qed.

Lemma word_not_quote c : is_word c = true → c ≠ APOS ∧ c ≠ BACKSLASH ∧ c ≠ "."%char.
Proof. intros H. split_and!; intros ->; by vm_compute in H. Qed.

Lemma validate_document_id_Ok name r :
  validate_document_id name = Ok r ↔
  r = name ∧ name ≠ "" ∧ String.length name ≤ 512 ∧ str_forall is_doc_id_char name = true.
Proof.
  unfold validate_document_id. destruct name as [|c s]; [split; [done|]; naive_solver|].
  cbn [str_empty]. destruct (512 <? String.length (String c s)) eqn:E1.
  { apply Nat.ltb_lt in E1. split; [done|]. intros. lia. }
  apply Nat.ltb_ge in E1.
  destruct (str_forall is_doc_id_char (String c s)); cbn [negb]; naive_solver.
Qed.

Lemma char_free p c s :
  str_forall p s = true → p c = false → str_exists (Ascii.eqb c) s = false.
Proof.
  intros Hs Hc. induction s as [|a s IH]; [done|]. cbn in *. bools. rewrite IH by done.
  destruct (Ascii.eqb_spec c a) as [->|]; [congruence|done].
Qed.

Lemma split_on_two c a b :
  str_exists (Ascii.eqb c) a = false → str_exists (Ascii.eqb c) b = false →
  split_on c (a +:+ String c b) = [a; b].
Proof.
  intros Ha Hb. induction a as [|x a IH].
  - rewrite str_app_nil_l. cbn. by rewrite Ascii.eqb_refl, split_on_no_sep.
  - cbn in Ha. bools. rewrite str_app_cons. cbn. rewrite IH by done.
    by rewrite Ascii.eqb_sym, H.
Qed.

Lemma escape_app s t : escape_sql_string (s +:+ t) = escape_sql_string s +:+ escape_sql_string t.
Proof. unfold escape_sql_string. by rewrite !replace_char_app. Qed.

Lemma escape_cons c s :
  escape_sql_string (String c s) =
  (if Ascii.eqb c BACKSLASH then String BACKSLASH (str1 BACKSLASH)
   else if Ascii.eqb c APOS then String BACKSLASH (str1 APOS) else str1 c)
  +:+ escape_sql_string s.
Proof.
  change (String c s) with (str1 c +:+ s). rewrite escape_app. f_equal.
  unfold escape_sql_string. cbn [replace_char str1].
  destruct (Ascii.eqb_spec c BACKSLASH) as [->|Hb]; [done|].
  rewrite str_app_nil_r. cbn. destruct (Ascii.eqb_spec c APOS); done.
Qed.

Lemma escape_no_bare_quote s r : escape_sql_string s ≠ "" →
  ∀ d t, escape_sql_string s +:+ r = String d t → d ≠ APOS.
Proof.
  destruct s as [|c s]; [done|]. intros _ d t. rewrite escape_cons, str_app_assoc.
  destruct (Ascii.eqb_spec c BACKSLASH); [|destruct (Ascii.eqb_spec c APOS)];
    cbn; intros [= <- _]; try done.
Qed.

Lemma escape_empty_iff s : escape_sql_string s = "" ↔ s = "".
Proof.
  destruct s as [|c s]; [done|]. rewrite escape_cons.
  repeat case_match; cbn; naive_solver.
Qed.

Lemma escape_quote_free s : str_exists (Ascii.eqb APOS) s = false →
  ∀ t, lex_standard (escape_sql_string s +:+ t) =
       ('(v, r) ← lex_standard t; Some (escape_sql_string s +:+ v, r)).
Proof.
  induction s as [|c s IH]; intros Hq t.
  - change (escape_sql_string "") with "". rewrite str_app_nil_l. destruct (lex_standard t) as [[]|]; reflexivity.
  - cbn in Hq. apply orb_false_iff in Hq as [Hc Hq]. rewrite escape_cons.
    rewrite (Ascii.eqb_sym c APOS), Hc. rewrite str_app_assoc.
    destruct (Ascii.eqb_spec c BACKSLASH) as [->|Hb].
    + unfold str1. rewrite !str_app_cons, !str_app_nil_l. cbn [lex_standard].
      cbn. rewrite IH by done. destruct (lex_standard t) as [[]|]; reflexivity.
    + unfold str1. rewrite !str_app_cons, !str_app_nil_l. cbn [lex_standard].
      rewrite (Ascii.eqb_sym c APOS), Hc, IH by done. destruct (lex_standard t) as [[]|]; reflexivity.
Qed.

Lemma lex_backslash_escaped d s :
  lex_backslash (String BACKSLASH (String d s)) =
  ('(v, r) ← lex_backslash s; Some (String d v, r)).
Proof. done. Qed.

(** The escaping is exact for a lexer in which a backslash escapes: between
    quotes, the escaped text of any string reads back as that string, and the
    literal ends where the generated closing quote stands. *)
Theorem escape_sql_string_roundtrip s rest :
  lex_backslash (escape_sql_string s +:+ str1 APOS +:+ rest) = Some (s, rest).
Proof.
  induction s as [|c s IH]; [done|].
  rewrite escape_cons, str_app_assoc.
  destruct (Ascii.eqb_spec c BACKSLASH) as [->|Hb].
  { unfold str1 at 1. by rewrite !str_app_cons, str_app_nil_l, lex_backslash_escaped, IH. }
  destruct (Ascii.eqb_spec c APOS) as [->|Ha].
  { unfold str1 at 1. by rewrite !str_app_cons, str_app_nil_l, lex_backslash_escaped, IH. }
  unfold str1 at 1. rewrite !str_app_cons, !str_app_nil_l. cbn [lex_backslash].
  apply Ascii.eqb_neq in Hb, Ha. by rewrite Hb, Ha, IH.
Qed.

(** With standard-conforming literals, which is how PostgreSQL reads the
    ['...'] the query builder emits, a quote in the input ends the literal: the
    rest of the input is left outside of it, as SQL text. *)
Theorem escape_sql_string_standard_breakout a b rest :
  str_exists (Ascii.eqb APOS) a = false → b ≠ "" →
  lex_standard (escape_sql_string (a +:+ str1 APOS +:+ b) +:+ str1 APOS +:+ rest)
  = Some (escape_sql_string a +:+ str1 BACKSLASH,
          escape_sql_string b +:+ str1 APOS +:+ rest).
Proof.
  intros Ha Hb. rewrite !escape_app, !str_app_assoc, escape_quote_free by done.
  change (escape_sql_string (str1 APOS)) with (String BACKSLASH (str1 APOS)).
  unfold str1 at 1. rewrite !str_app_cons, !str_app_nil_l. cbn [lex_standard].
  rewrite Ascii.eqb_refl. change (Ascii.eqb BACKSLASH APOS) with false. cbn iota.
  destruct (escape_sql_string b +:+ str1 APOS +:+ rest) as [|d t] eqn:E.
  { assert (b = "") by (apply escape_empty_iff; by destruct (escape_sql_string b)). done. }
  rewrite (proj2 (Ascii.eqb_neq d APOS)); [done|].
  eapply escape_no_bare_quote; [|exact E]. by rewrite escape_empty_iff.
Qed.

Lemma escape_sql_string_standard_breakout_witness :
  lex_standard (escape_sql_string (String "x" (str1 APOS) +:+ " OR true --") +:+ str1 APOS)
  = Some (String "x" (str1 BACKSLASH), " OR true --" +:+ str1 APOS).
Proof.
  apply (escape_sql_string_standard_breakout "x" " OR true --" ""); done.
Defined.

(** An error of a kind that may carry internal details (database,
    internal, configuration) is answered by the same response whatever its
    message; every other error answers with its full text. *)
Theorem into_response_redacts e e' :
  error_code e = error_code e' →
  status_code e = 500%N → into_response e = into_response e'.
Proof. by destruct e, e'. Qed.

Lemma into_response_redacts_witness :
  into_response (Database "relation users: password authentication failed") =
  into_response (Database "").
Proof. by apply into_response_redacts. Defined.

(** A record id is accepted exactly when it is a collection name and a
    document id, each valid on its own, joined by one colon, in at most 512
    bytes; what is returned is the id itself. *)
Theorem validate_record_id_spec id r :
  validate_record_id id = Ok r ↔
  r = id ∧ String.length id ≤ 512 ∧
  ∃ collection record_id, id = collection +:+ ":" +:+ record_id
    ∧ validate_identifier collection = Ok collection
    ∧ validate_document_id record_id = Ok record_id.
Proof.
  unfold validate_record_id. split.
  - intros H. destruct (str_empty id) eqn:E0; [done|].
    destruct (512 <? String.length id) eqn:E; [done|]. apply Nat.ltb_ge in E.
    pose proof (join_split_on ":" id) as Hj.
    destruct (split_on ":" id) as [|c [|d [|]]]; try done. cbn [join] in Hj.
    destruct (str_empty c); [done|].
    destruct (validate_identifier c) as [c'| |] eqn:Hc; [|done..]. cbn in H.
    destruct (str_empty d); [done|].
    destruct (validate_document_id d) as [d'| |] eqn:Hd; [|done..]. cbn in H.
    injection H as <-. split; [done|]. split; [done|]. exists c, d. split; [done|].
    pose proof (proj1 (validate_identifier_Ok _ _) Hc) as [-> _].
    by pose proof (proj1 (validate_document_id_Ok _ _) Hd) as [-> _].
  - intros (-> & Hl & c & d & -> & Hc & Hd).
    pose proof (proj1 (validate_identifier_Ok _ _) Hc) as (_ & Hc0 & _ & Hcw & _).
    pose proof (proj1 (validate_document_id_Ok _ _) Hd) as (_ & Hd0 & _ & Hdw).
    change (c +:+ ":" +:+ d) with (c +:+ String ":" d) in *.
    rewrite split_on_two; [|by eapply char_free|by eapply char_free].
    destruct c as [|a c]; [done|]. destruct d as [|b d]; [done|].
    rewrite (proj2 (Nat.ltb_ge _ _) Hl). cbn [str_empty]. rewrite str_app_cons.
    cbn [str_empty]. by rewrite Hc, Hd.
Qed.
