(* ===== verification/RulesGrammar.v ===== *)
(** * The grammar of the security rules

    [ob-security/src/rules.pest], transcribed rule by rule as parsing
    expressions, with the reading pest gives them: ordered choice, greedy
    repetition, no backtracking into a repetition, implicit [WHITESPACE] and
    [COMMENT] between the items of a sequence or a repetition outside atomic
    rules, and one token pair per (non silent) rule matched outside an atomic
    rule.  [run] executes them with a recursion budget; [file_fuel] is proved to
    be enough for every input ([parse_file_total]). *)

From S2P Require Export Core.

(** ** Parsing expressions *)

Inductive rule : Type :=
| r_ident | r_dot_path | r_string_lit | r_number_lit | r_bool_lit
| r_value | r_function_call | r_comp_op | r_not_op | r_atom | r_comparison
| r_not_expr | r_and_expr | r_expr | r_operation | r_op_list
| r_rule_entry | r_validate_entry | r_collection_name | r_rule_block
| r_file | r_EOI.

Global Instance rule_eq_dec : EqDecision rule.
Proof. solve_decision. Defined.

Inductive peg : Type :=
| PLit (s : string)
| PClass (p : ascii → bool)
| PSeq (a b : peg)
| PAlt (a b : peg)
| PStar (a : peg)
| POpt (a : peg)
| PEoi
| PRule (r : rule).

(** A token pair: the rule, the text it matched, the pairs inside it. *)
Inductive pair : Type :=
| Pair (r : rule) (text : string) (inner : list pair).

Definition as_rule (p : pair) : rule := let 'Pair r _ _ := p in r.
Definition pair_text (p : pair) : string := let 'Pair _ t _ := p in t.
Definition into_inner (p : pair) : list pair := let 'Pair _ _ i := p in i.

Declare Scope peg_scope.
Delimit Scope peg_scope with peg.
Bind Scope peg_scope with peg.
Infix "~" := PSeq (at level 42, right associativity) : peg_scope.
Infix "|/" := PAlt (at level 60, right associativity) : peg_scope.
Local Open Scope peg_scope.

(** [(!"c" ~ ANY)]: any character but [c]. *)
Definition not_char (c : ascii) : peg := PClass (λ a, negb (Ascii.eqb a c)).
Definition p_plus (a : peg) : peg := a ~ PStar a.

(** The second component is [true] for the atomic rules, written [@{ ... }]. *)
Definition grammar (r : rule) : bool * peg :=
  match r with
  | r_ident => (true, PClass is_alpha ~ PStar (PClass (λ c, is_alnum c || Ascii.eqb c "_")))
  | r_dot_path => (true, PRule r_ident ~ PStar (PLit "." ~ PRule r_ident))
  | r_string_lit => (true, PLit (str1 QUOTE) ~ PStar (not_char QUOTE) ~ PLit (str1 QUOTE))
  | r_number_lit =>
      (true, POpt (PLit "-") ~ PClass is_digit ~ PStar (PClass is_digit)
             ~ POpt (PLit "." ~ PClass is_digit ~ PStar (PClass is_digit)))
  | r_bool_lit => (true, PLit "true" |/ PLit "false")
  | r_value =>
      (false, PRule r_function_call |/ PRule r_bool_lit |/ PRule r_string_lit
              |/ PRule r_number_lit |/ PRule r_dot_path)
  | r_function_call =>
      (false, PRule r_ident ~ PLit "("
              ~ POpt (PRule r_value ~ PStar (PLit "," ~ PRule r_value)) ~ PLit ")")
  | r_comp_op =>
      (false, PLit ">=" |/ PLit "<=" |/ PLit "!=" |/ PLit ">" |/ PLit "<" |/ PLit "==")
  | r_not_op => (false, PLit "!")
  | r_atom => (false, (PLit "(" ~ PRule r_expr ~ PLit ")") |/ PRule r_value)
  | r_comparison => (false, PRule r_atom ~ PRule r_comp_op ~ PRule r_atom)
  | r_not_expr =>
      (false, (PRule r_not_op ~ PRule r_atom) |/ PRule r_comparison |/ PRule r_atom)
  | r_and_expr => (false, PRule r_not_expr ~ PStar (PLit "&&" ~ PRule r_not_expr))
  | r_expr => (false, PRule r_and_expr ~ PStar (PLit "||" ~ PRule r_and_expr))
  | r_operation =>
      (false, PLit "read" |/ PLit "create" |/ PLit "update" |/ PLit "delete" |/ PLit "list")
  | r_op_list => (false, PRule r_operation ~ PStar (PLit "," ~ PRule r_operation))
  | r_rule_entry => (false, PRule r_op_list ~ PLit ":" ~ PRule r_expr ~ PLit ";")
  | r_validate_entry =>
      (false, PRule r_op_list ~ PLit ":" ~ PLit "{" ~ PLit "validate" ~ PLit ":"
              ~ PRule r_expr ~ PLit ";" ~ PLit "}")
  | r_collection_name => (true, PLit "*" |/ PRule r_ident)
  | r_rule_block =>
      (false, PLit "rules" ~ PRule r_collection_name ~ PLit "{"
              ~ PStar (PRule r_validate_entry |/ PRule r_rule_entry) ~ PLit "}")
  | r_file => (false, PLit "" ~ PStar (PRule r_rule_block) ~ PRule r_EOI)
  | r_EOI => (false, PEoi)
  end.

(** ** Execution *)

Definition is_ws (c : ascii) : bool :=
  Ascii.eqb c " " || Ascii.eqb c TAB || Ascii.eqb c CR || Ascii.eqb c LF.

(** [(WHITESPACE | COMMENT)*]; [comment] tells that a ["//"] is open. *)
Fixpoint skip_go (comment : bool) (s : string) : string :=
  match s with
  | "" => ""
  | String c s' =>
      if comment then skip_go (negb (Ascii.eqb c LF)) s'
      else if is_ws c then skip_go false s'
      else if Ascii.eqb c "/" then
        match s' with
        | String d s'' => if Ascii.eqb d "/" then skip_go true s'' else s
        | "" => s
        end
      else s
  end.
Definition skip (s : string) : string := skip_go false s.

Inductive presult : Type :=
| PFail
| POk (rest : string) (ps : list pair)
| PFuel.

(** The text between a position and a later one. *)
Definition consumed (s rest : string) : string :=
  String.substring 0 (String.length s - String.length rest) s.

Definition skip_unless (atomic : bool) (s : string) : string :=
  if atomic then s else skip s.

Fixpoint run (fuel : nat) (atomic : bool) (e : peg) (s : string) : presult :=
  match fuel with
  | O => PFuel
  | S fuel =>
      match e with
      | PLit l => match strip_prefix l s with Some r => POk r [] | None => PFail end
      | PClass p =>
          match s with
          | String c r => if p c then POk r [] else PFail
          | "" => PFail
          end
      | PSeq a b =>
          match run fuel atomic a s with
          | POk r ps =>
              match run fuel atomic b (skip_unless atomic r) with
              | POk r' ps' => POk r' (ps ++ ps')
              | o => o
              end
          | o => o
          end
      | PAlt a b =>
          match run fuel atomic a s with PFail => run fuel atomic b s | o => o end
      | PStar a =>
          match run fuel atomic a s with
          | POk r ps =>
              match run_more fuel atomic a r with
              | POk r' ps' => POk r' (ps ++ ps')
              | o => o
              end
          | PFail => POk s []
          | PFuel => PFuel
          end
      | POpt a => match run fuel atomic a s with PFail => POk s [] | o => o end
      | PEoi => match s with "" => POk "" [] | _ => PFail end
      | PRule r =>
          let '(at_, body) := grammar r in
          match run fuel (atomic || at_) body s with
          | POk rest ps =>
              POk rest (if atomic then [] else [Pair r (consumed s rest) ps])
          | o => o
          end
      end
  end
(** The further iterations of a repetition: [(skip ~ a)*]. *)
with run_more (fuel : nat) (atomic : bool) (a : peg) (s : string) : presult :=
  match fuel with
  | O => PFuel
  | S fuel =>
      match run fuel atomic a (skip_unless atomic s) with
      | POk r ps =>
          match run_more fuel atomic a r with
          | POk r' ps' => POk r' (ps ++ ps')
          | o => o
          end
      | PFail => POk s []
      | PFuel => PFuel
      end
  end.

Definition file_fuel (s : string) : nat := 64 * S (String.length s).

(** [RulesParser::parse(Rule::file, input)]. *)
Definition parse_file (input : string) : presult :=
  run (file_fuel input) false (PRule r_file) input.

(** ** The budget never changes a result *)

Lemma run_mono fuel :
  (∀ at_ e s, run fuel at_ e s ≠ PFuel → ∀ f', fuel ≤ f' →
     run f' at_ e s = run fuel at_ e s)
  ∧ (∀ at_ e s, run_more fuel at_ e s ≠ PFuel → ∀ f', fuel ≤ f' →
     run_more f' at_ e s = run_more fuel at_ e s).
Proof.
  induction fuel as [|fuel [IHr IHm]]; [done|].
  split; intros at_ e s Hne f' Hle;
    (destruct f' as [|f']; [lia|]); apply le_S_n in Hle.
  - destruct e; cbn in *; try done;
    repeat match goal with
    | H : context [match run fuel ?x ?y ?z with _ => _ end] |- _ =>
        pose proof (λ P, IHr x y z P f' Hle); destruct (run fuel x y z)
    | H : context [match run_more fuel ?x ?y ?z with _ => _ end] |- _ =>
        pose proof (λ P, IHm x y z P f' Hle); destruct (run_more fuel x y z)
    | H : ?a ≠ ?b → _ = _ |- _ => rewrite H by done; clear H
    | |- context [let '(_, _) := ?g in _] => destruct g
    end; try done; eauto.
  - cbn in *.
    repeat match goal with
    | H : context [match run fuel ?x ?y ?z with _ => _ end] |- _ =>
        pose proof (λ P, IHr x y z P f' Hle); destruct (run fuel x y z)
    | H : context [match run_more fuel ?x ?y ?z with _ => _ end] |- _ =>
        pose proof (λ P, IHm x y z P f' Hle); destruct (run_more fuel x y z)
    | H : ?a ≠ ?b → _ = _ |- _ => rewrite H by done; clear H
    end; done.
Qed.

Lemma run_fuel_irrel f f' at_ e s :
  run f at_ e s ≠ PFuel → run f' at_ e s ≠ PFuel → run f at_ e s = run f' at_ e s.
Proof.
  intros H H'. destruct (Nat.le_ge_cases f f') as [Hle|Hle].
  - symmetry. by apply (proj1 (run_mono f)).
  - by apply (proj1 (run_mono f')).
Qed.

(** ** Matching consumes a prefix *)

Lemma skip_go_length b s : String.length (skip_go b s) ≤ String.length s.
Proof.
  enough (∀ n s b, String.length s < n → String.length (skip_go b s) ≤ String.length s)
    as Hall by eauto.
  induction n as [|n IH]; intros t b' Hlt; [lia|].
  destruct t as [|c t']; cbn in *; [lia|].
  assert (∀ b, String.length (skip_go b t') ≤ S (String.length t')) as Ht'.
  { intros b''. etrans; [apply IH|]; lia. }
  repeat case_match; cbn in *; auto.
  etrans; [apply IH|]; lia.
Qed.

Lemma skip_unless_length b s : String.length (skip_unless b s) ≤ String.length s.
Proof. destruct b; cbn; [lia|]. apply skip_go_length. Qed.

(** What matches at least one character. *)
Fixpoint consumes (e : peg) : bool :=
  match e with
  | PLit l => negb (str_empty l)
  | PClass _ => true
  | PSeq a b => consumes a || consumes b
  | PAlt a b => consumes a && consumes b
  | PStar _ | POpt _ | PEoi => false
  | PRule r => bool_decide (r ≠ r_EOI) && bool_decide (r ≠ r_file)
  end.

Lemma consumes_grammar r : consumes (PRule r) = true → consumes (snd (grammar r)) = true.
Proof. by destruct r. Qed.

Lemma run_length fuel :
  (∀ at_ e s r ps, run fuel at_ e s = POk r ps →
     String.length r + (if consumes e then 1 else 0) ≤ String.length s)
  ∧ (∀ at_ e s r ps, run_more fuel at_ e s = POk r ps →
     String.length r ≤ String.length s).
Proof.
  induction fuel as [|fuel [IHr IHm]]; [done|].
  split; intros at_ e s r ps.
  - destruct e as [l|p|a b|a b|a|a| |ru]; cbn.
    + destruct (strip_prefix l s) eqn:E; [|done]. intros [= -> _].
      apply strip_prefix_Some in E as ->. rewrite str_length_app.
      destruct l; cbn; lia.
    + destruct s as [|c s]; [done|]. destruct (p c); [|done]. intros [= <- _]. cbn. lia.
    + destruct (run fuel at_ a s) as [|r1 p1|] eqn:E1; try done.
      destruct (run fuel at_ b _) as [|r2 p2|] eqn:E2; try done.
      intros [= <- _]. apply IHr in E1, E2. pose proof (skip_unless_length at_ r1).
      destruct (consumes a), (consumes b); cbn in *; lia.
    + destruct (run fuel at_ a s) as [|r1 p1|] eqn:E1; try done.
      * intros E2. apply IHr in E2. destruct (consumes a), (consumes b); cbn in *; lia.
      * intros [= <- _]. apply IHr in E1. destruct (consumes a), (consumes b); cbn in *; lia.
    + destruct (run fuel at_ a s) as [|r1 p1|] eqn:E1; try done.
      * intros [= <- _]. lia.
      * destruct (run_more fuel at_ a r1) as [|r2 p2|] eqn:E2; try done.
        intros [= <- _]. apply IHr in E1. apply IHm in E2. lia.
    + destruct (run fuel at_ a s) as [|r1 p1|] eqn:E1; try done; intros [= <- _]; [lia|].
      apply IHr in E1. lia.
    + destruct s; [|done]. intros [= <- _]. cbn. lia.
    + pose proof (consumes_grammar ru) as Hc. cbn in Hc.
      destruct (grammar ru) as [am body].
      destruct (run fuel _ body s) as [|r1 p1|] eqn:E1; try done. intros [= <- _].
      apply IHr in E1. cbn in Hc. revert Hc.
      destruct (bool_decide (ru ≠ r_EOI) && bool_decide (ru ≠ r_file)); [|lia].
      intros Hc. rewrite Hc in E1 by done. lia.
  - cbn. destruct (run fuel at_ e _) as [|r1 p1|] eqn:E1; try done.
    + intros [= <- _]. lia.
    + destruct (run_more fuel at_ e r1) as [|r2 p2|] eqn:E2; try done.
      intros [= <- _]. apply IHr in E1. apply IHm in E2.
      pose proof (skip_unless_length at_ s). lia.
Qed.

Lemma run_consumes fuel at_ e s r ps :
  consumes e = true → run fuel at_ e s = POk r ps → String.length r < String.length s.
Proof. intros Hc H. apply (proj1 (run_length fuel)) in H. rewrite Hc in H. lia. Qed.

Lemma run_shrinks fuel at_ e s r ps :
  run fuel at_ e s = POk r ps → String.length r ≤ String.length s.
Proof. intros H. apply (proj1 (run_length fuel)) in H. lia. Qed.

(** ** The budget is enough

    [total d e n]: on every input of length [m ≤ n], a budget of [64 * m + d]
    runs [e] to an answer. *)
Definition total (d : nat) (e : peg) (n : nat) : Prop :=
  ∀ m at_ s, m ≤ n → String.length s ≤ m → run (64 * m + d) at_ e s ≠ PFuel.

Lemma total_le d d' e n : d ≤ d' → total d e n → total d' e n.
Proof.
  intros Hle Ht m at_ s Hm Hs. specialize (Ht m at_ s Hm Hs).
  rewrite (proj1 (run_mono (64 * m + d))); [done..|lia].
Qed.

Lemma total_lit d l n : 1 ≤ d → total d (PLit l) n.
Proof.
  intros Hd m at_ s _ _. destruct d as [|d]; [lia|].
  rewrite Nat.add_succ_r. cbn. by case_match.
Qed.

Lemma total_class d p n : 1 ≤ d → total d (PClass p) n.
Proof.
  intros Hd m at_ s _ _. destruct d as [|d]; [lia|].
  rewrite Nat.add_succ_r. cbn [run]. by repeat case_match.
Qed.

Lemma total_eoi d n : 1 ≤ d → total d PEoi n.
Proof.
  intros Hd m at_ s _ _. destruct d as [|d]; [lia|].
  rewrite Nat.add_succ_r. cbn [run]. by case_match.
Qed.

Lemma total_seq d a b n : total d a n → total d b n → total (S d) (PSeq a b) n.
Proof.
  intros Ha Hb m at_ s Hm Hs. rewrite Nat.add_succ_r. cbn [run].
  specialize (Ha m at_ s Hm Hs). destruct (run _ at_ a s) as [|r ps|] eqn:E; try done.
  specialize (Hb m at_ (skip_unless at_ r) Hm).
  apply run_shrinks in E. pose proof (skip_unless_length at_ r).
  destruct (run _ at_ b _); try done. exfalso. apply Hb; [lia|done].
Qed.

(** After a match that consumed, the budget of a shorter input is left. *)
Lemma total_seq_consumes d a b n :
  consumes a = true → total d a n → (∀ k, k < n → total (64 + d) b k) →
  total (S d) (PSeq a b) n.
Proof.
  intros Hc Ha Hb m at_ s Hm Hs. rewrite Nat.add_succ_r. cbn [run].
  specialize (Ha m at_ s Hm Hs). destruct (run _ at_ a s) as [|r ps|] eqn:E; try done.
  apply run_consumes in E; [|done]. pose proof (skip_unless_length at_ r).
  specialize (Hb (pred m) ltac:(lia) (pred m) at_ (skip_unless at_ r)).
  replace (64 * pred m + (64 + d)) with (64 * m + d) in Hb by lia.
  destruct (run _ at_ b _); try done. exfalso. apply Hb; [lia|lia|done].
Qed.

Lemma total_alt d a b n : total d a n → total d b n → total (S d) (PAlt a b) n.
Proof.
  intros Ha Hb m at_ s Hm Hs. rewrite Nat.add_succ_r. cbn [run].
  specialize (Ha m at_ s Hm Hs). specialize (Hb m at_ s Hm Hs).
  by destruct (run _ at_ a s).
Qed.

Lemma total_opt d a n : total d a n → total (S d) (POpt a) n.
Proof.
  intros Ha m at_ s Hm Hs. rewrite Nat.add_succ_r. cbn [run].
  specialize (Ha m at_ s Hm Hs). by destruct (run _ at_ a s).
Qed.

Lemma total_more d a n at_ : consumes a = true → total d a n →
  ∀ m s, m ≤ n → String.length s ≤ m → run_more (64 * m + S d) at_ a s ≠ PFuel.
Proof.
  intros Hc Ha. induction m as [|m IH]; intros s Hm Hs; rewrite Nat.add_succ_r; cbn [run_more];
    pose proof (skip_unless_length at_ s);
    match goal with |- context [run ?f at_ a ?t] =>
      pose proof (Ha _ at_ t Hm ltac:(lia)); destruct (run f at_ a t) as [|r ps|] eqn:E
    end; try done; apply run_consumes in E; try done; [lia|].
  specialize (IH r ltac:(lia) ltac:(lia)).
  rewrite (proj2 (run_mono (64 * m + S d))); [|done|lia].
  by destruct (run_more _ at_ a r).
Qed.

Lemma total_star d a n : consumes a = true → total d a n → total (2 + d) (PStar a) n.
Proof.
  intros Hc Ha m at_ s Hm Hs. replace (64 * m + (2 + d)) with (S (64 * m + S d)) by lia.
  cbn [run].
  pose proof (total_le d (S d) _ _ ltac:(lia) Ha m at_ s Hm Hs).
  destruct (run _ at_ a s) as [|r ps|] eqn:E; try done.
  apply run_shrinks in E. pose proof (total_more d a n at_ Hc Ha m r Hm ltac:(lia)).
  by destruct (run_more _ at_ a r).
Qed.

Lemma total_rule d r n : total d (snd (grammar r)) n → total (S d) (PRule r) n.
Proof.
  intros Ha m at_ s Hm Hs. rewrite Nat.add_succ_r. cbn [run].
  destruct (grammar r) as [am body]. specialize (Ha m (at_ || am) s Hm Hs). cbn in Ha.
  by destruct (run _ _ body s).
Qed.

Create HintDb peg_total discriminated.
#[export] Hint Resolve total_lit total_class total_eoi : peg_total.

(** Structural descent through an expression without recursive rules. *)
Ltac total_step :=
  match goal with
  | |- total _ (PLit _) _ => apply total_lit; lia
  | |- total _ (PClass _) _ => apply total_class; lia
  | |- total _ (not_char _) _ => apply total_class; lia
  | |- total _ PEoi _ => apply total_eoi; lia
  | |- total (S _) (PSeq _ _) _ => apply total_seq
  | |- total (S _) (PAlt _ _) _ => apply total_alt
  | |- total (S _) (POpt _) _ => apply total_opt
  | |- total (S (S _)) (PStar _) _ => apply total_star; [done|]
  end.

Lemma total_ident n : total 5 (PRule r_ident) n.
Proof. apply total_rule. cbn. repeat total_step. Qed.

Lemma total_ident_le d n : 5 ≤ d → total d (PRule r_ident) n.
Proof. intros. eapply total_le; [|apply total_ident]. lia. Qed.

Ltac total_ident := match goal with
  |- total _ (PRule r_ident) _ => apply total_ident_le; lia end.

Lemma total_lexical r n :
  r ∈ [r_dot_path; r_string_lit; r_number_lit; r_bool_lit; r_comp_op; r_not_op;
       r_operation; r_collection_name; r_EOI] →
  total 11 (PRule r) n.
Proof.
  intros Hr. repeat (apply elem_of_cons in Hr as [->|Hr]); [..|by apply elem_of_nil in Hr];
  apply total_rule; cbn; repeat (total_step || total_ident).
Qed.

Lemma total_lexical_le d r n :
  11 ≤ d →
  r ∈ [r_dot_path; r_string_lit; r_number_lit; r_bool_lit; r_comp_op; r_not_op;
       r_operation; r_collection_name; r_EOI] →
  total d (PRule r) n.
Proof. intros. eapply total_le; [|by apply total_lexical]. lia. Qed.

Ltac total_lex := match goal with
  |- total _ (PRule ?r) _ => apply total_lexical_le; [lia|apply (bool_decide_unpack _); vm_compute; exact I] end.
Ltac total_auto := repeat (total_step || total_ident || total_lex).

Lemma total_value n : total 20 (PRule r_value) n.
Proof.
  induction n as [n IH] using lt_wf_ind. apply total_rule. cbn.
  apply total_alt; [|total_auto].
  apply total_rule. cbn. apply total_seq_consumes; [done|total_auto|].
  intros k Hk. specialize (IH k Hk). cbn.
  assert (∀ d, 20 ≤ d → total d (PRule r_value) k) as Hv
    by (intros; eapply total_le; [|done]; lia).
  repeat (total_step || (apply Hv; lia)).
Qed.

Lemma total_value_le d n : 20 ≤ d → total d (PRule r_value) n.
Proof. intros. eapply total_le; [|apply total_value]. lia. Qed.

Lemma total_atom n :
  (∀ k, k < n → total 40 (PRule r_expr) k) → total 23 (PRule r_atom) n.
Proof.
  intros IH. apply total_rule. cbn. apply total_alt; [|apply total_value_le; lia].
  apply total_seq_consumes; [done|total_auto|].
  intros k Hk. cbn. apply total_seq; [|total_auto].
  eapply total_le; [|by apply IH]. lia.
Qed.

Lemma total_expr n : total 40 (PRule r_expr) n.
Proof.
  induction n as [n IH] using lt_wf_ind. pose proof (total_atom n IH) as Ha.
  assert (∀ d, 23 ≤ d → total d (PRule r_atom) n) as Hatom
    by (intros; eapply total_le; [|done]; lia).
  assert (∀ d, 30 ≤ d → total d (PRule r_not_expr) n) as Hnot.
  { intros. eapply total_le with (d := 30); [lia|]. apply total_rule. cbn.
    repeat (total_step || (apply Hatom; lia) || total_lex).
    apply total_rule. cbn. repeat (total_step || (apply Hatom; lia) || total_lex). }
  assert (∀ d, 35 ≤ d → total d (PRule r_and_expr) n) as Hand.
  { intros. eapply total_le with (d := 35); [lia|]. apply total_rule. cbn.
    repeat (total_step || (apply Hnot; lia)). }
  apply total_rule. cbn. repeat (total_step || (apply Hand; lia)).
Qed.

Lemma total_expr_le d n : 40 ≤ d → total d (PRule r_expr) n.
Proof. intros. eapply total_le; [|apply total_expr]. lia. Qed.

Lemma total_op_list_le d n : 20 ≤ d → total d (PRule r_op_list) n.
Proof.
  intros. eapply total_le with (d := 20); [lia|]. apply total_rule. cbn. total_auto.
Qed.

Lemma total_file n : total 64 (PRule r_file) n.
Proof.
  assert (∀ d, 50 ≤ d → total d (PRule r_validate_entry |/ PRule r_rule_entry) n) as He.
  { intros. eapply total_le with (d := 50); [lia|]. apply total_alt; apply total_rule; cbn;
    repeat (total_step || (apply total_expr_le; lia) || (apply total_op_list_le; lia)). }
  apply total_rule. cbn. repeat (total_step || total_lex).
  apply total_rule. cbn. repeat ((apply He; lia) || total_step || total_lex).
Qed.

(** C39: parsing terminates with an answer: for every input text, the budget
    [parse_file] gives the grammar is never exhausted. *)
Theorem parse_file_total input : parse_file input ≠ PFuel.
Proof.
  unfold parse_file, file_fuel. replace (64 * S (String.length input))
    with (64 * String.length input + 64) by lia.
  by apply (total_file (String.length input)).
Qed.

(** Any run of the file rule that answers agrees with [parse_file]. *)
Lemma parse_file_run f input :
  run f false (PRule r_file) input ≠ PFuel →
  parse_file input = run f false (PRule r_file) input.
Proof.
  intros H. apply run_fuel_irrel; [|done]. pose proof (total_file (String.length input)) as Ht.
  unfold file_fuel. replace (64 * S (String.length input))
    with (64 * String.length input + 64) by lia. by apply Ht.
Qed.
