(* ===== verification/RulesParser.v ===== *)
(** * The security-rules parser

    [ob-security/src/parser.rs]: the syntax tree of the rules language and its
    construction from the token pairs of the grammar. *)

From S2P Require Export RulesGrammar.

(** ** Syntax *)

Inductive CompOp : Type := OpEq | OpNeq | OpGt | OpGte | OpLt | OpLte.

Inductive Expression : Type :=
| EBool (b : bool)
| ENumber (n : f64)
| EStringLit (s : string)
| EPath (p : string)
| EFunctionCall (name : string) (args : list Expression)
| EComparison (lhs : Expression) (op : CompOp) (rhs : Expression)
| EAnd (es : list Expression)
| EOr (es : list Expression)
| ENot (e : Expression).

Record SecurityRule : Type := {
  operations : list string;
  condition : Expression;
  validation : option Expression }.

Record RuleSet : Type := {
  collection : string;
  rules : list SecurityRule }.

(** ** Construction *)

Definition parse_op_list (p : pair) : list string := pair_text <$> into_inner p.

Definition parse_comp_op (op_str : string) : Result CompOp :=
  if op_str =s? "==" then Ok OpEq
  else if op_str =s? "!=" then Ok OpNeq
  else if op_str =s? ">" then Ok OpGt
  else if op_str =s? ">=" then Ok OpGte
  else if op_str =s? "<" then Ok OpLt
  else if op_str =s? "<=" then Ok OpLte
  else Err (Config ("Unknown operator: " +:+ op_str)).

(** [text[1..text.len() - 1]]. *)
Definition strip_quotes (text : string) : Result string :=
  if String.length text <? 2 then Panic
  else Ok (String.substring 1 (String.length text - 2) text).

Definition rule_name (r : rule) : string :=
  match r with
  | r_ident => "ident" | r_dot_path => "dot_path" | r_string_lit => "string_lit"
  | r_number_lit => "number_lit" | r_bool_lit => "bool_lit" | r_value => "value"
  | r_function_call => "function_call" | r_comp_op => "comp_op" | r_not_op => "not_op"
  | r_atom => "atom" | r_comparison => "comparison" | r_not_expr => "not_expr"
  | r_and_expr => "and_expr" | r_expr => "expr" | r_operation => "operation"
  | r_op_list => "op_list" | r_rule_entry => "rule_entry"
  | r_validate_entry => "validate_entry" | r_collection_name => "collection_name"
  | r_rule_block => "rule_block" | r_file => "file" | r_EOI => "EOI"
  end.

Fixpoint parse_expr (p : pair) : Result Expression :=
  let 'Pair rule text inner := p in
  match rule with
  | r_file =>
      match inner with
      | first :: _ => parse_expr first
      | [] => Ok (EBool false)
      end
  | r_expr =>
      if length inner =? 1 then
        match inner with first :: _ => parse_expr first | [] => Panic end
      else
        match collect parse_expr inner with
        | Ok exprs => Ok (EOr exprs) | Err e => Err e | Panic => Panic end
  | r_and_expr =>
      if length inner =? 1 then
        match inner with first :: _ => parse_expr first | [] => Panic end
      else
        match collect parse_expr inner with
        | Ok exprs => Ok (EAnd exprs) | Err e => Err e | Panic => Panic end
  | r_not_expr =>
      let has_not := existsb (λ q, bool_decide (as_rule q = r_not_op)) inner in
      let fix parse_first_expr (ps : list pair) : Result Expression :=
        match ps with
        | [] => Panic
        | q :: ps => if bool_decide (as_rule q = r_not_op) then parse_first_expr ps
                     else parse_expr q
        end in
      match parse_first_expr inner with
      | Ok expr => Ok (if has_not then ENot expr else expr)
      | Err e => Err e | Panic => Panic end
  | r_comparison =>
      match inner with
      | [] => Panic
      | lhs :: inner =>
          match parse_expr lhs with
          | Err e => Err e | Panic => Panic
          | Ok lhs =>
              match inner with
              | [] => Panic
              | op :: inner =>
                  match inner with
                  | [] => Panic
                  | rhs :: _ =>
                      match parse_expr rhs with
                      | Err e => Err e | Panic => Panic
                      | Ok rhs =>
                          match parse_comp_op (pair_text op) with
                          | Err e => Err e | Panic => Panic
                          | Ok op => Ok (EComparison lhs op rhs)
                          end
                      end
                  end
              end
          end
      end
  | r_atom | r_value =>
      match inner with first :: _ => parse_expr first | [] => Panic end
  | r_function_call =>
      match inner with
      | [] => Panic
      | name :: args =>
          match collect parse_expr args with
          | Ok args => Ok (EFunctionCall (pair_text name) args)
          | Err e => Err e | Panic => Panic end
      end
  | r_bool_lit => Ok (EBool (text =s? "true"))
  | r_number_lit =>
      match parse_f64 text with
      | Some n => Ok (ENumber n)
      | None => Err (Config "Invalid number")
      end
  | r_string_lit =>
      match strip_quotes text with
      | Ok s => Ok (EStringLit s) | Err e => Err e | Panic => Panic end
  | r_dot_path => Ok (EPath text)
  | r_ident => Ok (EPath text)
  | _ => Err (Config ("Unexpected rule: " +:+ rule_name rule +:+ " with text: " +:+ text))
  end.

(** One entry of a block, and [None] for a pair that is not an entry. *)
Definition parse_entry (entry : pair) : Result (option SecurityRule) :=
  match as_rule entry with
  | r_rule_entry =>
      ops ← unwrap (head (into_inner entry));
      cond ← unwrap (into_inner entry !! 1);
      condition ← parse_expr cond;
      Ok (Some {| operations := parse_op_list ops; condition := condition; validation := None |})
  | r_validate_entry =>
      ops ← unwrap (head (into_inner entry));
      val ← unwrap (into_inner entry !! 1);
      validation ← parse_expr val;
      Ok (Some {| operations := parse_op_list ops; condition := EBool true;
                  validation := Some validation |})
  | _ => Ok None
  end.

Definition parse_rule_block (p : pair) : Result RuleSet :=
  match into_inner p with
  | [] => Panic
  | name :: entries =>
      rs ← collect parse_entry entries;
      Ok {| collection := pair_text name; rules := omap id rs |}
  end.

Fixpoint parse_blocks (ps : list pair) (result : gmap string RuleSet) :
    Result (gmap string RuleSet) :=
  match ps with
  | [] => Ok result
  | p :: ps =>
      match as_rule p with
      | r_rule_block =>
          rule_set ← parse_rule_block p;
          parse_blocks ps (<[collection rule_set := rule_set]> result)
      | _ => parse_blocks ps result
      end
  end.

(** [pest_message] renders the position pest reports on a syntax error. *)
Definition parse_rules (pest_message : string → string) (input : string) :
    Result (gmap string RuleSet) :=
  match parse_file input with
  | POk _ tops => parse_blocks (tops ≫= into_inner) ∅
  | PFail => Err (Config ("Rules parse error: " +:+ pest_message input))
  | PFuel => Panic
  end.

(** ** What the grammar matches

    The success half of [run], forgetting which alternatives failed first. *)
Inductive matches : bool → peg → string → string → list pair → Prop :=
| MLit am l r : matches am (PLit l) (l +:+ r) r []
| MClass am p c r : p c = true → matches am (PClass p) (String c r) r []
| MSeq am a b s r1 r2 p1 p2 :
    matches am a s r1 p1 → matches am b (skip_unless am r1) r2 p2 →
    matches am (PSeq a b) s r2 (p1 ++ p2)
| MAltL am a b s r ps : matches am a s r ps → matches am (PAlt a b) s r ps
| MAltR am a b s r ps : matches am b s r ps → matches am (PAlt a b) s r ps
| MStarNil am a s : matches am (PStar a) s s []
| MStarCons am a s s' r1 r2 p1 p2 :
    s' = s ∨ s' = skip_unless am s →
    matches am a s' r1 p1 → matches am (PStar a) r1 r2 p2 →
    matches am (PStar a) s r2 (p1 ++ p2)
| MOptNone am a s : matches am (POpt a) s s []
| MOptSome am a s r ps : matches am a s r ps → matches am (POpt a) s r ps
| MEoi am : matches am PEoi "" "" []
| MRule am ru am' body s r ps :
    grammar ru = (am', body) → matches (am || am') body s r ps →
    matches am (PRule ru) s r (if am then [] else [Pair ru (consumed s r) ps]).

Lemma run_matches fuel :
  (∀ am e s r ps, run fuel am e s = POk r ps → matches am e s r ps)
  ∧ (∀ am e s r ps, run_more fuel am e s = POk r ps → matches am (PStar e) s r ps).
Proof.
  induction fuel as [|fuel [IHr IHm]]; [done|]. split; intros am e s r ps.
  - destruct e as [l|p|a b|a b|a|a| |ru]; cbn [run].
    + destruct (strip_prefix l s) eqn:E; [|done]. intros [= <- <-].
      apply strip_prefix_Some in E as ->. constructor.
    + destruct s as [|c s]; [done|]. destruct (p c) eqn:E; [|done]. intros [= <- <-].
      by constructor.
    + intros H. cases_ok H. injection H as <- <-. econstructor; eauto.
    + destruct (run fuel am a s) as [|r1 p1|] eqn:E1; try done.
      * intros ?%IHr. by apply MAltR.
      * intros [= <- <-]. by apply MAltL, IHr.
    + intros H. cases_ok H; injection H as <- <-; [constructor|].
      eapply MStarCons; [by left|by apply IHr|by apply IHm].
    + intros H. cases_ok H; injection H as <- <-; [constructor|].
      apply MOptSome. eauto.
    + intros H. cases_ok H. injection H as <- <-. constructor.
    + destruct (grammar ru) as [am' body] eqn:G.
      destruct (run fuel _ body s) as [|r1 p1|] eqn:E; try done. intros [= <- <-].
      by eapply MRule; [|apply IHr].
  - cbn [run_more]. intros H. cases_ok H; injection H as <- <-; [constructor|].
    eapply MStarCons; [by right|by apply IHr|by apply IHm].
Qed.

(** ** Texts of the matched tokens *)

Lemma substring_prefix t r : String.substring 0 (String.length t) (t +:+ r) = t.
Proof.
  induction t as [|c t IH]; [by destruct r|]. rewrite str_app_cons. cbn. by rewrite IH.
Qed.

Lemma consumed_app t r : consumed (t +:+ r) r = t.
Proof.
  unfold consumed. rewrite str_length_app, Nat.add_sub. apply substring_prefix.
Qed.

Lemma matches_atomic e s r ps : matches true e s r ps → ps = [].
Proof.
  intros H. remember true as am eqn:Ham. induction H; subst; try done; naive_solver.
Qed.

(** Inside an atomic rule no whitespace is skipped: the input is the matched
    text followed by the rest. *)
Lemma matches_atomic_text e s r ps : matches true e s r ps → ∃ t, s = t +:+ r.
Proof.
  intros H. remember true as am eqn:Ham. induction H; subst; cbn in *.
  - by exists l.
  - by exists (str1 c).
  - destruct IHmatches1 as [t1 ->]; [done|]. destruct IHmatches2 as [t2 ->]; [done|].
    exists (t1 +:+ t2). by rewrite str_app_assoc.
  - eauto.
  - eauto.
  - by exists "".
  - assert (s' = s) as -> by naive_solver.
    destruct IHmatches1 as [t1 ->]; [done|]. destruct IHmatches2 as [t2 ->]; [done|].
    exists (t1 +:+ t2). by rewrite str_app_assoc.
  - by exists "".
  - eauto.
  - by exists "".
  - eauto.
Qed.

Lemma matches_star_class p s r ps :
  matches true (PStar (PClass p)) s r ps → ∃ t, s = t +:+ r ∧ str_forall p t = true.
Proof.
  intros H. remember true as am eqn:Ham. remember (PStar (PClass p)) as e eqn:He.
  induction H; try done; injection He as ->; subst; [by exists ""|].
  assert (s' = s) as -> by naive_solver. inversion H0; subst.
  destruct IHmatches2 as (t & -> & Ht); [done..|].
  exists (String c t). rewrite str_app_cons. cbn. split; [done|]. by apply andb_true_iff.
Qed.

(** Inversion of a match whose shape is known. *)
Ltac inv_matches :=
  repeat match goal with
  | H : matches _ (PLit _) _ _ _ |- _ => inversion H; clear H; subst
  | H : matches _ (PClass _) _ _ _ |- _ => inversion H; clear H; subst
  | H : matches _ (not_char _) _ _ _ |- _ => inversion H; clear H; subst
  | H : matches _ (PSeq _ _) _ _ _ |- _ => inversion H; clear H; subst
  | H : matches _ (PAlt _ _) _ _ _ |- _ => inversion H; clear H; subst
  | H : matches _ (POpt _) _ _ _ |- _ => inversion H; clear H; subst
  | H : matches _ PEoi _ _ _ |- _ => inversion H; clear H; subst
  end.
(** Inversion of a rule match: its body. *)
Ltac inv_rule H :=
  inversion H; clear H; subst;
  match goal with G : grammar _ = _ |- _ => cbn in G; injection G as ?; subst end.

Lemma digits_value_Some s acc : str_forall is_digit s = true → is_Some (digits_value acc s).
Proof.
  revert acc. induction s as [|c s IH]; intros acc; cbn; [by eauto|].
  intros [-> ?]%andb_true_iff. by apply IH.
Qed.

Lemma digit_not c : is_digit c = true → Ascii.eqb c "." = false ∧ Ascii.eqb c "-" = false.
Proof.
  intros H. split; apply Ascii.eqb_neq; intros ->; by vm_compute in H.
Qed.

Lemma split_on_digits t : str_forall is_digit t = true → split_on "." t = [t].
Proof.
  intros H. apply split_on_no_sep. induction t as [|c t IH]; [done|]. cbn in *.
  apply andb_true_iff in H as [Hc Ht]. rewrite IH, orb_false_r by done.
  rewrite Ascii.eqb_sym. by apply digit_not.
Qed.

Lemma split_on_app_sep c s t :
  str_exists (Ascii.eqb c) s = false → split_on c (s +:+ String c t) = s :: split_on c t.
Proof.
  induction s as [|a s IH]; intros H.
  - rewrite str_app_nil_l. cbn. by rewrite Ascii.eqb_refl.
  - rewrite str_app_cons. cbn in *. apply orb_false_iff in H as [Ha H].
    rewrite Ascii.eqb_sym, Ha, IH by done. done.
Qed.

Lemma digits_no_dot t : str_forall is_digit t = true → str_exists (Ascii.eqb ".") t = false.
Proof.
  induction t as [|c t IH]; [done|]. cbn. intros [Hc Ht]%andb_true_iff.
  rewrite IH, orb_false_r by done. rewrite Ascii.eqb_sym. by apply digit_not.
Qed.

Definition digits1 (c : ascii) (t : string) : Prop :=
  is_digit c = true ∧ str_forall is_digit t = true.

Lemma parse_f64_unsigned neg c t :
  digits1 c t →
  is_Some (match split_on "." (String c t) with
  | [i] => if str_empty i then None else
             m ← digits_value 0 i; Some (f64_of_decimal neg m 0)
  | [i; f] => if str_empty i || str_empty f then None else
             m ← digits_value 0 (i +:+ f);
             Some (f64_of_decimal neg m (String.length f))
  | _ => None
  end).
Proof.
  intros [Hc Ht]. rewrite split_on_digits by (cbn; by rewrite Hc). cbn [str_empty].
  destruct (digits_value_Some (String c t) 0) as [m ->]; [cbn; by rewrite Hc|]. by eauto.
Qed.

Lemma parse_f64_fraction neg c t c' t' :
  digits1 c t → digits1 c' t' →
  is_Some (match split_on "." (String c t +:+ String "." (String c' t')) with
  | [i] => if str_empty i then None else
             m ← digits_value 0 i; Some (f64_of_decimal neg m 0)
  | [i; f] => if str_empty i || str_empty f then None else
             m ← digits_value 0 (i +:+ f);
             Some (f64_of_decimal neg m (String.length f))
  | _ => None
  end).
Proof.
  intros [Hc Ht] [Hc' Ht'].
  rewrite split_on_app_sep by (apply digits_no_dot; cbn; by rewrite Hc).
  rewrite split_on_digits by (cbn; by rewrite Hc'). cbn [str_empty orb].
  destruct (digits_value_Some (String c t +:+ String c' t') 0) as [m ->]; [|by eauto].
  rewrite str_forall_app. cbn. by rewrite Hc, Ht, Hc', Ht'.
Qed.

Definition sign_text (sg : string) : Prop := sg = "" ∨ sg = "-".
Definition frac_text (f : string) : Prop :=
  f = "" ∨ ∃ c t, f = String "." (String c t) ∧ digits1 c t.

Lemma number_text_parses sg c t f :
  sign_text sg → digits1 c t → frac_text f →
  is_Some (parse_f64 (sg +:+ String c t +:+ f)).
Proof.
  intros Hsg Hd Hf. unfold parse_f64.
  assert (∃ neg, match strip_prefix "-" (sg +:+ String c t +:+ f) with
    | Some s => (true, s) | None => (false, sg +:+ String c t +:+ f) end
    = (neg, String c t +:+ f)) as [neg ->].
  { destruct Hsg as [-> | ->]; [|by rewrite strip_prefix_app; eauto].
    rewrite str_app_nil_l, str_app_cons. cbn. rewrite Ascii.eqb_sym.
    destruct (digit_not c) as [_ ->]; [apply Hd|]. eauto. }
  destruct Hf as [-> | (c' & t' & -> & Hd')].
  - rewrite str_app_nil_r. by apply parse_f64_unsigned.
  - by apply parse_f64_fraction.
Qed.

Lemma number_lit_text s r ps :
  matches true (snd (grammar r_number_lit)) s r ps →
  ∃ sg c t f, s = (sg +:+ String c t +:+ f) +:+ r
    ∧ sign_text sg ∧ digits1 c t ∧ frac_text f.
Proof.
  cbn. intros Hm. inv_matches; cbn [skip_unless] in *;
  repeat match goal with
  | H : matches true (PStar (PClass is_digit)) _ _ _ |- _ =>
      apply matches_star_class in H as (? & ? & ?)
  end; subst.
  all: lazymatch goal with |- ∃ _ _ _ _, ?s = _ ∧ _ =>
    let sg := lazymatch s with "-" +:+ _ => constr:("-") | _ => constr:("") end in
    lazymatch s with
    | context ["." +:+ String ?c' (?t' +:+ _)] => exists sg; do 2 eexists; exists (String "." (String c' t'))
    | _ => exists sg; do 2 eexists; exists ""
    end end.
  all: split; [by autorewrite with ob_str|].
  all: split; [by (left + right)|split; [by split|]].
  all: first [by left|right; do 2 eexists; split; [done|by split]].
Qed.

(** Inversion of a match of an atomic rule outside atomic rules: one pair with
    no pair inside. *)
Lemma matches_atomic_rule ru body s r ps :
  grammar ru = (true, body) → matches false (PRule ru) s r ps →
  ps = [Pair ru (consumed s r) []] ∧ ∃ ps', matches true body s r ps'.
Proof.
  intros G H. inversion H; subst. rewrite G in *.
  match goal with E : (true, body) = _ |- _ => injection E as <- <- end.
  match goal with E : matches _ body s r ?l |- _ =>
    pose proof (matches_atomic _ _ _ _ E) as ->; by eauto end.
Qed.

Lemma number_lit_parses s r ps :
  matches false (PRule r_number_lit) s r ps →
  ∃ text n, ps = [Pair r_number_lit text []] ∧ parse_f64 text = Some n.
Proof.
  intros [-> [? Hm]]%(matches_atomic_rule r_number_lit _ _ _ _ eq_refl).
  apply number_lit_text in Hm as (sg & c & t & f & -> & Hsg & Hd & Hf).
  destruct (number_text_parses sg c t f) as [n Hn]; [done..|].
  rewrite consumed_app. eauto.
Qed.

Lemma string_lit_strips s r ps :
  matches false (PRule r_string_lit) s r ps →
  ∃ text t, ps = [Pair r_string_lit text []] ∧ strip_quotes text = Ok t.
Proof.
  intros [-> [? Hm]]%(matches_atomic_rule r_string_lit _ _ _ _ eq_refl).
  inv_matches; cbn [skip_unless] in *; subst.
  match goal with H : matches true (PStar _) _ _ _ |- _ =>
    apply matches_star_class in H as (t & Ht & _) end.
  subst.
  replace (str1 QUOTE +:+ t +:+ str1 QUOTE +:+ r)
    with ((str1 QUOTE +:+ t +:+ str1 QUOTE) +:+ r) by (by rewrite !str_app_assoc).
  rewrite consumed_app. do 2 eexists. split; [done|]. unfold strip_quotes.
  rewrite !str_length_app. cbn. rewrite Nat.add_comm. done.
Qed.

(** ** Shapes of the token trees *)

Lemma rule_pair ru s r ps :
  matches false (PRule ru) s r ps → ∃ text inner, ps = [Pair ru text inner].
Proof. intros H. inversion H; subst. eauto. Qed.

Lemma star_forall (P : pair → Prop) a s r ps :
  (∀ s r ps, matches false a s r ps → Forall P ps) →
  matches false (PStar a) s r ps → Forall P ps.
Proof.
  intros Ha H. remember false as am eqn:Ham. remember (PStar a) as e eqn:He.
  induction H; try done; injection He as ->; subst.
  apply Forall_app. eauto.
Qed.

Lemma lit_rule_pairs l ru s r ps :
  matches false (PLit l ~ PRule ru)%peg s r ps → Forall (λ p, as_rule p = ru) ps.
Proof.
  intros H. inv_matches.
  match goal with H : matches _ (PRule _) _ _ _ |- _ =>
    apply rule_pair in H as (? & ? & ->) end. by repeat constructor.
Qed.

(** [a ("sep" a)*]: a first pair of rule [a], then only pairs of rule [a]. *)
Lemma sep_list_pairs l ru s r ps :
  matches false (PRule ru ~ PStar (PLit l ~ PRule ru))%peg s r ps →
  ∃ p ps', ps = p :: ps' ∧ Forall (λ p, as_rule p = ru) (p :: ps').
Proof.
  intros H. inv_matches.
  match goal with H : matches _ (PRule _) _ _ _ |- _ =>
    apply rule_pair in H as (? & ? & ->) end.
  do 2 eexists. split; [done|]. constructor; [done|].
  eapply star_forall; [|done]. apply lit_rule_pairs.
Qed.

Lemma collect_ok {E A B} (f : A → outcome E B) l :
  Forall (λ x, ∃ y, f x = Ok y) l → ∃ ys, collect f l = Ok ys.
Proof.
  induction 1 as [|x l [y Hy] _ [ys IH]]; cbn; [by eauto|].
  rewrite Hy. fold (collect f l). rewrite IH. eauto.
Qed.

Definition expr_rule (r : rule) : bool :=
  bool_decide (r ∈ [r_expr; r_and_expr; r_not_expr; r_comparison; r_atom; r_value;
    r_function_call; r_bool_lit; r_number_lit; r_string_lit; r_dot_path; r_ident]).

Definition parses (p : pair) : Prop :=
  expr_rule (as_rule p) = true → ∃ e, parse_expr p = Ok e.

Lemma parses_list ru ps :
  expr_rule ru = true → Forall parses ps → Forall (λ p, as_rule p = ru) ps →
  Forall (λ p, ∃ e, parse_expr p = Ok e) ps.
Proof.
  intros Hru Hps Hrs. induction Hps as [|p ps Hp _ IH]; [done|].
  apply Forall_cons in Hrs as [<- Hrs]. constructor; auto.
Qed.

Lemma parses_sep_list ru l k s r ps :
  expr_rule ru = true → Forall parses ps →
  matches false (PRule ru ~ PStar (PLit l ~ PRule ru))%peg s r ps →
  ∃ e, (if length ps =? 1 then
          match ps with first :: _ => parse_expr first | [] => Panic end
        else match collect parse_expr ps with
             | Ok es => Ok (k es) | Err e => Err e | Panic => Panic end)
       = Ok e.
Proof.
  intros Hru Hps Hm. apply sep_list_pairs in Hm as (p & ps' & -> & Hrs).
  pose proof (parses_list ru _ Hru Hps Hrs) as Hok.
  destruct (length (p :: ps') =? 1).
  - by apply Forall_cons in Hok as [? _].
  - destruct (collect_ok _ _ Hok) as [es ->]. eauto.
Qed.

Lemma comp_op_ok s r text inner :
  matches false (PRule r_comp_op) s r [Pair r_comp_op text inner] →
  ∃ op, parse_comp_op text = Ok op.
Proof.
  intros H. inv_rule H. inv_matches; rewrite consumed_app; eexists; by vm_compute.
Qed.

(** Names the pair a rule match produced. *)
Ltac name_pairs :=
  repeat match goal with
  | H : matches false (PRule ?ru) _ _ ?ps |- _ =>
      is_var ps;
      let t := fresh "text" in let i := fresh "inner" in
      destruct (rule_pair _ _ _ _ H) as (t & i & ->)
  end.
Ltac use_parses :=
  repeat match goal with
  | H : Forall parses (_ ++ _) |- _ => apply Forall_app in H as [? ?]
  | H : Forall parses (_ :: _) |- _ => apply Forall_cons in H as [? ?]
  | H : parses (Pair ?ru _ _) |- _ =>
      first [destruct (H eq_refl) as [? ?]; clear H | clear H]
  | H : parse_expr ?p = Ok _ |- context [parse_expr ?p] => rewrite H
  end.

Lemma matches_parses am e s r ps :
  matches am e s r ps → am = false → Forall parses ps.
Proof.
  induction 1 as [| | | | | | | | | |am ru am' body s r ps G Hm IH];
    intros Ham; subst; try done; try (by apply Forall_app; eauto); eauto.
  constructor; [|done]. intros Hru. cbn [as_rule] in Hru. cbn [orb] in *.
  destruct ru; try done; cbn in G; injection G as <- <-; cbn [parse_expr]; eauto.
  - destruct (string_lit_strips s r _ (MRule false r_string_lit _ _ s r ps eq_refl Hm))
      as (? & t & [= -> _] & ->). eauto.
  - destruct (number_lit_parses s r _ (MRule false r_number_lit _ _ s r ps eq_refl Hm))
      as (? & n & [= -> _] & ->). eauto.
  - specialize (IH eq_refl). inv_matches; name_pairs; use_parses; eauto.
  - specialize (IH eq_refl). inv_matches; name_pairs; cbn [app] in *; [by eexists|].
    rewrite !app_nil_r in *. use_parses.
    match goal with |- context [collect parse_expr ?l] =>
      destruct (collect_ok parse_expr l) as [es ->]; [|by eauto] end.
    constructor; [by eauto|]. apply (parses_list r_value); [done..|].
    eapply star_forall; [|done]. apply lit_rule_pairs.
  - specialize (IH eq_refl). inv_matches; name_pairs; cbn [app] in *; use_parses; eauto.
  - specialize (IH eq_refl). inv_matches; name_pairs; cbn [app] in *; use_parses.
    match goal with H : matches _ (PRule r_comp_op) _ _ _ |- _ =>
      apply comp_op_ok in H as [op Hop] end.
    cbn. rewrite Hop. eauto.
  - specialize (IH eq_refl). inv_matches; name_pairs; cbn [app] in *; use_parses; cbn;
      repeat case_decide; try done; use_parses; eauto.
  - eapply parses_sep_list; [..|exact Hm]; eauto.
  - eapply parses_sep_list; [..|exact Hm]; eauto.
Qed.

(** ** The parser on every input *)

Definition entry_ok (p : pair) : Prop := ∃ o, parse_entry p = Ok o.

Lemma entries_ok s r ps :
  matches false (PRule r_validate_entry |/ PRule r_rule_entry)%peg s r ps →
  Forall entry_ok ps.
Proof.
  intros Hm. inv_matches;
  match goal with H : matches _ (PRule _) _ _ _ |- _ => inv_rule H; clear H end;
  (constructor; [|constructor]); cbn [orb] in *;
  match goal with H : matches _ _ _ _ ?l |- _ =>
    pose proof (matches_parses _ _ _ _ _ H eq_refl) end;
  inv_matches; name_pairs; cbn [app] in *; use_parses;
  unfold entry_ok, parse_entry; cbn -[parse_expr]; use_parses; cbn; eauto.
Qed.

(** A collection name is ["*"] or an identifier. *)
Definition ident_text (t : string) : Prop :=
  ∃ c w, t = String c w ∧ is_alpha c = true ∧ str_forall is_word w = true.

Lemma ident_match s r ps :
  matches true (PRule r_ident) s r ps → ∃ t, s = t +:+ r ∧ ident_text t.
Proof.
  intros H. inv_rule H. inv_matches. cbn [skip_unless orb] in *.
  match goal with H : matches true (PStar _) _ _ _ |- _ =>
    apply matches_star_class in H as (w & -> & Hw) end.
  exists (String c w). rewrite str_app_cons. split; [done|]. by exists c, w.
Qed.

Lemma collection_name_match s r ps :
  matches false (PRule r_collection_name) s r ps →
  ∃ t, ps = [Pair r_collection_name t []] ∧ (t = "*" ∨ ident_text t).
Proof.
  intros [-> [? Hm]]%(matches_atomic_rule r_collection_name _ _ _ _ eq_refl).
  inv_matches.
  - rewrite consumed_app. eauto.
  - match goal with H : matches true (PRule r_ident) _ _ _ |- _ =>
      apply ident_match in H as (t & -> & Ht) end. rewrite consumed_app. eauto.
Qed.

Lemma rule_block_ok s r p :
  matches false (PRule r_rule_block) s r [p] →
  ∃ rs, parse_rule_block p = Ok rs ∧ (collection rs = "*" ∨ ident_text (collection rs)).
Proof.
  intros H. inv_rule H. cbn [orb] in *. inv_matches.
  match goal with H : matches _ (PRule r_collection_name) _ _ _ |- _ =>
    apply collection_name_match in H as (t & -> & Ht) end.
  match goal with H : matches _ (PStar _) _ _ ?l |- _ =>
    pose proof (star_forall entry_ok _ _ _ _ entries_ok H) as Hok;
    destruct (collect_ok parse_entry l Hok) as [rs Hrs] end.
  unfold parse_rule_block. cbn [app into_inner]. rewrite app_nil_r, Hrs. cbn. eauto.
Qed.

Definition block_ok (p : pair) : Prop :=
  as_rule p = r_rule_block → ∃ s r, matches false (PRule r_rule_block) s r [p].

Lemma file_blocks s r ps :
  matches false (PRule r_file) s r ps → Forall block_ok (ps ≫= into_inner).
Proof.
  intros H. inv_rule H. cbn [orb] in *. inv_matches. name_pairs.
  cbn. rewrite app_nil_r. apply Forall_app. split; [|by repeat constructor].
  eapply star_forall; [|done]. clear. intros s r ps Hm.
  destruct (rule_pair _ _ _ _ Hm) as (t & i & ->). constructor; [|done].
  intros _. eauto.
Qed.

Definition key_ok (k : string) : Prop := k = "*" ∨ ident_text k.

Lemma parse_blocks_ok ps m :
  Forall block_ok ps →
  ∃ m', parse_blocks ps m = Ok m'
    ∧ ∀ k rs, m' !! k = Some rs → m !! k = Some rs ∨ (key_ok k ∧ collection rs = k).
Proof.
  intros Hps. revert m. induction Hps as [|p ps Hp _ IH]; intros m; cbn; [eauto|].
  destruct (decide (as_rule p = r_rule_block)) as [Hr|Hr].
  - destruct (Hp Hr) as (s & r & Hm). apply rule_block_ok in Hm as (rs & Hrs & Hk).
    rewrite Hr, Hrs. cbn. destruct (IH (<[collection rs := rs]> m)) as (m' & -> & Hm').
    exists m'. split; [done|]. intros k rs' Hl.
    destruct (Hm' _ _ Hl) as [Hl'|?]; [|by right].
    apply lookup_insert_Some in Hl' as [[<- <-]|[_ ?]]; [by right|by left].
  - destruct (IH m) as (m' & Hm' & HP). exists m'. split; [|done]. by destruct p as [[] ? ?].
Qed.

(** The parser has no panic path: on every text, [parse_rules] either
    returns the rule sets or reports a syntax error, and it reports one exactly
    when the text is not in the grammar.  Every [unwrap] and slice of the tree
    construction succeeds on every token tree the grammar can produce, and the
    errors ["Unexpected rule"], ["Unknown operator"] and ["Invalid number"] do
    not occur. *)
Theorem parse_rules_total pest_message input :
  match parse_file input with
  | POk _ _ => ∃ m, parse_rules pest_message input = Ok m
  | PFail => parse_rules pest_message input
             = Err (Config ("Rules parse error: " +:+ pest_message input))
  | PFuel => False
  end.
Proof.
  unfold parse_rules. pose proof (parse_file_run (file_fuel input) input) as Hf.
  destruct (parse_file input) as [|r ps|] eqn:E; [done| |].
  - apply (proj1 (run_matches _)) in E. apply file_blocks in E.
    destruct (parse_blocks_ok _ ∅ E) as (m & -> & _). eauto.
  - unfold parse_file, file_fuel in E.
    replace (64 * S (String.length input)) with (64 * String.length input + 64) in E by lia.
    by apply (total_file (String.length input)) in E.
Qed.

Lemma parse_rules_keys pest_message input m k rs :
  parse_rules pest_message input = Ok m → m !! k = Some rs →
  key_ok k ∧ collection rs = k.
Proof.
  unfold parse_rules. destruct (parse_file input) as [|r ps|] eqn:E; try done.
  apply (proj1 (run_matches _)) in E. apply file_blocks in E.
  destruct (parse_blocks_ok _ ∅ E) as (m' & -> & Hm'). intros [= <-] Hl.
  by destruct (Hm' _ _ Hl) as [Hl'|?].
Qed.
