(* ===== verification/RulesEval.v ===== *)
(** * The security-rules evaluator

    [ob-security/src/evaluator.rs]: the decision of an operation against the
    parsed rules, at collection level ([check]), at field level
    ([check_field]), and the projection of a document on its readable fields
    ([filter_fields]). *)

From S2P Require Export RulesParser.

(** ** Definitions *)

Record SecurityContext : Type := {
  user_id : option string;
  roles : list string;
  authenticated : bool;
  resource : option Value;
  incoming : option Value }.

(** [RuleEngine { rules: HashMap<String, RuleSet> }]. *)
Abbreviation RuleEngine := (gmap string RuleSet).

Fixpoint resolve_json_path (value : Value) (path : list string) : Value :=
  match path with
  | [] => value
  | segment :: path =>
      match get segment value with
      | Some v => resolve_json_path v path
      | None => VNull
      end
  end.

Fixpoint resolve_json_path_option (value : Value) (path : list string) : option Value :=
  match path with
  | [] => Some value
  | segment :: path => v ← get segment value; resolve_json_path_option v path
  end.

Definition resolve_context_field (value : option Value) (field : string) : option Value :=
  value ← value; resolve_json_path_option value (split_on "." field).

Definition string_arg (args : list Expression) : option string :=
  match args with EStringLit value :: _ => Some value | _ => None end.

Definition is_truthy (value : Value) : bool :=
  match value with
  | VNull => false
  | VBool b => b
  | VNumber _ => match as_f64 value with
                 | Some f => negb (f64_eqb f (S754_zero false))
                 | None => false
                 end
  | VString s => negb (str_empty s)
  | VArray a => negb (length a =? 0)
  | VObject _ => true
  end.

(** [l op r] on floats and on strings, for the four order operators. *)
Definition order_f64 (op : CompOp) (l r : f64) : bool :=
  match op with
  | OpGt => f64_ltb r l
  | OpGte => f64_leb r l
  | OpLt => f64_ltb l r
  | OpLte => f64_leb l r
  | _ => false
  end.
Definition order_str (op : CompOp) (l r : string) : bool :=
  match op with
  | OpGt => str_ltb r l
  | OpGte => str_leb r l
  | OpLt => str_ltb l r
  | OpLte => str_leb l r
  | _ => false
  end.

Definition compare_values (lhs : Value) (op : CompOp) (rhs : Value) : bool :=
  match op with
  | OpEq => value_eqb lhs rhs
  | OpNeq => negb (value_eqb lhs rhs)
  | OpGt | OpGte | OpLt | OpLte =>
      match as_f64 lhs, as_f64 rhs with
      | Some l, Some r => order_f64 op l r
      | _, _ =>
          match as_str lhs, as_str rhs with
          | Some l, Some r => order_str op l r
          | _, _ => false
          end
      end
  end.

Definition resolve_path (path : string) (ctx : SecurityContext) : Value :=
  match split_on "." path with
  | [] => VNull
  | root :: rest =>
      if root =s? "resource" then
        match resource ctx with Some r => resolve_json_path r rest | None => VNull end
      else if root =s? "incoming" then
        match incoming ctx with Some i => resolve_json_path i rest | None => VNull end
      else if root =s? "auth" then
        match rest with
        | "uid" :: _ => match user_id ctx with Some s => VString s | None => VNull end
        | _ => VNull
        end
      else VNull
  end.

Definition eval_value (expr : Expression) (ctx : SecurityContext) : Value :=
  match expr with
  | EBool b => VBool b
  | ENumber n => match number_from_f64 n with Some n => VNumber n | None => VNull end
  | EStringLit s => VString s
  | EPath p => resolve_path p ctx
  | _ => VNull
  end.

Definition eval_function (name : string) (args : list Expression) (ctx : SecurityContext) :
    Result bool :=
  if name =s? "isAuthenticated" then Ok (authenticated ctx)
  else if name =s? "hasRole" then
    match args with
    | EStringLit role :: _ => Ok (existsb (λ r, r =s? role) (roles ctx))
    | _ => Ok false
    end
  else if name =s? "isOwner" then
    match args with
    | EPath field :: _ =>
        match user_id ctx, resolve_path field ctx with
        | Some uid, VString owner_id => Ok (uid =s? owner_id)
        | _, _ => Ok false
        end
    | _ => Ok false
    end
  else if name =s? "fieldEqualsAuth" then
    match string_arg args with
    | None => Ok false
    | Some field =>
        match user_id ctx with
        | None => Ok false
        | Some uid =>
            Ok (match resolve_context_field (incoming ctx) field with
                | Some v => value_eqb v (VString uid)
                | None => false
                end)
        end
    end
  else if name =s? "fieldAbsentOrEqualsAuth" then
    match string_arg args with
    | None => Ok false
    | Some field =>
        match resolve_context_field (incoming ctx) field with
        | None => Ok true
        | Some value =>
            match user_id ctx with
            | None => Ok false
            | Some uid => Ok (value_eqb value (VString uid))
            end
        end
    end
  else if name =s? "fieldUnchanged" then
    match string_arg args with
    | None => Ok false
    | Some field =>
        match resolve_context_field (incoming ctx) field with
        | None => Ok true
        | Some incoming_value =>
            Ok (match resolve_context_field (resource ctx) field with
                | Some v => value_eqb v incoming_value
                | None => false
                end)
        end
    end
  else Ok false.

Fixpoint eval_expr (expr : Expression) (ctx : SecurityContext) : Result bool :=
  match expr with
  | EBool b => Ok b
  | EFunctionCall name args => eval_function name args ctx
  | EAnd exprs =>
      (fix all es := match es with
        | [] => Ok true
        | e :: es => match eval_expr e ctx with
                     | Ok true => all es
                     | Ok false => Ok false
                     | o => o
                     end
        end) exprs
  | EOr exprs =>
      (fix any es := match es with
        | [] => Ok false
        | e :: es => match eval_expr e ctx with
                     | Ok true => Ok true
                     | Ok false => any es
                     | o => o
                     end
        end) exprs
  | ENot e => match eval_expr e ctx with Ok b => Ok (negb b) | o => o end
  | EComparison lhs op rhs =>
      Ok (compare_values (eval_value lhs ctx) op (eval_value rhs ctx))
  | EPath path => Ok (is_truthy (resolve_path path ctx))
  | _ => Ok false
  end.

(** The loop shared by [check] and [check_field]: the first rule for the
    operation whose condition holds decides. *)
Fixpoint check_loop (failure : string) (rs : list SecurityRule) (operation : string)
    (ctx : SecurityContext) : Result bool :=
  match rs with
  | [] => Ok false
  | rule :: rs =>
      if existsb (λ op, op =s? operation) (operations rule) then
        match eval_expr (condition rule) ctx with
        | Ok true =>
            match validation rule with
            | Some v =>
                match eval_expr v ctx with
                | Ok true => Ok true
                | Ok false => Err (Validation failure)
                | o => o
                end
            | None => Ok true
            end
        | Ok false => check_loop failure rs operation ctx
        | o => o
        end
      else check_loop failure rs operation ctx
  end.

Definition check (engine : RuleEngine) (collection operation : string)
    (ctx : SecurityContext) : Result bool :=
  match engine !! collection with
  | Some rule_set => check_loop "Validation rule failed" (rules rule_set) operation ctx
  | None =>
      match engine !! "*" with
      | Some rule_set => check_loop "Validation rule failed" (rules rule_set) operation ctx
      | None => Ok false
      end
  end.

Definition check_field (engine : RuleEngine) (collection field operation : string)
    (ctx : SecurityContext) : Result bool :=
  match engine !! (collection +:+ "." +:+ field) with
  | Some rule_set =>
      check_loop ("Field validation failed for " +:+ field) (rules rule_set) operation ctx
  | None => Ok true
  end.

Definition filter_fields (engine : RuleEngine) (collection : string) (doc : Value)
    (ctx : SecurityContext) : Value :=
  match doc with
  | VObject m =>
      VObject (foldl (λ filtered '(key, val),
        match check_field engine collection key "read" ctx with
        | Ok true => assoc_insert key val filtered
        | _ => filtered
        end) [] m)
  | _ => doc
  end.

(** ** Evaluation is total

    No expression evaluates to an error, so the rules have a boolean
    semantics, which [holds] gives directly. *)

Definition holds_function (name : string) (args : list Expression) (ctx : SecurityContext) : bool :=
  match eval_function name args ctx with Ok b => b | _ => false end.

Fixpoint holds (expr : Expression) (ctx : SecurityContext) : bool :=
  match expr with
  | EBool b => b
  | EFunctionCall name args => holds_function name args ctx
  | EAnd es => forallb (λ e, holds e ctx) es
  | EOr es => existsb (λ e, holds e ctx) es
  | ENot e => negb (holds e ctx)
  | EComparison lhs op rhs => compare_values (eval_value lhs ctx) op (eval_value rhs ctx)
  | EPath path => is_truthy (resolve_path path ctx)
  | ENumber _ | EStringLit _ => false
  end.

Lemma eval_function_total name args ctx :
  eval_function name args ctx = Ok (holds_function name args ctx).
Proof. unfold holds_function, eval_function. by repeat case_match. Qed.

(** Induction on expressions with the hypothesis for the members of a
    conjunction or disjunction. *)
Lemma Expression_nested_ind (P : Expression → Prop) :
  (∀ b, P (EBool b)) → (∀ n, P (ENumber n)) → (∀ s, P (EStringLit s)) →
  (∀ p, P (EPath p)) → (∀ f args, P (EFunctionCall f args)) →
  (∀ l op r, P (EComparison l op r)) →
  (∀ es, Forall P es → P (EAnd es)) → (∀ es, Forall P es → P (EOr es)) →
  (∀ e, P e → P (ENot e)) → ∀ e, P e.
Proof.
  intros HB HN HS HP HF HC HA HO HNot. fix IH 1. intros [b|n|s|p|f args|l op r|es|es|e].
  - apply HB.
  - apply HN.
  - apply HS.
  - apply HP.
  - apply HF.
  - apply HC.
  - apply HA. induction es; constructor; auto.
  - apply HO. induction es; constructor; auto.
  - apply HNot, IH.
Qed.

(** Every expression evaluates to the boolean of its direct semantics. *)
Lemma eval_expr_total e ctx : eval_expr e ctx = Ok (holds e ctx).
Proof.
  induction e as [| | | |f args| |es IH|es IH|e IH] using Expression_nested_ind; try done.
  - apply eval_function_total.
  - cbn. induction IH as [|e es He _ IH]; [done|]. cbn. rewrite He, IH. by destruct (holds e ctx).
  - cbn. induction IH as [|e es He _ IH]; [done|]. cbn. rewrite He, IH. by destruct (holds e ctx).
  - cbn. by rewrite IH.
Qed.

(** ** What a decision means *)

(** The rule set in force for a collection: its own, else the wildcard's. *)
Definition rule_set_for (engine : RuleEngine) (collection : string) : list SecurityRule :=
  match engine !! collection with
  | Some rs => rules rs
  | None => match engine !! "*" with Some rs => rules rs | None => [] end
  end.

(** A rule grants when it names the operation and its condition holds. *)
Definition grants (operation : string) (ctx : SecurityContext) (r : SecurityRule) : bool :=
  existsb (λ op, op =s? operation) (operations r) && holds (condition r) ctx.

(** The specification of a decision: the first granting rule decides, by its
    validation; without one the operation is denied. *)
Definition decide_spec (failure : string) (rs : list SecurityRule) (operation : string)
    (ctx : SecurityContext) : Result bool :=
  match find (grants operation ctx) rs with
  | None => Ok false
  | Some r =>
      match validation r with
      | None => Ok true
      | Some v => if holds v ctx then Ok true else Err (Validation failure)
      end
  end.

Lemma check_loop_spec failure rs operation ctx :
  check_loop failure rs operation ctx = decide_spec failure rs operation ctx.
Proof.
  unfold decide_spec. induction rs as [|r rs IH]; [done|]. cbn. unfold grants at 1.
  destruct (existsb _ (operations r)); [|by rewrite IH].
  rewrite eval_expr_total. destruct (holds (condition r) ctx); [|by rewrite IH]. cbn.
  destruct (validation r) as [v|]; [|done]. rewrite eval_expr_total. by destruct (holds v ctx).
Qed.

Lemma check_spec engine collection operation ctx :
  check engine collection operation ctx =
  decide_spec "Validation rule failed" (rule_set_for engine collection) operation ctx.
Proof.
  unfold check, rule_set_for.
  destruct (engine !! collection); [apply check_loop_spec|].
  destruct (engine !! "*"); [apply check_loop_spec|done].
Qed.


Lemma check_grant engine collection operation ctx :
  check engine collection operation ctx = Ok true →
  ∃ r, r ∈ rule_set_for engine collection ∧ grants operation ctx r = true.
Proof.
  rewrite check_spec. unfold decide_spec. destruct (find _ _) as [r|] eqn:E; [|done]. intros _.
  apply find_some in E as [Hin Hg]. exists r. by rewrite list_elem_of_In.
Qed.

(** ** Roles only ever add permissions *)

Fixpoint negation_free (e : Expression) : bool :=
  match e with
  | ENot _ => false
  | EAnd es | EOr es => forallb negation_free es
  | _ => true
  end.

Definition with_roles (rs : list string) (ctx : SecurityContext) : SecurityContext :=
  {| user_id := user_id ctx; roles := rs; authenticated := authenticated ctx;
     resource := resource ctx; incoming := incoming ctx |}.

Lemma has_role_mono (role : string) (l l' : list string) :
  l ⊆ l' → existsb (λ r, r =s? role) l = true → existsb (λ r, r =s? role) l' = true.
Proof.
  intros Hsub (r & Hin & Hr)%existsb_exists. apply existsb_exists. exists r.
  split; [|done]. apply list_elem_of_In, Hsub, list_elem_of_In. done.
Qed.

Lemma holds_function_mono f args ctx rs :
  roles ctx ⊆ rs → holds_function f args ctx = true →
  holds_function f args (with_roles rs ctx) = true.
Proof.
  intros Hsub. unfold holds_function, eval_function. cbn -[str_eqb existsb resolve_path].
  change (resolve_path ?p (with_roles rs ctx)) with (resolve_path p ctx).
  destruct (f =s? "isAuthenticated"); [done|].
  destruct (f =s? "hasRole"); [|done].
  destruct args as [|[] ?]; try done. by apply has_role_mono.
Qed.

Lemma holds_mono_roles e ctx rs :
  roles ctx ⊆ rs → negation_free e = true → holds e ctx = true →
  holds e (with_roles rs ctx) = true.
Proof.
  intros Hsub. induction e as [| | | |f args| |es IH|es IH|e IH]
    using Expression_nested_ind; try done.
  - intros _. by apply holds_function_mono.
  - cbn. rewrite !forallb_forall. intros Hn Hh e He.
    rewrite Forall_forall in IH. apply IH; [by apply list_elem_of_In|by apply Hn|by apply Hh].
  - cbn. rewrite !existsb_exists, forallb_forall. intros Hn (e & He & Hh). exists e.
    split; [done|]. rewrite Forall_forall in IH.
    apply IH; [by apply list_elem_of_In|by apply Hn|done].
Qed.

(** Giving a user more roles never takes a permission away, for rule sets
    written without [!] and without [validate] entries (a failing [validate] of
    an earlier rule could otherwise turn a later grant into an error). *)
Theorem check_monotone_in_roles engine collection operation ctx rs :
  Forall (λ r, negation_free (condition r) = true ∧ validation r = None)
    (rule_set_for engine collection) →
  roles ctx ⊆ rs →
  check engine collection operation ctx = Ok true →
  check engine collection operation (with_roles rs ctx) = Ok true.
Proof.
  intros Hpos Hsub (r & Hr & Hg)%check_grant.
  apply andb_true_iff in Hg as [Hop Hc]. rewrite Forall_forall in Hpos.
  assert (grants operation (with_roles rs ctx) r = true) as Hg'.
  { unfold grants. rewrite Hop. apply holds_mono_roles; [done|by apply Hpos|done]. }
  rewrite check_spec.
  unfold decide_spec. destruct (find _ _) as [r'|] eqn:E.
  - apply find_some in E as [Hin _].
    destruct (Hpos r') as [_ ->]; [by apply list_elem_of_In|done].
  - rewrite (find_none _ _ E r) in Hg'; [done|]. by apply list_elem_of_In.
Qed.

Definition roles_example : RuleEngine :=
  {[ "products" := {| collection := "products"; rules :=
      [{| operations := ["read"]; validation := None;
          condition := EOr [EFunctionCall "hasRole" [EStringLit "seller"];
                            EFunctionCall "hasRole" [EStringLit "admin"]] |}] |} ]}.
Definition seller_example : SecurityContext :=
  {| user_id := Some "u1"; roles := ["seller"]; authenticated := true;
     resource := None; incoming := None |}.

Lemma check_monotone_in_roles_witness :
  check roles_example "products" "read" (with_roles ["seller"; "support"] seller_example) = Ok true.
Proof.
  apply check_monotone_in_roles.
  - vm_compute. by repeat constructor.
  - set_solver.
  - by vm_compute.
Defined.

(** ** Field-level rules *)

Lemma key_ok_no_dot k : key_ok k → str_exists (Ascii.eqb ".") k = false.
Proof.
  intros [->|(c & w & -> & Hc & Hw)]; [done|]. cbn.
  assert (is_word c = true) as Hc' by (unfold is_word, is_alnum; by rewrite Hc).
  rewrite (proj2 (Ascii.eqb_neq _ _)) by (intros <-; by destruct (word_not_quote _ Hc') as (_ & _ & [])).
  clear c Hc Hc'. induction w as [|c w IH]; [done|]. cbn in *.
  apply andb_true_iff in Hw as [Hc Hw]. rewrite IH, orb_false_r by done.
  apply Ascii.eqb_neq. intros <-. by destruct (word_not_quote _ Hc) as (_ & _ & []).
Qed.

Lemma parsed_no_field_rules pest_message input engine collection field :
  parse_rules pest_message input = Ok engine →
  engine !! (collection +:+ "." +:+ field) = None.
Proof.
  intros Hp. destruct (engine !! _) as [rs|] eqn:E; [exfalso|done].
  destruct (parse_rules_keys _ _ _ _ _ Hp E) as [Hk%key_ok_no_dot _].
  rewrite !str_exists_app in Hk. apply orb_false_iff in Hk as [_ Hk]. done.
Qed.

Lemma check_field_parsed pest_message input engine collection field operation ctx :
  parse_rules pest_message input = Ok engine →
  check_field engine collection field operation ctx = Ok true.
Proof. intros Hp. unfold check_field. by erewrite parsed_no_field_rules. Qed.

(** Objects hold their keys in increasing order. *)
Fixpoint keys_sorted (m : list (string * Value)) : bool :=
  match m with
  | [] => true
  | (k, _) :: m => forallb (λ '(k', _), str_ltb k k') m && keys_sorted m
  end.

Lemma assoc_insert_last k v m :
  forallb (λ '(k', _), str_ltb k' k) m = true → assoc_insert k v m = m ++ [(k, v)].
Proof.
  induction m as [|[k' v'] m IH]; [done|]. cbn. intros [Hlt Hm]%andb_true_iff.
  apply str_ltb_asym in Hlt as [-> ->]. by rewrite IH.
Qed.

Lemma insert_sorted acc m :
  keys_sorted (acc ++ m) = true →
  foldl (λ filtered '(key, val), assoc_insert key val filtered) acc m = acc ++ m.
Proof.
  revert acc. induction m as [|[k v] m IH]; intros acc Hs; cbn; [by rewrite app_nil_r|].
  rewrite assoc_insert_last.
  - rewrite IH by (by rewrite <- app_assoc). by rewrite <- app_assoc.
  - clear IH. induction acc as [|[k' v'] acc IH]; [done|]. cbn in *.
    apply andb_true_iff in Hs as [Hall Hs]. rewrite IH, andb_true_r by done.
    rewrite forallb_app in Hall. apply andb_true_iff in Hall as [_ Hall]. cbn in Hall.
    by apply andb_true_iff in Hall as [? _].
Qed.

(** Field-level rules have no effect in an engine built from a rules file:
    a collection name has no dot, a field rule is looked up under
    ["collection.field"], so every field passes every check and [filter_fields]
    returns every document unchanged. *)
Theorem filter_fields_parsed_id pest_message input engine collection m ctx :
  parse_rules pest_message input = Ok engine → keys_sorted m = true →
  filter_fields engine collection (VObject m) ctx = VObject m.
Proof.
  intros Hp Hs. unfold filter_fields. f_equal.
  rewrite <- (insert_sorted [] m Hs) at 2. generalize (@nil (string * Value)) as acc. clear Hs.
  induction m as [|[k v] m IH]; intros acc; [done|]. cbn.
  by rewrite (check_field_parsed _ _ _ _ _ _ _ Hp), IH.
Qed.

Lemma filter_fields_parsed_id_witness :
  ∃ engine, parse_rules id "rules products { read: false; }" = Ok engine ∧
  filter_fields engine "products" (VObject [("secret", VString "x")]) seller_example
  = VObject [("secret", VString "x")].
Proof.
  eexists. split; [by vm_compute|].
  by apply (filter_fields_parsed_id id "rules products { read: false; }"); vm_compute.
Defined.
