(* ===== verification/RulesOb.v ===== *)
(** * The shipped security policy

    The text of [rules.ob], parsed by the verified parser, and what the policy
    guarantees for every request context.  The guarantees are established by a
    syntactic entailment check on the parsed conditions, proved sound for the
    evaluator and computed on the whole file. *)

From S2P Require Export RulesEval.

(** The file, split at its blocks, with [^] standing for the double quote (the
    file holds no [^]). *)
Definition rules_ob_text : list string := [
"// OrignaBase security rules for the origna_gta data model.
//
// Notes:
// - OrignaBase currently uses `rules <collection> { ... }`, not `collection ^name^ { ... }`.
// - Firestore subcollections are represented here as standalone collections: `cart`,
//   `users__cart`,
//   `warehouses`, `review_votes`, `chat_conversations`, and `chat_messages`.
// - The current DSL cannot express Firestore-style cross-document lookups or array-contains
//   checks, so seller/order rules rely on denormalized per-document fields where available.

";
"rules users {
    read: isAuthenticated() && (isOwner(resource.uid) || hasRole(^admin^));
    create: isAuthenticated() && fieldEqualsAuth(^uid^);
    update: isAuthenticated() && (hasRole(^admin^) || (isOwner(resource.uid) && fieldUnchanged(^uid^)));
    delete: false;
    list: hasRole(^admin^);
}

";
"rules products {
    read: true;
    create: isAuthenticated() && ((hasRole(^seller^) && fieldEqualsAuth(^sellerId^)) || hasRole(^admin^));
    update: isAuthenticated() && (hasRole(^admin^) || (hasRole(^seller^) && isOwner(resource.sellerId) && fieldUnchanged(^sellerId^)));
    delete: isAuthenticated() && (hasRole(^admin^) || (hasRole(^seller^) && isOwner(resource.sellerId)));
    list: true;
}

";
"rules orders {
    read: isAuthenticated() && (
        hasRole(^admin^) ||
        isOwner(resource.userId) ||
        isOwner(resource.buyerId) ||
        isOwner(resource.sellerId) ||
        isOwner(resource.seller_id)
    );
    create: hasRole(^admin^) || (
        isAuthenticated() &&
        (fieldEqualsAuth(^userId^) || fieldEqualsAuth(^buyerId^)) &&
        fieldAbsentOrEqualsAuth(^userId^) &&
        fieldAbsentOrEqualsAuth(^buyerId^)
    );
    update: hasRole(^admin^);
    delete: false;
    list: isAuthenticated();
}

";
"rules product_ratings {
    read: isAuthenticated();
    create: false;
    update: hasRole(^admin^) || isOwner(resource.sellerId) || isOwner(resource.seller_id);
    delete: hasRole(^admin^);
    list: isAuthenticated();
}

";
"rules cart {
    read: isAuthenticated() && (
        isOwner(resource.userId) ||
        isOwner(resource.ownerId) ||
        isOwner(resource.uid)
    );
    create: isAuthenticated() && (
        (fieldEqualsAuth(^userId^) ||
            fieldEqualsAuth(^ownerId^) ||
            fieldEqualsAuth(^uid^)) &&
        fieldAbsentOrEqualsAuth(^userId^) &&
        fieldAbsentOrEqualsAuth(^ownerId^) &&
        fieldAbsentOrEqualsAuth(^uid^)
    );
    update: isAuthenticated() && (
        isOwner(resource.userId) ||
        isOwner(resource.ownerId) ||
        isOwner(resource.uid)
    ) && fieldUnchanged(^userId^) && fieldUnchanged(^ownerId^) && fieldUnchanged(^uid^);
    delete: isAuthenticated() && (
        isOwner(resource.userId) ||
        isOwner(resource.ownerId) ||
        isOwner(resource.uid)
    );
    list: isAuthenticated();
}

";
"rules users__cart {
    read: isAuthenticated() && (
        isOwner(resource.userId) ||
        isOwner(resource.ownerId) ||
        isOwner(resource.uid)
    );
    create: isAuthenticated() && (
        (fieldEqualsAuth(^userId^) ||
            fieldEqualsAuth(^ownerId^) ||
            fieldEqualsAuth(^uid^)) &&
        fieldAbsentOrEqualsAuth(^userId^) &&
        fieldAbsentOrEqualsAuth(^ownerId^) &&
        fieldAbsentOrEqualsAuth(^uid^)
    );
    update: isAuthenticated() && (
        isOwner(resource.userId) ||
        isOwner(resource.ownerId) ||
        isOwner(resource.uid)
    ) && fieldUnchanged(^userId^) && fieldUnchanged(^ownerId^) && fieldUnchanged(^uid^);
    delete: isAuthenticated() && (
        isOwner(resource.userId) ||
        isOwner(resource.ownerId) ||
        isOwner(resource.uid)
    );
    list: isAuthenticated();
}

";
"rules warehouses {
    read: isAuthenticated() && (
        hasRole(^admin^) ||
        isOwner(resource.userId) ||
        isOwner(resource.ownerId) ||
        isOwner(resource.sellerId) ||
        isOwner(resource.uid)
    );
    create: false;
    update: false;
    delete: false;
    list: isAuthenticated() && (hasRole(^seller^) || hasRole(^admin^));
}

";
"rules remote_config {
    read: true;
    create: isAuthenticated() && hasRole(^admin^);
    update: hasRole(^admin^);
    delete: hasRole(^admin^);
    list: true;
}

";
"rules config {
    read: hasRole(^admin^);
    create: false;
    update: false;
    delete: false;
    list: hasRole(^admin^);
}

";
"rules admin_logs {
    read: hasRole(^admin^);
    create: false;
    update: false;
    delete: false;
    list: hasRole(^admin^);
}

";
"rules security_alerts {
    read: hasRole(^admin^);
    create: false;
    update: false;
    delete: false;
    list: hasRole(^admin^);
}

";
"rules error_events {
    read: isAuthenticated() && (hasRole(^admin^) || isOwner(resource.userId));
    create: isAuthenticated() && fieldEqualsAuth(^userId^);
    update: hasRole(^admin^);
    delete: false;
    list: hasRole(^admin^);
}

";
"rules rate_limits {
    read: hasRole(^admin^);
    create: false;
    update: false;
    delete: false;
    list: hasRole(^admin^);
}

";
"rules webhook_logs {
    read: hasRole(^admin^);
    create: false;
    update: false;
    delete: false;
    list: hasRole(^admin^);
}

";
"rules webhook_events {
    read: hasRole(^admin^);
    create: false;
    update: false;
    delete: false;
    list: hasRole(^admin^);
}

";
"rules return_requests {
    read: isAuthenticated() && (
        hasRole(^admin^) ||
        isOwner(resource.buyerId) ||
        isOwner(resource.userId) ||
        isOwner(resource.sellerId)
    );
    create: false;
    update: hasRole(^admin^);
    delete: false;
    list: isAuthenticated();
}

";
"rules coupons {
    read: hasRole(^admin^);
    create: false;
    update: false;
    delete: false;
    list: hasRole(^admin^);
}

";
"rules seller_ratings {
    read: isAuthenticated();
    create: false;
    update: false;
    delete: false;
    list: isAuthenticated();
}

";
"rules review_votes {
    read: isAuthenticated();
    create: false;
    update: false;
    delete: false;
    list: isAuthenticated();
}

";
"rules stock_notifications {
    read: isAuthenticated() && (
        hasRole(^admin^) ||
        isOwner(resource.userId) ||
        isOwner(resource.ownerId) ||
        isOwner(resource.uid)
    );
    create: false;
    update: false;
    delete: false;
    list: isAuthenticated();
}

";
"rules subscriptions {
    read: isAuthenticated() && (
        hasRole(^admin^) ||
        isOwner(resource.userId) ||
        isOwner(resource.uid) ||
        isOwner(resource.ownerId)
    );
    create: hasRole(^admin^);
    update: hasRole(^admin^);
    delete: hasRole(^admin^);
    list: hasRole(^admin^);
}

";
"rules chat_conversations {
    read: isAuthenticated() && (
        hasRole(^admin^) ||
        isOwner(resource.buyerId) ||
        isOwner(resource.sellerId)
    );
    create: isAuthenticated() && (
        fieldEqualsAuth(^buyerId^) ||
        (hasRole(^seller^) && fieldEqualsAuth(^sellerId^))
    );
    update: isAuthenticated() && (
        hasRole(^admin^) ||
        ((isOwner(resource.buyerId) || isOwner(resource.sellerId)) &&
            fieldUnchanged(^buyerId^) &&
            fieldUnchanged(^sellerId^))
    );
    delete: false;
    list: isAuthenticated();
}

";
"rules chats {
    read: isAuthenticated() && (
        hasRole(^admin^) ||
        isOwner(resource.buyerId) ||
        isOwner(resource.sellerId)
    );
    create: isAuthenticated() && (
        fieldEqualsAuth(^buyerId^) ||
        (hasRole(^seller^) && fieldEqualsAuth(^sellerId^))
    );
    update: isAuthenticated() && (
        hasRole(^admin^) ||
        ((isOwner(resource.buyerId) || isOwner(resource.sellerId)) &&
            fieldUnchanged(^buyerId^) &&
            fieldUnchanged(^sellerId^))
    );
    delete: false;
    list: isAuthenticated();
}

";
"rules chat_messages {
    read: isAuthenticated() && (
        hasRole(^admin^) ||
        isOwner(resource.buyerId) ||
        isOwner(resource.sellerId) ||
        isOwner(resource.senderId)
    );
    create: isAuthenticated() && fieldEqualsAuth(^senderId^) && (
        fieldEqualsAuth(^buyerId^) ||
        (hasRole(^seller^) && fieldEqualsAuth(^sellerId^))
    );
    update: isAuthenticated() && (
        hasRole(^admin^) ||
        (isOwner(resource.senderId) &&
            fieldUnchanged(^senderId^) &&
            fieldUnchanged(^buyerId^) &&
            fieldUnchanged(^sellerId^))
    );
    delete: false;
    list: isAuthenticated();
}

";
"rules chats__messages {
    read: isAuthenticated() && (
        hasRole(^admin^) ||
        isOwner(resource.buyerId) ||
        isOwner(resource.sellerId) ||
        isOwner(resource.senderId)
    );
    create: isAuthenticated() && fieldEqualsAuth(^senderId^) && (
        fieldEqualsAuth(^buyerId^) ||
        (hasRole(^seller^) && fieldEqualsAuth(^sellerId^))
    );
    update: isAuthenticated() && (
        hasRole(^admin^) ||
        (isOwner(resource.senderId) &&
            fieldUnchanged(^senderId^) &&
            fieldUnchanged(^buyerId^) &&
            fieldUnchanged(^sellerId^))
    );
    delete: false;
    list: isAuthenticated();
}

";
"rules favorites {
    read: isAuthenticated() && (
        isOwner(resource.userId) ||
        isOwner(resource.ownerId) ||
        isOwner(resource.uid)
    );
    create: isAuthenticated() && (
        (fieldEqualsAuth(^userId^) ||
            fieldEqualsAuth(^ownerId^) ||
            fieldEqualsAuth(^uid^)) &&
        fieldAbsentOrEqualsAuth(^userId^) &&
        fieldAbsentOrEqualsAuth(^ownerId^) &&
        fieldAbsentOrEqualsAuth(^uid^)
    );
    update: isAuthenticated() && (
        isOwner(resource.userId) ||
        isOwner(resource.ownerId) ||
        isOwner(resource.uid)
    ) && fieldUnchanged(^userId^) && fieldUnchanged(^ownerId^) && fieldUnchanged(^uid^);
    delete: isAuthenticated() && (
        isOwner(resource.userId) ||
        isOwner(resource.ownerId) ||
        isOwner(resource.uid)
    );
    list: isAuthenticated();
}

";
"rules addresses {
    read: isAuthenticated() && (
        isOwner(resource.userId) ||
        isOwner(resource.ownerId) ||
        isOwner(resource.uid)
    );
    create: isAuthenticated() && (
        (fieldEqualsAuth(^userId^) ||
            fieldEqualsAuth(^ownerId^) ||
            fieldEqualsAuth(^uid^)) &&
        fieldAbsentOrEqualsAuth(^userId^) &&
        fieldAbsentOrEqualsAuth(^ownerId^) &&
        fieldAbsentOrEqualsAuth(^uid^)
    );
    update: isAuthenticated() && (
        isOwner(resource.userId) ||
        isOwner(resource.ownerId) ||
        isOwner(resource.uid)
    ) && fieldUnchanged(^userId^) && fieldUnchanged(^ownerId^) && fieldUnchanged(^uid^);
    delete: isAuthenticated() && (
        isOwner(resource.userId) ||
        isOwner(resource.ownerId) ||
        isOwner(resource.uid)
    );
    list: isAuthenticated();
}

";
"rules notifications {
    read: isAuthenticated() && (
        isOwner(resource.userId) ||
        isOwner(resource.ownerId) ||
        isOwner(resource.uid)
    );
    create: isAuthenticated() && (
        (fieldEqualsAuth(^userId^) ||
            fieldEqualsAuth(^ownerId^) ||
            fieldEqualsAuth(^uid^)) &&
        fieldAbsentOrEqualsAuth(^userId^) &&
        fieldAbsentOrEqualsAuth(^ownerId^) &&
        fieldAbsentOrEqualsAuth(^uid^)
    );
    update: isAuthenticated() && (
        isOwner(resource.userId) ||
        isOwner(resource.ownerId) ||
        isOwner(resource.uid)
    ) && fieldUnchanged(^userId^) && fieldUnchanged(^ownerId^) && fieldUnchanged(^uid^);
    delete: isAuthenticated() && (
        isOwner(resource.userId) ||
        isOwner(resource.ownerId) ||
        isOwner(resource.uid)
    );
    list: isAuthenticated();
}

";
"rules users__notifications {
    read: isAuthenticated() && (
        isOwner(resource.userId) ||
        isOwner(resource.ownerId) ||
        isOwner(resource.uid)
    );
    create: isAuthenticated() && (
        (fieldEqualsAuth(^userId^) ||
            fieldEqualsAuth(^ownerId^) ||
            fieldEqualsAuth(^uid^)) &&
        fieldAbsentOrEqualsAuth(^userId^) &&
        fieldAbsentOrEqualsAuth(^ownerId^) &&
        fieldAbsentOrEqualsAuth(^uid^)
    );
    update: isAuthenticated() && (
        isOwner(resource.userId) ||
        isOwner(resource.ownerId) ||
        isOwner(resource.uid)
    ) && fieldUnchanged(^userId^) && fieldUnchanged(^ownerId^) && fieldUnchanged(^uid^);
    delete: isAuthenticated() && (
        isOwner(resource.userId) ||
        isOwner(resource.ownerId) ||
        isOwner(resource.uid)
    );
    list: isAuthenticated();
}

";
"rules seller_profiles {
    read: true;
    create: isAuthenticated() && fieldEqualsAuth(^uid^);
    update: isAuthenticated() && isOwner(resource.uid) && fieldUnchanged(^uid^);
    delete: false;
    list: true;
}

";
"rules product_questions {
    read: true;
    create: isAuthenticated() && (
        (fieldEqualsAuth(^userId^) || fieldEqualsAuth(^uid^)) &&
        fieldAbsentOrEqualsAuth(^userId^) &&
        fieldAbsentOrEqualsAuth(^uid^)
    );
    update: isAuthenticated() && (
        hasRole(^admin^) ||
        ((isOwner(resource.userId) || isOwner(resource.uid)) &&
            fieldUnchanged(^userId^) &&
            fieldUnchanged(^uid^))
    );
    delete: hasRole(^admin^);
    list: true;
}

";
"rules * {
    read: false;
    create: false;
    update: false;
    delete: false;
    list: false;
}
"].

Definition rules_ob : string :=
  replace_char "^" (str1 QUOTE) (foldr String.append "" rules_ob_text).

Definition engine_of (r : Result (gmap string RuleSet)) : RuleEngine :=
  match r with Ok m => m | _ => ∅ end.

(** The engine the server builds at startup from the file. *)
Definition rules_ob_engine : RuleEngine := engine_of (parse_rules id rules_ob).

(** ** A sound entailment check *)

Section entails.
Context (atom : Expression → bool).

Fixpoint entails (e : Expression) : bool :=
  match e with
  | EBool false => true
  | EAnd es => existsb entails es
  | EOr es => forallb entails es
  | e => atom e
  end.

Lemma entails_sound ctx (P : Prop) e :
  (∀ e, atom e = true → holds e ctx = true → P) →
  entails e = true → holds e ctx = true → P.
Proof.
  intros Hatom. induction e as [[]| | | | | |es IH|es IH|e IH] using Expression_nested_ind;
    try (intros Ha Hh; by eapply Hatom).
  - cbn. rewrite existsb_exists, forallb_forall. intros (e & He & Ha) Hh.
    rewrite Forall_forall in IH. eapply IH; [by apply list_elem_of_In|done|by apply Hh].
  - cbn. rewrite existsb_exists, forallb_forall. intros Ha (e & He & Hh).
    rewrite Forall_forall in IH. eapply IH; [by apply list_elem_of_In|by apply Ha|done].
Qed.
End entails.

(** The atoms the policy is made of. *)
Definition is_identity_test (e : Expression) : bool :=
  match e with
  | EFunctionCall f _ => (f =s? "isAuthenticated") || (f =s? "hasRole") || (f =s? "isOwner")
  | _ => false
  end.
Definition is_authenticated_test (e : Expression) : bool :=
  match e with EFunctionCall f _ => f =s? "isAuthenticated" | _ => false end.
Definition is_role_test (role : string) (e : Expression) : bool :=
  match e with
  | EFunctionCall f [EStringLit r] => (f =s? "hasRole") && (r =s? role)
  | _ => false
  end.
Definition is_owner_test (fields : list string) (e : Expression) : bool :=
  match e with
  | EFunctionCall f [EPath p] =>
      (f =s? "isOwner") && existsb (λ x, p =s? ("resource." +:+ x)) fields
  | _ => false
  end.
Definition is_unchanged_test (field : string) (e : Expression) : bool :=
  match e with
  | EFunctionCall f [EStringLit x] => (f =s? "fieldUnchanged") && (x =s? field)
  | _ => false
  end.

Lemma eval_is_owner p args ctx :
  eval_function "isOwner" (EPath p :: args) ctx =
  match user_id ctx, resolve_path p ctx with
  | Some uid, VString owner_id => Ok (uid =s? owner_id)
  | _, _ => Ok false
  end.
Proof. reflexivity. Qed.

Lemma identity_test_sound ctx e :
  is_identity_test e = true → holds e ctx = true →
  authenticated ctx = true ∨ roles ctx ≠ [] ∨ user_id ctx ≠ None.
Proof.
  destruct e as [| | | |f args| | | |]; try done. cbn. intros [[Hf|Hf]%orb_true_iff|Hf]%orb_true_iff;
    apply str_eqb_eq in Hf as ->; unfold holds_function; cbn -[resolve_path]; [by left|..].
  - destruct args as [|[] ?]; try done. intros (r & Hr & _)%existsb_exists. right. left.
    by destruct (roles ctx).
  - destruct args as [|[] ?]; try done. intros H. right. right. intros Hn.
    rewrite eval_is_owner, Hn in H. by destruct (resolve_path p ctx).
Qed.

Lemma authenticated_test_sound ctx e :
  is_authenticated_test e = true → holds e ctx = true → authenticated ctx = true.
Proof. destruct e; try done. cbn. intros ->%str_eqb_eq. done. Qed.

Lemma role_test_sound ctx role e :
  is_role_test role e = true → holds e ctx = true → role ∈ roles ctx.
Proof.
  destruct e as [| | | |f [|[] [|]]| | | |]; try done. cbn.
  intros [->%str_eqb_eq ->%str_eqb_eq]%andb_true_iff. unfold holds_function. cbn.
  intros (r & Hr & ->%str_eqb_eq)%existsb_exists. by apply list_elem_of_In.
Qed.

(** The authenticated user is the one a field of the stored document names. *)
Definition owns (ctx : SecurityContext) (field : string) : Prop :=
  ∃ uid doc, user_id ctx = Some uid ∧ resource ctx = Some doc
    ∧ resolve_json_path doc (split_on "." field) = VString uid.

Lemma resolve_resource_field x ctx :
  resolve_path ("resource." +:+ x) ctx =
  match resource ctx with
  | Some r => resolve_json_path r (split_on "." x) | None => VNull end.
Proof. done. Qed.

Lemma owner_test_sound ctx fields e :
  is_owner_test fields e = true → holds e ctx = true → ∃ f, f ∈ fields ∧ owns ctx f.
Proof.
  destruct e as [| | | |f [|[] [|]]| | | |]; try done. cbn.
  intros [->%str_eqb_eq (x & Hx & ->%str_eqb_eq)%existsb_exists]%andb_true_iff.
  unfold holds_function. rewrite eval_is_owner, resolve_resource_field.
  destruct (user_id ctx) as [uid|] eqn:Hu; [|done].
  destruct (resource ctx) as [doc|] eqn:Hr; [|done].
  destruct (resolve_json_path doc _) eqn:Hp; try done. intros ->%str_eqb_eq.
  exists x. split; [by apply list_elem_of_In|]. by exists s, doc.
Qed.

(** The request leaves a field of the stored document as it is. *)
Definition leaves (ctx : SecurityContext) (field : string) : Prop :=
  ∀ v, resolve_context_field (incoming ctx) field = Some v →
  ∃ w, resolve_context_field (resource ctx) field = Some w ∧ value_eqb w v = true.

Lemma eval_field_unchanged field ctx :
  eval_function "fieldUnchanged" [EStringLit field] ctx =
  match resolve_context_field (incoming ctx) field with
  | None => Ok true
  | Some v => Ok (match resolve_context_field (resource ctx) field with
                  | Some w => value_eqb w v | None => false end)
  end.
Proof. reflexivity. Qed.

Lemma unchanged_test_sound ctx field e :
  is_unchanged_test field e = true → holds e ctx = true → leaves ctx field.
Proof.
  destruct e as [| | | |f [|[] [|]]| | | |]; try done. cbn.
  intros [->%str_eqb_eq ->%str_eqb_eq]%andb_true_iff. unfold holds_function.
  rewrite eval_field_unchanged. intros H v Hv. rewrite Hv in H.
  destruct (resolve_context_field (resource ctx) field) as [w|]; [|done]. eauto.
Qed.

(** ** Checking a policy *)

(** Every rule in force for one of the collections that names one of the
    operations has a condition that entails the atom. *)
Definition policy_entails (engine : RuleEngine) (collections ops : list string)
    (atom : Expression → bool) : bool :=
  forallb (λ c, forallb (λ r,
    implb (existsb (λ op, existsb (λ o, o =s? op) (operations r)) ops)
          (entails atom (condition r))) (rule_set_for engine c)) collections.

Lemma policy_entails_sound engine collections ops atom (P : SecurityContext → Prop)
    collection operation ctx :
  (∀ ctx e, atom e = true → holds e ctx = true → P ctx) →
  policy_entails engine collections ops atom = true →
  collection ∈ collections → operation ∈ ops →
  check engine collection operation ctx = Ok true → P ctx.
Proof.
  intros Hatom Hpol Hc Ho (r & Hr & Hg)%check_grant.
  apply andb_true_iff in Hg as [Hop Hh].
  unfold policy_entails in Hpol. rewrite forallb_forall in Hpol.
  specialize (Hpol collection ltac:(by apply list_elem_of_In)).
  rewrite forallb_forall in Hpol. specialize (Hpol r ltac:(by apply list_elem_of_In)).
  rewrite (proj2 (existsb_exists _ ops)) in Hpol
    by (exists operation; split; [by apply list_elem_of_In|done]).
  eapply entails_sound; [|exact Hpol|exact Hh]. eauto.
Qed.

(** The same for every collection of the file. *)
Definition all_collections (engine : RuleEngine) : list string := (map_to_list engine).*1.

Lemma check_unlisted engine collection operation ctx :
  engine !! collection = None →
  check engine collection operation ctx = check engine "*" operation ctx.
Proof. intros H. unfold check. rewrite H. by destruct (engine !! "*"). Qed.

(** ** The guarantees of rules.ob *)

Definition write_ops : list string := ["create"; "update"; "delete"].
Definition private_collections : list string :=
  ["cart"; "users__cart"; "favorites"; "addresses"; "notifications"; "users__notifications"].
Definition owner_fields : list string := ["userId"; "ownerId"; "uid"].
Definition admin_collections : list string :=
  ["config"; "admin_logs"; "security_alerts"; "rate_limits"; "webhook_logs";
   "webhook_events"; "coupons"].
Definition all_ops : list string := ["read"; "create"; "update"; "delete"; "list"].

(** All the checks, computed together on the parsed file. *)
Definition policy_checks (engine : RuleEngine) : bool :=
  policy_entails engine ("*" :: all_collections engine) write_ops is_identity_test
  && policy_entails engine private_collections ["read"; "update"; "delete"] is_authenticated_test
  && policy_entails engine private_collections ["read"; "update"; "delete"]
       (is_owner_test owner_fields)
  && forallb (λ f, policy_entails engine private_collections ["update"] (is_unchanged_test f))
       owner_fields
  && policy_entails engine admin_collections all_ops (is_role_test "admin")
  && policy_entails engine ["orders"] ["update"; "delete"] (is_role_test "admin").

Lemma rules_ob_checks : policy_checks rules_ob_engine = true.
Proof. vm_cast_no_check (@eq_refl bool true). Qed.

(** The guarantees follow from the computed checks for any engine that passes
    them; the section keeps the engine abstract, so no proof step evaluates it. *)
Section guarantees.
  Context (engine : RuleEngine) (Hchecks : policy_checks engine = true).

Lemma policy_checks_all :
  policy_entails engine ("*" :: all_collections engine) write_ops is_identity_test = true
  ∧ policy_entails engine private_collections ["read"; "update"; "delete"]
      is_authenticated_test = true
  ∧ policy_entails engine private_collections ["read"; "update"; "delete"]
      (is_owner_test owner_fields) = true
  ∧ (∀ f, f ∈ owner_fields →
      policy_entails engine private_collections ["update"] (is_unchanged_test f) = true)
  ∧ policy_entails engine admin_collections all_ops (is_role_test "admin") = true
  ∧ policy_entails engine ["orders"] ["update"; "delete"] (is_role_test "admin") = true.
Proof.
  pose proof Hchecks as H. unfold policy_checks in H.
  rewrite !andb_true_iff, forallb_forall in H. destruct H as [[[[[? ?] ?] Hf] ?] ?].
  do 3 (split; [assumption|]). split; [|by split].
  intros f Hin. apply Hf. by apply list_elem_of_In.
Qed.

Lemma no_anonymous_write collection operation ctx :
  operation ∈ write_ops → authenticated ctx = false → roles ctx = [] → user_id ctx = None →
  check engine collection operation ctx ≠ Ok true.
Proof.
  intros Ho Ha Hr Hu Hc. destruct policy_checks_all as [Hpol _].
  assert (∃ c, c ∈ "*" :: all_collections engine
    ∧ check engine c operation ctx = Ok true) as (c & Hin & Hc').
  { destruct (engine !! collection) as [rs|] eqn:E.
    - exists collection. split; [|done]. right. apply list_elem_of_fmap.
      exists (collection, rs). split; [done|]. by apply elem_of_map_to_list.
    - rewrite check_unlisted in Hc by done. exists "*". split; [left|done]. }
  eapply (policy_entails_sound _ _ _ _
    (λ ctx, authenticated ctx = true ∨ roles ctx ≠ [] ∨ user_id ctx ≠ None))
    in Hc' as [?|[?|?]]; [congruence|done|done|..|done|done|done].
  intros ? ?. apply identity_test_sound.
Qed.

Lemma private_owner_only collection operation ctx :
  collection ∈ private_collections → operation ∈ ["read"; "update"; "delete"] →
  check engine collection operation ctx = Ok true →
  authenticated ctx = true ∧ (∃ f, f ∈ owner_fields ∧ owns ctx f)
  ∧ (operation = "update" → ∀ f, f ∈ owner_fields → leaves ctx f).
Proof.
  intros Hc Ho H. destruct policy_checks_all as (_ & Ha & Hown & Hun & _). split_and!.
  - eapply (policy_entails_sound _ _ _ _ (λ ctx, authenticated ctx = true));
      [|exact Ha|done..]. intros ? ?. apply authenticated_test_sound.
  - eapply (policy_entails_sound _ _ _ _ (λ ctx, ∃ f, f ∈ owner_fields ∧ owns ctx f));
      [|exact Hown|done..]. intros ? ?. apply owner_test_sound.
  - intros -> f Hf.
    eapply (policy_entails_sound _ _ _ _ (λ ctx, leaves ctx f));
      [|exact (Hun f Hf)|done|left|done]. intros ? ?. apply unchanged_test_sound.
Qed.

Lemma admin_only collection operation ctx :
  (collection ∈ admin_collections ∧ operation ∈ all_ops)
  ∨ (collection = "orders" ∧ operation ∈ ["update"; "delete"]) →
  check engine collection operation ctx = Ok true →
  "admin" ∈ roles ctx.
Proof.
  destruct policy_checks_all as (_ & _ & _ & _ & Ha & Hord).
  intros [[Hc Ho]|[-> Ho]] H.
  - eapply (policy_entails_sound _ _ _ _ (λ ctx, "admin" ∈ roles ctx)); [|exact Ha|done..].
    intros ? ?. apply role_test_sound.
  - eapply (policy_entails_sound _ _ _ _ (λ ctx, "admin" ∈ roles ctx));
      [|exact Hord|left|done..]. intros ? ?. apply role_test_sound.
Qed.

End guarantees.

(** C2: under the shipped policy an anonymous request (not authenticated, no
    user id, no role) can never create, update or delete a document, whatever the
    collection, listed in the file or not, the document and the data. *)
Theorem rules_ob_no_anonymous_write collection operation ctx :
  operation ∈ write_ops → authenticated ctx = false → roles ctx = [] → user_id ctx = None →
  check rules_ob_engine collection operation ctx ≠ Ok true.
Proof. exact (no_anonymous_write _ rules_ob_checks collection operation ctx). Qed.

(** Under the shipped policy, reading, updating or deleting a document of a
    per-user collection (cart, favourites, addresses, notifications) is granted
    only to the authenticated user the stored document names as owner, and an
    update is granted only if it leaves every owner field as it is: an owner
    cannot be impersonated nor ownership reassigned. *)
Theorem rules_ob_private_owner_only collection operation ctx :
  collection ∈ private_collections → operation ∈ ["read"; "update"; "delete"] →
  check rules_ob_engine collection operation ctx = Ok true →
  authenticated ctx = true ∧ (∃ f, f ∈ owner_fields ∧ owns ctx f)
  ∧ (operation = "update" → ∀ f, f ∈ owner_fields → leaves ctx f).
Proof. exact (private_owner_only _ rules_ob_checks collection operation ctx). Qed.

(** Under the shipped policy only an administrator passes any check on the
    operational collections, or updates or deletes an order. *)
Theorem rules_ob_admin_only collection operation ctx :
  (collection ∈ admin_collections ∧ operation ∈ all_ops)
  ∨ (collection = "orders" ∧ operation ∈ ["update"; "delete"]) →
  check rules_ob_engine collection operation ctx = Ok true →
  "admin" ∈ roles ctx.
Proof. exact (admin_only _ rules_ob_checks collection operation ctx). Qed.

(** *** Witnesses *)

Definition anonymous : SecurityContext :=
  {| user_id := None; roles := []; authenticated := false;
     resource := None; incoming := None |}.
Definition cart_owner : SecurityContext :=
  {| user_id := Some "u1"; roles := []; authenticated := true;
     resource := Some (VObject [("userId", VString "u1")]);
     incoming := Some (VObject [("quantity", VNumber (PosInt 2))]) |}.
Definition administrator : SecurityContext :=
  {| user_id := Some "root"; roles := ["admin"]; authenticated := true;
     resource := None; incoming := None |}.

Definition granted (r : Result bool) : bool := match r with Ok true => true | _ => false end.

Lemma granted_Ok r : granted r = true → r = Ok true.
Proof. by destruct r as [[]| |]. Qed.

Lemma rules_ob_no_anonymous_write_witness :
  check rules_ob_engine "orders" "create" anonymous ≠ Ok true.
Proof. apply rules_ob_no_anonymous_write; [left|done|done|done]. Defined.

Lemma rules_ob_private_owner_only_witness :
  authenticated cart_owner = true ∧ (∃ f, f ∈ owner_fields ∧ owns cart_owner f)
  ∧ ("update" = "update" → ∀ f, f ∈ owner_fields → leaves cart_owner f).
Proof.
  apply (rules_ob_private_owner_only "cart" "update").
  - left.
  - right. left.
  - apply granted_Ok. vm_cast_no_check (@eq_refl bool true).
Defined.

Lemma rules_ob_admin_only_witness : "admin" ∈ roles administrator.
Proof.
  apply (rules_ob_admin_only "config" "read").
  - left. split; left.
  - apply granted_Ok. vm_cast_no_check (@eq_refl bool true).
Defined.
