(* ===== verification/Query.v ===== *)
(** * The query builder

    [QueryTranslator] (crates/ob-database/src/query.rs): filters in the
    GraphQL style become the text of a SELECT statement.  The definitions build
    the same text as the code, byte for byte.

    The properties are about what a SQL lexer reads of that text.  [scan]
    separates the text of a statement from the contents of its string literals;
    two statements are [same_sql] when they are the same statement once the
    contents of the literals are erased.  The main theorem is a
    non-interference result: no caller-supplied string can change the statement,
    only the contents of its literals, for the lexing the builder escapes
    for.  Under standard-conforming literals the statement does change. *)

From S2P Require Export Json Core.

(** ['{s}'] in a format string. *)
Definition quoted (s : string) : string := "'" +:+ s +:+ "'".

Section translator.
Context `{T : SerdeText}.

Definition numeric_fields : list string :=
  ["age"; "price"; "priceCents"; "categoryId"; "rating"; "fraudScore";
   "avgResponseTimeHours"; "avgShipDays"; "positiveRatePct"; "totalReviews"].
Definition numeric_suffixes : list string :=
  ["Cents"; "Count"; "Quantity"; "Pct"; "Hours"; "Days"].

Definition is_probably_numeric_field (field : string) : bool :=
  existsb (str_eqb field) numeric_fields
  || existsb (λ p, ends_with p field) numeric_suffixes.

Definition is_created_at (field : string) : bool :=
  (field =s? "createdAt") || (field =s? "created_at").
Definition is_updated_at (field : string) : bool :=
  (field =s? "updatedAt") || (field =s? "updated_at").
Definition numeric_expr (field : string) : string :=
  "NULLIF(data->>" +:+ quoted field +:+ ", " +:+ quoted "" +:+ ")::numeric".

Definition sql_field_expr (field : string) : option string :=
  if negb (is_ok (validate_identifier field)) then None else Some (
    if field =s? "id" then "id"
    else if is_created_at field then "created_at"
    else if is_updated_at field then "updated_at"
    else if is_probably_numeric_field field then numeric_expr field
    else "data->>" +:+ quoted field).

Definition sql_json_value_expr (field : string) : option string :=
  if negb (is_ok (validate_identifier field)) then None else Some (
    if field =s? "id" then "to_jsonb(id)"
    else if is_created_at field then "to_jsonb(created_at)"
    else if is_updated_at field then "to_jsonb(updated_at)"
    else "data->" +:+ quoted field).

Definition sql_typed_field_expr (field : string) (value : Value) : option string :=
  if negb (is_ok (validate_identifier field)) then None else
  match value with
  | VNumber _ => Some (
      if is_created_at field then "EXTRACT(EPOCH FROM created_at)"
      else if is_updated_at field then "EXTRACT(EPOCH FROM updated_at)"
      else if field =s? "id" then "id"
      else numeric_expr field)
  | VBool _ => Some (
      if field =s? "id" then "id"
      else "NULLIF(data->>" +:+ quoted field +:+ ", " +:+ quoted "" +:+ ")::boolean")
  | _ => sql_field_expr field
  end.

Definition format_sql_literal (value : Value) : string :=
  match value with
  | VString s => quoted (escape_sql_string s)
  | VNumber n => number_to_string n
  | VBool b => if b then "true" else "false"
  | VNull => "NULL"
  | _ => quoted (escape_sql_string (value_to_string value))
  end.

Definition translate_op (field op : string) (value : Value) : option string :=
  if negb (is_ok (validate_identifier field)) then None
  else if op =s? "_eq" then
    field_expr ← sql_typed_field_expr field value;
    Some (if is_null value then field_expr +:+ " IS NULL"
          else field_expr +:+ " = " +:+ format_sql_literal value)
  else if op =s? "_neq" then
    field_expr ← sql_typed_field_expr field value;
    Some (if is_null value then field_expr +:+ " IS NOT NULL"
          else field_expr +:+ " != " +:+ format_sql_literal value)
  else if op =s? "_gt" then
    field_expr ← sql_typed_field_expr field value;
    Some (field_expr +:+ " > " +:+ format_sql_literal value)
  else if op =s? "_gte" then
    field_expr ← sql_typed_field_expr field value;
    Some (field_expr +:+ " >= " +:+ format_sql_literal value)
  else if op =s? "_lt" then
    field_expr ← sql_typed_field_expr field value;
    Some (field_expr +:+ " < " +:+ format_sql_literal value)
  else if op =s? "_lte" then
    field_expr ← sql_typed_field_expr field value;
    Some (field_expr +:+ " <= " +:+ format_sql_literal value)
  else if op =s? "_in" then
    match as_array value with
    | Some arr =>
        field_expr ← sql_typed_field_expr field (default VNull (head arr));
        Some (field_expr +:+ " IN (" +:+ join ", " (map format_sql_literal arr) +:+ ")")
    | None => None
    end
  else if op =s? "_contains" then
    s ← as_str value;
    let escaped := escape_sql_string s in
    let json_expr := default ("data->" +:+ quoted field) (sql_json_value_expr field) in
    let text_expr := default ("data->>" +:+ quoted field) (sql_field_expr field) in
    Some ("((jsonb_typeof(" +:+ json_expr +:+ ") = " +:+ quoted "array" +:+ " AND " +:+ json_expr +:+ " ? "
          +:+ quoted escaped +:+ ") OR COALESCE(" +:+ text_expr +:+ ", " +:+ quoted ""
          +:+ ") ILIKE " +:+ quoted ("%" +:+ escaped +:+ "%") +:+ ")")
  else if op =s? "_starts_with" then
    field_expr ← sql_field_expr field;
    s ← as_str value;
    Some ("COALESCE(" +:+ field_expr +:+ ", " +:+ quoted "" +:+ ") ILIKE "
          +:+ quoted (escape_sql_string s +:+ "%"))
  else None.

(** The conditions pushed by the two nested loops of [filters_to_where]. *)
Definition filter_conditions (obj : list (string * Value)) : list string :=
  obj ≫= λ '(field, ops),
    match as_object ops with
    | Some ops_obj => omap (λ '(op, value), translate_op field op value) ops_obj
    | None => []
    end.

Definition filters_to_where (filters : Value) : string :=
  match as_object filters with
  | None => ""
  | Some obj =>
      match filter_conditions obj with
      | [] => ""
      | conditions => "WHERE " +:+ join " AND " conditions
      end
  end.

(** The field projection: [None] is the early return on a bad name. *)
Definition select_fields (fields : option (list string)) : option string :=
  match fields with
  | Some ((_ :: _) as f) =>
      if negb (forallb (str_forall is_word) f) then None
      else Some (if existsb (str_eqb "id") f then join ", " f
                 else "id, " +:+ join ", " f)
  | _ => Some "*"
  end.

(** The WHERE parts: the filters, then the cursor. *)
Definition filter_part (filters : option Value) : list string :=
  match filters with
  | Some f =>
      let where_clause := filters_to_where f in
      if str_empty where_clause then []
      else [default where_clause (strip_prefix "WHERE " where_clause)]
  | None => []
  end.
Definition cursor_part (collection : string) (order_by : option string) (descending : bool)
    (start_after : option string) : list string :=
  match start_after with
  | Some cursor_id =>
      let order_field := default "id" order_by in
      match sql_field_expr order_field with
      | Some order_expr =>
          let op := if descending then "<" else ">" in
          if order_field =s? "id" then
            ["id " +:+ op +:+ " " +:+ quoted (escape_sql_string cursor_id)]
          else
            [order_expr +:+ " " +:+ op +:+ " (SELECT " +:+ order_expr +:+ " FROM " +:+ collection
             +:+ " WHERE id = " +:+ quoted (escape_sql_string cursor_id) +:+ ")"]
      | None => []
      end
  | None => []
  end.
Definition order_clause (order_by : option string) (descending : bool) : string :=
  match order_by ≫= sql_field_expr with
  | Some order_expr => " ORDER BY " +:+ order_expr +:+ " " +:+ (if descending then "DESC" else "ASC")
  | None => ""
  end.
Definition count_clause (keyword : string) (n : option N) : string :=
  match n with Some n => keyword +:+ pretty n | None => "" end.

Definition build_select_ext (collection : string) (filters : option Value)
    (order_by : option string) (descending : bool) (limit offset : option N)
    (fields : option (list string)) (start_after : option string) : string :=
  if negb (is_ok (validate_identifier collection)) then
    "SELECT * FROM _invalid_collection WHERE false"
  else match select_fields fields with
  | None => "SELECT * FROM " +:+ collection
  | Some select_fields =>
      let where_parts :=
        filter_part filters ++ cursor_part collection order_by descending start_after in
      "SELECT " +:+ select_fields +:+ " FROM " +:+ collection
      +:+ (match where_parts with [] => "" | _ => " WHERE " +:+ join " AND " where_parts end)
      +:+ order_clause order_by descending
      +:+ count_clause " LIMIT " limit +:+ count_clause " OFFSET " offset
  end.

Definition build_select (collection : string) (filters : option Value)
    (order_by : option string) (descending : bool) (limit offset : option N) : string :=
  build_select_ext collection filters order_by descending limit offset None None.
End translator.

(** The builder on the inputs of its unit tests. *)
Example build_select_sample :
  build_select (T := plain_text) "products"
    (Some (VObject [("price", VObject [("_gt", VNumber (PosInt 100))])]))
    (Some "name") false (Some 10%N) None
  = "SELECT * FROM products WHERE NULLIF(data->>'price', '')::numeric > 100 ORDER BY data->>'name' ASC LIMIT 10".
Proof. by vm_compute. Qed.

(** ** Reading the statement *)

(** Where a lexer stands: in the statement, in a literal, or after a backslash
    in a literal. *)
Inductive lex_state := InCode | InLiteral | InEscape.

Definition lex_step (backslash : bool) (st : lex_state) (c : ascii) : lex_state * string :=
  match st with
  | InCode => if Ascii.eqb c APOS then (InLiteral, str1 c) else (InCode, str1 c)
  | InLiteral =>
      if Ascii.eqb c APOS then (InCode, str1 c)
      else if backslash && Ascii.eqb c BACKSLASH then (InEscape, "") else (InLiteral, "")
  | InEscape => (InLiteral, "")
  end.

(** The final state and the text outside of the literals (their quotes kept:
    a doubled quote shows as a literal ending and another starting).
    [backslash]: whether a backslash escapes, as in [lex_backslash] and
    [lex_standard]. *)
Fixpoint scan (backslash : bool) (st : lex_state) (s : string) : lex_state * string :=
  match s with
  | "" => (st, "")
  | String c s =>
      let '(st1, o1) := lex_step backslash st c in
      let '(st2, o2) := scan backslash st1 s in (st2, o1 +:+ o2)
  end.

(** Both texts are complete statements (no literal left open) that differ
    at most in the contents of their literals. *)
Definition same_sql (s t : string) : Prop :=
  ∃ o, scan true InCode s = (InCode, o) ∧ scan true InCode t = (InCode, o).

(** The same filter up to the strings compared with: keys, operators, numbers
    and booleans agree. *)
Inductive same_shape : Value → Value → Prop :=
| shape_null : same_shape VNull VNull
| shape_bool b : same_shape (VBool b) (VBool b)
| shape_number n : same_shape (VNumber n) (VNumber n)
| shape_string s t : same_shape (VString s) (VString t)
| shape_array l l' : Forall2 same_shape l l' → same_shape (VArray l) (VArray l')
| shape_object m m' :
    Forall2 (λ kv kv', kv.1 = kv'.1 ∧ same_shape kv.2 kv'.2) m m' →
    same_shape (VObject m) (VObject m').

Lemma scan_app b st s t :
  scan b st (s +:+ t) =
  let '(st1, o1) := scan b st s in
  let '(st2, o2) := scan b st1 t in (st2, o1 +:+ o2).
Proof.
  revert st. induction s as [|c s IH]; intros st.
  - rewrite str_app_nil_l. cbn. by destruct (scan b st t).
  - rewrite str_app_cons. cbn. destruct (lex_step b st c) as [st1 o1]. rewrite IH.
    destruct (scan b st1 s) as [st2 o2], (scan b st2 t) as [st3 o3].
    by rewrite str_app_assoc.
Qed.

(** Text that stays within a literal and leaves it open. *)
Definition in_literal (s : string) : Prop := scan true InLiteral s = (InLiteral, "").

Lemma in_literal_app s t : in_literal s → in_literal t → in_literal (s +:+ t).
Proof. unfold in_literal. intros Hs Ht. by rewrite scan_app, Hs, Ht. Qed.

Lemma in_literal_word s : str_forall is_word s = true → in_literal s.
Proof.
  unfold in_literal. induction s as [|c s IH]; [done|]. cbn [str_forall scan]. intros. bools.
  destruct (word_not_quote c) as (Ha & Hb & _); [done|].
  unfold lex_step. apply Ascii.eqb_neq in Ha, Hb. rewrite Ha, Hb. cbn. by rewrite IH.
Qed.

Lemma scan_escape c : scan true InLiteral (String BACKSLASH (str1 c)) = (InLiteral, "").
Proof. done. Qed.

Lemma scan_other c : c ≠ APOS → c ≠ BACKSLASH →
  scan true InLiteral (str1 c) = (InLiteral, "").
Proof. intros Ha Hb. apply Ascii.eqb_neq in Ha, Hb. cbn. by rewrite Ha, Hb. Qed.

Lemma in_literal_escaped s : in_literal (escape_sql_string s).
Proof.
  unfold in_literal. induction s as [|c s IH]; [done|]. rewrite escape_cons, scan_app.
  destruct (Ascii.eqb_spec c BACKSLASH) as [->|Hb]; [by rewrite scan_escape, IH|].
  destruct (Ascii.eqb_spec c APOS) as [->|Ha]; [by rewrite scan_escape, IH|].
  by rewrite scan_other, IH.
Qed.

Lemma same_sql_app s s' t t' : same_sql s t → same_sql s' t' → same_sql (s +:+ s') (t +:+ t').
Proof.
  intros (o & Hs & Ht) (o' & Hs' & Ht'). exists (o +:+ o').
  by rewrite !scan_app, Hs, Ht, Hs', Ht'.
Qed.

Global Instance same_sql_app_proper : Proper (same_sql ==> same_sql ==> same_sql) String.append.
Proof. intros s t H s' t' H'. by apply same_sql_app. Qed.

Lemma same_sql_quoted s t : in_literal s → in_literal t → same_sql (quoted s) (quoted t).
Proof.
  unfold in_literal, quoted. intros Hs Ht. exists "''".
  rewrite !scan_app. change (scan true InCode "'") with (InLiteral, "'"). cbn iota.
  by rewrite !scan_app, Hs, Ht.
Qed.

(** Text without quotes is the same statement as itself. *)
Lemma same_sql_plain s : str_exists (Ascii.eqb APOS) s = false → same_sql s s.
Proof.
  intros H. exists s. cut (scan true InCode s = (InCode, s)); [done|].
  induction s as [|c s IH]; [done|]. cbn in H. bools. cbn.
  rewrite Ascii.eqb_sym. by rewrite H, IH.
Qed.

Lemma word_plain s : str_forall is_word s = true → str_exists (Ascii.eqb APOS) s = false.
Proof.
  induction s as [|c s IH]; [done|]. cbn. intros. bools. rewrite IH by done.
  destruct (word_not_quote c) as (Ha & _); [done|].
  rewrite Ascii.eqb_sym. apply Ascii.eqb_neq in Ha. by rewrite Ha.
Qed.

Lemma number_plain s : str_forall is_number_char s = true → str_exists (Ascii.eqb APOS) s = false.
Proof.
  induction s as [|c s IH]; [done|]. cbn. intros. bools. rewrite IH by done.
  rewrite orb_false_r. apply Ascii.eqb_neq. intros <-. by vm_compute in H.
Qed.

Lemma same_sql_join sep l l' :
  str_exists (Ascii.eqb APOS) sep = false → Forall2 same_sql l l' →
  same_sql (join sep l) (join sep l').
Proof.
  intros Hsep. induction 1 as [|x y l l' Hxy Hl IH]; [by apply same_sql_plain|].
  destruct Hl as [|x2 y2 l l' H2 Hl]; [done|].
  apply same_sql_app; [done|]. apply same_sql_app; [by apply same_sql_plain|done].
Qed.

Lemma identifier_word name : is_ok (validate_identifier name) = true → str_forall is_word name = true.
Proof.
  destruct (validate_identifier name) eqn:E; [|done..]. intros _.
  by eapply validate_identifier_word.
Qed.

#[export] Hint Resolve in_literal_app in_literal_word in_literal_escaped identifier_word
  same_sql_quoted same_sql_plain word_plain number_plain same_sql_join : ob.
#[export] Hint Extern 0 (in_literal _) => (unfold in_literal; vm_compute; reflexivity) : ob.
#[export] Hint Extern 0 (str_exists _ _ = false) => (vm_compute; reflexivity) : ob.

(** Follow the structure of two generated texts. *)
Ltac sql :=
  repeat match goal with
  | |- same_sql (quoted _) (quoted _) => apply same_sql_quoted
  | |- same_sql (String.append _ _) (String.append _ _) => apply same_sql_app
  end; first [solve [auto 4 with ob nocore] | eauto 2 with ob nocore].

Section no_injection.
Context `{T : SerdeText} `{!SerdeTextLaws T}.

Lemma sql_field_expr_same field e : sql_field_expr field = Some e → same_sql e e.
Proof.
  unfold sql_field_expr, numeric_expr. intros H. cases_ok H; bools; simplify_eq; sql.
Qed.

Lemma sql_json_value_expr_same field e : sql_json_value_expr field = Some e → same_sql e e.
Proof.
  unfold sql_json_value_expr. intros H. cases_ok H; bools; simplify_eq; sql.
Qed.

Lemma sql_typed_field_expr_same field v e : sql_typed_field_expr field v = Some e → same_sql e e.
Proof.
  unfold sql_typed_field_expr, numeric_expr. intros H.
  destruct (negb _) eqn:Hid in H; [done|]. bools.
  destruct v; try (by eapply sql_field_expr_same); simplify_eq; repeat case_match; sql.
Qed.

Lemma sql_typed_field_expr_shape field v v' :
  same_shape v v' → sql_typed_field_expr field v = sql_typed_field_expr field v'.
Proof. by destruct 1. Qed.

Lemma format_sql_literal_same v v' :
  same_shape v v' → same_sql (format_sql_literal v) (format_sql_literal v').
Proof.
  destruct 1; cbn [format_sql_literal]; try by sql.
  - destruct b; sql.
  - apply same_sql_plain, number_plain, number_text.
Qed.

#[local] Hint Resolve sql_field_expr_same sql_json_value_expr_same sql_typed_field_expr_same
  format_sql_literal_same : ob.

(** The operators that compare the typed field with a literal. *)
Lemma comparison_same field v v' (mk mk' : string → string) :
  same_shape v v' → (∀ e, same_sql e e → same_sql (mk e) (mk' e)) →
  option_Forall2 same_sql (e ← sql_typed_field_expr field v; Some (mk e))
                          (e ← sql_typed_field_expr field v'; Some (mk' e)).
Proof.
  intros Hv Hmk. rewrite <- (sql_typed_field_expr_shape field v v' Hv).
  destruct (sql_typed_field_expr field v) as [e|] eqn:E; constructor. eauto with ob.
Qed.

Lemma same_shape_null v v' : same_shape v v' → is_null v = is_null v'.
Proof. by destruct 1. Qed.

Lemma same_shape_head l l' :
  Forall2 same_shape l l' → same_shape (default VNull (head l)) (default VNull (head l')).
Proof. destruct 1; [constructor|done]. Qed.

Lemma translate_op_same field op v v' :
  same_shape v v' →
  option_Forall2 same_sql (translate_op field op v) (translate_op field op v').
Proof.
  intros Hv. unfold translate_op. rewrite (same_shape_null v v' Hv).
  destruct (negb _) eqn:Hid; [constructor|]. bools.
  repeat (case_match; [solve [apply comparison_same; [done|];
    intros e He; repeat case_match; sql]|]).
  case_match; [|case_match; [|case_match; [|constructor]]].
  - destruct Hv; cbn; try constructor.
    apply comparison_same; [by apply same_shape_head|]. intros e He. sql.
    apply same_sql_join; [done|]. apply Forall2_fmap. eapply Forall2_impl; eauto with ob.
  - destruct Hv; cbn; constructor.
    destruct (sql_json_value_expr field) eqn:?, (sql_field_expr field) eqn:?; cbn;
      sql.
  - destruct (sql_field_expr field) as [e|] eqn:?; [|constructor].
    destruct Hv; cbn; constructor. sql.
Qed.

Lemma option_Forall2_omap {A B} (R : A → A → Prop) (S : B → B → Prop) (f : A → option B) l l' :
  (∀ x y, R x y → option_Forall2 S (f x) (f y)) →
  Forall2 R l l' → Forall2 S (omap f l) (omap f l').
Proof.
  intros Hf. induction 1 as [|x y l l' Hxy Hl IH]; [constructor|]. cbn.
  destruct (Hf x y Hxy); [by constructor|done].
Qed.

Lemma filter_conditions_same m m' :
  same_shape (VObject m) (VObject m') →
  Forall2 same_sql (filter_conditions m) (filter_conditions m').
Proof.
  inversion 1 as [| | | | |? ? Hm]; subst. unfold filter_conditions. clear H.
  induction Hm as [|[k v] [k' v'] m m' [Hk Hv] Hm IH]; [constructor|]. cbn in Hk, Hv. subst k'.
  rewrite !bind_cons. apply Forall2_app; [|done].
  destruct Hv as [| | | | |ops ops' Hops]; try constructor. cbn.
  eapply option_Forall2_omap, Hops. intros [op x] [op' x'] [Hop Hx]. cbn in Hop, Hx. subst op'.
  by apply translate_op_same.
Qed.

Lemma filters_to_where_shape f f' :
  same_shape f f' →
  (filters_to_where f = "" ∧ filters_to_where f' = "")
  ∨ ∃ c c', filters_to_where f = "WHERE " +:+ c ∧ filters_to_where f' = "WHERE " +:+ c'
      ∧ same_sql c c'.
Proof.
  intros Hf. unfold filters_to_where. destruct Hf; try (by left). cbn [as_object].
  pose proof (filter_conditions_same m m' (shape_object m m' H)) as Hc.
  destruct Hc as [|x y l l' Hxy Hl]; [by left|]. right. do 2 eexists. split_and!; [done..|].
  apply same_sql_join; [done|]. by constructor.
Qed.

Lemma filter_part_same f f' :
  option_Forall2 same_shape f f' → Forall2 same_sql (filter_part f) (filter_part f').
Proof.
  destruct 1 as [v v' Hv|]; [|constructor]. unfold filter_part.
  destruct (filters_to_where_shape v v' Hv) as [[-> ->]|(c & c' & -> & -> & Hc)]; [constructor|].
  rewrite !strip_prefix_app. by repeat constructor.
Qed.

Lemma cursor_part_same collection order_by descending cur cur' :
  is_ok (validate_identifier collection) = true → (is_Some cur ↔ is_Some cur') →
  Forall2 same_sql (cursor_part collection order_by descending cur)
                   (cursor_part collection order_by descending cur').
Proof.
  intros Hc [H1 H2]. destruct cur as [s|], cur' as [t|];
    [|by destruct H1|by destruct H2|constructor]. cbn.
  destruct (sql_field_expr _) as [e|] eqn:E; [|constructor].
  case_match; constructor; [|constructor| |constructor]; destruct descending; sql.
Qed.

Lemma order_clause_same order_by descending :
  same_sql (order_clause order_by descending) (order_clause order_by descending).
Proof.
  unfold order_clause. destruct order_by as [f|]; cbn; [|by apply same_sql_plain].
  destruct (sql_field_expr f) as [e|] eqn:E; destruct descending; sql.
Qed.

Lemma count_clause_same keyword n :
  str_exists (Ascii.eqb APOS) keyword = false →
  same_sql (count_clause keyword n) (count_clause keyword n).
Proof.
  intros Hk. destruct n as [n|]; [|by apply same_sql_plain]. cbn.
  apply same_sql_app; [by apply same_sql_plain|]. apply same_sql_plain, number_plain. auto with ob.
Qed.

Lemma Forall2_words l : forallb (str_forall is_word) l = true → Forall2 same_sql l l.
Proof. induction l as [|x l IH]; [constructor|]. cbn. intros. bools. constructor; [sql|auto]. Qed.

Lemma select_fields_same fields s : select_fields fields = Some s → same_sql s s.
Proof.
  unfold select_fields. intros H. destruct fields as [[|x l]|]; simplify_eq; try by sql.
  destruct (negb _) eqn:E; [done|]. apply negb_false_iff in E.
  assert (same_sql (join ", " (x :: l)) (join ", " (x :: l))).
  { apply same_sql_join; [done|]. by apply Forall2_words. }

  destruct (existsb _ _); simplify_eq; [done|]. by apply same_sql_app; [apply same_sql_plain|].
Qed.

(** C4: the statement built for a query is complete (no literal is left open)
    and is the same statement whatever the strings the filters compare with and
    whatever the cursor: they only ever appear inside string literals, for a
    database that reads a backslash in a literal as an escape.  The collection,
    the fields, the order field and the filter keys are arbitrary strings. *)
Theorem build_select_no_injection collection f f' order_by descending limit offset fields cur cur' :
  option_Forall2 same_shape f f' → (is_Some cur ↔ is_Some cur') →
  same_sql (build_select_ext collection f order_by descending limit offset fields cur)
           (build_select_ext collection f' order_by descending limit offset fields cur').
Proof.
  intros Hf Hcur. unfold build_select_ext.
  destruct (negb _) eqn:Hid; [sql|]. bools.
  destruct (select_fields fields) as [sf|] eqn:E; [|sql].
  pose proof (Forall2_app (filter_part_same f f' Hf)
    (cursor_part_same collection order_by descending cur cur' Hid Hcur)) as Hw.
  repeat apply same_sql_app; eauto 2 using select_fields_same, order_clause_same,
    count_clause_same with ob nocore.
  - sql.
  - destruct Hw; [sql|]. apply same_sql_app; [sql|].
    apply same_sql_join; [done|]. by constructor.
Qed.
End no_injection.

Definition name_filter (s : string) : Value :=
  VObject [("name", VObject [("_eq", VString s); ("_contains", VString s)])].

Lemma build_select_no_injection_witness :
  same_sql
    (build_select_ext (T := plain_text) "users" (Some (name_filter "bob")) None false None None
       None (Some "u1"))
    (build_select_ext (T := plain_text) "users" (Some (name_filter "' OR true --")) None false None
       None None (Some "\';DROP TABLE users;")).
Proof.
  apply (build_select_no_injection (SerdeTextLaws0 := plain_text_laws)).
  - repeat constructor.
  - split; by eexists.
Defined.

Lemma scan_code_escaped s :
  str_exists (Ascii.eqb APOS) s = false →
  scan false InCode (escape_sql_string s) = (InCode, escape_sql_string s).
Proof.
  induction s as [|c s IH]; [done|]. intros Hp. cbn in Hp. bools. rewrite escape_cons, scan_app.
  rewrite (Ascii.eqb_sym c APOS), H. destruct (Ascii.eqb c BACKSLASH).
  - change (scan false InCode (String BACKSLASH (str1 BACKSLASH)))
      with (InCode, String BACKSLASH (str1 BACKSLASH)). cbn iota. by rewrite IH.
  - cbn. by rewrite (Ascii.eqb_sym c APOS), H, IH.
Qed.

(** With standard-conforming literals, PostgreSQL's default, the statement
    is not protected: an equality filter on a value that starts with a quote
    leaves the rest of the value outside of every literal, as SQL text. *)
Theorem filters_to_where_standard_injection `{T : SerdeText} payload :
  str_exists (Ascii.eqb APOS) payload = false →
  scan false InCode
    (filters_to_where (VObject [("name", VObject [("_eq", VString (String APOS payload))])]))
  = (InLiteral, "WHERE data->>'' = ''" +:+ escape_sql_string payload +:+ "'").
Proof.
  intros Hp.
  change (filters_to_where _) with
    ("WHERE data->>'name' = '" +:+ escape_sql_string (String APOS payload) +:+ "'").
  rewrite escape_cons, !scan_app.
  change (scan false InCode "WHERE data->>'name' = '") with (InLiteral, "WHERE data->>'' = '").
  cbn iota. change (Ascii.eqb APOS BACKSLASH) with false. cbn iota. rewrite Ascii.eqb_refl.
  rewrite !scan_app.
  change (scan false InLiteral (String BACKSLASH (str1 APOS))) with (InCode, "'"). cbn iota.
  cut (scan false InCode (escape_sql_string payload) = (InCode, escape_sql_string payload)).
  { intros ->. by cbn. }
  by apply scan_code_escaped.
Qed.

Lemma filters_to_where_standard_injection_witness :
  scan false InCode
    (filters_to_where (T := plain_text)
       (VObject [("name", VObject [("_eq", VString (String APOS " OR true --"))])]))
  = (InLiteral, "WHERE data->>'' = ''" +:+ escape_sql_string " OR true --" +:+ "'").
Proof. by apply filters_to_where_standard_injection. Defined.

(** One badly named field in the projection discards the whole query: the
    filters, the cursor, the order and the limits are dropped and the statement
    selects every document of the collection. *)
Theorem build_select_bad_projection_unfiltered `{T : SerdeText}
    collection f order_by descending limit offset fields cur field :
  is_ok (validate_identifier collection) = true →
  field ∈ fields → str_forall is_word field = false →
  build_select_ext collection f order_by descending limit offset (Some fields) cur
  = "SELECT * FROM " +:+ collection.
Proof.
  intros Hc Hin Hw. unfold build_select_ext. rewrite Hc. cbn [negb].
  destruct fields as [|x l]; [by apply not_elem_of_nil in Hin|]. unfold select_fields.
  assert (forallb (str_forall is_word) (x :: l) = false) as ->; [|done].
  apply not_true_is_false. rewrite forallb_forall. intros Hall.
  rewrite Hall in Hw; [done|]. by apply list_elem_of_In.
Qed.

Lemma build_select_bad_projection_unfiltered_witness :
  build_select_ext (T := plain_text) "orders" (Some (name_filter "bob")) None false (Some 10%N)
    None (Some ["total"; "user.email"]) None
  = "SELECT * FROM orders".
Proof.
  by apply (build_select_bad_projection_unfiltered _ _ _ _ _ _ _ _ "user.email");
    [|right; left|].
Defined.
