(* ===== verification/Clock.v ===== *)
(** * Clocks and identifiers of the libraries the backend uses

    Interfaces to the third-party crates several components share: [chrono]
    (points in time and durations) and [uuid].  They are classes: the
    definitions take them as parameters, the laws state their documented
    behaviour, and one concrete instance of each serves the witnesses. *)

From S2P Require Export Core.

(** ** chrono

    A [DateTime<Utc>] is a number of microseconds (the resolution of the
    database) since the epoch, within the range the crate represents. *)
Class Chrono := {
  utc_min : Z;
  utc_max : Z;
  to_rfc3339 : Z → string;
}.
Definition micros_per_sec : Z := 1000000.

(** [chrono::Duration::seconds] panics beyond [i64::MAX / 1000] seconds. *)
Definition duration_seconds (secs : Z) : option Z :=
  if (- (i64_max / 1000) <=? secs)%Z && (secs <=? i64_max / 1000)%Z
  then Some (secs * micros_per_sec)%Z else None.

(** [now + duration] and [now - duration] panic outside the range. *)
Definition datetime_add `{Chrono} (now d : Z) : option Z :=
  if (utc_min <=? now + d)%Z && (now + d <=? utc_max)%Z then Some (now + d)%Z else None.
Definition add_seconds {E} `{Chrono} (now secs : Z) : outcome E Z :=
  unwrap (d ← duration_seconds secs; datetime_add now d).

(** [u as i64] for a [u64]. *)
Definition u64_as_i64 (u : N) : Z := wrap_signed 64 (Z.of_N u).

(** The crate's range, years -262143 to 262142. *)
Class ChronoLaws (C : Chrono) : Prop := {
  utc_range : (utc_min ≤ -8334601228800 * micros_per_sec ∧
               8210266876799 * micros_per_sec ≤ utc_max)%Z;
}.

(** ** uuid *)
Class UuidLib := {
  Uuid : Type;
  uuid_eq :: EqDecision Uuid;
  uuid_countable :: Countable Uuid;
  uuid_to_string : Uuid → string;
  parse_uuid : string → outcome string Uuid;  (** or the error's text *)
}.
Class UuidLaws (U : UuidLib) : Prop := {
  parse_uuid_to_string u : parse_uuid (uuid_to_string u) = Ok u;
}.

(** ** Concrete instances *)
Definition plain_chrono : Chrono :=
  {| utc_min := (-8334601228800 * micros_per_sec)%Z;
     utc_max := (8210266876799 * micros_per_sec)%Z;
     to_rfc3339 := pretty |}.
Definition plain_uuid : UuidLib :=
  {| Uuid := string; uuid_to_string := id; parse_uuid := Ok |}.

Lemma plain_chrono_laws : ChronoLaws plain_chrono.
Proof. constructor. cbn. lia. Qed.

Lemma plain_uuid_laws : UuidLaws plain_uuid.
Proof. by constructor. Qed.

(** ** Lemmas *)

Lemma add_seconds_small {E} `{C : Chrono} `{!ChronoLaws C} (now secs : Z) :
  (0 ≤ now ≤ 2 ^ 52 → 0 ≤ secs ≤ 2 ^ 42 →
   add_seconds (E := E) now secs = Ok (now + secs * micros_per_sec))%Z.
Proof.
  intros Hn Hs. unfold add_seconds, duration_seconds.
  replace (i64_max / 1000)%Z with 9223372036854775%Z by reflexivity.
  rewrite (proj2 (Z.leb_le _ _)) by lia. rewrite (proj2 (Z.leb_le _ _)) by lia. cbn.
  unfold datetime_add. pose proof utc_range as [H1 H2]. unfold micros_per_sec in *.
  rewrite (proj2 (Z.leb_le _ _)) by lia. by rewrite (proj2 (Z.leb_le _ _)) by lia.
Qed.
