(* ===== verification/TaskQueue.v ===== *)
(** * The task queue

    [TaskQueue] and [run_worker] (crates/ob-database/src/task_queue.rs).  The
    state is the [_task_queue] table, a finite map from task ids to rows; each
    SQL statement of the source is one function on the table, atomic as the
    database runs it, and each operation is the sequence of its statements.
    Operations that take two statements ([claim_next], [fail]) can be
    interleaved with those of other workers: [step] is the transition relation
    of any number of workers, one transition per statement.

    The clock is an argument: an operation takes the reading of [Utc::now()] it
    makes.  The table exists ([ensure_schema]'s DDL is idempotent and not
    modelled) and the connection works: an operation fails only where a
    statement can. *)

From S2P Require Export Clock.

Inductive TaskStatus : Type := Pending | Running | Completed | Failed | DeadLetter.

(** The text serde writes ([rename_all = "snake_case"]) and the columns hold. *)
Definition status_text (s : TaskStatus) : string :=
  match s with
  | Pending => "pending" | Running => "running" | Completed => "completed"
  | Failed => "failed" | DeadLetter => "dead_letter"
  end.
Definition status_from_text (s : string) : option TaskStatus :=
  find (λ st, status_text st =s? s) [Pending; Running; Completed; Failed; DeadLetter].

Record Task : Type := {
  task_type : string;
  payload : Value;
  status : TaskStatus;
  queue : string;
  attempts : Z;              (** u32 *)
  max_retries : Z;           (** u32 *)
  scheduled_at : option string;
  created_at : string;
  started_at : option string;
  finished_at : option string;
  last_error : option string;
  priority : Z;
}.

Definition default_queue : string := "default".
Definition default_max_retries : Z := 3.

Record EnqueueRequest : Type := {
  req_task_type : string;
  req_payload : Value;
  req_queue : string;
  req_max_retries : Z;       (** u32 *)
  req_delay_secs : N;        (** u64 *)
  req_priority : Z;          (** i32 *)
}.
Definition EnqueueRequest_default : EnqueueRequest :=
  {| req_task_type := ""; req_payload := VNull; req_queue := default_queue;
     req_max_retries := default_max_retries; req_delay_secs := 0; req_priority := 0 |}.

(** A row of [_task_queue], without its key: the columns of the table. *)
Record TaskRow : Type := {
  c_job_name : string;
  c_queue : string;
  c_status : string;
  c_payload : Value;
  c_scheduled_at : option Z;
  c_locked_at : option Z;
  c_locked_by : option string;
  c_created_at : Z;
  c_updated_at : Z;
  c_started_at : option Z;
  c_completed_at : option Z;
  c_retry_count : Z;         (** INT *)
  c_max_retries : Z;         (** INT *)
  c_priority : Z;
  c_error_message : option string;
}.

(** The texts of the two errors the statements can raise. *)
Class PgText := {
  pg_int_out_of_range : string;
  pg_negative_limit : string;
}.

(** The table: its primary key and its rows. *)
Abbreviation table := (gmap Uuid TaskRow).

Section queue.
Context `{C : Chrono} `{U : UuidLib} `{P : PgText}.

Definition row_to_task (row : TaskRow) : Task :=
  {| task_type := c_job_name row;
     payload := c_payload row;
     status := default Pending (status_from_text (c_status row));
     queue := c_queue row;
     attempts := wrap_unsigned 32 (c_retry_count row);
     max_retries := wrap_unsigned 32 (c_max_retries row);
     scheduled_at := to_rfc3339 <$> c_scheduled_at row;
     created_at := to_rfc3339 (c_created_at row);
     started_at := to_rfc3339 <$> c_locked_at row;
     finished_at := to_rfc3339 <$> c_completed_at row;
     last_error := c_error_message row;
     priority := 0 |}.

(** [serde_json::to_value(&task)]; the keys in the order of the map. *)
Definition opt_string (o : option string) : Value := from_option VString VNull o.
Definition task_to_value (t : Task) : Value :=
  VObject [("attempts", of_i64 (attempts t)); ("created_at", VString (created_at t));
    ("finished_at", opt_string (finished_at t)); ("last_error", opt_string (last_error t));
    ("max_retries", of_i64 (max_retries t)); ("payload", payload t);
    ("priority", of_i64 (priority t)); ("queue", VString (queue t));
    ("scheduled_at", opt_string (scheduled_at t)); ("started_at", opt_string (started_at t));
    ("status", VString (status_text (status t))); ("task_type", VString (task_type t))].

(** ** The statements *)

(** The inserted row: the columns the INSERT names, the table's defaults for
    the others. *)
Definition inserted_row (req : EnqueueRequest) (scheduled : option Z) (now : Z) : TaskRow :=
  {| c_job_name := req_task_type req; c_queue := req_queue req; c_status := "pending";
     c_payload := req_payload req; c_scheduled_at := scheduled; c_locked_at := None;
     c_locked_by := None; c_created_at := now; c_updated_at := now; c_started_at := None;
     c_completed_at := None; c_retry_count := 0;
     c_max_retries := wrap_signed 32 (req_max_retries req);
     c_priority := 0; c_error_message := None |}.

(** The WHERE clause of the candidate SELECT. *)
Definition eligible (q : string) (now : Z) (row : TaskRow) : bool :=
  (c_queue row =s? q) && (c_status row =s? "pending")
  && match c_scheduled_at row with None => true | Some at_ => (at_ <=? now)%Z end.

(** [ORDER BY created_at ASC LIMIT 1]; among equal times, the first met. *)
Definition older (a b : option (Uuid * TaskRow)) : option (Uuid * TaskRow) :=
  match a, b with
  | Some (_, ra), Some (_, rb) => if (c_created_at rb <? c_created_at ra)%Z then b else a
  | None, _ => b
  | _, None => a
  end.
Definition select_candidate (q : string) (now : Z) (t : table) : option (Uuid * TaskRow) :=
  foldr (λ '(id, row) acc, if eligible q now row then older (Some (id, row)) acc else acc)
    None (map_to_list t).

Definition claimed_row (now : Z) (row : TaskRow) : TaskRow :=
  {| c_job_name := c_job_name row; c_queue := c_queue row; c_status := "running";
     c_payload := c_payload row; c_scheduled_at := c_scheduled_at row;
     c_locked_at := Some now; c_locked_by := c_locked_by row;
     c_created_at := c_created_at row; c_updated_at := c_updated_at row;
     c_started_at := c_started_at row; c_completed_at := c_completed_at row;
     c_retry_count := c_retry_count row + 1; c_max_retries := c_max_retries row;
     c_priority := c_priority row; c_error_message := c_error_message row |}.

(** The claiming UPDATE: guarded by [status = 'pending']. *)
Definition claim_update (id : Uuid) (now : Z) (t : table) : table * Result (option TaskRow) :=
  match t !! id with
  | Some row =>
      if c_status row =s? "pending" then
        if (c_retry_count row =? i32_max)%Z
        then (t, Err (Database ("Claim update failed: " +:+ pg_int_out_of_range)))
        else (<[id := claimed_row now row]> t, Ok (Some (claimed_row now row)))
      else (t, Ok None)
  | None => (t, Ok None)
  end.

(** The columns the other UPDATEs set. *)
Definition completed_row (now : Z) (row : TaskRow) : TaskRow :=
  {| c_job_name := c_job_name row; c_queue := c_queue row; c_status := "completed";
     c_payload := c_payload row; c_scheduled_at := c_scheduled_at row;
     c_locked_at := c_locked_at row; c_locked_by := c_locked_by row;
     c_created_at := c_created_at row; c_updated_at := c_updated_at row;
     c_started_at := c_started_at row; c_completed_at := Some now;
     c_retry_count := c_retry_count row; c_max_retries := c_max_retries row;
     c_priority := c_priority row; c_error_message := c_error_message row |}.
Definition dead_lettered_row (now : Z) (error : string) (row : TaskRow) : TaskRow :=
  {| c_job_name := c_job_name row; c_queue := c_queue row; c_status := "dead_letter";
     c_payload := c_payload row; c_scheduled_at := c_scheduled_at row;
     c_locked_at := c_locked_at row; c_locked_by := c_locked_by row;
     c_created_at := c_created_at row; c_updated_at := c_updated_at row;
     c_started_at := c_started_at row; c_completed_at := Some now;
     c_retry_count := c_retry_count row; c_max_retries := c_max_retries row;
     c_priority := c_priority row; c_error_message := Some error |}.
Definition requeued_row (retry_at : Z) (error : string) (row : TaskRow) : TaskRow :=
  {| c_job_name := c_job_name row; c_queue := c_queue row; c_status := "pending";
     c_payload := c_payload row; c_scheduled_at := Some retry_at;
     c_locked_at := None; c_locked_by := c_locked_by row;
     c_created_at := c_created_at row; c_updated_at := c_updated_at row;
     c_started_at := c_started_at row; c_completed_at := c_completed_at row;
     c_retry_count := c_retry_count row; c_max_retries := c_max_retries row;
     c_priority := c_priority row; c_error_message := Some error |}.
Definition reclaimed_row (row : TaskRow) : TaskRow :=
  {| c_job_name := c_job_name row; c_queue := c_queue row; c_status := "pending";
     c_payload := c_payload row; c_scheduled_at := c_scheduled_at row;
     c_locked_at := None; c_locked_by := c_locked_by row;
     c_created_at := c_created_at row; c_updated_at := c_updated_at row;
     c_started_at := c_started_at row; c_completed_at := c_completed_at row;
     c_retry_count := c_retry_count row; c_max_retries := c_max_retries row;
     c_priority := c_priority row; c_error_message := c_error_message row |}.
Definition reset_row (row : TaskRow) : TaskRow :=
  {| c_job_name := c_job_name row; c_queue := c_queue row; c_status := "pending";
     c_payload := c_payload row; c_scheduled_at := None;
     c_locked_at := None; c_locked_by := c_locked_by row;
     c_created_at := c_created_at row; c_updated_at := c_updated_at row;
     c_started_at := c_started_at row; c_completed_at := None;
     c_retry_count := 0; c_max_retries := c_max_retries row;
     c_priority := c_priority row; c_error_message := None |}.

(** [UPDATE ... WHERE id = $n]: no row, no change. *)
Definition update_row (f : TaskRow → TaskRow) (id : Uuid) (t : table) : table := alter f id t.

(** [locked_at < cutoff] is false for a NULL. *)
Definition before (at_ : option Z) (cutoff : Z) : bool :=
  match at_ with Some x => (x <? cutoff)%Z | None => false end.
Definition stale (cutoff : Z) (row : TaskRow) : bool :=
  (c_status row =s? "running") && before (c_locked_at row) cutoff.
Definition reclaim_update (p : TaskRow → bool) (t : table) : table :=
  (λ row, if p row then reclaimed_row row else row) <$> t.
Definition rows_where (p : TaskRow → bool) (t : table) : nat :=
  size (filter (λ kr : Uuid * TaskRow, p kr.2 = true) t).

(** ** The operations *)

(** [id] is the key [gen_random_uuid()] draws. *)
Definition enqueue (id : Uuid) (req : EnqueueRequest) (now : Z) (t : table) :
    table * Result Value :=
  match (if (0 <? req_delay_secs req)%N
         then Some <$> add_seconds now (u64_as_i64 (req_delay_secs req))
         else Ok None : Result (option Z)) with
  | Ok scheduled =>
      let row := inserted_row req scheduled now in
      (<[id := row]> t, Ok (task_to_value (row_to_task row)))
  | Err e => (t, Err e)
  | Panic => (t, Panic)
  end.

Fixpoint enqueue_batch (requests : list (Uuid * EnqueueRequest * Z)) (t : table) :
    table * Result (list Value) :=
  match requests with
  | [] => (t, Ok [])
  | (id, req, now) :: requests =>
      match enqueue id req now t with
      | (t, Ok v) =>
          let '(t, r) := enqueue_batch requests t in (t, cons v <$> r)
      | (t, Err e) => (t, Err e)
      | (t, Panic) => (t, Panic)
      end
  end.

Definition claim_next (q : string) (now : Z) (t : table) :
    table * Result (option (string * Task)) :=
  match select_candidate q now t with
  | None => (t, Ok None)
  | Some (task_id, _) =>
      match claim_update task_id now t with
      | (t, Ok (Some row)) => (t, Ok (Some (uuid_to_string task_id, row_to_task row)))
      | (t, Ok None) => (t, Ok None)
      | (t, Err e) => (t, Err e)
      | (t, Panic) => (t, Panic)
      end
  end.

Definition complete (task_id : string) (now : Z) (t : table) : table * Result unit :=
  match parse_uuid task_id with
  | Ok id => (update_row (completed_row now) id t, Ok tt)
  | Err e => (t, Err (Database ("Invalid task ID: " +:+ e)))
  | Panic => (t, Panic)
  end.

(** [2i64.pow(n)] in the release profile. *)
Definition pow2_i64 (n : Z) : Z := wrap_signed 64 (2 ^ n).

(** The second statement of [fail], from the counters the first one read. *)
Definition fail_update (id : Uuid) (error : string) (retry_count max_retries now : Z)
    (t : table) : table * Result unit :=
  if (max_retries <=? retry_count)%Z then
    (update_row (dead_lettered_row now error) id t, Ok tt)
  else
    match add_seconds now (pow2_i64 (wrap_unsigned 32 retry_count)) with
    | Ok retry_at => (update_row (requeued_row retry_at error) id t, Ok tt)
    | Err e => (t, Err e)
    | Panic => (t, Panic)
    end.

Definition fail (task_id : string) (error : string) (now : Z) (t : table) : table * Result unit :=
  match parse_uuid task_id with
  | Err _ => (t, Ok tt)
  | Panic => (t, Panic)
  | Ok id =>
      match t !! id with
      | None => (t, Ok tt)
      | Some row => fail_update id error (c_retry_count row) (c_max_retries row) now t
      end
  end.

Definition reclaim_stale (timeout_secs : N) (now : Z) (t : table) : table * Result N :=
  match add_seconds now (- u64_as_i64 timeout_secs)%Z with
  | Ok cutoff => (reclaim_update (stale cutoff) t, Ok (N.of_nat (rows_where (stale cutoff) t)))
  | Err e => (t, Err e)
  | Panic => (t, Panic)
  end.

Definition reclaim_stale_for_queue (q : string) (timeout_secs : N) (now : Z) (t : table) :
    table * Result N :=
  match add_seconds now (- u64_as_i64 timeout_secs)%Z with
  | Ok cutoff =>
      let p row := (c_queue row =s? q) && stale cutoff row in
      (reclaim_update p t, Ok (N.of_nat (rows_where p t)))
  | Err e => (t, Err e)
  | Panic => (t, Panic)
  end.

Definition stats (q : string) (t : table) : Value :=
  let statuses := remove_dups (c_status <$> (map_to_list t).*2) in
  VObject (foldl (λ stats s,
      assoc_insert s (VNumber (PosInt (N.of_nat (rows_where (λ row, c_status row =s? s) t)))) stats)
    [("queue", VString q)] statuses).

Definition purgeable (cutoff : Z) (row : TaskRow) : bool :=
  (c_status row =s? "completed") && before (c_completed_at row) cutoff.
Definition purge_completed (older_than_secs : N) (now : Z) (t : table) : table * Result N :=
  match add_seconds now (- u64_as_i64 older_than_secs)%Z with
  | Ok cutoff =>
      (filter (λ kr : Uuid * TaskRow, purgeable cutoff kr.2 = false) t,
       Ok (N.of_nat (rows_where (purgeable cutoff) t)))
  | Err e => (t, Err e)
  | Panic => (t, Panic)
  end.

(** [ORDER BY completed_at DESC]: a NULL sorts first. *)
Definition completed_desc (a b : Uuid * TaskRow) : Prop :=
  match c_completed_at a.2, c_completed_at b.2 with
  | None, _ => True
  | Some _, None => False
  | Some x, Some y => (y ≤ x)%Z
  end.
#[global] Instance completed_desc_dec : RelDecision completed_desc.
Proof.
  intros a b. unfold completed_desc.
  destruct (c_completed_at a.2), (c_completed_at b.2); apply _.
Defined.

Definition list_dead_letter (q : string) (limit : N) (t : table) : Result (list Value) :=
  if (u64_as_i64 limit <? 0)%Z
  then Err (Database ("List dead-letter failed: " +:+ pg_negative_limit))
  else
    let rows := merge_sort completed_desc
      (filter (λ kr : Uuid * TaskRow, (c_queue kr.2 =s? q) && (c_status kr.2 =s? "dead_letter") = true)
        (map_to_list t)) in
    Ok ((λ '(id, row), put "id" (VString (uuid_to_string id)) (task_to_value (row_to_task row)))
        <$> take (Z.to_nat (u64_as_i64 limit)) rows).

Definition retry_dead_letter (task_id : string) (t : table) : table * Result unit :=
  match parse_uuid task_id with
  | Ok id => (update_row reset_row id t, Ok tt)
  | Err e => (t, Err (Database ("Invalid task ID: " +:+ e)))
  | Panic => (t, Panic)
  end.

(** One iteration of the loop of [run_worker].  [elapsed] is the time since
    the last stale check, in seconds; the three readings are those of the
    operations the iteration runs.  Errors are logged and dropped; a panic ends
    the worker.  The handler is the caller's. *)
Record readings : Type := {
  elapsed : N;
  at_reclaim : Z;
  at_claim : Z;
  at_finish : Z;
}.
Definition worker_iteration (queue_name : string) (handler : Task → Result unit)
    (now : readings) (t : table) : table * outcome Error unit :=
  let '(t, reclaimed) :=
    if (60 <=? elapsed now)%N then reclaim_stale 300 (at_reclaim now) t else (t, Ok 0%N) in
  match reclaimed with
  | Panic => (t, Panic)
  | _ =>
      let '(t, claimed) := claim_next queue_name (at_claim now) t in
      match claimed with
      | Ok (Some (task_id, task)) =>
          match handler task with
          | Ok _ =>
              let '(t, r) := complete task_id (at_finish now) t in
              (t, match r with Panic => Panic | _ => Ok tt end)
          | Err e =>
              let '(t, r) := fail task_id (error_to_string e) (at_finish now) t in
              (t, match r with Panic => Panic | _ => Ok tt end)
          | Panic => (t, Panic)
          end
      | Ok None | Err _ => (t, Ok tt)
      | Panic => (t, Panic)
      end
  end.

(** The loop, over the readings of as many iterations as are run. *)
Fixpoint run_worker (queue_name : string) (handler : Task → Result unit)
    (clock : list readings) (t : table) : table * outcome Error unit :=
  match clock with
  | [] => (t, Ok tt)
  | now :: clock =>
      match worker_iteration queue_name handler now t with
      | (t, Panic) => (t, Panic)
      | (t, _) => run_worker queue_name handler clock t
      end
  end.
End queue.

(** ** Interleaved workers

    Where a worker stands between two statements: waiting, holding the
    candidate its SELECT returned, running the handler of a claimed task, or
    between the two statements of [fail]. *)
Section interleaving.
Context `{C : Chrono} `{U : UuidLib} `{P : PgText}.

Inductive pc : Type :=
| Idle
| Chosen (id : Uuid) (now : Z)
| Handling (id : Uuid)
| Failing (id : Uuid) (retry_count max_retries : Z) (now : Z) (error : string).

Record world : Type := { tbl : table; pcs : gmap nat pc }.

Definition move (w : nat) (c : pc) (t : table) (s : world) : world :=
  {| tbl := t; pcs := <[w := c]> (pcs s) |}.

(** The row a candidate SELECT may return: any oldest eligible one. *)
Definition is_candidate (q : string) (now : Z) (t : table) (id : Uuid) : Prop :=
  ∃ row, t !! id = Some row ∧ eligible q now row = true ∧
    ∀ id' row', t !! id' = Some row' → eligible q now row' = true →
      (c_created_at row ≤ c_created_at row')%Z.

Inductive step : world → world → Prop :=
| step_enqueue s id req now t' r :
    tbl s !! id = None → enqueue id req now (tbl s) = (t', r) →
    step s {| tbl := t'; pcs := pcs s |}
| step_select s w q now id :
    pcs s !! w = Some Idle → is_candidate q now (tbl s) id →
    step s (move w (Chosen id now) (tbl s) s)
| step_claim s w id now t' r :
    pcs s !! w = Some (Chosen id now) → claim_update id now (tbl s) = (t', r) →
    step s (move w (match r with Ok (Some _) => Handling id | _ => Idle end) t' s)
| step_complete s w id now :
    pcs s !! w = Some (Handling id) →
    step s (move w Idle (update_row (completed_row now) id (tbl s)) s)
| step_fail_read s w id now error row :
    pcs s !! w = Some (Handling id) → tbl s !! id = Some row →
    step s (move w (Failing id (c_retry_count row) (c_max_retries row) now error) (tbl s) s)
| step_fail_gone s w id :
    pcs s !! w = Some (Handling id) → tbl s !! id = None →
    step s (move w Idle (tbl s) s)
| step_fail_write s w id retry_count max_retries now error t' r :
    pcs s !! w = Some (Failing id retry_count max_retries now error) →
    fail_update id error retry_count max_retries now (tbl s) = (t', r) →
    step s (move w Idle t' s)
| step_crash s w c :
    pcs s !! w = Some c → step s (move w Idle (tbl s) s)
| step_reclaim s timeout_secs now t' r :
    reclaim_stale timeout_secs now (tbl s) = (t', r) →
    step s {| tbl := t'; pcs := pcs s |}
| step_purge s older_than_secs now t' r :
    purge_completed older_than_secs now (tbl s) = (t', r) →
    step s {| tbl := t'; pcs := pcs s |}
| step_retry s id :
    step s {| tbl := update_row reset_row id (tbl s); pcs := pcs s |}.

(** The task a worker has claimed and not yet released. *)
Definition holds_task (c : pc) : option Uuid :=
  match c with Handling id | Failing id _ _ _ _ => Some id | _ => None end.
Definition held (s : world) (w : nat) (id : Uuid) : Prop :=
  ∃ c, pcs s !! w = Some c ∧ holds_task c = Some id.

(** A step that leaves the tasks being worked on alone: none of them is
    reclaimed as stale (their workers finish within the timeout) nor reset by
    [retry_dead_letter]. *)
Definition timely (s s' : world) : Prop :=
  step s s' ∧
  ∀ w id, held s w id → pcs s' = pcs s → tbl s' !! id = tbl s !! id.

Definition initial (s : world) : Prop := ∀ w c, pcs s !! w = Some c → c = Idle.

(** What the queue promises its handlers. *)
Record exclusive (s : world) : Prop := {
  held_running w id : held s w id →
    ∃ row, tbl s !! id = Some row ∧ c_status row = "running";
  held_once w w' id : held s w id → held s w' id → w = w';
}.
End interleaving.

(** ** Claiming *)
Section claiming.
Context `{C : Chrono} `{U : UuidLib} `{P : PgText}.

Definition pick (q : string) (now : Z) (l : list (Uuid * TaskRow)) : option (Uuid * TaskRow) :=
  foldr (λ '(id, row) acc, if eligible q now row then older (Some (id, row)) acc else acc) None l.

Lemma pick_cons q now id row l :
  pick q now ((id, row) :: l) =
  if eligible q now row then older (Some (id, row)) (pick q now l) else pick q now l.
Proof. done. Qed.

Lemma pick_spec q now l :
  match pick q now l with
  | None => ∀ id row, (id, row) ∈ l → eligible q now row = false
  | Some (id, row) => (id, row) ∈ l ∧ eligible q now row = true ∧
      ∀ id' row', (id', row') ∈ l → eligible q now row' = true →
        (c_created_at row ≤ c_created_at row')%Z
  end.
Proof.
  induction l as [|[id row] l IH]; [by intros ?? ?%not_elem_of_nil|].
  rewrite pick_cons. destruct (eligible q now row) eqn:E.
  - destruct (pick q now l) as [[id2 row2]|]; unfold older.
    + destruct (c_created_at row2 <? c_created_at row)%Z eqn:L.
      * apply Z.ltb_lt in L. destruct IH as (Hin & He & Hmin).
        split_and!; [by right|done|]. intros id' row' [[= -> ->]|Hin']%elem_of_cons He'; [lia|eauto].
      * apply Z.ltb_ge in L. destruct IH as (Hin & He & Hmin).
        split_and!; [left|done|]. intros id' row' [[= -> ->]|Hin']%elem_of_cons He'; [lia|].
        specialize (Hmin _ _ Hin' He'). lia.
    + split_and!; [left|done|]. intros id' row' [[= -> ->]|Hin']%elem_of_cons He'; [lia|].
      specialize (IH _ _ Hin'). congruence.
  - destruct (pick q now l) as [[id2 row2]|].
    + destruct IH as (Hin & He & Hmin). split_and!; [by right|done|].
      intros id' row' [[= -> ->]|Hin']%elem_of_cons He'; [congruence|eauto].
    + intros id' row' [[= -> ->]|Hin']%elem_of_cons; eauto.
Qed.

Lemma select_candidate_spec q now t :
  match select_candidate q now t with
  | None => ∀ id row, t !! id = Some row → eligible q now row = false
  | Some (id, row) => t !! id = Some row ∧ is_candidate q now t id
  end.
Proof.
  pose proof (pick_spec q now (map_to_list t)) as H. unfold select_candidate.
  fold (pick q now (map_to_list t)). destruct (pick q now (map_to_list t)) as [[id row]|].
  - destruct H as (Hin & He & Hmin). apply elem_of_map_to_list in Hin. split; [done|].
    exists row. split_and!; [done..|]. intros id' row' Hl. by apply (Hmin id'), elem_of_map_to_list.
  - intros id row Hl. by apply (H id), elem_of_map_to_list.
Qed.

Lemma eligible_pending q now row : eligible q now row = true → c_status row = "pending".
Proof. unfold eligible. intros. by bools. Qed.

(** Claiming a task: nothing is claimed exactly when no task of the queue
    is pending and due; otherwise the claimed task is one of the oldest due ones,
    it is the only row changed, it becomes running, locked now and with one more
    attempt, and what the worker gets is that row.  The only error is the
    overflow of the 32-bit attempt counter, and then nothing changes. *)
Theorem claim_next_spec q now t :
  match claim_next q now t with
  | (t', Ok None) => t' = t ∧ ∀ id row, t !! id = Some row → eligible q now row = false
  | (t', Ok (Some (task_id, task))) =>
      ∃ id row, task_id = uuid_to_string id ∧ t !! id = Some row ∧ is_candidate q now t id
        ∧ t' = <[id := claimed_row now row]> t ∧ task = row_to_task (claimed_row now row)
        ∧ status task = Running
  | (t', Err _) => t' = t ∧ ∃ id row, t !! id = Some row ∧ is_candidate q now t id
        ∧ c_retry_count row = i32_max
  | (_, Panic) => False
  end.
Proof.
  unfold claim_next. pose proof (select_candidate_spec q now t) as H.
  destruct (select_candidate q now t) as [[id row]|]; [|done].
  destruct H as [Hl Hc]. unfold claim_update. rewrite Hl.
  assert (c_status row = "pending") as Hp.
  { destruct Hc as (row' & Hl' & He & _). simplify_eq. by eapply eligible_pending. }
  rewrite Hp, str_eqb_refl. destruct (c_retry_count row =? i32_max)%Z eqn:E.
  - apply Z.eqb_eq in E. eauto 10.
  - exists id, row. by split_and!.
Qed.
End claiming.

(** ** Exclusion *)
Section exclusion.
Context `{C : Chrono} `{U : UuidLib} `{P : PgText}.
Implicit Types s : world.

Lemma held_move s w c t w' id :
  held (move w c t s) w' id ↔ (w' = w ∧ holds_task c = Some id) ∨ (w' ≠ w ∧ held s w' id).
Proof.
  unfold held, move. cbn. destruct (decide (w' = w)) as [->|Hne].
  - rewrite lookup_insert_eq. naive_solver.
  - rewrite lookup_insert_ne by done. naive_solver.
Qed.

(** Letting go of a task, whatever is done to its row. *)
Lemma exclusive_release s w id t c :
  exclusive s → held s w id → (∀ id', id' ≠ id → t !! id' = tbl s !! id') →
  holds_task c = None → exclusive (move w c t s).
Proof.
  intros [Hrun Honce] Hw Ht Hc. split.
  - intros w' id' [[-> ?]|[Hne Hh]]%held_move; [congruence|].
    destruct (Hrun _ _ Hh) as (row & Hl & Hs). exists row. split; [|done]. cbn.
    rewrite Ht; [done|]. intros ->. apply Hne. eauto.
  - intros w1 w2 id' [[-> ?]|[? H1]]%held_move [[-> ?]|[? H2]]%held_move;
      [congruence..|eauto].
Qed.

(** Moving without letting go or taking, with the table as it is. *)
Lemma exclusive_keep s w c c0 :
  exclusive s → pcs s !! w = Some c0 → holds_task c = None ∨ holds_task c = holds_task c0 →
  exclusive (move w c (tbl s) s).
Proof.
  intros [Hrun Honce] Hw Hc.
  assert (∀ w' id', held (move w c (tbl s) s) w' id' → held s w' id') as Hsub.
  { intros w' id' [[-> Hh]|[? ?]]%held_move; [|done]. exists c0. split; [done|].
    destruct Hc; congruence. }
  split; [intros w' id' Hh%Hsub|intros w1 w2 id' H1%Hsub H2%Hsub]; eauto.
Qed.

Lemma exclusive_same_pcs s t :
  exclusive s → (∀ w id, held s w id → t !! id = tbl s !! id) →
  exclusive {| tbl := t; pcs := pcs s |}.
Proof.
  intros [Hrun Honce] Ht. split; [|done]. intros w id Hh. cbn. rewrite (Ht w); [|done]. eauto.
Qed.

Lemma claim_update_other id now t t' r id' :
  claim_update id now t = (t', r) → id' ≠ id → t' !! id' = t !! id'.
Proof.
  unfold claim_update. intros H Hne. repeat case_match; simplify_eq; try done.
  by rewrite lookup_insert_ne.
Qed.

Lemma fail_update_other id error rc mr now t t' r id' :
  fail_update id error rc mr now t = (t', r) → id' ≠ id → t' !! id' = t !! id'.
Proof.
  unfold fail_update, update_row. intros H Hne.
  repeat case_match; simplify_eq; try done; by rewrite lookup_alter_ne.
Qed.

Lemma exclusive_claim s w id now t' r :
  exclusive s → pcs s !! w = Some (Chosen id now) → claim_update id now (tbl s) = (t', r) →
  exclusive (move w (match r with Ok (Some _) => Handling id | _ => Idle end) t' s).
Proof.
  intros Hex Hw Hc.
  destruct r as [[row|]|e|]; try (assert (t' = tbl s) as -> by
    (unfold claim_update in Hc; repeat case_match; by simplify_eq);
    eapply exclusive_keep; eauto).
  unfold claim_update in Hc. repeat case_match; simplify_eq. bools.
  assert (∀ w', ¬ held s w' id) as Hfree.
  { intros w' Hh. destruct (held_running _ Hex _ _ Hh) as (? & ? & ?). congruence. }
  destruct Hex as [Hrun Honce]. split.
  - intros w' id' [[-> [= <-]]|[Hne Hh]]%held_move; cbn.
    + rewrite lookup_insert_eq. eauto.
    + rewrite lookup_insert_ne; [eauto|]. intros <-. by eapply Hfree.
  - intros w1 w2 id' [[-> [= <-]]|[? Hh1]]%held_move [[-> ?]|[? Hh2]]%held_move;
      cbn in *; simplify_eq; first [done | by eauto | by exfalso; eapply Hfree].
Qed.

Lemma exclusive_timely s s' : exclusive s → timely s s' → exclusive s'.
Proof.
  intros Hex [Hstep Htimely]. destruct Hstep; cbn in Htimely.
  - apply exclusive_same_pcs; [done|]. eauto.
  - eapply exclusive_keep; eauto.
  - eapply exclusive_claim; eauto.
  - eapply exclusive_release; [done|by exists (Handling id)| |done].
    intros id' Hne. unfold update_row. by rewrite lookup_alter_ne.
  - eapply exclusive_keep; eauto.
  - eapply exclusive_keep; eauto.
  - eapply (exclusive_release _ _ id); [done|by eexists|by intros; eapply fail_update_other|done].
  - eapply exclusive_keep; eauto.
  - apply exclusive_same_pcs; eauto.
  - apply exclusive_same_pcs; eauto.
  - apply exclusive_same_pcs; eauto.
Qed.

Lemma exclusive_reachable s0 s : initial s0 → rtc timely s0 s → exclusive s.
Proof.
  intros H0 Hr. assert (exclusive s0) as Hex.
  { split.
    - intros w id (c & Hc & Hh). by rewrite (H0 _ _ Hc) in Hh.
    - intros w w' id (c & Hc & Hh). by rewrite (H0 _ _ Hc) in Hh. }
  clear H0. induction Hr; eauto using exclusive_timely.
Qed.

(** C3: mutual exclusion of any number of concurrent workers, interleaved at
    every SQL statement and crashing at any point: as long as no task being
    worked on is reclaimed as stale or reset by hand, no two workers ever run the
    same task, and a task being worked on is marked running. *)
Theorem workers_exclusive s0 s :
  initial s0 → rtc timely s0 s →
  (∀ w w' id, held s w id → held s w' id → w = w')
  ∧ (∀ w id, held s w id → ∃ row, tbl s !! id = Some row ∧ c_status row = "running").
Proof. intros H0 Hr. by destruct (exclusive_reachable s0 s H0 Hr). Qed.

Lemma reclaim_keeps timeout now t t' r id row :
  reclaim_stale timeout now t = (t', r) → t !! id = Some row → c_status row ≠ "running" →
  t' !! id = Some row.
Proof.
  unfold reclaim_stale, reclaim_update, stale. intros H Hl Hs.
  repeat case_match; simplify_eq; try done. rewrite lookup_fmap, Hl. cbn.
  by rewrite (proj2 (bool_decide_eq_false _) Hs : (c_status row =s? "running") = false).
Qed.

Lemma purge_keeps_or_deletes older now t t' r id row :
  purge_completed older now t = (t', r) → t !! id = Some row →
  t' !! id = Some row ∨ (t' !! id = None ∧ c_status row = "completed").
Proof.
  unfold purge_completed. intros H Hl. repeat case_match; simplify_eq; try by left.
  destruct (purgeable a row) eqn:E.
  - right. split; [apply map_lookup_filter_None; right; cbn; naive_solver congruence|].
    unfold purgeable in E. by bools.
  - left. by apply map_lookup_filter_Some.
Qed.

(** A finished task is final: from any state reached without reclaiming or
    resetting a task in progress, the next statement of any worker leaves a
    completed or dead-lettered row exactly as it is, unless it purges it (a
    completed one only) or is an explicit [retry_dead_letter] of it. *)
Theorem finished_final s0 s s' id row :
  initial s0 → rtc timely s0 s → timely s s' →
  tbl s !! id = Some row → c_status row = "completed" ∨ c_status row = "dead_letter" →
  tbl s' !! id = Some row
  ∨ (tbl s' !! id = None ∧ c_status row = "completed")
  ∨ (tbl s' = update_row reset_row id (tbl s) ∧ pcs s' = pcs s).
Proof.
  intros H0 Hr [Hst _] Hl Hfin. pose proof (exclusive_reachable s0 s H0 Hr) as Hex.
  assert (∀ w c id', pcs s !! w = Some c → holds_task c = Some id' → id ≠ id') as Hfree.
  { intros w c id' Hw Hc ->. destruct (held_running _ Hex w id') as (row' & Hl' & Hs); [by exists c|].
    simplify_eq. destruct Hfin; congruence. }
  destruct Hst as [s i req now t' r Hn He| | s w i now t' r Hw Hc|s w i now Hw| | |
    s w i rc mr now er t' r Hw Hf| |s to now t' r Hrc|s ol now t' r Hp|s i]; cbn; auto.
  - left. unfold enqueue in He. repeat case_match; simplify_eq; try done;
      (rewrite lookup_insert_ne; [done|congruence]).
  - left. destruct (decide (id = i)) as [->|Hne].
    + unfold claim_update in Hc. rewrite Hl in Hc. assert ((c_status row =s? "pending") = false) as Hs.
      { apply bool_decide_eq_false. destruct Hfin; congruence. }
      rewrite Hs in Hc. by simplify_eq.
    + by rewrite (claim_update_other _ _ _ _ _ _ Hc Hne).
  - left. unfold update_row. rewrite lookup_alter_ne; [done|]. symmetry. by eapply Hfree.
  - left. rewrite (fail_update_other _ _ _ _ _ _ _ _ _ Hf); [done|]. by eapply Hfree.
  - left. eapply reclaim_keeps; [done..|]. destruct Hfin; congruence.
  - destruct (purge_keeps_or_deletes _ _ _ _ _ _ _ Hp Hl); eauto.
  - destruct (decide (id = i)) as [->|Hne]; [by do 2 right|].
    left. unfold update_row. by rewrite lookup_alter_ne.
Qed.
End exclusion.

(** ** Concrete runs *)
Section runs.
#[local] Instance run_chrono : Chrono := plain_chrono.
#[local] Instance run_uuid : UuidLib := plain_uuid.
#[local] Instance run_pg : PgText :=
  {| pg_int_out_of_range := "integer out of range";
     pg_negative_limit := "LIMIT must not be negative" |}.

(** A task with three attempts allowed, after [n] of them. *)
Definition demo_row (n : Z) : TaskRow :=
  {| c_job_name := "send_email"; c_queue := "default"; c_status := "pending";
     c_payload := VNull; c_scheduled_at := None; c_locked_at := None; c_locked_by := None;
     c_created_at := 0; c_updated_at := 0; c_started_at := None; c_completed_at := None;
     c_retry_count := n; c_max_retries := 3; c_priority := 0; c_error_message := None |}.
Definition demo_id : Uuid := "t1" : string.
Definition demo_table (row : TaskRow) : table := {[ demo_id := row ]}.
Definition demo (row : TaskRow) (l : list pc) : world :=
  {| tbl := demo_table row; pcs := list_to_map (zip (seq 0 (length l)) l) |}.
Definition secs (n : Z) : Z := (n * micros_per_sec)%Z.

Lemma demo_initial row n : initial (demo row (replicate n Idle)).
Proof.
  intros w c Hw. cbn in Hw. rewrite length_replicate in Hw.
  apply elem_of_list_to_map_2, elem_of_zip_r, elem_of_replicate in Hw. by destruct Hw.
Qed.

Lemma timely_move s w c t :
  step s (move w c t s) → pcs s !! w ≠ Some c → timely s (move w c t s).
Proof.
  intros Hs Hne. split; [done|]. intros w' id _ Heq. destruct Hne. rewrite <- Heq.
  apply lookup_insert_eq.
Qed.

Lemma demo_candidate row now :
  eligible "default" now row = true → is_candidate "default" now (demo_table row) demo_id.
Proof.
  intros He. unfold demo_table. exists row. split_and!; [apply lookup_singleton_eq|done|].
  intros id' row' [_ ->]%lookup_singleton_Some _. lia.
Qed.

Lemma step_claim_ok s w id now t' row :
  pcs s !! w = Some (Chosen id now) → claim_update id now (tbl s) = (t', Ok (Some row)) →
  step s (move w (Handling id) t' s).
Proof. intros Hw Hc. exact (step_claim s w id now t' _ Hw Hc). Qed.

Lemma step_claim_lost s w id now t' :
  pcs s !! w = Some (Chosen id now) → claim_update id now (tbl s) = (t', Ok None) →
  step s (move w Idle t' s).
Proof. intros Hw Hc. exact (step_claim s w id now t' _ Hw Hc). Qed.

Lemma contended_run : rtc timely (demo (demo_row 0) [Idle; Idle])
  (demo (claimed_row 6 (demo_row 0)) [Idle; Handling demo_id]).
Proof.
  eapply rtc_l.
  { apply (timely_move (demo (demo_row 0) [Idle; Idle]) 0 (Chosen demo_id 5)); [|done].
    apply (step_select _ _ "default"); [done|]. by apply demo_candidate. }
  eapply rtc_l.
  { apply timely_move with (w := 1) (c := Chosen demo_id 6); [|done].
    apply (step_select _ _ "default"); [done|]. by apply demo_candidate. }
  eapply rtc_l.
  { apply timely_move with (w := 1) (c := Handling demo_id); [|done].
    by eapply (step_claim_ok _ 1 demo_id 6). }
  eapply rtc_l.
  { apply timely_move with (w := 0) (c := Idle); [|done].
    by eapply (step_claim_lost _ 0 demo_id 5). }
  apply rtc_refl.
Qed.

Lemma workers_exclusive_witness :
  let s := demo (claimed_row 6 (demo_row 0)) [Idle; Handling demo_id] in
  (∀ w w' id, held s w id → held s w' id → w = w')
  ∧ (∀ w id, held s w id → ∃ row, tbl s !! id = Some row ∧ c_status row = "running").
Proof. exact (workers_exclusive _ _ (demo_initial (demo_row 0) 2) contended_run). Defined.

(** One worker runs the task to its end. *)
Lemma completed_run : rtc timely (demo (demo_row 0) [Idle; Idle])
  (demo (completed_row 7 (claimed_row 6 (demo_row 0))) [Idle; Idle]).
Proof.
  etransitivity; [apply contended_run|]. eapply rtc_l.
  { apply timely_move with (w := 1) (c := Idle); [|done].
    by apply (step_complete _ 1 demo_id 7). }
  apply rtc_refl.
Qed.

Lemma finished_final_witness :
  let row := completed_row 7 (claimed_row 6 (demo_row 0)) in
  let s := demo row [Idle; Idle] in
  tbl s !! demo_id = Some row
  ∨ (tbl s !! demo_id = None ∧ c_status row = "completed")
  ∨ (tbl s = update_row reset_row demo_id (tbl s) ∧ pcs s = pcs s).
Proof.
  eapply (finished_final _ _ _ demo_id _ (demo_initial (demo_row 0) 2) completed_run).
  - split; [|done].
    exact (step_reclaim (demo (completed_row 7 (claimed_row 6 (demo_row 0))) [Idle; Idle])
      300 (secs 1000) _ _ eq_refl).
  - done.
  - by left.
Defined.

(** A step of a worker itself, not of the maintenance operations. *)
Definition worker_step (s s' : world) : Prop := step s s' ∧ pcs s' ≠ pcs s.

(** A worker slower than the stale timeout breaks both guarantees: its
    task is reclaimed and claimed by a second worker, the first completes it, and
    the failure of the second then moves the completed task back to pending, to
    be run again: neither [complete] nor [fail] checks that the task is still
    the caller's. *)
Theorem slow_worker_reruns_completed :
  ∃ s0 s1 s2 row1 row2,
    initial s0 ∧ rtc step s0 s1 ∧ rtc worker_step s1 s2
    ∧ tbl s1 !! demo_id = Some row1 ∧ c_status row1 = "completed"
    ∧ tbl s2 !! demo_id = Some row2 ∧ c_status row2 = "pending".
Proof.
  exists (demo (demo_row 0) [Idle; Idle]). do 4 eexists.
  split; [apply (demo_initial (demo_row 0) 2)|]. split.
  { eapply rtc_l; [apply (step_select _ 0 "default" 0); [done|by apply demo_candidate]|].
    eapply rtc_l; [by eapply (step_claim_ok _ 0 demo_id 0)|].
    eapply rtc_l; [by eapply (step_reclaim _ 300 (secs 400))|].
    eapply rtc_l; [apply (step_select _ 1 "default" (secs 401) demo_id)|].
    { done. } { exact (demo_candidate (reclaimed_row (claimed_row 0 (demo_row 0))) (secs 401) eq_refl). }
    eapply rtc_l; [by eapply (step_claim_ok _ 1 demo_id (secs 401))|].
    eapply rtc_l; [by apply (step_complete _ 0 demo_id (secs 402))|]. apply rtc_refl. }
  split.
  { eapply rtc_l; [split; [by eapply (step_fail_read _ 1 demo_id (secs 403) "timeout")|done]|].
    eapply rtc_l; [split; [by eapply (step_fail_write _ 1 demo_id)|done]|]. apply rtc_refl. }
  by split_and!.
Qed.

(** A worker claims the task and crashes; the task is reclaimed. *)
Lemma crash_round n : n ≠ i32_max →
  rtc step (demo (demo_row n) [Idle]) (demo (demo_row (n + 1)) [Idle]).
Proof.
  intros Hn.
  eapply rtc_l; [apply (step_select _ 0 "default" 0); [done|by apply demo_candidate]|].
  eapply rtc_l.
  { apply (step_claim_ok _ 0 demo_id 0 (demo_table (claimed_row 0 (demo_row n)))
      (claimed_row 0 (demo_row n))); [done|].
    change (tbl _) with (demo_table (demo_row n)). unfold claim_update, demo_table.
    rewrite lookup_singleton_eq. cbn [c_status demo_row c_retry_count].
    rewrite str_eqb_refl, (proj2 (Z.eqb_neq _ _) Hn). by rewrite insert_singleton_eq. }
  eapply rtc_l; [by eapply (step_crash _ 0 (Handling demo_id))|].
  eapply rtc_l; [by eapply (step_reclaim _ 300 (secs 400))|]. apply rtc_refl.
Qed.

(** A task whose worker crashes is never dead-lettered: with three attempts
    allowed, it can be pending again after any number of attempts (up to the
    32-bit counter), because reclaiming a stale task does not look at
    [max_retries]. *)
Theorem reclaim_ignores_max_retries (n : nat) :
  (Z.of_nat n < i32_max)%Z → c_max_retries (demo_row (Z.of_nat n)) = 3%Z
  ∧ rtc step (demo (demo_row 0) [Idle]) (demo (demo_row (Z.of_nat n)) [Idle]).
Proof.
  intros Hn. split; [done|]. induction n as [|n IH]; [apply rtc_refl|].
  etransitivity; [apply IH; lia|].
  replace (Z.of_nat (S n)) with (Z.of_nat n + 1)%Z by lia. apply crash_round. lia.
Qed.

Lemma reclaim_ignores_max_retries_witness :
  c_max_retries (demo_row 100) = 3%Z
  ∧ rtc step (demo (demo_row 0) [Idle]) (demo (demo_row 100) [Idle]).
Proof. apply (reclaim_ignores_max_retries 100). done. Defined.
End runs.

(** ** Retries *)
Section retries.
Context `{C : Chrono} `{U : UuidLib} `{P : PgText}.
Context `{!ChronoLaws C} `{!UuidLaws U}.
Local Open Scope Z_scope.

Lemma pow2_i64_small n : 0 ≤ n ≤ 62 → pow2_i64 n = 2 ^ n.
Proof.
  intros Hn. unfold pow2_i64. apply wrap_signed_id; [lia|].
  change (64 - 1) with 63. split.
  - pose proof (Z.pow_nonneg 2 n). lia.
  - apply Z.pow_lt_mono_r; lia.
Qed.

Lemma fail_retry id error now t row :
  t !! id = Some row → 0 ≤ now ≤ 2 ^ 52 → 0 ≤ c_retry_count row ≤ 42 →
  c_retry_count row < c_max_retries row →
  fail (uuid_to_string id) error now t =
  (<[id := requeued_row (now + 2 ^ c_retry_count row * micros_per_sec) error row]> t, Ok tt).
Proof.
  intros Hl Hnow Hrc Hlt. unfold fail, fail_update. rewrite parse_uuid_to_string, Hl.
  rewrite (proj2 (Z.leb_gt _ _)) by lia.
  replace (wrap_unsigned 32 (c_retry_count row)) with (c_retry_count row)
    by (unfold wrap_unsigned; rewrite Z.mod_small; lia).
  rewrite pow2_i64_small, add_seconds_small; [|done| |lia].
  - unfold update_row. f_equal. apply map_eq. intros i.
    destruct (decide (i = id)) as [->|Hne].
    + by rewrite lookup_alter_eq, Hl, lookup_insert_eq.
    + by rewrite lookup_alter_ne, lookup_insert_ne.
  - split; [apply Z.pow_nonneg; lia|]. apply Z.pow_le_mono_r; lia.
Qed.

Lemma fail_dead id error now t row :
  t !! id = Some row → c_max_retries row ≤ c_retry_count row →
  fail (uuid_to_string id) error now t = (<[id := dead_lettered_row now error row]> t, Ok tt).
Proof.
  intros Hl Hge. unfold fail, fail_update. rewrite parse_uuid_to_string, Hl.
  rewrite (proj2 (Z.leb_le _ _)) by lia. unfold update_row. f_equal. apply map_eq. intros i.
  destruct (decide (i = id)) as [->|Hne].
  - by rewrite lookup_alter_eq, Hl, lookup_insert_eq.
  - by rewrite lookup_alter_ne, lookup_insert_ne.
Qed.

(** *** The schedule of the attempts

    The specification: the times alone say which iterations of the loop attempt a
    task that always fails.  With [k] of [allowed] attempts made and the next one due
    at [due] (at once, if [None]), an iteration attempts the task iff an attempt is
    left and is due when it claims; the attempt after that is due [2 ^ (k + 1)]
    seconds after the failure. *)
Definition is_due (due : option Z) (now : Z) : bool :=
  match due with None => true | Some at_ => at_ <=? now end.
Definition after_backoff (k : Z) (now : readings) : Z := at_finish now + 2 ^ k * micros_per_sec.
Fixpoint schedule (allowed k : Z) (due : option Z) (clock : list readings) : Z * option Z :=
  match clock with
  | [] => (k, due)
  | now :: clock =>
      if (k <? allowed) && is_due due (at_claim now)
      then schedule allowed (k + 1) (Some (after_backoff (k + 1) now)) clock
      else schedule allowed k due clock
  end.
(** Every iteration comes when the next attempt is due. *)
Fixpoint spaced (k : Z) (due : option Z) (clock : list readings) : bool :=
  match clock with
  | [] => true
  | now :: clock => is_due due (at_claim now) && spaced (k + 1) (Some (after_backoff (k + 1) now)) clock
  end.

Lemma schedule_spent allowed due clock : schedule allowed allowed due clock = (allowed, due).
Proof. induction clock as [|now clock IH]; [done|]. cbn [schedule]. by rewrite Z.ltb_irrefl. Qed.
Lemma schedule_spaced allowed k due clock :
  spaced k due clock = true → k ≤ allowed →
  (schedule allowed k due clock).1 = Z.min allowed (k + Z.of_nat (length clock)).
Proof.
  revert k due. induction clock as [|now clock IH]; intros k due Hsp Hk; cbn [schedule spaced length] in *; [cbn; lia|].
  bools. destruct (k <? allowed) eqn:E.
  - rewrite H. cbn [andb]. rewrite IH by (done || lia). lia.
  - replace k with allowed by lia. rewrite schedule_spent. cbn. lia.
Qed.

(** The clock reads dates of this century. *)
Definition readings_ok (now : readings) : Prop := 0 ≤ at_reclaim now ≤ 2 ^ 52 ∧ 0 ≤ at_finish now ≤ 2 ^ 52.

(** *** The only task of its queue *)
Definition alone (q : string) (id : Uuid) (t : table) : Prop := ∀ i row, t !! i = Some row → c_queue row = q → i = id.

Lemma alone_insert q id row t : alone q id t → alone q id (<[id := row]> t).
Proof. intros Ha i r [[<- _]|[_ Hr]]%lookup_insert_Some; [done|]. by eapply Ha. Qed.
Lemma alone_reclaim q id p t : alone q id t → alone q id (reclaim_update p t).
Proof.
  intros Ha i r. unfold reclaim_update. rewrite lookup_fmap. intros (r0 & Hr0 & ->)%fmap_Some Hq.
  apply (Ha i r0 Hr0). by destruct (p r0).
Qed.
Lemma reclaim_runs now t :
  0 ≤ now ≤ 2 ^ 52 → ∃ cutoff n, reclaim_stale 300 now t = (reclaim_update (stale cutoff) t, Ok n).
Proof.
  intros Hn. unfold reclaim_stale, add_seconds, duration_seconds. change (u64_as_i64 300) with 300.
  replace (i64_max / 1000) with 9223372036854775 by reflexivity.
  rewrite !(proj2 (Z.leb_le _ _)) by lia. cbn [mbind option_bind andb]. unfold datetime_add. pose proof utc_range as [H1 H2].
  unfold micros_per_sec in *. rewrite !(proj2 (Z.leb_le _ _)) by lia. cbn. eauto.
Qed.

Lemma select_listed q now id row (l : list (Uuid * TaskRow)) :
  (∀ i r, (i, r) ∈ l → i = id ∧ r = row ∨ eligible q now r = false) →
  let sel := foldr (λ '(i, r) acc, if eligible q now r then older (Some (i, r)) acc else acc) None l in
  sel = None ∧ ((id, row) ∈ l → eligible q now row = false) ∨ sel = Some (id, row) ∧ eligible q now row = true.
Proof.
  induction l as [|[i r] l IH]; intros Hl; cbv zeta; [left; split; [done|by intros ?%elem_of_nil]|]. cbn [foldr].
  assert (∀ i r, (i, r) ∈ l → i = id ∧ r = row ∨ eligible q now r = false) as Hl' by (intros; apply Hl; by right).
  specialize (IH Hl'). cbv zeta in IH. destruct (Hl i r (list_elem_of_here _ _)) as [[-> ->]|E].
  - destruct (eligible q now row) eqn:E; [right|left; by destruct IH as [[-> _]|[_ ?]]].
    destruct IH as [[-> _]|[-> _]]; split; try done. cbn. by case_match.
  - rewrite E. destruct IH as [[-> Hi]|IH]; [left|by right]. split; [done|]. intros [[= <- <-]|Hin]%elem_of_cons; auto.
Qed.
Lemma select_alone q now id row t :
  t !! id = Some row → alone q id t → select_candidate q now t = if eligible q now row then Some (id, row) else None.
Proof.
  intros Hrow Ha. destruct (select_listed q now id row (map_to_list t)) as [[E Hi]|[E Hi]].
  - intros i r Hir%elem_of_map_to_list. destruct (decide (c_queue r = q)) as [Hq|Hq].
    + left. assert (i = id) as -> by by eapply Ha. split; [done|congruence].
    + right. unfold eligible. by rewrite (proj2 (bool_decide_eq_false _) Hq : (c_queue r =s? q) = false).
  - unfold select_candidate. rewrite E. by rewrite Hi by by apply elem_of_map_to_list.
  - unfold select_candidate. by rewrite E, Hi.
Qed.
Lemma claim_alone q now id row t :
  t !! id = Some row → alone q id t → c_retry_count row ≠ i32_max →
  claim_next q now t =
  if eligible q now row then (<[id := claimed_row now row]> t, Ok (Some (uuid_to_string id, row_to_task (claimed_row now row))))
  else (t, Ok None).
Proof.
  intros Hrow Ha Hrc. unfold claim_next. rewrite (select_alone q now id row) by done. destruct (eligible q now row) eqn:He; [|done].
  unfold claim_update. by rewrite Hrow, (eligible_pending _ _ _ He), str_eqb_refl, (proj2 (Z.eqb_neq _ _) Hrc).
Qed.

(** *** A failing task *)

(** A task of the queue after [k] attempts. *)
Record tried (q : string) (m k : Z) (due : option Z) (e : Error) (row : TaskRow) : Prop := {
  td_queue : c_queue row = q;
  td_count : c_retry_count row = k;
  td_max : c_max_retries row = m;
  td_status : c_status row = if k =? Z.max 1 m then "dead_letter" else "pending";
  td_due : k ≠ Z.max 1 m → c_scheduled_at row = due;
  td_error : k ≠ 0 → c_error_message row = Some (error_to_string e);
}.
Lemma tried_eligible q m k due e row now :
  tried q m k due e row → k ≤ Z.max 1 m → eligible q now row = (k <? Z.max 1 m) && is_due due now.
Proof.
  intros [Hq Hk Hm Hs Hd _] Hle. unfold eligible. rewrite Hq, Hs, str_eqb_refl. cbn [andb].
  destruct (k =? Z.max 1 m) eqn:E.
  - by rewrite (proj2 (Z.ltb_ge _ _)) by lia.
  - rewrite (proj2 (Z.ltb_lt _ _)) by lia. cbn [andb]. by rewrite Hd by lia.
Qed.

(** One iteration with a failing handler. *)
Lemma failing_iteration q m k due row id handler e now t :
  t !! id = Some row → alone q id t → tried q m k due e row → 0 ≤ k ≤ Z.max 1 m → Z.max 1 m ≤ 42 →
  (∀ task, handler task = Err e) → readings_ok now →
  ∃ t' row', worker_iteration q handler now t = (t', Ok tt) ∧ t' !! id = Some row' ∧ alone q id t'
    ∧ if (k <? Z.max 1 m) && is_due due (at_claim now)
      then tried q m (k + 1) (Some (after_backoff (k + 1) now)) e row'
      else tried q m k due e row'.
Proof.
  intros Hrow Ha Ht Hk Hm Hh [Hrec Hfin]. unfold worker_iteration.
  assert (∃ t1 n, (if (60 <=? elapsed now)%N then reclaim_stale 300 (at_reclaim now) t else (t, Ok 0%N)) = (t1, Ok n)
    ∧ t1 !! id = Some row ∧ alone q id t1) as (t1 & n & -> & Hrow1 & Ha1).
  { destruct (60 <=? elapsed now)%N; [|by eauto]. destruct (reclaim_runs (at_reclaim now) t Hrec) as (cutoff & n & ->).
    exists (reclaim_update (stale cutoff) t), n. split_and!; [done| |by apply alone_reclaim]. unfold reclaim_update, stale. rewrite lookup_fmap, Hrow. cbn.
    rewrite (td_status _ _ _ _ _ _ Ht). by destruct (k =? Z.max 1 m). }
  destruct Ht as [Hq Hc Hmr Hs Hd He] eqn:Et. clear Et.
  rewrite (claim_alone q _ id row) by (done || unfold i32_max; lia). rewrite (tried_eligible q m k due e) by (done || lia).
  destruct ((k <? Z.max 1 m) && is_due due (at_claim now)) eqn:E; [|by exists t1, row]. bools. rewrite Hh.
  set (row1 := claimed_row (at_claim now) row). assert (<[id := row1]> t1 !! id = Some row1) as Hl by apply lookup_insert_eq.
  destruct (decide (k + 1 = Z.max 1 m)) as [Ek|Ek].
  - rewrite (fail_dead id _ _ _ row1) by (done || cbn; lia). rewrite insert_insert_eq. eexists _, _. split; [done|].
    rewrite lookup_insert_eq. split_and!; [done|by apply alone_insert|]. constructor; cbn; try (done || lia).
    by rewrite (proj2 (Z.eqb_eq _ _)).
  - rewrite (fail_retry id _ _ _ row1) by (done || cbn; lia). rewrite insert_insert_eq. eexists _, _. split; [done|].
    rewrite lookup_insert_eq. split_and!; [done|by apply alone_insert|]. constructor; cbn; try (done || lia).
    + by rewrite (proj2 (Z.eqb_neq _ _)).
    + intros _. by rewrite Hc.
Qed.

Lemma failing_run q m k due row id handler e clock t :
  t !! id = Some row → alone q id t → tried q m k due e row → 0 ≤ k ≤ Z.max 1 m → Z.max 1 m ≤ 42 →
  (∀ task, handler task = Err e) → Forall readings_ok clock →
  let '(n, due') := schedule (Z.max 1 m) k due clock in
  0 ≤ n ≤ Z.max 1 m ∧ ∃ t' row', run_worker q handler clock t = (t', Ok tt) ∧ t' !! id = Some row' ∧ tried q m n due' e row'.
Proof.
  intros Hrow Ha Ht Hk Hm Hh Hcl. revert k due row t Hrow Ha Ht Hk.
  induction Hcl as [|now clock Hnow _ IH]; intros k due row t Hrow Ha Ht Hk; cbn [schedule run_worker]; [by eauto 10|].
  destruct (failing_iteration q m k due row id handler e now t) as (t1 & row1 & -> & Hrow1 & Ha1 & Ht1); [done..|].
  destruct ((k <? Z.max 1 m) && is_due due (at_claim now)) eqn:E.
  - bools. apply (IH _ _ row1); [done..|lia].
  - by apply (IH _ _ row1).
Qed.

(** C36: retries with backoff, up to the dead letter.  A task that is the only one of
    its queue, with at most 42 retries and a handler that always fails: whenever the
    worker's iterations happen, at dates of this century, the loop goes on, and the
    task is attempted as the schedule says, after the [k]th failure not before
    [2 ^ k] seconds have passed.  It is pending with the time of the next attempt
    until [max_retries] attempts are made (one, when that is 0) and dead-lettered from
    then on, with the last error; if every iteration comes when an attempt is due, each
    makes one until none is left.  The bound on [max_retries] is where the backoff
    leaves the range of dates. *)
Theorem failing_task_dead_lettered q id req scheduled created handler e clock t :
  t !! id = Some (inserted_row req scheduled created) → req_queue req = q → alone q id t →
  0 ≤ req_max_retries req ≤ 42 → (∀ task, handler task = Err e) → Forall readings_ok clock →
  let allowed := Z.max 1 (req_max_retries req) in
  let '(n, due) := schedule allowed 0 scheduled clock in
  n ≤ allowed ∧ (spaced 0 scheduled clock = true → n = Z.min allowed (Z.of_nat (length clock)))
  ∧ ∃ t' row, run_worker q handler clock t = (t', Ok tt) ∧ t' !! id = Some row
    ∧ c_retry_count row = n ∧ c_status row = (if n =? allowed then "dead_letter" else "pending")
    ∧ (n ≠ allowed → c_scheduled_at row = due)
    ∧ (n ≠ 0 → c_error_message row = Some (error_to_string e)).
Proof.
  intros Hrow Hq Ha Hm Hh Hcl allowed.
  assert (tried q (req_max_retries req) 0 scheduled e (inserted_row req scheduled created)) as Ht.
  { constructor; try done; [cbn; rewrite wrap_signed_id; lia|]. by rewrite (proj2 (Z.eqb_neq 0 _)) by lia. }
  pose proof (failing_run q _ 0 scheduled _ id handler e clock t Hrow Ha Ht ltac:(lia) ltac:(lia) Hh Hcl) as Hrun.
  pose proof (schedule_spaced allowed 0 scheduled clock) as Hsp. fold allowed in Hrun.
  destruct (schedule allowed 0 scheduled clock) as [n due]. destruct Hrun as ([_ Hn] & t' & row & Hr & Hl & [_ ? _ ? ? ?]).
  split; [done|]. split; [intros Hs; cbn [fst] in Hsp; rewrite (Hsp Hs); lia|]. by exists t', row.
Qed.
End retries.

Lemma failing_task_dead_lettered_witness :
  let day n := {| elapsed := 1; at_reclaim := 0; at_claim := secs (86400 * n);
                  at_finish := secs (86400 * n + 1) |} in
  ∃ t row, run_worker (C := plain_chrono) (U := plain_uuid) (P := run_pg) "default"
    (λ _, Err (Internal "smtp down")) [day 1%Z; day 2%Z; day 3%Z]
    {[ ("t1" : Uuid (UuidLib := plain_uuid)) := inserted_row EnqueueRequest_default None 0 ]}
    = (t, Ok tt)
    ∧ t !! ("t1" : Uuid (UuidLib := plain_uuid)) = Some row
    ∧ c_error_message row = Some (error_to_string (Internal "smtp down"))
    ∧ c_retry_count row = 3%Z
    ∧ c_status row = "dead_letter".
Proof.
  intros day.
  destruct (failing_task_dead_lettered (C := plain_chrono) (U := plain_uuid) (P := run_pg)
    (ChronoLaws0 := plain_chrono_laws) (UuidLaws0 := plain_uuid_laws)
    "default" "t1" EnqueueRequest_default None 0 (λ _, Err (Internal "smtp down")) (Internal "smtp down") [day 1%Z; day 2%Z; day 3%Z]
    {[ ("t1" : Uuid (UuidLib := plain_uuid)) := inserted_row EnqueueRequest_default None 0 ]})
    as (_ & _ & t & row & Hrun & Hl & Hn & Hs & _ & He).
  - apply lookup_singleton_eq.
  - done.
  - intros i row Hi _. by apply lookup_singleton_Some in Hi as [-> _].
  - done.
  - done.
  - repeat constructor; done.
  - exists t, row. split; [exact Hrun|]. split; [exact Hl|]. split; [by apply He|]. split; [exact Hn|exact Hs].
Defined.
