(* ===== verification/DocStore.v ===== *)
(** * The document store

    [PgDatabaseStore] (crates/ob-database/src/pg_store.rs): collections of JSON
    documents, one table each, with the parameter rewriting of [query_bind] and
    the [Transaction] of crates/ob-database/src/transaction.rs.

    The state is a map from tables to rows.  Each operation runs one SQL
    statement after [ensure_table]; its effect on the table is written from the
    statement, with PostgreSQL's documented meaning of [jsonb || jsonb],
    [->>] and [#>>].  A stored document is the JSON value itself (writing it as
    text and reading it back is the identity), a call takes the clock reading
    and the fresh id it uses as arguments, and the connection works. *)

From S2P Require Export Clock.

Record DocRow : Type := {
  row_data : Value;
  row_created_at : Z;
  row_updated_at : Z;
}.

Abbreviation rows := (gmap string DocRow).
Abbreviation store := (gmap string rows).

(** The text of a JSON value that is neither a string nor null ([->>]), and of
    the statements' own errors. *)
Class PgJson := {
  jsonb_text : Value → string;
  pg_negative_offset : string;
}.

(** An integer's JSON text is its decimal form. *)
Class PgJsonLaws (P : PgJson) : Prop := {
  jsonb_text_int z : (- 2 ^ 63 ≤ z ≤ i64_max)%Z → jsonb_text (of_i64 z) = pretty z;
}.

Definition plain_json : PgJson := {| jsonb_text := plain_value; pg_negative_offset := "" |}.
Lemma plain_json_laws : PgJsonLaws plain_json.
Proof. constructor. intros z _. unfold of_i64. by destruct z as [|p|p]. Qed.

(** ** JSONB operators *)

Definition merge_objects (a b : list (string * Value)) : list (string * Value) :=
  foldl (λ m kv, assoc_insert kv.1 kv.2 m) a b.

(** [a || b]: two objects merge at the top level, the right one winning;
    otherwise arrays are concatenated, a non-array counting as one element. *)
Definition as_elements (v : Value) : list Value :=
  match v with VArray l => l | _ => [v] end.
Definition jsonb_concat (a b : Value) : Value :=
  match a, b with
  | VObject m, VObject m' => VObject (merge_objects m m')
  | _, _ => VArray (as_elements a ++ as_elements b)
  end.

Section store.
Context `{C : Chrono} `{P : PgJson}.

(** [v #>> '{}'], and [data->>'field'] (only objects have fields). *)
Definition jsonb_as_text (v : Value) : option string :=
  match v with
  | VNull => None
  | VString s => Some s
  | _ => Some (jsonb_text v)
  end.
Definition field_text (field : string) (data : Value) : option string :=
  get field data ≫= jsonb_as_text.

(** ** Helpers of pg_store.rs *)

Definition sanitize_table_name (name : string) : Result string :=
  _ ← validate_identifier name; Ok name.

Definition inject_document_metadata (obj : list (string * Value)) (id : option string)
    (created_at updated_at : option Z) : list (string * Value) :=
  let obj := match id with Some id => assoc_insert "id" (VString id) obj | None => obj end in
  let obj := match created_at with
             | Some ts => assoc_insert "createdAt" (VString (to_rfc3339 ts)) obj
             | None => obj end in
  match updated_at with
  | Some ts => assoc_insert "updatedAt" (VString (to_rfc3339 ts)) obj
  | None => obj
  end.

(** The document built from a returned row. *)
Definition row_to_doc (id : string) (row : DocRow) : Value :=
  match row_data row with
  | VObject obj => VObject (inject_document_metadata obj (Some id)
      (Some (row_created_at row)) (Some (row_updated_at row)))
  | result => result
  end.

(** [CREATE TABLE IF NOT EXISTS]. *)
Definition ensure_table (collection : string) (s : store) : store * Result unit :=
  match sanitize_table_name collection with
  | Ok t => (<[t := default ∅ (s !! t)]> s, Ok tt)
  | Err e => (s, Err e)
  | Panic => (s, Panic)
  end.

Definition table_rows (s : store) (t : string) : rows := default ∅ (s !! t).

(** [id.strip_prefix(&format!("{collection}:")).unwrap_or(id)]. *)
Definition bare_id (collection id : string) : string :=
  default id (strip_prefix (collection +:+ ":") id).

Definition not_found (collection id : string) : Error :=
  NotFound (collection +:+ ":" +:+ id +:+ " not found").

(** Every operation starts with [ensure_table(collection).await?] and
    [sanitize_table_name(collection)?]. *)
Definition with_table {A} (collection : string) (s : store)
    (k : string → store → store * Result A) : store * Result A :=
  match ensure_table collection s with
  | (s, Ok _) =>
      match sanitize_table_name collection with
      | Ok t => k t s
      | Err e => (s, Err e)
      | Panic => (s, Panic)
      end
  | (s, Err e) => (s, Err e)
  | (s, Panic) => (s, Panic)
  end.

(** ** DatabaseStore *)

Definition document_id (data : Value) (fresh : string) : string :=
  default fresh (get "id" data ≫= as_str).

Definition create_document (collection : string) (data : Value) (fresh : string) (now : Z)
    (s : store) : store * Result Value :=
  with_table collection s (λ t s,
    let id := document_id data fresh in
    match table_rows s t !! id with
    | Some _ => (s, Err (Validation
        ("Document already exists in collection " +:+ collection +:+ ": " +:+ id)))
    | None =>
        let row := {| row_data := data; row_created_at := now; row_updated_at := now |} in
        (<[t := <[id := row]> (table_rows s t)]> s, Ok (row_to_doc id row))
    end).

Definition get_document (collection id : string) (s : store) : store * Result Value :=
  with_table collection s (λ t s,
    let id := bare_id collection id in
    match table_rows s t !! id with
    | Some row => (s, Ok (row_to_doc id row))
    | None => (s, Err (not_found collection id))
    end).

(** [SET data = data || $2]; the trigger sets [updated_at]. *)
Definition merged_row (data : Value) (now : Z) (row : DocRow) : DocRow :=
  {| row_data := jsonb_concat (row_data row) data;
     row_created_at := row_created_at row; row_updated_at := now |}.

Definition update_document (collection id : string) (data : Value) (now : Z) (s : store) :
    store * Result Value :=
  with_table collection s (λ t s,
    let id := bare_id collection id in
    match table_rows s t !! id with
    | Some row =>
        let row := merged_row data now row in
        (<[t := <[id := row]> (table_rows s t)]> s, Ok (row_to_doc id row))
    | None => (s, Err (not_found collection id))
    end).

Definition upsert_document (collection id : string) (data : Value) (now : Z) (s : store) :
    store * Result Value :=
  with_table collection s (λ t s,
    let id := bare_id collection id in
    let row :=
      match table_rows s t !! id with
      | Some row => merged_row data now row
      | None => {| row_data := data; row_created_at := now; row_updated_at := now |}
      end in
    (<[t := <[id := row]> (table_rows s t)]> s, Ok (row_to_doc id row))).

Definition delete_document (collection id : string) (s : store) : store * Result Value :=
  with_table collection s (λ t s,
    let id := bare_id collection id in
    match table_rows s t !! id with
    | Some row =>
        (<[t := delete id (table_rows s t)]> s,
         Ok (match row_data row with
             | VObject obj => VObject (assoc_insert "id" (VString id) obj)
             | v => v end))
    | None => (s, Err (not_found collection id))
    end).

(** [ORDER BY created_at DESC LIMIT n OFFSET o]. *)
Definition created_desc (a b : string * DocRow) : Prop :=
  (row_created_at b.2 ≤ row_created_at a.2)%Z.
#[global] Instance created_desc_dec : RelDecision created_desc.
Proof. intros a b. unfold created_desc. apply _. Defined.

Definition list_documents (collection : string) (limit offset : option N) (s : store) :
    store * Result (list Value) :=
  with_table collection s (λ t s,
    let n := N.min (default 1000%N limit) 10000 in
    let o := u64_as_i64 (default 0%N offset) in
    if (o <? 0)%Z then (s, Err (Database ("List failed: " +:+ pg_negative_offset)))
    else (s, Ok ((λ '(id, row), row_to_doc id row) <$>
        take (N.to_nat n) (drop (Z.to_nat o) (merge_sort created_desc (map_to_list (table_rows s t))))))).

(** The batch operations run the single ones in order, each in its own
    statement, and return at the first error. *)
Fixpoint batch {A B} (op : A → store → store * Result B) (l : list A) (s : store) :
    store * Result (list B) :=
  match l with
  | [] => (s, Ok [])
  | x :: l =>
      match op x s with
      | (s, Ok y) =>
          match batch op l s with
          | (s, Ok ys) => (s, Ok (y :: ys))
          | (s, Err e) => (s, Err e)
          | (s, Panic) => (s, Panic)
          end
      | (s, Err e) => (s, Err e)
      | (s, Panic) => (s, Panic)
      end
  end.
Definition batch_create (collection : string) (docs : list (Value * string * Z)) :
    store → store * Result (list Value) :=
  batch (λ '(data, fresh, now), create_document collection data fresh now) docs.
Definition batch_update (collection : string) (updates : list (string * Value * Z)) :
    store → store * Result (list Value) :=
  batch (λ '(id, data, now), update_document collection id data now) updates.
Definition batch_delete (collection : string) (ids : list string) :
    store → store * Result (list Value) :=
  batch (delete_document collection) ids.

(** Field markers are merged as plain values. *)
Definition update_with_field_values (collection id : string) (data : Value) (now : Z)
    (s : store) : store * Result Value :=
  update_document collection id data now s.

(** [WHERE id = $1 AND data->>'{check_field}' = $2::jsonb #>> '{}']: a NULL on
    either side is no match. *)
Definition cas_matches (check_field : string) (check_value : Value) (row : DocRow) : bool :=
  match field_text check_field (row_data row), jsonb_as_text check_value with
  | Some a, Some b => a =s? b
  | _, _ => false
  end.

Definition update_document_cas (collection id : string) (data : Value) (check_field : string)
    (check_value : Value) (now : Z) (s : store) : store * Result (option Value) :=
  with_table collection s (λ t s,
    let id := bare_id collection id in
    match table_rows s t !! id with
    | Some row =>
        if cas_matches check_field check_value row then
          let row := merged_row data now row in
          (<[t := <[id := row]> (table_rows s t)]> s,
           Ok (Some (match row_data row with
             | VObject obj =>
                 VObject (assoc_insert "updatedAt" (VString (to_rfc3339 (row_updated_at row)))
                   (assoc_insert "id" (VString id) obj))
             | v => v end)))
        else (s, Ok None)
    | None => (s, Ok None)
    end).
End store.

(** ** Named parameters *)

(** The loop of [named_to_positional] over the binds, in key order, from the
    position [i]. *)
Fixpoint replace_names (i : nat) (names : list string) (query : string) : string :=
  match names with
  | [] => query
  | name :: names =>
      replace_names (S i) names (str_replace (String "$" name) (String "$" (pretty (i + 1))) query)
  end.

Definition named_to_positional (query : string) (binds : Value) : Result (string * list Value) :=
  obj ← ok_or (Database "Binds must be a JSON object") (as_object binds);
  Ok (replace_names 0 obj.*1 query, obj.*2).

(** ** Transactions

    A transaction is the list of its queries; [run] is what one iteration of the
    loop of [commit] does with a query in the state of the open transaction. *)
Section transaction.
Context {D Q : Type} (run : Q → D → Result (D * Value)).

Fixpoint run_queries (tx : list Q) (d : D) : Result (D * list Value) :=
  match tx with
  | [] => Ok (d, [])
  | q :: tx =>
      '(d, v) ← run q d;
      '(d, vs) ← run_queries tx d;
      Ok (d, v :: vs)
  end.

(** [commit]: the queries run on the transaction's own state, which becomes the
    database's at COMMIT; an early return drops the handle, which rolls back. *)
Definition commit (tx : list Q) (d : D) : D * Result (list Value) :=
  match tx with
  | [] => (d, Ok [])
  | _ =>
      match run_queries tx d with
      | Ok (d', results) => (d', Ok results)
      | Err e => (d, Err e)
      | Panic => (d, Panic)
      end
  end.
End transaction.

Definition Transaction : Type := list (string * option Value).
Definition add (query : string) (binds : option Value) (tx : Transaction) : Transaction :=
  tx ++ [(query, binds)].
Definition add_raw (query : string) (tx : Transaction) : Transaction := tx ++ [(query, None)].

(** The database's answer to one statement becomes the result of the query. *)
Definition rows_affected {D} (r : outcome string (D * N)) : Result (D * Value) :=
  '(d, n) ← map_err (λ e, Database ("Transaction query failed: " +:+ e)) r;
  Ok (d, VObject [("rows_affected", VNumber (PosInt n))]).

(** One iteration, for the text of a query: [exec] is the database's execution
    of a statement, the new state and the rows affected or the error text. *)
Definition run_query {D} (exec : string → list Value → D → outcome string (D * N))
    (q : string * option Value) (d : D) : Result (D * Value) :=
  '(pg_query, bind_values) ←
    match q.2 with
    | Some binds =>
        map_err (λ e, Database ("Transaction query translation failed: " +:+ error_to_string e))
          (named_to_positional q.1 binds)
    | None => Ok (q.1, [])
    end;
  rows_affected (exec pg_query bind_values d).

(** ** Properties of the operations *)
Section store_properties.
Context `{C : Chrono} `{P : PgJson}.
Implicit Types s : store.

Definition ensured (collection : string) (s : store) : store :=
  <[collection := table_rows s collection]> s.

Lemma with_table_valid {A} collection s (k : string → store → store * Result A) :
  is_ok (validate_identifier collection) = true →
  with_table collection s k = k collection (ensured collection s).
Proof.
  intros Hv. unfold with_table, ensure_table, sanitize_table_name.
  by destruct (validate_identifier collection).
Qed.

Lemma with_table_Ok {A} collection s (k : string → store → store * Result A) s' a :
  with_table collection s k = (s', Ok a) →
  is_ok (validate_identifier collection) = true ∧ k collection (ensured collection s) = (s', Ok a).
Proof.
  intros H. assert (is_ok (validate_identifier collection) = true) as Hv.
  { unfold with_table, ensure_table, sanitize_table_name in H.
    by destruct (validate_identifier collection). }
  split; [done|]. by rewrite with_table_valid in H.
Qed.

Lemma table_rows_ensured c c' s : table_rows (ensured c s) c' = table_rows s c'.
Proof.
  unfold table_rows, ensured. destruct (decide (c' = c)) as [->|Hne].
  - by rewrite lookup_insert_eq.
  - by rewrite lookup_insert_ne.
Qed.

Lemma table_rows_insert c r s : table_rows (<[c := r]> s) c = r.
Proof. unfold table_rows. by rewrite lookup_insert_eq. Qed.

Lemma table_rows_insert_ne c c' r s : c ≠ c' → table_rows (<[c := r]> s) c' = table_rows s c'.
Proof. intros. unfold table_rows. by rewrite lookup_insert_ne. Qed.

Lemma ensured_id c s r : s !! c = Some r → ensured c s = s.
Proof. intros H. unfold ensured, table_rows. rewrite H. by apply insert_id. Qed.

Lemma bare_id_plain c id : strip_prefix (c +:+ ":") id = None → bare_id c id = id.
Proof. unfold bare_id. by intros ->. Qed.

Lemma bare_id_prefixed c id : bare_id c (c +:+ ":" +:+ id) = id.
Proof. unfold bare_id. by rewrite <- str_app_assoc, strip_prefix_app. Qed.

Lemma row_to_doc_id id row : is_Some (as_object (row_data row)) →
  get "id" (row_to_doc id row) = Some (VString id).
Proof.
  unfold row_to_doc. destruct (row_data row); intros [? [=]]; subst. cbn.
  rewrite !assoc_get_insert_ne by done. apply assoc_get_insert.
Qed.

(** A created document is read back: the id it was stored under (given in
    its [id] field, or fresh) finds the very document the creation returned, with
    that id in it, and reading changes nothing, provided the id does not itself
    start with the collection's name and a colon. *)
Theorem create_get_roundtrip c data fresh now s s' doc :
  create_document c data fresh now s = (s', Ok doc) →
  strip_prefix (c +:+ ":") (document_id data fresh) = None →
  get_document c (document_id data fresh) s' = (s', Ok doc)
  ∧ (is_Some (as_object data) → get "id" doc = Some (VString (document_id data fresh))).
Proof.
  intros H Hid. apply with_table_Ok in H as [Hv H]. cbv beta zeta in H.
  rewrite table_rows_ensured in H.
  destruct (table_rows s c !! document_id data fresh); [done|]. injection H as <- <-.
  unfold get_document. rewrite with_table_valid by done. cbv beta zeta. rewrite bare_id_plain by done.
  rewrite table_rows_ensured, table_rows_insert, lookup_insert_eq. split.
  - f_equal. eapply ensured_id. apply lookup_insert_eq.
  - intros Ho. by apply row_to_doc_id.
Qed.

(** A document created under an id that starts with its collection's name
    and a colon cannot be read back under that id: creation stores the id as it
    is, reading strips the prefix first. *)
Theorem create_prefixed_not_found c x m now fresh s :
  is_ok (validate_identifier c) = true →
  assoc_get "id" m = Some (VString (c +:+ ":" +:+ x)) →
  table_rows s c !! (c +:+ ":" +:+ x) = None → table_rows s c !! x = None →
  ∃ s' doc, create_document c (VObject m) fresh now s = (s', Ok doc)
    ∧ get "id" doc = Some (VString (c +:+ ":" +:+ x))
    ∧ get_document c (c +:+ ":" +:+ x) s' = (s', Err (not_found c x)).
Proof.
  intros Hv Hid Hn Hx. unfold create_document. rewrite with_table_valid by done. cbv beta zeta.
  assert (document_id (VObject m) fresh = c +:+ ":" +:+ x) as ->.
  { unfold document_id. cbn. by rewrite Hid. }
  rewrite table_rows_ensured, Hn. do 2 eexists. split; [done|]. split.
  { by apply row_to_doc_id. }
  unfold get_document. rewrite with_table_valid by done. cbv beta zeta.
  rewrite bare_id_prefixed, table_rows_ensured, table_rows_insert.
  rewrite lookup_insert_ne, Hx.
  - f_equal. eapply ensured_id. apply lookup_insert_eq.
  - intros Heq. apply (f_equal String.length) in Heq. rewrite !str_length_app in Heq. cbn in Heq. lia.
Qed.

Lemma of_i64_text `{!PgJsonLaws P} z : (- 2 ^ 63 ≤ z ≤ i64_max)%Z → jsonb_as_text (of_i64 z) = Some (pretty z).
Proof. intros Hz. rewrite <- (jsonb_text_int z Hz). by unfold of_i64. Qed.

(** *** Merging *)

Lemma assoc_get_merge k m m' :
  NoDup m'.*1 →
  assoc_get k (merge_objects m m') =
  match assoc_get k m' with Some v => Some v | None => assoc_get k m end.
Proof.
  unfold merge_objects. revert m. induction m' as [|[k' v] m' IH]; intros m Hnd; [done|].
  cbn in *. apply NoDup_cons in Hnd as [Hk Hnd]. rewrite IH by done.
  destruct (k =s? k') eqn:E.
  - bools. subst k'. rewrite assoc_get_insert.
    replace (assoc_get k m') with (@None Value); [done|]. symmetry.
    clear -Hk. induction m' as [|[k2 v2] m' IH]; [done|]. cbn in *.
    apply not_elem_of_cons in Hk as [Hne Hk].
    destruct (k =s? k2) eqn:E; [by bools|auto].
  - destruct (assoc_get k m'); [done|]. bools. by apply assoc_get_insert_ne.
Qed.

Definition is_metadata (k : string) : Prop := k ∈ ["id"; "createdAt"; "updatedAt"].

Lemma row_to_doc_get id row m k :
  row_data row = VObject m → ¬ is_metadata k → get k (row_to_doc id row) = assoc_get k m.
Proof.
  intros Hm Hk. unfold row_to_doc. rewrite Hm. cbn. unfold is_metadata in Hk.
  rewrite !not_elem_of_cons in Hk. rewrite !assoc_get_insert_ne; naive_solver.
Qed.

Lemma get_row_to_doc id row k : ¬ is_metadata k → get k (row_to_doc id row) = get k (row_data row).
Proof.
  intros Hk. destruct (row_data row) as [| | | | |m] eqn:E; try (unfold row_to_doc; by rewrite E).
  by rewrite (row_to_doc_get id row m k E Hk).
Qed.

Lemma merged_row_get m' now row m k :
  NoDup m'.*1 → row_data row = VObject m →
  get k (row_data (merged_row (VObject m') now row))
  = match assoc_get k m' with Some v => Some v | None => get k (row_data row) end.
Proof. intros Hnd Hm. cbn. rewrite Hm. cbn. by apply assoc_get_merge. Qed.

(** Updating a document merges at the top level: in the document returned
    and in the one stored, a field of the update has its new value and every
    other field keeps its old one; all other documents of all collections are
    untouched, and so is the creation time. *)
Theorem update_document_merges c id m' now s s' doc row m :
  update_document c id (VObject m') now s = (s', Ok doc) → NoDup m'.*1 →
  table_rows s c !! bare_id c id = Some row → row_data row = VObject m →
  (∀ k, ¬ is_metadata k → get k doc =
     match assoc_get k m' with Some v => Some v | None => assoc_get k m end)
  ∧ get_document c id s' = (s', Ok doc)
  ∧ (∀ row', table_rows s' c !! bare_id c id = Some row' → row_created_at row' = row_created_at row)
  ∧ (∀ c' id', c' ≠ c ∨ id' ≠ bare_id c id → table_rows s' c' !! id' = table_rows s c' !! id').
Proof.
  intros H Hnd Hrow Hm. apply with_table_Ok in H as [Hv H]. cbv beta zeta in H.
  rewrite table_rows_ensured, Hrow in H. injection H as <- <-.
  assert (row_data (merged_row (VObject m') now row) = VObject (merge_objects m m')) as Hmd.
  { cbn. by rewrite Hm. }
  split_and!.
  - intros k Hk. rewrite (row_to_doc_get _ _ _ _ Hmd Hk). by apply assoc_get_merge.
  - unfold get_document. rewrite with_table_valid by done. cbv beta zeta.
    rewrite table_rows_ensured, table_rows_insert, lookup_insert_eq.
    f_equal. eapply ensured_id. apply lookup_insert_eq.
  - intros row'. rewrite table_rows_insert, lookup_insert_eq. by intros [= <-].
  - intros c' id' Hne. destruct (decide (c' = c)) as [->|Hc].
    + rewrite table_rows_insert, lookup_insert_ne; [done|]. destruct Hne; congruence.
    + rewrite table_rows_insert_ne by done. by rewrite table_rows_ensured.
Qed.

(** Upserting over an existing document does not replace it: a field the
    new data does not mention survives. *)
Theorem upsert_keeps_fields c id m' now s row m k v :
  is_ok (validate_identifier c) = true → NoDup m'.*1 →
  table_rows s c !! bare_id c id = Some row → row_data row = VObject m →
  ¬ is_metadata k → assoc_get k m = Some v → assoc_get k m' = None →
  ∃ s' doc, upsert_document c id (VObject m') now s = (s', Ok doc) ∧ get k doc = Some v.
Proof.
  intros Hv Hnd Hrow Hm Hk Hmk Hm'k. unfold upsert_document. rewrite with_table_valid by done.
  cbv beta zeta. rewrite table_rows_ensured, Hrow. do 2 eexists. split; [done|].
  rewrite (row_to_doc_get _ _ (merge_objects m m')); [|cbn; by rewrite Hm|done].
  by rewrite assoc_get_merge, Hm'k.
Qed.

(** *** Compare-and-swap *)

(** The attempt moves the checked field away from the expected value. *)
Definition changes (field : string) (expected data : Value) : Prop :=
  ∃ m v, data = VObject m ∧ NoDup m.*1 ∧ assoc_get field m = Some v
    ∧ jsonb_as_text v ≠ jsonb_as_text expected.

(** A sequence of attempts, in the order the database runs them. *)
Fixpoint cas_race (c id field : string) (expected : Value) (attempts : list (Value * Z)) (s : store) :
    list (Result (option Value)) :=
  match attempts with
  | [] => []
  | (data, now) :: attempts =>
      let '(s, r) := update_document_cas c id data field expected now s in
      r :: cas_race c id field expected attempts s
  end.
Definition won (r : Result (option Value)) : bool :=
  match r with Ok (Some _) => true | _ => false end.

Lemma cas_success c id data field expected now s s' doc :
  update_document_cas c id data field expected now s = (s', Ok (Some doc)) →
  ∃ row, table_rows s c !! bare_id c id = Some row
    ∧ cas_matches field expected row = true
    ∧ table_rows s' c !! bare_id c id = Some (merged_row data now row).
Proof.
  intros H. apply with_table_Ok in H as [_ H]. cbv beta zeta in H. rewrite table_rows_ensured in H.
  destruct (table_rows s c !! bare_id c id) as [row|]; [|done]. exists row.
  destruct (cas_matches field expected row); [|done]. injection H as <- _.
  by rewrite table_rows_insert, lookup_insert_eq.
Qed.

Lemma cas_moved field expected data now row :
  changes field expected data → cas_matches field expected row = true →
  cas_matches field expected (merged_row data now row) = false.
Proof.
  intros (m & v & -> & Hnd & Hv & Hne) Hc. unfold cas_matches, field_text in *. cbn.
  destruct (row_data row) as [| | | | |m0]; try done. cbn in *. rewrite assoc_get_merge by done.
  rewrite Hv. cbn. destruct (jsonb_as_text v) as [a|]; [|done].
  destruct (jsonb_as_text expected) as [b|]; [|done]. apply bool_decide_eq_false. congruence.
Qed.

Lemma cas_failure c id data field expected now s :
  (∀ row, table_rows s c !! bare_id c id = Some row → cas_matches field expected row = false) →
  won (update_document_cas c id data field expected now s).2 = false
  ∧ table_rows (update_document_cas c id data field expected now s).1 c = table_rows s c.
Proof.
  intros Hno. destruct (is_ok (validate_identifier c)) eqn:Hv.
  - unfold update_document_cas. rewrite with_table_valid by done. cbv beta zeta.
    rewrite table_rows_ensured.
    destruct (table_rows s c !! bare_id c id) as [row|]; [rewrite Hno by done|];
      cbn; by rewrite table_rows_ensured.
  - unfold update_document_cas, with_table, ensure_table, sanitize_table_name.
    by destruct (validate_identifier c).
Qed.

Lemma cas_race_lost c id field expected attempts s :
  (∀ row, table_rows s c !! bare_id c id = Some row → cas_matches field expected row = false) →
  length (filter (λ r, won r = true) (cas_race c id field expected attempts s)) = 0.
Proof.
  revert s. induction attempts as [|[data now] attempts IH]; intros s Hno; [done|]. cbn [cas_race].
  destruct (cas_failure c id data field expected now s Hno) as [Hw Ht].
  destruct (update_document_cas c id data field expected now s) as [s' r]. cbn [fst snd] in *.
  rewrite filter_cons_False by congruence. apply IH. by rewrite Ht.
Qed.

(** C6: of any number of compare-and-swap updates racing on one document with
    the same expectation, each moving the checked field to another value, at most
    one succeeds, in whatever order the database runs them. *)
Theorem cas_at_most_one_winner c id field expected attempts s :
  Forall (λ a, changes field expected a.1) attempts →
  length (filter (λ r, won r = true) (cas_race c id field expected attempts s)) ≤ 1.
Proof.
  intros Hall. revert s. induction Hall as [|[data now] attempts Hch Hall IH]; intros s; [cbn; lia|].
  cbn [cas_race]. destruct (update_document_cas c id data field expected now s) as [s' r] eqn:E.
  destruct (won r) eqn:Hw.
  - rewrite filter_cons_True by done. cbn [length]. rewrite cas_race_lost; [lia|].
    destruct r as [[doc|]| |]; try done. intros row'.
    destruct (cas_success _ _ _ _ _ _ _ _ _ E) as (row & _ & Hm & ->). intros [= <-].
    by apply cas_moved.
  - rewrite filter_cons_False by congruence. apply IH.
Qed.

(** The batch operations are not atomic: when one element fails, exactly
    the elements before it have been written, their effect stays, and the rest
    is not attempted. *)
Theorem batch_stops_at_first_error {A B} (op : A → store → store * Result B) l s s' e :
  batch op l s = (s', Err e) →
  ∃ l1 x l2 s1 ys, l = l1 ++ x :: l2 ∧ batch op l1 s = (s1, Ok ys) ∧ op x s1 = (s', Err e).
Proof.
  revert s. induction l as [|x l IH]; intros s H; [done|]. cbn in H.
  destruct (op x s) as [s1 [y|e'|]] eqn:E; [|injection H as -> ->; by exists [], x, l, s, []|done].
  destruct (batch op l s1) as [s2 [ys|e'|]] eqn:E2; [done| |done]. injection H as -> ->.
  destruct (IH _ E2) as (l1 & x' & l2 & s3 & ys & -> & Hb & Hx).
  exists (x :: l1), x', l2, s3, (y :: ys). split_and!; [done| |done]. cbn. by rewrite E, Hb.
Qed.
End store_properties.

(** ** Properties of the parameter rewriting *)
Section named.
Implicit Types name query p r : string.

Definition no_dollar (s : string) : Prop := str_exists (Ascii.eqb "$") s = false.
(** A bind name: not empty, no [$], no leading digit. *)
Definition bind_name (name : string) : Prop :=
  no_dollar name ∧ ∃ c s, name = String c s ∧ is_digit c = false.

Lemma bind_name_intro c s :
  no_dollar (String c s) → is_digit c = false → bind_name (String c s).
Proof. intros Hd Hc. split; [done|]. by exists c, s. Qed.

(** The statement from its pieces between [$] signs. *)
Definition dollars (ps : list string) : string :=
  foldr (λ p acc, String "$" (p +:+ acc)) "" ps.

(** One pass over the pieces: a piece starts with a parameter; the first name
    that is a prefix of it is replaced by its position. *)
Fixpoint rewrite_piece (i : nat) (names : list string) (p : string) : string :=
  match names with
  | [] => p
  | name :: names =>
      match strip_prefix name p with
      | Some r => pretty (i + 1) +:+ r
      | None => rewrite_piece (S i) names p
      end
  end.
Definition replace_piece (name k p : string) : string :=
  match strip_prefix name p with Some r => k +:+ r | None => p end.

Lemma join_dollars p ps : join (str1 "$") (p :: ps) = p +:+ dollars ps.
Proof.
  revert p. induction ps as [|q ps IH]; intros p; [by rewrite str_app_nil_r|].
  change (join (str1 "$") (p :: q :: ps)) with (p +:+ str1 "$" +:+ join (str1 "$") (q :: ps)).
  by rewrite IH.
Qed.

Lemma split_on_pieces c s : Forall (λ p, str_exists (Ascii.eqb c) p = false) (split_on c s).
Proof.
  induction s as [|a s IH]; [by repeat constructor|]. cbn.
  destruct (Ascii.eqb_spec a c) as [->|Hne]; [by constructor|].
  destruct IH as [|w ws Hw Hws]; constructor; cbn; try done;
    rewrite ?Hw, orb_false_r; by apply Ascii.eqb_neq.
Qed.

Lemma replace_go_text name r a t :
  no_dollar a → replace_go (String "$" name) r 0 (a +:+ t) = a +:+ replace_go (String "$" name) r 0 t.
Proof.
  unfold no_dollar. induction a as [|c a IH]; [done|]. intros H. cbn in H. bools.
  rewrite str_app_cons. cbn [replace_go]. unfold starts_with. cbn [strip_prefix].
  rewrite H. by rewrite IH.
Qed.

Lemma replace_go_skip pat r a t :
  replace_go pat r (String.length a) (a +:+ t) = replace_go pat r 0 t.
Proof. induction a as [|c a IH]; [done|]. by rewrite str_app_cons. Qed.

(** What follows a piece cannot extend a match: it is empty or a [$]. *)
Lemma strip_prefix_piece name p ps :
  no_dollar name → strip_prefix name (p +:+ dollars ps) =
  match strip_prefix name p with Some r => Some (r +:+ dollars ps) | None => None end.
Proof.
  unfold no_dollar. revert p. induction name as [|c name IH]; intros p Hn.
  { by destruct p; cbn; destruct (_ +:+ _). }
  cbn in Hn. bools. destruct p as [|a p].
  - rewrite str_app_nil_l. destruct ps as [|q ps]; [done|]. cbn.
    rewrite Ascii.eqb_sym. by rewrite H.
  - rewrite str_app_cons. cbn. destruct (Ascii.eqb c a); [|done]. by apply IH.
Qed.

Lemma strip_prefix_nodollar name p r : strip_prefix name p = Some r → no_dollar p → no_dollar r.
Proof.
  intros ->%strip_prefix_Some. unfold no_dollar. rewrite str_exists_app. by intros [? ?]%orb_false_iff.
Qed.

Lemma str_replace_pieces name k ps :
  no_dollar name → Forall no_dollar ps →
  str_replace (String "$" name) (String "$" k) (dollars ps) = dollars (replace_piece name k <$> ps).
Proof.
  unfold str_replace. intros Hn. induction 1 as [|p ps Hp Hps IH]; [done|].
  cbn [dollars foldr]. fold (dollars ps). cbn [replace_go fmap list_fmap map].
  unfold starts_with. cbn [strip_prefix]. rewrite Ascii.eqb_refl, strip_prefix_piece by done.
  unfold replace_piece at 1. destruct (strip_prefix name p) as [r|] eqn:E.
  - pose proof (strip_prefix_nodollar _ _ _ E Hp) as Hr. apply strip_prefix_Some in E as ->.
    cbn [String.length]. rewrite Nat.sub_succ, Nat.sub_0_r, str_app_assoc, replace_go_skip.
    rewrite replace_go_text by done. rewrite IH. rewrite !str_app_cons. cbn. by rewrite str_app_assoc.
  - rewrite replace_go_text by done. by rewrite IH.
Qed.

Lemma digits_no_dollar s : str_forall is_digit s = true → no_dollar s.
Proof.
  unfold no_dollar. induction s as [|c s IH]; [done|]. cbn. intros. bools. rewrite IH by done.
  destruct (Ascii.eqb_spec "$" c) as [<-|]; [by vm_compute in H|done].
Qed.

Lemma pretty_nat_cons (n : nat) : ∃ c s, pretty n = String c s ∧ is_digit c = true.
Proof. apply pretty_N_cons. Qed.

(** A piece that already starts with a position is no longer rewritten. *)
Lemma rewrite_position (n i : nat) names r :
  Forall bind_name names → rewrite_piece i names (pretty n +:+ r) = pretty n +:+ r.
Proof.
  destruct (pretty_nat_cons n) as (c & s & -> & Hc). intros H. revert i.
  induction H as [|name names (_ & d & t & -> & Hd) _ IH]; intros i; [done|].
  cbn [rewrite_piece]. rewrite str_app_cons. cbn [strip_prefix].
  destruct (Ascii.eqb_spec d c) as [->|]; [congruence|]. apply IH.
Qed.

Lemma replace_piece_no_dollar name (n : nat) ps :
  Forall no_dollar ps → Forall no_dollar (replace_piece name (pretty n) <$> ps).
Proof.
  intros Hps. apply Forall_fmap. eapply Forall_impl; [done|]. intros p Hp. cbn.
  unfold replace_piece. destruct (strip_prefix name p) as [r|] eqn:E; [|done].
  unfold no_dollar. rewrite str_exists_app. apply orb_false_iff. split.
  - apply digits_no_dollar, pretty_nat_digits.
  - by eapply strip_prefix_nodollar.
Qed.

Lemma replace_names_pieces i names p ps :
  Forall bind_name names → no_dollar p → Forall no_dollar ps →
  replace_names i names (p +:+ dollars ps) = p +:+ dollars (rewrite_piece i names <$> ps).
Proof.
  intros Hn Hp. revert i ps. induction Hn as [|name names Hname Hn IH]; intros i ps Hps.
  { cbn. f_equal. by rewrite list_fmap_id. }
  cbn [replace_names]. unfold str_replace. rewrite replace_go_text by done.
  fold (str_replace (String "$" name) (String "$" (pretty (i + 1))) (dollars ps)).
  rewrite str_replace_pieces; [|by destruct Hname|done].
  rewrite IH by (by apply replace_piece_no_dollar). do 2 f_equal.
  rewrite <- list_fmap_compose. apply list_fmap_ext. intros j q _. cbn.
  unfold replace_piece. destruct (strip_prefix name q) as [r|]; [|done].
  by apply rewrite_position.
Qed.

(** C40: rewriting the named parameters one after the other, each over the
    whole text left by the previous one, amounts to one simultaneous pass: the
    text before the first [$] is kept, and each piece that starts with a
    parameter has the first bind name (in key order) that is a prefix of it
    replaced by its position; the values are returned in that order. *)
Theorem named_to_positional_one_pass query m :
  Forall bind_name m.*1 →
  ∃ p ps, query = join (str1 "$") (p :: ps) ∧ no_dollar p ∧ Forall no_dollar ps
    ∧ named_to_positional query (VObject m)
      = Ok (join (str1 "$") (p :: (rewrite_piece 0 m.*1 <$> ps)), m.*2).
Proof.
  intros Hn. pose proof (join_split_on "$" query) as Hj.
  pose proof (split_on_pieces "$" query) as Hp. pose proof (split_on_nonempty "$" query) as Hne.
  destruct (split_on "$" query) as [|p ps]; [done|]. apply Forall_cons in Hp as [Hp Hps].
  exists p, ps. split; [done|]. split; [done|]. split; [done|].
  change (named_to_positional query (VObject m)) with
    (Ok (replace_names 0 m.*1 query, m.*2) : Result (string * list Value)).
  rewrite <- Hj, !join_dollars. by rewrite replace_names_pieces.
Qed.

Lemma named_to_positional_one_pass_witness :
  ∃ p ps, "SELECT * FROM t WHERE a = $a AND b = $b" = join (str1 "$") (p :: ps)
    ∧ no_dollar p ∧ Forall no_dollar ps
    ∧ named_to_positional "SELECT * FROM t WHERE a = $a AND b = $b"
        (VObject [("a", VNull); ("b", VBool true)])
      = Ok (join (str1 "$") (p :: (rewrite_piece 0 ["a"; "b"] <$> ps)), [VNull; VBool true]).
Proof.
  apply (named_to_positional_one_pass _ [("a", VNull); ("b", VBool true)]).
  repeat (apply Forall_cons; split; [by apply bind_name_intro|]). constructor.
Defined.

(** A bind name that is a proper prefix of another one corrupts it: it
    sorts first, so the longer parameter becomes the position of the shorter one
    followed by the rest of its name. *)
Theorem named_prefix_corrupts name x va vb :
  bind_name name → no_dollar x →
  named_to_positional (String "$" (name +:+ x)) (VObject [(name, va); (name +:+ x, vb)])
  = Ok (String "$" ("1" +:+ x), [va; vb]).
Proof.
  intros Hname Hx.
  change (named_to_positional _ _) with
    (Ok (replace_names 0 [name; name +:+ x] (String "$" (name +:+ x)), [va; vb])
     : Result (string * list Value)).
  replace (String "$" (name +:+ x)) with ("" +:+ dollars [name +:+ x])
    by (cbn; by rewrite str_app_nil_r).
  assert (no_dollar (name +:+ x)) as Hnx.
  { unfold no_dollar. rewrite str_exists_app. destruct Hname as [-> _]. by rewrite Hx. }
  rewrite replace_names_pieces; [|..|done|by repeat constructor].
  - cbn. rewrite strip_prefix_app. by rewrite str_app_nil_r.
  - constructor; [done|]. constructor; [|constructor].
    destruct Hname as (_ & c & t & -> & Hc). split; [done|]. rewrite str_app_cons. eauto.
Qed.

Lemma named_prefix_corrupts_witness :
  named_to_positional "$user_id" (VObject [("user", VString "u"); ("user_id", VString "42")])
  = Ok ("$1_id", [VString "u"; VString "42"]).
Proof.
  apply (named_prefix_corrupts "user" "_id"); [|done].
  by apply bind_name_intro.
Defined.
End named.

(** ** Witnesses *)
Section witnesses.
#[local] Instance demo_pg_chrono : Chrono := plain_chrono.
#[local] Instance demo_pg_json : PgJson :=
  {| jsonb_text := plain_value; pg_negative_offset := "OFFSET must not be negative" |}.

Definition shirt : Value := VObject [("id", VString "p1"); ("price", VNumber (PosInt 20))].
Definition shop : store := (create_document "products" shirt "" 5 ∅).1.

Lemma create_get_roundtrip_witness :
  get_document "products" "p1" shop
  = (shop, Ok (row_to_doc "p1" {| row_data := shirt; row_created_at := 5; row_updated_at := 5 |}))
  ∧ (is_Some (as_object shirt) →
     get "id" (row_to_doc "p1" {| row_data := shirt; row_created_at := 5; row_updated_at := 5 |})
     = Some (VString "p1")).
Proof. by apply (create_get_roundtrip "products" shirt "" 5 ∅ shop). Defined.

Lemma create_prefixed_not_found_witness :
  ∃ s' doc, create_document "products" (VObject [("id", VString "products:p1")]) "" 5 ∅ = (s', Ok doc)
    ∧ get "id" doc = Some (VString "products:p1")
    ∧ get_document "products" "products:p1" s' = (s', Err (not_found "products" "p1")).
Proof.
  by apply (create_prefixed_not_found "products" "p1" [("id", VString "products:p1")] 5 "" ∅).
Defined.

Definition shirt_row : DocRow := {| row_data := shirt; row_created_at := 5; row_updated_at := 5 |}.
Definition on_sale_doc : Value := VObject [("sale", VBool true)].
Definition on_sale : list (string * Value) := [("sale", VBool true)].

Lemma update_document_merges_witness :
  let r := update_document "products" "p1" (VObject on_sale) 9 shop in
  ∃ doc, r.2 = Ok doc ∧ get "price" doc = Some (VNumber (PosInt 20)).
Proof.
  eexists. split; [reflexivity|].
  refine (proj1 (update_document_merges "products" "p1" on_sale 9 shop _ _ shirt_row
    [("id", VString "p1"); ("price", VNumber (PosInt 20))] eq_refl _ eq_refl eq_refl) "price" _).
  - apply (bool_decide_unpack _). by vm_compute.
  - unfold is_metadata. apply (bool_decide_unpack _). by vm_compute.
Defined.

Lemma upsert_keeps_fields_witness :
  ∃ s' doc, upsert_document "products" "p1" (VObject on_sale) 9 shop = (s', Ok doc)
    ∧ get "price" doc = Some (VNumber (PosInt 20)).
Proof.
  apply (upsert_keeps_fields "products" "p1" on_sale 9 shop shirt_row
    [("id", VString "p1"); ("price", VNumber (PosInt 20))]); try reflexivity.
  - apply (bool_decide_unpack _). by vm_compute.
  - unfold is_metadata. apply (bool_decide_unpack _). by vm_compute.
Defined.

Definition order_paid (by_ : string) : Value :=
  VObject [("status", VString "paid"); ("paidBy", VString by_)].
Definition pending_order : store :=
  (create_document "orders" (VObject [("id", VString "o1"); ("status", VString "pending")]) "" 5 ∅).1.

Lemma cas_at_most_one_winner_witness :
  length (filter (λ r, won r = true)
    (cas_race "orders" "o1" "status" (VString "pending")
      [(order_paid "a", 6%Z); (order_paid "b", 7%Z)] pending_order)) ≤ 1.
Proof.
  apply cas_at_most_one_winner.
  repeat (apply Forall_cons; split; [|]); [..|constructor]; cbn;
    (do 2 eexists; split; [reflexivity|]; split;
     [apply (bool_decide_unpack _); by vm_compute|split; [reflexivity|done]]).
Defined.

(** The race has a winner when the expectation holds. *)
Example cas_race_won :
  won <$> cas_race "orders" "o1" "status" (VString "pending")
    [(order_paid "a", 6%Z); (order_paid "b", 7%Z)] pending_order = [true; false].
Proof. by vm_compute. Qed.

Lemma batch_stops_at_first_error_witness :
  ∃ l1 x l2 s1 ys, [(shirt, "", 5%Z); (on_sale_doc, "", 6%Z)] = l1 ++ x :: l2
    ∧ batch_create "products" l1 shop = (s1, Ok ys)
    ∧ (λ '(data, fresh, now), create_document "products" data fresh now) x s1
      = (shop, Err (Validation "Document already exists in collection products: p1")).
Proof.
  by apply (batch_stops_at_first_error
    (λ '(data, fresh, now), create_document "products" data fresh now)).
Defined.
End witnesses.
