(* ===== verification/Realtime.v ===== *)
(** * Realtime subscriptions

    The subscription registry, the change dispatcher and the WebSocket sessions
    (crates/ob-realtime/src/registry.rs, dispatcher.rs, websocket.rs).  The
    concurrent maps ([DashMap]) are finite maps and each method of the registry
    is a function on them; a subscriber's channel is named by the connection
    that owns it and is a bounded queue.  [server_step] is the transition
    relation of the whole server: sessions opening, sending messages, closing,
    and change events being dispatched, in any order.

    The token verification of ob-auth, the parsing of a client message and the
    texts of their errors are parameters. *)

From S2P Require Export Clock RulesOb.

(** ** registry.rs *)

Inductive ChangeAction : Type := Create | Update | Delete.

Record ChangeEvent : Type := {
  ev_action : ChangeAction;
  ev_collection : string;
  ev_document_id : string;
  ev_data : Value;
  ev_before_data : option Value;
  ev_after_data : option Value;
  ev_timestamp : string;
}.

Record RealtimeMessage : Type := {
  msg_subscription_id : string;
  msg_event : ChangeEvent;
}.

(** [sender]: the connection whose channel receives the messages. *)
Record Subscription : Type := {
  sub_id : string;
  sub_collection : string;
  sub_filter_hash : N;
  sub_document_id : option string;
  sub_user_id : option string;
  sub_sender : string;
}.

Record PresenceInfo : Type := {
  p_user_id : string;
  p_connection_id : string;
  p_status : string;
  p_last_seen : string;
  p_metadata : Value;
}.

Record SubscriptionRegistry : Type := {
  subscriptions : gmap string Subscription;
  dependency_map : gmap (string * N) (gset string);
  connections : gmap string (gset string);
  presence : gmap string PresenceInfo;
}.

Definition new_registry : SubscriptionRegistry :=
  {| subscriptions := ∅; dependency_map := ∅; connections := ∅; presence := ∅ |}.

Definition sub_key (s : Subscription) : string * N := (sub_collection s, sub_filter_hash s).

Definition subscribe (connection_id : string) (s : Subscription) (r : SubscriptionRegistry) :
    SubscriptionRegistry :=
  {| subscriptions := <[sub_id s := s]> (subscriptions r);
     dependency_map :=
       <[sub_key s := {[sub_id s]} ∪ default ∅ (dependency_map r !! sub_key s)]> (dependency_map r);
     connections :=
       <[connection_id := {[sub_id s]} ∪ default ∅ (connections r !! connection_id)]> (connections r);
     presence := presence r |}.

(** [set.remove(id)], then the entry itself when the set is empty. *)
Definition remove_dependency (key : string * N) (id : string)
    (m : gmap (string * N) (gset string)) : gmap (string * N) (gset string) :=
  match m !! key with
  | Some set =>
      let set := set ∖ {[id]} in
      if bool_decide (set = ∅) then delete key m else <[key := set]> m
  | None => m
  end.

Definition unsubscribe (subscription_id : string) (r : SubscriptionRegistry) :
    SubscriptionRegistry :=
  match subscriptions r !! subscription_id with
  | Some sub =>
      {| subscriptions := delete subscription_id (subscriptions r);
         dependency_map := remove_dependency (sub_key sub) subscription_id (dependency_map r);
         connections := connections r; presence := presence r |}
  | None => r
  end.

Definition unsubscribe_all (ids : list string) (r : SubscriptionRegistry) : SubscriptionRegistry :=
  foldl (λ r id, unsubscribe id r) r ids.

Definition disconnect (connection_id : string) (r : SubscriptionRegistry) : SubscriptionRegistry :=
  match connections r !! connection_id with
  | Some sub_ids =>
      unsubscribe_all (elements sub_ids)
        {| subscriptions := subscriptions r; dependency_map := dependency_map r;
           connections := delete connection_id (connections r); presence := presence r |}
  | None => r
  end.

Definition find_affected (collection : string) (filter_hash : N) (r : SubscriptionRegistry) :
    list Subscription :=
  match dependency_map r !! (collection, filter_hash) with
  | Some sub_ids => omap (λ id, subscriptions r !! id) (elements sub_ids)
  | None => []
  end.

Definition all_subscriptions (r : SubscriptionRegistry) : list Subscription :=
  (map_to_list (subscriptions r)).*2.

Definition find_all_for_collection (collection : string) (r : SubscriptionRegistry) :
    list Subscription :=
  filter (λ s, sub_collection s = collection) (all_subscriptions r).

Definition find_document_subscribers (collection document_id : string) (r : SubscriptionRegistry) :
    list Subscription :=
  filter (λ s, sub_collection s = collection ∧ sub_document_id s = Some document_id)
    (all_subscriptions r).

Definition find_all_affected (collection document_id : string) (filter_hash : N)
    (r : SubscriptionRegistry) : list Subscription :=
  let result := find_affected collection filter_hash r in
  result ++ filter (λ s, sub_id s ∉ sub_id <$> result)
    (find_document_subscribers collection document_id r).

Definition with_presence (p : gmap string PresenceInfo) (r : SubscriptionRegistry) :
    SubscriptionRegistry :=
  {| subscriptions := subscriptions r; dependency_map := dependency_map r;
     connections := connections r; presence := p |}.

Section presence.
Context `{C : Chrono}.

Definition set_presence (user_id connection_id : string) (metadata : Value) (now : Z)
    (r : SubscriptionRegistry) : SubscriptionRegistry :=
  with_presence (<[user_id := {| p_user_id := user_id; p_connection_id := connection_id;
    p_status := "online"; p_last_seen := to_rfc3339 now; p_metadata := metadata |}]> (presence r)) r.

Definition heartbeat (connection_id : string) (now : Z) (r : SubscriptionRegistry) :
    SubscriptionRegistry :=
  with_presence ((λ info, if p_connection_id info =s? connection_id then
    {| p_user_id := p_user_id info; p_connection_id := p_connection_id info;
       p_status := p_status info; p_last_seen := to_rfc3339 now;
       p_metadata := p_metadata info |} else info) <$> presence r) r.
End presence.

Definition remove_presence (connection_id : string) (r : SubscriptionRegistry) :
    SubscriptionRegistry :=
  with_presence (filter (λ kv : string * PresenceInfo, p_connection_id kv.2 ≠ connection_id)
    (presence r)) r.

Definition get_online_users (r : SubscriptionRegistry) : list PresenceInfo :=
  (map_to_list (presence r)).*2.
Definition is_online (user_id : string) (r : SubscriptionRegistry) : bool :=
  bool_decide (is_Some (presence r !! user_id)).
Definition get_presence (user_id : string) (r : SubscriptionRegistry) : option PresenceInfo :=
  presence r !! user_id.
Definition online_count (r : SubscriptionRegistry) : nat := size (presence r).
Definition subscription_count (r : SubscriptionRegistry) : nat := size (subscriptions r).
Definition connection_count (r : SubscriptionRegistry) : nat := size (connections r).
Definition connection_subscription_count (connection_id : string) (r : SubscriptionRegistry) : nat :=
  from_option size 0 (connections r !! connection_id).

(** ** dispatcher.rs *)

Definition data_str (field : string) (data : Value) : option string := get field data ≫= as_str.

(** The users a private collection's document belongs to: one of the arms of
    [filter_by_ownership]; [None] for a public collection. *)
Definition owners (collection : string) (data : Value) : option (list (option string)) :=
  if existsb (str_eqb collection) ["orders"] then
    Some [data_str "buyerId" data; data_str "sellerId" data]
  else if existsb (str_eqb collection) ["cart"; "notifications"; "subscriptions"] then
    Some [data_str "userId" data]
  else if existsb (str_eqb collection) ["return_requests"] then
    Some [data_str "buyerId" data; data_str "sellerId" data]
  else if existsb (str_eqb collection) ["chat_messages"; "chat_threads"] then
    Some [data_str "buyerId" data; data_str "sellerId" data]
  else if existsb (str_eqb collection) ["seller_profiles"; "warehouses"] then
    Some [match data_str "sellerId" data with
          | Some s => Some s
          | None => data_str "parent_id" data end]
  else None.

(** [retain]: anonymous subscriptions pass, a user's must be an owner's. *)
Definition passes (owners : list (option string)) (s : Subscription) : bool :=
  match sub_user_id s with
  | None => true
  | Some uid => existsb (λ o, bool_decide (Some uid = o)) owners
  end.
Definition filter_by_ownership (subscribers : list Subscription) (collection : string)
    (data : Value) : list Subscription :=
  match owners collection data with
  | Some os => filter (λ s, passes os s = true) subscribers
  | None => subscribers
  end.

Definition recipients (r : SubscriptionRegistry) (e : ChangeEvent) : list Subscription :=
  filter_by_ownership (find_all_for_collection (ev_collection e) r) (ev_collection e) (ev_data e).

(** A connection's channel of pending messages, of capacity 256; a closed
    channel is absent.  [try_send] drops the message when it is full or
    closed. *)
Abbreviation channels := (gmap string (list RealtimeMessage)).
Definition channel_capacity : nat := 256.
Definition try_send (conn : string) (m : RealtimeMessage) (ch : channels) : channels :=
  match ch !! conn with
  | Some q => if length q <? channel_capacity then <[conn := q ++ [m]]> ch else ch
  | None => ch
  end.

(** One iteration of [ChangeDispatcher::run]. *)
Definition dispatch (r : SubscriptionRegistry) (e : ChangeEvent) (ch : channels) : channels :=
  foldl (λ ch s, try_send (sub_sender s) {| msg_subscription_id := sub_id s; msg_event := e |} ch)
    ch (recipients r e).
(** The loop, over the events received until the channel closes. *)
Definition run (r : SubscriptionRegistry) (events : list ChangeEvent) (ch : channels) : channels :=
  foldl (λ ch e, dispatch r e ch) ch events.

(** [emit_change]: the event it sends. *)
Definition emit_change `{C : Chrono} (action : ChangeAction) (collection document_id : string)
    (data : Value) (now : Z) : ChangeEvent :=
  {| ev_action := action; ev_collection := collection; ev_document_id := document_id;
     ev_data := data; ev_before_data := None; ev_after_data := Some data;
     ev_timestamp := to_rfc3339 now |}.

(** ** websocket.rs *)

Definition MAX_SUBS_PER_CONNECTION : nat := 100.
Definition ALLOWED_COLLECTIONS : list string :=
  ["products"; "orders"; "cart"; "users__cart"; "favorites"; "notifications";
   "users__notifications"; "chats"; "chats__messages"; "chat_messages"; "chat_threads";
   "product_questions"; "users"; "reviews"; "seller_profiles"; "warehouses";
   "return_requests"; "subscriptions"].
Definition MAX_WS_MESSAGE_SIZE : nat := Z.to_nat 65536.
Definition MAX_CONNECTIONS_PER_USER : nat := 5.

Inductive ClientMessage : Type :=
| Subscribe (id collection : string) (filter_hash : N) (document_id : option string)
| Unsubscribe (id : string)
| Presence (metadata : Value)
| Ping.

Inductive ServerMessage : Type :=
| Subscribed (id : string)
| Unsubscribed (id : string)
| Change (subscription_id : string) (event : ChangeEvent)
| PresenceUpdate (online : list PresenceInfo)
| Pong
| WsError (message : string).

(** [extract_ws_token]: the query parameter when not empty, else the bearer
    header. *)
Definition extract_ws_token (query_token auth_header : option string) : option string :=
  match query_token with
  | Some ((String _ _) as token) => Some token
  | _ => auth_header ≫= strip_prefix "Bearer "
  end.

Record Claims : Type := { claims_sub : string; claims_typ : string }.

(** The checks of [ws_handler] (and of the presence endpoints) before the
    upgrade: the user, or the text of a 401 response. *)
Definition authenticate (verify_token : string → outcome string Claims)
    (query_token auth_header : option string) : outcome (N * string) string :=
  match extract_ws_token query_token auth_header with
  | None => Err (401%N,
      "Missing authentication token. Provide ?token=<jwt> or Authorization header.")
  | Some token =>
      match verify_token token with
      | Ok claims => if claims_typ claims =s? "access" then Ok (claims_sub claims)
                     else Err (401%N, "Invalid token type")
      | Err _ => Err (401%N, "Invalid or expired token")
      | Panic => Panic
      end
  end.

(** The server: the shared state, the open sessions (connection to user) and
    their channels. *)
Record server : Type := {
  registry : SubscriptionRegistry;
  connection_counts : gmap string nat;
  sessions : gmap string string;
  outbox : channels;
}.

(** The beginning of [handle_socket], for a fresh connection id. *)
Definition open_session (user_id connection_id : string) (st : server) : server :=
  let current_conns := default 0 (connection_counts st !! user_id) in
  if MAX_CONNECTIONS_PER_USER <=? current_conns then st
  else {| registry := registry st;
          connection_counts := <[user_id := S current_conns]> (connection_counts st);
          sessions := <[connection_id := user_id]> (sessions st);
          outbox := <[connection_id := []]> (outbox st) |}.

(** The end of [handle_socket]. *)
Definition close_session (user_id connection_id : string) (st : server) : server :=
  {| registry := disconnect connection_id (remove_presence connection_id (registry st));
     connection_counts :=
       match connection_counts st !! user_id with
       | Some count =>
           let count := count - 1 in
           if count =? 0 then delete user_id (connection_counts st)
           else <[user_id := count]> (connection_counts st)
       | None => connection_counts st
       end;
     sessions := delete connection_id (sessions st);
     outbox := delete connection_id (outbox st) |}.

Section messages.
Context `{C : Chrono} `{T : SerdeText}.

(** A parsed client message: the registry after it and the reply. *)
Definition handle_message (user_id connection_id : string) (now : Z) (m : ClientMessage)
    (r : SubscriptionRegistry) : SubscriptionRegistry * ServerMessage :=
  match m with
  | Subscribe id collection filter_hash document_id =>
      if negb (existsb (str_eqb collection) ALLOWED_COLLECTIONS) then
        (r, WsError ("Subscription to '" +:+ collection +:+ "' is not allowed"))
      else if MAX_SUBS_PER_CONNECTION <=? connection_subscription_count connection_id r then
        (r, WsError ("Max subscriptions (" +:+ pretty MAX_SUBS_PER_CONNECTION +:+ ") reached"))
      else
        (subscribe connection_id
           {| sub_id := id; sub_collection := collection; sub_filter_hash := filter_hash;
              sub_document_id := document_id; sub_user_id := Some user_id;
              sub_sender := connection_id |} r,
         Subscribed id)
  | Unsubscribe id => (unsubscribe id r, Unsubscribed id)
  | Presence metadata =>
      if 4096 <? String.length (value_to_string metadata) then
        (r, WsError "Presence metadata too large (max 4KB)")
      else
        let r := set_presence user_id connection_id metadata now r in
        (r, PresenceUpdate (get_online_users r))
  | Ping => (heartbeat connection_id now r, Pong)
  end.

(** A text frame: the size limit, then the parser. *)
Definition handle_text (parse : string → outcome string ClientMessage)
    (user_id connection_id : string) (now : Z) (text : string) (r : SubscriptionRegistry) :
    SubscriptionRegistry * ServerMessage :=
  if MAX_WS_MESSAGE_SIZE <? String.length text then (r, WsError "Message too large")
  else match parse text with
  | Ok m => handle_message user_id connection_id now m r
  | Err e => (r, WsError e)
  | Panic => (r, WsError "")
  end.

Definition presence_info_value (i : PresenceInfo) : Value :=
  VObject [("connection_id", VString (p_connection_id i)); ("last_seen", VString (p_last_seen i));
    ("metadata", p_metadata i); ("status", VString (p_status i)); ("user_id", VString (p_user_id i))].

(** The presence endpoints. *)
Definition presence_handler verify query_token auth_header (r : SubscriptionRegistry) :
    outcome (N * string) Value :=
  _ ← authenticate verify query_token auth_header;
  Ok (VObject [("count", VNumber (PosInt (N.of_nat (online_count r))));
               ("online", VArray (presence_info_value <$> get_online_users r))]).
Definition presence_user_handler verify query_token auth_header (user_id : string)
    (r : SubscriptionRegistry) : outcome (N * string) Value :=
  _ ← authenticate verify query_token auth_header;
  let info := get_presence user_id r in
  Ok (VObject [("online", VBool (bool_decide (is_Some info)));
               ("presence", from_option presence_info_value VNull info);
               ("user_id", VString user_id)]).
End messages.

(** ** The registry's invariant

    The reverse index holds exactly the active subscriptions, under their keys. *)
Section registry_properties.
Implicit Types r : SubscriptionRegistry.

Record registry_wf (r : SubscriptionRegistry) : Prop := {
  wf_id id s : subscriptions r !! id = Some s → sub_id s = id;
  wf_index key ids id : dependency_map r !! key = Some ids → id ∈ ids →
    ∃ s, subscriptions r !! id = Some s ∧ sub_key s = key;
  wf_indexed id s : subscriptions r !! id = Some s →
    ∃ ids, dependency_map r !! sub_key s = Some ids ∧ id ∈ ids;
  wf_nonempty key ids : dependency_map r !! key = Some ids → ids ≠ ∅;
}.

Lemma new_registry_wf : registry_wf new_registry.
Proof. split; cbn; intros *; rewrite lookup_empty; done. Qed.

(** Subscribing under an id that is not active (or active under the same key). *)
Lemma subscribe_wf conn s r :
  registry_wf r →
  (∀ s0, subscriptions r !! sub_id s = Some s0 → sub_key s0 = sub_key s) →
  registry_wf (subscribe conn s r).
Proof.
  intros [Hid Hix Hixd Hne] Hfresh. split; cbn.
  - intros id s' [[<- <-]|[? ?]]%lookup_insert_Some; [done|eauto].
  - intros key ids id [[<- <-]|[Hk Hl]]%lookup_insert_Some Hin.
    + apply elem_of_union in Hin as [->%elem_of_singleton|Hin].
      { exists s. by rewrite lookup_insert_eq. }
      destruct (dependency_map r !! sub_key s) as [ids0|] eqn:E; [|by apply not_elem_of_empty in Hin].
      destruct (Hix _ _ _ E Hin) as (s0 & Hs0 & Hkey).
      destruct (decide (id = sub_id s)) as [->|Hn].
      * exists s. by rewrite lookup_insert_eq.
      * exists s0. by rewrite lookup_insert_ne.
    + destruct (Hix _ _ _ Hl Hin) as (s0 & Hs0 & Hkey). exists s0.
      rewrite lookup_insert_ne; [done|]. intros <-. apply Hk. rewrite <- Hkey.
      symmetry. eauto.
  - intros id s' [[<- <-]|[Hn Hl]]%lookup_insert_Some.
    + eexists. rewrite lookup_insert_eq. split; [done|]. set_solver.
    + destruct (Hixd _ _ Hl) as (ids & Hd & Hin).
      destruct (decide (sub_key s' = sub_key s)) as [Hk|Hk].
      * eexists. rewrite Hk, lookup_insert_eq. split; [done|].
        rewrite Hk in Hd. rewrite Hd. set_solver.
      * exists ids. by rewrite lookup_insert_ne.
  - intros key ids [[_ <-]|[_ Hl]]%lookup_insert_Some; [set_solver|eauto].
Qed.

Lemma remove_dependency_spec key id m key' ids :
  remove_dependency key id m !! key' = Some ids ↔
  if decide (key' = key)
  then ∃ ids0, m !! key = Some ids0 ∧ ids = ids0 ∖ {[id]} ∧ ids ≠ ∅
  else m !! key' = Some ids.
Proof.
  unfold remove_dependency. destruct (m !! key) as [ids0|] eqn:E; case_decide as Hk; subst.
  - case_bool_decide as He.
    + rewrite lookup_delete_eq. naive_solver.
    + rewrite lookup_insert_eq. naive_solver.
  - case_bool_decide; [by rewrite lookup_delete_ne|by rewrite lookup_insert_ne].
  - rewrite E. naive_solver.
  - done.
Qed.

Lemma unsubscribe_wf id r : registry_wf r → registry_wf (unsubscribe id r).
Proof.
  intros Hwf. unfold unsubscribe. destruct (subscriptions r !! id) as [sub|] eqn:E; [|done].
  destruct Hwf as [Hid Hix Hixd Hne]. split; cbn.
  - intros id' s [_ Hl]%lookup_delete_Some. eauto.
  - intros key ids id' Hd%remove_dependency_spec Hin. case_decide as Hk.
    + subst key. destruct Hd as (ids0 & Hd & -> & _). apply elem_of_difference in Hin as [Hin Hn].
      destruct (Hix _ _ _ Hd Hin) as (s & Hs & Hkey). exists s. split; [|done].
      rewrite lookup_delete_ne; [done|]. set_solver.
    + destruct (Hix _ _ _ Hd Hin) as (s & Hs & Hkey). exists s. split; [|done].
      rewrite lookup_delete_ne; [done|]. intros ->. simplify_eq.
  - intros id' s [Hn Hl]%lookup_delete_Some. destruct (Hixd _ _ Hl) as (ids & Hd & Hin).
    destruct (decide (sub_key s = sub_key sub)) as [Hk|Hk].
    + exists (ids ∖ {[id]}). split; [|set_solver]. apply remove_dependency_spec.
      rewrite decide_True by done. exists ids. rewrite <- Hk. split_and!; [done..|]. set_solver.
    + exists ids. split; [|done]. apply remove_dependency_spec. by rewrite decide_False.
  - intros key ids Hd%remove_dependency_spec. case_decide; [naive_solver|eauto].
Qed.

Lemma unsubscribe_all_wf ids r : registry_wf r → registry_wf (unsubscribe_all ids r).
Proof.
  unfold unsubscribe_all. revert r. induction ids as [|id ids IH]; intros r Hwf; [done|].
  cbn. apply IH. by apply unsubscribe_wf.
Qed.

(** The registry's invariant does not mention connections or presence. *)
Lemma registry_wf_ext r r' :
  subscriptions r' = subscriptions r → dependency_map r' = dependency_map r →
  registry_wf r → registry_wf r'.
Proof. intros Hs Hd [H1 H2 H3 H4]. split; rewrite ?Hs, ?Hd; eauto. Qed.

Lemma disconnect_wf conn r : registry_wf r → registry_wf (disconnect conn r).
Proof.
  intros Hwf. unfold disconnect. destruct (connections r !! conn) as [ids|]; [|done].
  apply unsubscribe_all_wf. by apply (registry_wf_ext r).
Qed.

Lemma unsubscribe_subscriptions id r :
  subscriptions (unsubscribe id r) = delete id (subscriptions r).
Proof.
  unfold unsubscribe. destruct (subscriptions r !! id) eqn:E; [done|]. by rewrite delete_id.
Qed.

Lemma unsubscribe_connections id r : connections (unsubscribe id r) = connections r.
Proof. unfold unsubscribe. by destruct (subscriptions r !! id). Qed.

Lemma unsubscribe_all_lookup ids r id :
  subscriptions (unsubscribe_all ids r) !! id =
  if decide (id ∈ ids) then None else subscriptions r !! id.
Proof.
  unfold unsubscribe_all. revert r. induction ids as [|i ids IH]; intros r; [done|].
  cbn [foldl]. rewrite IH, unsubscribe_subscriptions.
  destruct (decide (id ∈ ids)) as [Hin|Hin]; destruct (decide (id ∈ i :: ids)) as [Hin'|Hin'];
    try done; rewrite elem_of_cons in Hin'.
  - tauto.
  - destruct Hin' as [->|]; [apply lookup_delete_eq|done].
  - rewrite lookup_delete_ne; [done|]. naive_solver.
Qed.

Lemma unsubscribe_all_connections ids r : connections (unsubscribe_all ids r) = connections r.
Proof.
  unfold unsubscribe_all. revert r. induction ids as [|i ids IH]; intros r; [done|].
  cbn [foldl]. by rewrite IH, unsubscribe_connections.
Qed.

Lemma disconnect_lookup conn r id :
  subscriptions (disconnect conn r) !! id =
  if decide (id ∈ default ∅ (connections r !! conn)) then None else subscriptions r !! id.
Proof.
  unfold disconnect. destruct (connections r !! conn) as [ids|]; cbn.
  - rewrite unsubscribe_all_lookup. cbn. destruct (decide (id ∈ elements ids)) as [H|H];
      destruct (decide (id ∈ ids)) as [H'|H']; try done; exfalso; set_solver.
  - by rewrite decide_False by set_solver.
Qed.

Lemma disconnect_connections conn r : connections (disconnect conn r) = delete conn (connections r).
Proof.
  unfold disconnect. destruct (connections r !! conn) as [ids|] eqn:E.
  - by rewrite unsubscribe_all_connections.
  - by rewrite delete_id.
Qed.

(** The operations clients reach the registry with; a subscription id is not
    reused while it is active. *)
Inductive reg_step : SubscriptionRegistry → SubscriptionRegistry → Prop :=
| reg_subscribe conn s r :
    subscriptions r !! sub_id s = None → reg_step r (subscribe conn s r)
| reg_unsubscribe id r : reg_step r (unsubscribe id r)
| reg_disconnect conn r : reg_step r (disconnect conn r)
| reg_presence p r : reg_step r (with_presence p r).

Lemma reg_step_wf r r' : reg_step r r' → registry_wf r → registry_wf r'.
Proof.
  destruct 1; intros Hwf.
  - apply subscribe_wf; [done|]. congruence.
  - by apply unsubscribe_wf.
  - by apply disconnect_wf.
  - by apply (registry_wf_ext r).
Qed.

Lemma reg_reachable_wf r : rtc reg_step new_registry r → registry_wf r.
Proof.
  intros Hr. cut (∀ r0, rtc reg_step r0 r → registry_wf r0 → registry_wf r).
  { eauto using new_registry_wf. }
  induction 1; eauto using reg_step_wf.
Qed.

(** The reverse index is exact: after any sequence of registry operations
    in which an id is not reused while active, the lookup by collection and
    filter returns exactly the active subscriptions with that collection and
    filter, each once. *)
Theorem find_affected_exact r collection filter_hash :
  rtc reg_step new_registry r →
  NoDup (sub_id <$> find_affected collection filter_hash r)
  ∧ ∀ s, s ∈ find_affected collection filter_hash r ↔
      subscriptions r !! sub_id s = Some s
      ∧ sub_collection s = collection ∧ sub_filter_hash s = filter_hash.
Proof.
  intros Hr. pose proof (reg_reachable_wf r Hr) as Hwf. clear Hr. unfold find_affected.
  destruct (dependency_map r !! (collection, filter_hash)) as [ids|] eqn:E.
  - assert (∀ id, id ∈ ids → ∃ s, subscriptions r !! id = Some s ∧ sub_id s = id
      ∧ sub_key s = (collection, filter_hash)) as Hids.
    { intros id Hin. destruct (wf_index _ Hwf _ _ _ E Hin) as (s & Hs & Hk).
      exists s. eauto using wf_id. }
    split.
    + assert (∀ l : list string, (∀ id, id ∈ l → id ∈ ids) →
        sub_id <$> omap (λ id, subscriptions r !! id) l = l) as Hl.
      { induction l as [|id l IH]; [done|]. intros Hsub. cbn.
        destruct (Hids id) as (s & -> & Hsid & _); [apply Hsub; left|].
        cbn. rewrite Hsid. f_equal. apply IH. intros; apply Hsub. by right. }
      rewrite Hl by (intros; by apply elem_of_elements). apply NoDup_elements.
    + intros s. rewrite list_elem_of_omap. split.
      * intros (id & Hin%elem_of_elements & Hs). destruct (Hids id Hin) as (s' & Hs' & Hsid & Hk).
        simplify_eq. unfold sub_key in Hk. by simplify_eq.
      * intros (Hs & Hc & Hf). exists (sub_id s). split; [|done]. apply elem_of_elements.
        destruct (wf_indexed _ Hwf _ _ Hs) as (ids' & Hd & Hin). unfold sub_key in Hd.
        rewrite Hc, Hf in Hd. by simplify_eq.
  - split; [constructor|]. intros s. split; [by intros ?%not_elem_of_nil|].
    intros (Hs & Hc & Hf). destruct (wf_indexed _ Hwf _ _ Hs) as (ids & Hd & _).
    unfold sub_key in Hd. rewrite Hc, Hf in Hd. congruence.
Qed.
End registry_properties.

(** ** The server *)
Section server_properties.
Context `{C : Chrono} `{T : SerdeText}.
Implicit Types st : server.

Definition new_server : server :=
  {| registry := new_registry; connection_counts := ∅; sessions := ∅; outbox := ∅ |}.

Inductive server_step : server → server → Prop :=
| step_open st user conn :
    sessions st !! conn = None → connections (registry st) !! conn = None →
    server_step st (open_session user conn st)
| step_message st user conn now m r reply :
    sessions st !! conn = Some user →
    handle_message user conn now m (registry st) = (r, reply) →
    server_step st {| registry := r; connection_counts := connection_counts st;
                      sessions := sessions st; outbox := outbox st |}
| step_close st user conn :
    sessions st !! conn = Some user → server_step st (close_session user conn st)
| step_event st e :
    server_step st {| registry := registry st; connection_counts := connection_counts st;
                      sessions := sessions st; outbox := dispatch (registry st) e (outbox st) |}
| step_drain st conn m q :
    outbox st !! conn = Some (m :: q) →
    server_step st {| registry := registry st; connection_counts := connection_counts st;
                      sessions := sessions st; outbox := <[conn := q]> (outbox st) |}.

Definition open_sessions (user : string) (st : server) : nat :=
  size (filter (λ kv : string * string, kv.2 = user) (sessions st)).

Record server_inv (st : server) : Prop := {
  inv_subscription id s : subscriptions (registry st) !! id = Some s →
    sub_id s = id ∧ sub_collection s ∈ ALLOWED_COLLECTIONS
    ∧ (∃ u, sub_user_id s = Some u ∧ sessions st !! sub_sender s = Some u)
    ∧ id ∈ default ∅ (connections (registry st) !! sub_sender s);
  inv_tracked conn : connection_subscription_count conn (registry st) ≤ MAX_SUBS_PER_CONNECTION;
  inv_counts user : default 0 (connection_counts st !! user) = open_sessions user st
    ∧ open_sessions user st ≤ MAX_CONNECTIONS_PER_USER;
}.

Lemma server_inv_new : server_inv new_server.
Proof.
  split; cbn.
  - intros id s. by rewrite lookup_empty.
  - intros conn. unfold connection_subscription_count. cbn. rewrite lookup_empty. cbn. lia.
  - intros user. rewrite lookup_empty. unfold open_sessions, MAX_CONNECTIONS_PER_USER. cbn.
    rewrite map_filter_empty, map_size_empty. lia.
Qed.

Lemma open_sessions_insert user conn u st st' :
  sessions st !! conn = None → sessions st' = <[conn := u]> (sessions st) →
  open_sessions user st' = (if decide (u = user) then S (open_sessions user st)
                            else open_sessions user st).
Proof.
  intros Hn Hs. unfold open_sessions. rewrite Hs. case_decide as Hu.
  - rewrite map_filter_insert_True by done. apply map_size_insert_None.
    apply map_lookup_filter_None. by left.
  - rewrite map_filter_insert_False by done. by rewrite delete_id.
Qed.

Lemma open_sessions_delete user conn u st st' :
  sessions st !! conn = Some u → sessions st' = delete conn (sessions st) →
  open_sessions user st' = (if decide (u = user) then open_sessions user st - 1
                            else open_sessions user st).
Proof.
  intros Hn Hs. unfold open_sessions. rewrite Hs, map_filter_delete. case_decide as Hu.
  - rewrite map_size_delete_Some; [lia|]. exists u. by apply map_lookup_filter_Some.
  - rewrite delete_id; [done|]. apply map_lookup_filter_None. right. naive_solver.
Qed.

(** The part of the invariant on subscriptions, for a change of registry. *)
Lemma server_inv_registry st r :
  server_inv st →
  (∀ id s, subscriptions r !! id = Some s →
    sub_id s = id ∧ sub_collection s ∈ ALLOWED_COLLECTIONS
    ∧ (∃ u, sub_user_id s = Some u ∧ sessions st !! sub_sender s = Some u)
    ∧ id ∈ default ∅ (connections r !! sub_sender s)) →
  (∀ conn, connection_subscription_count conn r ≤ MAX_SUBS_PER_CONNECTION) →
  server_inv {| registry := r; connection_counts := connection_counts st;
                sessions := sessions st; outbox := outbox st |}.
Proof. intros [_ _ Hc] Hs Ht. by split. Qed.

Lemma server_inv_subscribe st conn u id c h d :
  server_inv st → sessions st !! conn = Some u → c ∈ ALLOWED_COLLECTIONS →
  connection_subscription_count conn (registry st) < MAX_SUBS_PER_CONNECTION →
  server_inv {| registry := subscribe conn {| sub_id := id; sub_collection := c;
      sub_filter_hash := h; sub_document_id := d; sub_user_id := Some u; sub_sender := conn |}
      (registry st);
    connection_counts := connection_counts st; sessions := sessions st; outbox := outbox st |}.
Proof.
  intros Hinv Hu Hc Hlt. apply server_inv_registry; [done|..].
  - intros id' s. cbn. intros [[<- <-]|[Hne Hl]]%lookup_insert_Some; cbn.
    + rewrite lookup_insert_eq. split_and!; [done..|by exists u|]. set_solver.
    + destruct (inv_subscription _ Hinv _ _ Hl) as (? & ? & ? & Hin). split_and!; [done..|].
      destruct (decide (sub_sender s = conn)) as [Hs|Hs].
      * rewrite Hs in *. rewrite lookup_insert_eq. cbn. apply elem_of_union. by right.
      * by rewrite lookup_insert_ne.
  - intros conn'. unfold connection_subscription_count in *. cbn.
    destruct (decide (conn' = conn)) as [->|Hne].
    + rewrite lookup_insert_eq. cbn.
      pose proof (size_union_alt {[id]} (default ∅ (connections (registry st) !! conn))) as Hsz.
      rewrite size_singleton in Hsz.
      pose proof (subseteq_size (default ∅ (connections (registry st) !! conn) ∖ {[id]})
        (default ∅ (connections (registry st) !! conn)) ltac:(set_solver)) as Hle.
      unfold MAX_SUBS_PER_CONNECTION in *.
      destruct (connections (registry st) !! conn); cbn in *; rewrite ?size_empty in *; lia.
    + rewrite lookup_insert_ne by done. apply (inv_tracked _ Hinv conn').
Qed.

Lemma allowed_elem c : existsb (str_eqb c) ALLOWED_COLLECTIONS = true → c ∈ ALLOWED_COLLECTIONS.
Proof.
  rewrite existsb_exists. intros (x & Hin & He). bools. subst x. by apply list_elem_of_In.
Qed.

Lemma server_inv_message st user conn now m r reply :
  server_inv st → sessions st !! conn = Some user →
  handle_message user conn now m (registry st) = (r, reply) →
  server_inv {| registry := r; connection_counts := connection_counts st;
                sessions := sessions st; outbox := outbox st |}.
Proof.
  intros Hinv Hu Hm.
  assert (server_inv {| registry := registry st; connection_counts := connection_counts st;
                sessions := sessions st; outbox := outbox st |}) as Hsame by by destruct st.
  destruct m as [id c h d|id|metadata|]; cbn [handle_message] in Hm; cbv zeta in Hm.
  - destruct (negb _) eqn:Ha in Hm; [by simplify_eq|].
    destruct (MAX_SUBS_PER_CONNECTION <=? _) eqn:Hl in Hm; [by simplify_eq|]. simplify_eq.
    apply negb_false_iff in Ha. apply Nat.leb_gt in Hl.
    apply server_inv_subscribe; auto using allowed_elem.
  - simplify_eq. apply server_inv_registry; [done|..].
    + intros id' s. rewrite unsubscribe_subscriptions, unsubscribe_connections.
      intros [_ Hl]%lookup_delete_Some. by apply (inv_subscription _ Hinv).
    + intros conn'. unfold connection_subscription_count. rewrite unsubscribe_connections.
      apply (inv_tracked _ Hinv).
  - destruct (4096 <? _) in Hm; simplify_eq; [done|].
    apply server_inv_registry; [done|apply Hinv..].
  - simplify_eq. apply server_inv_registry; [done|apply Hinv..].
Qed.

Lemma server_inv_open st user conn :
  server_inv st → sessions st !! conn = None → server_inv (open_session user conn st).
Proof.
  intros Hinv Hn. unfold open_session. destruct (MAX_CONNECTIONS_PER_USER <=? _) eqn:E; [done|].
  apply Nat.leb_gt in E. split; cbn.
  - intros id s Hl. destruct (inv_subscription _ Hinv _ _ Hl) as (? & ? & (u & ? & Hs) & ?).
    split_and!; [done..| |done]. exists u. split; [done|]. rewrite lookup_insert_ne; [done|]. congruence.
  - apply Hinv.
  - intros u. pose proof (inv_counts _ Hinv u) as [Hc Hle]. pose proof (inv_counts _ Hinv user) as [Hc' _].
    erewrite (open_sessions_insert u conn user st); [|done|done]. case_decide as Hu.
    + subst u. rewrite lookup_insert_eq. cbn. lia.
    + by rewrite lookup_insert_ne.
Qed.

Lemma server_inv_close st user conn :
  server_inv st → sessions st !! conn = Some user → server_inv (close_session user conn st).
Proof.
  intros Hinv Hn. split; cbn.
  - intros id s. rewrite disconnect_lookup, disconnect_connections. cbn. case_decide as Hd; [done|].
    intros Hl. destruct (inv_subscription _ Hinv _ _ Hl) as (? & ? & (u & ? & Hs) & Hin).
    assert (sub_sender s ≠ conn) by congruence.
    rewrite !lookup_delete_ne by done. eauto 10.
  - intros conn'. unfold connection_subscription_count. rewrite disconnect_connections. cbn.
    destruct (decide (conn' = conn)) as [->|]; [rewrite lookup_delete_eq; cbn; lia|].
    rewrite lookup_delete_ne by done. apply (inv_tracked _ Hinv).
  - intros u. pose proof (inv_counts _ Hinv u) as [Hc Hle].
    erewrite (open_sessions_delete u conn user st); [|done|done].
    destruct (decide (user = u)) as [->|Hu].
    + destruct (connection_counts st !! u) as [n|] eqn:E; cbn in *.
      * destruct (n - 1 =? 0) eqn:Ez; [rewrite lookup_delete_eq; apply Nat.eqb_eq in Ez|
          rewrite lookup_insert_eq]; cbn; lia.
      * rewrite E. cbn. lia.
    + destruct (connection_counts st !! user) as [n|] eqn:E; [|done].
      destruct (n - 1 =? 0); [rewrite lookup_delete_ne by done|rewrite lookup_insert_ne by done]; done.
Qed.

Lemma server_inv_step st st' : server_step st st' → server_inv st → server_inv st'.
Proof.
  destruct 1; intros Hinv.
  - by apply server_inv_open.
  - by eapply server_inv_message.
  - by apply server_inv_close.
  - destruct Hinv; by split.
  - destruct Hinv; by split.
Qed.

Lemma server_reachable st : rtc server_step new_server st → server_inv st.
Proof.
  intros Hr. cut (∀ st0, rtc server_step st0 st → server_inv st0 → server_inv st).
  { eauto using server_inv_new. }
  induction 1; eauto using server_inv_step.
Qed.

(** Whatever clients do, in every reachable state of the server a user has
    at most five open sessions and the counter is their exact number; a connection
    tracks at most a hundred subscriptions; and every active subscription is on
    an allowed collection, delivers to an open session and carries the user that
    session was authenticated as. *)
Theorem server_invariant st :
  rtc server_step new_server st →
  (∀ user, default 0 (connection_counts st !! user) = open_sessions user st
     ∧ open_sessions user st ≤ MAX_CONNECTIONS_PER_USER)
  ∧ (∀ conn, connection_subscription_count conn (registry st) ≤ MAX_SUBS_PER_CONNECTION)
  ∧ (∀ id s, subscriptions (registry st) !! id = Some s →
       sub_collection s ∈ ALLOWED_COLLECTIONS
       ∧ ∃ u, sub_user_id s = Some u ∧ sessions st !! sub_sender s = Some u).
Proof.
  intros Hinv%server_reachable. split; [apply Hinv|]. split; [apply Hinv|].
  intros id s Hl. by destruct (inv_subscription _ Hinv _ _ Hl) as (_ & ? & ? & _).
Qed.

(** *** Delivery *)

Lemma elem_of_all_subscriptions r s :
  s ∈ all_subscriptions r ↔ ∃ id, subscriptions r !! id = Some s.
Proof.
  unfold all_subscriptions. rewrite list_elem_of_fmap. split.
  - intros ([id s'] & -> & Hin). exists id. by apply elem_of_map_to_list.
  - intros [id Hl]. exists (id, s). split; [done|]. by apply elem_of_map_to_list.
Qed.

Lemma elem_of_recipients r e s :
  s ∈ recipients r e ↔
  (∃ id, subscriptions r !! id = Some s) ∧ sub_collection s = ev_collection e
  ∧ match owners (ev_collection e) (ev_data e) with
    | Some os => passes os s = true | None => True end.
Proof.
  unfold recipients, filter_by_ownership, find_all_for_collection.
  destruct (owners _ _); rewrite ?list_elem_of_filter, elem_of_all_subscriptions; tauto.
Qed.

(** What a dispatch adds to a channel comes from a recipient that names it. *)
Lemma dispatch_added (l : list Subscription) (e : ChangeEvent) (ch : channels) conn q q' m :
  ch !! conn = Some q →
  foldl (λ ch s, try_send (sub_sender s) {| msg_subscription_id := sub_id s; msg_event := e |} ch)
    ch l !! conn = Some q' →
  m ∈ q' → m ∈ q ∨ (msg_event m = e ∧ ∃ s, s ∈ l ∧ sub_sender s = conn ∧ sub_id s = msg_subscription_id m).
Proof.
  revert ch q. induction l as [|s l IH]; intros ch q Hq Hq' Hm; cbn in Hq'; [simplify_eq; by left|].
  set (m0 := {| msg_subscription_id := sub_id s; msg_event := e |}) in *.
  assert (∃ q1, try_send (sub_sender s) m0 ch !! conn = Some q1
    ∧ (q1 = q ∨ (q1 = q ++ [m0] ∧ sub_sender s = conn))) as (q1 & Hq1 & Hcase).
  { unfold try_send. destruct (ch !! sub_sender s) as [q0|] eqn:E; [|by eauto].
    destruct (length q0 <? channel_capacity); [|by eauto].
    destruct (decide (sub_sender s = conn)) as [<-|Hne].
    - rewrite lookup_insert_eq. simplify_eq. eauto.
    - rewrite lookup_insert_ne by done. eauto. }
  destruct (IH _ _ Hq1 Hq' Hm) as [Hin|(He & s' & Hs' & Hsd & Hid)].
  - destruct Hcase as [->|[-> Hs]]; [by left|]. apply elem_of_app in Hin as [?|Hin]; [by left|].
    apply list_elem_of_singleton in Hin as ->. right. split; [done|]. exists s. by split; [left|].
  - right. split; [done|]. exists s'. by split; [right|].
Qed.

(** C5: a change of a document of an owner-filtered collection (orders, cart,
    notifications, subscriptions, return requests, chat messages and threads,
    seller profiles, warehouses) is delivered only to sessions authenticated as
    one of the users the document names as its owners, in every reachable state
    of the server. *)
Theorem delivery_owner_only st e os conn q q' m :
  rtc server_step new_server st → owners (ev_collection e) (ev_data e) = Some os →
  outbox st !! conn = Some q → dispatch (registry st) e (outbox st) !! conn = Some q' →
  m ∈ q' → m ∉ q →
  ∃ u, sessions st !! conn = Some u ∧ Some u ∈ os.
Proof.
  intros Hinv%server_reachable Ho Hq Hq' Hm Hn.
  destruct (dispatch_added _ _ _ _ _ _ _ Hq Hq' Hm) as [?|(_ & s & Hs & <- & _)]; [done|].
  apply elem_of_recipients in Hs as ((id & Hl) & _ & Hp). rewrite Ho in Hp.
  destruct (inv_subscription _ Hinv _ _ Hl) as (_ & _ & (u & Hu & Hsess) & _).
  exists u. split; [done|]. unfold passes in Hp. rewrite Hu in Hp.
  apply existsb_exists in Hp as (o & Hin & He). bools. subst o. by apply list_elem_of_In.
Qed.
End server_properties.

(** ** What the components do not guarantee *)
Section gaps.
Context `{C : Chrono} `{T : SerdeText}.
Implicit Types r : SubscriptionRegistry.

(** Subscription ids are chosen by clients and shared by all of them:
    reusing an active id for another collection leaves the old index entry, so
    the lookup for the first collection returns a subscription to the second. *)
Theorem reused_id_crosses_collections conn conn' s s' r :
  sub_id s' = sub_id s → sub_key s' ≠ sub_key s →
  s' ∈ find_affected (sub_collection s) (sub_filter_hash s) (subscribe conn' s' (subscribe conn s r)).
Proof.
  intros Hid Hk. unfold find_affected. cbn.
  change (sub_collection s, sub_filter_hash s) with (sub_key s).
  rewrite lookup_insert_ne, lookup_insert_eq by done. apply list_elem_of_omap.
  exists (sub_id s). split; [apply elem_of_elements; set_solver|].
  rewrite Hid. apply lookup_insert_eq.
Qed.

(** A client can end any other client's subscription: [Unsubscribe] acts
    on the id it is given, whoever subscribed under it. *)
Theorem unsubscribe_any_owner user conn now id r s :
  subscriptions r !! id = Some s → sub_user_id s ≠ Some user →
  subscriptions (handle_message user conn now (Unsubscribe id) r).1 !! id = None.
Proof.
  intros _ _. cbn. rewrite unsubscribe_subscriptions. apply lookup_delete_eq.
Qed.

Lemma connection_count_unsubscribe conn id r :
  connection_subscription_count conn (unsubscribe id r) = connection_subscription_count conn r.
Proof. unfold connection_subscription_count. by rewrite unsubscribe_connections. Qed.

(** The subscription limit counts the subscriptions a connection has ever
    made: no message lowers the count, unsubscribing included, so a client that
    has subscribed and unsubscribed a hundred times is refused for good. *)
Theorem subscription_count_never_falls user conn conn' now m r :
  connection_subscription_count conn' r
  ≤ connection_subscription_count conn' (handle_message user conn now m r).1.
Proof.
  destruct m as [id c h d|id|metadata|]; cbn [handle_message]; cbv zeta.
  - destruct (negb _); [done|]. destruct (MAX_SUBS_PER_CONNECTION <=? _); [done|].
    unfold connection_subscription_count. cbn. destruct (decide (conn' = conn)) as [->|Hne].
    + rewrite lookup_insert_eq. cbn. destruct (connections r !! conn) as [X|]; cbn; [|lia].
      apply subseteq_size. set_solver.
    + by rewrite lookup_insert_ne.
  - cbn [fst]. by rewrite connection_count_unsubscribe.
  - by destruct (4096 <? _).
  - done.
Qed.

Lemma subscribed_recipient user conn now id c h d r e :
  c ∈ ALLOWED_COLLECTIONS → connection_subscription_count conn r < MAX_SUBS_PER_CONNECTION →
  ev_collection e = c →
  owners c (ev_data e) = None ∨ (∃ os, owners c (ev_data e) = Some os ∧ Some user ∈ os) →
  {| sub_id := id; sub_collection := c; sub_filter_hash := h; sub_document_id := d;
     sub_user_id := Some user; sub_sender := conn |}
  ∈ recipients (handle_message user conn now (Subscribe id c h d) r).1 e.
Proof.
  intros Hc Hlt He Ho. apply elem_of_recipients. split.
  - exists id. cbn [handle_message].
    assert (existsb (str_eqb c) ALLOWED_COLLECTIONS = true) as ->.
    { apply existsb_exists. exists c. split; [by apply list_elem_of_In|apply str_eqb_refl]. }
    cbn [negb]. rewrite (proj2 (Nat.leb_gt _ _) Hlt). apply lookup_insert_eq.
  - rewrite He. split; [done|]. destruct Ho as [->|(os & -> & Hin)]; [done|]. cbn.
    unfold passes. cbn. apply existsb_exists. exists (Some user).
    split; [by apply list_elem_of_In|]. by apply bool_decide_eq_true.
Qed.

(** Collections of per-user documents that may be subscribed to and that the
    dispatcher does not filter. *)
Definition unfiltered_private : list string := ["users__cart"; "favorites"; "users__notifications"].

(** The dispatcher and the shipped policy disagree: for three per-user
    collections, rules.ob refuses to let a user read another user's document, yet
    any user who subscribes to the collection is sent every change of it. *)
Theorem private_changes_leak collection user owner ctx m conn id now r e :
  collection ∈ unfiltered_private → user ≠ owner →
  user_id ctx = Some user → resource ctx = Some (VObject m) →
  assoc_get "userId" m = Some (VString owner) →
  assoc_get "ownerId" m = None → assoc_get "uid" m = None →
  connection_subscription_count conn r < MAX_SUBS_PER_CONNECTION →
  ev_collection e = collection → ev_data e = VObject m →
  check rules_ob_engine collection "read" ctx ≠ Ok true
  ∧ ∃ s, sub_user_id s = Some user ∧ sub_sender s = conn
      ∧ s ∈ recipients (handle_message user conn now (Subscribe id collection 0 None) r).1 e.
Proof.
  intros Hc Hne Hu Hres Huid Hoid Hud Hlt He Hd. split.
  - intros Hgrant.
    destruct (private_owner_only _ rules_ob_checks collection "read" ctx) as (_ & (f & Hf & Hown) & _);
      [|by left|done|].
    { unfold unfiltered_private in Hc. rewrite !elem_of_cons in Hc.
      destruct Hc as [->|[->|[->|[]%not_elem_of_nil]]];
        apply (bool_decide_unpack _); by vm_compute. }
    clear Hgrant. destruct Hown as (uid & doc & Hu' & Hres' & Hpath). simplify_eq.
    unfold owner_fields in Hf. rewrite !elem_of_cons in Hf.
    destruct Hf as [->|[->|[->|[]%not_elem_of_nil]]];
      rewrite split_on_no_sep in Hpath by done; cbn in Hpath;
      rewrite ?Huid, ?Hoid, ?Hud in Hpath; by simplify_eq.
  - eexists. split_and!; [| |apply subscribed_recipient; [|done..|]]; [done..| |].
    + unfold unfiltered_private in Hc. rewrite !elem_of_cons in Hc.
      destruct Hc as [->|[->|[->|[]%not_elem_of_nil]]];
        apply (bool_decide_unpack _); by vm_compute.
    + left. unfold unfiltered_private in Hc. rewrite !elem_of_cons in Hc.
      destruct Hc as [->|[->|[->|[]%not_elem_of_nil]]]; done.
Qed.

(** A subscription to one document is sent the changes of every document
    of its collection: the dispatcher does not look at the document id the
    subscription names. *)
Theorem document_subscription_not_filtered user conn now id d h r e :
  connection_subscription_count conn r < MAX_SUBS_PER_CONNECTION →
  ev_collection e = "products" → ev_document_id e ≠ d →
  ∃ s, sub_document_id s = Some d
    ∧ s ∈ recipients (handle_message user conn now (Subscribe id "products" h (Some d)) r).1 e.
Proof.
  intros Hlt He _. eexists. split; [|apply subscribed_recipient; [left|done..|by left]]. done.
Qed.
End gaps.

(** ** Witnesses *)
Section realtime_witnesses.
#[local] Instance demo_rt_chrono : Chrono := plain_chrono.
#[local] Instance demo_rt_text : SerdeText := plain_text.

Definition order_sub (conn user : string) : Subscription :=
  {| sub_id := "s1"; sub_collection := "orders"; sub_filter_hash := 0; sub_document_id := None;
     sub_user_id := Some user; sub_sender := conn |}.
Definition product_sub (conn user : string) : Subscription :=
  {| sub_id := "s1"; sub_collection := "products"; sub_filter_hash := 0; sub_document_id := None;
     sub_user_id := Some user; sub_sender := conn |}.

Lemma find_affected_exact_witness :
  let r := subscribe "c1" (order_sub "c1" "u1") new_registry in
  NoDup (sub_id <$> find_affected "orders" 0 r)
  ∧ ∀ s, s ∈ find_affected "orders" 0 r ↔
      subscriptions r !! sub_id s = Some s ∧ sub_collection s = "orders" ∧ sub_filter_hash s = 0%N.
Proof.
  intros r. apply find_affected_exact. eapply rtc_once. by apply reg_subscribe.
Defined.

Lemma reused_id_crosses_collections_witness :
  order_sub "c2" "u2" ∈ find_affected "products" 0
    (subscribe "c2" (order_sub "c2" "u2") (subscribe "c1" (product_sub "c1" "u1") new_registry)).
Proof.
  by apply (reused_id_crosses_collections "c1" "c2" (product_sub "c1" "u1") (order_sub "c2" "u2")).
Defined.

Definition one_session : server :=
  {| registry := subscribe "c1" (order_sub "c1" "u1") new_registry;
     connection_counts := {[ "u1" := 1 ]}; sessions := {[ "c1" := "u1" ]};
     outbox := {[ "c1" := [] ]} |}.

Lemma one_session_reachable : rtc server_step new_server one_session.
Proof.
  eapply rtc_l; [by apply (step_open new_server "u1" "c1")|].
  eapply rtc_l; [|apply rtc_refl].
  by apply (step_message (open_session "u1" "c1" new_server) "u1" "c1" 0
    (Subscribe "s1" "orders" 0 None) _ (Subscribed "s1")).
Qed.

Lemma server_invariant_witness :
  (∀ user, default 0 (connection_counts one_session !! user) = open_sessions user one_session
     ∧ open_sessions user one_session ≤ MAX_CONNECTIONS_PER_USER)
  ∧ (∀ conn, connection_subscription_count conn (registry one_session) ≤ MAX_SUBS_PER_CONNECTION)
  ∧ (∀ id s, subscriptions (registry one_session) !! id = Some s →
       sub_collection s ∈ ALLOWED_COLLECTIONS
       ∧ ∃ u, sub_user_id s = Some u ∧ sessions one_session !! sub_sender s = Some u).
Proof. exact (server_invariant one_session one_session_reachable). Defined.

Definition order_event (collection : string) (data : Value) : ChangeEvent :=
  emit_change Update collection "d1" data 7.

Lemma delivery_owner_only_witness :
  ∃ u, sessions one_session !! "c1" = Some u ∧ Some u ∈ [Some "u1"; Some "u9"].
Proof.
  apply (delivery_owner_only one_session
    (order_event "orders" (VObject [("buyerId", VString "u1"); ("sellerId", VString "u9")]))
    [Some "u1"; Some "u9"] "c1" []
    [{| msg_subscription_id := "s1"; msg_event :=
       order_event "orders" (VObject [("buyerId", VString "u1"); ("sellerId", VString "u9")]) |}]
    {| msg_subscription_id := "s1"; msg_event :=
       order_event "orders" (VObject [("buyerId", VString "u1"); ("sellerId", VString "u9")]) |}
    one_session_reachable); [done|done|by vm_compute|left|by intros ?%not_elem_of_nil].
Defined.

Lemma unsubscribe_any_owner_witness :
  subscriptions (handle_message "u2" "c2" 0 (Unsubscribe "s1") (registry one_session)).1 !! "s1" = None.
Proof. by apply (unsubscribe_any_owner "u2" "c2" 0 "s1" _ (order_sub "c1" "u1")). Defined.

Definition victim_cart : list (string * Value) := [("sku", VString "shoe"); ("userId", VString "u1")].

Lemma private_changes_leak_witness :
  let ctx := {| user_id := Some "u2"; roles := []; authenticated := true;
                resource := Some (VObject victim_cart); incoming := None |} in
  check rules_ob_engine "users__cart" "read" ctx ≠ Ok true
  ∧ ∃ s, sub_user_id s = Some "u2" ∧ sub_sender s = "c2"
      ∧ s ∈ recipients (handle_message "u2" "c2" 0 (Subscribe "s2" "users__cart" 0 None)
            new_registry).1 (order_event "users__cart" (VObject victim_cart)).
Proof.
  intros ctx.
  apply (private_changes_leak "users__cart" "u2" "u1" ctx victim_cart);
    first [left | reflexivity | discriminate | apply Nat.ltb_lt; reflexivity].
Defined.

Lemma document_subscription_not_filtered_witness :
  ∃ s, sub_document_id s = Some "p1"
    ∧ s ∈ recipients (handle_message "u1" "c1" 0 (Subscribe "s1" "products" 0 (Some "p1"))
          new_registry).1 (order_event "products" VNull).
Proof.
  apply document_subscription_not_filtered; [|done|done]. apply Nat.ltb_lt. reflexivity.
Defined.
End realtime_witnesses.
