(* ===== verification/Storage.v ===== *)
(** * File storage

    Signed URLs, the sanitising of paths, the local backend and resumable
    uploads (crates/ob-storage/src/signed_url.rs, local.rs, resumable.rs).

    The file system is a map from paths to contents; directories are implicit
    and the file operations the code ignores the errors of succeed.  HMAC and
    base64 are parameters with the laws the code relies on. *)

From S2P Require Export Clock.

(** ** signed_url.rs *)

(** HMAC-SHA256 (key, message) and unpadded URL-safe base64. *)
Class Crypto := {
  hmac_sha256 : string → string → string;
  b64_encode : string → string;
  b64_decode : string → option string;
}.
Class CryptoLaws (C : Crypto) : Prop := {
  b64_decode_encode x : b64_decode (b64_encode x) = Some x;
}.

Record SignedUrlGenerator : Type := { secret : string; base_url : string }.

Section signed_url.
Context `{K : Crypto}.

Definition new_generator (secret base_url : string) : SignedUrlGenerator :=
  {| secret := secret; base_url := trim_end "/" base_url |}.

(** [chrono::Utc::now().timestamp() as u64 + ttl_secs], wrapping. *)
Definition expiry (now : Z) (ttl_secs : N) : N :=
  Z.to_N (wrap_unsigned 64 (wrap_unsigned 64 now + Z.of_N ttl_secs)).

Definition signed_message (method path : string) (expires : N) : string :=
  method +:+ ":" +:+ path +:+ ":" +:+ pretty expires.

Definition compute_signature (g : SignedUrlGenerator) (message : string) : Result string :=
  Ok (b64_encode (hmac_sha256 (secret g) message)).

Definition sign_download (g : SignedUrlGenerator) (path : string) (ttl_secs : N) (now : Z) :
    Result string :=
  let expires := expiry now ttl_secs in
  signature ← compute_signature g (signed_message "GET" path expires);
  Ok (base_url g +:+ "/storage/download/" +:+ path +:+ "?expires=" +:+ pretty expires
      +:+ "&sig=" +:+ signature).

Definition sign_upload (g : SignedUrlGenerator) (path : string) (ttl_secs : N) (now : Z) :
    Result string :=
  let expires := expiry now ttl_secs in
  signature ← compute_signature g (signed_message "PUT" path expires);
  Ok (base_url g +:+ "/storage/upload/" +:+ path +:+ "?expires=" +:+ pretty expires
      +:+ "&sig=" +:+ signature).

(** [mac.verify_slice]: the tag equals the given bytes. *)
Definition verify (g : SignedUrlGenerator) (method path : string) (expires : N)
    (signature : string) (now : Z) : Result bool :=
  if (expires <? Z.to_N (wrap_unsigned 64 now))%N then Err (Auth "Signed URL has expired")
  else
    match b64_decode signature with
    | None => Err (Auth "Invalid signature encoding")
    | Some sig_bytes =>
        Ok (hmac_sha256 (secret g) (signed_message method path expires) =s? sig_bytes)
    end.
End signed_url.

(** ** Paths *)

(** The loop that removes [..] until nothing changes; every round shortens
    the text, so its length is enough fuel. *)
Fixpoint remove_dotdot (fuel : nat) (s : string) : string :=
  match fuel with
  | O => s
  | S fuel =>
      let next := str_replace ".." "" s in
      if next =s? s then s else remove_dotdot fuel next
  end.

Definition sanitized (path : string) : string :=
  let s := replace_char BACKSLASH "/" path in
  trim_start "/" (remove_dotdot (String.length s) s).

Definition sanitize_path (path : string) : Result string :=
  if str_empty (sanitized path) then Err (Validation "Path cannot be empty")
  else Ok (sanitized path).

(** [Path::join]: an absolute path replaces the base. *)
Definition path_join (base p : string) : string :=
  if starts_with "/" p then p
  else if str_empty base then p
  else if ends_with "/" base then base +:+ p
  else base +:+ "/" +:+ p.

(** ** local.rs *)

Abbreviation files := (gmap string string).

(** What the code asks the operating system: whether a path exists, its
    canonical form (symbolic links resolved), and the texts of errors. *)
Class Os := {
  os_exists : files → string → bool;
  os_canonicalize : files → string → option string;
  os_not_found : string → string;
}.

(** [Path::starts_with] compares whole components. *)
Definition path_starts_with (base p : string) : bool :=
  bool_decide (prefix (split_on "/" base) (split_on "/" p)).

(** [Path::extension] of the last component. *)
Definition file_name (path : string) : string :=
  default "" (last (filter (λ c, c ≠ "" ∧ c ≠ ".") (split_on "/" path))).
Definition extension (path : string) : string :=
  let name := file_name path in
  if name =s? ".." then ""
  else match split_on "." name with
       | [] | [_] => ""
       | "" :: [_] => ""
       | parts => default "" (last parts)
       end.

Definition guess_content_type (path : string) : string :=
  let ext := extension path in
  if existsb (str_eqb ext) ["jpg"; "jpeg"] then "image/jpeg"
  else if ext =s? "png" then "image/png"
  else if ext =s? "gif" then "image/gif"
  else if ext =s? "webp" then "image/webp"
  else if ext =s? "svg" then "image/svg+xml"
  else if ext =s? "pdf" then "application/pdf"
  else if ext =s? "json" then "application/json"
  else if ext =s? "html" then "text/html"
  else if ext =s? "css" then "text/css"
  else if ext =s? "js" then "application/javascript"
  else if ext =s? "txt" then "text/plain"
  else if ext =s? "mp4" then "video/mp4"
  else if ext =s? "mp3" then "audio/mpeg"
  else if ext =s? "zip" then "application/zip"
  else "application/octet-stream".

Record ObjectMeta : Type := {
  om_path : string;
  om_size : N;
  om_content_type : string;
  om_created_at : string;
  om_updated_at : string;
}.

Section local.
Context `{C : Chrono} `{O : Os} (root : string).

Definition full_path (fs : files) (path : string) : Result string :=
  let full := path_join root (sanitized path) in
  if os_exists fs full then
    match os_canonicalize fs full with
    | Some canonical =>
        if negb (path_starts_with root canonical) then Err (Forbidden "Path traversal detected")
        else Ok canonical
    | None => Ok full
    end
  else Ok full.

Definition object_meta (path : string) (size : N) (content_type : string) (now : Z) : ObjectMeta :=
  {| om_path := path; om_size := size; om_content_type := content_type;
     om_created_at := to_rfc3339 now; om_updated_at := to_rfc3339 now |}.

Definition upload (path data content_type : string) (now : Z) (fs : files) :
    files * Result ObjectMeta :=
  match full_path fs path with
  | Ok full => (<[full := data]> fs,
      Ok (object_meta path (N.of_nat (String.length data)) content_type now))
  | Err e => (fs, Err e)
  | Panic => (fs, Panic)
  end.

Definition not_found_error (full : string) : Error :=
  NotFound ("File not found: " +:+ os_not_found full).

Definition download (path : string) (fs : files) : Result string :=
  full ← full_path fs path;
  ok_or (not_found_error full) (fs !! full).

Definition delete_file (path : string) (fs : files) : files * Result unit :=
  match full_path fs path with
  | Ok full =>
      match fs !! full with
      | Some _ => (delete full fs, Ok tt)
      | None => (fs, Err (not_found_error full))
      end
  | Err e => (fs, Err e)
  | Panic => (fs, Panic)
  end.

Definition exists_file (path : string) (fs : files) : Result bool :=
  full ← full_path fs path;
  Ok (os_exists fs full).

Definition metadata (path : string) (now : Z) (fs : files) : Result ObjectMeta :=
  full ← full_path fs path;
  data ← ok_or (not_found_error full) (fs !! full);
  Ok (object_meta path (N.of_nat (String.length data)) (guess_content_type path) now).
End local.

(** ** resumable.rs *)

Definition MAX_FILE_SIZE : N := 500 * 1024 * 1024.
Definition MAX_ACTIVE_SESSIONS : nat := 100.
Definition MAX_SESSIONS_PER_USER : nat := 10.
Definition SESSION_TTL_SECS : Z := 24 * 3600.

Inductive UploadStatus : Type := InProgress | Complete | Cancelled.
Global Instance UploadStatus_eq_dec : EqDecision UploadStatus.
Proof. solve_decision. Defined.
Definition status_debug (s : UploadStatus) : string :=
  match s with InProgress => "InProgress" | Complete => "Complete" | Cancelled => "Cancelled" end.

(** The creation time is kept as the instant its text denotes. *)
Record UploadSession : Type := {
  us_id : string;
  us_path : string;
  us_content_type : string;
  us_total_size : N;
  us_bytes_received : N;
  us_created_at : Z;
  us_status : UploadStatus;
  us_owner : string;
}.

(** The manager's sessions and the file system its chunk files are in. *)
Record uploads : Type := {
  up_sessions : gmap string UploadSession;
  up_files : files;
}.

Section resumable.
Context `{O : Os} (chunks_dir : string).

Definition chunk_path (session_id : string) : string := path_join chunks_dir session_id.

(** [(now - created).num_seconds() > SESSION_TTL_SECS]. *)
Definition expired (now : Z) (s : UploadSession) : bool :=
  (SESSION_TTL_SECS <? Z.quot (now - us_created_at s) micros_per_sec)%Z.
Definition reap_expired (now : Z) (st : uploads) : uploads :=
  let gone := (filter (λ kv : string * UploadSession, expired now kv.2 = true)
                 (map_to_list (up_sessions st))).*1 in
  {| up_sessions := foldl (λ m id, delete id m) (up_sessions st) gone;
     up_files := foldl (λ fs id, delete (chunk_path id) fs) (up_files st) gone |}.

(** Files of the directory that no session names. *)
Definition cleanup_orphaned_files (entries : list string) (st : uploads) : uploads :=
  {| up_sessions := up_sessions st;
     up_files := foldl (λ fs name,
       if bool_decide (is_Some (up_sessions st !! name)) then fs
       else delete (chunk_path name) fs) (up_files st) entries |}.

(** [entries]: the plain files [read_dir] finds in the directory. *)
Definition new_manager (entries : list string) (fs : files) : uploads :=
  cleanup_orphaned_files entries {| up_sessions := ∅; up_files := fs |}.

Definition user_sessions (owner : string) (st : uploads) : nat :=
  size (filter (λ kv : string * UploadSession,
    us_owner kv.2 = owner ∧ us_status kv.2 = InProgress) (up_sessions st)).

Definition create_session (path content_type : string) (total_size : N) (owner id : string)
    (now : Z) (st : uploads) : uploads * Result UploadSession :=
  if (total_size =? 0)%N then (st, Err (Validation "total_size must be > 0"))
  else if (MAX_FILE_SIZE <? total_size)%N then
    (st, Err (Validation ("total_size exceeds maximum of " +:+ pretty MAX_FILE_SIZE +:+ " bytes")))
  else
    let st := reap_expired now st in
    if MAX_ACTIVE_SESSIONS <=? size (up_sessions st) then
      (st, Err (Validation "Too many active upload sessions. Try again later."))
    else if MAX_SESSIONS_PER_USER <=? user_sessions owner st then
      (st, Err (Validation ("Too many active sessions for this user (max "
                            +:+ pretty MAX_SESSIONS_PER_USER +:+ ")")))
    else match sanitize_path path with
    | Err e => (st, Err e)
    | Panic => (st, Panic)
    | Ok sanitized_path =>
        let session :=
          {| us_id := id; us_path := sanitized_path; us_content_type := content_type;
             us_total_size := total_size; us_bytes_received := 0; us_created_at := now;
             us_status := InProgress; us_owner := owner |} in
        ({| up_sessions := <[id := session]> (up_sessions st); up_files := up_files st |},
         Ok session)
    end.

Definition session_not_found (session_id : string) : Error :=
  NotFound ("Upload session not found: " +:+ session_id).

(** The part of [append_chunk] before the file is opened: the copy of the
    session it goes on with. *)
Definition append_check (session_id : string) (offset : N) (data owner : string) (st : uploads) :
    Result UploadSession :=
  match up_sessions st !! session_id with
  | None => Err (session_not_found session_id)
  | Some session =>
      if str_empty (us_owner session) then Err (Auth "Upload requires authenticated user")
      else if negb (us_owner session =s? owner) then
        Err (Auth "Not authorized for this upload session")
      else if negb (bool_decide (us_status session = InProgress)) then
        Err (Validation ("Session is " +:+ status_debug (us_status session) +:+ ", not in progress"))
      else if negb (offset =? us_bytes_received session)%N then
        Err (Validation ("Expected offset " +:+ pretty (us_bytes_received session)
                         +:+ ", got " +:+ pretty offset))
      else if (us_total_size session <? us_bytes_received session + N.of_nat (String.length data))%N
      then Err (Validation "Chunk exceeds total_size")
      else Ok session
  end.

(** The rest: the chunk is appended to the file, then the copy is updated and
    stored. *)
Definition advanced (data : string) (session : UploadSession) : UploadSession :=
  let received := (us_bytes_received session + N.of_nat (String.length data))%N in
  {| us_id := us_id session; us_path := us_path session;
     us_content_type := us_content_type session; us_total_size := us_total_size session;
     us_bytes_received := received; us_created_at := us_created_at session;
     us_status := if (received =? us_total_size session)%N then Complete else us_status session;
     us_owner := us_owner session |}.
Definition append_write (session_id : string) (data : string) (session : UploadSession)
    (st : uploads) : uploads :=
  {| up_sessions := <[session_id := advanced data session]> (up_sessions st);
     up_files := <[chunk_path session_id :=
       default "" (up_files st !! chunk_path session_id) +:+ data]> (up_files st) |}.

Definition append_chunk (session_id : string) (offset : N) (data owner : string) (st : uploads) :
    uploads * Result UploadSession :=
  match append_check session_id offset data owner st with
  | Ok session => (append_write session_id data session st, Ok (advanced data session))
  | Err e => (st, Err e)
  | Panic => (st, Panic)
  end.

Definition finalize (session_id : string) (st : uploads) : uploads * Result (string * UploadSession) :=
  match up_sessions st !! session_id with
  | None => (st, Err (session_not_found session_id))
  | Some session =>
      if negb (bool_decide (us_status session = Complete)) then
        (st, Err (Validation "Upload not complete, cannot finalize"))
      else
        match up_files st !! chunk_path session_id with
        | None => (st, Err (Internal
            ("Failed to read assembled file: " +:+ os_not_found (chunk_path session_id))))
        | Some data =>
            ({| up_sessions := delete session_id (up_sessions st);
                up_files := delete (chunk_path session_id) (up_files st) |},
             Ok (data, session))
        end
  end.

Definition get_session (session_id owner : string) (st : uploads) : Result UploadSession :=
  match up_sessions st !! session_id with
  | None => Err (session_not_found session_id)
  | Some session =>
      if negb (str_empty (us_owner session)) && negb (us_owner session =s? owner) then
        Err (Auth "Not authorized for this upload session")
      else Ok session
  end.

Definition cancel (session_id owner : string) (st : uploads) : uploads * Result unit :=
  match up_sessions st !! session_id with
  | Some session =>
      if negb (str_empty (us_owner session)) && negb (us_owner session =s? owner) then
        (st, Err (Auth "Not authorized for this upload session"))
      else
        ({| up_sessions := delete session_id (up_sessions st);
            up_files := delete (chunk_path session_id) (up_files st) |}, Ok tt)
  | None =>
      ({| up_sessions := up_sessions st;
          up_files := delete (chunk_path session_id) (up_files st) |}, Ok tt)
  end.
End resumable.

(** ** Signed URLs *)
Section signed_url_properties.
Context `{K : Crypto}.

Definition no_colon (s : string) : Prop := str_exists (Ascii.eqb ":") s = false.

Lemma first_colon_inj a b a' b' :
  no_colon a → no_colon a' → a +:+ String ":" b = a' +:+ String ":" b' → a = a' ∧ b = b'.
Proof.
  unfold no_colon. revert a'. induction a as [|c a IH]; intros [|c' a'] Ha Ha' Heq; cbn in Ha, Ha'.
  - rewrite !str_app_nil_l in Heq. by simplify_eq.
  - rewrite str_app_nil_l, str_app_cons in Heq. injection Heq as <- _. done.
  - rewrite str_app_nil_l, str_app_cons in Heq. injection Heq as -> _. done.
  - bools. rewrite !str_app_cons in Heq. injection Heq as -> Heq.
    destruct (IH a') as [-> ->]; done.
Qed.

Lemma last_colon_inj p d p' d' :
  no_colon d → no_colon d' → p +:+ String ":" d = p' +:+ String ":" d' → p = p' ∧ d = d'.
Proof.
  intros Hd Hd'. revert p'. induction p as [|c p IH]; intros [|c' p'] Heq.
  - rewrite !str_app_nil_l in Heq. by simplify_eq.
  - rewrite str_app_nil_l, str_app_cons in Heq. injection Heq as _ ->.
    unfold no_colon in Hd. rewrite str_exists_app in Hd. apply orb_false_iff in Hd as [_ Hd]. done.
  - rewrite str_app_nil_l, str_app_cons in Heq. injection Heq as _ <-.
    unfold no_colon in Hd'. rewrite str_exists_app in Hd'. apply orb_false_iff in Hd' as [_ ?]. done.
  - rewrite !str_app_cons in Heq. injection Heq as -> Heq. destruct (IH p') as [-> ->]; done.
Qed.

Lemma digits_no_colon s : str_forall is_digit s = true → no_colon s.
Proof. intros H. by eapply char_free. Qed.

Lemma signed_message_inj m p e m' p' e' :
  no_colon m → no_colon m' → signed_message m p e = signed_message m' p' e' →
  m = m' ∧ p = p' ∧ e = e'.
Proof.
  unfold signed_message. intros Hm Hm' Heq.
  change (m +:+ ":" +:+ p +:+ ":" +:+ pretty e) with (m +:+ String ":" (p +:+ String ":" (pretty e))) in Heq.
  change (m' +:+ ":" +:+ p' +:+ ":" +:+ pretty e')
    with (m' +:+ String ":" (p' +:+ String ":" (pretty e'))) in Heq.
  apply first_colon_inj in Heq as [-> Heq]; [|done..].
  apply last_colon_inj in Heq as [-> Heq]; [|apply digits_no_colon, pretty_N_digits..].
  apply (inj pretty) in Heq. done.
Qed.

(** A signature is good for the method, the path and the expiry time it
    was made for and for nothing else: if it verifies for others, two different
    messages have the same HMAC. *)
Theorem signature_not_transferable g m p e m' p' e' sig now :
  no_colon m → no_colon m' →
  CryptoLaws K → compute_signature g (signed_message m p e) = Ok sig →
  verify g m' p' e' sig now = Ok true →
  (m = m' ∧ p = p' ∧ e = e')
  ∨ ∃ msg msg', msg ≠ msg' ∧ hmac_sha256 (secret g) msg = hmac_sha256 (secret g) msg'.
Proof.
  intros Hm Hm' HK [= <-] Hv. unfold verify in Hv. rewrite b64_decode_encode in Hv.
  destruct (_ <? _)%N in Hv; [done|]. injection Hv as Hv. bools.
  destruct (decide (signed_message m p e = signed_message m' p' e')) as [Heq|Hne].
  - left. by apply signed_message_inj.
  - right. by exists (signed_message m p e), (signed_message m' p' e').
Qed.

(** A signed download URL carries a signature that verifies for that path
    until the expiry time it carries, inclusive, and is refused as expired from
    then on. *)
Theorem sign_download_verifies g path ttl now now' :
  CryptoLaws K → (0 ≤ now' < 2 ^ 63)%Z →
  ∃ sig, sign_download g path ttl now
         = Ok (base_url g +:+ "/storage/download/" +:+ path +:+ "?expires="
               +:+ pretty (expiry now ttl) +:+ "&sig=" +:+ sig)
    ∧ verify g "GET" path (expiry now ttl) sig now'
      = (if (Z.of_N (expiry now ttl) <? now')%Z then Err (Auth "Signed URL has expired") else Ok true).
Proof.
  intros HK Hnow. eexists. split; [done|]. unfold verify. rewrite b64_decode_encode, str_eqb_refl.
  unfold wrap_unsigned. rewrite Z.mod_small by lia.
  destruct (Z.of_N (expiry now ttl) <? now')%Z eqn:E.
  - apply Z.ltb_lt in E. by rewrite (proj2 (N.ltb_lt _ _)) by lia.
  - apply Z.ltb_ge in E. by rewrite (proj2 (N.ltb_ge _ _)) by lia.
Qed.
End signed_url_properties.

(** ** Sanitised paths *)
Section path_properties.
Implicit Types s p : string.

Lemma contains_suffix pat c s : str_contains pat (String c s) = false → str_contains pat s = false.
Proof. cbn. intros. by bools. Qed.

Lemma contains_app pat a b : str_contains pat (a +:+ pat +:+ b) = true.
Proof.
  induction a as [|c a IH].
  - rewrite str_app_nil_l. destruct (pat +:+ b) eqn:E; cbn; rewrite <- E, starts_with_app; done.
  - rewrite str_app_cons. cbn. by rewrite IH, orb_true_r.
Qed.

Lemma replace_go_nop pat r s : pat ≠ "" → str_contains pat s = false → replace_go pat r 0 s = s.
Proof.
  intros Hp. induction s as [|c s IH]; [done|]. cbn. intros. bools.
  rewrite H. by rewrite IH.
Qed.

Lemma replace_go_shorter pat k s :
  String.length (replace_go pat "" k s) ≤ String.length s.
Proof.
  revert k. induction s as [|c s IH]; intros k; [done|].
  cbn [replace_go String.length]. destruct k as [|k].
  - destruct (starts_with pat (String c s)).
    + rewrite str_app_nil_l. pose proof (IH (String.length pat - 1)). lia.
    + cbn [String.length]. pose proof (IH 0). lia.
  - pose proof (IH k). lia.
Qed.

Lemma replace_go_strictly pat s :
  pat ≠ "" → str_contains pat s = true →
  String.length (replace_go pat "" 0 s) < String.length s.
Proof.
  intros Hp. induction s as [|c s IH]; [by destruct pat|].
  cbn [str_contains replace_go String.length].
  destruct (starts_with pat (String c s)); cbn [orb].
  - intros _. rewrite str_app_nil_l. pose proof (replace_go_shorter pat (String.length pat - 1) s). lia.
  - intros H. cbn [String.length]. specialize (IH H). lia.
Qed.

(** The loop ends within its fuel with nothing left to remove. *)
Lemma remove_dotdot_clean fuel s :
  String.length s ≤ fuel → str_contains ".." (remove_dotdot fuel s) = false.
Proof.
  revert s. induction fuel as [|fuel IH]; intros s Hf.
  { destruct s; [done|cbn in Hf; lia]. }
  cbn [remove_dotdot]. cbv zeta. unfold str_replace.
  destruct (str_contains ".." s) eqn:E.
  - pose proof (replace_go_strictly ".." s ltac:(done) E) as Hlt.
    destruct (replace_go ".." "" 0 s =s? s) eqn:Eq; [bools; rewrite Eq in Hlt; lia|].
    apply IH. lia.
  - rewrite (replace_go_nop ".." "" s) by done. by rewrite str_eqb_refl.
Qed.

Lemma remove_dotdot_id fuel s : str_contains ".." s = false → remove_dotdot fuel s = s.
Proof.
  intros H. destruct fuel as [|fuel]; [done|]. cbn [remove_dotdot]. unfold str_replace.
  rewrite (replace_go_nop ".." "" s) by done. cbv zeta. by rewrite str_eqb_refl.
Qed.

Lemma trim_start_contains pat c s :
  str_contains pat s = false → str_contains pat (trim_start c s) = false.
Proof.
  induction s as [|a s IH]; [done|]. intros H. cbn [trim_start].
  destruct (Ascii.eqb a c); [|done]. apply IH. by eapply contains_suffix.
Qed.

Lemma trim_start_no_lead c s : starts_with (str1 c) (trim_start c s) = false.
Proof.
  induction s as [|a s IH]; [done|]. cbn [trim_start].
  destruct (Ascii.eqb_spec a c) as [->|Hne]; [done|].
  unfold starts_with. cbn. rewrite Ascii.eqb_sym. by rewrite (proj2 (Ascii.eqb_neq _ _) Hne).
Qed.

Lemma sanitized_clean p :
  str_contains ".." (sanitized p) = false ∧ starts_with "/" (sanitized p) = false.
Proof.
  unfold sanitized. cbv zeta. split; [|apply trim_start_no_lead].
  apply trim_start_contains, remove_dotdot_clean. done.
Qed.

Lemma split_on_infix c s w : w ∈ split_on c s → ∃ a b, s = a +:+ w +:+ b.
Proof.
  revert w. induction s as [|x s IH]; intros w; cbn.
  - intros ->%list_elem_of_singleton. by exists "", "".
  - destruct (Ascii.eqb x c).
    + intros [->|Hin]%elem_of_cons; [by exists "", (String x s)|].
      destruct (IH w Hin) as (a & b & ->). by exists (String x a), b.
    + pose proof (split_on_nonempty c s) as Hne. pose proof (join_split_on c s) as Hj.
      destruct (split_on c s) as [|v vs]; [done|]. intros [->|Hin]%elem_of_cons.
      * destruct (IH v) as (a & b & Hs); [left|].
        exists "". destruct vs as [|v2 vs].
        -- exists "". cbn in Hj. subst s. by rewrite str_app_nil_r.
        -- exists (str1 c +:+ join (str1 c) (v2 :: vs)). rewrite str_app_nil_l, str_app_cons.
           f_equal. symmetry. exact Hj.
      * destruct (IH w) as (a & b & ->); [by right|]. by exists (String x a), b.
Qed.

(** Lexical resolution of a path's components on the stack of the directories
    entered so far. *)
Fixpoint resolve (stack comps : list string) : list string :=
  match comps with
  | [] => stack
  | c :: comps =>
      resolve (if (c =s? "") || (c =s? ".") then stack
               else if c =s? ".." then tail stack else c :: stack) comps
  end.

Lemma resolve_below stack comps :
  Forall (λ c, c ≠ "..") comps → ∃ below, resolve stack comps = below ++ stack.
Proof.
  intros H. revert stack. induction H as [|c comps Hc H IH]; intros stack; [by exists []|].
  cbn [resolve]. destruct ((c =s? "") || (c =s? ".")); [apply IH|].
  rewrite (proj2 (bool_decide_eq_false _) Hc : (c =s? "..") = false).
  destruct (IH (c :: stack)) as [b Hb]. exists (b ++ [c]). by rewrite Hb, <- app_assoc.
Qed.

(** C35: no path escapes the root: the sanitised path is relative, so joining it
    stays textually under the root, and resolving its components from any
    directory never climbs out of it; a path that was already clean is
    unchanged. *)
Theorem sanitized_confined root p dirs :
  (∃ below, resolve dirs (split_on "/" (sanitized p)) = below ++ dirs)
  ∧ (root ≠ "" → ends_with "/" root = false →
     path_join root (sanitized p) = root +:+ "/" +:+ sanitized p)
  ∧ (str_exists (Ascii.eqb BACKSLASH) p = false → str_contains ".." p = false →
     starts_with "/" p = false → sanitized p = p).
Proof.
  destruct (sanitized_clean p) as [Hdd Hlead]. split_and!.
  - apply resolve_below, Forall_forall. intros c Hin ->.
    destruct (split_on_infix _ _ _ Hin) as (a & b & Heq).
    by rewrite Heq, contains_app in Hdd.
  - intros Hr He. unfold path_join. rewrite Hlead. destruct root; [done|]. cbn [str_empty]. by rewrite He.
  - intros Hb Hd Hl. unfold sanitized.
    assert (replace_char BACKSLASH "/" p = p) as ->.
    { clear -Hb. induction p as [|c p IH]; [done|]. cbn in Hb. bools. cbn [replace_char].
      rewrite IH by done. by rewrite Ascii.eqb_sym, H. }
    cbv zeta. rewrite remove_dotdot_id by done. destruct p as [|c p]; [done|].
    cbn [trim_start]. unfold starts_with in Hl. cbn in Hl. rewrite Ascii.eqb_sym.
    destruct (Ascii.eqb "/" c); [by destruct p|done].
Qed.
End path_properties.

(** ** Resumable uploads *)
Section upload_properties.
Context `{O : Os} (chunks_dir : string).
Abbreviation chunk_path := (chunk_path chunks_dir).
Implicit Types st : uploads.

(** An id with no [/], such as a UUID. *)
Definition plain_id (id : string) : Prop := str_exists (Ascii.eqb "/") id = false.

Lemma plain_relative id : plain_id id → starts_with "/" id = false.
Proof.
  unfold plain_id. destruct id as [|c id]; [done|]. cbn. intros. bools.
  unfold starts_with. cbn. by rewrite H.
Qed.

Lemma str_app_inj_l a b b' : a +:+ b = a +:+ b' → b = b'.
Proof. induction a as [|c a IH]; [done|]. rewrite !str_app_cons. intros [= ?]. auto. Qed.

Lemma chunk_path_inj id id' : plain_id id → plain_id id' → chunk_path id = chunk_path id' → id = id'.
Proof.
  intros H%plain_relative H'%plain_relative. unfold Storage.chunk_path, path_join. rewrite H, H'.
  destruct (str_empty chunks_dir); [done|].
  destruct (ends_with "/" chunks_dir); intros Heq; by repeat apply str_app_inj_l in Heq.
Qed.

(** What a session promises about its chunk file. *)
Definition session_ok (st : uploads) (id : string) (s : UploadSession) : Prop :=
  plain_id id ∧ us_id s = id ∧ (0 < us_total_size s ≤ MAX_FILE_SIZE)%N
  ∧ (us_bytes_received s ≤ us_total_size s)%N
  ∧ us_status s = (if (us_bytes_received s =? us_total_size s)%N then Complete else InProgress)
  ∧ N.of_nat (String.length (default "" (up_files st !! chunk_path id))) = us_bytes_received s.

Record uploads_inv (st : uploads) : Prop := {
  inv_session id s : up_sessions st !! id = Some s → session_ok st id s;
  inv_active : size (up_sessions st) ≤ MAX_ACTIVE_SESSIONS;
}.

Inductive upload_step : uploads → uploads → Prop :=
| up_create st path ct total owner id now st' r :
    plain_id id → up_sessions st !! id = None → up_files st !! chunk_path id = None →
    create_session chunks_dir path ct total owner id now st = (st', r) → upload_step st st'
| up_append st id offset data owner st' r :
    append_chunk chunks_dir id offset data owner st = (st', r) → upload_step st st'
| up_finalize st id st' r :
    finalize chunks_dir id st = (st', r) → upload_step st st'
| up_cancel st id owner st' r :
    plain_id id → cancel chunks_dir id owner st = (st', r) → upload_step st st'.

Definition no_uploads : uploads := {| up_sessions := ∅; up_files := ∅ |}.

(** Sessions other than those whose file or entry changes keep their promise. *)
Lemma uploads_inv_frame st st' id :
  uploads_inv st → plain_id id →
  (∀ id' s, id' ≠ id → up_sessions st' !! id' = Some s → up_sessions st !! id' = Some s) →
  (∀ path, path ≠ chunk_path id → up_files st' !! path = up_files st !! path) →
  size (up_sessions st') ≤ MAX_ACTIVE_SESSIONS →
  (∀ s, up_sessions st' !! id = Some s → session_ok st' id s) → uploads_inv st'.
Proof.
  intros Hinv Hid Hs Hf Hsz Hnew. split; [|done]. intros id' s Hl.
  destruct (decide (id' = id)) as [->|Hne]; [auto|].
  destruct (inv_session _ Hinv id' s) as (Hp & H2 & [H3 H3'] & H4 & H5 & H6); [auto|].
  split_and!; [done..|]. rewrite Hf; [done|]. intros Heq. by apply chunk_path_inj in Heq.
Qed.

Lemma foldl_delete_lookup {A} (l : list string) (m : gmap string A) k :
  foldl (λ m id, delete id m) m l !! k = if decide (k ∈ l) then None else m !! k.
Proof.
  revert m. induction l as [|x l IH]; intros m; [done|]. cbn [foldl]. rewrite IH.
  destruct (decide (k ∈ l)) as [H|H]; destruct (decide (k ∈ x :: l)) as [H'|H'];
    rewrite elem_of_cons in H'; try done; try tauto.
  - destruct H' as [->|]; [apply lookup_delete_eq|done].
  - rewrite lookup_delete_ne; [done|]. naive_solver.
Qed.

Lemma foldl_delete_map {A} (f : string → string) l (m : gmap string A) :
  foldl (λ m id, delete (f id) m) m l = foldl (λ m id, delete id m) m (f <$> l).
Proof. revert m. induction l as [|x l IH]; intros m; [done|]. cbn. apply IH. Qed.

Lemma reap_expired_sessions now st id :
  up_sessions (reap_expired chunks_dir now st) !! id =
  match up_sessions st !! id with
  | Some s => if expired now s then None else Some s
  | None => None
  end.
Proof.
  cbn. rewrite foldl_delete_lookup. case_decide as H.
  - apply list_elem_of_fmap in H as ([id' s] & -> & [He Hin]%list_elem_of_filter).
    apply elem_of_map_to_list in Hin. cbn in *. by rewrite Hin, He.
  - destruct (up_sessions st !! id) as [s|] eqn:E; [|done].
    destruct (expired now s) eqn:Ee; [|done]. destruct H. apply list_elem_of_fmap.
    exists (id, s). split; [done|]. apply list_elem_of_filter. split; [done|].
    by apply elem_of_map_to_list.
Qed.

Lemma reap_expired_file now st id s :
  uploads_inv st → up_sessions st !! id = Some s → expired now s = false →
  up_files (reap_expired chunks_dir now st) !! chunk_path id = up_files st !! chunk_path id.
Proof.
  intros Hinv Hl He. cbn. rewrite foldl_delete_map, foldl_delete_lookup. case_decide as H; [|done].
  apply list_elem_of_fmap in H as (id' & Heq & Hin).
  apply list_elem_of_fmap in Hin as ([id2 s2] & -> & [He2 Hin]%list_elem_of_filter).
  apply elem_of_map_to_list in Hin. cbn in *.
  destruct (inv_session _ Hinv _ _ Hl) as [Hp _]. destruct (inv_session _ Hinv _ _ Hin) as [Hp2 _].
  apply chunk_path_inj in Heq; [|done..]. subst. congruence.
Qed.

Lemma reap_expired_absent now st id :
  up_files st !! id = None → up_files (reap_expired chunks_dir now st) !! id = None.
Proof. intros H. cbn. rewrite foldl_delete_map, foldl_delete_lookup. by case_decide. Qed.

Lemma reap_expired_inv now st : uploads_inv st → uploads_inv (reap_expired chunks_dir now st).
Proof.
  intros Hinv. split.
  - intros id s. rewrite reap_expired_sessions.
    destruct (up_sessions st !! id) as [s'|] eqn:E; [|done].
    destruct (expired now s') eqn:Ee; [done|]. intros [= ->].
    destruct (inv_session _ Hinv _ _ E) as (H1 & H2 & [H3 H3'] & H4 & H5 & H6).
    split_and!; [done..|]. by erewrite reap_expired_file.
  - etransitivity; [|apply (inv_active _ Hinv)]. apply map_subseteq_size, map_subseteq_spec.
    intros id s. rewrite reap_expired_sessions. destruct (up_sessions st !! id); [|done].
    by destruct (expired now u).
Qed.

Lemma create_session_inv st path ct total owner id now st' r :
  uploads_inv st → plain_id id → up_sessions st !! id = None →
  up_files st !! chunk_path id = None →
  create_session chunks_dir path ct total owner id now st = (st', r) → uploads_inv st'.
Proof.
  intros Hinv Hid Hn Hf H. unfold create_session in H.
  destruct (total =? 0)%N eqn:E0; [by simplify_eq|].
  destruct (MAX_FILE_SIZE <? total)%N eqn:E1; [by simplify_eq|]. cbv zeta in H.
  pose proof (reap_expired_inv now st Hinv) as Hinv'.
  assert (up_sessions (reap_expired chunks_dir now st) !! id = None) as Hn'.
  { rewrite reap_expired_sessions. by rewrite Hn. }
  pose proof (reap_expired_absent now st _ Hf) as Hf'.
  set (st1 := reap_expired chunks_dir now st) in *. clearbody st1.
  destruct (MAX_ACTIVE_SESSIONS <=? size (up_sessions st1)) eqn:E2; [by simplify_eq|].
  destruct (MAX_SESSIONS_PER_USER <=? user_sessions owner st1); [by simplify_eq|].
  destruct (sanitize_path path) as [sp|e|]; [|by simplify_eq..].
  apply N.eqb_neq in E0. apply N.ltb_ge in E1. apply Nat.leb_gt in E2.
  injection H as <- _. eapply (uploads_inv_frame st1 _ id); [done|done|..].
  - intros id' s Hne. cbn. by rewrite lookup_insert_ne.
  - done.
  - cbn. rewrite map_size_insert_None by done. lia.
  - intros s. cbn. rewrite lookup_insert_eq. intros [= <-].
    split_and!; cbn [us_id us_total_size us_bytes_received us_status]; [done|done|lia|done|lia| |].
    + by rewrite (proj2 (N.eqb_neq 0 total)) by lia.
    + cbn. unfold Storage.chunk_path in *. rewrite Hf'. done.
Qed.

Lemma append_check_Ok id offset data owner st s :
  append_check id offset data owner st = Ok s →
  up_sessions st !! id = Some s ∧ us_owner s = owner ∧ us_status s = InProgress
  ∧ offset = us_bytes_received s
  ∧ (us_bytes_received s + N.of_nat (String.length data) ≤ us_total_size s)%N.
Proof.
  unfold append_check. intros H. cases_ok H. simplify_eq. bools.
  apply N.eqb_eq in Heqb2. apply N.ltb_ge in Heqb3. by split_and!.
Qed.

Lemma append_write_inv st id data s :
  uploads_inv st → up_sessions st !! id = Some s → us_status s = InProgress →
  (us_bytes_received s + N.of_nat (String.length data) ≤ us_total_size s)%N →
  uploads_inv (append_write chunks_dir id data s st).
Proof.
  intros Hinv Hl Hst Hle. destruct (inv_session _ Hinv _ _ Hl) as (H1 & H2 & [H3 H3'] & H4 & H5 & H6).
  eapply (uploads_inv_frame st _ id); [done|done|..].
  - intros id' s' Hne. cbn. by rewrite lookup_insert_ne.
  - intros path Hne. cbn. by rewrite lookup_insert_ne.
  - cbn. rewrite map_size_insert_Some by (by eexists). apply (inv_active _ Hinv).
  - intros s'. cbn. rewrite lookup_insert_eq. intros [= <-]. split_and!; try done.
    + cbn. by rewrite Hst.
    + cbn. rewrite lookup_insert_eq. cbn. rewrite str_length_app. lia.
Qed.

Lemma drop_session_inv st id :
  uploads_inv st → plain_id id →
  uploads_inv {| up_sessions := delete id (up_sessions st);
                 up_files := delete (chunk_path id) (up_files st) |}.
Proof.
  intros Hinv Hid. eapply (uploads_inv_frame st _ id); [done|done|..].
  - intros id' s Hne. cbn. by rewrite lookup_delete_ne.
  - intros path Hne. cbn. by rewrite lookup_delete_ne.
  - cbn. etransitivity; [|apply (inv_active _ Hinv)].
    apply map_subseteq_size, delete_subseteq.
  - intros s. cbn. by rewrite lookup_delete_eq.
Qed.

Lemma upload_step_inv st st' : upload_step st st' → uploads_inv st → uploads_inv st'.
Proof.
  destruct 1 as [st path ct total owner id now st' r Hid Hn Hf Hc|st id off data owner st' r Ha
    |st id st' r Hf|st id owner st' r Hid Hc]; intros Hinv.
  - by eapply create_session_inv.
  - unfold append_chunk in Ha. destruct (append_check _ _ _ _ _) as [s| |] eqn:E;
      [|by simplify_eq..]. injection Ha as <- _.
    apply append_check_Ok in E as (? & ? & ? & ? & ?). by apply append_write_inv.
  - unfold finalize in Hf. destruct (up_sessions st !! id) as [s|] eqn:E; [|by simplify_eq].
    destruct (inv_session _ Hinv _ _ E) as [Hp _].
    repeat case_match; simplify_eq; try done. by apply drop_session_inv.
  - unfold cancel in Hc. destruct (up_sessions st !! id) as [s|] eqn:E.
    + destruct (_ && _); simplify_eq; [done|]. by apply drop_session_inv.
    + simplify_eq. eapply (uploads_inv_frame st _ id); [done|done|done|..].
      * intros path Hne. cbn. by rewrite lookup_delete_ne.
      * apply (inv_active _ Hinv).
      * intros s. cbn. by rewrite E.
Qed.

Lemma uploads_reachable st : rtc upload_step no_uploads st → uploads_inv st.
Proof.
  intros Hr. cut (∀ st0, rtc upload_step st0 st → uploads_inv st0 → uploads_inv st).
  { intros H. apply (H no_uploads); [done|]. split; cbn.
    - intros id s. by rewrite lookup_empty.
    - rewrite map_size_empty. unfold MAX_ACTIVE_SESSIONS. lia. }
  induction 1; eauto using upload_step_inv.
Qed.

(** In every state reached by creating, appending, finalizing and
    cancelling uploads one operation at a time, a session's counter is the length
    of its chunk file, never exceeds the declared size (at most 500 MB) and the
    session is complete exactly when they are equal; there are at most a hundred
    sessions; and finalizing a complete session succeeds with exactly the
    declared number of bytes. *)
Theorem uploads_invariant st :
  rtc upload_step no_uploads st →
  size (up_sessions st) ≤ MAX_ACTIVE_SESSIONS ∧
  ∀ id s, up_sessions st !! id = Some s →
    (us_bytes_received s ≤ us_total_size s ≤ MAX_FILE_SIZE)%N
    ∧ N.of_nat (String.length (default "" (up_files st !! chunk_path id))) = us_bytes_received s
    ∧ (us_status s = Complete ↔ us_bytes_received s = us_total_size s)
    ∧ (us_status s = Complete → ∃ st' data, finalize chunks_dir id st = (st', Ok (data, s))
         ∧ N.of_nat (String.length data) = us_total_size s).
Proof.
  intros Hinv%uploads_reachable. split; [apply (inv_active _ Hinv)|]. intros id s Hl.
  destruct (inv_session _ Hinv _ _ Hl) as (Hp & _ & [Hpos Hmax] & Hle & Hst & Hlen).
  destruct (us_bytes_received s =? us_total_size s)%N eqn:E.
  - apply N.eqb_eq in E. split_and!; [done..|tauto|]. intros _. unfold finalize. rewrite Hl, Hst.
    destruct (up_files st !! chunk_path id) as [data|] eqn:Ef; cbn in Hlen; [|lia].
    cbn. do 2 eexists. split; [done|]. congruence.
  - apply N.eqb_neq in E. rewrite Hst. split_and!; [done..| |done]. split; [done|]. congruence.
Qed.
End upload_properties.

(** ** Assembly, and what is not protected *)
Section assembly.
Context `{O : Os} (chunks_dir : string).
Implicit Types st : uploads.

(** A client sending its chunks in order. *)
Fixpoint append_all (id owner : string) (offset : N) (chunks : list string) (st : uploads) :
    uploads * Result unit :=
  match chunks with
  | [] => (st, Ok tt)
  | data :: chunks =>
      match append_chunk chunks_dir id offset data owner st with
      | (st, Ok s) => append_all id owner (us_bytes_received s) chunks st
      | (st, Err e) => (st, Err e)
      | (st, Panic) => (st, Panic)
      end
  end.

Definition total_length (chunks : list string) : N :=
  N.of_nat (String.length (join "" chunks)).

Lemma join_empty_cons x l : join "" (x :: l) = x +:+ join "" l.
Proof. destruct l as [|y l]; [by rewrite str_app_nil_r|done]. Qed.

Lemma append_chunk_ok id data owner st s :
  up_sessions st !! id = Some s → us_owner s = owner → owner ≠ "" → us_status s = InProgress →
  (us_bytes_received s + N.of_nat (String.length data) ≤ us_total_size s)%N →
  append_chunk chunks_dir id (us_bytes_received s) data owner st
  = (append_write chunks_dir id data s st, Ok (advanced data s)).
Proof.
  intros Hl Ho Hne Hs Hle. unfold append_chunk, append_check. rewrite Hl, Ho.
  assert (str_empty owner = false) as -> by by destruct owner.
  rewrite str_eqb_refl. cbn [negb]. rewrite (bool_decide_true _ Hs). cbn [negb].
  rewrite N.eqb_refl. cbn [negb]. by rewrite (proj2 (N.ltb_ge _ _) Hle).
Qed.

Lemma append_all_complete id owner chunks st s :
  up_sessions st !! id = Some s → us_owner s = owner → owner ≠ "" → us_status s = InProgress →
  Forall (λ c, c ≠ "") chunks → chunks ≠ [] →
  (us_bytes_received s + total_length chunks = us_total_size s)%N →
  ∃ st' s', append_all id owner (us_bytes_received s) chunks st = (st', Ok tt)
    ∧ up_sessions st' !! id = Some s' ∧ us_status s' = Complete
    ∧ us_total_size s' = us_total_size s ∧ us_path s' = us_path s
    ∧ up_files st' !! chunk_path chunks_dir id
      = Some (default "" (up_files st !! chunk_path chunks_dir id) +:+ join "" chunks).
Proof.
  intros Hl Ho Hne Hs Hch Hnil Hsum. revert st s Hl Ho Hs Hsum.
  induction Hch as [|data chunks Hd Hch IH]; [done|]. intros st s Hl Ho Hs Hsum.
  unfold total_length in *. rewrite join_empty_cons, str_length_app in Hsum.
  assert (0 < String.length data) as Hpos by (destruct data; [done|cbn; lia]).
  cbn [append_all]. rewrite (append_chunk_ok id data owner st s) by (done || lia).
  destruct chunks as [|data2 chunks].
  - cbn in Hsum. exists (append_write chunks_dir id data s st), (advanced data s).
    split; [done|]. unfold append_write. cbn [up_sessions up_files].
    rewrite !lookup_insert_eq. split_and!; try done. cbn.
    by rewrite (proj2 (N.eqb_eq _ _)) by lia.
  - assert (0 < String.length (join "" (data2 :: chunks))) as Hpos2.
    { rewrite join_empty_cons, str_length_app. apply Forall_cons in Hch as [Hd2 _].
      destruct data2; [done|cbn; lia]. }
    destruct (IH ltac:(done) (append_write chunks_dir id data s st) (advanced data s))
      as (st' & s' & Hrun & Hl' & Hc & Ht & Hp & Hf).
    + unfold append_write. cbn. by rewrite lookup_insert_eq.
    + done.
    + cbn. by rewrite (proj2 (N.eqb_neq _ _)) by lia.
    + cbn [advanced us_bytes_received us_total_size]. lia.
    + exists st', s'. split_and!; try done. rewrite Hf. unfold append_write. cbn [up_files].
      rewrite lookup_insert_eq, (join_empty_cons data), <- str_app_assoc. done.
Qed.

(** A client that sends non-empty chunks in order, adding up to the
    declared size, ends with a complete session, and finalizing returns exactly
    the concatenation of the chunks and removes the session and its file. *)
Theorem upload_assembles id owner chunks st s :
  up_sessions st !! id = Some s → us_owner s = owner → owner ≠ "" → us_status s = InProgress →
  us_bytes_received s = 0%N → up_files st !! chunk_path chunks_dir id = None →
  Forall (λ c, c ≠ "") chunks → chunks ≠ [] → total_length chunks = us_total_size s →
  ∃ st1 st2 s', append_all id owner 0 chunks st = (st1, Ok tt)
    ∧ finalize chunks_dir id st1 = (st2, Ok (join "" chunks, s'))
    ∧ up_sessions st2 !! id = None ∧ up_files st2 !! chunk_path chunks_dir id = None.
Proof.
  intros Hl Ho Hne Hs Hr Hf Hch Hnil Hsum.
  destruct (append_all_complete id owner chunks st s) as (st1 & s' & Hrun & Hl' & Hc & _ & _ & Hf');
    [done..|lia|]. rewrite Hr in Hrun. rewrite Hf in Hf'. cbn in Hf'. rewrite str_app_nil_l in Hf'.
  exists st1. do 2 eexists. split; [done|]. unfold finalize. rewrite Hl', Hc, Hf'. cbn.
  split; [done|]. cbn. by rewrite !lookup_delete_eq.
Qed.

(** Two appends of the same session that overlap (both check before either
    writes, which the copy of the session allows) both succeed; the file then
    holds both chunks while the counter counts one. *)
Theorem concurrent_appends_corrupt id offset data1 data2 owner st s1 s2 :
  append_check id offset data1 owner st = Ok s1 →
  append_check id offset data2 owner st = Ok s2 → data1 ≠ "" →
  N.of_nat (String.length (default "" (up_files st !! chunk_path chunks_dir id))) = offset →
  let st' := append_write chunks_dir id data2 s2 (append_write chunks_dir id data1 s1 st) in
  ∃ s file, up_sessions st' !! id = Some s ∧ up_files st' !! chunk_path chunks_dir id = Some file
    ∧ N.of_nat (String.length file)
      = (us_bytes_received s + N.of_nat (String.length data1))%N
    ∧ N.of_nat (String.length file) ≠ us_bytes_received s.
Proof.
  intros (Hl1 & _ & _ & Ho1 & _)%append_check_Ok (Hl2 & _ & _ & Ho2 & _)%append_check_Ok Hd Hlen st'.
  simplify_eq. do 2 eexists. unfold st', append_write. cbn [up_sessions up_files].
  rewrite !lookup_insert_eq. split_and!; [done|done|..];
    cbn; rewrite !str_length_app;
    assert (0 < String.length data1) by (destruct data1; [done|cbn; lia]); lia.
Qed.

(** Cancelling an upload that does not exist still removes a file, for any
    caller and any name: with an absolute path as the session id, that very
    file. *)
Theorem cancel_unknown_deletes_any_file id owner st :
  up_sessions st !! id = None → starts_with "/" id = true →
  cancel chunks_dir id owner st
  = ({| up_sessions := up_sessions st; up_files := delete id (up_files st) |}, Ok tt).
Proof.
  intros Hn Hs. unfold cancel. rewrite Hn. unfold chunk_path, path_join. by rewrite Hs.
Qed.
End assembly.

(** ** Witnesses *)
Section storage_witnesses.
#[local] Instance demo_os : Os :=
  {| os_exists := λ fs p, bool_decide (is_Some (fs !! p)); os_canonicalize := λ _ p, Some p;
     os_not_found := λ _, "No such file or directory (os error 2)" |}.
#[local] Instance demo_crypto : Crypto :=
  {| hmac_sha256 := λ key m, key +:+ m; b64_encode := id; b64_decode := Some |}.

Lemma demo_crypto_laws : CryptoLaws demo_crypto.
Proof. by constructor. Qed.

Definition demo_generator : SignedUrlGenerator := new_generator "k" "https://cdn/".

Lemma signature_not_transferable_witness :
  ("GET" = "GET" ∧ "a.png" = "a.png" ∧ 10%N = 10%N)
  ∨ ∃ msg msg', msg ≠ msg' ∧ hmac_sha256 "k" msg = hmac_sha256 "k" msg'.
Proof.
  apply (signature_not_transferable demo_generator "GET" "a.png" 10 "GET" "a.png" 10
    "kGET:a.png:10" 5); [done|done|apply demo_crypto_laws|by vm_compute|by vm_compute].
Defined.

Lemma sign_download_verifies_witness :
  ∃ sig, sign_download demo_generator "a.png" 60 1000
         = Ok ("https://cdn" +:+ "/storage/download/" +:+ "a.png" +:+ "?expires="
               +:+ pretty (expiry 1000 60) +:+ "&sig=" +:+ sig)
    ∧ verify demo_generator "GET" "a.png" (expiry 1000 60) sig 1060
      = (if (Z.of_N (expiry 1000 60) <? 1060)%Z
         then Err (Auth "Signed URL has expired") else Ok true).
Proof.
  apply (sign_download_verifies demo_generator); [apply demo_crypto_laws|lia].
Defined.

Definition one_upload : uploads :=
  (create_session "chunks" "a/b.txt" "text/plain" 5 "u1" "s1" 0 no_uploads).1.
Definition half_upload : uploads := (append_chunk "chunks" "s1" 0 "ab" "u1" one_upload).1.

Lemma half_upload_reachable : rtc (upload_step "chunks") no_uploads half_upload.
Proof.
  eapply rtc_l; [|eapply rtc_once].
  - by eapply (up_create "chunks" no_uploads "a/b.txt" "text/plain" 5 "u1" "s1" 0 one_upload).
  - by eapply (up_append "chunks" one_upload "s1" 0 "ab" "u1" half_upload).
Qed.

Lemma uploads_invariant_witness :
  size (up_sessions half_upload) ≤ MAX_ACTIVE_SESSIONS ∧
  ∀ id s, up_sessions half_upload !! id = Some s →
    (us_bytes_received s ≤ us_total_size s ≤ MAX_FILE_SIZE)%N
    ∧ N.of_nat (String.length (default "" (up_files half_upload !! chunk_path "chunks" id)))
      = us_bytes_received s
    ∧ (us_status s = Complete ↔ us_bytes_received s = us_total_size s)
    ∧ (us_status s = Complete → ∃ st' data, finalize "chunks" id half_upload = (st', Ok (data, s))
         ∧ N.of_nat (String.length data) = us_total_size s).
Proof. exact (uploads_invariant "chunks" half_upload half_upload_reachable). Defined.

Definition session1 : UploadSession :=
  {| us_id := "s1"; us_path := "a/b.txt"; us_content_type := "text/plain"; us_total_size := 5;
     us_bytes_received := 0; us_created_at := 0; us_status := InProgress; us_owner := "u1" |}.

Lemma upload_assembles_witness :
  ∃ st1 st2 s', append_all "chunks" "s1" "u1" 0 ["ab"; "cde"] one_upload = (st1, Ok tt)
    ∧ finalize "chunks" "s1" st1 = (st2, Ok (join "" ["ab"; "cde"], s'))
    ∧ up_sessions st2 !! "s1" = None ∧ up_files st2 !! chunk_path "chunks" "s1" = None.
Proof.
  apply (upload_assembles "chunks" "s1" "u1" ["ab"; "cde"] one_upload session1);
    try done; by repeat constructor.
Defined.

Lemma concurrent_appends_corrupt_witness :
  let st' := append_write "chunks" "s1" "ab" session1
               (append_write "chunks" "s1" "xy" session1 one_upload) in
  ∃ s file, up_sessions st' !! "s1" = Some s ∧ up_files st' !! chunk_path "chunks" "s1" = Some file
    ∧ N.of_nat (String.length file) = (us_bytes_received s + N.of_nat (String.length "xy"))%N
    ∧ N.of_nat (String.length file) ≠ us_bytes_received s.
Proof. by apply (concurrent_appends_corrupt "chunks" "s1" 0 "xy" "ab" "u1"). Defined.

Lemma cancel_unknown_deletes_any_file_witness :
  cancel "chunks" "/etc/passwd" "mallory" one_upload
  = ({| up_sessions := up_sessions one_upload;
        up_files := delete "/etc/passwd" (up_files one_upload) |}, Ok tt).
Proof. by apply cancel_unknown_deletes_any_file. Defined.
End storage_witnesses.
