(* ===== verification/AuthLimits.v ===== *)
(** * Limits on authentication attempts

    The per-address request limiter (crates/ob-auth/src/rate_limit.rs) and the
    login tracking with its account lockout (crates/ob-auth/src/login_tracking.rs).

    Addresses and their parsing are parameters.  The tracking keeps its records
    in the document store, and reads them back with SQL that names columns: a
    table made by the store has the four columns of [ensure_table], and a
    statement that names a column its table lacks is an error. *)

From S2P Require Export DocStore.

(** ** Addresses *)
Class Net := {
  IpAddr : Type;
  ip_eq :: EqDecision IpAddr;
  ip_countable :: Countable IpAddr;
  parse_ip : string → option IpAddr;
  ip_to_string : IpAddr → string;
  localhost : IpAddr;       (** 127.0.0.1 *)
  unspecified : IpAddr;     (** 0.0.0.0 *)
  is_unspecified : IpAddr → bool;
}.

(** [str::trim] on the visible ASCII of a header value. *)
Definition is_space (c : ascii) : bool :=
  Ascii.eqb c " " || Ascii.eqb c TAB || Ascii.eqb c LF || Ascii.eqb c CR
  || Ascii.eqb c "011" || Ascii.eqb c "012".
Fixpoint trim_left (s : string) : string :=
  match s with
  | "" => ""
  | String a s' => if is_space a then trim_left s' else s
  end.
Fixpoint trim_right (s : string) : string :=
  match s with
  | "" => ""
  | String a s' =>
      match trim_right s' with
      | "" => if is_space a then "" else str1 a
      | t => String a t
      end
  end.
Definition trim (s : string) : string := trim_right (trim_left s).

(** ** rate_limit.rs *)

(** Times are readings of the monotonic clock. *)
Record RateLimiter `{Net} : Type := {
  rl_state : gmap IpAddr (N * Z);
  rl_max_requests : N;
  rl_window : Z;
}.

Section rate_limit.
Context `{A : Net}.

Definition new_limiter (max_requests : N) (window : Z) : RateLimiter :=
  {| rl_state := ∅; rl_max_requests := max_requests; rl_window := window |}.

(** [duration_since] is zero for an earlier instant. *)
Definition duration_since (now start : Z) : Z := Z.max 0 (now - start).

(** The entry after a request: reset when its window is over, then counted. *)
Definition counted (window now : Z) (entry : N * Z) : N * Z :=
  let '(count, start) := entry in
  let '(count, start) :=
    if (window <=? duration_since now start)%Z then (0%N, now) else (count, start) in
  ((count + 1)%N, start).

Definition rl_check (ip : IpAddr) (now : Z) (l : RateLimiter) : RateLimiter * bool :=
  let entry := counted (rl_window l) now (default (0%N, now) (rl_state l !! ip)) in
  ({| rl_state := <[ip := entry]> (rl_state l); rl_max_requests := rl_max_requests l;
      rl_window := rl_window l |},
   (entry.1 <=? rl_max_requests l)%N).

Definition rl_cleanup (now : Z) (l : RateLimiter) : RateLimiter :=
  {| rl_state := filter (λ kv : IpAddr * (N * Z), (duration_since now kv.2.2 < rl_window l)%Z)
       (rl_state l);
     rl_max_requests := rl_max_requests l; rl_window := rl_window l |}.

(** [extract_ip]: the peer, or what the trusted proxy forwards. *)
Definition extract_ip_request (peer : option IpAddr) (forwarded real_ip : option string) : IpAddr :=
  let peer_ip := default localhost peer in
  if bool_decide (peer_ip = localhost) then
    match (val ← forwarded; first ← head (split_on "," val); parse_ip (trim first)) with
    | Some ip => ip
    | None => match (val ← real_ip; parse_ip (trim val)) with
              | Some ip => ip
              | None => peer_ip
              end
    end
  else peer_ip.

(** The middleware: [Err] is the 429 response, [Ok] the request going on. *)
Definition rate_limit_middleware (limiter : option RateLimiter) (peer : option IpAddr)
    (forwarded real_ip : option string) (now : Z) : option RateLimiter * outcome N unit :=
  match limiter with
  | Some l =>
      let '(l, allowed) := rl_check (extract_ip_request peer forwarded real_ip) now l in
      (Some l, if allowed then Ok tt else Err 429%N)
  | None => (None, Ok tt)
  end.
End rate_limit.

(** ** login_tracking.rs *)

(** The columns of a table made by [ensure_table], and a SELECT with a WHERE
    clause on columns: an error when the table has no such column. *)
Definition doc_columns : list string := ["id"; "data"; "created_at"; "updated_at"].
Definition select_where (columns used : list string) (found : list Value) (pg_error : string) :
    Result (list Value) :=
  if forallb (λ c, existsb (str_eqb c) columns) used then Ok found
  else Err (Database ("Query failed: " +:+ pg_error)).

Class Sha := { sha256_hex : string → string }.

Section login_tracking.
Context `{C : Chrono} `{S : Sha} `{A : Net}.
(** The text of PostgreSQL's [undefined_column] error. *)
Context (pg_undefined_column : string).

Definition compute_device_hash (user_agent : string) : string := sha256_hex user_agent.

Definition record_login (user_id ip user_agent status : string) (fresh : string) (now : Z)
    (s : store) : store * Result unit :=
  ((create_document "login_history" (VObject
     [("created_at", VString (to_rfc3339 now));
      ("device_hash", VString (compute_device_hash user_agent)); ("ip", VString ip);
      ("status", VString status); ("user_agent", VString user_agent);
      ("user_id", VString user_id)]) fresh now s).1, Ok tt).

(** The documents of a collection whose fields have the given values. *)
Definition docs_where (collection : string) (fields : list (string * Value)) (s : store) :
    list Value :=
  (λ '(id, row), row_to_doc id row) <$>
    filter (λ kr : string * DocRow,
      forallb (λ '(k, v), bool_decide (from_option (value_eqb v) false (get k (row_data kr.2)) = true))
        fields = true)
      (map_to_list (table_rows s collection)).

(** [SELECT * FROM known_devices WHERE user_id = $uid AND device_hash = $dh LIMIT 1]. *)
Definition known_device_query (user_id device_hash : string) (s : store) : Result (list Value) :=
  select_where doc_columns ["user_id"; "device_hash"]
    (take 1 (docs_where "known_devices"
       [("user_id", VString user_id); ("device_hash", VString device_hash)] s))
    pg_undefined_column.

Definition check_suspicious (user_id device_hash : string) (s : store) : option string :=
  match known_device_query user_id device_hash s with
  | Ok [] => Some "new_device"
  | _ => None
  end.

Definition create_security_alert (user_id alert_type details fresh : string) (now : Z) (s : store) :
    store * Result unit :=
  ((create_document "security_alerts" (VObject
     [("acknowledged", VBool false); ("alert_type", VString alert_type);
      ("created_at", VString (to_rfc3339 now)); ("details", VString details);
      ("user_id", VString user_id)]) fresh now s).1, Ok tt).

Definition upsert_known_device (user_id device_hash device_name fresh : string) (now : Z)
    (s : store) : store * Result unit :=
  match (match known_device_query user_id device_hash s with Ok l => l | _ => [] end) with
  | device :: _ =>
      match get "id" device ≫= as_str with
      | Some id => ((update_document "known_devices" id
          (VObject [("last_used", VString (to_rfc3339 now))]) now s).1, Ok tt)
      | None => (s, Ok tt)
      end
  | [] =>
      ((create_document "known_devices" (VObject
         [("created_at", VString (to_rfc3339 now)); ("device_hash", VString device_hash);
          ("device_name", VString device_name); ("last_used", VString (to_rfc3339 now));
          ("trusted", VBool true); ("user_id", VString user_id)]) fresh now s).1, Ok tt)
  end.

(** The headers the tracking looks at, when they are visible ASCII. *)
Record headers : Type := {
  h_forwarded_for : option string;
  h_real_ip : option string;
  h_user_agent : option string;
}.

Definition extract_ip_with_peer (h : headers) (peer_ip : option IpAddr) : string :=
  let peer := default unspecified peer_ip in
  match (if bool_decide (peer = localhost) then
           match (v ← h_forwarded_for h; head (split_on "," v)) with
           | Some forwarded => Some (trim forwarded)
           | None => trim <$> h_real_ip h
           end
         else None) with
  | Some ip => ip
  | None => if is_unspecified peer then "unknown" else ip_to_string peer
  end.
Definition extract_ip (h : headers) : string := extract_ip_with_peer h None.
Definition extract_user_agent (h : headers) : string := default "unknown" (h_user_agent h).

(** [&user_agent[..80]], of an ASCII header value. *)
Definition short_device_name (user_agent : string) : string :=
  if 80 <? String.length user_agent then String.substring 0 80 user_agent +:+ "…"
  else user_agent.

(** The fresh ids and clock readings of the three writes. *)
Definition on_login_success (user_id : string) (h : headers) (ids : string * string * string)
    (now : Z) (s : store) : store :=
  let ip := extract_ip_with_peer h None in
  let ua := extract_user_agent h in
  let device_hash := compute_device_hash ua in
  let device_name := short_device_name ua in
  let '(id1, id2, id3) := ids in
  let s := (record_login user_id ip ua "success" id1 now s).1 in
  let s := match check_suspicious user_id device_hash s with
           | Some alert_type => (create_security_alert user_id alert_type
               ("New device login from IP " +:+ ip +:+ ": " +:+ device_name) id2 now s).1
           | None => s
           end in
  (upsert_known_device user_id device_hash device_name id3 now s).1.

Definition on_login_failure (user_id : string) (h : headers) (fresh : string) (now : Z) (s : store) :
    store :=
  (record_login user_id (extract_ip_with_peer h None) (extract_user_agent h) "failed" fresh now s).1.

Definition LOCKOUT_MAX_ATTEMPTS : Z := 5.
Definition LOCKOUT_WINDOW_SECS : Z := 15 * 60.

(** [now_secs]: the wall clock; [now] the database's. *)
Definition record_failed_login_attempt (email fresh : string) (now_secs now : Z) (s : store) : store :=
  (create_document "login_lockout"
     (VObject [("email", VString email); ("timestamp", of_i64 now_secs)]) fresh now s).1.

(** The failed attempts of an email recorded since [window_start]. *)
Definition attempts_since (email : string) (window_start : Z) (s : store) : list Value :=
  filter (λ d, from_option (λ v, from_option (λ t, bool_decide (window_start ≤ t)%Z) false (as_i64 v))
                 false (get "timestamp" d) = true)
    (docs_where "login_lockout" [("email", VString email)] s).

(** [SELECT * ... WHERE email = $email AND timestamp >= $window_start LIMIT 10]. *)
Definition lockout_query (email : string) (window_start : Z) (s : store) : Result (list Value) :=
  select_where doc_columns ["email"; "timestamp"] (take 10 (attempts_since email window_start s))
    pg_undefined_column.

Definition lockout_decision (results : Result (list Value)) : Result unit :=
  let count := Z.of_nat (length (match results with Ok l => l | _ => [] end)) in
  if (LOCKOUT_MAX_ATTEMPTS <=? count)%Z then
    Err (Auth "Account temporarily locked. Try again in 15 minutes.")
  else Ok tt.

Definition check_account_lockout (test_mode : bool) (email : string) (now_secs : Z) (s : store) :
    Result unit :=
  if test_mode then Ok tt
  else lockout_decision (lockout_query email (now_secs - LOCKOUT_WINDOW_SECS)%Z s).

(** The endpoints that act on one document of the caller. *)
Definition owned_by (doc : Value) (user_id : string) : bool :=
  bool_decide (get "user_id" doc ≫= as_str = Some user_id).

Definition delete_known_device (authenticated : bool) (user_id id : string) (s : store) :
    store * Result Value :=
  if negb authenticated then (s, Err (Auth "Authentication required"))
  else match get_document "known_devices" id s with
  | (s, Ok device) =>
      if negb (owned_by device user_id) then (s, Err (NotFound "Device not found"))
      else ((delete_document "known_devices" id s).1, Ok (VObject [("ok", VBool true)]))
  | (s, Err e) => (s, Err e)
  | (s, Panic) => (s, Panic)
  end.

Definition acknowledge_alert (authenticated : bool) (user_id id : string) (now : Z) (s : store) :
    store * Result Value :=
  if negb authenticated then (s, Err (Auth "Authentication required"))
  else match get_document "security_alerts" id s with
  | (s, Ok alert) =>
      if negb (owned_by alert user_id) then (s, Err (NotFound "Alert not found"))
      else ((update_document "security_alerts" id (VObject [("acknowledged", VBool true)]) now s).1,
            Ok (VObject [("ok", VBool true)]))
  | (s, Err e) => (s, Err e)
  | (s, Panic) => (s, Panic)
  end.
End login_tracking.

(** ** Properties of the limiter *)
Section rate_limit_properties.
Context `{A : Net}.
Local Open Scope Z_scope.

(** The decisions on a sequence of requests from one address. *)
Fixpoint run_checks (ip : IpAddr) (times : list Z) (l : RateLimiter) : list bool :=
  match times with
  | [] => []
  | now :: times => let '(l, allowed) := rl_check ip now l in allowed :: run_checks ip times l
  end.
Definition allowed_count (decisions : list bool) : N :=
  N.of_nat (length (filter (λ b, b = true) decisions)).

(** The same on the address's own entry. *)
Fixpoint run_entry (window : Z) (max : N) (entry : N * Z) (times : list Z) : list bool :=
  match times with
  | [] => []
  | now :: times =>
      let entry := counted window now entry in
      (entry.1 <=? max)%N :: run_entry window max entry times
  end.

Lemma run_checks_entry ip entry times l :
  rl_state l !! ip = Some entry →
  run_checks ip times l = run_entry (rl_window l) (rl_max_requests l) entry times.
Proof.
  revert entry l. induction times as [|now times IH]; intros entry l Hl; [done|].
  cbn [run_checks run_entry]. unfold rl_check. rewrite Hl. cbn [default].
  erewrite IH; [reflexivity|]. apply lookup_insert_eq.
Qed.

Lemma allowed_count_cons b l :
  (allowed_count (b :: l) = (if b then 1 else 0) + allowed_count l)%N.
Proof.
  unfold allowed_count. destruct b.
  - rewrite filter_cons_True by done. cbn [length]. lia.
  - by rewrite filter_cons_False.
Qed.

(** Within a window that does not end, what is left of the quota. *)
Lemma run_entry_quota window max count start times :
  Forall (λ t, duration_since t start < window) times →
  (allowed_count (run_entry window max (count, start) times) ≤ max - count)%N.
Proof.
  intros H. revert count. induction H as [|t times Ht H IH]; intros count.
  { unfold allowed_count. cbn. lia. }
  cbn [run_entry]. unfold counted. rewrite (proj2 (Z.leb_gt _ _) Ht). cbv zeta.
  cbn [fst]. rewrite allowed_count_cons. specialize (IH (count + 1)%N).
  destruct (count + 1 <=? max)%N eqn:E; [apply N.leb_le in E|apply N.leb_gt in E]; lia.
Qed.

(** In an interval as long as the window, a window ends at most once. *)
Lemma run_entry_interval window max count start times a :
  Forall (λ t, a ≤ t < a + window) times →
  (allowed_count (run_entry window max (count, start) times) ≤ (max - count) + max)%N.
Proof.
  intros H. revert count. induction H as [|t times Ht H IH]; intros count.
  { unfold allowed_count. cbn. lia. }
  cbn [run_entry]. unfold counted. destruct (window <=? duration_since t start) eqn:E; cbv zeta;
    cbn [fst]; rewrite allowed_count_cons.
  - assert (Forall (λ t', duration_since t' t < window) times) as Hq.
    { eapply Forall_impl; [exact H|]. unfold duration_since. cbn. intros x Hx. lia. }
    pose proof (run_entry_quota window max 1 t times Hq) as Hle.
    change (0 + 1)%N with 1%N. destruct (1 <=? max)%N eqn:E1; [apply N.leb_le in E1|]; lia.
  - specialize (IH (count + 1)%N).
    destruct (count + 1 <=? max)%N eqn:E1; [apply N.leb_le in E1|apply N.leb_gt in E1]; lia.
Qed.

(** In any interval as long as the window, whatever the state the limiter
    starts from, an address is allowed at most twice the configured number of
    requests, and at most that number while its current window lasts. *)
Theorem limiter_bound ip times l a :
  Forall (λ t, a ≤ t < a + rl_window l) times →
  (allowed_count (run_checks ip times l) ≤ 2 * rl_max_requests l)%N
  ∧ (∀ count start, rl_state l !! ip = Some (count, start) →
       Forall (λ t, t < start + rl_window l) times →
       (allowed_count (run_checks ip times l) ≤ rl_max_requests l)%N).
Proof.
  intros Ht. split.
  - destruct (rl_state l !! ip) as [[count start]|] eqn:E.
    + rewrite (run_checks_entry ip (count, start)) by done.
      pose proof (run_entry_interval (rl_window l) (rl_max_requests l) count start times a Ht). lia.
    + destruct times as [|t times]; [unfold allowed_count; cbn; lia|].
      assert (run_checks ip (t :: times) l
        = run_entry (rl_window l) (rl_max_requests l) (0%N, t) (t :: times)) as ->.
      { cbn [run_checks run_entry]. unfold rl_check. rewrite E. cbn [default].
        erewrite run_checks_entry; [reflexivity|]. apply lookup_insert_eq. }
      pose proof (run_entry_interval (rl_window l) (rl_max_requests l) 0 t (t :: times) a Ht). lia.
  - intros count start Hl He. rewrite (run_checks_entry ip (count, start)) by done.
    etransitivity; [apply run_entry_quota|lia]. rewrite Forall_forall in *.
    intros x Hx. specialize (Ht x Hx). specialize (He x Hx). unfold duration_since. lia.
Qed.

Lemma counted_new window now : counted window now (0%N, now) = (1%N, now).
Proof. unfold counted. by destruct (window <=? duration_since now now). Qed.

Lemma counted_expired window now count start :
  window ≤ duration_since now start → counted window now (count, start) = (1%N, now).
Proof. intros H. unfold counted. by rewrite (proj2 (Z.leb_le _ _) H). Qed.

(** Dropping expired entries changes no later decision. *)
Theorem cleanup_transparent ip now now' l :
  now ≤ now' →
  (rl_check ip now' (rl_cleanup now l)).2 = (rl_check ip now' l).2
  ∧ rl_state (rl_check ip now' (rl_cleanup now l)).1 !! ip
    = rl_state (rl_check ip now' l).1 !! ip.
Proof.
  intros Hle.
  assert (counted (rl_window l) now' (default (0%N, now') (rl_state (rl_cleanup now l) !! ip))
        = counted (rl_window l) now' (default (0%N, now') (rl_state l !! ip))) as Heq.
  { unfold rl_cleanup. cbn [rl_state]. destruct (rl_state l !! ip) as [[count start]|] eqn:E.
    - destruct (decide (duration_since now start < rl_window l)) as [Hd|Hd].
      + by erewrite (proj2 (map_lookup_filter_Some _ _ ip (count, start))).
      + assert (filter (λ kv : IpAddr * (N * Z), duration_since now kv.2.2 < rl_window l)
          (rl_state l) !! ip = None) as ->.
        { apply map_lookup_filter_None. right. intros x Hx. rewrite E in Hx. by injection Hx as <-. }
        change (counted (rl_window l) now' (0%N, now') = counted (rl_window l) now' (count, start)).
        rewrite counted_new, counted_expired; [done|]. unfold duration_since in *. lia.
    - assert (filter (λ kv : IpAddr * (N * Z), duration_since now kv.2.2 < rl_window l)
        (rl_state l) !! ip = None) as ->; [|done].
      apply map_lookup_filter_None. by left. }
  unfold rl_check. cbn [rl_window rl_cleanup rl_max_requests rl_state fst snd].
  change (rl_window (rl_cleanup now l)) with (rl_window l). rewrite !lookup_insert_eq.
  cbn [rl_state rl_cleanup] in Heq. by rewrite Heq.
Qed.
End rate_limit_properties.

(** ** Properties of the tracking *)
Section tracking_properties.
Context `{C : Chrono} `{S : Sha} `{A : Net} (pg : string).

(** The lockout never locks an account: its query names columns the
    store's tables do not have, the error counts as no failed attempt, and every
    check passes, whatever attempts are recorded. *)
Theorem lockout_never_triggers test_mode email now_secs (s : store) :
  check_account_lockout pg test_mode email now_secs s = Ok tt.
Proof. by destruct test_mode. Qed.

(** For the same reason no login is ever reported as coming from a new
    device, and each login records the device anew. *)
Theorem new_device_never_reported user_id device_hash (s : store) :
  check_suspicious pg user_id device_hash s = None.
Proof. done. Qed.

(** The decision itself is the intended one when the query answers. *)
Lemma lockout_decision_spec l :
  lockout_decision (Ok l) = Ok tt ↔ (Z.of_nat (length l) < LOCKOUT_MAX_ATTEMPTS)%Z.
Proof.
  unfold lockout_decision. destruct (LOCKOUT_MAX_ATTEMPTS <=? Z.of_nat (length l))%Z eqn:E.
  - apply Z.leb_le in E. split; [done|lia].
  - apply Z.leb_gt in E. done.
Qed.

Lemma get_document_rows c id (s s' : store) r :
  get_document c id s = (s', r) → ∀ c', table_rows s' c' = table_rows s c'.
Proof.
  unfold get_document, with_table, ensure_table, sanitize_table_name. intros H c'.
  destruct (validate_identifier c) as [v| |] eqn:E; cbn in H; [|by simplify_eq..].
  destruct (table_rows _ _ !! _); simplify_eq; apply table_rows_ensured.
Qed.

Lemma get_document_row c id (s s' : store) doc :
  get_document c id s = (s', Ok doc) →
  ∃ row, table_rows s c !! bare_id c id = Some row ∧ doc = row_to_doc (bare_id c id) row.
Proof.
  intros [_ H]%with_table_Ok. cbv beta zeta in H. rewrite table_rows_ensured in H.
  destruct (table_rows s c !! bare_id c id) as [row|]; [|done]. injection H as _ <-. eauto.
Qed.

Lemma delete_document_rows c id (s : store) x :
  x ≠ bare_id c id → table_rows (delete_document c id s).1 c !! x = table_rows s c !! x.
Proof.
  intros Hne. destruct (is_ok (validate_identifier c)) eqn:Hv.
  - unfold delete_document. rewrite with_table_valid by done. cbv beta zeta.
    rewrite table_rows_ensured. destruct (table_rows s c !! bare_id c id) as [row|]; cbn [fst].
    + rewrite table_rows_insert. by apply lookup_delete_ne.
    + by rewrite table_rows_ensured.
  - unfold delete_document, with_table, ensure_table, sanitize_table_name.
    by destruct (validate_identifier c).
Qed.

Definition row_owner (row : DocRow) : option string := get "user_id" (row_data row) ≫= as_str.

Lemma row_to_doc_owner id row : get "user_id" (row_to_doc id row) ≫= as_str = row_owner row.
Proof.
  unfold row_owner. destruct (row_data row) as [| | | | |m] eqn:E;
    try (unfold row_to_doc; by rewrite E).
  erewrite row_to_doc_get; [done|done|].
  unfold is_metadata. apply (bool_decide_unpack _). by vm_compute.
Qed.

(** The endpoint that removes a known device removes only the caller's:
    whatever id is given, a device recorded for another user stays as it is. *)
Theorem foreign_device_not_deleted authenticated user id (s : store) x row :
  table_rows s "known_devices" !! x = Some row → row_owner row ≠ Some user →
  table_rows (delete_known_device authenticated user id s).1 "known_devices" !! x = Some row.
Proof.
  intros Hrow Hne. unfold delete_known_device. destruct authenticated; cbn [negb]; [|done].
  destruct (get_document "known_devices" id s) as [s' r] eqn:E.
  pose proof (get_document_rows _ _ _ _ _ E "known_devices") as Hrows.
  destruct r as [device|e|]; cbn [fst]; [|by rewrite Hrows..].
  destruct (owned_by device user) eqn:Eo; cbn [negb fst]; [|by rewrite Hrows].
  destruct (get_document_row _ _ _ _ _ E) as (row' & Hrow' & ->).
  unfold owned_by in Eo. bools. rewrite row_to_doc_owner in Eo.
  rewrite delete_document_rows, Hrows; [done|]. intros ->. congruence.
Qed.
End tracking_properties.

(** ** Witnesses *)
Section limits_witnesses.
#[local] Instance demo_net : Net :=
  {| IpAddr := string; parse_ip := Some; ip_to_string := id; localhost := "127.0.0.1";
     unspecified := "0.0.0.0"; is_unspecified := str_eqb "0.0.0.0" |}.
#[local] Instance demo_limits_chrono : Chrono := plain_chrono.
#[local] Instance demo_sha : Sha := {| sha256_hex := id |}.

Definition two_per_minute : RateLimiter := new_limiter 2 60.
Definition client : IpAddr := "203.0.113.9" : string.

(** A burst at the end of the first window and one at the start of the next. *)
Definition late_in_window : RateLimiter := (rl_check client 0 two_per_minute).1.

Example burst_doubles_limit :
  run_checks client [59; 60; 61; 62]%Z late_in_window = [true; true; true; false].
Proof. by vm_compute. Qed.

Lemma limiter_bound_witness :
  (allowed_count (run_checks client [59; 60; 61; 62]%Z late_in_window) ≤ 2 * 2)%N
  ∧ (∀ count start, rl_state late_in_window !! client = Some (count, start) →
       Forall (λ t, (t < start + 60)%Z) [59; 60; 61; 62]%Z →
       (allowed_count (run_checks client [59; 60; 61; 62]%Z late_in_window) ≤ 2)%N).
Proof.
  apply (limiter_bound client [59; 60; 61; 62]%Z late_in_window 59).
  repeat constructor; cbn; lia.
Defined.

Lemma cleanup_transparent_witness :
  (rl_check client 90 (rl_cleanup 80 late_in_window)).2 = (rl_check client 90 late_in_window).2
  ∧ rl_state (rl_check client 90 (rl_cleanup 80 late_in_window)).1 !! client
    = rl_state (rl_check client 90 late_in_window).1 !! client.
Proof. by apply cleanup_transparent. Defined.

Definition laptop_row : DocRow :=
  {| row_data := VObject [("user_id", VString "u1")]; row_created_at := 0; row_updated_at := 0 |}.
Definition devices : store := {[ "known_devices" := {[ "d1" := laptop_row ]} ]}.

Lemma foreign_device_not_deleted_witness :
  table_rows (delete_known_device true "u2" "d1" devices).1 "known_devices" !! "d1" = Some laptop_row.
Proof. by apply foreign_device_not_deleted. Defined.
End limits_witnesses.
