(* ===== verification/AuthTokens.v ===== *)
(** * Credentials

    Token revocation, signing-key rotation, one-time passwords and password
    strength (crates/ob-auth/src/revocation.rs, key_rotation.rs, totp.rs,
    password.rs).  Hashing, encryption, randomness and the TOTP code itself are
    parameters with the laws the code relies on. *)

From S2P Require Export AuthLimits Storage.

(** ** revocation.rs *)
Section revocation.
Context `{C : Chrono} `{P : PgJson} `{S : Sha}.

Definition revoked_table : string := "_revoked_tokens".

Definition hash_token (token : string) : string := sha256_hex token.

(** [now_secs]: [Utc::now().timestamp()]; the sum wraps. *)
Definition revoke_token (token : string) (ttl_secs : N) (now_secs now : Z) (s : store) :
    store * Result unit :=
  let token_hash := hash_token token in
  let expires_at := wrap_signed 64 (now_secs + u64_as_i64 ttl_secs) in
  match upsert_document revoked_table token_hash
    (VObject [("expiresAt", of_i64 expires_at); ("hash", VString token_hash);
              ("revokedAt", VString (to_rfc3339 now))]) now s with
  | (s, Ok _) => (s, Ok tt)
  | (s, Err e) => (s, Err (Internal ("Failed to revoke token: " +:+ error_to_string e)))
  | (s, Panic) => (s, Panic)
  end.

(** The row the SELECT returns: the latest updated of those with the hash. *)
Definition later (a b : option DocRow) : option DocRow :=
  match a, b with
  | Some ra, Some rb => if (row_updated_at ra <? row_updated_at rb)%Z then b else a
  | None, _ => b
  | _, None => a
  end.
Definition revocation_row (token_hash : string) (s : store) : option DocRow :=
  foldr (λ '(_, row) acc,
      if bool_decide (field_text "hash" (row_data row) = Some token_hash)
      then later (Some row) acc else acc)
    None (map_to_list (table_rows s revoked_table)).

Definition is_token_revoked (token : string) (now_secs : Z) (s : store) : Result bool :=
  let expires_at :=
    row ← revocation_row (hash_token token) s;
    text ← field_text "expiresAt" (row_data row);
    parse_i64 text in
  Ok (match expires_at with Some e => (now_secs <? e)%Z | None => false end).

(** [COALESCE(NULLIF(data->>'expiresAt', ''), '0')::bigint]: [None] when the
    text is no number, an error of the whole statement. *)
Definition revocation_expiry (row : DocRow) : option Z :=
  parse_i64 (match field_text "expiresAt" (row_data row) with
             | Some t => if str_empty t then "0" else t
             | None => "0" end).
Definition revocation_expired (now_secs : Z) (row : DocRow) : bool :=
  match revocation_expiry row with Some e => (e <? now_secs)%Z | None => false end.
Definition cleanup_revoked_tokens (pg_invalid_bigint : string) (now_secs : Z) (s : store) :
    store * Result nat :=
  let rows := table_rows s revoked_table in
  if bool_decide (map_Forall (λ _ row, is_Some (revocation_expiry row)) rows) then
    (<[revoked_table := filter (λ kr : string * DocRow, revocation_expired now_secs kr.2 = false) rows]> s,
     Ok (size (filter (λ kr : string * DocRow, revocation_expired now_secs kr.2 = true) rows)))
  else (s, Err (Database ("Failed to cleanup revoked tokens: " +:+ pg_invalid_bigint))).
End revocation.

(** ** key_rotation.rs *)

Record KeyMetadata : Type := {
  km_created_at : Z;
  km_fingerprint : string;
  km_is_current : bool;
}.
Record KeyRotationManager : Type := {
  current_key_metadata : KeyMetadata;
  previous_keys_metadata : list KeyMetadata;   (** a [VecDeque], front first *)
}.

Definition new_rotation (fingerprint : string) (now : Z) : KeyRotationManager :=
  {| current_key_metadata :=
       {| km_created_at := now; km_fingerprint := fingerprint; km_is_current := true |};
     previous_keys_metadata := [] |}.

Definition pop_back {A} (l : list A) : list A := take (length l - 1) l.

Definition rotate (new_fingerprint : string) (now : Z) (k : KeyRotationManager) :
    KeyRotationManager :=
  let old_key := {| km_created_at := km_created_at (current_key_metadata k);
                    km_fingerprint := km_fingerprint (current_key_metadata k);
                    km_is_current := false |} in
  let previous := old_key :: previous_keys_metadata k in
  {| current_key_metadata :=
       {| km_created_at := now; km_fingerprint := new_fingerprint; km_is_current := true |};
     previous_keys_metadata := if 2 <? length previous then pop_back previous else previous |}.

Definition all_fingerprints (k : KeyRotationManager) : list string :=
  km_fingerprint (current_key_metadata k) :: (km_fingerprint <$> previous_keys_metadata k).

Definition fingerprint_public_key `{S : Sha} (public_pem : string) : Result string :=
  Ok (String.substring 0 16 (sha256_hex public_pem)).

(** ** totp.rs *)

Definition TOTP_STEP : N := 30.
Definition TOTP_SKEW : N := 1.

(** The TOTP library: whether a secret is acceptable, and the code of a time
    step; AES-256-GCM under a key and a nonce. *)
Class Totp := {
  totp_reject : string → option string;
  totp_code : string → N → string;
}.
Class Aead := {
  aead_encrypt : string → string → string → option string;
  aead_decrypt : string → string → string → option string;
  aead_error : string;
}.
(** What is encrypted decrypts, and carries a 16-byte tag. *)
Class AeadLaws (A : Aead) : Prop := {
  aead_roundtrip k n m c : aead_encrypt k n m = Some c → aead_decrypt k n c = Some m;
  aead_tag k n m c : aead_encrypt k n m = Some c → String.length c = String.length m + 16;
}.

Section totp.
Context `{T : Totp} `{A : Aead}.

(** [check_current] at the time [now]: the codes of the steps within the
    skew. *)
Definition check_current (secret code : string) (now : N) : bool :=
  let base := (now / TOTP_STEP - TOTP_SKEW)%N in
  existsb (λ i, totp_code secret (base + i)%N =s? code)
    (N.of_nat <$> seq 0 (N.to_nat (TOTP_SKEW * 2 + 1))).

(** [now]: seconds since the epoch; [now'] the library's own reading. *)
Definition verify_totp (secret code : string) (last_used_step : option N) (now now' : N) : Result N :=
  match totp_reject secret with
  | Some e => Err (Internal ("TOTP creation failed: " +:+ e))
  | None =>
      let current_step := (now / TOTP_STEP)%N in
      if match last_used_step with Some last => (current_step <=? last)%N | None => false end
      then Err (Auth "TOTP code already used")
      else if check_current secret code now' then Ok current_step
      else Err (Auth "Invalid TOTP code")
  end.

Definition encrypt_secret (secret encryption_key nonce : string) : Result string :=
  match aead_encrypt encryption_key nonce secret with
  | Some ciphertext => Ok (nonce +:+ ciphertext)
  | None => Err (Internal ("Encryption failed: " +:+ aead_error))
  end.

Definition decrypt_secret (encrypted encryption_key : string) : Result string :=
  if String.length encrypted <? 13 then Err (Internal "Encrypted data too short")
  else
    let nonce := String.substring 0 12 encrypted in
    let ciphertext := String.substring 12 (String.length encrypted - 12) encrypted in
    match aead_decrypt encryption_key nonce ciphertext with
    | Some m => Ok m
    | None => Err (Internal ("Decryption failed: " +:+ aead_error))
    end.
End totp.

(** [hex::encode] of 16 bytes, grouped. *)
Definition hex_digit (n : N) : ascii :=
  if (n <? 10)%N then ascii_of_N (48 + n) else ascii_of_N (87 + n).
Fixpoint hex_encode (bytes : list N) : string :=
  match bytes with
  | [] => ""
  | b :: bytes => String (hex_digit (b / 16)) (String (hex_digit (b mod 16)) (hex_encode bytes))
  end.
Definition RECOVERY_CODE_COUNT : nat := 8.
Definition recovery_code (buf : list N) : string :=
  let hex := hex_encode buf in
  String.substring 0 8 hex +:+ "-" +:+ String.substring 8 8 hex +:+ "-"
  +:+ String.substring 16 8 hex +:+ "-" +:+ String.substring 24 8 hex.
(** [random i]: the 16 bytes drawn for the code [i]. *)
Definition generate_recovery_codes (random : nat → list N) : list string :=
  (λ i, recovery_code (random i)) <$> seq 0 RECOVERY_CODE_COUNT.

(** ** password.rs *)

Definition MIN_PASSWORD_LENGTH : nat := 8.
Definition COMMON_PASSWORDS : list string :=
  ["password"; "12345678"; "123456789"; "1234567890"; "qwerty"; "qwerty123"; "abc123";
   "abc123456"; "password1"; "password123"; "iloveyou"; "monkey"; "dragon"; "master";
   "letmein"; "login"; "admin"; "welcome"; "shadow"; "sunshine"; "trustno1"; "football";
   "baseball"; "soccer"; "hockey"; "batman"; "superman"; "spider"; "michael"; "jennifer";
   "hunter"; "harley"; "ranger"; "buster"; "thomas"; "robert"; "george"; "asdfgh";
   "asdfghjkl"; "zxcvbn"; "zxcvbnm"; "qazwsx"; "qweasd"; "password!"; "password@";
   "password#"; "123456!"; "qwerty!"; "shop1234"; "store123"; "buybuy123"; "market1";
   "summer2024"; "winter2024"; "spring2024"; "fall2024"; "summer2025"; "winter2025";
   "spring2025"; "fall2025"; "summer2026"; "winter2026"; "spring2026"; "fall2026";
   "Password1!"; "Password123!"; "Qwerty1!"; "Qwerty123!"; "Summer2024!"; "Winter2024!";
   "Spring2024!"; "Fall2024!"; "Abc123456!"; "Monkey1!"; "Dragon1!"; "Welcome1!"].

Definition special_chars : string :=
  "!@#$%^&*()_+-=[]{}|;':" +:+ str1 QUOTE +:+ ",./<>?~`".

(** [to_lowercase], as far as equality with an ASCII text goes: the ASCII
    letters, and the Kelvin sign, the only other character whose lower case is
    ASCII. *)
Definition kelvin : string := String "226" (String "132" (str1 "170")).
Definition to_lowercase (s : string) : string := str_replace kelvin "k" (lower s).

Definition missing_classes (password : string) : list string :=
  (filter (λ '(_, ok), ok = false)
    [("an uppercase letter", str_exists is_upper password);
     ("a lowercase letter", str_exists is_lower password);
     ("a digit", str_exists is_digit password);
     ("a special character",
      str_exists (λ c, str_exists (Ascii.eqb c) special_chars) password)]).*1.

Definition validate_password_strength (password : string) : Result unit :=
  if String.length password <? MIN_PASSWORD_LENGTH then
    Err (Validation ("Password must be at least " +:+ pretty MIN_PASSWORD_LENGTH +:+ " characters"))
  else match missing_classes password with
  | _ :: _ => Err (Validation
      ("Password must include: " +:+ join ", " (missing_classes password)))
  | [] =>
      if existsb (λ p, to_lowercase p =s? to_lowercase password) COMMON_PASSWORDS then
        Err (Validation "Password is too common. Please choose a stronger password.")
      else Ok tt
  end.

(** ** Revocation *)

(** A SHA-256 digest in hexadecimal has no colon. *)
Class ShaLaws (S : Sha) : Prop := {
  sha256_hex_text m : str_forall is_alnum (sha256_hex m) = true;
}.

Section revocation_properties.
Context `{C : Chrono} `{P : PgJson} `{S : Sha} `{!PgJsonLaws P} `{!ShaLaws S}.
Implicit Types s : store.

(** The table only holds what [revoke_token] writes: rows named by their
    hash. *)
Definition revocations_wf (s : store) : Prop :=
  ∀ id row, table_rows s revoked_table !! id = Some row →
    ∃ m, row_data row = VObject m ∧ assoc_get "hash" m = Some (VString id).

Lemma revocation_fold h (l : list (string * DocRow)) :
  NoDup l.*1 →
  (∀ id row, (id, row) ∈ l → field_text "hash" (row_data row) = Some id) →
  foldr (λ '(_, row) acc,
      if bool_decide (field_text "hash" (row_data row) = Some h)
      then later (Some row) acc else acc) None l
  = (list_to_map l : gmap string DocRow) !! h.
Proof.
  induction l as [|[id row] l IH]; [done|]. cbn [foldr list_to_map fmap list_fmap map fst].
  intros [Hnin Hnd]%NoDup_cons Hl. rewrite (Hl id row) by left.
  rewrite IH; [|done|intros; apply Hl; by right]. cbn.
  destruct (decide (id = h)) as [->|Hne].
  - rewrite bool_decide_true by done. rewrite lookup_insert_eq.
    by rewrite not_elem_of_list_to_map_1.
  - rewrite bool_decide_false by congruence. by rewrite lookup_insert_ne.
Qed.

Lemma revocation_row_lookup h s :
  revocations_wf s → revocation_row h s = table_rows s revoked_table !! h.
Proof.
  intros Hwf. unfold revocation_row. rewrite revocation_fold.
  - by rewrite list_to_map_to_list.
  - apply NoDup_fst_map_to_list.
  - intros id row Hin%elem_of_map_to_list. destruct (Hwf _ _ Hin) as (m & Hm & Hh).
    unfold field_text. rewrite Hm. cbn. by rewrite Hh.
Qed.

Lemma hash_not_prefixed token : bare_id revoked_table (hash_token token) = hash_token token.
Proof.
  apply bare_id_plain. destruct (strip_prefix _ _) as [r|] eqn:E; [|done].
  apply strip_prefix_Some in E. pose proof (sha256_hex_text token) as H.
  unfold hash_token in E. rewrite E in H. by vm_compute in H.
Qed.

(** The row [revoke_token] leaves, fresh or merged over an older one. *)
Definition revocation_data (h : string) (expires_at : Z) (now : Z) : list (string * Value) :=
  [("expiresAt", of_i64 expires_at); ("hash", VString h); ("revokedAt", VString (to_rfc3339 now))].

Lemma revoke_token_row token ttl now_secs now s :
  revocations_wf s →
  ∃ s' row m, revoke_token token ttl now_secs now s = (s', Ok tt)
    ∧ row_data row = VObject m
    ∧ assoc_get "hash" m = Some (VString (hash_token token))
    ∧ assoc_get "expiresAt" m = Some (of_i64 (wrap_signed 64 (now_secs + u64_as_i64 ttl)))
    ∧ table_rows s' revoked_table = <[hash_token token := row]> (table_rows s revoked_table).
Proof.
  intros Hwf. unfold revoke_token, upsert_document.
  rewrite with_table_valid by done. cbv beta zeta. rewrite hash_not_prefixed, table_rows_ensured.
  set (d := revocation_data (hash_token token) (wrap_signed 64 (now_secs + u64_as_i64 ttl)) now).
  destruct (table_rows s revoked_table !! hash_token token) as [row|] eqn:E.
  - destruct (Hwf _ _ E) as (m & Hm & _).
    eexists _, (merged_row (VObject d) now row), (merge_objects m d).
    split; [reflexivity|]. split; [cbn [merged_row row_data]; by rewrite Hm|].
    rewrite !(assoc_get_merge _ m d) by (apply (bool_decide_unpack _); by vm_compute).
    split_and!; [done|done|]. by rewrite table_rows_insert.
  - eexists _, {| row_data := VObject d; row_created_at := now; row_updated_at := now |}, d. split; [reflexivity|]. split; [reflexivity|].
    split_and!; [done|done|]. by rewrite table_rows_insert.
Qed.

Lemma revoke_token_wf token ttl now_secs now s :
  revocations_wf s → revocations_wf (revoke_token token ttl now_secs now s).1.
Proof.
  intros Hwf. destruct (revoke_token_row token ttl now_secs now s Hwf)
    as (s' & row & m & -> & Hm & Hh & _ & Hrows). cbn [fst].
  intros id row'. rewrite Hrows. intros [[<- <-]|[_ Hl]]%lookup_insert_Some; eauto.
Qed.

(** A revoked token is refused from its revocation until the end of its
    lifetime, and the revocation of one token does not affect the check of
    another (with another hash); the table keeps its form. *)
Theorem revoke_then_revoked token ttl now_secs now s :
  revocations_wf s → (0 ≤ now_secs ≤ 2 ^ 62)%Z → (ttl < 2 ^ 62)%N →
  ∃ s', revoke_token token ttl now_secs now s = (s', Ok tt) ∧ revocations_wf s'
    ∧ (∀ t, is_token_revoked token t s' = Ok (t <? now_secs + Z.of_N ttl)%Z)
    ∧ (∀ t token', hash_token token' ≠ hash_token token →
         is_token_revoked token' t s' = is_token_revoked token' t s).
Proof.
  intros Hwf Hnow Httl. destruct (revoke_token_row token ttl now_secs now s Hwf)
    as (s' & row & m & Hr & Hm & Hh & He & Hrows).
  assert (u64_as_i64 ttl = Z.of_N ttl) as Hu by (apply wrap_signed_id; lia).
  rewrite Hu, wrap_signed_id in He by lia.
  pose proof (revoke_token_wf token ttl now_secs now s Hwf) as Hwf'. rewrite Hr in Hwf'.
  exists s'. split_and!; [done|done|..].
  - intros t. unfold is_token_revoked. rewrite revocation_row_lookup, Hrows by done.
    rewrite lookup_insert_eq. cbn. unfold field_text. rewrite Hm. cbn. rewrite He. cbn -[of_i64].
    rewrite of_i64_text by (unfold i64_max; lia). cbn. rewrite parse_i64_pretty; [done|].
    unfold i64_max. lia.
  - intros t token' Hne. unfold is_token_revoked.
    rewrite !revocation_row_lookup, Hrows by done. by rewrite lookup_insert_ne.
Qed.

Lemma kept_lookup now_secs s id :
  filter (λ kr : string * DocRow, revocation_expired now_secs kr.2 = false)
    (table_rows s revoked_table) !! id
  = (row ← table_rows s revoked_table !! id; if revocation_expired now_secs row then None else Some row).
Proof.
  destruct (table_rows s revoked_table !! id) as [row|] eqn:E; cbn.
  - destruct (revocation_expired now_secs row) eqn:Ee.
    + apply map_lookup_filter_None. right. intros x Hx. cbn. congruence.
    + by apply map_lookup_filter_Some.
  - apply map_lookup_filter_None. by left.
Qed.

Lemma expired_not_revoked now_secs now_secs' row :
  (now_secs ≤ now_secs')%Z → revocation_expired now_secs row = true →
  match (text ← field_text "expiresAt" (row_data row); parse_i64 text) with
  | Some e => (now_secs' <? e)%Z | None => false end = false.
Proof.
  unfold revocation_expired, revocation_expiry. intros Hle Ee.
  destruct (field_text "expiresAt" (row_data row)) as [[|c t]|]; cbn; [done| |done].
  cbn [str_empty] in Ee. destruct (parse_i64 (String c t)) as [e|]; [|done].
  apply Z.ltb_lt in Ee. apply Z.ltb_ge. lia.
Qed.

(** Removing the expired revocations un-revokes no token: every later
    check answers as it would have without the cleanup. *)
Theorem revocation_cleanup_transparent token pg_error now_secs now_secs' s :
  revocations_wf s → (now_secs ≤ now_secs')%Z →
  is_token_revoked token now_secs' (cleanup_revoked_tokens pg_error now_secs s).1
  = is_token_revoked token now_secs' s.
Proof.
  intros Hwf Hle. unfold cleanup_revoked_tokens. case_bool_decide; [|done]. cbn [fst].
  unfold is_token_revoked. rewrite !revocation_row_lookup; [|done|].
  - rewrite table_rows_insert, kept_lookup.
    destruct (table_rows s revoked_table !! hash_token token) as [row|]; [|done]. cbn.
    destruct (revocation_expired now_secs row) eqn:Ee; [|done]. f_equal. symmetry.
    by apply expired_not_revoked with now_secs.
  - intros id row. rewrite table_rows_insert. intros [Hl _]%map_lookup_filter_Some. eauto.
Qed.
End revocation_properties.

(** ** Key rotation *)

Definition rotations (k : KeyRotationManager) (l : list (string * Z)) : KeyRotationManager :=
  foldl (λ k '(fingerprint, now), rotate fingerprint now k) k l.

Lemma rotate_fingerprints fp now k :
  length (previous_keys_metadata k) ≤ 2 →
  all_fingerprints (rotate fp now k) = take 3 (fp :: all_fingerprints k)
  ∧ length (previous_keys_metadata (rotate fp now k)) ≤ 2.
Proof.
  destruct k as [cur prev]. cbn. intros H.
  destruct prev as [|a [|b [|c prev]]]; cbn in *; try lia; split; done || lia.
Qed.

(** After any sequence of rotations, the keys accepted for verification
    are the three most recent ones, the current one first. *)
Theorem rotation_keeps_three fp0 t0 l :
  all_fingerprints (rotations (new_rotation fp0 t0) l) = take 3 (reverse (fp0 :: l.*1)).
Proof.
  cut (all_fingerprints (rotations (new_rotation fp0 t0) l) = take 3 (reverse (fp0 :: l.*1))
       ∧ length (previous_keys_metadata (rotations (new_rotation fp0 t0) l)) ≤ 2); [by intros []|].
  induction l as [|[fp t] l IH] using rev_ind; [cbn; split; [done|lia]|].
  unfold rotations in *. rewrite foldl_app. cbn [foldl]. destruct IH as [IH Hlen].
  destruct (rotate_fingerprints fp t _ Hlen) as [-> Hlen']. split; [|done].
  rewrite IH, fmap_app. cbn [fmap list_fmap map fst].
  change (fp0 :: l.*1 ++ [fp]) with ((fp0 :: l.*1) ++ [fp]). rewrite reverse_app.
  cbn [reverse rev_append app]. change (reverse [fp]) with [fp]. cbn [app].
  cbn [take]. f_equal. by rewrite take_take.
Qed.

(** ** One-time passwords *)
Section totp_properties.
Context `{T : Totp} `{A : Aead}.

Definition accepted (r : Result N) : bool := is_ok r.

(** A user's attempts: each takes a code and the two clock readings; the last
    used step is stored on success. *)
Fixpoint totp_attempts (secret : string) (last : option N) (l : list (string * N * N)) : list (Result N) :=
  match l with
  | [] => []
  | (code, now, now') :: l =>
      let r := verify_totp secret code last now now' in
      r :: totp_attempts secret (match r with Ok step => Some step | _ => last end) l
  end.

Lemma verify_totp_Ok secret code last now now' step :
  verify_totp secret code last now now' = Ok step →
  step = (now / TOTP_STEP)%N ∧ check_current secret code now' = true
  ∧ (∀ l, last = Some l → (l < step)%N).
Proof.
  unfold verify_totp. destruct (totp_reject secret); [done|]. cbv zeta.
  destruct (match last with Some l => _ | None => _ end) eqn:E; [done|].
  destruct (check_current secret code now'); [|done]. intros [= <-]. split_and!; [done..|].
  intros l ->. apply N.leb_gt in E. done.
Qed.

Lemma totp_attempts_after secret last l step :
  Ok step ∈ totp_attempts secret (Some last) l → (last < step)%N.
Proof.
  revert last. induction l as [|[[code now] now'] l IH]; intros last; cbn.
  - by intros ?%not_elem_of_nil.
  - intros [Heq|Hin]%elem_of_cons.
    + symmetry in Heq. apply verify_totp_Ok in Heq as (_ & _ & H). eauto.
    + destruct (verify_totp secret code (Some last) now now') as [s| |] eqn:E; eauto.
      apply verify_totp_Ok in E as (_ & _ & H). specialize (H _ eq_refl).
      specialize (IH _ Hin). lia.
Qed.

(** C38: however many codes a user sends, at most one is accepted per 30-second
    step: the accepted steps are strictly increasing. *)
Theorem totp_one_per_step secret last l :
  StronglySorted N.lt (omap (λ r, match r with Ok s => Some s | _ => None end)
                        (totp_attempts secret last l)).
Proof.
  revert last. induction l as [|[[code now] now'] l IH]; intros last; [constructor|].
  cbn [totp_attempts]. cbv zeta.
  destruct (verify_totp secret code last now now') as [s| |]; cbn; [|apply IH..].
  constructor; [apply IH|]. apply Forall_forall. intros s' Hin.
  apply list_elem_of_omap in Hin as (r & Hr & Hs). destruct r as [s''| |]; try done.
  injection Hs as ->. by eapply totp_attempts_after.
Qed.

(** A code can be replayed in the next step: the library accepts the codes
    of the neighbouring steps, and the replay check compares the current step,
    not the step of the code, so a code accepted in its own step is accepted
    again 30 seconds later. *)
Theorem totp_replay_next_step secret now :
  totp_reject secret = None →
  let k := (now / TOTP_STEP)%N in
  (1 ≤ k)%N →
  verify_totp secret (totp_code secret k) None now now = Ok k
  ∧ verify_totp secret (totp_code secret k) (Some k) (now + TOTP_STEP) (now + TOTP_STEP)
    = Ok (k + 1)%N.
Proof.
  intros Hs k Hk.
  assert ((now + TOTP_STEP) / TOTP_STEP = k + 1)%N as Hk'.
  { unfold k. rewrite <- (N.mul_1_l TOTP_STEP) at 1. rewrite N.div_add by done. done. }
  assert (∀ i n, (i < 3)%N → (n / TOTP_STEP - TOTP_SKEW + i = k)%N →
    check_current secret (totp_code secret k) n = true) as Hcheck.
  { intros i n Hi Hn. unfold check_current. apply existsb_exists. exists i. split.
    - apply list_elem_of_In, list_elem_of_fmap. exists (N.to_nat i). split; [lia|].
      apply elem_of_seq. change (N.to_nat (TOTP_SKEW * 2 + 1)) with 3. lia.
    - cbn. rewrite Hn. apply str_eqb_refl. }
  unfold verify_totp. rewrite Hs. cbv zeta. fold k. split.
  - rewrite (Hcheck 1%N); [done|lia|]. fold k. unfold TOTP_SKEW. lia.
  - rewrite Hk'. rewrite (proj2 (N.leb_gt _ _)) by lia.
    rewrite (Hcheck 0%N); [done|lia|]. rewrite Hk'. unfold TOTP_SKEW. lia.
Qed.

Lemma substring_app_l a b : String.substring 0 (String.length a) (a +:+ b) = a.
Proof.
  induction a as [|c a IH]; [by destruct b|]. rewrite str_app_cons. cbn. by rewrite IH.
Qed.

Lemma substring_app_r a b n :
  String.substring (String.length a) n (a +:+ b) = String.substring 0 n b.
Proof. induction a as [|c a IH]; [done|]. rewrite str_app_cons. cbn. apply IH. Qed.

Lemma substring_all b : String.substring 0 (String.length b) b = b.
Proof. rewrite <- (str_app_nil_r b) at 2. apply substring_app_l. Qed.

(** A stored secret decrypts to itself: what [encrypt_secret] produces with
    a 12-byte nonce is long enough and split at the right place by
    [decrypt_secret]. *)
Theorem secret_roundtrip secret key nonce c :
  AeadLaws A → String.length nonce = 12 →
  encrypt_secret secret key nonce = Ok c → decrypt_secret c key = Ok secret.
Proof.
  intros HA Hn H. unfold encrypt_secret in H.
  destruct (aead_encrypt key nonce secret) as [ct|] eqn:E; [|done]. injection H as <-.
  pose proof (aead_tag _ _ _ _ E) as Hlen. unfold decrypt_secret.
  rewrite str_length_app, Hn, Hlen.
  rewrite (proj2 (Nat.ltb_ge _ _)) by lia. cbv zeta. rewrite <- Hn at 1.
  rewrite substring_app_l.
  replace (12 + (String.length secret + 16) - 12) with (String.length ct) by lia.
  rewrite <- Hn at 1. rewrite substring_app_r, substring_all.
  by rewrite (aead_roundtrip _ _ _ _ E).
Qed.
End totp_properties.

(** ** Passwords *)

(** A password is accepted exactly when it has at least eight bytes, an
    upper case letter, a lower case letter, a digit and a special character, and
    is not, up to case, one of the listed common passwords. *)
Theorem validate_password_strength_spec password :
  validate_password_strength password = Ok tt ↔
  8 ≤ String.length password
  ∧ str_exists is_upper password = true ∧ str_exists is_lower password = true
  ∧ str_exists is_digit password = true
  ∧ str_exists (λ c, str_exists (Ascii.eqb c) special_chars) password = true
  ∧ ∀ p, p ∈ COMMON_PASSWORDS → to_lowercase p ≠ to_lowercase password.
Proof.
  unfold validate_password_strength, missing_classes, MIN_PASSWORD_LENGTH.
  destruct (String.length password <? 8) eqn:E.
  { apply Nat.ltb_lt in E. split; [done|lia]. }
  apply Nat.ltb_ge in E.
  destruct (str_exists is_upper password); [|cbn; naive_solver].
  destruct (str_exists is_lower password); [|cbn; naive_solver].
  destruct (str_exists is_digit password); [|cbn; naive_solver].
  destruct (str_exists _ password); [|cbn; naive_solver].
  destruct (existsb _ _) eqn:Ec.
  - split; [done|]. intros (_ & _ & _ & _ & _ & H).
    apply existsb_exists in Ec as (p & Hin & Heq). bools. exfalso.
    by apply (H p); [apply list_elem_of_In|].
  - split; [|done]. intros _. split_and!; [done..|]. intros p Hin Heq.
    apply not_true_iff_false in Ec. apply Ec, existsb_exists. exists p.
    split; [by apply list_elem_of_In|]. rewrite Heq. apply str_eqb_refl.
Qed.

(** ** Witnesses *)
Section token_witnesses.
#[local] Instance demo_tok_chrono : Chrono := plain_chrono.
#[local] Instance demo_tok_json : PgJson :=
  {| jsonb_text := plain_value; pg_negative_offset := "" |}.
#[local] Instance demo_tok_sha : Sha := {| sha256_hex := λ s, hex_encode (byte_of <$> String.list_ascii_of_string s) |}.
#[local] Instance demo_totp : Totp := {| totp_reject := λ _, None; totp_code := λ _ k, pretty k |}.
#[local] Instance demo_aead : Aead :=
  {| aead_encrypt := λ _ _ m, Some (m +:+ "0123456789abcdef");
     aead_decrypt := λ _ _ c, Some (String.substring 0 (String.length c - 16) c); aead_error := "aead" |}.

Lemma hex_digit_alnum n : (n < 16)%N → is_alnum (hex_digit n) = true.
Proof.
  intros H. assert (n ∈ [0; 1; 2; 3; 4; 5; 6; 7; 8; 9; 10; 11; 12; 13; 14; 15]%N) as Hin.
  { rewrite !elem_of_cons. lia. }
  repeat (apply elem_of_cons in Hin as [->|Hin]; [by vm_compute|]).
  by apply not_elem_of_nil in Hin.
Qed.

Lemma demo_sha_laws : ShaLaws demo_tok_sha.
Proof.
  constructor. intros m. cbn. assert (Forall (λ b, b < 256)%N (byte_of <$> String.list_ascii_of_string m)) as H.
  { apply Forall_fmap, Forall_forall. intros c _. apply N_ascii_bounded. }
  induction H as [|b l Hb H IH]; [done|]. cbn.
  rewrite !hex_digit_alnum, IH; [done|apply N.mod_lt; lia|apply N.Div0.div_lt_upper_bound; lia].
Qed.

Lemma demo_json_laws : PgJsonLaws demo_tok_json.
Proof.
  constructor. intros z _. unfold of_i64. by destruct z as [|p|p].
Qed.

Lemma demo_aead_laws : AeadLaws demo_aead.
Proof.
  split; intros k n m c [= <-]; cbn; rewrite str_length_app; cbn.
  - f_equal. replace (String.length m + 16 - 16) with (String.length m) by lia. apply substring_app_l.
  - done.
Qed.

Lemma revocations_empty : revocations_wf (∅ : store).
Proof. intros id row. unfold table_rows. rewrite lookup_empty. cbn. by rewrite lookup_empty. Qed.

Lemma revoke_then_revoked_witness :
  ∃ s', revoke_token "tok" 3600 1000 0 ∅ = (s', Ok tt) ∧ revocations_wf s'
    ∧ (∀ t, is_token_revoked "tok" t s' = Ok (t <? 1000 + Z.of_N 3600)%Z)
    ∧ (∀ t token', hash_token token' ≠ hash_token "tok" →
         is_token_revoked token' t s' = is_token_revoked token' t ∅).
Proof.
  apply (revoke_then_revoked (PgJsonLaws0 := demo_json_laws) (ShaLaws0 := demo_sha_laws));
    [apply revocations_empty|lia|lia].
Defined.

Definition logged_out : store :=
  (revoke_token "tok" 3600 1000 0 (revoke_token "old" 5 1000 0 ∅).1).1.

Lemma revocation_cleanup_transparent_witness :
  is_token_revoked "tok" 3000 (cleanup_revoked_tokens "" 2000 logged_out).1
  = is_token_revoked "tok" 3000 logged_out.
Proof.
  apply revocation_cleanup_transparent; [|lia].
  apply (revoke_token_wf (ShaLaws0 := demo_sha_laws)), (revoke_token_wf (ShaLaws0 := demo_sha_laws)).
  apply revocations_empty.
Defined.

Lemma totp_replay_next_step_witness :
  verify_totp "secret" (totp_code "secret" 2) None 65 65 = Ok 2%N
  ∧ verify_totp "secret" (totp_code "secret" 2) (Some 2%N) (65 + TOTP_STEP) (65 + TOTP_STEP) = Ok 3%N.
Proof. apply (totp_replay_next_step "secret" 65); [done|]. by vm_compute. Defined.

Lemma secret_roundtrip_witness :
  decrypt_secret ("nonce-12byte" +:+ "secret0123456789abcdef") "key" = Ok "secret".
Proof.
  by apply (secret_roundtrip "secret" "key" "nonce-12byte" _ demo_aead_laws).
Defined.
End token_witnesses.
