(* ===== verification/Handlers.v ===== *)
(** * What the endpoint handlers share

    A handler of crates/ob-handlers runs operations of the document store in
    order and stops at the first error: [handler] is that state and error monad,
    with rules to reason about it.  Then the shared helpers: the input checks of
    shared/validation.rs, the per-user limiter of shared/rate_limiter.rs, the
    checks of shared/auth.rs, and the statuses of shared/schema.rs. *)

From S2P Require Export DocStore.

(** ** The handlers' monad *)

Definition handler (A : Type) : Type := store → store * Result A.

Global Instance handler_ret : MRet handler := λ A a s, (s, Ok a).
Global Instance handler_bind : MBind handler := λ A B k m s,
  match m s with
  | (s, Ok a) => k a s
  | (s, Err e) => (s, Err e)
  | (s, Panic) => (s, Panic)
  end.

(** A store operation, a pure result, [map_err] and [let _ = ...]. *)
Definition db {A} (op : store → store * Result A) : handler A := op.
Definition pure {A} (r : Result A) : handler A := λ s, (s, r).
Definition db_map_err {A} (f : Error → Error) (op : store → store * Result A) : handler A :=
  λ s, let '(s, r) := op s in (s, map_err f r).
Definition ignored {A} (op : store → store * Result A) : handler unit :=
  λ s, match op s with (s, Panic) => (s, Panic) | (s, _) => (s, Ok tt) end.

(** [op.await.ok()]: the handler goes on without the value. *)
Definition attempt {A} (op : store → store * Result A) : handler (option A) :=
  λ s, match op s with
       | (s, Ok a) => (s, Ok (Some a))
       | (s, Err _) => (s, Ok None)
       | (s, Panic) => (s, Panic)
       end.

(** [m], run from [s], ends in a state and a result related by [Φ]. *)
Definition runs {A} (m : handler A) (s : store) (Φ : store → Result A → Prop) : Prop :=
  Φ (m s).1 (m s).2.

Lemma runs_bind {A B} (m : handler A) (k : A → handler B) s Φ :
  runs m s (λ s' r, match r with
    | Ok a => runs (k a) s' Φ
    | Err e => Φ s' (Err e)
    | Panic => Φ s' Panic
    end) →
  runs (m ≫= k) s Φ.
Proof. unfold runs, mbind, handler_bind. by destruct (m s) as [s' [a|e|]]. Qed.

Lemma runs_pure {A} (r : Result A) s Φ : Φ s r → runs (pure r) s Φ.
Proof. done. Qed.

Lemma runs_consequence {A} (m : handler A) s Φ Ψ :
  runs m s Φ → (∀ s' r, Φ s' r → Ψ s' r) → runs m s Ψ.
Proof. unfold runs. eauto. Qed.

(** The run of a sequence that succeeds, both ways. *)
Lemma bind_ok {A B} (m : handler A) (k : A → handler B) s s' b :
  (m ≫= k) s = (s', Ok b) → ∃ s1 a, m s = (s1, Ok a) ∧ k a s1 = (s', Ok b).
Proof. unfold mbind, handler_bind. destruct (m s) as [s1 [a|e|]]; [eauto|done|done]. Qed.
Lemma bind_run {A B} (m : handler A) (k : A → handler B) s s1 a :
  m s = (s1, Ok a) → (m ≫= k) s = k a s1.
Proof. unfold mbind, handler_bind. by intros ->. Qed.
Lemma pure_ok {A} (r : Result A) s s' a : pure r s = (s', Ok a) → s' = s ∧ r = Ok a.
Proof. unfold pure. by intros [= -> ->]. Qed.
Lemma map_err_ok {A} f (op : store → store * Result A) s s' a :
  db_map_err f op s = (s', Ok a) → op s = (s', Ok a).
Proof. unfold db_map_err. destruct (op s) as [s1 []]; cbn; naive_solver. Qed.

(** Takes apart a successful run, step by step. *)
Ltac run_inv H :=
  let s1 := fresh "s" in let a := fresh "a" in let H1 := fresh "R" in
  apply bind_ok in H as (s1 & a & H1 & H);
  lazymatch type of H1 with
  | pure _ _ = _ => apply pure_ok in H1 as [-> H1]
  | db_map_err _ _ _ = _ => apply map_err_ok in H1
  | _ => idtac
  end.

(** [m] leaves the rows of the collection [c] as they are. *)
Definition keeps {A} (c : string) (m : handler A) : Prop :=
  ∀ s, table_rows (m s).1 c = table_rows s c.

Lemma keeps_run {A} c (m : handler A) s s' r :
  keeps c m → m s = (s', r) → table_rows s' c = table_rows s c.
Proof. intros Hk H. specialize (Hk s). by rewrite H in Hk. Qed.

Lemma keeps_bind {A B} c (m : handler A) (k : A → handler B) :
  keeps c m → (∀ a, keeps c (k a)) → keeps c (m ≫= k).
Proof.
  intros Hm Hk s. unfold mbind, handler_bind. specialize (Hm s).
  destruct (m s) as [s' [a|e|]]; cbn in *; [by rewrite Hk|done|done].
Qed.

Lemma keeps_pure {A} c (r : Result A) : keeps c (pure r).
Proof. done. Qed.

Lemma keeps_ignored {A} c (op : store → store * Result A) : keeps c (db op) → keeps c (ignored op).
Proof. intros H s. specialize (H s). unfold ignored, db in *. by destruct (op s) as [s' [a|e|]]. Qed.

Lemma keeps_attempt {A} c (op : store → store * Result A) : keeps c (db op) → keeps c (attempt op).
Proof. intros H s. specialize (H s). unfold attempt, db in *. by destruct (op s) as [s' [a|e|]]. Qed.

Lemma keeps_map_err {A} c f (op : store → store * Result A) :
  keeps c (db op) → keeps c (db_map_err f op).
Proof. intros H s. specialize (H s). unfold db_map_err, db in *. by destruct (op s). Qed.

Section keeps.
Context `{C : Chrono} `{P : PgJson}.

Lemma keeps_with_table {A} c c' (k : string → store → store * Result A) :
  (∀ s, table_rows (k c' s).1 c = table_rows s c) → keeps c (db (λ s, with_table c' s k)).
Proof.
  intros Hk s. unfold db, with_table, ensure_table, sanitize_table_name.
  destruct (validate_identifier c'); cbn; [|done|done]. rewrite Hk.
  change (<[c' := _]> s) with (ensured c' s). apply table_rows_ensured.
Qed.

Lemma keeps_get c c' id : keeps c (db (get_document c' id)).
Proof. apply keeps_with_table. intros s. cbv zeta. by destruct (table_rows s c' !! bare_id c' id). Qed.

Lemma keeps_create c c' data fresh now :
  c' ≠ c → keeps c (db (create_document c' data fresh now)).
Proof.
  intros Hne. apply keeps_with_table. intros s. cbv zeta.
  destruct (table_rows s c' !! _); [done|]. by apply table_rows_insert_ne.
Qed.

(** Reading and writing one document, on the rows of its collection. *)
Lemma runs_get c id s Φ :
  is_ok (validate_identifier c) = true →
  (∀ row, table_rows s c !! bare_id c id = Some row → Φ (ensured c s) (Ok (row_to_doc (bare_id c id) row))) →
  (table_rows s c !! bare_id c id = None → Φ (ensured c s) (Err (not_found c (bare_id c id)))) →
  runs (db (get_document c id)) s Φ.
Proof.
  intros Hv Hs Hn. unfold runs, db, get_document. rewrite with_table_valid by done. cbv beta zeta.
  rewrite table_rows_ensured. destruct (table_rows s c !! bare_id c id) as [row|]; cbn; eauto.
Qed.

Lemma update_rows c id data now s :
  table_rows (update_document c id data now s).1 c
  = match table_rows s c !! bare_id c id with
    | Some row => if is_ok (validate_identifier c)
                  then <[bare_id c id := merged_row data now row]> (table_rows s c)
                  else table_rows s c
    | None => table_rows s c
    end.
Proof.
  destruct (is_ok (validate_identifier c)) eqn:Hv.
  - unfold update_document. rewrite with_table_valid by done. cbv beta zeta. rewrite table_rows_ensured.
    destruct (table_rows s c !! bare_id c id); cbn; [by rewrite table_rows_insert|apply table_rows_ensured].
  - unfold update_document, with_table, ensure_table, sanitize_table_name.
    destruct (validate_identifier c), (table_rows s c !! bare_id c id); done.
Qed.

Lemma update_cas_rows c id data field expected now s :
  is_ok (validate_identifier c) = true →
  table_rows (update_document_cas c id data field expected now s).1 c
  = match table_rows s c !! bare_id c id with
    | Some row => if cas_matches field expected row
                  then <[bare_id c id := merged_row data now row]> (table_rows s c)
                  else table_rows s c
    | None => table_rows s c
    end.
Proof.
  intros Hv. unfold update_document_cas. rewrite with_table_valid by done. cbv beta zeta.
  rewrite table_rows_ensured.
  destruct (table_rows s c !! bare_id c id) as [row|]; cbn; [|apply table_rows_ensured].
  destruct (cas_matches field expected row); cbn; [by rewrite table_rows_insert|apply table_rows_ensured].
Qed.

Lemma upsert_rows c id data now s :
  is_ok (validate_identifier c) = true →
  table_rows (upsert_document c id data now s).1 c
  = <[bare_id c id := match table_rows s c !! bare_id c id with
                      | Some row => merged_row data now row
                      | None => {| row_data := data; row_created_at := now; row_updated_at := now |}
                      end]> (table_rows s c).
Proof.
  intros Hv. unfold upsert_document. rewrite with_table_valid by done. cbv beta zeta.
  rewrite table_rows_ensured. cbn. by rewrite table_rows_insert.
Qed.

Lemma cas_applies c id data field expected now s row :
  is_ok (validate_identifier c) = true → table_rows s c !! bare_id c id = Some row →
  cas_matches field expected row = true →
  ∃ s' doc, update_document_cas c id data field expected now s = (s', Ok (Some doc))
    ∧ table_rows s' c = <[bare_id c id := merged_row data now row]> (table_rows s c).
Proof.
  intros Hv Hrow Hm. unfold update_document_cas. rewrite with_table_valid by done. cbv beta zeta.
  rewrite table_rows_ensured, Hrow, Hm. do 2 eexists. split; [reflexivity|]. by rewrite table_rows_insert.
Qed.

Lemma cas_refused c id data field expected now s row :
  is_ok (validate_identifier c) = true → table_rows s c !! bare_id c id = Some row →
  cas_matches field expected row = false →
  update_document_cas c id data field expected now s = (ensured c s, Ok None).
Proof.
  intros Hv Hrow Hm. unfold update_document_cas. rewrite with_table_valid by done. cbv beta zeta.
  by rewrite table_rows_ensured, Hrow, Hm.
Qed.
End keeps.

(** [m] leaves the documents alone of which [Q] holds, given by collection and
    id: the frame of a handler that writes some documents of a collection. *)
Definition spares {A} (Q : string → string → Prop) (m : handler A) : Prop :=
  ∀ s c id, Q c id → table_rows (m s).1 c !! id = table_rows s c !! id.

Section spares.
Context `{C : Chrono} `{P : PgJson} (Q : string → string → Prop).

Lemma spares_keeps {A} (m : handler A) : (∀ c id, Q c id → keeps c m) → spares Q m.
Proof. intros H s c id Hc. by rewrite (H c id Hc s). Qed.

Lemma spares_bind {A B} (m : handler A) (k : A → handler B) :
  spares Q m → (∀ a, spares Q (k a)) → spares Q (m ≫= k).
Proof.
  intros Hm Hk s c id Hc. unfold mbind, handler_bind. specialize (Hm s c id Hc).
  destruct (m s) as [s' [a|e|]]; cbn in *; [by rewrite Hk|done|done].
Qed.

Lemma spares_pure {A} (r : Result A) : spares Q (pure r).
Proof. done. Qed.

Lemma spares_pure_bind {A B} (r : Result A) (k : A → handler B) :
  (∀ a, r = Ok a → spares Q (k a)) → spares Q (pure r ≫= k).
Proof. intros H. destruct r as [a|e|]; [by apply (H a)|done..]. Qed.

Lemma spares_ignored {A} (op : store → store * Result A) : spares Q (db op) → spares Q (ignored op).
Proof. intros H s c id Hc. specialize (H s c id Hc). unfold ignored, db in *. by destruct (op s) as [s' [a|e|]]. Qed.

Lemma spares_attempt {A} (op : store → store * Result A) : spares Q (db op) → spares Q (attempt op).
Proof. intros H s c id Hc. specialize (H s c id Hc). unfold attempt, db in *. by destruct (op s) as [s' [a|e|]]. Qed.

Lemma spares_map_err {A} f (op : store → store * Result A) : spares Q (db op) → spares Q (db_map_err f op).
Proof. intros H s c id Hc. specialize (H s c id Hc). unfold db_map_err, db in *. by destruct (op s). Qed.

Lemma spares_get c id : spares Q (db (get_document c id)).
Proof. apply spares_keeps. intros c' id' _. apply keeps_get. Qed.

Lemma spares_update c id data now : ¬ Q c (bare_id c id) → spares Q (db (update_document c id data now)).
Proof.
  intros Hn s c' id' Hc. unfold db. destruct (decide (c = c')) as [<-|Hne].
  - rewrite update_rows. destruct (table_rows s c !! bare_id c id) as [row|]; [|done].
    destruct (is_ok _); [|done]. apply lookup_insert_ne. congruence.
  - refine (f_equal (lookup id') (keeps_with_table c' c _ _ s)). intros s1. cbv zeta.
    destruct (table_rows s1 c !! bare_id c id); [by apply table_rows_insert_ne|done].
Qed.

Lemma spares_upsert c id data now :
  is_ok (validate_identifier c) = true → ¬ Q c (bare_id c id) → spares Q (db (upsert_document c id data now)).
Proof.
  intros Hv Hn s c' id' Hc. unfold db. destruct (decide (c = c')) as [<-|Hne].
  - rewrite upsert_rows by done. apply lookup_insert_ne. congruence.
  - refine (f_equal (lookup id') (keeps_with_table c' c _ _ s)). intros s1. cbv zeta. by apply table_rows_insert_ne.
Qed.
End spares.

#[export] Hint Resolve keeps_bind keeps_pure keeps_ignored keeps_attempt keeps_map_err keeps_get keeps_create : ob.

(** ** shared/validation.rs *)

Definition validate_string (field value : string) (max_len : nat) : Result unit :=
  if str_empty value then Err (Validation (field +:+ " cannot be empty"))
  else if max_len <? String.length value then
    Err (Validation (field +:+ " exceeds max length of " +:+ pretty max_len))
  else Ok tt.

Definition validate_amount_cents (field : string) (cents : Z) : Result unit :=
  if (cents <=? 0)%Z then Err (Validation (field +:+ " must be greater than zero"))
  else if (10000000 <? cents)%Z then Err (Validation (field +:+ " exceeds maximum"))
  else Ok tt.

Definition validate_nutrition_amount (field : string) (value : Z) : Result unit :=
  if (value <? 0)%Z then Err (Validation (field +:+ " cannot be negative"))
  else if (999999 <? value)%Z then Err (Validation (field +:+ " exceeds maximum (999999)"))
  else Ok tt.

Definition validate_uid (field value : string) : Result unit :=
  if str_empty value then Err (Validation (field +:+ " cannot be empty"))
  else if 128 <? String.length value then Err (Validation (field +:+ " is too long"))
  else Ok tt.

(** [sanitize_html].  The patterns [(?i)<tag[^>]*>] and
    [(?i)<tag[^>]*>[\s\S]*?</tag>], as functions that return what follows a
    match at the start of a text; the case is ignored for ASCII. *)
Fixpoint strip_prefix_nocase (p s : string) : option string :=
  match p, s with
  | "", _ => Some s
  | String a p, String b s =>
      if Ascii.eqb (ascii_lower a) (ascii_lower b) then strip_prefix_nocase p s else None
  | _, "" => None
  end.
Fixpoint after_gt (s : string) : option string :=
  match s with
  | "" => None
  | String a s => if Ascii.eqb a ">" then Some s else after_gt s
  end.
Fixpoint after_nocase (p s : string) : option string :=
  match strip_prefix_nocase p s with
  | Some r => Some r
  | None => match s with "" => None | String _ s => after_nocase p s end
  end.
Definition open_pattern (tag s : string) : option string :=
  strip_prefix_nocase ("<" +:+ tag) s ≫= after_gt.
Definition block_pattern (tag s : string) : option string :=
  open_pattern tag s ≫= after_nocase ("</" +:+ tag +:+ ">").

(** [replace_all(.., "")]: the leftmost matches, one after the other. *)
Fixpoint remove_all (pattern : string → option string) (skip : nat) (s : string) : string :=
  match s with
  | "" => ""
  | String a s' =>
      match skip with
      | S k => remove_all pattern k s'
      | O => match pattern s with
             | Some rest => remove_all pattern (String.length s' - String.length rest) s'
             | None => String a (remove_all pattern 0 s')
             end
      end
  end.

(** The second pass. *)
Fixpoint strip_tags (in_tag : bool) (s : string) : string :=
  match s with
  | "" => ""
  | String ch s =>
      if Ascii.eqb ch "<" then strip_tags true s
      else if Ascii.eqb ch ">" then strip_tags false s
      else if in_tag then strip_tags in_tag s
      else String ch (strip_tags in_tag s)
  end.

Definition dangerous_tags : list string := ["script"; "style"; "iframe"; "object"; "embed"; "form"].
Definition sanitize_html (input : string) : string :=
  strip_tags false
    (foldl (λ cleaned tag,
        remove_all (open_pattern tag) 0 (remove_all (block_pattern tag) 0 cleaned))
      input dangerous_tags).

(** [chars().take(n).collect()] on UTF-8: a character starts at a byte that
    is not a continuation. *)
Definition is_continuation (c : ascii) : bool := in_range "128" "191" c.
Fixpoint take_chars (n : nat) (s : string) : string :=
  match s with
  | "" => ""
  | String c s =>
      if is_continuation c then String c (take_chars n s)
      else match n with O => "" | S n => String c (take_chars n s) end
  end.

(** ** shared/auth.rs *)

Record AuthContext : Type := {
  auth_user_id : string;
  auth_roles : list string;
  authenticated : bool;
  email_verified : bool;
  custom_claims : Value;
}.
Definition anonymous : AuthContext :=
  {| auth_user_id := ""; auth_roles := []; authenticated := false; email_verified := false;
     custom_claims := VNull |}.
Definition has_role (role : string) (auth : AuthContext) : bool :=
  existsb (str_eqb role) (auth_roles auth).

Definition require_authenticated (auth : AuthContext) : Result string :=
  if negb (authenticated auth) || str_empty (auth_user_id auth) then Err (Auth "Authentication required")
  else Ok (auth_user_id auth).
Definition require_admin (auth : AuthContext) : Result string :=
  user_id ← require_authenticated auth;
  if negb (has_role "admin" auth) then Err (Forbidden "Admin role required") else Ok user_id.

(** The check both resolvers make of a provided id. *)
Definition must_match (who : string) (provided : option string) (id field_name : string) :
    Result string :=
  match provided with
  | Some p => if negb (str_empty p) && negb (p =s? id)
              then Err (Forbidden (field_name +:+ " must match the authenticated " +:+ who))
              else Ok id
  | None => Ok id
  end.
Definition resolve_self_user_id (auth : AuthContext) (provided : option string)
    (field_name : string) : Result string :=
  user_id ← require_authenticated auth; must_match "user" provided user_id field_name.
Definition resolve_admin_user_id (auth : AuthContext) (provided : option string)
    (field_name : string) : Result string :=
  admin_id ← require_admin auth; must_match "admin" provided admin_id field_name.

(** ** shared/rate_limiter.rs *)
Section rate_limiter.
Context `{C : Chrono} `{P : PgJson}.
(** PostgreSQL's error for a text that is no [bigint]. *)
Context (pg_invalid_bigint : string).

(** [data->>'userId' = $user_id AND data->>'action' = $action]. *)
Definition limited (user_id action : string) (row : DocRow) : bool :=
  bool_decide (field_text "userId" (row_data row) = Some user_id)
  && bool_decide (field_text "action" (row_data row) = Some action).
(** [(data->>'createdAt')::bigint]: [None] is the error, [Some None] NULL. *)
Definition created_secs (row : DocRow) : option (option Z) :=
  match field_text "createdAt" (row_data row) with
  | None => Some None
  | Some text => Some <$> parse_i64 text
  end.
Definition recent (user_id action : string) (since : Z) (row : DocRow) : bool :=
  limited user_id action row
  && match created_secs row with Some (Some t) => (since <=? t)%Z | _ => false end.

(** The COUNT query. *)
Definition count_recent (user_id action : string) (since : Z) (rs : rows) : Result nat :=
  if bool_decide (map_Forall (λ _ row, limited user_id action row = true → is_Some (created_secs row)) rs)
  then Ok (size (filter (λ kr : string * DocRow, recent user_id action since kr.2 = true) rs))
  else Err (Database ("Query failed: " +:+ pg_invalid_bigint)).

Definition check_user_rate_limit (test_mode : bool) (user_id action : string) (max_requests : nat)
    (window_minutes now_secs : Z) (fresh : string) (now : Z) : handler unit :=
  if test_mode then pure (Ok tt)
  else
    let window_start := (now_secs - window_minutes * 60)%Z in
    _ ← ignored (ensure_table "rate_limits");
    count ← db (λ s, (s, count_recent user_id action window_start (table_rows s "rate_limits")));
    if max_requests <=? count then
      pure (Err (Validation "Rate limit exceeded. Please try again later."))
    else
      ignored (create_document "rate_limits"
        (VObject [("action", VString action); ("createdAt", of_i64 now_secs);
                  ("userId", VString user_id)]) fresh now).

Lemma keeps_ensure c c' : keeps c (db (ensure_table c')).
Proof.
  intros s. unfold db, ensure_table, sanitize_table_name.
  destruct (validate_identifier c'); [|done..]. cbn. apply (table_rows_ensured c' c s).
Qed.

Lemma keeps_rate_limit c test_mode user_id action max window now_secs fresh now :
  c ≠ "rate_limits" →
  keeps c (check_user_rate_limit test_mode user_id action max window now_secs fresh now).
Proof.
  intros Hc. unfold check_user_rate_limit. destruct test_mode; [apply keeps_pure|].
  apply keeps_bind; [apply keeps_ignored, keeps_ensure|]. intros _.
  apply keeps_bind; [done|]. intros count. destruct (max <=? count); [apply keeps_pure|].
  by apply keeps_ignored, keeps_create.
Qed.

(** *** The bound *)

(** The calls of one user for one action, at the given times, with the fresh
    ids of the records: which are let through. *)
Fixpoint limited_calls (user_id action : string) (max : nat) (window : Z)
    (calls : list (Z * string * Z)) (s : store) : list bool :=
  match calls with
  | [] => []
  | (t, fresh, now) :: calls =>
      let '(s, r) := check_user_rate_limit false user_id action max window t fresh now s in
      is_ok r :: limited_calls user_id action max window calls s
  end.

(** The records of the limiter, as it writes them. *)
Definition limits_wf (user_id action : string) (s : store) : Prop :=
  map_Forall (λ _ row, limited user_id action row = true → is_Some (created_secs row))
    (table_rows s "rate_limits").
Definition recent_count (user_id action : string) (since : Z) (s : store) : nat :=
  size (filter (λ kr : string * DocRow, recent user_id action since kr.2 = true)
    (table_rows s "rate_limits")).

Lemma recent_count_mono user_id action since since' s :
  (since' ≤ since)%Z →
  recent_count user_id action since s ≤ recent_count user_id action since' s.
Proof.
  intros Hle. apply map_subseteq_size, map_filter_subseteq_ext. intros id row _ H. cbn in *.
  unfold recent in *. bools. rewrite H. cbn. destruct (created_secs row) as [[t|]|]; try done.
  apply Z.leb_le. apply Z.leb_le in H0. lia.
Qed.

Context `{!PgJsonLaws P}.

Definition limit_record (user_id action : string) (t now : Z) : DocRow :=
  {| row_data := VObject [("action", VString action); ("createdAt", of_i64 t); ("userId", VString user_id)];
     row_created_at := now; row_updated_at := now |}.

Lemma limit_record_recent user_id action t now since :
  (- 2 ^ 63 ≤ t ≤ i64_max)%Z →
  is_Some (created_secs (limit_record user_id action t now))
  ∧ recent user_id action since (limit_record user_id action t now) = (since <=? t)%Z.
Proof.
  intros Ht.
  assert (field_text "userId" (row_data (limit_record user_id action t now)) = Some user_id) as Hu by done.
  assert (field_text "action" (row_data (limit_record user_id action t now)) = Some action) as Ha by done.
  assert (field_text "createdAt" (row_data (limit_record user_id action t now)) = Some (pretty t)) as Hc.
  { rewrite <- of_i64_text by done. reflexivity. }
  unfold recent, limited, created_secs. rewrite Hu, Ha, Hc, parse_i64_pretty by done.
  rewrite !bool_decide_true by done. split; [by eexists|done].
Qed.

Lemma rate_limit_call user_id action max window t fresh now s :
  limits_wf user_id action s → table_rows s "rate_limits" !! fresh = None →
  let refused := max <=? recent_count user_id action (t - window * 60) s in
  is_ok (check_user_rate_limit false user_id action max window t fresh now s).2 = negb refused
  ∧ table_rows (check_user_rate_limit false user_id action max window t fresh now s).1 "rate_limits"
    = (if refused then table_rows s "rate_limits"
       else <[fresh := limit_record user_id action t now]> (table_rows s "rate_limits")).
Proof.
  intros Hwf Hfresh. cbv zeta. unfold check_user_rate_limit.
  unfold mbind, handler_bind, ignored, db, pure.
  assert (ensure_table "rate_limits" s = (ensured "rate_limits" s, Ok tt)) as -> by reflexivity.
  unfold count_recent. rewrite table_rows_ensured, bool_decide_true by done.
  fold (recent_count user_id action (t - window * 60) s).
  destruct (max <=? _) eqn:E; cbn [negb].
  - split; [done|]. apply table_rows_ensured.
  - unfold create_document. rewrite with_table_valid by done. cbv beta zeta.
    change (document_id _ fresh) with fresh. rewrite !table_rows_ensured, Hfresh.
    split; [done|]. cbn [fst]. by rewrite table_rows_insert.
Qed.

(** The limiter bounds the rate: of any calls of a user for an action made
    within one window, at any times and in any order, at most the configured
    number is let through, whatever was recorded before. *)
Theorem user_rate_limit_bound user_id action max window calls s a :
  limits_wf user_id action s →
  (- 2 ^ 63 ≤ a)%Z → (a + window * 60 ≤ i64_max)%Z →
  Forall (λ c, (a ≤ c.1.1 ≤ a + window * 60)%Z) calls →
  NoDup (calls.*1).*2 → Forall (λ c, table_rows s "rate_limits" !! c.1.2 = None) calls →
  length (filter (λ b, b = true) (limited_calls user_id action max window calls s)) ≤ max.
Proof.
  intros Hwf Ha Hm Hcalls Hnd Hfresh.
  assert (length (filter (λ b, b = true) (limited_calls user_id action max window calls s))
          ≤ max - recent_count user_id action a s) as H; [|lia].
  revert s Hwf Hnd Hfresh. induction Hcalls as [|[[t fresh] now] calls Ht Hcalls IH];
    intros s Hwf Hnd Hfresh; [cbn; lia|].
  cbn [fmap list_fmap fst snd] in *. apply NoDup_cons in Hnd as [Hnin Hnd].
  apply Forall_cons in Hfresh as [Hf Hfresh]. cbn [fst snd] in *. cbn [limited_calls].
  pose proof (rate_limit_call user_id action max window t fresh now s Hwf Hf) as [Hr Hrows]. cbv zeta in *.
  destruct (check_user_rate_limit false user_id action max window t fresh now s) as [s' r].
  cbn [fst snd] in *. destruct (max <=? recent_count _ _ _ s) eqn:E.
  - rewrite Hr, filter_cons_False by done.
    assert (recent_count user_id action a s' = recent_count user_id action a s) as <-.
    { unfold recent_count. by rewrite Hrows. }
    apply IH; [by unfold limits_wf; rewrite Hrows|done|]. by rewrite Hrows.
  - rewrite Hr, filter_cons_True by done. cbn [length]. apply Nat.leb_gt in E.
    destruct (limit_record_recent user_id action t now a) as [Hs Hrec]; [lia|].
    assert (recent_count user_id action a s' = S (recent_count user_id action a s)) as Hc.
    { unfold recent_count. rewrite Hrows, map_filter_insert_True.
      - apply map_size_insert_None. apply map_lookup_filter_None. by left.
      - cbn. rewrite Hrec. apply Z.leb_le. lia. }
    pose proof (recent_count_mono user_id action a (t - window * 60) s ltac:(lia)).
    specialize (IH s'). rewrite Hc in IH. etransitivity; [apply le_n_S, IH|lia].
    + unfold limits_wf. rewrite Hrows. by apply map_Forall_insert_2.
    + done.
    + eapply Forall_impl; [apply Forall_and; split; [exact Hfresh|]|].
      * apply (Forall_forall (λ c, c.1.2 ≠ fresh)). intros c Hin Heq. apply Hnin. subst fresh.
        apply list_elem_of_fmap. exists c.1. split; [done|]. apply list_elem_of_fmap. by exists c.
      * cbn. intros c [H1 H2]. rewrite Hrows. by rewrite lookup_insert_ne.
Qed.
End rate_limiter.

(** ** Queries

    The statements [SELECT * FROM table WHERE ..] and [SELECT COUNT( * ) ..]
    the handlers send through [query_bind] and [query_raw] of pg_store.rs,
    which create the table first and return the rows as documents. *)
Section queries.
Context `{C : Chrono}.
(** The order in which the database returns the rows of a table. *)
Context (scan : rows → list (string * DocRow)).

Definition select_where (table : string) (p : DocRow → bool) : handler (list Value) := λ s,
  let s := (ensure_table table s).1 in
  (s, Ok ((λ kr : string * DocRow, row_to_doc kr.1 kr.2)
            <$> filter (λ kr, p kr.2 = true) (scan (table_rows s table)))).
Definition count_where (table : string) (p : DocRow → bool) : handler Z := λ s,
  let s := (ensure_table table s).1 in
  (s, Ok (Z.of_nat (size (filter (λ kr : string * DocRow, p kr.2 = true) (table_rows s table))))).
End queries.

(** ** Text and time of the libraries

    [str::trim] and [str::to_uppercase] follow the Unicode tables, and
    [DateTime::parse_from_rfc3339] the crate chrono. *)
Class TextLib := {
  trim : string → string;
  to_uppercase : string → string;
  parse_rfc3339 : string → option Z;
  reformat_rfc3339 : string → option string;  (** parsed and printed again *)
}.
Class TextLaws (T : TextLib) : Prop := {
  reformat_same s t : reformat_rfc3339 s = Some t → parse_rfc3339 t = parse_rfc3339 s;
}.
(** The part of the tables that is ASCII, enough for the witnesses. *)
Definition plain_textlib : TextLib :=
  {| trim := λ s, trim_end " " (trim_start " " s); to_uppercase := upper;
     parse_rfc3339 := parse_i64; reformat_rfc3339 := λ s, _ ← parse_i64 s; Some s |}.

Lemma plain_textlib_laws : TextLaws plain_textlib.
Proof. constructor. cbn. intros s t. destruct (parse_i64 s) eqn:E; cbn; congruence. Qed.

(** ** shared/schema.rs *)

Module Order.
Inductive OrderStatus : Type :=
| PendingPayment | PaymentAuthorized | AwaitingShippingApproval | Processing | Shipped | Delivered
| InTransit | Cancelled | Refunded | PartiallyRefunded | Disputed | Expired | Failed
| ReturnRequested | ReturnApproved | ReturnRejected | Returned | Archived.
Global Instance OrderStatus_eq_dec : EqDecision OrderStatus.
Proof. solve_decision. Defined.
End Order.
Module Payment.
Inductive PaymentStatus : Type :=
| Pending | Authorized | Captured | Refunded | PartialRefund | Failed | Cancelled | Disputed | Expired.
End Payment.
Export (hints) Order.
Abbreviation OrderStatus := Order.OrderStatus.
Abbreviation PaymentStatus := Payment.PaymentStatus.

Definition order_status_str (s : OrderStatus) : string :=
  match s with
  | Order.PendingPayment => "pending"
  | Order.PaymentAuthorized => "confirmed"
  | Order.AwaitingShippingApproval => "awaiting_shipping_approval"
  | Order.Processing => "processing"
  | Order.Shipped => "shipped"
  | Order.InTransit => "in_transit"
  | Order.Delivered => "delivered"
  | Order.Cancelled => "cancelled"
  | Order.Refunded => "refunded"
  | Order.PartiallyRefunded => "partially_refunded"
  | Order.Disputed => "disputed"
  | Order.Expired => "expired"
  | Order.Failed => "failed"
  | Order.ReturnRequested => "return_requested"
  | Order.ReturnApproved => "return_approved"
  | Order.ReturnRejected => "return_rejected"
  | Order.Returned => "returned"
  | Order.Archived => "archived"
  end.
Definition all_order_statuses : list OrderStatus :=
  [Order.PendingPayment; Order.PaymentAuthorized; Order.AwaitingShippingApproval; Order.Processing;
   Order.Shipped; Order.Delivered; Order.InTransit; Order.Cancelled; Order.Refunded;
   Order.PartiallyRefunded; Order.Disputed; Order.Expired; Order.Failed; Order.ReturnRequested;
   Order.ReturnApproved; Order.ReturnRejected; Order.Returned; Order.Archived].
(** The derived [Deserialize]: the same names as [as_str]. *)
Definition parse_order_status (s : string) : option OrderStatus :=
  list_find (λ o, order_status_str o = s) all_order_statuses ≫= λ p, Some p.2.

Definition is_terminal (s : OrderStatus) : bool :=
  match s with
  | Order.Delivered | Order.Cancelled | Order.Expired | Order.Failed | Order.Disputed
  | Order.Refunded | Order.PartiallyRefunded => true
  | _ => false
  end.

Definition payment_status_str (s : PaymentStatus) : string :=
  match s with
  | Payment.Pending => "awaiting_payment"
  | Payment.Authorized => "authorized"
  | Payment.Captured => "captured"
  | Payment.Refunded => "refunded"
  | Payment.PartialRefund => "partially_refunded"
  | Payment.Failed => "payment_failed"
  | Payment.Cancelled => "cancelled"
  | Payment.Disputed => "disputed"
  | Payment.Expired => "expired"
  end.

Lemma parse_order_status_Some s o : parse_order_status s = Some o ↔ order_status_str o = s.
Proof.
  split.
  - unfold parse_order_status. destruct (list_find _ _) as [[i x]|] eqn:E; [|done]. cbn.
    intros [= <-]. by apply list_find_Some in E as (_ & ? & _).
  - intros <-. by destruct o.
Qed.

(** ** Sanitised text *)

Definition is_angle (c : ascii) : bool := Ascii.eqb c "<" || Ascii.eqb c ">".

Lemma strip_tags_clean in_tag s : str_exists is_angle (strip_tags in_tag s) = false.
Proof.
  revert in_tag. induction s as [|c s IH]; intros in_tag; [done|]. cbn.
  destruct (Ascii.eqb c "<") eqn:E1; [done|]. destruct (Ascii.eqb c ">") eqn:E2; [done|].
  destruct in_tag; [done|]. cbn. unfold is_angle at 1. by rewrite E1, E2, IH.
Qed.

Lemma strip_tags_id s : str_exists is_angle s = false → strip_tags false s = s.
Proof.
  induction s as [|c s IH]; [done|]. cbn. intros [[H1 H2]%orb_false_iff H]%orb_false_iff.
  by rewrite H1, H2, IH.
Qed.

Lemma remove_all_id pattern s :
  (∀ c t, c ≠ "<"%char → pattern (String c t) = None) → str_exists is_angle s = false →
  remove_all pattern 0 s = s.
Proof.
  intros Hp. induction s as [|c s IH]; [done|]. cbn [str_exists remove_all].
  intros [[H1 _]%orb_false_iff H]%orb_false_iff. rewrite Hp, IH; [done|done|]. by apply Ascii.eqb_neq.
Qed.

Lemma ascii_lower_lt c : ascii_lower "<" = ascii_lower c → c = "<"%char.
Proof. destruct c as [[] [] [] [] [] [] [] []]; vm_compute; congruence. Qed.

Lemma open_pattern_lt tag c t : c ≠ "<"%char → open_pattern tag (String c t) = None.
Proof.
  intros Hc. unfold open_pattern. cbn [strip_prefix_nocase].
  change ("<" +:+ tag) with (String "<" tag). cbn [strip_prefix_nocase].
  destruct (Ascii.eqb_spec (ascii_lower "<") (ascii_lower c)) as [E|]; [|done].
  exfalso. apply Hc. by apply ascii_lower_lt.
Qed.

(** Sanitised text holds no tag: neither angle bracket is left, text
    without them is unchanged, and sanitising again changes nothing. *)
Theorem sanitize_html_clean s :
  str_exists is_angle (sanitize_html s) = false
  ∧ (str_exists is_angle s = false → sanitize_html s = s)
  ∧ sanitize_html (sanitize_html s) = sanitize_html s.
Proof.
  assert (∀ t, str_exists is_angle t = false → sanitize_html t = t) as Hid.
  { intros t Ht. unfold sanitize_html. rewrite strip_tags_id.
    all: assert (foldl (λ cleaned tag, remove_all (open_pattern tag) 0
           (remove_all (block_pattern tag) 0 cleaned)) t dangerous_tags = t) as ->; [|done..].
    all: generalize dangerous_tags as l; induction l as [|tag l IH]; [done|]; cbn [foldl];
         rewrite (remove_all_id (block_pattern tag)), (remove_all_id (open_pattern tag)); try done.
    all: intros c u Hc; try by apply open_pattern_lt.
    all: unfold block_pattern; by rewrite open_pattern_lt. }
  assert (str_exists is_angle (sanitize_html s) = false) as Hc by apply strip_tags_clean.
  split_and!; [done|apply Hid|by apply Hid].
Qed.

(** ** Witnesses *)
Section handler_witnesses.
#[local] Instance demo_h_chrono : Chrono := plain_chrono.
#[local] Instance demo_h_json : PgJson := plain_json.

Definition three_calls : list (Z * string * Z) := [(100%Z, "a", 1%Z); (130%Z, "b", 2%Z); (110%Z, "c", 3%Z)].

Example two_of_three_calls :
  limited_calls "" "u1" "ship" 2 1 three_calls ∅ = [true; true; false].
Proof. by vm_compute. Qed.

Lemma user_rate_limit_bound_witness :
  length (filter (λ b, b = true) (limited_calls "" "u1" "ship" 2 1 three_calls ∅)) ≤ 2.
Proof.
  apply (user_rate_limit_bound (PgJsonLaws0 := plain_json_laws) "" "u1" "ship" 2 1 three_calls ∅ 100);
    unfold i64_max; try lia.
  - unfold limits_wf, table_rows. rewrite lookup_empty. apply map_Forall_empty.
  - by repeat constructor.
  - concrete.
  - by repeat constructor.
Defined.
End handler_witnesses.
