(* ===== verification/Orders.v ===== *)
(** * Order status

    The endpoints of crates/ob-handlers/src/orders/status.rs: the buyer's
    confirmation of an item, the seller's or administrator's change of an order,
    and of one of its items.

    Each handler reads the order, decides, and writes: the decision is a pure
    function of the order read ([confirm_plan], [order_plan], [item_plan]), so
    the handler is the composition, and two handlers interleave by both reading
    before either writes.  The e-mails sent after the write and the log lines are
    left out: they change no document. *)

From S2P Require Export Handlers.

Module Delivery.
Inductive DeliveryStatus : Type := Pending | Shipped | Delivered | Refunded.
Global Instance DeliveryStatus_eq_dec : EqDecision DeliveryStatus.
Proof. solve_decision. Defined.
End Delivery.
Export (hints) Delivery.
Abbreviation DeliveryStatus := Delivery.DeliveryStatus.

Definition delivery_str (s : DeliveryStatus) : string :=
  match s with
  | Delivery.Pending => "pending"
  | Delivery.Shipped => "shipped"
  | Delivery.Delivered => "delivered"
  | Delivery.Refunded => "refunded"
  end.
Definition delivery_from_str (s : string) : option DeliveryStatus :=
  if s =s? "pending" then Some Delivery.Pending
  else if s =s? "shipped" then Some Delivery.Shipped
  else if s =s? "delivered" then Some Delivery.Delivered
  else if s =s? "refunded" then Some Delivery.Refunded
  else None.

Definition is_valid_item_transition (from to : DeliveryStatus) : bool :=
  match from, to with
  | Delivery.Pending, Delivery.Shipped
  | Delivery.Shipped, Delivery.Delivered
  | Delivery.Delivered, Delivery.Refunded => true
  | _, _ => false
  end.

Definition is_valid_order_transition (from to : OrderStatus) : bool :=
  match from, to with
  | Order.PendingPayment, Order.PaymentAuthorized
  | Order.PendingPayment, Order.Cancelled
  | Order.PendingPayment, Order.Failed
  | Order.PaymentAuthorized, Order.Processing
  | Order.PaymentAuthorized, Order.AwaitingShippingApproval
  | Order.PaymentAuthorized, Order.Cancelled
  | Order.AwaitingShippingApproval, Order.Processing
  | Order.AwaitingShippingApproval, Order.Cancelled
  | Order.Processing, Order.Shipped
  | Order.Processing, Order.Cancelled
  | Order.Shipped, Order.Delivered
  | Order.Shipped, Order.ReturnRequested
  | Order.Delivered, Order.ReturnRequested
  | Order.Delivered, Order.Refunded
  | Order.ReturnRequested, Order.ReturnApproved
  | Order.ReturnRequested, Order.ReturnRejected
  | Order.ReturnApproved, Order.Returned
  | Order.Returned, Order.Refunded => true
  | _, _ => false
  end.

(** ** Requests and responses *)

Record ConfirmItemReceiptRequest : Type := { cr_order_id : string; cr_product_id : string }.
Record ConfirmItemReceiptResponse : Type := {
  cs_success : bool; cs_all_delivered : bool; cs_message : option string }.
Record UpdateOrderStatusRequest : Type := {
  ur_order_id : string; ur_new_status : string;
  ur_tracking_number : option string; ur_carrier : option string }.
Record UpdateOrderStatusResponse : Type := {
  us_ok : bool; us_new_status : string; us_all_items_shipped : option bool }.
Record UpdateItemStatusRequest : Type := {
  ir_order_id : string; ir_product_id : string; ir_new_status : string;
  ir_tracking_number : option string; ir_carrier : option string }.
Record UpdateItemStatusResponse : Type := {
  is_success : bool; is_item_status : string;
  is_all_items_delivered : bool; is_all_items_shipped : bool }.

(** ** Helpers *)

Definition str_field (v : Value) (field : string) : string := default "" (get field v ≫= as_str).
Definition bool_field (v : Value) (field : string) : bool := default false (get field v ≫= as_bool).
Definition items_array (order : Value) : list Value := default [] (get "items" order ≫= as_array).
Definition find_item_index (items : list Value) (product_id : string) : option nat :=
  fst <$> list_find (λ it, str_field it "productId" = product_id) items.
Definition all_items_delivered (items : list Value) : bool :=
  forallb (λ it, str_field it "status" =s? delivery_str Delivery.Delivered) items.
Definition all_items_shipped (items : list Value) : bool :=
  forallb (λ it, let s := str_field it "status" in
    (s =s? delivery_str Delivery.Shipped) || (s =s? delivery_str Delivery.Delivered)) items.
Definition should_promote_order_to_delivered (payment_status : string) (all_delivered : bool) : bool :=
  all_delivered && (payment_status =s? payment_status_str Payment.Captured).

(** [item[key] = value]: null becomes an object, another value that is not
    an object panics. *)
Definition index_put (key : string) (x : Value) (v : Value) : Result Value :=
  match v with
  | VObject m => Ok (VObject (assoc_insert key x m))
  | VNull => Ok (VObject [(key, x)])
  | _ => Panic
  end.
Fixpoint put_fields (l : list (string * Value)) (v : Value) : Result Value :=
  match l with
  | [] => Ok v
  | (k, x) :: l => v ← index_put k x v; put_fields l v
  end.
Definition put_all (l : list (string * Value)) (v : Value) : Value :=
  foldl (λ v kx, put kx.1 kx.2 v) v l.
Definition put_item (idx : nat) (l : list (string * Value)) (items : list Value) : Result (list Value) :=
  it ← unwrap (items !! idx); it ← put_fields l it; Ok (<[idx := it]> items).

Section orders.
Context `{C : Chrono} `{P : PgJson}.
Context (pg_invalid_bigint : string).

Definition is_user_admin (user_id : string) : handler bool := λ s,
  match get_document "users" user_id s with
  | (s, Ok user) =>
      let roles := default [] (get "roles" user ≫= as_array) in
      (s, Ok (existsb (λ r, bool_decide (as_str r = Some "admin")) roles))
  | (s, Err _) => (s, Ok false)
  | (s, Panic) => (s, Panic)
  end.

(** The clock readings, fresh ids and settings of one request. *)
Record request_env : Type := {
  env_test_mode : bool;
  env_secs : Z;            (** the limiter's clock, in seconds *)
  env_limit_id : string; env_limit_now : Z;
  env_now : Z;             (** [Utc::now()] of the handler *)
  env_write_now : Z;       (** the database's clock at the write *)
  env_event_id : string; env_event_at : Z; env_event_now : Z;
}.

Definition log_order_event (e : request_env) (order_id user_id event_type message : string)
    (metadata : Value) : handler unit :=
  ignored (create_document "events" (VObject
    [("createdAt", VString (to_rfc3339 (env_event_at e))); ("eventType", VString event_type);
     ("message", VString message); ("metadata", metadata); ("orderId", VString order_id);
     ("userId", VString user_id)]) (env_event_id e) (env_event_now e)).

Definition read_order (order_id : string) : handler Value :=
  db_map_err (λ _, NotFound "Order not found") (get_document "orders" order_id).
Definition update_failed (e : Error) : Error :=
  Database ("Failed to update order: " +:+ error_to_string e).

(** ** confirm_item_receipt *)

(** What the order read leads to: [None] when the item is already delivered,
    else the update and whether every item is now delivered. *)
Definition confirm_plan (user_id product_id : string) (now : string) (order : Value) :
    Result (option (Value * bool)) :=
  if negb (str_field order "userId" =s? user_id) then
    Err (Forbidden "Only the order owner can confirm receipt")
  else
    let items := items_array order in
    idx ← ok_or (NotFound "Item not found in order") (find_item_index items product_id);
    item ← unwrap (items !! idx);
    if str_field item "sellerId" =s? user_id then
      Err (Forbidden "Sellers cannot confirm receipt of their own items")
    else
      let current_status_str := str_field item "status" in
      match delivery_from_str current_status_str with
      | Some Delivery.Delivered => Ok None
      | Some Delivery.Shipped =>
          items ← put_item idx [("status", VString "delivered"); ("deliveredAt", VString now);
                                ("confirmedByBuyer", VBool true)] items;
          let all_delivered := all_items_delivered items in
          let update_data := VObject [("items", VArray items); ("updatedAt", VString now)] in
          Ok (Some
            (if all_delivered && should_promote_order_to_delivered (str_field order "paymentStatus") all_delivered
             then put_all [("orderStatus", VString (order_status_str Order.Delivered));
                           ("confirmedAt", VString now); ("confirmedByClient", VBool true)] update_data
             else update_data, all_delivered))
      | _ => Err (Validation ("Cannot confirm receipt: item must be shipped first (current: "
                              +:+ current_status_str +:+ ")"))
      end.

(** The compare-and-swap on the status read. *)
Definition confirm_write (e : request_env) (order_id : string) (order update_data : Value) : handler unit :=
  updated ← db_map_err update_failed (update_document_cas "orders" order_id update_data "orderStatus"
              (VString (str_field order "orderStatus")) (env_write_now e));
  match updated with
  | None => pure (Err (Validation "Order was modified concurrently — please retry"))
  | Some _ => pure (Ok tt)
  end.

Definition confirm_item_receipt (e : request_env) (user_id : string) (req : ConfirmItemReceiptRequest) :
    handler ConfirmItemReceiptResponse :=
  _ ← pure (validate_uid "orderId" (cr_order_id req));
  _ ← pure (validate_uid "productId" (cr_product_id req));
  _ ← pure (validate_uid "userId" user_id);
  _ ← check_user_rate_limit pg_invalid_bigint (env_test_mode e) user_id "confirm_item_receipt" 10 1
        (env_secs e) (env_limit_id e) (env_limit_now e);
  order ← read_order (cr_order_id req);
  plan ← pure (confirm_plan user_id (cr_product_id req) (to_rfc3339 (env_now e)) order);
  match plan with
  | None => pure (Ok {| cs_success := true; cs_all_delivered := false;
                        cs_message := Some "Item already marked as delivered" |})
  | Some (update_data, all_delivered) =>
      _ ← confirm_write e (cr_order_id req) order update_data;
      _ ← log_order_event e (cr_order_id req) user_id "item_receipt_confirmed"
            ("Item " +:+ cr_product_id req +:+ " receipt confirmed by buyer")
            (VObject [("allDelivered", VBool all_delivered); ("productId", VString (cr_product_id req))]);
      pure (Ok {| cs_success := true; cs_all_delivered := all_delivered; cs_message := None |})
  end.

(** ** update_order_status *)

Definition sanitized_opt (n : nat) (o : option string) : option string :=
  (λ s, take_chars n (sanitize_html s)) <$> o.

(** The fields set with a tracking number. *)
Definition tracking_fields (tracking carrier : option string) : list (string * Value) :=
  match tracking with
  | Some tn => [("trackingNumber", VString tn); ("shippingCarrier", VString (default "" carrier))]
  | None => []
  end.

(** The decision: a seller's items are written unconditionally, the other
    updates by a compare-and-swap on the old status. *)
Inductive order_decision : Type :=
| SellerShips (update_data : Value) (all_shipped : bool)
| CasWrite (update_data : Value).

Definition seller_items (user_id : string) (items : list Value) : list Value :=
  filter (λ it, str_field it "sellerId" = user_id) items.
Definition seller_ids (items : list Value) : list string :=
  omap (λ it, get "sellerId" it ≫= as_str) items.

(** The checks before the transition itself. *)
Definition order_guards (user_id : string) (is_admin : bool) (new_status : OrderStatus)
    (order : Value) : Result unit :=
  let items := items_array order in
  let mine := seller_items user_id items in
  let is_seller := negb (bool_decide (mine = [])) in
  _ ← (if negb is_admin && negb is_seller then
         Err (Forbidden "Only seller or admin can update order status")
       else if is_seller && negb is_admin then
         if bool_decide (new_status = Order.Delivered) then
           Err (Forbidden "Sellers cannot mark orders as delivered. Use per-item status updates or wait for buyer confirmation.")
         else if 1 <? length (remove_dups (seller_ids items)) then
           Err (Validation "Multi-seller order: use update_item_status to update per-item status instead of order-level status.")
         else Ok tt
       else Ok tt);
  if bool_decide (new_status = Order.Shipped) then
    if existsb (λ it, bool_field it "isDigital") mine then
      Err (Validation "Digital products cannot be manually shipped")
    else match get "shippingApproval" order ≫= as_object with
    | Some approval =>
        let approval_status := str_field (VObject approval) "status" in
        if approval_status =s? "pending" then
          Err (Validation "Cannot ship: shipping cost approval is pending from buyer")
        else if approval_status =s? "rejected" then
          Err (Validation "Cannot ship: buyer rejected the shipping cost")
        else Ok tt
    | None => Ok tt
    end
  else Ok tt.

Definition shipped_fields (now : string) (tracking carrier : option string) : list (string * Value) :=
  [("status", VString "shipped"); ("shippedAt", VString now)] ++ tracking_fields tracking carrier.

(** The seller path. *)
Definition seller_ships (user_id now : string) (tracking carrier : option string)
    (items : list Value) : Result order_decision :=
  updated_items ← collect (λ it,
    if str_field it "sellerId" =s? user_id then put_fields (shipped_fields now tracking carrier) it
    else Ok it) items;
  if bool_decide (seller_items user_id items = []) then Err (Forbidden "No items belong to this seller")
  else
    let all_shipped := all_items_shipped updated_items in
    let update_data := VObject [("items", VArray updated_items); ("lastActorId", VString user_id);
                                ("updatedAt", VString now)] in
    Ok (SellerShips
      (if all_shipped then
         put_all ([("orderStatus", VString (order_status_str Order.Shipped)); ("shippedAt", VString now)]
                  ++ tracking_fields tracking carrier) update_data
       else update_data) all_shipped).

(** The administrator's path, also a seller's for a status other than
    shipped. *)
Definition admin_updates (is_admin : bool) (new_status : OrderStatus) (now : string)
    (tracking carrier : option string) (items : list Value) : Result order_decision :=
  let update_data := VObject [("orderStatus", VString (order_status_str new_status));
                              ("updatedAt", VString now)] in
  update_data ←
    (if bool_decide (new_status = Order.Shipped) then
       updated_items ← collect (λ it,
         let s := str_field it "status" in
         if negb (s =s? delivery_str Delivery.Delivered) && negb (s =s? delivery_str Delivery.Refunded)
         then put_fields (shipped_fields now tracking carrier) it else Ok it) items;
       Ok (put_all ([("items", VArray updated_items); ("shippedAt", VString now)]
                    ++ tracking_fields tracking carrier) update_data)
     else Ok update_data);
  update_data ←
    (if is_admin && bool_decide (new_status = Order.Delivered) then
       updated_items ← collect
         (put_fields [("status", VString "delivered"); ("deliveredAt", VString now)]) items;
       Ok (put "items" (VArray updated_items) update_data)
     else Ok update_data);
  Ok (CasWrite update_data).

Definition order_plan (user_id : string) (is_admin : bool) (old_status new_status : OrderStatus)
    (tracking carrier : option string) (now : string) (order : Value) : Result order_decision :=
  _ ← order_guards user_id is_admin new_status order;
  let items := items_array order in
  let is_seller := negb (bool_decide (seller_items user_id items = [])) in
  if negb (is_valid_order_transition old_status new_status) then
    Err (Validation ("Invalid transition from " +:+ order_status_str old_status
                     +:+ " to " +:+ order_status_str new_status))
  else if is_seller && negb is_admin && bool_decide (new_status = Order.Shipped) then
    seller_ships user_id now tracking carrier items
  else admin_updates is_admin new_status now tracking carrier items.

(** The status of the order read, and the archive flag. *)
Definition old_order_status (order : Value) : Result OrderStatus :=
  let old_status_str := default "pending" (get "orderStatus" order ≫= as_str) in
  old_status ← ok_or (Internal ("Unknown stored status: " +:+ old_status_str))
    (parse_order_status old_status_str);
  if bool_field order "archived" then Err (Validation "Cannot update archived order")
  else Ok old_status.

Definition order_write (e : request_env) (order_id : string) (old_status : OrderStatus)
    (update_data : Value) : handler unit :=
  cas_result ← db_map_err update_failed (update_document_cas "orders" (bare_id "orders" order_id)
    update_data "orderStatus" (VString (order_status_str old_status)) (env_write_now e));
  match cas_result with
  | None => pure (Err (Validation ("Order status changed concurrently — expected '"
              +:+ order_status_str old_status +:+ "', please retry")))
  | Some _ => pure (Ok tt)
  end.

(** The write of the decision and the response, for either path. *)
Definition seller_finish (e : request_env) (order_id : string) (old_status : OrderStatus)
    (update_data : Value) (all_shipped : bool) : handler UpdateOrderStatusResponse :=
  _ ← db_map_err update_failed (update_document "orders" order_id update_data (env_write_now e));
  pure (Ok {| us_ok := true;
              us_new_status := if all_shipped then order_status_str Order.Shipped
                               else order_status_str old_status;
              us_all_items_shipped := Some all_shipped |}).
Definition admin_finish (e : request_env) (user_id order_id : string) (old_status new_status : OrderStatus)
    (update_data : Value) : handler UpdateOrderStatusResponse :=
  _ ← order_write e order_id old_status update_data;
  _ ← log_order_event e order_id user_id ("order_status_updated_to_" +:+ order_status_str new_status)
        ("Order status updated from " +:+ order_status_str old_status +:+ " to "
         +:+ order_status_str new_status)
        (VObject [("newStatus", VString (order_status_str new_status));
                  ("oldStatus", VString (order_status_str old_status))]);
  pure (Ok {| us_ok := true; us_new_status := order_status_str new_status;
              us_all_items_shipped := None |}).
Definition order_finish (e : request_env) (user_id order_id : string) (old_status new_status : OrderStatus)
    (d : order_decision) : handler UpdateOrderStatusResponse :=
  match d with
  | SellerShips update_data all_shipped => seller_finish e order_id old_status update_data all_shipped
  | CasWrite update_data => admin_finish e user_id order_id old_status new_status update_data
  end.

Definition update_order_status (e : request_env) (user_id : string) (req : UpdateOrderStatusRequest) :
    handler UpdateOrderStatusResponse :=
  _ ← pure (validate_uid "orderId" (ur_order_id req));
  _ ← pure (validate_uid "userId" user_id);
  _ ← pure (validate_string "newStatus" (ur_new_status req) 50);
  _ ← check_user_rate_limit pg_invalid_bigint (env_test_mode e) user_id "update_order_status" 20 1
        (env_secs e) (env_limit_id e) (env_limit_now e);
  let tracking_number := sanitized_opt 100 (ur_tracking_number req) in
  let carrier := sanitized_opt 50 (ur_carrier req) in
  new_status ← pure (ok_or (Validation "Invalid order status provided") (parse_order_status (ur_new_status req)));
  order ← read_order (ur_order_id req);
  old_status ← pure (old_order_status order);
  is_admin ← is_user_admin user_id;
  plan ← pure (order_plan user_id is_admin old_status new_status tracking_number carrier
                 (to_rfc3339 (env_now e)) order);
  order_finish e user_id (ur_order_id req) old_status new_status plan.

(** ** update_item_status *)

Definition item_fields (new_delivery : DeliveryStatus) (now : string) (tracking carrier : option string) :
    list (string * Value) :=
  [("status", VString (delivery_str new_delivery))] ++
  match new_delivery with
  | Delivery.Shipped =>
      [("shippedAt", VString now)]
      ++ match tracking with Some tn => [("trackingNumber", VString tn)] | None => [] end
      ++ match carrier with Some c => [("shippingCarrier", VString c)] | None => [] end
  | Delivery.Delivered => [("deliveredAt", VString now)]
  | _ => []
  end.

(** The update, and whether every item is delivered, or shipped. *)
Definition item_plan (user_id : string) (is_admin : bool) (product_id new_status_str : string)
    (new_delivery : DeliveryStatus) (tracking carrier : option string) (now : string) (order : Value) :
    Result (Value * bool * bool) :=
  let items := items_array order in
  idx ← ok_or (NotFound ("Product " +:+ product_id +:+ " not found in order"))
    (find_item_index items product_id);
  item ← unwrap (items !! idx);
  let is_item_seller := str_field item "sellerId" =s? user_id in
  if negb is_admin && negb is_item_seller then
    Err (Forbidden "Only the item seller or admin can update item status")
  else if is_item_seller && negb is_admin && bool_decide (new_delivery = Delivery.Delivered) then
    Err (Forbidden "Sellers cannot mark items as delivered. Buyer must confirm receipt.")
  else
    let current_str := str_field item "status" in
    let current_delivery := default Delivery.Pending (delivery_from_str current_str) in
    if negb is_admin && negb (is_valid_item_transition current_delivery new_delivery) then
      Err (Validation ("Invalid item status transition from " +:+ current_str +:+ " to " +:+ new_status_str))
    else if bool_decide (new_delivery = Delivery.Shipped) && bool_decide (tracking = None)
            && negb (str_field order "deliverySpeed" =s? "pickup") then
      Err (Validation "Tracking number required for shipped status")
    else
      items ← put_item idx (item_fields new_delivery now tracking carrier) items;
      let all_delivered := all_items_delivered items in
      let all_shipped := all_items_shipped items in
      let update_data := VObject [("items", VArray items); ("updatedAt", VString now)] in
      let current := str_field order "orderStatus" in
      Ok ((if all_delivered && negb (current =s? order_status_str Order.Delivered) then
             if str_field order "paymentStatus" =s? payment_status_str Payment.Captured
             then put "orderStatus" (VString (order_status_str Order.Delivered)) update_data
             else update_data
           else if all_shipped && negb all_delivered then
             match parse_order_status current with
             | Some Order.Processing | Some Order.PaymentAuthorized =>
                 put "orderStatus" (VString (order_status_str Order.Shipped)) update_data
             | _ => update_data
             end
           else update_data), all_delivered, all_shipped).

Definition item_write (e : request_env) (order_id : string) (update_data : Value) : handler unit :=
  _ ← db_map_err update_failed (update_document "orders" order_id update_data (env_write_now e));
  pure (Ok tt).

Definition update_item_status (e : request_env) (user_id : string) (req : UpdateItemStatusRequest) :
    handler UpdateItemStatusResponse :=
  _ ← pure (validate_uid "orderId" (ir_order_id req));
  _ ← pure (validate_uid "productId" (ir_product_id req));
  _ ← pure (validate_uid "userId" user_id);
  _ ← pure (validate_string "newStatus" (ir_new_status req) 20);
  _ ← check_user_rate_limit pg_invalid_bigint (env_test_mode e) user_id "update_item_status" 20 1
        (env_secs e) (env_limit_id e) (env_limit_now e);
  new_delivery ← pure (ok_or (Validation
      ("Status must be one of: pending, shipped, delivered, refunded. Got: " +:+ ir_new_status req))
    (delivery_from_str (ir_new_status req)));
  let tracking_number := sanitized_opt 100 (ir_tracking_number req) in
  let carrier := sanitized_opt 50 (ir_carrier req) in
  order ← read_order (ir_order_id req);
  _ ← pure (if bool_field order "archived" then Err (Validation "Cannot update archived order") else Ok tt);
  is_admin ← is_user_admin user_id;
  '(update_data, all_delivered, all_shipped) ←
    pure (item_plan user_id is_admin (ir_product_id req) (ir_new_status req) new_delivery
            tracking_number carrier (to_rfc3339 (env_now e)) order);
  _ ← item_write e (ir_order_id req) update_data;
  _ ← log_order_event e (ir_order_id req) user_id ("item_status_updated_to_" +:+ delivery_str new_delivery)
        ("Item " +:+ ir_product_id req +:+ " status updated to " +:+ delivery_str new_delivery)
        (VObject [("newStatus", VString (delivery_str new_delivery));
                  ("productId", VString (ir_product_id req))]);
  pure (Ok {| is_success := true; is_item_status := delivery_str new_delivery;
              is_all_items_delivered := all_delivered; is_all_items_shipped := all_shipped |}).
End orders.

(** ** What a handler does to the orders

    Each handler leaves the orders alone or merges its plan, computed from the
    stored order, into it. *)
Section effects.
Context `{C : Chrono} `{P : PgJson}.
Context (pg_error : string).
Implicit Types s : store.

Definition orders_of (s : store) : rows := table_rows s "orders".
(** The user's roles as stored. *)
Definition stored_admin (s : store) (user_id : string) : bool :=
  match table_rows s "users" !! bare_id "users" user_id with
  | Some row => existsb (λ r, bool_decide (as_str r = Some "admin"))
      (default [] (get "roles" (row_to_doc (bare_id "users" user_id) row) ≫= as_array))
  | None => false
  end.

(** States with the same orders and users. *)
Definition same (s s' : store) : Prop :=
  table_rows s' "orders" = table_rows s "orders" ∧ table_rows s' "users" = table_rows s "users".

Lemma same_refl s : same s s.
Proof. done. Qed.
Lemma same_ensured s s' c : same s s' → same s (ensured c s').
Proof. intros []. split; by rewrite table_rows_ensured. Qed.

Lemma runs_frame {A} (m : handler A) s s0 Φ :
  keeps "orders" m → keeps "users" m → same s0 s → (∀ s' r, same s0 s' → Φ s' r) → runs m s Φ.
Proof.
  intros Ho Hu [E1 E2] H. apply H. split; [by rewrite (Ho s), E1|by rewrite (Hu s), E2].
Qed.

Lemma runs_read_order id s s0 Φ :
  same s0 s →
  (∀ s' row, same s0 s' → orders_of s0 !! bare_id "orders" id = Some row →
     Φ s' (Ok (row_to_doc (bare_id "orders" id) row))) →
  (∀ s', same s0 s' → Φ s' (Err (NotFound "Order not found"))) →
  runs (read_order id) s Φ.
Proof.
  intros Hs Hok Herr. destruct Hs as [Ho Hu] eqn:E. clear E.
  pose proof (runs_get "orders" id s (λ s' r, Φ s' (map_err (λ _, NotFound "Order not found") r))) as H.
  unfold runs, read_order, db_map_err, db in *.
  destruct (get_document "orders" id s) as [s' r]. cbn [fst snd] in *. apply H; [done|..].
  - intros row Hrow. rewrite Ho in Hrow. apply Hok; [by apply same_ensured|done].
  - intros _. by apply Herr, same_ensured.
Qed.

Lemma runs_is_user_admin user_id s s0 Φ :
  same s0 s → (∀ s', same s0 s' → Φ s' (Ok (stored_admin s0 user_id))) →
  runs (is_user_admin user_id) s Φ.
Proof.
  intros [Ho Hu] H. pose proof (runs_get "users" user_id s (λ s' r, same s0 s' ∧
    match r with
    | Ok user => existsb (λ r, bool_decide (as_str r = Some "admin"))
                   (default [] (get "roles" user ≫= as_array)) = stored_admin s0 user_id
    | Err _ => stored_admin s0 user_id = false
    | Panic => False end)) as Hg.
  unfold runs, is_user_admin, db in *. destruct (get_document "users" user_id s) as [s' r]. cbn [fst snd] in *.
  unfold stored_admin in *. rewrite <- Hu in *. destruct Hg as [Hs Hr]; [done|..].
  - intros row Hrow. rewrite Hrow. split; [by apply same_ensured|done].
  - intros Hn. rewrite Hn. split; [by apply same_ensured|done].
  - destruct r as [user|err|]; cbn [fst snd]; [rewrite Hr|rewrite <- Hr|done]; by apply H.
Qed.

(** Stepping through a handler whose postcondition holds once the orders are
    unchanged. *)
Ltac frame_step :=
  first
    [ apply runs_bind, runs_pure
    | apply runs_bind; eapply runs_frame;
      [by apply keeps_rate_limit|by apply keeps_rate_limit|eassumption|] ].

Lemma log_keeps c e order_id user_id t msg m :
  c ≠ "events" → keeps c (log_order_event e order_id user_id t msg m).
Proof. intros. by apply keeps_ignored, keeps_create. Qed.

(** The three endpoints as one request type. *)
Inductive order_request : Type :=
| Confirm (req : ConfirmItemReceiptRequest)
| SetOrder (req : UpdateOrderStatusRequest)
| SetItem (req : UpdateItemStatusRequest).
Definition handle (e : request_env) (user_id : string) (r : order_request) : handler unit :=
  match r with
  | Confirm req => _ ← confirm_item_receipt pg_error e user_id req; pure (Ok tt)
  | SetOrder req => _ ← update_order_status pg_error e user_id req; pure (Ok tt)
  | SetItem req => _ ← update_item_status pg_error e user_id req; pure (Ok tt)
  end.
Definition request_order (r : order_request) : string :=
  match r with Confirm req => cr_order_id req | SetOrder req => ur_order_id req
             | SetItem req => ir_order_id req end.
(** The id the order is stored under. *)
Definition stored_id (r : order_request) : string := bare_id "orders" (request_order r).

(** [upd] is what the request decides to merge into the stored order [row]. *)
Definition planned (e : request_env) (user_id : string) (s : store) (r : order_request)
    (row : DocRow) (upd : Value) : Prop :=
  let doc := row_to_doc (stored_id r) row in
  let now := to_rfc3339 (env_now e) in
  match r with
  | Confirm req =>
      ∃ all, confirm_plan user_id (cr_product_id req) now doc = Ok (Some (upd, all))
        ∧ cas_matches "orderStatus" (VString (str_field doc "orderStatus")) row = true
  | SetOrder req =>
      ∃ new old d, parse_order_status (ur_new_status req) = Some new ∧ old_order_status doc = Ok old
        ∧ order_plan user_id (stored_admin s user_id) old new (sanitized_opt 100 (ur_tracking_number req))
            (sanitized_opt 50 (ur_carrier req)) now doc = Ok d
        ∧ match d with
          | SellerShips u _ => u = upd
          | CasWrite u => u = upd
              ∧ cas_matches "orderStatus" (VString (order_status_str old)) row = true
          end
  | SetItem req =>
      ∃ nd ad ash, delivery_from_str (ir_new_status req) = Some nd ∧ bool_field doc "archived" = false
        ∧ item_plan user_id (stored_admin s user_id) (ir_product_id req) (ir_new_status req) nd
            (sanitized_opt 100 (ir_tracking_number req)) (sanitized_opt 50 (ir_carrier req)) now doc
          = Ok (upd, ad, ash)
  end.

Definition order_effect (e : request_env) (user_id : string) (r : order_request) (s s' : store) : Prop :=
  orders_of s' = orders_of s ∨
  ∃ row upd, orders_of s !! stored_id r = Some row ∧ planned e user_id s r row upd
    ∧ orders_of s' = <[stored_id r := merged_row upd (env_write_now e) row]> (orders_of s).

Lemma effect_same e user_id r s s' : same s s' → order_effect e user_id r s s'.
Proof. intros [H _]. by left. Qed.

Lemma runs_cas id upd expected now f s s0 Φ :
  same s0 s →
  (∀ s' res, orders_of s' = orders_of s0 → (∀ d, res ≠ Ok (Some d)) → Φ s' res) →
  (∀ s' row d, orders_of s0 !! bare_id "orders" id = Some row → cas_matches "orderStatus" expected row = true →
     orders_of s' = <[bare_id "orders" id := merged_row upd now row]> (orders_of s0) → Φ s' (Ok (Some d))) →
  runs (db_map_err f (update_document_cas "orders" id upd "orderStatus" expected now)) s Φ.
Proof.
  intros [Ho _] Hno Hyes. unfold runs, db_map_err.
  pose proof (update_cas_rows "orders" id upd "orderStatus" expected now s eq_refl) as Hrows.
  pose proof (cas_failure "orders" id upd "orderStatus" expected now s) as Hfail.
  destruct (update_document_cas "orders" id upd "orderStatus" expected now s) as [s' res] eqn:E.
  cbn [fst snd] in *. fold (orders_of s') (orders_of s) in *. change (orders_of s = orders_of s0) in Ho.
  rewrite Ho in *.
  destruct (orders_of s0 !! bare_id "orders" id) as [row|] eqn:Er.
  - destruct (cas_matches "orderStatus" expected row) eqn:Em.
    + unfold update_document_cas in E. rewrite with_table_valid in E by done. cbv beta zeta in E.
      rewrite table_rows_ensured in E. fold (orders_of s) in E. rewrite Ho, Er, Em in E.
      injection E as _ <-. by eapply Hyes.
    + apply Hno; [done|]. intros d Hd. destruct Hfail as [Hw _]; [intros ? [= <-]; done|].
      destruct res as [[x|]|err|]; cbn in *; congruence.
  - apply Hno; [done|]. intros d Hd. destruct Hfail as [Hw _]; [done|]. destruct res as [[x|]|err|]; cbn in *; congruence.
Qed.

Lemma runs_update id upd now f s s0 Φ :
  same s0 s →
  (∀ s' row res, orders_of s0 !! bare_id "orders" id = Some row →
     orders_of s' = <[bare_id "orders" id := merged_row upd now row]> (orders_of s0) → Φ s' res) →
  (∀ s' res, orders_of s' = orders_of s0 → Φ s' res) →
  runs (db_map_err f (update_document "orders" id upd now)) s Φ.
Proof.
  intros [Ho _] Hyes Hno. unfold runs, db_map_err.
  pose proof (update_rows "orders" id upd now s) as Hrows.
  destruct (update_document "orders" id upd now s) as [s' res]. cbn [fst snd] in *.
  fold (orders_of s') (orders_of s) in *. change (orders_of s = orders_of s0) in Ho. rewrite Ho in *.
  destruct (orders_of s0 !! bare_id "orders" id) as [row|]; [by eapply Hyes|by apply Hno].
Qed.

(** What runs after the write does not matter. *)
Lemma runs_rest {A} e user_id r (m : handler A) s s' :
  keeps "orders" m → order_effect e user_id r s s' →
  runs m s' (λ s'' _, order_effect e user_id r s s'').
Proof. intros Hk. unfold runs, order_effect, orders_of. by rewrite (Hk s'). Qed.

Lemma log_rest {A} e order_id user_id t msg m (r : Result A) :
  keeps "orders" (_ ← log_order_event e order_id user_id t msg m; pure r).
Proof. apply keeps_bind; [by apply log_keeps|]. intros _. apply keeps_pure. Qed.

Lemma confirm_effect e user_id req s :
  runs (confirm_item_receipt pg_error e user_id req) s
    (λ s' _, order_effect e user_id (Confirm req) s s').
Proof.
  pose proof (same_refl s) as Hs. unfold confirm_item_receipt.
  do 3 (apply runs_bind, runs_pure; case_match; [|by left|by left]).
  frame_step. intros s1 [] Hs1; [|by apply effect_same..].
  apply runs_bind. eapply runs_read_order; [eassumption| |intros; by apply effect_same].
  intros s2 row Hs2 Hrow. apply runs_bind, runs_pure.
  destruct (confirm_plan _ _ _ _) as [[[upd all]|]|err|] eqn:Ep; try by apply effect_same.
  apply runs_bind. unfold confirm_write. apply runs_bind.
  eapply runs_cas; [eassumption| |].
  - intros s3 res H3 Hne. destruct res as [[d|]|err|]; [by exfalso; eapply Hne|..]; by left.
  - intros s3 row' d Hrow' Hm H3. apply runs_pure, runs_rest; [apply log_rest|].
    rewrite Hrow in Hrow'. injection Hrow' as <-. right. exists row, upd. split_and!; [done| |done].
    by exists all.
Qed.

Lemma set_order_effect e user_id req s :
  bare_id "orders" (bare_id "orders" (ur_order_id req)) = bare_id "orders" (ur_order_id req) →
  runs (update_order_status pg_error e user_id req) s
    (λ s' _, order_effect e user_id (SetOrder req) s s').
Proof.
  intros Hid. pose proof (same_refl s) as Hs. unfold update_order_status.
  do 3 (apply runs_bind, runs_pure; case_match; [|by left|by left]).
  frame_step. intros s1 [] Hs1; [|by apply effect_same..]. cbv zeta.
  apply runs_bind, runs_pure. destruct (parse_order_status _) as [new|] eqn:En; [|by apply effect_same].
  cbn [ok_or]. apply runs_bind. eapply runs_read_order; [eassumption| |intros; by apply effect_same].
  intros s2 row Hs2 Hrow. apply runs_bind, runs_pure.
  destruct (old_order_status _) as [old|err|] eqn:Eo; try by apply effect_same.
  apply runs_bind. eapply runs_is_user_admin; [eassumption|]. intros s3 Hs3.
  apply runs_bind, runs_pure. destruct (order_plan _ _ _ _ _ _ _ _) as [d|err|] eqn:Ep; try by apply effect_same.
  destruct d as [upd all|upd]; cbn [order_finish]; [unfold seller_finish|unfold admin_finish]; apply runs_bind.
  - eapply runs_update; [eassumption| |].
    + intros s4 row' res Hrow' H4. rewrite Hrow in Hrow'. injection Hrow' as <-.
      assert (order_effect e user_id (SetOrder req) s s4) as Hf; [|by case_match].
      right. exists row, upd. split_and!; [done| |done]. by exists new, old, (SellerShips upd all).
    + intros s4 res H4. assert (order_effect e user_id (SetOrder req) s s4) by (by left). by case_match.
  - unfold order_write. apply runs_bind. eapply runs_cas; [eassumption| |]; rewrite ?Hid.
    + intros s4 res H4 Hne. destruct res as [[d|]|err|]; [by exfalso; eapply Hne|..]; by left.
    + intros s4 row' d Hrow' Hm H4. apply runs_pure, runs_rest; [apply log_rest|].
      rewrite Hrow in Hrow'. injection Hrow' as <-. right. exists row, upd. split_and!; [done| |done].
      by exists new, old, (CasWrite upd).
Qed.

Lemma set_item_effect e user_id req s :
  runs (update_item_status pg_error e user_id req) s
    (λ s' _, order_effect e user_id (SetItem req) s s').
Proof.
  pose proof (same_refl s) as Hs. unfold update_item_status.
  do 4 (apply runs_bind, runs_pure; case_match; [|by left|by left]).
  frame_step. intros s1 [] Hs1; [|by apply effect_same..]. cbv zeta.
  apply runs_bind, runs_pure. destruct (delivery_from_str _) as [nd|] eqn:En; [|by apply effect_same].
  cbn [ok_or]. apply runs_bind. eapply runs_read_order; [eassumption| |intros; by apply effect_same].
  intros s2 row Hs2 Hrow. apply runs_bind, runs_pure.
  destruct (bool_field _ _) eqn:Ea; [by apply effect_same|].
  apply runs_bind. eapply runs_is_user_admin; [eassumption|]. intros s3 Hs3.
  apply runs_bind, runs_pure.
  destruct (item_plan _ _ _ _ _ _ _ _ _) as [[[upd ad] ash]|err|] eqn:Ep; try by apply effect_same.
  apply runs_bind. unfold item_write. apply runs_bind. eapply runs_update; [eassumption| |].
  - intros s4 row' res Hrow' H4. rewrite Hrow in Hrow'. injection Hrow' as <-.
    assert (order_effect e user_id (SetItem req) s s4) as Hf.
    { right. exists row, upd. split_and!; [done| |done]. by exists nd, ad, ash. }
    case_match; [|done|done]. apply runs_pure, runs_rest; [apply log_rest|done].
  - intros s4 res H4. assert (order_effect e user_id (SetItem req) s s4) as Hf by (by left).
    case_match; [|done|done]. apply runs_pure, runs_rest; [apply log_rest|done].
Qed.

(** Ids that do not carry the collection's prefix twice. *)
Definition plain_order (r : order_request) : Prop := bare_id "orders" (stored_id r) = stored_id r.

Lemma handle_effect e user_id r s :
  plain_order r → order_effect e user_id r s (handle e user_id r s).1.
Proof.
  intros Hid. change (runs (handle e user_id r) s (λ s' _, order_effect e user_id r s s')).
  destruct r as [req|req|req]; cbn [handle]; apply runs_bind;
    (eapply runs_consequence; [by (apply confirm_effect || apply set_order_effect || apply set_item_effect)|]);
    intros s' res Hf; by case_match.
Qed.
End effects.

(** ** What the plans decide *)
Section plans.
Context `{C : Chrono} `{P : PgJson}.

Lemma str_field_doc id row k : ¬ is_metadata k → str_field (row_to_doc id row) k = str_field (row_data row) k.
Proof. intros Hk. unfold str_field. by rewrite get_row_to_doc. Qed.
Lemma items_doc id row : items_array (row_to_doc id row) = items_array (row_data row).
Proof. unfold items_array. by rewrite get_row_to_doc by concrete. Qed.

(** The part of an update that concerns the status and the items. *)
Record update_of (upd : Value) (status items : option Value) : Prop := {
  upd_object : ∃ m, upd = VObject m ∧ NoDup m.*1;
  upd_status : get "orderStatus" upd = status;
  upd_items : get "items" upd = items;
}.

Lemma merged_get upd status items now row m k :
  update_of upd status items → row_data row = VObject m →
  get k (row_data (merged_row upd now row))
  = match get k upd with Some v => Some v | None => get k (row_data row) end.
Proof.
  intros [(m' & -> & Hnd) _ _] Hm. by apply (merged_row_get m' now row m).
Qed.

(** Fields written into an item. *)
Lemma put_fields_get l it it' k :
  put_fields l it = Ok it' →
  get k it' = match list_find (λ kx, kx.1 = k) (reverse l) with
              | Some (_, (_, x)) => Some x | None => get k it end.
Proof.
  revert it. induction l as [|[k' x] l IH]; intros it H; [by injection H as ->|].
  cbn [put_fields] in H. destruct (index_put k' x it) as [it1| |] eqn:E; try done.
  rewrite (IH _ H), reverse_cons.
  destruct (list_find (λ kx, kx.1 = k) (reverse l)) as [[i kx]|] eqn:El.
  - by erewrite list_find_app_l by done.
  - rewrite list_find_app_r by done. cbn.
    assert (get k it1 = if decide (k' = k) then Some x else get k it) as ->.
    { destruct it; cbn in E; try done; injection E as <-; cbn.
      - case_decide; [subst; by rewrite str_eqb_refl|]. destruct (k =s? k') eqn:E; bools; congruence.
      - case_decide; [subst; apply assoc_get_insert|by apply assoc_get_insert_ne]. }
    by case_decide.
Qed.

Lemma put_item_lookup idx l items items' i :
  put_item idx l items = Ok items' →
  ∃ it it', items !! idx = Some it ∧ put_fields l it = Ok it'
    ∧ items' !! i = if decide (i = idx) then Some it' else items !! i.
Proof.
  unfold put_item. destruct (items !! idx) as [it|] eqn:E; cbn; [|done].
  destruct (put_fields l it) as [it'| |] eqn:Ep; cbn; [|done|done]. intros [= <-].
  exists it, it'. split_and!; [done|done|]. case_decide; subst.
  - rewrite list_lookup_insert_eq; [done|]. by eapply lookup_lt_Some.
  - by rewrite list_lookup_insert_ne.
Qed.

Lemma collect_lookup {E A B} (f : A → outcome E B) l l' i :
  collect f l = Ok l' → match l !! i with Some x => ∃ y, l' !! i = Some y ∧ f x = Ok y
                                         | None => l' !! i = None end.
Proof.
  revert l' i. induction l as [|x l IH]; intros l' i.
  - intros [= <-]. by rewrite lookup_nil.
  - change (collect f (x :: l)) with
      (match f x with
       | Ok y => match collect f l with Ok ys => Ok (y :: ys) | Err e => Err e | Panic => Panic end
       | Err e => Err e | Panic => Panic end).
    destruct (f x) as [y| |] eqn:Ef; try done. destruct (collect f l) as [ys| |] eqn:Ec; try done. intros [= <-].
    destruct i as [|i]; cbn; [eauto|]. by apply IH.
Qed.

Lemma find_item_Some items product_id idx :
  find_item_index items product_id = Some idx →
  ∃ it, items !! idx = Some it ∧ str_field it "productId" = product_id.
Proof.
  unfold find_item_index. destruct (list_find _ items) as [[i it]|] eqn:E; [|done]. cbn. intros [= <-].
  apply list_find_Some in E as (Hl & Hp & _). eauto.
Qed.

Lemma delivery_from_str_Some t d : delivery_from_str t = Some d ↔ delivery_str d = t.
Proof.
  split.
  - unfold delivery_from_str. repeat case_match; intros [= <-]; bools; by subst.
  - intros <-. by destruct d.
Qed.

(** An update whose keys are given: an object without duplicate keys. *)
Ltac shape :=
  constructor; [eexists; split; [reflexivity|apply (bool_decide_unpack _); by vm_compute]
               |reflexivity|reflexivity].

Lemma confirm_plan_inv user_id product_id now doc upd all :
  confirm_plan user_id product_id now doc = Ok (Some (upd, all)) →
  str_field doc "userId" = user_id
  ∧ ∃ idx item items', find_item_index (items_array doc) product_id = Some idx
      ∧ items_array doc !! idx = Some item ∧ str_field item "status" = "shipped"
      ∧ put_item idx [("status", VString "delivered"); ("deliveredAt", VString now);
                      ("confirmedByBuyer", VBool true)] (items_array doc) = Ok items'
      ∧ all = all_items_delivered items'
      ∧ update_of upd (if all && (str_field doc "paymentStatus" =s? "captured")
                       then Some (VString "delivered") else None) (Some (VArray items')).
Proof.
  unfold confirm_plan. destruct (str_field doc "userId" =s? user_id) eqn:Eu; cbn [negb]; [|done].
  destruct (find_item_index _ _) as [idx|] eqn:Ei; [|done]. cbn [mbind outcome_bind ok_or unwrap].
  destruct (items_array doc !! idx) as [item|] eqn:El; [|done]. cbn [mbind outcome_bind ok_or unwrap].
  destruct (str_field item "sellerId" =s? user_id); [discriminate|].
  destruct (delivery_from_str _) as [[]|] eqn:Ed; try discriminate.
  destruct (put_item _ _ _) as [items'| |] eqn:Ep; [|done|done]. cbn [mbind outcome_bind]. intros [= <- <-]. bools.
  apply delivery_from_str_Some in Ed. split; [done|].
  exists idx, item, items'. split_and!; [done|done|by rewrite <- Ed|done|done|].
  unfold should_promote_order_to_delivered. change (payment_status_str Payment.Captured) with "captured".
  destruct (all_items_delivered items'); [|shape]. cbn [andb].
  destruct (_ =s? "captured"); shape.
Qed.

Lemma tracking_cases tracking carrier :
  tracking_fields tracking carrier = []
  ∨ ∃ tn c, tracking_fields tracking carrier
      = [("trackingNumber", VString tn); ("shippingCarrier", VString c)].
Proof. destruct tracking; cbn; eauto. Qed.

Lemma seller_ships_inv user_id now tracking carrier items d :
  seller_ships user_id now tracking carrier items = Ok d →
  ∃ upd items', d = SellerShips upd (all_items_shipped items')
    ∧ collect (λ it, if str_field it "sellerId" =s? user_id
                     then put_fields (shipped_fields now tracking carrier) it else Ok it) items = Ok items'
    ∧ seller_items user_id items ≠ []
    ∧ update_of upd (if all_items_shipped items' then Some (VString "shipped") else None)
        (Some (VArray items')).
Proof.
  unfold seller_ships. destruct (collect _ items) as [items'| |] eqn:E; [|done|done]. cbn.
  case_bool_decide; [done|]. intros [= <-]. eexists _, items'. split_and!; [done|done|done|].
  destruct (all_items_shipped items'); [|shape].
  destruct (tracking_cases tracking carrier) as [->|(tn & c & ->)]; shape.
Qed.

Lemma admin_updates_inv is_admin new now tracking carrier items d :
  admin_updates is_admin new now tracking carrier items = Ok d →
  ∃ upd its, d = CasWrite upd ∧ update_of upd (Some (VString (order_status_str new))) its
    ∧ (new ≠ Order.Shipped → (is_admin && bool_decide (new = Order.Delivered)) = false → its = None).
Proof.
  unfold admin_updates. destruct (bool_decide_reflect (new = Order.Shipped)) as [->|Hs].
  - rewrite (bool_decide_false (Order.Shipped = Order.Delivered)), andb_false_r by done.
    destruct (collect _ items) as [items'| |]; cbn [mbind outcome_bind]; [|discriminate|discriminate].
    intros [= <-]. eexists _, (Some (VArray items')). split; [done|]. split; [|done].
    destruct (tracking_cases tracking carrier) as [->|(tn & c & ->)]; shape.
  - cbn [mbind outcome_bind]. destruct (is_admin && _) eqn:Ed.
    + bools. subst new. destruct (collect _ items) as [items'| |]; cbn [mbind outcome_bind]; [|discriminate|discriminate].
      intros [= <-].
      eexists _, (Some (VArray items')). split; [done|]. split; [shape|done].
    + intros [= <-]. eexists _, None. split; [done|]. split; [|done].
      constructor; [eexists; split; [reflexivity|apply (bool_decide_unpack _); by vm_compute]|done|done].
Qed.

Lemma item_plan_inv user_id is_admin product_id st nd tracking carrier now doc upd ad ash :
  item_plan user_id is_admin product_id st nd tracking carrier now doc = Ok (upd, ad, ash) →
  ∃ idx item items' status, find_item_index (items_array doc) product_id = Some idx
    ∧ items_array doc !! idx = Some item
    ∧ (is_admin = true ∨ str_field item "sellerId" = user_id ∧ nd ≠ Delivery.Delivered)
    ∧ put_item idx (item_fields nd now tracking carrier) (items_array doc) = Ok items'
    ∧ update_of upd status (Some (VArray items'))
    ∧ (status = None
       ∨ (status = Some (VString "delivered") ∧ all_items_delivered items' = true
          ∧ str_field doc "paymentStatus" = "captured")
       ∨ (status = Some (VString "shipped") ∧ all_items_shipped items' = true
          ∧ parse_order_status (str_field doc "orderStatus")
            ∈ [Some Order.Processing; Some Order.PaymentAuthorized])).
Proof.
  unfold item_plan. destruct (find_item_index _ _) as [idx|] eqn:Ei; [|discriminate].
  cbn [mbind outcome_bind ok_or]. destruct (items_array doc !! idx) as [item|] eqn:El; [|discriminate].
  cbn [mbind outcome_bind unwrap].
  destruct (negb is_admin && negb _) eqn:Eauth; [discriminate|].
  destruct (_ && bool_decide (nd = Delivery.Delivered)) eqn:Edel; [discriminate|].
  destruct (negb is_admin && negb (is_valid_item_transition _ _)); [discriminate|].
  destruct (_ && negb (str_field doc "deliverySpeed" =s? "pickup")); [discriminate|].
  destruct (put_item _ _ _) as [items'| |] eqn:Ep; cbn [mbind outcome_bind]; [|discriminate|discriminate].
  intros [= <- <- <-].
  change (payment_status_str Payment.Captured) with "captured".
  exists idx, item, items'.
  assert (is_admin = true ∨ str_field item "sellerId" = user_id ∧ nd ≠ Delivery.Delivered) as Hauth.
  { destruct is_admin; [by left|right]. cbn [negb andb] in *. bools. split; [done|].
    rewrite Eauth, str_eqb_refl in Edel. cbn [andb negb] in Edel. by bools. }
  destruct (all_items_delivered items' && _) eqn:E1.
  - destruct (_ =s? "captured") eqn:E2.
    + exists (Some (VString "delivered")). split_and!; try done; [shape|]. bools. right. left. done.
    + exists None. split_and!; try done; [shape|by left].
  - destruct (all_items_shipped items' && _) eqn:E2; [|exists None; split_and!; try done; [shape|by left]].
    destruct (parse_order_status _) as [[]|] eqn:Epo;
      try (exists None; split_and!; try done; [shape|by left]);
      (exists (Some (VString "shipped")); split_and!; try done; [shape|]; bools; right; right;
       split_and!; [done|done|set_solver]).
Qed.

Lemma order_plan_inv user_id is_admin old new tracking carrier now doc d :
  order_plan user_id is_admin old new tracking carrier now doc = Ok d →
  is_valid_order_transition old new = true
  ∧ (is_admin = true ∨ seller_items user_id (items_array doc) ≠ [] ∧ new ≠ Order.Delivered)
  ∧ (if is_admin || negb (bool_decide (new = Order.Shipped))
     then admin_updates is_admin new now tracking carrier (items_array doc) = Ok d
     else seller_ships user_id now tracking carrier (items_array doc) = Ok d).
Proof.
  unfold order_plan. destruct (order_guards user_id is_admin new doc) eqn:Eg; cbn [mbind outcome_bind];
    [|discriminate|discriminate].
  destruct (is_valid_order_transition old new); cbn [negb]; [|discriminate].
  unfold order_guards in Eg. intros H. split; [done|].
  destruct (bool_decide_reflect (seller_items user_id (items_array doc) = [])) as [Hn|Hn];
    cbn [negb andb] in *.
  - destruct is_admin; [|discriminate]. by split; [left|].
  - destruct is_admin; cbn [negb andb orb] in *; [by split; [left|]|].
    destruct (bool_decide_reflect (new = Order.Delivered)) as [|Hd]; [discriminate|].
    split; [by right|]. by destruct (bool_decide (new = Order.Shipped)).
Qed.

(** The status and the items of an order after the planned merge. *)
Definition status_of (row : DocRow) : string := str_field (row_data row) "orderStatus".
Definition items_of (row : DocRow) : list Value := items_array (row_data row).

Lemma merged_status upd status items now row m :
  update_of upd status items → row_data row = VObject m →
  status_of (merged_row upd now row)
  = match status with Some v => default "" (as_str v) | None => status_of row end.
Proof.
  intros Hu Hm. unfold status_of, str_field. rewrite (merged_get upd status items now row m) by done.
  rewrite (upd_status _ _ _ Hu). by destruct status.
Qed.
Lemma merged_items upd status items now row m :
  update_of upd status items → row_data row = VObject m →
  items_of (merged_row upd now row)
  = match items with Some v => default [] (as_array v) | None => items_of row end.
Proof.
  intros Hu Hm. unfold items_of, items_array. rewrite (merged_get upd status items now row m) by done.
  rewrite (upd_items _ _ _ Hu). by destruct items.
Qed.

Lemma known_status row a :
  parse_order_status (status_of row) = Some a →
  (∃ m, row_data row = VObject m) ∧ get "orderStatus" (row_data row) = Some (VString (order_status_str a)).
Proof.
  intros H%parse_order_status_Some. unfold status_of, str_field in H.
  destruct (row_data row) as [| | | | |m]; cbn in *; try by destruct a. split; [eauto|].
  destruct (assoc_get "orderStatus" m) as [[]|]; cbn in *; try by destruct a. by rewrite H.
Qed.

Lemma old_status_known id row a old :
  parse_order_status (status_of row) = Some a →
  old_order_status (row_to_doc id row) = Ok old → old = a.
Proof.
  intros Ha. destruct (known_status row a Ha) as [_ Hg]. unfold old_order_status.
  rewrite get_row_to_doc by concrete. rewrite Hg.
  change (default "pending" (Some (VString (order_status_str a)) ≫= as_str)) with (order_status_str a).
  cbv zeta.
  rewrite (proj2 (parse_order_status_Some _ a) eq_refl). cbn [ok_or mbind outcome_bind].
  destruct (bool_field _ _); [discriminate|]. by intros [= <-].
Qed.

(** The moves of an order's status: none, an edge of the transition graph, the
    promotion of an order whose items are all shipped, and that of a paid order
    whose items are all delivered. *)
Inductive order_move (row row' : DocRow) : OrderStatus → OrderStatus → Prop :=
| move_none a : order_move row row' a a
| move_graph a b : is_valid_order_transition a b = true → order_move row row' a b
| move_shipped a :
    a = Order.Processing ∨ a = Order.PaymentAuthorized → all_items_shipped (items_of row') = true →
    order_move row row' a Order.Shipped
| move_delivered a :
    str_field (row_data row) "paymentStatus" = "captured" → all_items_delivered (items_of row') = true →
    order_move row row' a Order.Delivered.
End plans.

(** ** Guarantees *)
Section guarantees.
Context `{C : Chrono} `{P : PgJson}.
Context (pg_error : string).
Implicit Types s : store.

Lemma planned_move e user_id s r row upd a :
  planned e user_id s r row upd → parse_order_status (status_of row) = Some a →
  ∃ b, parse_order_status (status_of (merged_row upd (env_write_now e) row)) = Some b
    ∧ order_move row (merged_row upd (env_write_now e) row) a b.
Proof.
  intros Hp Ha. destruct (known_status row a Ha) as [[m Hm] _].
  destruct r as [req|req|req]; cbn in Hp.
  - destruct Hp as (all & Hp & _). apply confirm_plan_inv in Hp as (_ & idx & it & its & _ & _ & _ & _ & -> & Hu).
    rewrite (merged_status _ _ _ _ row m Hu Hm). rewrite str_field_doc in Hu |- * by concrete.
    destruct (all_items_delivered its && _) eqn:E; cbn; [|eauto using order_move].
    exists Order.Delivered. split; [done|]. bools. apply move_delivered; [done|].
    by rewrite (merged_items _ _ _ _ row m Hu Hm).
  - destruct Hp as (new & old & d & _ & Ho & Hp & Hd).
    apply (old_status_known _ _ a) in Ho as ->; [|done]. apply order_plan_inv in Hp as (Hv & _ & Hp).
    destruct (stored_admin s user_id || _) eqn:Ead.
    + apply admin_updates_inv in Hp as (u & its & -> & Hu & _). destruct Hd as [-> _].
      rewrite (merged_status _ _ _ _ row m Hu Hm). exists new.
      split; [by apply parse_order_status_Some|by constructor].
    + apply seller_ships_inv in Hp as (u & its & -> & _ & _ & Hu). cbn in Hd. subst u. bools. subst new.
      rewrite (merged_status _ _ _ _ row m Hu Hm).
      destruct (all_items_shipped its); [|eauto using order_move].
      exists Order.Shipped. split; [done|by constructor].
  - destruct Hp as (nd & ad & ash & _ & _ & Hp).
    apply item_plan_inv in Hp as (idx & it & its & status & _ & _ & _ & _ & Hu & Hst).
    rewrite (merged_status _ _ _ _ row m Hu Hm).
    assert (items_of (merged_row upd (env_write_now e) row) = its) as Hits
      by (by rewrite (merged_items _ _ _ _ row m Hu Hm)).
    rewrite !str_field_doc in Hst by concrete.
    destruct Hst as [->|[(-> & Hall & Hpay)|(-> & Hall & Hin)]]; [eauto using order_move|..].
    + exists Order.Delivered. split; [done|]. apply move_delivered; [done|by rewrite Hits].
    + exists Order.Shipped. split; [done|]. apply move_shipped; [|by rewrite Hits].
      fold (status_of row) in Hin. rewrite Ha in Hin. set_solver.
Qed.

(** C33: whoever sends whatever request, and whether it succeeds or fails, the
    status of an order stays a known one and moves only along the transition
    graph, or is promoted: to shipped, from processing or confirmed, when every
    item is; to delivered, when every item is and the payment is captured.  No
    other order changes. *)
Theorem order_status_moves e user_id r s row a :
  plain_order r → orders_of s !! stored_id r = Some row → parse_order_status (status_of row) = Some a →
  let s' := (handle pg_error e user_id r s).1 in
  (∃ row' b, orders_of s' !! stored_id r = Some row' ∧ parse_order_status (status_of row') = Some b
     ∧ order_move row row' a b)
  ∧ ∀ id, id ≠ stored_id r → orders_of s' !! id = orders_of s !! id.
Proof.
  intros Hid Hrow Ha s'. destruct (handle_effect pg_error e user_id r s Hid) as [Hs|(row1 & upd & H1 & Hp & Hs)];
    subst s'; rewrite Hs.
  - split; [|done]. exists row, a. eauto using order_move.
  - rewrite Hrow in H1. injection H1 as <-. split.
    + exists (merged_row upd (env_write_now e) row). rewrite lookup_insert_eq.
      destruct (planned_move e user_id s r row upd a Hp Ha) as (b & ? & ?). eauto.
    + intros id Hne. by rewrite lookup_insert_ne.
Qed.

(** Who takes part in an order. *)
Definition buyer_of (row : DocRow) (user_id : string) : Prop :=
  str_field (row_data row) "userId" = user_id.
Definition sells_in (row : DocRow) (user_id : string) : Prop :=
  ∃ it, it ∈ items_of row ∧ str_field it "sellerId" = user_id.

(** An order is changed only by a party to it: if a request changes the
    orders at all, the order exists and the caller is an administrator, sells one
    of its items, or is its buyer (who can only confirm receipt). *)
Theorem order_changed_by_party e user_id r s :
  plain_order r → orders_of (handle pg_error e user_id r s).1 ≠ orders_of s →
  ∃ row, orders_of s !! stored_id r = Some row ∧
    (stored_admin s user_id = true ∨ sells_in row user_id
     ∨ (buyer_of row user_id ∧ ∃ req, r = Confirm req)).
Proof.
  intros Hid Hch. destruct (handle_effect pg_error e user_id r s Hid) as [Hs|(row & upd & Hrow & Hp & Hs)]; [done|].
  exists row. split; [done|]. destruct r as [req|req|req]; cbn in Hp.
  - destruct Hp as (all & Hp & _). apply confirm_plan_inv in Hp as [Hu _]. right; right.
    unfold buyer_of. rewrite str_field_doc in Hu by concrete. eauto.
  - destruct Hp as (new & old & d & _ & _ & Hp & _). apply order_plan_inv in Hp as (_ & [Had|[Hsel _]] & _); [by left|].
    right; left. unfold seller_items in Hsel. rewrite items_doc in Hsel.
    destruct (filter _ _) as [|it l] eqn:E; [done|]. exists it.
    assert (it ∈ filter (λ it, str_field it "sellerId" = user_id) (items_array (row_data row))) as Hin
      by (rewrite E; left).
    apply list_elem_of_filter in Hin as [H1 H2]. done.
  - destruct Hp as (nd & ad & ash & _ & _ & Hp).
    apply item_plan_inv in Hp as (idx & it & its & status & _ & Hl & [Had|[Hsel _]] & _); [by left|].
    right; left. rewrite items_doc in Hl. exists it. split; [|done]. by eapply list_elem_of_lookup_2.
Qed.

Lemma items_object v : items_array v ≠ [] → ∃ m, v = VObject m.
Proof. destruct v; try done. eauto. Qed.

Lemma planned_object e user_id s r row upd :
  planned e user_id s r row upd → ∃ m, row_data row = VObject m.
Proof.
  assert (∀ (f : string) x, cas_matches f x row = true → ∃ m, row_data row = VObject m) as Hcas.
  { intros f x. unfold cas_matches, field_text. destruct (row_data row); try done. eauto. }
  destruct r as [req|req|req]; cbn.
  - intros (all & _ & Hm). eauto.
  - intros (new & old & [u b|u] & _ & _ & Hp & Hd); [|by destruct Hd; eauto].
    apply order_plan_inv in Hp as (_ & _ & Hp). destruct (stored_admin s user_id || _).
    + by apply admin_updates_inv in Hp as (? & ? & ? & _).
    + apply seller_ships_inv in Hp as (_ & _ & _ & _ & Hne & _). apply items_object.
      rewrite <- (items_doc (stored_id (SetOrder req))). intros Hnil. by rewrite Hnil in Hne.
  - intros (nd & ad & ash & _ & _ & Hp). apply item_plan_inv in Hp as (idx & it & ? & ? & _ & Hl & _).
    apply items_object. rewrite <- (items_doc (stored_id (SetItem req))). intros Hnil. by rewrite Hnil in Hl.
Qed.

(** The status an item gets from the fields written into it. *)
Lemma put_status l it it' x :
  put_fields (("status", VString x) :: l) it = Ok it' → "status" ∉ l.*1 → str_field it' "status" = x.
Proof.
  intros H Hn. unfold str_field. rewrite (put_fields_get _ _ _ "status" H), reverse_cons.
  rewrite list_find_app_r; [done|]. apply list_find_None, Forall_forall. intros [k y] Hin Hk. cbn in Hk.
  subst k. apply Hn. rewrite elem_of_reverse in Hin. apply list_elem_of_fmap. by exists ("status", y).
Qed.
Lemma shipped_status now tracking carrier it it' :
  put_fields (shipped_fields now tracking carrier) it = Ok it' → str_field it' "status" = "shipped".
Proof. intros H. apply put_status in H; [done|]. by destruct tracking; concrete. Qed.
Lemma item_status nd now tracking carrier it it' :
  put_fields (item_fields nd now tracking carrier) it = Ok it' → str_field it' "status" = delivery_str nd.
Proof. intros H. apply put_status in H; [done|]. by destruct nd, tracking, carrier; concrete. Qed.

(** Nobody but the buyer and administrators delivers: after any request of
    anybody else, an item that is marked delivered already was. *)
Theorem sellers_never_deliver e user_id r s row row' i it' :
  plain_order r → orders_of s !! stored_id r = Some row →
  stored_admin s user_id = false → ¬ buyer_of row user_id →
  orders_of (handle pg_error e user_id r s).1 !! stored_id r = Some row' →
  items_of row' !! i = Some it' → str_field it' "status" = "delivered" →
  ∃ it, items_of row !! i = Some it ∧ str_field it "status" = "delivered".
Proof.
  intros Hid Hrow Had Hb Hrow' Hi Hdel.
  destruct (handle_effect pg_error e user_id r s Hid) as [Hs|(row1 & upd & H1 & Hp & Hs)]; rewrite Hs in Hrow'.
  { rewrite Hrow in Hrow'. injection Hrow' as <-. eauto. }
  rewrite Hrow in H1. injection H1 as <-. rewrite lookup_insert_eq in Hrow'. injection Hrow' as <-.
  destruct (planned_object _ _ _ _ _ _ Hp) as [m Hm]. destruct r as [req|req|req]; cbn in Hp; rewrite ?Had in Hp.
  - destruct Hp as (all & Hp & _). apply confirm_plan_inv in Hp as [Hu _].
    rewrite str_field_doc in Hu by concrete. done.
  - destruct Hp as (new & old & d & _ & _ & Hp & Hd). apply order_plan_inv in Hp as (_ & [|[_ Hnd]] & Hp); [done|].
    cbn [orb] in Hp. destruct (bool_decide_reflect (new = Order.Shipped)) as [->|Hns]; cbn [negb] in Hp.
    + apply seller_ships_inv in Hp as (u & its & -> & Hc & _ & Hu). cbn in Hd. subst u.
      rewrite (merged_items _ _ _ _ row m Hu Hm) in Hi. cbn in Hi.
      pose proof (collect_lookup _ _ _ i Hc) as Hl. rewrite items_doc in Hl. fold (items_of row) in Hl.
      destruct (items_of row !! i) as [it|]; [|congruence]. destruct Hl as (y & Hy & Hf). exists it. split; [done|].
      rewrite Hi in Hy. injection Hy as <-. destruct (_ =s? user_id); [|by injection Hf as ->].
      apply shipped_status in Hf. congruence.
    + apply admin_updates_inv in Hp as (u & its & -> & Hu & Hn). destruct Hd as [-> _].
      rewrite Hn in Hu by done. rewrite (merged_items _ _ _ _ row m Hu Hm) in Hi. eauto.
  - destruct Hp as (nd & ad & ash & _ & _ & Hp).
    apply item_plan_inv in Hp as (idx & it & its & status & _ & _ & [|[_ Hnd]] & Hput & Hu & _); [done|].
    rewrite (merged_items _ _ _ _ row m Hu Hm) in Hi. cbn in Hi. rewrite items_doc in Hput.
    destruct (put_item_lookup _ _ _ _ i Hput) as (x & x' & Hx & Hf & Hl). rewrite Hi in Hl.
    case_decide; [|eauto]. injection Hl as <-. apply item_status in Hf. rewrite Hdel in Hf. by destruct nd.
Qed.

(** *** Interleavings *)

(** An administrator's update is atomic with respect to the status even
    though the order is read first: if its write succeeds, in whatever state the
    store is by then, the status at that moment is the one decided on, and it
    moves along an edge of the graph. *)
Theorem admin_update_linearizable e user_id is_admin old new tracking carrier now doc upd order_id s s' :
  order_plan user_id is_admin old new tracking carrier now doc = Ok (CasWrite upd) →
  order_write e order_id old upd s = (s', Ok tt) →
  let id := bare_id "orders" (bare_id "orders" order_id) in
  is_valid_order_transition old new = true
  ∧ ∃ row, orders_of s !! id = Some row
      ∧ field_text "orderStatus" (row_data row) = Some (order_status_str old)
      ∧ orders_of s' = <[id := merged_row upd (env_write_now e) row]> (orders_of s)
      ∧ status_of (merged_row upd (env_write_now e) row) = order_status_str new.
Proof.
  intros Hp Hw id. apply order_plan_inv in Hp as (Hv & _ & Hp). split; [done|].
  assert (∃ its, update_of upd (Some (VString (order_status_str new))) its) as [its Hu].
  { destruct (is_admin || _).
    - apply admin_updates_inv in Hp as (u & its & [= <-] & Hu & _). eauto.
    - by apply seller_ships_inv in Hp as (? & ? & ? & _). }
  unfold order_write, mbind, handler_bind, db_map_err in Hw.
  destruct (update_document_cas _ _ _ _ _ _ s) as [s1 [[d|]|err|]] eqn:E; cbn in Hw; try done.
  injection Hw as <-. destruct (cas_success _ _ _ _ _ _ _ _ _ E) as (row & Hrow & Hm & _).
  pose proof (update_cas_rows "orders" (bare_id "orders" order_id) upd "orderStatus"
    (VString (order_status_str old)) (env_write_now e) s eq_refl) as Hrows.
  rewrite E, Hrow, Hm in Hrows. cbn [fst] in Hrows.
  exists row. split; [done|]. unfold cas_matches in Hm.
  destruct (field_text "orderStatus" (row_data row)) as [t|] eqn:Et; [|done]. cbn in Hm. bools. subst t.
  split; [done|]. split; [done|].
  destruct (row_data row) as [| | | | |m] eqn:Em; try by unfold field_text in Et.
  by rewrite (merged_status _ _ _ _ row m Hu Em).
Qed.

Lemma confirm_write_ok e order_id doc upd s row st :
  orders_of s !! bare_id "orders" order_id = Some row →
  str_field doc "orderStatus" = st → get "orderStatus" (row_data row) = Some (VString st) →
  ∃ s', confirm_write e order_id doc upd s = (s', Ok tt)
    ∧ orders_of s' = <[bare_id "orders" order_id := merged_row upd (env_write_now e) row]> (orders_of s).
Proof.
  intros Hrow Hst Hg.
  destruct (cas_applies "orders" order_id upd "orderStatus" (VString (str_field doc "orderStatus"))
    (env_write_now e) s row eq_refl Hrow) as (s' & d & Hc & Hrows).
  { unfold cas_matches, field_text. rewrite Hg, Hst. cbn. apply str_eqb_refl. }
  exists s'. split; [|done]. unfold confirm_write, mbind, handler_bind, db_map_err. by rewrite Hc.
Qed.

(** Two confirmations of different items of one order, running at the same
    time, both report success and one is lost: the guard compares the status of
    the order, which a confirmation that does not complete the order leaves as it
    is, and the second write replaces all items by the ones it read. *)
Theorem concurrent_confirmations_lose_one e1 e2 user_id p1 p2 order_id s row st u1 u2 :
  let doc := row_to_doc (bare_id "orders" order_id) row in
  p1 ≠ p2 → orders_of s !! bare_id "orders" order_id = Some row →
  get "orderStatus" (row_data row) = Some (VString st) →
  confirm_plan user_id p1 (to_rfc3339 (env_now e1)) doc = Ok (Some (u1, false)) →
  confirm_plan user_id p2 (to_rfc3339 (env_now e2)) doc = Ok (Some (u2, false)) →
  ∃ s1 s2 row2 i it, confirm_write e1 order_id doc u1 s = (s1, Ok tt)
    ∧ confirm_write e2 order_id doc u2 s1 = (s2, Ok tt)
    ∧ orders_of s2 !! bare_id "orders" order_id = Some row2
    ∧ items_of row2 !! i = Some it ∧ str_field it "productId" = p1 ∧ str_field it "status" = "shipped".
Proof.
  intros doc Hne Hrow Hg H1 H2. assert (str_field doc "orderStatus" = st) as Hst.
  { unfold doc. rewrite str_field_doc by concrete. unfold str_field. by rewrite Hg. }
  assert (∃ m, row_data row = VObject m) as [m Hm] by (destruct (row_data row); try done; eauto).
  apply confirm_plan_inv in H1 as (_ & i1 & it1 & its1 & F1 & L1 & S1 & _ & _ & U1).
  apply confirm_plan_inv in H2 as (_ & i2 & it2 & its2 & F2 & L2 & S2 & P2 & _ & U2).
  cbn [andb] in U1, U2. set (row1 := merged_row u1 (env_write_now e1) row).
  assert (row_data row1 = VObject (merge_objects m (default [] (as_object u1)))) as Hm1.
  { destruct (upd_object _ _ _ U1) as (m1 & -> & _). unfold row1. cbn. by rewrite Hm. }
  assert (get "orderStatus" (row_data row1) = Some (VString st)) as Hg1.
  { unfold row1. rewrite (merged_get _ _ _ _ row m) by done. by rewrite (upd_status _ _ _ U1). }
  destruct (confirm_write_ok e1 order_id doc u1 s row st Hrow Hst Hg) as (s1 & W1 & R1).
  destruct (confirm_write_ok e2 order_id doc u2 s1 row1 st) as (s2 & W2 & R2);
    [by rewrite R1, lookup_insert_eq|done|done|].
  exists s1, s2, (merged_row u2 (env_write_now e2) row1), i1, it1.
  split_and!; [done|done|by rewrite R2, lookup_insert_eq| | |done].
  - rewrite (merged_items _ _ _ _ row1 _ U2 Hm1). cbn.
    destruct (put_item_lookup _ _ _ _ i1 P2) as (x & x' & Hx & _ & ->). case_decide as Hi; [|done]. subst i2.
    exfalso. apply Hne. apply find_item_Some in F1 as (y1 & Y1 & Z1), F2 as (y2 & Y2 & Z2). congruence.
  - apply find_item_Some in F1 as (y1 & Y1 & Z1). congruence.
Qed.

(** A seller's shipment is written whatever has become of the order since it
    was read: one that was cancelled in between is marked shipped. *)
Theorem seller_write_ignores_status e user_id old tracking carrier now doc upd order_id s row m :
  order_plan user_id false old Order.Shipped tracking carrier now doc = Ok (SellerShips upd true) →
  orders_of s !! bare_id "orders" order_id = Some row → row_data row = VObject m →
  ∃ s' resp row', order_finish e user_id order_id old Order.Shipped (SellerShips upd true) s = (s', Ok resp)
    ∧ orders_of s' !! bare_id "orders" order_id = Some row' ∧ status_of row' = "shipped".
Proof.
  intros Hp Hrow Hm. apply order_plan_inv in Hp as (_ & _ & Hp). cbn in Hp.
  apply seller_ships_inv in Hp as (u & its & [= <- Hall] & _ & _ & Hu). rewrite <- Hall in Hu.
  cbn [order_finish]. unfold seller_finish, mbind, handler_bind, db_map_err, update_document.
  rewrite with_table_valid by done. cbv beta zeta. rewrite table_rows_ensured.
  fold (orders_of s). rewrite Hrow. cbn. do 3 eexists. split; [reflexivity|]. unfold orders_of at 1.
  rewrite table_rows_insert, lookup_insert_eq. split; [done|]. by rewrite (merged_status _ _ _ _ row m Hu Hm).
Qed.
End guarantees.

(** *** The graph *)

Definition order_edge (a b : OrderStatus) : Prop := is_valid_order_transition a b = true.
Definition order_rank (s : OrderStatus) : nat :=
  match s with
  | Order.PendingPayment => 0 | Order.PaymentAuthorized => 1 | Order.AwaitingShippingApproval => 2
  | Order.Processing => 3 | Order.Shipped => 4 | Order.Delivered => 5 | Order.ReturnRequested => 6
  | Order.ReturnApproved => 7 | Order.Returned => 8 | _ => 9
  end.

Lemma edge_rank a b : order_edge a b → order_rank a < order_rank b.
Proof. destruct a, b; cbn; intros; (discriminate || lia). Qed.

(** The life of an order ends: the transition graph has no cycle, and an
    order is moved along it at most nine times, from pending to refunded. *)
Theorem order_lifetime_bounded :
  (∀ a, ¬ tc order_edge a a)
  ∧ (∀ n a b, nsteps order_edge n a b → n ≤ 9)
  ∧ nsteps order_edge 9 Order.PendingPayment Order.Refunded.
Proof.
  assert (∀ a b, tc order_edge a b → order_rank a < order_rank b) as Htc.
  { induction 1; eauto using edge_rank. etransitivity; eauto using edge_rank. }
  split_and!.
  - intros a H%Htc. lia.
  - assert (∀ n a b, nsteps order_edge n a b → order_rank a + n ≤ order_rank b) as Hn.
    { induction 1 as [|n a b c H%edge_rank _ IH]; lia. }
    intros n a b H%Hn. assert (order_rank b ≤ 9) by (destruct b; cbn; lia). lia.
  - apply nsteps_l with Order.PaymentAuthorized, nsteps_l with Order.AwaitingShippingApproval,
      nsteps_l with Order.Processing, nsteps_l with Order.Shipped, nsteps_l with Order.Delivered,
      nsteps_l with Order.ReturnRequested, nsteps_l with Order.ReturnApproved,
      nsteps_l with Order.Returned, nsteps_l with Order.Refunded; by constructor.
Qed.

(** The schema calls delivered a terminal state, the graph leaves it. *)
Example terminal_status_moves :
  is_terminal Order.Delivered = true ∧ order_edge Order.Delivered Order.ReturnRequested.
Proof. done. Qed.

(** ** Witnesses *)
Section order_witnesses.
#[local] Instance demo_ord_chrono : Chrono := plain_chrono.
#[local] Instance demo_ord_json : PgJson := plain_json.

Definition order_item (product seller status : string) : Value :=
  VObject [("productId", VString product); ("sellerId", VString seller); ("status", VString status)].
Definition order_doc (status payment : string) (items : list Value) : Value :=
  VObject [("id", VString "o1"); ("items", VArray items); ("orderStatus", VString status);
           ("paymentStatus", VString payment); ("userId", VString "buyer")].
Definition order_store (doc : Value) : store := (create_document "orders" doc "" 1 ∅).1.
Definition order_row (doc : Value) : DocRow :=
  {| row_data := doc; row_created_at := 1; row_updated_at := 1 |}.
Definition demo_env : request_env :=
  {| env_test_mode := false; env_secs := 1000; env_limit_id := "l1"; env_limit_now := 2; env_now := 3;
     env_write_now := 4; env_event_id := "e1"; env_event_at := 5; env_event_now := 6 |}.

Definition two_shipped : Value :=
  order_doc "shipped" "captured" [order_item "p1" "seller" "shipped"; order_item "p2" "seller" "shipped"].
Definition confirm_p1 : order_request := Confirm {| cr_order_id := "o1"; cr_product_id := "p1" |}.

Lemma order_status_moves_witness :
  let s' := (handle "" demo_env "buyer" confirm_p1 (order_store two_shipped)).1 in
  (∃ row' b, orders_of s' !! stored_id confirm_p1 = Some row' ∧ parse_order_status (status_of row') = Some b
     ∧ order_move (order_row two_shipped) row' Order.Shipped b)
  ∧ ∀ id, id ≠ stored_id confirm_p1 → orders_of s' !! id = orders_of (order_store two_shipped) !! id.
Proof. apply order_status_moves; by vm_compute. Defined.

Lemma order_changed_by_party_witness :
  ∃ row, orders_of (order_store two_shipped) !! stored_id confirm_p1 = Some row ∧
    (stored_admin (order_store two_shipped) "buyer" = true ∨ sells_in row "buyer"
     ∨ (buyer_of row "buyer" ∧ ∃ req, confirm_p1 = Confirm req)).
Proof.
  apply (order_changed_by_party "" demo_env "buyer" confirm_p1 (order_store two_shipped)); [by vm_compute|].
  intros H. apply (f_equal (λ m : rows, row_updated_at <$> m !! "o1")) in H. by vm_compute in H.
Defined.

Definition seller_ships_p1 : order_request :=
  SetItem {| ir_order_id := "o1"; ir_product_id := "p1"; ir_new_status := "shipped";
             ir_tracking_number := Some "<b>T1</b>"; ir_carrier := None |}.
Definition delivered_and_pending : Value :=
  order_doc "processing" "captured" [order_item "p1" "seller" "pending"; order_item "p2" "seller" "delivered"].
Definition after_ship : store :=
  (handle "" demo_env "seller" seller_ships_p1 (order_store delivered_and_pending)).1.

(** The request ships the item, which completes the shipment of the order. *)
Example seller_ships_effect :
  (λ row, (status_of row, (λ it, (str_field it "status", str_field it "trackingNumber")) <$> items_of row))
    <$> orders_of after_ship !! "o1" = Some ("shipped", [("shipped", "T1"); ("delivered", "")]).
Proof. by vm_compute. Qed.

Lemma sellers_never_deliver_witness :
  ∃ it, items_of (order_row delivered_and_pending) !! 1%nat = Some it ∧ str_field it "status" = "delivered".
Proof.
  apply (sellers_never_deliver "" demo_env "seller" seller_ships_p1 (order_store delivered_and_pending)
    (order_row delivered_and_pending)
    (default (order_row VNull) (orders_of after_ship !! "o1")) 1 (order_item "p2" "seller" "delivered"));
    by vm_compute.
Defined.

Definition cancel_update : Value := VObject [("orderStatus", VString "cancelled"); ("updatedAt", VString "")].

Lemma admin_update_linearizable_witness :
  let doc := row_to_doc "o1" (order_row delivered_and_pending) in
  let s := order_store delivered_and_pending in
  ∃ s', order_write demo_env "o1" Order.Processing cancel_update s = (s', Ok tt)
    ∧ is_valid_order_transition Order.Processing Order.Cancelled = true.
Proof.
  intros doc s. eexists. split; [reflexivity|].
  exact (proj1 (admin_update_linearizable demo_env "admin" true Order.Processing Order.Cancelled None None ""
    doc cancel_update "o1" s _ eq_refl eq_refl)).
Defined.

Definition confirmed_update (status1 status2 : string) (by1 by2 : bool) : Value :=
  let item p st (b : bool) := if b then
      put_all [("status", VString "delivered"); ("deliveredAt", VString (to_rfc3339 3));
               ("confirmedByBuyer", VBool true)] (order_item p "seller" st)
    else order_item p "seller" st in
  VObject [("items", VArray [item "p1" status1 by1; item "p2" status2 by2]);
           ("updatedAt", VString (to_rfc3339 3))].

Lemma concurrent_confirmations_lose_one_witness :
  let s := order_store two_shipped in
  let doc := row_to_doc "o1" (order_row two_shipped) in
  ∃ s1 s2 row2 i it,
    confirm_write demo_env "o1" doc (confirmed_update "shipped" "shipped" true false) s = (s1, Ok tt)
    ∧ confirm_write demo_env "o1" doc (confirmed_update "shipped" "shipped" false true) s1 = (s2, Ok tt)
    ∧ orders_of s2 !! "o1" = Some row2
    ∧ items_of row2 !! i = Some it ∧ str_field it "productId" = "p1" ∧ str_field it "status" = "shipped".
Proof.
  intros s doc. apply (concurrent_confirmations_lose_one demo_env demo_env "buyer" "p1" "p2" "o1" s
    (order_row two_shipped) "shipped"); by vm_compute.
Defined.

(** A confirmation of the last item leaves the graph: an order whose return
    was requested becomes delivered. *)
Definition return_requested : Value :=
  order_doc "return_requested" "captured" [order_item "p1" "seller" "shipped"].
Example confirmation_leaves_graph :
  status_of <$> orders_of (handle "" demo_env "buyer" confirm_p1 (order_store return_requested)).1 !! "o1"
    = Some "delivered"
  ∧ is_valid_order_transition Order.ReturnRequested Order.Delivered = false.
Proof. by vm_compute. Qed.
End order_witnesses.
