(* ===== verification/Coupons.v ===== *)
(** * Coupons

    crates/ob-handlers/src/coupons/mod.rs: the discount of a coupon, and the
    handlers that preview one ([apply_coupon]), create one ([create_coupon])
    and count its use ([redeem_coupon]).

    The discount is computed on the binary64 numbers of Float.v and on [i64],
    which wraps around (the release profile does not check overflow).  Each
    handler is split where the source reads and writes the database, so that
    concurrent redemptions are interleavings of their reads and writes. *)

From S2P Require Export Float Handlers.

(** ** The discount *)

Definition MIN_CHECKOUT_TOTAL_CENTS : Z := 100.
Definition MAX_COUPON_DISCOUNT_RATIO : f64 := f64_of_decimal false 90 2.

(** [^[A-Z0-9]{4,20}$]. *)
Definition is_valid_coupon_code (code : string) : bool :=
  (4 <=? String.length code) && (String.length code <=? 20)
  && str_forall (λ c, is_upper c || is_digit c) code.

(** [effective * 1000.0] rounded, for the capped percentage. *)
Definition millipercent (discount_value : f64) : Z :=
  let effective := f64_min discount_value (f64_mul MAX_COUPON_DISCOUNT_RATIO (f64_of_Z 100)) in
  f64_round_as_i64 (f64_mul effective (f64_of_Z 1000)).

Definition compute_discount (discount_type : string) (discount_value : f64)
    (cart_subtotal_cents : Z) : Z :=
  (if cart_subtotal_cents <=? MIN_CHECKOUT_TOTAL_CENTS then 0
   else if (discount_type =s? "percentage") || (discount_type =s? "percent") then
     let discount := wrap_signed 64 (cart_subtotal_cents * millipercent discount_value) `quot` 100000 in
     if wrap_signed 64 (cart_subtotal_cents - discount) <? MIN_CHECKOUT_TOTAL_CENTS then
       cart_subtotal_cents - MIN_CHECKOUT_TOTAL_CENTS
     else discount
   else if (discount_type =s? "fixed_amount") || (discount_type =s? "fixed_cents") then
     Z.min (f64_as_i64 discount_value) (cart_subtotal_cents - MIN_CHECKOUT_TOTAL_CENTS)
   else 0)%Z.

(** ** Reading a coupon *)

Definition i64_field (field : string) (v : Value) : option Z := get field v ≫= as_i64.
Definition unavailable : Error := Validation "Coupon invalid or unavailable".
Definition not_available : Error := NotFound "Coupon invalid or unavailable".

(** The checks two handlers make. *)
Definition is_active (coupon : Value) : bool := default false (get "isActive" coupon ≫= as_bool).
Definition coupon_expired `{TextLib} (now : Z) (coupon : Value) : bool :=
  match (get "expiresAt" coupon ≫= as_str) ≫= parse_rfc3339 with
  | Some exp => (exp <? now)%Z
  | None => false
  end.
Definition other_seller (seller_ids : list string) (coupon : Value) : bool :=
  match get "sellerId" coupon ≫= as_str with
  | Some coupon_seller => negb (existsb (str_eqb coupon_seller) seller_ids)
  | None => false
  end.
Definition reached (limit : option Z) (count : Z) : bool :=
  match limit with Some max => (max <=? count)%Z | None => false end.
Definition below_minimum (subtotal : Z) (coupon : Value) : bool :=
  match i64_field "minOrderCents" coupon with Some min => (subtotal <? min)%Z | None => false end.
Definition max_per_user (coupon : Value) : Z := default 1%Z (i64_field "maxUsesPerUser" coupon).
(** [get(COUPON_TYPE).or_else(|| get(DISCOUNT_TYPE))]. *)
Definition coupon_type (coupon : Value) : string :=
  default "" ((match get "couponType" coupon with
               | Some v => Some v | None => get "discountType" coupon end) ≫= as_str).
Definition coupon_value (coupon : Value) : f64 :=
  default (S754_zero false) (get "discountValue" coupon ≫= as_f64).

(** ** Requests *)

Record ApplyCouponRequest : Type := {
  ac_code : string; ac_order_subtotal_cents : Z; ac_seller_ids : option (list string);
  ac_user_id : string }.
Record ApplyCouponResponse : Type := {
  ac_valid : bool; ac_discount_amount_cents : Z; ac_discount_type : string;
  ac_discount_value : f64; ac_coupon_code : string }.
Record CreateCouponRequest : Type := {
  cc_code : string; cc_discount_type : string; cc_discount_value : f64;
  cc_min_order_cents : option Z; cc_max_uses_total : option Z; cc_max_uses_per_user : option Z;
  cc_expires_at : option string; cc_seller_id : option string; cc_is_active : bool;
  cc_user_id : string }.
Record CreateCouponResponse : Type := {
  cc_success : bool; cc_id : string; cc_coupon_code : string; cc_created : bool }.
Record RedeemCouponRequest : Type := { rc_code : string; rc_order_id : string; rc_user_id : string }.
Record RedeemCouponResponse : Type := { rc_success : bool; rc_redeemed : bool }.

(** The clock readings and fresh ids of one request. *)
Record coupon_env : Type := {
  ce_test_mode : bool;
  ce_secs : Z; ce_limit_id : string; ce_limit_now : Z;   (** the limiter's *)
  ce_now : Z;                                            (** [Utc::now()] *)
  ce_write_now : Z;                                      (** the database's clock at the write *)
  ce_use_id : string; ce_use_now : Z;                    (** of the usage record *)
}.

(** ** Handlers *)
Section coupons.
Context `{C : Chrono} `{P : PgJson} `{T : TextLib}.
Context (pg_invalid_bigint : string) (scan : rows → list (string * DocRow)).

Definition limited_as (e : coupon_env) (user_id action : string) (max : nat) (window : Z) : handler unit :=
  check_user_rate_limit pg_invalid_bigint (ce_test_mode e) user_id action max window
    (ce_secs e) (ce_limit_id e) (ce_limit_now e).

(** The coupon stored under the code, or else one with that code. *)
Definition find_coupon (code : string) : handler Value := λ s,
  match get_document "coupons" code s with
  | (s, Panic) => (s, Panic)
  | (s, r) =>
      match (match r with Ok doc => if is_null doc then None else Some doc | _ => None end) with
      | Some doc => (s, Ok doc)
      | None =>
          (docs ← select_where scan "coupons" (λ row, bool_decide (field_text "code" (row_data row) = Some code));
           pure (ok_or not_available (head docs))) s
      end
  end.

(** [COALESCE(NULLIF(data->>'a', ''), data->>'b')]. *)
Definition coalesce_text (a b : string) (data : Value) : option string :=
  match field_text a data with
  | Some t => if str_empty t then field_text b data else Some t
  | None => field_text b data
  end.

(** The uses of a coupon by a user.  The statement of [apply_coupon] quotes the
    user's id with [escape_sql_string]: what PostgreSQL reads is [literal], and
    where the id closes the literal the count is [injected]'s. *)
Context (injected : string → store → Z).
Definition literal (text : string) : option string :=
  match lex_standard (escape_sql_string text +:+ str1 APOS) with
  | Some (v, "") => Some v
  | _ => None
  end.
Definition used_by (code user_id : string) (row : DocRow) : bool :=
  bool_decide (coalesce_text "couponId" "coupon_id" (row_data row) = Some code)
  && bool_decide (coalesce_text "userId" "user_id" (row_data row) = Some user_id).
Definition user_use_count (code user_id : string) : handler Z :=
  match literal user_id with
  | Some user_id => count_where "coupon_uses" (used_by code user_id)
  | None => λ s, let s := (ensure_table "coupon_uses" s).1 in (s, Ok (injected user_id s))
  end.

(** *** apply_coupon *)

(** The checks before the per-user count, and those after it. *)
Definition apply_before (now : Z) (coupon : Value) : Result unit :=
  if is_null coupon then Err not_available
  else if negb (is_active coupon) then Err unavailable
  else if coupon_expired now coupon then Err unavailable
  else if reached (i64_field "maxUsesTotal" coupon) (default 0%Z (i64_field "usedCount" coupon)) then
    Err unavailable
  else Ok tt.
Definition apply_after (uses subtotal : Z) (seller_ids : list string) (code : string) (coupon : Value) :
    Result ApplyCouponResponse :=
  if (max_per_user coupon <=? uses)%Z then
    Err (Validation "You've reached the maximum uses for this coupon")
  else if other_seller seller_ids coupon then Err unavailable
  else if below_minimum subtotal coupon then
    Err (Validation "Cart subtotal does not meet the minimum order requirement for this coupon")
  else Ok {| ac_valid := true;
             ac_discount_amount_cents := compute_discount (coupon_type coupon) (coupon_value coupon) subtotal;
             ac_discount_type := coupon_type coupon; ac_discount_value := coupon_value coupon;
             ac_coupon_code := code |}.

Definition apply_coupon (e : coupon_env) (auth : AuthContext) (req : ApplyCouponRequest) :
    handler ApplyCouponResponse :=
  _ ← pure (validate_uid "userId" (ac_user_id req));
  user_id ← pure (resolve_self_user_id auth (Some (ac_user_id req)) "userId");
  _ ← limited_as e user_id "apply_coupon" 15 1;
  let code := to_uppercase (trim (ac_code req)) in
  _ ← pure (if negb (is_valid_coupon_code code) then Err unavailable
            else if (ac_order_subtotal_cents req <? 0)%Z then
              Err (Validation "cartSubtotalCents must be a non-negative integer")
            else Ok tt);
  coupon ← find_coupon code;
  _ ← pure (apply_before (ce_now e) coupon);
  uses ← user_use_count code user_id;
  pure (apply_after uses (ac_order_subtotal_cents req) (default [] (ac_seller_ids req)) code coupon).

(** *** create_coupon *)

Definition valid_types : list string :=
  ["percentage"; "percent"; "fixed_amount"; "fixed_cents"; "free_shipping"].
Definition is_percentage (t : string) : bool := (t =s? "percentage") || (t =s? "percent").
Definition is_fixed (t : string) : bool := (t =s? "fixed_amount") || (t =s? "fixed_cents").

(** The checks of the request. *)
Definition create_checks (code : string) (req : CreateCouponRequest) : Result unit :=
  let v := cc_discount_value req in
  let ty := cc_discount_type req in
  let min_required := wrap_signed 64 (f64_as_i64 v + 5 * MIN_CHECKOUT_TOTAL_CENTS) in
  if negb (is_valid_coupon_code code) then
    Err (Validation "Code must be 4-20 uppercase alphanumeric characters")
  else if negb (existsb (str_eqb ty) valid_types) then
    Err (Validation ("discountType must be one of: " +:+ join ", " valid_types))
  else if f64_leb v (S754_zero false) then Err (Validation "discountValue must be a positive number")
  else if is_percentage ty && negb (f64_leb (f64_of_Z 1) v && f64_leb v (f64_of_Z 90)) then
    Err (Validation "Percent discount must be between 1 and 90")
  else if is_fixed ty && f64_ltb v (f64_of_Z 100) then
    Err (Validation "Fixed discount must be at least 100 cents ($1.00)")
  else if is_fixed ty && match cc_min_order_cents req with Some m => (m <? min_required)%Z | None => false end then
    Err (Validation ("Fixed coupon requires minOrderCents >= " +:+ pretty min_required))
  else if match cc_min_order_cents req with Some m => (m <? 0)%Z | None => false end then
    Err (Validation "minOrderCents must be a non-negative integer")
  else if match cc_max_uses_total req with Some m => (m <? 1)%Z | None => false end then
    Err (Validation "maxUsesTotal must be a positive integer")
  else Ok tt.

Definition json_i64 (o : option Z) : Value := match o with Some z => of_i64 z | None => VNull end.
Definition json_f64 (f : f64) : Value :=
  match number_from_f64 f with Some n => VNumber n | None => VNull end.
Definition json_str (o : option string) : Value := match o with Some s => VString s | None => VNull end.

Definition coupon_doc (code user_id now : string) (req : CreateCouponRequest) : Value :=
  VObject [("code", VString code); ("couponType", VString (cc_discount_type req));
           ("createdAt", VString now); ("createdByAdminId", VString user_id);
           ("discountValue", json_f64 (cc_discount_value req));
           ("expiresAt", json_str (cc_expires_at req ≫= reformat_rfc3339));
           ("isActive", VBool (cc_is_active req));
           ("maxUsesPerUser", of_i64 (default 1%Z (cc_max_uses_per_user req)));
           ("maxUsesTotal", json_i64 (cc_max_uses_total req));
           ("minOrderCents", json_i64 (cc_min_order_cents req));
           ("sellerId", json_str (cc_seller_id req)); ("usedCount", of_i64 0)].

Definition require_stored_admin (user_id : string) : handler unit :=
  user ← db_map_err (λ _, NotFound "User not found") (get_document "users" user_id);
  let roles := omap as_str (default [] (get "roles" user ≫= as_array)) in
  pure (if existsb (str_eqb "admin") roles then Ok tt else Err (Forbidden "Admin access required")).

(** The coupon must not exist: an error of the lookup counts as absent. *)
Definition coupon_absent (code : string) : handler unit := λ s,
  match get_document "coupons" code s with
  | (s, Ok doc) => if is_null doc then (s, Ok tt)
                   else (s, Err (Validation ("Coupon code '" +:+ code +:+ "' already exists")))
  | (s, Err _) => (s, Ok tt)
  | (s, Panic) => (s, Panic)
  end.

Definition create_coupon (e : coupon_env) (auth : AuthContext) (req : CreateCouponRequest) :
    handler CreateCouponResponse :=
  _ ← pure (validate_uid "userId" (cc_user_id req));
  user_id ← pure (resolve_self_user_id auth (Some (cc_user_id req)) "userId");
  _ ← limited_as e user_id "create_coupon" 10 60;
  _ ← require_stored_admin user_id;
  let code := to_uppercase (trim (cc_code req)) in
  _ ← pure (create_checks code req);
  _ ← coupon_absent code;
  _ ← db_map_err (λ e, Database ("Failed to create coupon: " +:+ error_to_string e))
        (upsert_document "coupons" code (coupon_doc code user_id (to_rfc3339 (ce_now e)) req) (ce_write_now e));
  pure (Ok {| cc_success := true; cc_id := "coupons:" +:+ code; cc_coupon_code := code; cc_created := true |}).

(** *** redeem_coupon *)

(** What the coupon read leads to: nothing, the refusal, or an increment of the
    count read, guarded by it when the coupon has a limit. *)
Inductive redemption : Type :=
| Skip
| FullyRedeemed
| Increment (current_used : Z) (guarded : bool).

Definition redeem_plan (now : Z) (coupon : Value) : redemption :=
  if is_null coupon then Skip
  else if coupon_expired now coupon then Skip
  else
    let current_used := default 0%Z (i64_field "usedCount" coupon) in
    match i64_field "maxUsesTotal" coupon with
    | Some max => if (max <=? current_used)%Z then FullyRedeemed else Increment current_used true
    | None => Increment current_used false
    end.

Definition increment_doc (current_used : Z) (now : string) : Value :=
  VObject [("updatedAt", VString now); ("usedCount", of_i64 (wrap_signed 64 (current_used + 1)))].
Definition redeem_failed (e : Error) : Error :=
  Database ("Failed to redeem coupon: " +:+ error_to_string e).
(** Whether the count was incremented. *)
Definition redeem_write (e : coupon_env) (code : string) (current_used : Z) (guarded : bool) : handler bool :=
  let data := increment_doc current_used (to_rfc3339 (ce_now e)) in
  if guarded then
    result ← db_map_err redeem_failed
      (update_document_cas "coupons" code data "usedCount" (of_i64 current_used) (ce_write_now e));
    pure (Ok (match result with Some _ => true | None => false end))
  else
    _ ← db_map_err redeem_failed (update_document "coupons" code data (ce_write_now e));
    pure (Ok true).
Definition record_use (e : coupon_env) (code user_id order_id : string) : handler unit :=
  _ ← db_map_err redeem_failed (create_document "coupon_uses"
        (VObject [("couponId", VString code); ("orderId", VString order_id);
                  ("redeemedAt", VString (to_rfc3339 (ce_now e))); ("userId", VString user_id)])
        (ce_use_id e) (ce_use_now e));
  pure (Ok tt).

Definition redeem_finish (e : coupon_env) (code user_id order_id : string) (r : redemption) :
    handler RedeemCouponResponse :=
  match r with
  | Skip => pure (Ok {| rc_success := true; rc_redeemed := false |})
  | FullyRedeemed => pure (Err (Validation "Coupon fully redeemed"))
  | Increment current_used guarded =>
      updated ← redeem_write e code current_used guarded;
      if negb updated then pure (Err (Validation "Coupon fully redeemed"))
      else
        _ ← record_use e code user_id order_id;
        pure (Ok {| rc_success := true; rc_redeemed := true |})
  end.

Definition redeem_coupon (e : coupon_env) (auth : AuthContext) (req : RedeemCouponRequest) :
    handler RedeemCouponResponse :=
  _ ← pure (validate_uid "userId" (rc_user_id req));
  _ ← pure (validate_uid "orderId" (rc_order_id req));
  user_id ← pure (resolve_self_user_id auth (Some (rc_user_id req)) "userId");
  _ ← limited_as e user_id "redeem_coupon" 10 60;
  let code := to_uppercase (trim (rc_code req)) in
  _ ← pure (if str_empty code then Err (Validation "code is required") else Ok tt);
  coupon ← db_map_err (λ _, NotFound "Coupon not found") (get_document "coupons" code);
  redeem_finish e code user_id (rc_order_id req) (redeem_plan (ce_now e) coupon).
End coupons.

(** ** The discount is bounded *)
Section discount.
Local Open Scope Z_scope.

Lemma millipercent_bound v :
  f64_valid v = true → (v = S754_nan ∨ f64_leb (S754_zero false) v = true) →
  0 ≤ millipercent v ≤ 90000.
Proof.
  intros Hv Hs. unfold millipercent.
  change (f64_mul MAX_COUPON_DISCOUNT_RATIO (f64_of_Z 100)) with (S754_finite false 6333186975989760 (-46)).
  change (f64_of_Z 1000) with (S754_finite false 8796093022208000 (-43)).
  by apply capped_product.
Qed.

Lemma as_i64_nonneg v : v = S754_nan ∨ f64_leb (S754_zero false) v = true → 0 ≤ f64_as_i64 v.
Proof.
  intros [->|H]; [done|]. unfold f64_as_i64, f64_to_i64, saturate_i64, i64_max.
  destruct v as [|[]| |[] m e]; try done; cbn [signed].
  unfold trunc_int. case_match; [|assert (0 ≤ Zpos m / 2 ^ (- e)) by (apply Z.div_pos; [lia|apply Z.pow_pos_nonneg; lia]); lia].
  bools. assert (0 < 2 ^ e) by (apply Z.pow_pos_nonneg; lia). nia.
Qed.

(** The percentage itself. *)
Lemma percent_amount v subtotal :
  f64_valid v = true → (v = S754_nan ∨ f64_leb (S754_zero false) v = true) → 0 ≤ subtotal ≤ 10 ^ 14 →
  let d := wrap_signed 64 (subtotal * millipercent v) `quot` 100000 in
  0 ≤ d ≤ subtotal ∧ 100 * d ≤ 90 * subtotal.
Proof.
  intros Hv Hs Hsub. pose proof (millipercent_bound v Hv Hs) as Hm. cbv zeta.
  rewrite wrap_signed_id, Z.quot_div_nonneg by nia.
  assert (0 ≤ subtotal * millipercent v / 100000) by (apply Z.div_pos; nia).
  pose proof (Z.mul_div_le (subtotal * millipercent v) 100000). nia.
Qed.

Lemma discount_leaves ty v subtotal :
  f64_valid v = true → (v = S754_nan ∨ f64_leb (S754_zero false) v = true) → 0 ≤ subtotal ≤ 10 ^ 14 →
  0 ≤ compute_discount ty v subtotal
  ∧ (compute_discount ty v subtotal = 0 ∨ 100 ≤ subtotal - compute_discount ty v subtotal).
Proof.
  intros Hv Hs Hsub. unfold compute_discount, MIN_CHECKOUT_TOTAL_CENTS.
  pose proof (percent_amount v subtotal Hv Hs Hsub) as Hm. pose proof (as_i64_nonneg v Hs) as Hf. cbv zeta in Hm.
  destruct (Z.leb_spec subtotal 100); [lia|]. case_match; [|case_match; lia].
  rewrite wrap_signed_id by lia. case_match; bools; lia.
Qed.

(** The discount of a coupon whose value is not negative, on a cart of up
    to a thousand billion dollars: it is not negative, it leaves at least the
    minimum total of one dollar unless it is zero, and a percentage takes at
    most 90% whatever its value, infinity and NaN included. *)
Theorem discount_bounds ty v subtotal :
  f64_valid v = true → (v = S754_nan ∨ f64_leb (S754_zero false) v = true) →
  0 ≤ subtotal ≤ 10 ^ 14 →
  let d := compute_discount ty v subtotal in
  0 ≤ d ∧ (d = 0 ∨ MIN_CHECKOUT_TOTAL_CENTS ≤ subtotal - d)
  ∧ (is_percentage ty = true → 100 * d ≤ 90 * subtotal).
Proof.
  intros Hv Hs Hsub d. destruct (discount_leaves ty v subtotal Hv Hs Hsub) as [H0 H1].
  split_and!; [done|done|]. intros Hp. subst d. unfold compute_discount in *.
  pose proof (percent_amount v subtotal Hv Hs Hsub) as Hm. cbv zeta in Hm. unfold is_percentage in Hp.
  destruct (Z.leb_spec subtotal MIN_CHECKOUT_TOTAL_CENTS); [lia|]. rewrite Hp in *.
  rewrite wrap_signed_id in * by lia. destruct (Z.ltb_spec (subtotal - wrap_signed 64 (subtotal * millipercent v) `quot` 100000)
    MIN_CHECKOUT_TOTAL_CENTS); unfold MIN_CHECKOUT_TOTAL_CENTS in *; lia.
Qed.
End discount.

(** ** Concurrent redemptions *)

Lemma as_i64_of_i64 z : (z ≤ i64_max)%Z → as_i64 (of_i64 z) = Some z.
Proof.
  intros Hz. unfold of_i64. destruct (Z.ltb_spec z 0); cbn; [done|].
  rewrite Z2N.id by lia. by rewrite (proj2 (Z.leb_le _ _) Hz).
Qed.

Section races.
Context `{C : Chrono} `{P : PgJson} `{T : TextLib} (code : string).

Definition coupon_row (s : store) : option DocRow := table_rows s "coupons" !! bare_id "coupons" code.

(** Any number of requests at once: each reads the coupon, then writes what its
    plan says; anything that leaves this coupon alone may happen in between. *)
Record race : Type := Race {
  race_store : store;
  race_pending : gmap nat (Z * bool);
  race_won : nat;
}.
Inductive redeem_step : race → race → Prop :=
| redeem_read i now s p w s' coupon used guarded :
    get_document "coupons" code s = (s', Ok coupon) →
    redeem_plan now coupon = Increment used guarded →
    redeem_step (Race s p w) (Race s' (<[i := (used, guarded)]> p) w)
| redeem_written i e s p w used guarded s' b :
    p !! i = Some (used, guarded) →
    redeem_write e code used guarded s = (s', Ok b) →
    redeem_step (Race s p w) (Race s' (delete i p) (if b then S w else w))
| redeem_elsewhere s p w s' :
    coupon_row s' = coupon_row s → redeem_step (Race s p w) (Race s' p w).

Record counts (max used : Z) (row : DocRow) : Prop := {
  counts_object : ∃ m, row_data row = VObject m;
  counts_max : get "maxUsesTotal" (row_data row) = Some (of_i64 max);
  counts_used : get "usedCount" (row_data row) = Some (of_i64 used);
}.

Lemma counts_incremented max used now wnow row :
  counts max used row → (- 2 ^ 63 ≤ used < i64_max)%Z →
  counts max (used + 1) (merged_row (increment_doc used now) wnow row).
Proof.
  intros [[m Hm] Hmax Hused] Hr. unfold increment_doc. rewrite wrap_signed_id by (unfold i64_max in *; lia).
  split.
  - cbn. rewrite Hm. by eexists.
  - rewrite (merged_row_get _ _ _ m) by (done || concrete). done.
  - rewrite (merged_row_get _ _ _ m) by (done || concrete). done.
Qed.

Lemma plan_counts now i max used row used' guarded :
  counts max used row → (used ≤ i64_max)%Z → (max ≤ i64_max)%Z →
  redeem_plan now (row_to_doc i row) = Increment used' guarded →
  guarded = true ∧ used' = used ∧ (used < max)%Z.
Proof.
  intros [_ Hmax Hused] Hu Hm. unfold redeem_plan, i64_field.
  rewrite !get_row_to_doc, Hmax, Hused by concrete. cbn [mbind option_bind].
  rewrite !as_i64_of_i64 by done. cbn [default from_option id].
  do 2 (case_match; [done|]). destruct (Z.leb_spec max used); [done|].
  by intros [= <- <-].
Qed.

Lemma cas_counts `{!PgJsonLaws P} max used used' row :
  counts max used row → (- 2 ^ 63 ≤ used ≤ i64_max)%Z → (- 2 ^ 63 ≤ used' ≤ i64_max)%Z →
  cas_matches "usedCount" (of_i64 used') row = bool_decide (used = used').
Proof.
  intros [_ _ Hused] Hr Hr'. unfold cas_matches, field_text. rewrite Hused. cbn [mbind option_bind].
  rewrite !of_i64_text by done. apply bool_decide_ext. split; [apply (inj pretty)|congruence].
Qed.

(** The invariant: the stored count is the one at the start plus the number of
    requests that incremented it, and every pending write is guarded. *)
Record race_inv (max used0 : Z) (r : race) : Prop := {
  inv_counts : ∃ row, coupon_row (race_store r) = Some row ∧ counts max (used0 + Z.of_nat (race_won r)) row;
  inv_bound : (used0 + Z.of_nat (race_won r) ≤ max)%Z;
  inv_pending : map_Forall (λ _ w, w.2 = true ∧ (0 ≤ w.1 < max)%Z) (race_pending r);
}.

Lemma race_inv_step `{!PgJsonLaws P} max used0 r r' :
  (0 ≤ used0)%Z → (max ≤ i64_max)%Z →
  race_inv max used0 r → redeem_step r r' → race_inv max used0 r'.
Proof.
  intros Hu Hmax [(row & Hrow & Hc) Hb Hp] Hstep. destruct Hstep as
    [i now s p w s' coupon used g Hget Hplan|i e s p w used g s' b Hi Hw|s p w s' Heq]; cbn in *.
  - apply with_table_Ok in Hget as [_ Hget]. cbv beta zeta in Hget. rewrite table_rows_ensured in Hget.
    unfold coupon_row in Hrow. rewrite Hrow in Hget. injection Hget as <- <-.
    destruct (plan_counts _ _ _ _ _ _ _ Hc ltac:(lia) Hmax Hplan) as (-> & -> & Hlt).
    split; cbn; [|done|by apply map_Forall_insert_2; [cbn; lia|]].
    exists row. unfold coupon_row. by rewrite table_rows_ensured.
  - destruct (Hp _ _ Hi) as [Hg Hr]. cbn in Hg, Hr. subst g.
    unfold redeem_write, mbind, handler_bind, db_map_err in Hw. cbv zeta in Hw.
    pose proof (cas_counts max (used0 + Z.of_nat w) used row Hc ltac:(lia) ltac:(lia)) as Hcas.
    case_bool_decide as Heq.
    + destruct (cas_applies "coupons" code (increment_doc used (to_rfc3339 (ce_now e))) "usedCount"
        (of_i64 used) (ce_write_now e) s row eq_refl Hrow Hcas) as (s1 & doc & E & Hrows).
      rewrite E in Hw. cbn in Hw. injection Hw as <- <-. subst used. split; cbn.
      * eexists. unfold coupon_row. rewrite Hrows, lookup_insert_eq. split; [done|].
        replace (used0 + Z.of_nat (S w))%Z with (used0 + Z.of_nat w + 1)%Z by lia. apply counts_incremented; [done|lia].
      * lia.
      * by apply map_Forall_delete.
    + rewrite (cas_refused "coupons" code _ _ _ _ _ row eq_refl Hrow Hcas) in Hw. cbn in Hw. injection Hw as <- <-.
      split; cbn; [|done|by apply map_Forall_delete]. exists row. unfold coupon_row. by rewrite table_rows_ensured.
  - split; cbn; [|done|done]. exists row. by rewrite Heq.
Qed.

(** C9: a limited coupon is never overused: however many redemptions read and
    write the coupon in whatever interleaving, each successful one is counted
    exactly once in the stored count, which never passes the limit. *)
Theorem redemptions_bounded `{!PgJsonLaws P} max used0 s0 row0 r :
  (0 ≤ used0 ≤ max)%Z → (max ≤ i64_max)%Z →
  coupon_row s0 = Some row0 → counts max used0 row0 →
  rtc redeem_step (Race s0 ∅ 0) r →
  (used0 + Z.of_nat (race_won r) ≤ max)%Z
  ∧ ∃ row, coupon_row (race_store r) = Some row ∧ counts max (used0 + Z.of_nat (race_won r)) row.
Proof.
  intros Hu Hmax Hrow Hc Hr. enough (race_inv max used0 r) as [? ? ?] by done.
  assert (race_inv max used0 (Race s0 ∅ 0)) as Hinv.
  { split; cbn; [|lia|apply map_Forall_empty]. exists row0. by rewrite Z.add_0_r. }
  clear Hrow Hc. induction Hr as [|r1 r2 r3 Hs _ IH]; [done|]. apply IH.
  by apply (race_inv_step max used0 r1); [lia|..].
Qed.

(** Without a limit the increment is not guarded: two redemptions that read the
    same count both succeed, and the count misses one of them. *)
Theorem unlimited_uses_miscounted now row m used e1 e2 s :
  coupon_row s = Some row → row_data row = VObject m →
  redeem_plan now (row_to_doc (bare_id "coupons" code) row) = Increment used false →
  ∃ s1 s2 row', redeem_write e1 code used false s = (s1, Ok true)
    ∧ redeem_write e2 code used false s1 = (s2, Ok true)
    ∧ coupon_row s2 = Some row'
    ∧ get "usedCount" (row_data row') = Some (of_i64 (wrap_signed 64 (used + 1))).
Proof.
  intros Hrow Hm _. unfold coupon_row in *.
  assert (∀ e s row m, table_rows s "coupons" !! bare_id "coupons" code = Some row → row_data row = VObject m →
    let row' := merged_row (increment_doc used (to_rfc3339 (ce_now e))) (ce_write_now e) row in
    ∃ s', redeem_write e code used false s = (s', Ok true)
      ∧ table_rows s' "coupons" !! bare_id "coupons" code = Some row' ∧ (∃ m', row_data row' = VObject m')
      ∧ get "usedCount" (row_data row') = Some (of_i64 (wrap_signed 64 (used + 1)))) as Hstep.
  { clear. intros e s row m Hrow Hm row'. unfold redeem_write, mbind, handler_bind, db_map_err, update_document.
    cbv zeta. rewrite with_table_valid by done. cbv beta zeta. rewrite table_rows_ensured, Hrow. eexists.
    split; [reflexivity|]. rewrite table_rows_insert, lookup_insert_eq. split; [done|]. subst row'. split.
    - cbn. rewrite Hm. by eexists.
    - unfold increment_doc. rewrite (merged_row_get _ _ _ m) by (done || concrete). done. }
  destruct (Hstep e1 s row m Hrow Hm) as (s1 & -> & Hrow1 & [m1 Hm1] & _).
  destruct (Hstep e2 s1 _ m1 Hrow1 Hm1) as (s2 & E2 & Hrow2 & _ & Hu). by do 3 eexists.
Qed.
End races.

(** ** Created coupons apply *)
Section created.
Context `{C : Chrono} `{P : PgJson} `{T : TextLib}.
Context (pg_invalid_bigint : string) (scan : rows → list (string * DocRow)) (injected : string → store → Z).

Lemma valid_code_bare code : is_valid_coupon_code code = true → bare_id "coupons" code = code.
Proof.
  intros H. apply bare_id_plain. unfold is_valid_coupon_code in H. bools.
  destruct code as [|c code]; [done|]. cbn [str_forall] in *. bools.
  change ("coupons" +:+ ":") with "coupons:". cbn [strip_prefix].
  destruct (Ascii.eqb_spec "c" c) as [<-|]; done.
Qed.

Lemma keeps_limited c e user_id action max window :
  c ≠ "rate_limits" → keeps c (limited_as pg_invalid_bigint e user_id action max window).
Proof. apply keeps_rate_limit. Qed.
Lemma keeps_admin c user_id : keeps c (require_stored_admin user_id).
Proof. apply keeps_bind; [apply keeps_map_err, keeps_get|done]. Qed.

Lemma coupon_absent_ok code s s' :
  coupon_absent code s = (s', Ok tt) →
  table_rows s' "coupons" = table_rows s "coupons"
  ∧ ∀ row, table_rows s "coupons" !! bare_id "coupons" code = Some row → row_data row = VNull.
Proof.
  unfold coupon_absent, get_document. rewrite with_table_valid by done. cbv beta zeta.
  rewrite table_rows_ensured. destruct (table_rows s "coupons" !! bare_id "coupons" code) as [row|].
  - destruct (is_null _) eqn:E; [|done]. intros [= <-]. rewrite table_rows_ensured. split; [done|].
    intros ? [= <-]. unfold row_to_doc in E. by destruct (row_data row).
  - intros [= <-]. by rewrite table_rows_ensured.
Qed.

(** What a successful creation leaves. *)
Lemma create_coupon_inv e auth req s s' resp :
  create_coupon pg_invalid_bigint e auth req s = (s', Ok resp) →
  let code := to_uppercase (trim (cc_code req)) in
  ∃ user_id, create_checks code req = Ok tt ∧ cc_coupon_code resp = code
    ∧ ((∀ row, table_rows s "coupons" !! code = Some row → row_data row ≠ VNull) →
       ∃ row, table_rows s' "coupons" = <[code := row]> (table_rows s "coupons")
         ∧ row_data row = coupon_doc code user_id (to_rfc3339 (ce_now e)) req).
Proof.
  intros H code. unfold create_coupon in H. run_inv H. run_inv H. run_inv H. run_inv H.
  cbv zeta in H. run_inv H. run_inv H. run_inv H.
  apply pure_ok in H as [-> [= <-]]. destruct a3. exists a0. split_and!; [done..|]. intros Hnn.
  destruct a4. apply coupon_absent_ok in R4 as [Hs2 Hnull].
  apply (keeps_run "coupons") in R1, R2; [|apply keeps_admin|by apply keeps_limited].
  assert (is_valid_coupon_code code = true) as Hcode.
  { unfold create_checks in R3. fold code in R3. destruct (is_valid_coupon_code code); [done|discriminate R3]. }
  pose proof (upsert_rows "coupons" code (coupon_doc code a0 (to_rfc3339 (ce_now e)) req)
    (ce_write_now e) s2 eq_refl) as Hrows. fold code in R5, Hnull. rewrite R5 in Hrows. cbn [fst] in Hrows.
  rewrite valid_code_bare in Hrows, Hnull by done. rewrite R2, R1 in Hnull. rewrite Hs2, R2, R1 in Hrows.
  destruct (table_rows s "coupons" !! code) as [row|]; [by destruct (Hnn row); auto|]. by eexists.
Qed.

Definition in_i64 (o : option Z) : Prop := ∀ z, o = Some z → (- 2 ^ 63 ≤ z ≤ i64_max)%Z.
(** The numbers of a request that was parsed. *)
Record request_wf (req : CreateCouponRequest) : Prop := {
  wf_value : f64_is_finite (cc_discount_value req) = true;
  wf_min : in_i64 (cc_min_order_cents req);
  wf_max : in_i64 (cc_max_uses_total req);
  wf_per_user : in_i64 (cc_max_uses_per_user req);
}.
(** The cart meets the conditions the coupon was created with. *)
Record qualifies (req : CreateCouponRequest) (now : Z) (cart : ApplyCouponRequest) (uses : Z) : Prop := {
  q_active : cc_is_active req = true;
  q_subtotal : (0 ≤ ac_order_subtotal_cents cart)%Z;
  q_min m : cc_min_order_cents req = Some m → (m ≤ ac_order_subtotal_cents cart)%Z;
  q_seller x : cc_seller_id req = Some x → x ∈ default [] (ac_seller_ids cart);
  q_expiry t exp : cc_expires_at req = Some t → parse_rfc3339 t = Some exp → (now ≤ exp)%Z;
  q_uses : (uses < default 1 (cc_max_uses_per_user req))%Z;
}.

Lemma json_i64_field o : in_i64 o → (json_i64 o) = VNull ∧ o = None ∨ as_i64 (json_i64 o) = o ∧ is_Some o.
Proof.
  intros H. destruct o as [z|]; [right|by left]. cbn [json_i64]. rewrite as_i64_of_i64; [eauto|].
  by apply H.
Qed.

Section fields.
Context (code user_id now : string) (req : CreateCouponRequest) (i : string) (row : DocRow).
Hypothesis Hrow : row_data row = coupon_doc code user_id now req.

Lemma created_get k : ¬ is_metadata k → get k (row_to_doc i row) = get k (coupon_doc code user_id now req).
Proof. intros Hk. by rewrite get_row_to_doc, Hrow. Qed.

Lemma created_i64 k o :
  ¬ is_metadata k → get k (coupon_doc code user_id now req) = Some (json_i64 o) → in_i64 o →
  i64_field k (row_to_doc i row) = o.
Proof.
  intros Hk Hg Ho. unfold i64_field. rewrite created_get, Hg by done. cbn [mbind option_bind].
  by destruct (json_i64_field o Ho) as [[-> ->]|[-> _]].
Qed.

Lemma created_expired `{!TextLaws T} t :
  (∀ s exp, cc_expires_at req = Some s → parse_rfc3339 s = Some exp → (t ≤ exp)%Z) →
  coupon_expired t (row_to_doc i row) = false.
Proof.
  intros H. unfold coupon_expired. rewrite created_get by concrete. cbn [coupon_doc get].
  change (assoc_get "expiresAt" _) with (Some (json_str (cc_expires_at req ≫= reformat_rfc3339))).
  cbn [mbind option_bind]. destruct (cc_expires_at req) as [s|]; [|done]. cbn [mbind option_bind].
  destruct (reformat_rfc3339 s) as [s'|] eqn:E; [|done]. cbn [json_str as_str mbind option_bind].
  apply reformat_same in E. destruct (parse_rfc3339 s') as [exp|] eqn:Ep; [|done].
  apply Z.ltb_ge. apply (H s); congruence.
Qed.

Lemma created_seller sellers :
  (∀ x, cc_seller_id req = Some x → x ∈ sellers) → other_seller sellers (row_to_doc i row) = false.
Proof.
  intros H. unfold other_seller. rewrite created_get by concrete. cbn [coupon_doc get].
  change (assoc_get "sellerId" _) with (Some (json_str (cc_seller_id req))).
  destruct (cc_seller_id req) as [x|]; [|done]. cbn [json_str as_str mbind option_bind].
  apply negb_false_iff, existsb_exists. exists x. split; [by apply list_elem_of_In, H|apply str_eqb_refl].
Qed.

Lemma created_before `{!TextLaws T} t cart uses :
  create_checks code req = Ok tt → request_wf req → qualifies req t cart uses →
  apply_before t (row_to_doc i row) = Ok tt.
Proof.
  intros Hchk W Q. unfold apply_before.
  rewrite (created_expired t (q_expiry _ _ _ _ Q)).
  rewrite (created_i64 "maxUsesTotal" (cc_max_uses_total req)) by (concrete || done || apply (wf_max _ W)).
  rewrite (created_i64 "usedCount" (Some 0%Z)) by (concrete || done || (intros ? [= <-]; unfold i64_max; lia)).
  assert (is_active (row_to_doc i row) = true) as ->.
  { unfold is_active. rewrite created_get by concrete. cbn. apply (q_active _ _ _ _ Q). }
  assert (is_null (row_to_doc i row) = false) as ->.
  { unfold row_to_doc. by rewrite Hrow. }
  cbn [negb]. unfold create_checks in Hchk. repeat (case_match; [discriminate Hchk|]).
  destruct (cc_max_uses_total req); [|done]. cbn. bools. destruct (Z.leb_spec z 0); [lia|done].
Qed.

Lemma created_after t cart uses :
  request_wf req → qualifies req t cart uses →
  apply_after uses (ac_order_subtotal_cents cart) (default [] (ac_seller_ids cart)) code (row_to_doc i row)
  = Ok {| ac_valid := true;
          ac_discount_amount_cents :=
            compute_discount (cc_discount_type req) (cc_discount_value req) (ac_order_subtotal_cents cart);
          ac_discount_type := cc_discount_type req; ac_discount_value := cc_discount_value req;
          ac_coupon_code := code |}.
Proof.
  intros W Q. unfold apply_after, max_per_user, below_minimum.
  rewrite (created_i64 "maxUsesPerUser" (Some (default 1%Z (cc_max_uses_per_user req)))).
  2: concrete. 2: done.
  2: { intros z [= <-]. destruct (cc_max_uses_per_user req) as [z|] eqn:E; [by apply (wf_per_user _ W)|].
       cbn. unfold i64_max. lia. }
  rewrite (created_i64 "minOrderCents" (cc_min_order_cents req)) by (concrete || done || apply (wf_min _ W)).
  cbn [default from_option id]. rewrite (proj2 (Z.leb_gt _ _) (q_uses _ _ _ _ Q)).
  rewrite created_seller by apply (q_seller _ _ _ _ Q).
  assert (match cc_min_order_cents req with Some m => (ac_order_subtotal_cents cart <? m)%Z | None => false end
          = false) as ->.
  { destruct (cc_min_order_cents req) eqn:E; [|done]. by apply Z.ltb_ge, (q_min _ _ _ _ Q). }
  assert (coupon_type (row_to_doc i row) = cc_discount_type req) as ->.
  { unfold coupon_type. rewrite created_get by concrete. done. }
  assert (coupon_value (row_to_doc i row) = cc_discount_value req) as ->; [|done].
  unfold coupon_value. rewrite created_get by concrete. cbn [coupon_doc get].
  change (assoc_get "discountValue" _) with (Some (json_f64 (cc_discount_value req))).
  unfold json_f64, number_from_f64. by rewrite (wf_value _ W).
Qed.
End fields.

Lemma find_coupon_stored code s row :
  table_rows s "coupons" !! bare_id "coupons" code = Some row → row_data row ≠ VNull →
  find_coupon scan code s = (ensured "coupons" s, Ok (row_to_doc (bare_id "coupons" code) row)).
Proof.
  intros Hrow Hn. unfold find_coupon, get_document. rewrite with_table_valid by done. cbv beta zeta.
  rewrite table_rows_ensured, Hrow. unfold row_to_doc. by destruct (row_data row).
Qed.

Lemma use_count_plain code user_id s :
  literal user_id = Some user_id →
  user_use_count injected code user_id s
  = (ensured "coupon_uses" s, Ok (Z.of_nat (size (filter (λ kr : string * DocRow, used_by code user_id kr.2 = true)
      (table_rows s "coupon_uses"))))).
Proof.
  intros Hl. unfold user_use_count. rewrite Hl. unfold count_where.
  change (ensure_table "coupon_uses" s).1 with (ensured "coupon_uses" s). by rewrite table_rows_ensured.
Qed.

(** Creating a coupon and applying it fit together: once an administrator's
    request has created a coupon, a cart that meets the conditions of that
    request gets exactly the discount of its type and value, under its code. *)
Theorem created_coupon_applies `{!TextLaws T} e auth req s s1 resp e' auth' cart user_id s2 uses :
  create_coupon pg_invalid_bigint e auth req s = (s1, Ok resp) →
  (∀ code row, table_rows s "coupons" !! code = Some row → row_data row ≠ VNull) →
  request_wf req → qualifies req (ce_now e') cart uses →
  to_uppercase (trim (ac_code cart)) = cc_coupon_code resp →
  validate_uid "userId" (ac_user_id cart) = Ok tt →
  resolve_self_user_id auth' (Some (ac_user_id cart)) "userId" = Ok user_id →
  literal user_id = Some user_id →
  limited_as pg_invalid_bigint e' user_id "apply_coupon" 15 1 s1 = (s2, Ok tt) →
  uses = Z.of_nat (size (filter (λ kr : string * DocRow, used_by (cc_coupon_code resp) user_id kr.2 = true)
    (table_rows s1 "coupon_uses"))) →
  (apply_coupon pg_invalid_bigint scan injected e' auth' cart s1).2
  = Ok {| ac_valid := true;
          ac_discount_amount_cents :=
            compute_discount (cc_discount_type req) (cc_discount_value req) (ac_order_subtotal_cents cart);
          ac_discount_type := cc_discount_type req; ac_discount_value := cc_discount_value req;
          ac_coupon_code := cc_coupon_code resp |}.
Proof.
  intros Hcreate Hnn W Q Hcode Huid Hself Hlit Hlim ->.
  apply create_coupon_inv in Hcreate as (admin & Hchk & Hresp & Hrow).
  destruct Hrow as (row & Hrow & Hdata); [by intros; eapply Hnn|]. rewrite Hresp in *.
  set (code := to_uppercase (trim (cc_code req))) in *.
  assert (is_valid_coupon_code code = true) as Hv.
  { unfold create_checks in Hchk. destruct (is_valid_coupon_code code); [done|discriminate Hchk]. }
  unfold apply_coupon. rewrite (bind_run _ _ _ s1 tt) by (by rewrite Huid).
  rewrite (bind_run _ _ _ s1 user_id) by (by rewrite Hself). rewrite (bind_run _ _ _ _ _ Hlim). cbv zeta.
  rewrite Hcode, Hv. rewrite (bind_run _ _ _ s2 tt) by (unfold pure; cbn [negb]; by rewrite (proj2 (Z.ltb_ge _ _) (q_subtotal _ _ _ _ Q))).
  pose proof (keeps_run "coupons" _ _ _ _ (keeps_limited "coupons" _ _ _ _ _ ltac:(done)) Hlim) as Hk.
  pose proof (keeps_run "coupon_uses" _ _ _ _ (keeps_limited "coupon_uses" _ _ _ _ _ ltac:(done)) Hlim) as Hku.
  rewrite (bind_run _ _ _ _ _ (find_coupon_stored code s2 row
    ltac:(by rewrite Hk, Hrow, valid_code_bare, lookup_insert_eq) ltac:(by rewrite Hdata))).
  rewrite (bind_run _ _ _ (ensured "coupons" s2) tt) by (unfold pure; by erewrite created_before).
  rewrite (bind_run _ _ _ _ _ (use_count_plain code user_id _ Hlit)), table_rows_ensured, Hku.
  unfold pure. cbn [snd]. by eapply created_after.
Qed.
End created.

(** ** Concrete instances *)
Section coupon_witnesses.
#[local] Instance demo_c_chrono : Chrono := plain_chrono.
#[local] Instance demo_c_json : PgJson := plain_json.
#[local] Instance demo_c_text : TextLib := plain_textlib.

Example ten_percent : compute_discount "percent" (f64_of_Z 10) 4999 = 499%Z.
Proof. evaluates. Qed.
Example negative_value_surcharges : compute_discount "percent" (f64_of_Z (-10)) 5000 = (-500)%Z.
Proof. evaluates. Qed.

Lemma discount_bounds_witness :
  let d := compute_discount "percentage" (S754_infinity false) 5000 in
  (0 ≤ d)%Z ∧ (d = 0%Z ∨ MIN_CHECKOUT_TOTAL_CENTS ≤ 5000 - d)%Z
  ∧ (is_percentage "percentage" = true → 100 * d ≤ 90 * 5000)%Z.
Proof. apply (discount_bounds "percentage" (S754_infinity false) 5000); [done|by right|lia]. Defined.

Definition limited_row (max used : Z) : DocRow :=
  {| row_data := VObject [("maxUsesTotal", of_i64 max); ("usedCount", of_i64 used)];
     row_created_at := 1; row_updated_at := 1 |}.
Definition coupon_store (row : DocRow) : store := {["coupons" := {["SAVE10" := row]}]}.
Definition demo_c_env : coupon_env :=
  {| ce_test_mode := false; ce_secs := 1000; ce_limit_id := "l1"; ce_limit_now := 2; ce_now := 3;
     ce_write_now := 4; ce_use_id := "x1"; ce_use_now := 5 |}.

(** Two redemptions of the last use: both read it, the first write wins. *)
Definition after_first : store := (redeem_write demo_c_env "SAVE10" 0 true (coupon_store (limited_row 1 0))).1.
Lemma two_redemptions :
  rtc (redeem_step "SAVE10") (Race (coupon_store (limited_row 1 0)) ∅ 0) (Race after_first ∅ 1).
Proof.
  set (s := coupon_store (limited_row 1 0)).
  assert (∀ i p w, redeem_step "SAVE10" (Race s p w) (Race s (<[i := (0%Z, true)]> p) w)) as Hread.
  { intros i p w. eapply (redeem_read "SAVE10" i 3 s p w s (row_to_doc "SAVE10" (limited_row 1 0))); evaluates. }
  eapply rtc_l; [apply (Hread 1)|]. eapply rtc_l; [apply (Hread 2)|].
  eapply rtc_l; [eapply (redeem_written "SAVE10" 1 demo_c_env s _ 0 0 true after_first true); evaluates|].
  eapply rtc_l; [eapply (redeem_written "SAVE10" 2 demo_c_env after_first _ 1 0 true after_first false); evaluates|].
  match goal with |- rtc _ (Race _ ?p _) _ => replace p with (∅ : gmap nat (Z * bool)) by (evaluates) end.
  apply rtc_refl.
Qed.

Lemma redemptions_bounded_witness :
  (0 + Z.of_nat 1 ≤ 1)%Z
  ∧ ∃ row, coupon_row "SAVE10" after_first = Some row ∧ counts 1 (0 + Z.of_nat 1) row.
Proof.
  apply (redemptions_bounded (PgJsonLaws0 := plain_json_laws) "SAVE10" 1 0 (coupon_store (limited_row 1 0))
    (limited_row 1 0) (Race after_first ∅ 1)).
  - lia.
  - unfold i64_max. lia.
  - evaluates.
  - constructor; [by eexists|done|done].
  - apply two_redemptions.
Defined.

Definition admin_auth (uid : string) : AuthContext :=
  {| auth_user_id := uid; auth_roles := []; authenticated := true; email_verified := true; custom_claims := VNull |}.
Definition admin_store : store :=
  {["users" := {["boss" := {| row_data := VObject [("roles", VArray [VString "admin"])];
                              row_created_at := 1; row_updated_at := 1 |}]}]}.
Definition save10 : CreateCouponRequest :=
  {| cc_code := " save10"; cc_discount_type := "percent"; cc_discount_value := f64_of_Z 10;
     cc_min_order_cents := Some 1000%Z; cc_max_uses_total := Some 5%Z; cc_max_uses_per_user := None;
     cc_expires_at := Some "99"; cc_seller_id := None; cc_is_active := true; cc_user_id := "boss" |}.
Definition save10_store : store := (create_coupon "" demo_c_env (admin_auth "boss") save10 admin_store).1.
Definition save10_cart : ApplyCouponRequest :=
  {| ac_code := "Save10"; ac_order_subtotal_cents := 5000; ac_seller_ids := None; ac_user_id := "ann" |}.

Lemma created_coupon_applies_witness :
  (apply_coupon "" map_to_list (λ _ _, 0%Z) demo_c_env (admin_auth "ann") save10_cart save10_store).2
  = Ok {| ac_valid := true; ac_discount_amount_cents := 500; ac_discount_type := "percent";
          ac_discount_value := f64_of_Z 10; ac_coupon_code := "SAVE10" |}.
Proof.
  change 500%Z with (compute_discount "percent" (f64_of_Z 10) 5000).
  eapply (created_coupon_applies (TextLaws0 := plain_textlib_laws) "" map_to_list (λ _ _, 0%Z) demo_c_env
    (admin_auth "boss") save10 admin_store save10_store
    {| cc_success := true; cc_id := "coupons:SAVE10"; cc_coupon_code := "SAVE10"; cc_created := true |}
    demo_c_env (admin_auth "ann") save10_cart "ann"
    (limited_as "" demo_c_env "ann" "apply_coupon" 15 1 save10_store).1 0).
  - evaluates.
  - unfold table_rows, admin_store. intros code row. rewrite lookup_singleton_ne by done. cbn. by rewrite lookup_empty.
  - constructor; [done|intros ? [= <-]|intros ? [= <-]|done]; unfold i64_max; lia.
  - constructor; try done; cbn; [intros ? [= <-]; lia|]. intros t exp [= <-] H. vm_compute in H. injection H as <-. lia.
  - evaluates.
  - evaluates.
  - evaluates.
  - evaluates.
  - evaluates.
  - evaluates.
Defined.

(** The limit per user is checked when a coupon is previewed, not when it is
    redeemed: one user redeems a coupon twice that each user may use once. *)
Definition once_per_user : store := coupon_store
  {| row_data := VObject [("isActive", VBool true); ("maxUsesPerUser", of_i64 1); ("maxUsesTotal", of_i64 5);
                          ("usedCount", of_i64 0)];
     row_created_at := 1; row_updated_at := 1 |}.
Definition ann_redeems (use_id limit_id order_id : string) : store → store * Result RedeemCouponResponse :=
  redeem_coupon "" {| ce_test_mode := false; ce_secs := 1000; ce_limit_id := limit_id; ce_limit_now := 2;
                      ce_now := 3; ce_write_now := 4; ce_use_id := use_id; ce_use_now := 5 |}
    (admin_auth "ann") {| rc_code := "SAVE10"; rc_order_id := order_id; rc_user_id := "ann" |}.
Example redeem_ignores_user_limit :
  let '(s1, r1) := ann_redeems "x1" "l1" "o1" once_per_user in
  let '(s2, r2) := ann_redeems "x2" "l2" "o2" s1 in
  r1 = Ok {| rc_success := true; rc_redeemed := true |} ∧ r2 = r1
  ∧ size (table_rows s2 "coupon_uses") = 2.
Proof. by vm_compute. Qed.

(** A coupon whose expiry date cannot be read is stored without one. *)
Example unreadable_expiry_never_expires code user_id now req t :
  cc_expires_at req = Some "31/12/2025" → coupon_expired t (coupon_doc code user_id now req) = false.
Proof. intros H. unfold coupon_doc. by rewrite H. Qed.
End coupon_witnesses.
