(* ===== verification/Checkout.v ===== *)
(** * Checkout

    crates/ob-handlers/src/payments/checkout.rs: the handler that prices a cart
    on the server, opens a Stripe session for it and creates the order with its
    stock reservations in one transaction ([create_checkout_session]), and the
    price check before it ([verify_cart_prices]).

    Money is an [i64] number of cents, which wraps around.  Stripe and the bot
    check are parameters: a function from what is sent to what is answered.  The
    two statements of the transaction are a type of their own, run with
    PostgreSQL's documented meaning in the loop of DocStore.v's [commit]. *)

From S2P Require Export Coupons Orders.

(** ** Requests *)

Record CartItem : Type := { ci_product_id : string; ci_quantity : N }.
Record ShippingAddress : Type := {
  sa_street : string; sa_city : string; sa_state : string; sa_postal_code : string; sa_country : string }.
Record CreateCheckoutRequest : Type := {
  co_items : list CartItem;
  co_shipping_address : ShippingAddress;
  co_user_id : option string;
  co_subtotal_cents : Z;
  co_coupon_code : option string;
  co_eula_accepted : bool;
  co_age_verification_accepted : bool;
  co_idempotency_key : option string;
  co_turnstile_token : option string;
}.
Record CheckoutResponse : Type := {
  cr_session_id : string; cr_checkout_order_id : string; cr_checkout_url : option string;
  cr_ok : bool; cr_duplicate : bool; cr_tax_amount_cents : Z }.

Definition VALID_PROVINCES : list string :=
  ["AB"; "BC"; "MB"; "NB"; "NL"; "NS"; "NT"; "NU"; "ON"; "PE"; "QC"; "SK"; "YT"].
Definition ACTIVE_SHIPPING_COUNTRIES : list string := ["CA"; "CANADA"].
Definition ACTIVE_STRIPE_SHIPPING_COUNTRIES : list string := ["CA"].
Definition MAX_CART_ITEMS : nat := 30.
Definition MAX_ITEM_QUANTITY : N := 100.
Definition MAX_CHECKOUT_SUBTOTAL_CENTS : Z := 10000000.
Definition PLATFORM_FEE_BPS : Z := 250.
Definition STANDARD_SHIPPING_CENTS : Z := 899.
Definition INTL_SHIPPING_BASE_CENTS : Z := 599.
Definition FREE_SHIPPING_THRESHOLD_CENTS : Z := 7500.

(** ** Tax and shipping *)

Definition province_tax_rate_bps (province : string) : Z :=
  if province =s? "ON" then 1300
  else if existsb (str_eqb province) ["NB"; "NL"; "NS"; "PE"] then 1500
  else if province =s? "QC" then 1498
  else if (province =s? "BC") || (province =s? "MB") then 1200
  else if province =s? "SK" then 1100
  else 500.

Definition calculate_tax_cents (taxable_base_cents : Z) (province : string) : Z :=
  (wrap_signed 64 (wrap_signed 64 (taxable_base_cents * province_tax_rate_bps province) + 5000) `quot` 10000)%Z.

(** The first item that may not leave its province, as the error it raises. *)
Definition shipping_restriction (buyer_province : string) (item : Value) : option Error :=
  let is_perishable := bool_field item "isPerishable" in
  let seller_prov := str_field item "shipFromProvince" in
  if is_perishable || bool_field item "isLocalDeliveryOnly" then
    if negb (str_empty seller_prov) && negb (seller_prov =s? buyer_province) then
      let label := if is_perishable then "Perishable items" else "Local-delivery-only items" in
      Some (Validation (label +:+ " can only be shipped within the same province (50km local delivery). Seller province: "
        +:+ seller_prov +:+ ", buyer province: " +:+ buyer_province))
    else None
  else None.

Definition cross_province `{TextLib} (buyer_province : string) (item : Value) : bool :=
  let seller_prov := str_field item "shipFromProvince" in
  let seller_country := str_field item "shipFromCountry" in
  let seller_country_upper := to_uppercase (trim seller_country) in
  let is_international := negb (str_empty seller_country) && negb (seller_country_upper =s? "CA")
                          && negb (seller_country_upper =s? "CANADA") in
  is_international || negb (str_empty seller_prov) && negb (seller_prov =s? buyer_province).

Definition calculate_shipping_cost_cents `{TextLib} (subtotal_cents : Z) (buyer_province : string)
    (items : list Value) : Result Z :=
  if forallb (λ item, bool_field item "isDigital") items then Ok 0%Z
  else match head (omap (shipping_restriction buyer_province) items) with
  | Some e => Err e
  | None =>
      if (FREE_SHIPPING_THRESHOLD_CENTS <=? subtotal_cents)%Z then Ok 0%Z
      else if existsb (cross_province buyer_province) items then Ok INTL_SHIPPING_BASE_CENTS
      else Ok STANDARD_SHIPPING_CENTS
  end.

(** ** Normalisation *)
Section normalisation.
Context `{T : TextLib}.

Definition normalize_country (country : string) : string := to_uppercase (trim country).
Definition is_active_shipping_country (country : string) : bool :=
  existsb (str_eqb (normalize_country country)) ACTIVE_SHIPPING_COUNTRIES.
Definition normalize_province (province : string) : string := to_uppercase (trim province).
Definition normalize_postal_code (postal_code : string) : string :=
  to_uppercase (str_replace " " "" postal_code).
Definition normalize_coupon_code (code : string) : string := to_uppercase (trim code).

(** Six characters: a byte outside ASCII fits neither class. *)
Definition is_valid_canadian_postal (code : string) : bool :=
  match to_uppercase code with
  | String a (String b (String c (String d (String e (String f ""))))) =>
      is_alpha a && is_digit b && is_alpha c && is_digit d && is_alpha e && is_digit f
  | _ => false
  end.
End normalisation.

(** ** The client's subtotal *)

Definition checkout_subtotal_tolerance (actual_subtotal_cents : Z) : Z :=
  (if actual_subtotal_cents <? 100 then 1 else 200)%Z.
(** [abs] of the least [i64] is itself. *)
Definition subtotal_matches_with_tolerance (client_subtotal_cents actual_subtotal_cents : Z) : bool :=
  (wrap_signed 64 (Z.abs (wrap_signed 64 (client_subtotal_cents - actual_subtotal_cents)))
   <=? checkout_subtotal_tolerance actual_subtotal_cents)%Z.

(** ** The coupon of a cart *)

(** The file has its own copies of the coupon helpers. *)
Module Coupon.
Definition is_valid_coupon_code (code : string) : bool :=
  (4 <=? String.length code) && (String.length code <=? 20)
  && str_forall (λ c, is_upper c || is_digit c) code.
Definition compute_coupon_discount_cents (discount_type : string) (discount_value : f64)
    (cart_subtotal_cents : Z) : Z :=
  (if cart_subtotal_cents <=? 100 then 0
   else if (discount_type =s? "percentage") || (discount_type =s? "percent") then
     let effective := f64_min discount_value (f64_mul (f64_of_decimal false 90 2) (f64_of_Z 100)) in
     let millipercent := f64_round_as_i64 (f64_mul effective (f64_of_Z 1000)) in
     let discount := wrap_signed 64 (cart_subtotal_cents * millipercent) `quot` 100000 in
     if wrap_signed 64 (cart_subtotal_cents - discount) <? 100 then cart_subtotal_cents - 100
     else discount
   else if (discount_type =s? "fixed_amount") || (discount_type =s? "fixed_cents") then
     Z.min (f64_as_i64 discount_value) (cart_subtotal_cents - 100)
   else 0)%Z.
End Coupon.

Section checkout.
Context `{C : Chrono} `{P : PgJson} `{T : TextLib}.
Context (pg_invalid_bigint : string) (scan : rows → list (string * DocRow)).

Definition coupon_uses_of (code : string) (row : DocRow) : bool :=
  bool_decide (field_text "couponId" (row_data row) = Some code).
Definition coupon_uses_by (code user_id : string) (row : DocRow) : bool :=
  coupon_uses_of code row && bool_decide (field_text "userId" (row_data row) = Some user_id).

(** The checks before the usage counts. *)
Definition cart_coupon_checks (now raw_subtotal_cents : Z) (seller_ids : list string) (coupon : Value) :
    Result unit :=
  if negb (is_active coupon) then Err unavailable
  else if coupon_expired now coupon then Err unavailable
  else if other_seller seller_ids coupon then Err unavailable
  else if below_minimum raw_subtotal_cents coupon then
    Err (Validation "Cart subtotal does not meet the minimum order requirement for this coupon")
  else Ok tt.

Definition validate_checkout_coupon (now : Z) (coupon_code user_id : string) (raw_subtotal_cents : Z)
    (seller_ids : list string) : handler (string * Z) :=
  let code := normalize_coupon_code coupon_code in
  _ ← pure (if negb (Coupon.is_valid_coupon_code code) then Err unavailable else Ok tt);
  coupon ← find_coupon scan code;
  _ ← pure (cart_coupon_checks now raw_subtotal_cents seller_ids coupon);
  reservation_count ← count_where "coupon_uses" (coupon_uses_of code);
  _ ← pure (if reached (i64_field "maxUsesTotal" coupon) reservation_count then Err unavailable else Ok tt);
  user_use_count ← count_where "coupon_uses" (coupon_uses_by code user_id);
  _ ← pure (if (max_per_user coupon <=? user_use_count)%Z then
              Err (Validation "You've reached the maximum uses for this coupon") else Ok tt);
  pure (Ok (code, Coupon.compute_coupon_discount_cents (coupon_type coupon) (coupon_value coupon) raw_subtotal_cents)).

(** ** The cart *)

Definition check_item (item : CartItem) : Result unit :=
  if str_empty (ci_product_id item) then Err (Validation "Each item must have a productId")
  else
    _ ← validate_document_id (ci_product_id item);
    if (ci_quantity item =? 0)%N || (MAX_ITEM_QUANTITY <? ci_quantity item)%N then
      Err (Validation ("Invalid quantity for product " +:+ ci_product_id item))
    else Ok tt.
Fixpoint check_items (items : list CartItem) : Result unit :=
  match items with
  | [] => Ok tt
  | item :: items => _ ← check_item item; check_items items
  end.

(** The checks of the request, and the normalised province and postal code. *)
Definition check_request (req : CreateCheckoutRequest) : Result (string * string) :=
  let address := co_shipping_address req in
  let province := normalize_province (sa_state address) in
  let postal := normalize_postal_code (sa_postal_code address) in
  _ ← (if bool_decide (co_items req = []) then Err (Validation "No items in cart")
       else if MAX_CART_ITEMS <? length (co_items req) then
         Err (Validation ("Cart exceeds maximum of " +:+ pretty MAX_CART_ITEMS +:+ " items"))
       else Ok tt);
  _ ← check_items (co_items req);
  _ ← (if (co_subtotal_cents req <? 0)%Z then Err (Validation "Subtotal cannot be negative")
       else if (MAX_CHECKOUT_SUBTOTAL_CENTS <? co_subtotal_cents req)%Z then
         Err (Validation "Subtotal exceeds maximum allowed ($100,000)")
       else Ok tt);
  _ ← validate_string "street" (sa_street address) 200;
  _ ← validate_string "city" (sa_city address) 200;
  _ ← validate_string "postalCode" (sa_postal_code address) 20;
  if negb (is_active_shipping_country (normalize_country (sa_country address))) then
    Err (Validation "Shipping is currently available within Canada only")
  else if negb (existsb (str_eqb province) VALID_PROVINCES) then
    Err (Validation ("Invalid province '" +:+ province +:+ "'. Must be one of: " +:+ join ", " VALID_PROVINCES))
  else if negb (is_valid_canadian_postal postal) then
    Err (Validation "Invalid Canadian postal code format")
  else Ok (province, postal).

(** The products that are found, in cart order. *)
Fixpoint fetch_products (ids : list string) : handler (list Value) :=
  match ids with
  | [] => pure (Ok [])
  | pid :: ids =>
      doc ← attempt (get_document "products" pid);
      rows ← fetch_products ids;
      pure (Ok (match doc with Some doc => doc :: rows | None => rows end))
  end.

Definition id_matches (product_id : string) (p : Value) : bool :=
  match get "id" p ≫= as_str with Some id => ends_with product_id id | None => false end.
Definition find_product (product_id : string) (product_rows : list Value) : option Value :=
  snd <$> list_find (λ p, id_matches product_id p = true) product_rows.

(** The snapshot of a product in the order. *)
Definition validated_item (item : CartItem) (price_cents : Z) (seller_id : string) (product : Value) : Value :=
  VObject
    [("imageUrl", VString (default "" (((get "imageUrls" product ≫= as_array) ≫= head) ≫= as_str)));
     ("isDigital", VBool (bool_field product "isDigital"));
     ("isLocalDeliveryOnly", VBool (bool_field product "isLocalDeliveryOnly"));
     ("isPerishable", VBool (bool_field product "isPerishable"));
     ("name", VString (str_field product "name"));
     ("priceCents", of_i64 price_cents);
     ("productId", VString (ci_product_id item));
     ("quantity", VNumber (PosInt (ci_quantity item)));
     ("sellerId", VString seller_id);
     ("shipFromCountry", VString (str_field product "shipFromCountry"));
     ("shipFromProvince", VString (str_field product "shipFromProvince"));
     ("weightKg", match get "weightKg" product ≫= as_f64 with Some f => json_f64 f | None => VNull end)].

Definition short_user_id (user_id : string) : string := default user_id (strip_prefix "users:" user_id).

(** One iteration of the validation: the amount it adds and the snapshot. *)
Definition validate_item (req : CreateCheckoutRequest) (user_id : string) (product_rows : list Value)
    (item : CartItem) : Result (Z * Value) :=
  let pid := ci_product_id item in
  let quantity := Z.of_N (ci_quantity item) in
  product ← ok_or (NotFound ("Product " +:+ pid +:+ " not found")) (find_product pid product_rows);
  let stock := default 0%Z (i64_field "stockQuantity" product) in
  let price_cents := default 0%Z (i64_field "priceCents" product) in
  let seller_id := str_field product "sellerId" in
  if negb (str_field product "lifecycleStatus" =s? "active") then
    Err (Validation ("Product " +:+ pid +:+ " is not available for purchase"))
  else if (stock <? quantity)%Z then
    Err (Validation ("Insufficient stock for product " +:+ pid +:+ ". Available: " +:+ pretty stock))
  else if (price_cents <=? 0)%Z then Err (Validation ("Product " +:+ pid +:+ " has invalid price"))
  else if seller_id =s? short_user_id user_id then
    Err (Validation ("Cannot purchase your own products (seller: " +:+ seller_id +:+ ", buyer: "
                     +:+ short_user_id user_id +:+ ")"))
  else if bool_field product "isAgeRestricted" && negb (co_age_verification_accepted req) then
    Err (Validation "Age verification required for restricted items")
  else if bool_field product "isDigital" && negb (co_eula_accepted req) then
    Err (Validation "EULA acceptance required for digital products")
  else Ok (wrap_signed 64 (price_cents * quantity), validated_item item price_cents seller_id product).

Fixpoint validate_cart (req : CreateCheckoutRequest) (user_id : string) (product_rows : list Value)
    (items : list CartItem) (subtotal : Z) : Result (Z * list Value) :=
  match items with
  | [] => Ok (subtotal, [])
  | item :: items =>
      '(amount, snapshot) ← validate_item req user_id product_rows item;
      '(total, snapshots) ← validate_cart req user_id product_rows items (wrap_signed 64 (subtotal + amount));
      Ok (total, snapshot :: snapshots)
  end.

Definition unique_seller_ids (validated_items : list Value) : list string :=
  remove_dups (omap (λ item, get "sellerId" item ≫= as_str) validated_items).

(** The suspension check, and the profiles found for the payout. *)
Fixpoint check_sellers (seller_ids : list string) : handler (list (string * Value)) :=
  match seller_ids with
  | [] => pure (Ok [])
  | seller_id :: seller_ids =>
      seller ← attempt (get_document "users" seller_id);
      _ ← pure (if match seller with Some seller => bool_field seller "suspended" | None => false end
                then Err (Validation ("Seller " +:+ seller_id +:+ " is suspended")) else Ok tt);
      profile ← attempt (get_document "seller_profiles" seller_id);
      rest ← check_sellers seller_ids;
      pure (Ok (match profile with Some profile => (seller_id, profile) :: rest | None => rest end))
  end.

(** The priced cart: everything decided before Stripe is called. *)
Record quote : Type := {
  q_items : list Value;
  q_sellers : list string;
  q_profiles : list (string * Value);
  q_coupon : option string;
  q_discount : Z;
  q_subtotal_cents : Z;
}.

Definition requested_coupon (req : CreateCheckoutRequest) : option string :=
  match co_coupon_code req with
  | Some code => let code := normalize_coupon_code code in
                 if str_empty code then None else Some code
  | None => None
  end.

Definition quote_cart (now : Z) (req : CreateCheckoutRequest) (user_id : string) : handler quote :=
  product_rows ← fetch_products (ci_product_id <$> co_items req);
  _ ← pure (if negb (length product_rows =? length (co_items req)) then
              Err (NotFound "One or more products not found") else Ok tt);
  '(raw_subtotal_cents, validated_items) ← pure (validate_cart req user_id product_rows (co_items req) 0);
  let sellers := unique_seller_ids validated_items in
  _ ← pure (if 1 <? length sellers then
              Err (Validation "Multi-seller carts require separate checkout sessions per seller.") else Ok tt);
  profiles ← check_sellers sellers;
  '(coupon, discount) ←
    match requested_coupon req with
    | Some code =>
        '(code, discount) ← validate_checkout_coupon now code user_id raw_subtotal_cents sellers;
        pure (Ok (Some code, discount))
    | None => pure (Ok (None, 0%Z))
    end;
  let actual_subtotal_cents := wrap_signed 64 (raw_subtotal_cents - discount) in
  if negb (subtotal_matches_with_tolerance (co_subtotal_cents req) actual_subtotal_cents) then
    pure (Err (Validation ("Subtotal mismatch. Expected ~" +:+ pretty actual_subtotal_cents
      +:+ " cents, got " +:+ pretty (co_subtotal_cents req) +:+ " cents")))
  else
    pure (Ok {| q_items := validated_items; q_sellers := sellers; q_profiles := profiles;
                q_coupon := coupon; q_discount := discount; q_subtotal_cents := actual_subtotal_cents |}).

(** ** Amounts *)
Record amounts : Type := { am_shipping : Z; am_tax : Z; am_total : Z; am_fee : Z }.
Definition checkout_amounts (actual_subtotal_cents : Z) (province : string) (items : list Value) :
    Result amounts :=
  shipping ← calculate_shipping_cost_cents actual_subtotal_cents province items;
  let taxable_base_cents := wrap_signed 64 (actual_subtotal_cents + shipping) in
  let tax := calculate_tax_cents taxable_base_cents province in
  Ok {| am_shipping := shipping; am_tax := tax;
        am_total := wrap_signed 64 (wrap_signed 64 (actual_subtotal_cents + shipping) + tax);
        am_fee := (wrap_signed 64 (actual_subtotal_cents * PLATFORM_FEE_BPS) `quot` 10000)%Z |}.

(** ** The Stripe session *)

Definition SITE_URL : string := "https://orignagta.ca".

(** The four entries of a line item. *)
Definition line_item (index : nat) (name : string) (cents : Z) : list (string * string) :=
  let key := "line_items[" +:+ pretty index +:+ "]" in
  [(key +:+ "[price_data][currency]", "cad"); (key +:+ "[price_data][product_data][name]", name);
   (key +:+ "[price_data][unit_amount]", pretty cents); (key +:+ "[quantity]", "1")].
(** Only positive amounts have one, numbered in order. *)
Definition line_items (lines : list (string * Z)) : list (string * string) :=
  mjoin (imap (λ i line, line_item i line.1 line.2) (filter (λ line, (0 < line.2)%Z) lines)).

(** The payout account of the first seller that has one. *)
Definition payout_account (profile : Value) : option string :=
  match get "stripeAccountId" profile ≫= as_str with
  | Some acct => if starts_with "acct_" acct then Some acct else None
  | None => None
  end.
Definition connect_account (q : quote) : option string :=
  head (omap (λ sid, match list_find (λ kv, kv.1 = sid) (q_profiles q) with
                     | Some (_, (_, profile)) => payout_account profile
                     | None => None
                     end) (q_sellers q)).

Definition session_form (order_id user_id : string) (q : quote) (a : amounts) : list (string * string) :=
  [("mode", "payment");
   ("success_url", SITE_URL +:+ "/payment-success?session_id={CHECKOUT_SESSION_ID}&order_id=" +:+ order_id);
   ("cancel_url", SITE_URL +:+ "/payment-cancel?order_id=" +:+ order_id);
   ("billing_address_collection", "required");
   ("phone_number_collection[enabled]", "true");
   ("payment_method_types[0]", "card"); ("payment_method_types[1]", "klarna");
   ("payment_intent_data[capture_method]", "manual");
   ("metadata[order_id]", order_id); ("metadata[user_id]", user_id)]
  ++ imap (λ i country, ("shipping_address_collection[allowed_countries][" +:+ pretty i +:+ "]", country))
       ACTIVE_STRIPE_SHIPPING_COUNTRIES
  ++ (match q_coupon q with Some code => [("metadata[coupon_code]", code)] | None => [] end)
  ++ (if (0 <? am_fee a)%Z then
        match connect_account q with
        | Some acct => [("payment_intent_data[on_behalf_of]", acct);
                        ("payment_intent_data[transfer_data][destination]", acct);
                        ("application_fee_amount", pretty (am_fee a))]
        | None => []
        end
      else [])
  ++ line_items [("Order subtotal", q_subtotal_cents q); ("Shipping", am_shipping a);
                 ("Estimated tax", am_tax a)].

(** What the request to Stripe comes to. *)
Inductive stripe_reply : Type :=
| SendFailed (error : string)
| Refused
| NotJson (error : string)
| Session (v : Value).

Definition session_of (r : stripe_reply) : Result (string * option string) :=
  match r with
  | SendFailed e => Err (Internal ("Stripe API error: " +:+ e))
  | Refused => Err (Internal "Failed to create payment session")
  | NotJson e => Err (Internal ("Failed to parse Stripe response: " +:+ e))
  | Session session =>
      session_id ← ok_or (Internal "Missing session ID from Stripe") (get "id" session ≫= as_str);
      Ok (session_id, get "url" session ≫= as_str)
  end.

(** ** The transaction *)

(** [INSERT INTO table (id, data) VALUES ($id, $data)] and
    [UPDATE products SET data = jsonb_set(jsonb_set(data, '{stockQuantity}',
    to_jsonb((data->>'stockQuantity')::bigint - qty)), '{updatedAt}', now),
    updated_at = now() WHERE id = pid AND (data->>'stockQuantity')::bigint >= qty]. *)
Inductive statement : Type :=
| InsertDocument (table id : string) (data : Value)
| ReserveStock (pid : string) (qty : N) (now : string).

(** PostgreSQL's errors. *)
Context (pg_missing_table pg_duplicate_key : string → string).

Definition reserved_row (qty : N) (now : string) (stock db_now : Z) (row : DocRow) : DocRow :=
  {| row_data := put "updatedAt" (VString now) (put "stockQuantity" (of_i64 (stock - Z.of_N qty)) (row_data row));
     row_created_at := row_created_at row; row_updated_at := db_now |}.

Definition exec_statement (db_now : Z) (st : statement) (s : store) : outcome string (store * N) :=
  match st with
  | InsertDocument table id data =>
      match s !! table with
      | None => Err (pg_missing_table table)
      | Some rs =>
          match rs !! id with
          | Some _ => Err (pg_duplicate_key id)
          | None => Ok (<[table := <[id := {| row_data := data; row_created_at := db_now;
                                            row_updated_at := db_now |}]> rs]> s, 1%N)
          end
      end
  | ReserveStock pid qty now =>
      match s !! "products" with
      | None => Err (pg_missing_table "products")
      | Some rs =>
          match rs !! pid with
          | None => Ok (s, 0%N)
          | Some row =>
              match field_text "stockQuantity" (row_data row) with
              | None => Ok (s, 0%N)
              | Some text =>
                  match parse_i64 text with
                  | None => Err pg_invalid_bigint
                  | Some stock =>
                      if (Z.of_N qty <=? stock)%Z then
                        Ok (<["products" := <[pid := reserved_row qty now stock db_now row]> rs]> s, 1%N)
                      else Ok (s, 0%N)
                  end
              end
          end
      end
  end.
Definition commit_statements (db_now : Z) : list statement → store → store * Result (list Value) :=
  commit (λ st s, rows_affected (exec_statement db_now st s)).

Definition order_document (order_id user_id now session_id idempotency_key province postal : string)
    (address : ShippingAddress) (q : quote) (a : amounts) : Value :=
  VObject
    [("buyerId", VString user_id); ("couponCode", json_str (q_coupon q)); ("createdAt", VString now);
     ("discountAmountCents", of_i64 (q_discount q)); ("idempotencyKey", VString idempotency_key);
     ("items", VArray (q_items q)); ("orderId", VString order_id);
     ("orderStatus", VString (order_status_str Order.PendingPayment));
     ("paymentStatus", VString "awaiting_payment"); ("platformFeeTotalCents", of_i64 (am_fee a));
     ("shippingAddress", VObject
       [("city", VString (sa_city address)); ("country", VString "CA"); ("postalCode", VString postal);
        ("state", VString province); ("street", VString (sa_street address))]);
     ("shippingCostCents", of_i64 (am_shipping a)); ("stripeSessionId", VString session_id);
     ("subtotalCents", of_i64 (q_subtotal_cents q)); ("taxAmountCents", of_i64 (am_tax a));
     ("totalAmountCents", of_i64 (am_total a)); ("updatedAt", VString now)].

Definition coupon_use (order_id user_id now code : string) : statement :=
  InsertDocument "coupon_uses" (order_id +:+ ":" +:+ code +:+ ":" +:+ user_id)
    (VObject [("couponCode", VString code); ("couponId", VString code); ("createdAt", VString now);
              ("orderId", VString order_id); ("redeemedAt", VNull); ("updatedAt", VString now);
              ("userId", VString user_id)]).

(** The reservation of an item that is not digital. *)
Definition reservation (now : string) (item : Value) : option statement :=
  if bool_field item "isDigital" then None
  else
    let pid := str_field item "productId" in
    let qty := default 1%N (get "quantity" item ≫= as_u64) in
    if is_ok (validate_document_id pid) && (0 <? qty)%N then Some (ReserveStock pid qty now) else None.

Definition order_head (order_id user_id now : string) (q : quote) (doc : Value) : list statement :=
  InsertDocument "orders" order_id doc
  :: match q_coupon q with Some code => [coupon_use order_id user_id now code] | None => [] end.
Definition reservations (now : string) (q : quote) : list statement := omap (reservation now) (q_items q).

(** The check of the results of the reservations, from the position of the
    first one. *)
Definition no_row (result : option Value) : bool :=
  match result with
  | Some (VArray l) => bool_decide (l = [])
  | Some VNull | None => true
  | _ => false
  end.
Fixpoint check_reservations (sts : list statement) (idx : nat) (results : list Value) : Result unit :=
  match sts with
  | [] => Ok tt
  | st :: sts =>
      if no_row (results !! idx) then
        Err (Validation ("Insufficient stock for product "
          +:+ match st with ReserveStock pid _ _ => pid | InsertDocument _ id _ => id end
          +:+ ". Please reduce quantity or remove from cart."))
      else check_reservations sts (S idx) results
  end.

(** ** The handler *)

Record checkout_env : Type := {
  ke_test_mode : bool;
  ke_turnstile_secret : option string;
  ke_stripe_key : option string;
  ke_secs : Z; ke_limit_id : string; ke_limit_now : Z;   (** the limiter's *)
  ke_coupon_now : Z;                                     (** [Utc::now()] of the coupon check *)
  ke_millis : Z;                                         (** of the default idempotency key *)
  ke_order_id : string;                                  (** the fresh UUID *)
  ke_now : Z;                                            (** [Utc::now()] of the order *)
  ke_db_now : Z;                                         (** the database's clock *)
}.
Context (validate_turnstile : string → string → Result unit).
Context (stripe : string → list (string * string) → stripe_reply).

Definition bot_check (e : checkout_env) (req : CreateCheckoutRequest) : Result unit :=
  match co_turnstile_token req with
  | Some token =>
      match ke_turnstile_secret e with
      | Some secret => validate_turnstile token secret
      | None => if ke_test_mode e then Ok tt
                else Err (Forbidden "Turnstile secret not configured — cannot validate token")
      end
  | None => if ke_test_mode e then Ok tt else Err (Validation "Turnstile token is required")
  end.

Definition same_key (user_id idempotency_key : string) (row : DocRow) : bool :=
  bool_decide (field_text "buyerId" (row_data row) = Some user_id)
  && bool_decide (field_text "idempotencyKey" (row_data row) = Some idempotency_key).
Definition duplicate_response (existing_order : Value) : CheckoutResponse :=
  {| cr_session_id := str_field existing_order "stripeSessionId";
     cr_checkout_order_id := str_field existing_order "orderId"; cr_checkout_url := None;
     cr_ok := true; cr_duplicate := true;
     cr_tax_amount_cents := default 0%Z (i64_field "taxAmountCents" existing_order) |}.

(** From the priced cart to the response. *)
Definition place_order (e : checkout_env) (req : CreateCheckoutRequest)
    (user_id province postal idempotency_key : string) (q : quote) : handler CheckoutResponse :=
  let order_id := ke_order_id e in
  let now := to_rfc3339 (ke_now e) in
  a ← pure (checkout_amounts (q_subtotal_cents q) province (q_items q));
  _ ← pure (ok_or (Config "Missing required secret: stripe_secret_key") (ke_stripe_key e));
  '(session_id, checkout_url) ← pure (session_of (stripe idempotency_key (session_form order_id user_id q a)));
  let doc := order_document order_id user_id now session_id idempotency_key province postal
               (co_shipping_address req) q a in
  let head := order_head order_id user_id now q doc in
  let tail := reservations now q in
  tx_results ← db_map_err (λ e, Database
      ("Failed to create order and reserve stock (atomic transaction): " +:+ error_to_string e))
    (commit_statements (ke_db_now e) (head ++ tail));
  _ ← pure (check_reservations tail (length head) tx_results);
  pure (Ok {| cr_session_id := session_id; cr_checkout_order_id := order_id; cr_checkout_url := checkout_url;
              cr_ok := true; cr_duplicate := false; cr_tax_amount_cents := am_tax a |}).

Definition create_checkout_session (e : checkout_env) (auth : AuthContext) (req : CreateCheckoutRequest) :
    handler CheckoutResponse :=
  _ ← pure (bot_check e req);
  user_id ← pure (resolve_self_user_id auth (co_user_id req) "userId");
  _ ← pure (validate_uid "userId" user_id);
  _ ← check_user_rate_limit pg_invalid_bigint (ke_test_mode e) user_id "create_checkout_session" 5 1
        (ke_secs e) (ke_limit_id e) (ke_limit_now e);
  '(province, postal) ← pure (check_request req);
  q ← quote_cart (ke_coupon_now e) req user_id;
  let idempotency_key := default ("checkout_" +:+ user_id +:+ "_" +:+ pretty (ke_millis e))
                           (co_idempotency_key req) in
  existing ← select_where scan "orders" (same_key user_id idempotency_key);
  match head existing with
  | Some existing_order => pure (Ok (duplicate_response existing_order))
  | None => place_order e req user_id province postal idempotency_key q
  end.
(** ** The price check *)

Record VerifyPriceItem : Type := {
  vi_product_id : string; vi_expected_price_cents : Z; vi_quantity : Z }.
Record VerifyPricesRequest : Type := { vp_user_id : string; vp_items : list VerifyPriceItem }.

(** The mismatch reported for an item, [None] when it is verified. *)
Definition price_mismatch (item : VerifyPriceItem) (doc : option Value) : option Value :=
  let pid := VString (vi_product_id item) in
  match doc with
  | Some product =>
      let db_price := default 0%Z (i64_field "priceCents" product) in
      let in_stock := default 0%Z (i64_field "stockQuantity" product) in
      if negb (db_price =? vi_expected_price_cents item)%Z then
        Some (VObject [("actualPriceCents", of_i64 db_price);
                       ("expectedPriceCents", of_i64 (vi_expected_price_cents item));
                       ("productId", pid); ("reason", VString "price_changed")])
      else if (in_stock <? vi_quantity item)%Z then
        Some (VObject [("availableStock", of_i64 in_stock); ("productId", pid);
                       ("reason", VString "insufficient_stock");
                       ("requestedQuantity", of_i64 (vi_quantity item))])
      else if negb (str_field product "lifecycleStatus" =s? "active") then
        Some (VObject [("productId", pid); ("reason", VString "product_unavailable")])
      else None
  | None => Some (VObject [("productId", pid); ("reason", VString "product_not_found")])
  end.

Fixpoint verify_items (items : list VerifyPriceItem) : handler (list (option Value)) :=
  match items with
  | [] => pure (Ok [])
  | item :: items =>
      _ ← pure (validate_uid "productId" (vi_product_id item));
      doc ← attempt (get_document "products" (vi_product_id item));
      rest ← verify_items items;
      pure (Ok (price_mismatch item doc :: rest))
  end.

Definition verify_cart_prices (e : checkout_env) (req : VerifyPricesRequest) : handler Value :=
  _ ← pure (validate_uid "userId" (vp_user_id req));
  _ ← check_user_rate_limit pg_invalid_bigint (ke_test_mode e) (vp_user_id req) "verify_cart_prices" 10 1
        (ke_secs e) (ke_limit_id e) (ke_limit_now e);
  _ ← pure (if bool_decide (vp_items req = []) then Err (Validation "No items to verify") else Ok tt);
  checked ← verify_items (vp_items req);
  let mismatches := omap (λ m, m) checked in
  pure (Ok (VObject [("mismatches", VArray mismatches); ("valid", VBool (bool_decide (mismatches = [])));
                     ("verified", of_i64 (Z.of_nat (length (filter (λ m, m = None) checked))))])).
End checkout.

(** ** The amounts add up *)
Section amounts.
Context `{T : TextLib}.
Local Open Scope Z_scope.

Lemma tax_rate_bound province : 500 ≤ province_tax_rate_bps province ≤ 1500.
Proof. unfold province_tax_rate_bps. repeat case_match; lia. Qed.

(** The tax is the exact one rounded to the nearest cent. *)
Lemma tax_rounded base province :
  0 ≤ base ≤ 10 ^ 14 →
  0 ≤ calculate_tax_cents base province ≤ base
  ∧ - 5000 ≤ base * province_tax_rate_bps province - 10000 * calculate_tax_cents base province < 5001.
Proof.
  intros Hb. pose proof (tax_rate_bound province) as Hr. unfold calculate_tax_cents.
  set (r := province_tax_rate_bps province) in *.
  rewrite (wrap_signed_id 64 (base * r)), wrap_signed_id, Z.quot_div_nonneg by nia.
  pose proof (Z.mul_div_le (base * r + 5000) 10000 ltac:(lia)) as Hle.
  pose proof (Z.mul_succ_div_gt (base * r + 5000) 10000 ltac:(lia)) as Hgt. 
  assert (0 ≤ (base * r + 5000) / 10000) by (apply Z.div_pos; nia). nia.
Qed.

Lemma shipping_cases subtotal province items shipping :
  calculate_shipping_cost_cents subtotal province items = Ok shipping →
  shipping ∈ [0; INTL_SHIPPING_BASE_CENTS; STANDARD_SHIPPING_CENTS].
Proof. unfold calculate_shipping_cost_cents. repeat case_match; intros [= <-]; set_solver. Qed.

(** What the customer is charged for, and the order's record of it. *)
Record amounts_exact (subtotal : Z) (province : string) (a : amounts) : Prop := {
  ae_shipping : 0 ≤ am_shipping a ≤ 899;
  ae_tax : 0 ≤ am_tax a;
  ae_tax_exact : - 5000 ≤ (subtotal + am_shipping a) * province_tax_rate_bps province - 10000 * am_tax a < 5001;
  ae_total : am_total a = subtotal + am_shipping a + am_tax a;
  ae_fee : 0 ≤ am_fee a ∧ 40 * am_fee a ≤ subtotal;
}.

Lemma checkout_amounts_exact subtotal province items a :
  0 ≤ subtotal ≤ 9 * 10 ^ 13 → checkout_amounts subtotal province items = Ok a →
  amounts_exact subtotal province a.
Proof.
  intros Hs H. unfold checkout_amounts in H.
  destruct (calculate_shipping_cost_cents subtotal province items) as [shipping| |] eqn:E; try discriminate H.
  apply shipping_cases in E. cbn in H. injection H as <-.
  assert (0 ≤ shipping ≤ 899) as Hship.
  { unfold INTL_SHIPPING_BASE_CENTS, STANDARD_SHIPPING_CENTS in E. set_unfold in E. lia. }
  rewrite !(wrap_signed_id 64 (subtotal + shipping)) by lia.
  destruct (tax_rounded (subtotal + shipping) province) as [Ht Hr]; [lia|]. unfold PLATFORM_FEE_BPS.
  constructor; cbn [am_shipping am_tax am_total am_fee]; try lia.
  - rewrite wrap_signed_id; lia.
  - rewrite wrap_signed_id, Z.quot_div_nonneg by lia.
    pose proof (Z.mul_div_le (subtotal * 250) 10000 ltac:(lia)).
    assert (0 ≤ subtotal * 250 / 10000) by (apply Z.div_pos; lia). lia.
Qed.

(** *** The form sent to Stripe *)

(** The amounts of the line items of a form. *)
Definition charged (form : list (string * string)) : list Z :=
  omap (λ kv, if ends_with "[unit_amount]" kv.1 then parse_i64 kv.2 else None) form.

Lemma line_charged i name cents :
  (i < 3)%nat → - 2 ^ 63 ≤ cents ≤ i64_max → charged (line_item i name cents) = [cents].
Proof.
  intros Hi Hc. unfold charged.
  assert (parse_i64 (pretty cents) = Some cents) as Hp by by apply parse_i64_pretty.
  destruct i as [|[|[|i]]]; [| | |lia]; unfold line_item; cbv zeta;
    match goal with |- omap ?f [?a; ?b; ?c; ?d] = _ =>
      change (omap f [a; b; c; d]) with (omap f [("[unit_amount]", pretty cents)]) end; cbn; by rewrite Hp.
Qed.

Lemma charged_app f g : charged (f ++ g) = charged f ++ charged g.
Proof. apply omap_app. Qed.

Lemma lines_charged lines :
  (length lines ≤ 3)%nat → Forall (λ l, 0 ≤ l.2 ≤ i64_max) lines →
  charged (line_items lines) = filter (λ z, 0 < z) lines.*2.
Proof.
  intros Hl Hf. unfold line_items.
  assert (∀ k (ls : list (string * Z)), (k + length ls ≤ 3)%nat → Forall (λ l, 0 ≤ l.2 ≤ i64_max) ls →
    charged (mjoin (imap (λ i line, line_item (k + i) line.1 line.2) ls)) = ls.*2) as Hc.
  { intros k ls. revert k. induction ls as [|[n z] ls IH]; intros k Hk Hls; [done|].
    inversion Hls as [|? ? Hz Hls']; subst. cbn in Hk, Hz. cbn [imap mjoin list_join].
    cbn [fst snd]. rewrite charged_app, Nat.add_0_r, line_charged by lia. cbn. f_equal.
    rewrite <- (IH (S k)) by (done || lia). f_equal. f_equal. apply imap_ext. intros i l _. cbn.
    by rewrite Nat.add_succ_r. }
  rewrite (Hc 0%nat).
  - clear. induction lines as [|[n z] ls IH]; [done|]. rewrite filter_cons, fmap_cons, filter_cons. cbn.
    case_decide; cbn; by rewrite IH.
  - etransitivity; [apply length_filter|done].
  - apply Forall_forall. intros l [_ Hin]%list_elem_of_filter. by eapply Forall_forall in Hf.
Qed.

Lemma form_charged order_id user_id q a :
  0 ≤ q_subtotal_cents q ≤ i64_max → 0 ≤ am_shipping a ≤ i64_max → 0 ≤ am_tax a ≤ i64_max →
  foldr Z.add 0 (charged (session_form order_id user_id q a))
  = q_subtotal_cents q + am_shipping a + am_tax a.
Proof.
  intros Hs Hsh Ht. unfold session_form. rewrite !charged_app.
  rewrite lines_charged; [|cbn; lia|by repeat (apply Forall_cons; split; [done|])].
  assert (charged (match q_coupon q with Some code => [("metadata[coupon_code]", code)] | None => [] end) = []) as ->
    by (by destruct (q_coupon q)).
  match goal with |- context [charged (if ?b then ?x else [])] =>
    assert (charged (if b then x else []) = []) as -> by (destruct b; [by destruct (connect_account q)|done]) end.
  cbn [app fmap list_fmap snd]. change (charged (_ :: _)) with (@nil Z). 
  change (charged (imap _ ACTIVE_STRIPE_SHIPPING_COUNTRIES)) with (@nil Z). cbn [app].
  rewrite !filter_cons, filter_nil. repeat case_decide; cbn; lia.
Qed.
End amounts.

(** ** The cart is priced from the stored products *)
Section cart.
Context `{C : Chrono} `{P : PgJson} `{T : TextLib}.
Local Open Scope Z_scope.

(** What an item of an order costs. *)
Definition item_amount (item : Value) : Z :=
  default 0 (i64_field "priceCents" item) * Z.of_N (default 0%N (get "quantity" item ≫= as_u64)).
Definition cart_total (items : list Value) : Z := foldr Z.add 0 (item_amount <$> items).

(** No price is above a hundred million dollars. *)
Definition price_ok (product : Value) : Prop := ∀ z, i64_field "priceCents" product = Some z → z ≤ 10 ^ 10.
Definition quantity_ok (item : CartItem) : Prop := (1 ≤ ci_quantity item ≤ MAX_ITEM_QUANTITY)%N.

Lemma check_items_ok items : check_items items = Ok tt → Forall quantity_ok items.
Proof.
  induction items as [|item items IH]; [constructor|]. cbn [check_items]. unfold check_item.
  destruct (str_empty _); [done|]. destruct (validate_document_id _); cbn; try done.
  destruct (N.eqb_spec (ci_quantity item) 0); [done|]. cbn.
  destruct (N.ltb_spec MAX_ITEM_QUANTITY (ci_quantity item)); [done|]. cbn. intros Hrest.
  constructor; [|by apply IH]. unfold quantity_ok, MAX_ITEM_QUANTITY in *. lia.
Qed.

Lemma find_product_elem pid product_rows product :
  find_product pid product_rows = Some product → product ∈ product_rows.
Proof.
  unfold find_product. destruct (list_find _ product_rows) as [[i p]|] eqn:E; [|done].
  intros [= <-]. apply list_find_Some in E as (E & _). by eapply list_elem_of_lookup_2.
Qed.

(** An accepted item: where it comes from and what it costs. *)
Record accepted (user_id : string) (product_rows : list Value) (item : CartItem) (snapshot : Value) : Prop := {
  acc_product : ∃ product price, product ∈ product_rows ∧ id_matches (ci_product_id item) product = true
    ∧ i64_field "priceCents" product = Some price ∧ 0 < price
    ∧ snapshot = validated_item item price (str_field product "sellerId") product;
  acc_seller : str_field snapshot "sellerId" ≠ short_user_id user_id;
}.

Lemma validate_item_inv req user_id product_rows item amount snapshot :
  validate_item req user_id product_rows item = Ok (amount, snapshot) →
  accepted user_id product_rows item snapshot
  ∧ (Forall price_ok product_rows → quantity_ok item → amount = item_amount snapshot ∧ 0 < amount ≤ 10 ^ 12).
Proof.
  unfold validate_item. destruct (find_product _ _) as [product|] eqn:Ef; [|done].
  pose proof (find_product_elem _ _ _ Ef) as Hin. cbn [ok_or mbind outcome_bind]. intros H.
  destruct (negb (str_field product "lifecycleStatus" =s? "active")); [discriminate H|].
  destruct (_ <? Z.of_N _); [discriminate H|].
  destruct (Z.leb_spec (default 0 (i64_field "priceCents" product)) 0) as [|Hpos]; [discriminate H|].
  destruct (str_field product "sellerId" =s? short_user_id user_id) eqn:Es; [discriminate H|].
  do 2 (case_match; [discriminate H|]). injection H as <- <-. bools.
  destruct (i64_field "priceCents" product) as [price|] eqn:Ep; cbn in Hpos; [|lia]. cbn [default from_option id].
  split.
  - split; [|done]. exists product, price. split_and!; try done.
    unfold find_product in Ef. destruct (list_find _ _) as [[i p]|] eqn:El; [|done].
    injection Ef as <-. by apply list_find_Some in El as (_ & ? & _).
  - intros Hok Hq. rewrite Forall_forall in Hok. specialize (Hok _ Hin _ Ep).
    unfold quantity_ok, MAX_ITEM_QUANTITY in Hq. unfold item_amount, i64_field.
    change (get "priceCents" (validated_item _ _ _ _)) with (Some (of_i64 price)). cbn [mbind option_bind].
    rewrite as_i64_of_i64 by (unfold i64_max; lia). cbn. rewrite wrap_signed_id by nia. split; [done|nia].
Qed.

Lemma validate_cart_inv req user_id product_rows items total0 total snapshots :
  validate_cart req user_id product_rows items total0 = Ok (total, snapshots) →
  Forall2 (accepted user_id product_rows) items snapshots
  ∧ (Forall price_ok product_rows → Forall quantity_ok items → 0 ≤ total0 →
     total0 + 10 ^ 12 * Z.of_nat (length items) < 2 ^ 63 →
     total = total0 + cart_total snapshots
     ∧ Z.of_nat (length items) ≤ cart_total snapshots ≤ 10 ^ 12 * Z.of_nat (length items)).
Proof.
  revert total0 total snapshots. induction items as [|item items IH]; intros total0 total snapshots; cbn [validate_cart].
  { intros [= <- <-]. split; [constructor|]. cbn. lia. }
  destruct (validate_item _ _ _ _) as [[amount snapshot]| |] eqn:Ei; cbn [mbind outcome_bind]; try done.
  destruct (validate_cart _ _ _ items _) as [[t snaps]| |] eqn:Ec; cbn [mbind outcome_bind]; try done.
  intros [= <- <-]. apply validate_item_inv in Ei as [Ha Hamt].
  apply IH in Ec as [Hall Hsum]. split; [by constructor|]. intros Hp Hq H0 Hlt.
  inversion Hq as [|? ? Hq1 Hq2]; subst. destruct (Hamt Hp Hq1) as [-> Hb]. cbn [length] in *.
  rewrite wrap_signed_id in Hsum by lia. destruct Hsum as [-> ?]; [done|done|lia|lia|].
  unfold cart_total in *. cbn [fmap list_fmap foldr]. lia.
Qed.
End cart.

(** ** Reading leaves the tables alone *)
Section reads.
Context `{C : Chrono} `{P : PgJson} `{T : TextLib}.
Context (pg_invalid_bigint : string) (scan : rows → list (string * DocRow)).

Lemma keeps_ensure_first c table s : table_rows (ensure_table table s).1 c = table_rows s c.
Proof.
  pose proof (keeps_ensure c table s) as H. unfold db in H. exact H.
Qed.
Lemma keeps_select c table p : keeps c (select_where scan table p).
Proof. intros s. apply keeps_ensure_first. Qed.
Lemma keeps_count c table p : keeps c (count_where table p).
Proof. intros s. apply keeps_ensure_first. Qed.

Lemma keeps_find_coupon c code : keeps c (find_coupon scan code).
Proof.
  intros s. unfold find_coupon. pose proof (keeps_get c "coupons" code s) as Hg. unfold db in Hg.
  destruct (get_document "coupons" code s) as [s1 r]. cbn [fst] in Hg. destruct r as [doc|e|]; cbn; try done.
  - destruct (is_null doc); [|done]. rewrite <- Hg. apply keeps_bind; [apply keeps_select|done].
  - rewrite <- Hg. apply keeps_bind; [apply keeps_select|done].
Qed.

Lemma keeps_validate_coupon c now code user_id subtotal sellers :
  keeps c (validate_checkout_coupon scan now code user_id subtotal sellers).
Proof.
  unfold validate_checkout_coupon. cbv zeta.
  repeat (apply keeps_bind; [first [apply keeps_find_coupon|apply keeps_count|apply keeps_pure]|intros ?]).
  apply keeps_pure.
Qed.

Lemma keeps_fetch c ids : keeps c (fetch_products ids).
Proof.
  induction ids as [|pid ids IH]; [done|]. cbn [fetch_products].
  apply keeps_bind; [apply keeps_attempt, keeps_get|intros doc]. apply keeps_bind; [done|intros]. apply keeps_pure.
Qed.

Lemma keeps_sellers c ids : keeps c (check_sellers ids).
Proof.
  induction ids as [|sid ids IH]; [done|]. cbn [check_sellers].
  apply keeps_bind; [apply keeps_attempt, keeps_get|intros]. apply keeps_bind; [apply keeps_pure|intros].
  apply keeps_bind; [apply keeps_attempt, keeps_get|intros]. apply keeps_bind; [done|intros]. apply keeps_pure.
Qed.

Lemma keeps_quote c now req user_id : keeps c (quote_cart scan now req user_id).
Proof.
  unfold quote_cart. apply keeps_bind; [apply keeps_fetch|intros rows]. apply keeps_bind; [apply keeps_pure|intros _].
  apply keeps_bind; [apply keeps_pure|intros [raw items]]. cbv zeta. apply keeps_bind; [apply keeps_pure|intros _].
  apply keeps_bind; [apply keeps_sellers|intros profiles]. apply keeps_bind.
  - case_match; [|apply keeps_pure]. apply keeps_bind; [apply keeps_validate_coupon|intros [? ?]; apply keeps_pure].
  - intros [coupon discount]. case_match; apply keeps_pure.
Qed.
End reads.

(** ** The quote *)
Section quotes.
Context `{C : Chrono} `{P : PgJson} `{T : TextLib}.
Context (scan : rows → list (string * DocRow)) (scan_rows : ∀ rs, scan rs ≡ₚ map_to_list rs).
Local Open Scope Z_scope.

Definition stored_in (table : string) (s : store) (doc : Value) : Prop :=
  ∃ i row, table_rows s table !! i = Some row ∧ doc = row_to_doc i row.

Lemma fetch_stored ids s s' docs :
  fetch_products ids s = (s', Ok docs) → Forall (stored_in "products" s) docs.
Proof.
  revert s s' docs. induction ids as [|pid ids IH]; intros s s' docs H; cbn [fetch_products] in H.
  { by apply pure_ok in H as [-> [= <-]]. }
  run_inv H. run_inv H. apply pure_ok in H as [-> [= <-]].
  pose proof (keeps_run "products" _ _ _ _ (keeps_attempt _ _ (keeps_get "products" "products" pid)) R) as Hk.
  apply IH in R0. unfold stored_in in R0. rewrite Hk in R0.
  destruct a as [doc|]; [|done]. constructor; [|done].
  unfold attempt, get_document in R. rewrite with_table_valid in R by done. cbv beta zeta in R.
  rewrite table_rows_ensured in R. destruct (table_rows s "products" !! _) as [row|] eqn:E; [|done].
  injection R as _ <-. by do 2 eexists.
Qed.

Lemma find_coupon_found code s s' doc :
  find_coupon scan code s = (s', Ok doc) → stored_in "coupons" s doc.
Proof.
  unfold find_coupon, get_document. rewrite with_table_valid by done. cbv beta zeta.
  rewrite table_rows_ensured. intros H.
  assert (∀ s', (docs ← select_where scan "coupons" (λ row, bool_decide (field_text "code" (row_data row) = Some code));
    pure (ok_or not_available (head docs))) (ensured "coupons" s) = (s', Ok doc) → stored_in "coupons" s doc) as Hsel.
  { clear H s'. intros s' H. run_inv H. apply pure_ok in H as [-> H]. unfold select_where in R. cbv zeta in R.
    rewrite keeps_ensure_first, table_rows_ensured in R.
    injection R as _ <-. destruct (filter _ (scan (table_rows s "coupons"))) as [|[i row] l] eqn:E; [done|].
    injection H as <-. exists i, row. split; [|done]. apply elem_of_map_to_list. rewrite <- scan_rows.
    assert ((i, row) ∈ (i, row) :: l) as Hin by left. rewrite <- E in Hin. by apply list_elem_of_filter in Hin as [_ ?]. }
  destruct (table_rows s "coupons" !! bare_id "coupons" code) as [row|] eqn:E; cbn in H; [|by eapply Hsel].
  destruct (is_null _); [by eapply Hsel|]. injection H as _ <-. by do 2 eexists.
Qed.

(** The products and coupons of the shop: no absurd price, no negative discount. *)
Record shop_ok (s : store) : Prop := {
  shop_prices i row : table_rows s "products" !! i = Some row → price_ok (row_data row);
  shop_coupons i row : table_rows s "coupons" !! i = Some row →
    f64_valid (coupon_value (row_data row)) = true
    ∧ f64_leb (S754_zero false) (coupon_value (row_data row)) = true;
}.

Lemma stored_prices s docs : shop_ok s → Forall (stored_in "products" s) docs → Forall price_ok docs.
Proof.
  intros Hshop Hrows. eapply Forall_impl; [exact Hrows|]. intros p (i & row & Hrow & ->) z. unfold i64_field.
  rewrite get_row_to_doc by concrete. by apply (shop_prices _ Hshop i row Hrow).
Qed.

(** The two copies of the discount computation agree. *)
Lemma discounts_agree ty v subtotal :
  Coupon.compute_coupon_discount_cents ty v subtotal = compute_discount ty v subtotal.
Proof. done. Qed.


Lemma cart_coupon_leaves now code user_id raw sellers s s' code' d :
  shop_ok s → 0 ≤ raw ≤ 10 ^ 14 →
  validate_checkout_coupon scan now code user_id raw sellers s = (s', Ok (code', d)) →
  0 ≤ d ∧ (d = 0 ∨ 100 ≤ raw - d).
Proof.
  intros Hshop Hraw H. unfold validate_checkout_coupon in H. cbv zeta in H. run_inv H. run_inv H.
  apply find_coupon_found in R0 as (i & row & Hrow & ->). run_inv H. run_inv H. run_inv H. run_inv H. run_inv H.
  apply pure_ok in H as [_ H]. injection H as <- <-. rewrite discounts_agree.
  destruct (shop_coupons _ Hshop i row Hrow) as [Hv Hs].
  assert (coupon_value (row_to_doc i row) = coupon_value (row_data row)) as ->.
  { unfold coupon_value. by rewrite get_row_to_doc by concrete. }
  apply discount_leaves; [done|by right|done].
Qed.

Lemma tolerance_close client actual :
  0 ≤ client ≤ 10 ^ 14 → 0 ≤ actual ≤ 10 ^ 14 →
  subtotal_matches_with_tolerance client actual = true → Z.abs (client - actual) ≤ 200.
Proof.
  intros Hc Ha H. unfold subtotal_matches_with_tolerance in H. apply Z.leb_le in H.
  rewrite (wrap_signed_id 64 (client - actual)), wrap_signed_id in H by lia.
  unfold checkout_subtotal_tolerance in H. case_match; lia.
Qed.

(** What the server decides about a cart. *)
Record priced (s : store) (req : CreateCheckoutRequest) (user_id : string) (q : quote) : Prop := {
  pr_items : ∃ product_rows, Forall (stored_in "products" s) product_rows
    ∧ Forall2 (accepted user_id product_rows) (co_items req) (q_items q);
  pr_seller : (length (unique_seller_ids (q_items q)) ≤ 1)%nat;
  pr_subtotal : q_subtotal_cents q = cart_total (q_items q) - q_discount q;
  pr_discount : 0 ≤ q_discount q ∧ (q_discount q = 0 ∨ 100 ≤ q_subtotal_cents q);
  pr_range : 0 < q_subtotal_cents q ≤ 3 * 10 ^ 13 ∧ cart_total (q_items q) ≤ 3 * 10 ^ 13;
  pr_client : Z.abs (co_subtotal_cents req - q_subtotal_cents q) ≤ 200;
}.

Lemma quote_priced now req user_id s s' q :
  shop_ok s → Forall quantity_ok (co_items req) → (0 < length (co_items req) ≤ 30)%nat →
  0 ≤ co_subtotal_cents req ≤ MAX_CHECKOUT_SUBTOTAL_CENTS →
  quote_cart scan now req user_id s = (s', Ok q) → priced s req user_id q.
Proof.
  intros Hshop Hq Hlen Hclient H. unfold quote_cart in H. run_inv H. rename a into product_rows.
  pose proof (fetch_stored _ _ _ _ R) as Hrows.
  pose proof (stored_prices _ _ Hshop Hrows) as Hprices.
  assert (shop_ok s0) as Hshop0.
  { pose proof (λ c, keeps_run c _ _ _ _ (keeps_fetch c _) R) as Hk.
    split; intros i row; rewrite Hk; apply Hshop. }
  run_inv H. run_inv H. destruct a0 as [raw items]. cbv zeta in H.
  apply validate_cart_inv in R1 as [Hacc Hsum]. destruct Hsum as [-> Hraw]; [done|done|lia|lia|].
  run_inv H. destruct (1 <? length (unique_seller_ids items))%nat eqn:El; [discriminate R1|].
  run_inv H. run_inv H. destruct a2 as [coupon discount].
  assert (0 ≤ discount ∧ (discount = 0 ∨ 100 ≤ 0 + cart_total items - discount)) as Hd.
  { assert (shop_ok s1) as Hshop1.
    { pose proof (λ c, keeps_run c _ _ _ _ (keeps_sellers c _) R2) as Hk.
      split; intros i row; rewrite Hk; apply Hshop0. }
    destruct (requested_coupon req).
    - run_inv R3. destruct a2 as [code d]. apply pure_ok in R3 as [-> [= <- <-]].
      eapply cart_coupon_leaves; [exact Hshop1|lia|exact R4].
    - apply pure_ok in R3 as [-> [= <- <-]]. lia. }
  rewrite wrap_signed_id in H by lia.
  destruct (subtotal_matches_with_tolerance _ _) eqn:Et; cbn [negb] in H; apply pure_ok in H as [-> H]; [|done].
  injection H as <-. unfold MAX_CHECKOUT_SUBTOTAL_CENTS in Hclient.
  split; cbn [q_items q_discount q_subtotal_cents].
  - by exists product_rows.
  - apply Nat.ltb_ge in El. lia.
  - lia.
  - lia.
  - lia.
  - apply tolerance_close; [lia|lia|done].
Qed.
End quotes.

(** ** The transaction *)
Section transactions.
Context `{C : Chrono} `{P : PgJson} `{!PgJsonLaws P}.
Context (pg_invalid_bigint : string) (pg_missing_table pg_duplicate_key : string → string).
Abbreviation exec := (exec_statement pg_invalid_bigint pg_missing_table pg_duplicate_key).
Abbreviation commits := (commit_statements pg_invalid_bigint pg_missing_table pg_duplicate_key).
Local Open Scope Z_scope.

(** The results of a transaction are row counts, one per statement. *)
Definition row_count (v : Value) : Prop := ∃ n, v = VObject [("rows_affected", VNumber (PosInt n))].

(** A successful transaction ran every statement in order. *)
Inductive execs (db_now : Z) : list statement → store → store → Prop :=
| execs_nil s : execs db_now [] s s
| execs_cons st sts s s1 s2 n :
    exec db_now st s = Ok (s1, n) → execs db_now sts s1 s2 → execs db_now (st :: sts) s s2.

Lemma run_statements db_now tx s s' results :
  run_queries (λ st s, rows_affected (exec db_now st s)) tx s = Ok (s', results) →
  execs db_now tx s s' ∧ length results = length tx ∧ Forall row_count results.
Proof.
  revert s results. induction tx as [|st tx IH]; intros s results H; cbn [run_queries] in H.
  { injection H as <- <-. split_and!; [constructor|done|constructor]. }
  destruct (exec db_now st s) as [[s1 n]| |] eqn:E; try discriminate H.
  cbn [rows_affected map_err mbind outcome_bind] in H.
  destruct (run_queries _ tx s1) as [[s2 vs]| |] eqn:Er; try discriminate H.
  injection H as <- <-. apply IH in Er as (He & Hl & Hf).
  split_and!; [by econstructor|cbn; lia|constructor; [by exists n|done]].
Qed.

Lemma commit_runs db_now tx s s' results :
  commits db_now tx s = (s', Ok results) →
  execs db_now tx s s' ∧ length results = length tx ∧ Forall row_count results.
Proof.
  unfold commit_statements, commit. destruct tx as [|st tx].
  { intros [= <- <-]. split_and!; [constructor|done|constructor]. }
  destruct (run_queries _ (st :: tx) s) as [[s1 vs]| |] eqn:E; try done.
  intros [= <- <-]. by apply run_statements.
Qed.

(** One that fails changed nothing. *)
Lemma commit_fails db_now tx s s' r :
  commits db_now tx s = (s', r) → (∀ results, r ≠ Ok results) → s' = s.
Proof.
  unfold commit_statements, commit. destruct tx as [|st tx]; [intros [= <- <-] H; by destruct (H [])|].
  destruct (run_queries _ (st :: tx) s) as [[s1 vs]| |]; intros [= <- <-] H; try done. by destruct (H vs).
Qed.

(** The check of the reservations never refuses: a count of zero rows is an
    object, and the check looks for an empty array, null or nothing. *)
Lemma check_passes sts idx results :
  (idx + length sts ≤ length results)%nat → Forall row_count results →
  check_reservations sts idx results = Ok tt.
Proof.
  revert idx. induction sts as [|st sts IH]; intros idx Hl Hf; [done|]. cbn [check_reservations length] in *.
  destruct (results !! idx) as [v|] eqn:E; [|apply lookup_ge_None in E; lia].
  rewrite Forall_lookup in Hf. destruct (Hf _ _ E) as [n ->]. cbn [no_row].
  apply IH; [lia|by apply Forall_lookup].
Qed.

(** *** Stock *)

Definition row_stock (row : DocRow) : option Z := field_text "stockQuantity" (row_data row) ≫= parse_i64.
Definition stock_of (s : store) (pid : string) : option Z := table_rows s "products" !! pid ≫= row_stock.

(** What a statement does to the stock [n] of the product [pid]. *)
Definition reserve (pid : string) (n : Z) (st : statement) : Z :=
  match st with
  | ReserveStock p qty _ => if bool_decide (p = pid) && (Z.of_N qty <=? n) then n - Z.of_N qty else n
  | InsertDocument _ _ _ => n
  end.
Definition requested (pid : string) (st : statement) : Z :=
  match st with ReserveStock p qty _ => if bool_decide (p = pid) then Z.of_N qty else 0 | _ => 0 end.
Definition total_requested (pid : string) (sts : list statement) : Z := foldr Z.add 0 (requested pid <$> sts).

Lemma parse_i64_range text n : parse_i64 text = Some n → - 2 ^ 63 ≤ n ≤ i64_max.
Proof.
  unfold parse_i64. intros H. case_match. case_match; [done|]. destruct (digits_value 0 s); [|done]. cbn in H.
  destruct (Z.leb_spec (- 2 ^ 63) (if b then - Z.of_N n0 else Z.of_N n0)); [|done].
  destruct (Z.leb_spec (if b then - Z.of_N n0 else Z.of_N n0) i64_max); [|done]. cbn in H. injection H as <-. lia.
Qed.

Lemma reserved_row_stock qty now db_now row n :
  row_stock row = Some n → Z.of_N qty ≤ n →
  row_stock (reserved_row qty now n db_now row) = Some (n - Z.of_N qty).
Proof.
  intros Hn Hle. unfold row_stock, field_text in *. cbn [reserved_row row_data].
  destruct (get "stockQuantity" (row_data row) ≫= jsonb_as_text) as [text|] eqn:E; [|done].
  apply parse_i64_range in Hn. destruct (row_data row) as [| | | | |m]; try done.
  rewrite get_put_ne, get_put by done. cbn [mbind option_bind]. rewrite of_i64_text by lia.
  by apply parse_i64_pretty; lia.
Qed.

Lemma exec_stock db_now st s s' k pid n :
  exec db_now st s = Ok (s', k) → stock_of s pid = Some n → stock_of s' pid = Some (reserve pid n st).
Proof.
  intros H Hn. unfold stock_of, table_rows in *.
  destruct (s !! "products") as [ps|] eqn:Ep; [|by cbn in Hn]. cbn in Hn.
  destruct st as [table i data|p qty now]; cbn [exec_statement reserve] in *.
  - destruct (s !! table) as [rs|] eqn:Et; [|done]. destruct (rs !! i) eqn:Ei; [done|]. injection H as <- _.
    destruct (decide (table = "products")) as [->|Hne].
    + rewrite lookup_insert_eq. cbn. rewrite Ep in Et. injection Et as <-.
      by rewrite lookup_insert_ne by (intros ->; by rewrite Ei in Hn).
    + by rewrite lookup_insert_ne, Ep.
  - rewrite Ep in H. destruct (ps !! p) as [row|] eqn:Er.
    2:{ injection H as <- _. rewrite Ep. cbn. case_bool_decide as Hp; [|done]. subst p. by rewrite Er in Hn. }
    destruct (field_text "stockQuantity" (row_data row)) as [text|] eqn:Etext.
    2:{ injection H as <- _. rewrite Ep. cbn. case_bool_decide as Hp; [|done]. subst p.
        rewrite Er in Hn. unfold row_stock in Hn. cbn in Hn. by rewrite Etext in Hn. }
    destruct (parse_i64 text) as [stock|] eqn:Eparse; [|done].
    assert (row_stock row = Some stock) as Hrow by (unfold row_stock; by rewrite Etext).
    case_bool_decide as Hp; cbn [andb].
    + subst p. rewrite Er in Hn. cbn in Hn. rewrite Hrow in Hn. injection Hn as <-.
      destruct (Z.leb_spec (Z.of_N qty) stock); injection H as <- _.
      * rewrite lookup_insert_eq. cbn. rewrite lookup_insert_eq. cbn. by apply reserved_row_stock.
      * rewrite Ep. cbn. by rewrite Er.
    + destruct (Z.leb_spec (Z.of_N qty) stock); injection H as <- _.
      * rewrite lookup_insert_eq. cbn. by rewrite lookup_insert_ne.
      * by rewrite Ep.
Qed.

Lemma execs_stock db_now sts s s' pid n :
  execs db_now sts s s' → stock_of s pid = Some n → stock_of s' pid = Some (foldl (reserve pid) n sts).
Proof.
  intros H. revert n. induction H as [s|st sts s s1 s2 k He _ IH]; intros n Hn; [done|].
  cbn [foldl]. apply IH. by eapply exec_stock.
Qed.

Lemma reserve_bounds pid sts n :
  foldl (reserve pid) n sts ≤ n ∧ (0 ≤ n → 0 ≤ foldl (reserve pid) n sts)
  ∧ (total_requested pid sts ≤ n → foldl (reserve pid) n sts = n - total_requested pid sts).
Proof.
  assert (∀ st, 0 ≤ requested pid st) as Hr by (intros []; cbn; [lia|case_bool_decide; lia]).
  assert (∀ sts, 0 ≤ total_requested pid sts) as Ht.
  { induction sts0 as [|st sts0 IH]; [done|]. unfold total_requested in *. cbn. specialize (Hr st). lia. }
  revert n. induction sts as [|st sts IH]; intros n; [cbn; lia|].
  specialize (Ht sts). unfold total_requested in *. cbn [foldl fmap list_fmap foldr].
  destruct (IH (reserve pid n st)) as (H1 & H2 & H3).
  assert (reserve pid n st ≤ n ∧ (0 ≤ n → 0 ≤ reserve pid n st)
          ∧ (requested pid st ≤ n → reserve pid n st = n - requested pid st)) as (R1 & R2 & R3).
  { destruct st as [|p qty now]; cbn; [lia|]. case_bool_decide; cbn; [|lia]. destruct (Z.leb_spec (Z.of_N qty) n); lia. }
  split_and!; [lia|auto|]. intros Hle. rewrite H3; rewrite R3; lia.
Qed.

(** *** The rows inserted *)

Definition inserted (table : string) (db_now : Z) (rs : rows) (st : statement) : rows :=
  match st with
  | InsertDocument t i data =>
      if bool_decide (t = table)
      then <[i := {| row_data := data; row_created_at := db_now; row_updated_at := db_now |}]> rs else rs
  | ReserveStock _ _ _ => rs
  end.

Lemma exec_inserted db_now st s s' k table :
  table ≠ "products" → exec db_now st s = Ok (s', k) →
  table_rows s' table = inserted table db_now (table_rows s table) st
  ∧ ∀ i data, st = InsertDocument table i data → table_rows s table !! i = None.
Proof.
  intros Hne H. destruct st as [t i data|p qty now]; cbn [exec_statement inserted] in *.
  - destruct (s !! t) as [rs|] eqn:Et; [|done]. destruct (rs !! i) eqn:Ei; [done|]. injection H as <- _.
    assert (table_rows s t = rs) as Hrs by (unfold table_rows; by rewrite Et).
    case_bool_decide as Heq; [subst t; rewrite table_rows_insert, Hrs|rewrite table_rows_insert_ne by done].
    + split; [done|]. by intros ? ? [= <- <-].
    + split; [done|]. by intros ? ? [= ? ? ?].
  - split; [|done]. repeat (case_match; try done); injection H as <- _; try done.
    by rewrite table_rows_insert_ne.
Qed.

Lemma execs_inserted db_now sts s s' table :
  table ≠ "products" → execs db_now sts s s' →
  table_rows s' table = foldl (inserted table db_now) (table_rows s table) sts.
Proof.
  intros Hne H. induction H as [s|st sts s s1 s2 k He _ IH]; [done|]. cbn [foldl].
  destruct (exec_inserted _ _ _ _ _ table Hne He) as [<- _]. exact IH.
Qed.
End transactions.

(** ** The handler *)
Section guarantees.
Context `{C : Chrono} `{P : PgJson} `{T : TextLib} `{!PgJsonLaws P}.
Context (pg_invalid_bigint : string) (scan : rows → list (string * DocRow)) (scan_rows : ∀ rs, scan rs ≡ₚ map_to_list rs).
Context (pg_missing_table pg_duplicate_key : string → string).
Context (validate_turnstile : string → string → Result unit) (stripe : string → list (string * string) → stripe_reply).
Abbreviation checkout := (create_checkout_session pg_invalid_bigint scan pg_missing_table pg_duplicate_key
  validate_turnstile stripe).
Abbreviation executes := (execs pg_invalid_bigint pg_missing_table pg_duplicate_key).

(** Every table but the limiter's is as before. *)
Definition same_tables (s s' : store) : Prop := ∀ c, c ≠ "rate_limits" → table_rows s' c = table_rows s c.
Lemma same_tables_keeps {A} (m : handler A) s s1 s2 r :
  same_tables s s1 → (∀ c, c ≠ "rate_limits" → keeps c m) → m s1 = (s2, r) → same_tables s s2.
Proof. intros Hs Hk H c Hc. rewrite <- (Hs c Hc). by apply (keeps_run c m s1 s2 r (Hk c Hc)). Qed.

Definition used_key (e : checkout_env) (req : CreateCheckoutRequest) (user_id : string) : string :=
  default ("checkout_" +:+ user_id +:+ "_" +:+ pretty (ke_millis e)) (co_idempotency_key req).
Definition placed_document (e : checkout_env) (req : CreateCheckoutRequest)
    (user_id province postal session_id : string) (q : quote) (a : amounts) : Value :=
  order_document (ke_order_id e) user_id (to_rfc3339 (ke_now e)) session_id (used_key e req user_id)
    province postal (co_shipping_address req) q a.

(** An order placed: the cart as it was priced, the session Stripe opened for
    it and the transaction. *)
Record placed (e : checkout_env) (auth : AuthContext) (req : CreateCheckoutRequest) (s s' : store)
    (resp : CheckoutResponse) (user_id province postal session_id : string) (q : quote) (a : amounts) : Prop := {
  pl_user : resolve_self_user_id auth (co_user_id req) "userId" = Ok user_id;
  pl_request : check_request req = Ok (province, postal);
  pl_quote : ∃ s1 s2, same_tables s s1 ∧ quote_cart scan (ke_coupon_now e) req user_id s1 = (s2, Ok q);
  pl_new : ∀ i row, table_rows s "orders" !! i = Some row → same_key user_id (used_key e req user_id) row = false;
  pl_amounts : checkout_amounts (q_subtotal_cents q) province (q_items q) = Ok a;
  pl_session : session_of (stripe (used_key e req user_id) (session_form (ke_order_id e) user_id q a))
               = Ok (session_id, cr_checkout_url resp);
  pl_executes : ∃ s1, same_tables s s1 ∧ executes (ke_db_now e)
    (order_head (ke_order_id e) user_id (to_rfc3339 (ke_now e)) q
       (placed_document e req user_id province postal session_id q a)
     ++ reservations (to_rfc3339 (ke_now e)) q) s1 s';
  pl_order : cr_checkout_order_id resp = ke_order_id e;
}.

Lemma place_order_cases e auth req s s1 s' user_id province postal q r :
  resolve_self_user_id auth (co_user_id req) "userId" = Ok user_id → check_request req = Ok (province, postal) →
  (∃ s1 s2, same_tables s s1 ∧ quote_cart scan (ke_coupon_now e) req user_id s1 = (s2, Ok q)) →
  (∀ i row, table_rows s "orders" !! i = Some row → same_key user_id (used_key e req user_id) row = false) →
  same_tables s s1 →
  place_order pg_invalid_bigint pg_missing_table pg_duplicate_key stripe e req user_id province postal
    (used_key e req user_id) q s1 = (s', r) →
  same_tables s s' ∧ (∀ resp, r ≠ Ok resp)
  ∨ ∃ resp session_id a, r = Ok resp ∧ cr_duplicate resp = false
      ∧ placed e auth req s s' resp user_id province postal session_id q a.
Proof.
  intros Hu Hreq Hq Hnew Hs H. unfold place_order in H. cbv zeta in H.
  unfold mbind at 1, handler_bind at 1, pure at 1 in H.
  destruct (checkout_amounts _ _ _) as [a| |] eqn:Ea; [|injection H as <- <-; by left..].
  unfold mbind at 1, handler_bind at 1, pure at 1 in H.
  destruct (ok_or _ (ke_stripe_key e)) as [key| |]; [|injection H as <- <-; by left..].
  unfold mbind at 1, handler_bind at 1, pure at 1 in H.
  destruct (session_of _) as [[session_id url]| |] eqn:Es; [|injection H as <- <-; by left..].
  unfold mbind at 1, handler_bind at 1, db_map_err at 1 in H.
  destruct (commit_statements _ _ _ _ _ s1) as [s2 cr] eqn:Ec.
  destruct cr as [results|err|]; cbn [map_err] in H.
  2, 3: injection H as <- <-; left; split; [|done]; apply commit_fails in Ec; [by subst|done].
  apply commit_runs in Ec as (He & Hl & Hf). unfold mbind, handler_bind, pure in H.
  rewrite check_passes in H by (done || (rewrite Hl, length_app; lia)). injection H as <- <-.
  right. do 3 eexists. split; [done|]. split; [done|]. constructor; try done. by exists s1.
Qed.

Lemma no_existing user_id key s s' :
  select_where scan "orders" (same_key user_id key) s = (s', Ok []) →
  ∀ i row, table_rows s "orders" !! i = Some row → same_key user_id key row = false.
Proof.
  unfold select_where. cbv zeta. rewrite keeps_ensure_first. intros [= _ H] i row Hrow.
  apply fmap_nil_inv in H. apply not_true_is_false. intros Hk.
  assert ((i, row) ∈ filter (λ kr : string * DocRow, same_key user_id key kr.2 = true) (scan (table_rows s "orders"))) as Hin.
  { apply list_elem_of_filter. split; [done|]. rewrite scan_rows. by apply elem_of_map_to_list. }
  rewrite H in Hin. by apply not_elem_of_nil in Hin.
Qed.

Lemma first_existing user_id key s s' order orders :
  select_where scan "orders" (same_key user_id key) s = (s', Ok (order :: orders)) →
  ∃ i row, table_rows s "orders" !! i = Some row ∧ same_key user_id key row = true ∧ order = row_to_doc i row.
Proof.
  unfold select_where. cbv zeta. rewrite keeps_ensure_first. intros [= _ H].
  apply fmap_cons_inv in H as ([i row] & l & -> & _ & Hf). exists i, row.
  assert ((i, row) ∈ (i, row) :: l) as Hin by left. rewrite <- Hf in Hin.
  apply list_elem_of_filter in Hin as [Hk Hin]. split_and!; [|done|done].
  apply elem_of_map_to_list. by rewrite <- scan_rows.
Qed.

(** The answer to a request that repeats an earlier one. *)
Definition answered (e : checkout_env) (auth : AuthContext) (req : CreateCheckoutRequest) (s : store)
    (resp : CheckoutResponse) : Prop :=
  ∃ user_id i row, resolve_self_user_id auth (co_user_id req) "userId" = Ok user_id
    ∧ table_rows s "orders" !! i = Some row ∧ same_key user_id (used_key e req user_id) row = true
    ∧ resp = duplicate_response (row_to_doc i row).

(** Every run of the handler. *)
Lemma checkout_cases e auth req s s' r :
  checkout e auth req s = (s', r) →
  same_tables s s' ∧ (∀ resp, r = Ok resp → answered e auth req s resp)
  ∨ ∃ resp user_id province postal session_id q a, r = Ok resp ∧ cr_duplicate resp = false
      ∧ placed e auth req s s' resp user_id province postal session_id q a.
Proof.
  assert (same_tables s s) as Hs0 by done. intros H. unfold create_checkout_session in H.
  unfold mbind at 1, handler_bind at 1, pure at 1 in H.
  destruct (bot_check _ _ _) as [[]| |]; [|injection H as <- <-; by left..].
  unfold mbind at 1, handler_bind at 1, pure at 1 in H.
  destruct (resolve_self_user_id _ _ _) as [user_id| |] eqn:Eu; [|injection H as <- <-; by left..].
  unfold mbind at 1, handler_bind at 1, pure at 1 in H.
  destruct (validate_uid _ _) as [[]| |]; [|injection H as <- <-; by left..].
  unfold mbind at 1, handler_bind at 1 in H.
  destruct (check_user_rate_limit _ _ _ _ _ _ _ _ _ s) as [s1 lim] eqn:El.
  assert (same_tables s s1) as Hs1.
  { eapply same_tables_keeps; [exact Hs0| |exact El]. intros. by apply keeps_rate_limit. }
  destruct lim as [[]| |]; [|injection H as <- <-; by left..].
  unfold mbind at 1, handler_bind at 1, pure at 1 in H.
  destruct (check_request req) as [[province postal]| |] eqn:Er; [|injection H as <- <-; by left..].
  unfold mbind at 1, handler_bind at 1 in H. destruct (quote_cart _ _ _ _ s1) as [s2 qr] eqn:Eq.
  assert (same_tables s s2) as Hs2.
  { eapply same_tables_keeps; [exact Hs1| |exact Eq]. intros. apply keeps_quote. }
  destruct qr as [q| |]; [|injection H as <- <-; by left..]. cbv zeta in H. fold (used_key e req user_id) in H.
  unfold mbind at 1, handler_bind at 1 in H.
  destruct (select_where _ _ _ s2) as [s3 sel] eqn:Esel.
  assert (same_tables s s3) as Hs3.
  { eapply same_tables_keeps; [exact Hs2| |exact Esel]. intros. apply keeps_select. }
  destruct sel as [existing| |]; [|injection H as <- <-; by left..].
  destruct existing as [|order existing]; cbn [head] in H.
  - eapply place_order_cases in H as [[Hs' Hr]|(resp & session_id & a & -> & Hd & Hp)].
    + left. split; [done|]. intros resp ->. by destruct (Hr resp).
    + right. by do 7 eexists.
    + done.
    + done.
    + by exists s1, s2.
    + intros i row. rewrite <- (Hs2 "orders" ltac:(done)). by eapply no_existing.
    + done.
  - injection H as <- <-. left. split; [done|]. intros ? [= <-].
    apply first_existing in Esel as (i & row & Hrow & Hk & ->). exists user_id, i, row.
    by rewrite (Hs2 "orders" ltac:(done)) in Hrow.
Qed.

Lemma answered_duplicate e auth req s resp : answered e auth req s resp → cr_duplicate resp = true.
Proof. by intros (? & ? & ? & _ & _ & _ & ->). Qed.

(** C34: a checkout is all or nothing: a request that fails, or that repeats one
    already answered, changes no table but the limiter's, and none of its
    failures is reported after the order was written. *)
Theorem checkout_all_or_nothing e auth req s s' r :
  checkout e auth req s = (s', r) → (∀ resp, r = Ok resp → cr_duplicate resp = true) → same_tables s s'.
Proof.
  intros H Hr. destruct (checkout_cases _ _ _ _ _ _ H) as [[Hs _]|(resp & ? & ? & ? & ? & ? & ? & -> & Hd & _)]; [done|].
  specialize (Hr resp eq_refl). congruence.
Qed.

(** The row a placed order leaves, and no other in its table. *)
Lemma placed_row e auth req s s' resp user_id province postal session_id q a :
  placed e auth req s s' resp user_id province postal session_id q a →
  table_rows s "orders" !! ke_order_id e = None
  ∧ table_rows s' "orders"
    = <[ke_order_id e := {| row_data := placed_document e req user_id province postal session_id q a;
                            row_created_at := ke_db_now e; row_updated_at := ke_db_now e |}]> (table_rows s "orders").
Proof.
  intros Hp. destruct (pl_executes _ _ _ _ _ _ _ _ _ _ _ _ Hp) as (s1 & Hs1 & He).
  rewrite <- (Hs1 "orders" ltac:(done)). split.
  - inversion He as [|st sts s2 s3 s4 n Hex _]; subst.
    by eapply (exec_inserted _ _ _ _ _ _ _ _ "orders" ltac:(done) Hex).
  - rewrite (execs_inserted _ _ _ _ _ _ _ "orders" ltac:(done) He).
    unfold order_head. cbn [app foldl inserted]. rewrite bool_decide_eq_true_2 by done.
    set (rs := <[_ := _]> _). clearbody rs.
    assert (∀ sts, Forall (λ st, ∀ i d, st ≠ InsertDocument "orders" i d) sts → foldl (inserted "orders" (ke_db_now e)) rs sts = rs) as Hrest.
    { induction sts as [|st sts IH]; intros Hf; [done|]. inversion Hf as [|? ? Hst Hsts]; subst. cbn [foldl].
      destruct st as [t i d|]; cbn [inserted]; [|by apply IH]. case_bool_decide as Ht; [subst; by destruct (Hst i d)|by apply IH]. }
    apply Hrest, Forall_app. split; [destruct (q_coupon q); repeat constructor; intros ? ? [=]|].
    apply Forall_forall. intros st Hst i d ->. unfold reservations in Hst. apply list_elem_of_omap in Hst as (item & _ & Hr).
    unfold reservation in Hr. by repeat case_match.
Qed.

(** *** Stock *)

(** How many units of a product an order's items take from the stock. *)
Definition item_units (pid : string) (item : Value) : Z :=
  if bool_field item "isDigital" then 0%Z
  else if str_field item "productId" =s? pid then Z.of_N (default 0%N (get "quantity" item ≫= as_u64)) else 0%Z.
Definition order_units (pid : string) (order : Value) : Z := foldr Z.add 0%Z (item_units pid <$> items_array order).

Lemma check_items_ids items :
  check_items items = Ok tt → Forall (λ item, is_ok (validate_document_id (ci_product_id item)) = true) items.
Proof.
  induction items as [|item items IH]; [constructor|]. cbn [check_items]. unfold check_item.
  destruct (str_empty _); [done|]. destruct (validate_document_id _) eqn:E; cbn [mbind outcome_bind]; try done.
  case_match; [done|]. intros Hrest. constructor; [by rewrite E|by apply IH].
Qed.

Lemma reservation_units pid now user_id product_rows item snapshot :
  accepted user_id product_rows item snapshot →
  is_ok (validate_document_id (ci_product_id item)) = true → quantity_ok item →
  match reservation now snapshot with Some st => requested pid st | None => 0%Z end = item_units pid snapshot.
Proof.
  intros [(product & price & _ & _ & _ & _ & ->) _] Hid Hq. unfold reservation, item_units, quantity_ok in *.
  change (str_field (validated_item _ _ _ _) "productId") with (ci_product_id item).
  change (get "quantity" (validated_item _ _ _ _)) with (Some (VNumber (PosInt (ci_quantity item)))).
  change (bool_field (validated_item _ _ _ _) "isDigital") with (bool_field product "isDigital").
  cbn [mbind option_bind as_u64 default from_option id]. destruct (bool_field product "isDigital"); [done|]. rewrite Hid.
  replace (0 <? ci_quantity item)%N with true by (symmetry; apply N.ltb_lt; lia). done.
Qed.

Lemma reservations_units pid now user_id product_rows items snapshots :
  Forall2 (accepted user_id product_rows) items snapshots →
  Forall (λ item, is_ok (validate_document_id (ci_product_id item)) = true) items → Forall quantity_ok items →
  total_requested pid (omap (reservation now) snapshots) = foldr Z.add 0%Z (item_units pid <$> snapshots).
Proof.
  intros H. induction H as [|item snapshot items snapshots Ha _ IH]; intros Hid Hq; [done|].
  inversion Hid; inversion Hq; subst. pose proof (reservation_units pid now _ _ _ _ Ha ltac:(done) ltac:(done)) as Hr.
  cbn [omap list_omap fmap list_fmap foldr]. rewrite <- IH, <- Hr by done. unfold total_requested.
  by destruct (reservation now snapshot).
Qed.

Lemma check_request_items req province postal :
  check_request req = Ok (province, postal) →
  check_items (co_items req) = Ok tt ∧ (0 < length (co_items req) ≤ 30)
  ∧ (0 ≤ co_subtotal_cents req ≤ MAX_CHECKOUT_SUBTOTAL_CENTS)%Z.
Proof.
  unfold check_request. cbv zeta. intros H.
  case_bool_decide as Hne; [discriminate H|]. destruct (MAX_CART_ITEMS <? _) eqn:El; [discriminate H|].
  cbn [mbind outcome_bind] in H. destruct (check_items (co_items req)) as [[]| |]; try discriminate H.
  cbn [mbind outcome_bind] in H. destruct (Z.ltb_spec (co_subtotal_cents req) 0); [discriminate H|].
  destruct (Z.ltb_spec MAX_CHECKOUT_SUBTOTAL_CENTS (co_subtotal_cents req)); [discriminate H|].
  apply Nat.ltb_ge in El. unfold MAX_CART_ITEMS in El. split; [done|].
  split; [destruct (co_items req); [done|cbn in *; lia]|lia].
Qed.

Lemma placed_accepted e auth req s s' resp user_id province postal session_id q a :
  placed e auth req s s' resp user_id province postal session_id q a →
  ∃ product_rows, Forall2 (accepted user_id product_rows) (co_items req) (q_items q).
Proof.
  intros Hp. destruct (pl_quote _ _ _ _ _ _ _ _ _ _ _ _ Hp) as (s1 & s2 & _ & Hq).
  unfold quote_cart in Hq. run_inv Hq. run_inv Hq. run_inv Hq. destruct a2 as [raw items]. cbv zeta in Hq.
  apply validate_cart_inv in R1 as [Hacc _]. do 2 run_inv Hq. run_inv Hq. destruct a4 as [coupon discount].
  exists a0. case_match; apply pure_ok in Hq as [-> Hq]; [done|]. by injection Hq as <-.
Qed.

Lemma placed_units pid e auth req s s' resp user_id province postal session_id q a :
  placed e auth req s s' resp user_id province postal session_id q a →
  total_requested pid (order_head (ke_order_id e) user_id (to_rfc3339 (ke_now e)) q
       (placed_document e req user_id province postal session_id q a)
     ++ reservations (to_rfc3339 (ke_now e)) q)
  = order_units pid (placed_document e req user_id province postal session_id q a).
Proof.
  intros Hp. destruct (check_request_items _ _ _ (pl_request _ _ _ _ _ _ _ _ _ _ _ _ Hp)) as (Hc & _ & _).
  destruct (placed_accepted _ _ _ _ _ _ _ _ _ _ _ _ Hp) as [rows Hacc].
  unfold total_requested. rewrite fmap_app, foldr_app. unfold order_head.
  match goal with |- foldr _ ?z (_ <$> (_ :: ?l)) = _ =>
    assert (foldr Z.add z (requested pid <$> (InsertDocument "orders" (ke_order_id e)
      (placed_document e req user_id province postal session_id q a) :: l)) = z) as -> by (destruct (q_coupon q); cbn; lia) end.
  change (order_units pid _) with (foldr Z.add 0%Z (item_units pid <$> q_items q)).
  eapply reservations_units; [exact Hacc|by apply check_items_ids|by apply check_items_ok].
Qed.

(** C8: the stock of a product never rises through a checkout and never falls
    below zero, whatever becomes of the request; when an order is placed whose
    units are in stock, exactly these units are taken. *)
Theorem checkout_reserves_stock e auth req s s' r pid n :
  checkout e auth req s = (s', r) → stock_of s pid = Some n →
  ∃ n', stock_of s' pid = Some n' ∧ (n' ≤ n)%Z ∧ ((0 ≤ n)%Z → (0 ≤ n')%Z)
    ∧ ∀ resp, r = Ok resp → cr_duplicate resp = false →
        ∃ row, table_rows s' "orders" !! cr_checkout_order_id resp = Some row
          ∧ ((order_units pid (row_data row) ≤ n)%Z → n' = (n - order_units pid (row_data row))%Z).
Proof.
  intros H Hn. assert (∀ s1, same_tables s s1 → stock_of s1 pid = Some n) as Hsame.
  { intros s1 Hs. unfold stock_of in *. by rewrite (Hs "products"). }
  destruct (checkout_cases _ _ _ _ _ _ H) as [[Hs Hr]|(resp & u & pr & po & sid & q & a & -> & Hd & Hp)].
  { exists n. split; [by apply Hsame|]. split_and!; [lia|done|]. intros resp -> Hd. specialize (answered_duplicate _ _ _ _ _ (Hr _ eq_refl)). congruence. }
  destruct (pl_executes _ _ _ _ _ _ _ _ _ _ _ _ Hp) as (s1 & Hs1 & He).
  eexists. split; [by eapply execs_stock; [exact He|by apply Hsame]|].
  match goal with |- context [foldl (reserve pid) n ?sts] => destruct (reserve_bounds pid sts n) as (H1 & H2 & H3) end.
  split_and!; [done|done|]. intros resp' [= <-] _. rewrite (placed_units pid _ _ _ _ _ _ _ _ _ _ _ _ Hp) in H3.
  destruct (placed_row _ _ _ _ _ _ _ _ _ _ _ _ Hp) as [_ ->]. rewrite (pl_order _ _ _ _ _ _ _ _ _ _ _ _ Hp).
  eexists. split; [apply lookup_insert_eq|]. exact H3.
Qed.

(** *** Money *)

Lemma same_shop s s1 : same_tables s s1 → shop_ok s → shop_ok s1.
Proof. intros Hs [Hp Hc]. split; intros i row; rewrite Hs by done; [apply Hp|apply Hc]. Qed.

Lemma placed_priced e auth req s s' resp user_id province postal session_id q a :
  shop_ok s → placed e auth req s s' resp user_id province postal session_id q a →
  priced s req user_id q ∧ amounts_exact (q_subtotal_cents q) province a.
Proof.
  intros Hshop Hp. destruct (check_request_items _ _ _ (pl_request _ _ _ _ _ _ _ _ _ _ _ _ Hp)) as (Hc & Hl & Hclient).
  destruct (pl_quote _ _ _ _ _ _ _ _ _ _ _ _ Hp) as (s1 & s2 & Hs1 & Hq).
  eapply quote_priced in Hq as Hpr; [|exact scan_rows|by eapply same_shop|by apply check_items_ok|done|done].
  split; [|eapply checkout_amounts_exact; [|by eapply pl_amounts]; pose proof (pr_range _ _ _ _ Hpr); lia].
  destruct Hpr as [(rows & Hrows & Hacc) ? ? ? ? ?]. split; [|done..]. exists rows. split; [|done].
  eapply Forall_impl; [exact Hrows|]. intros doc (i & row & Hrow & ->). exists i, row.
  by rewrite <- (Hs1 "products").
Qed.

(** An order and the form sent to Stripe for it agree to the cent. *)
Record billed (client : Z) (province : string) (order : Value) (form : list (string * string))
    (subtotal shipping tax discount : Z) : Prop := {
  b_subtotal : i64_field "subtotalCents" order = Some subtotal;
  b_shipping : i64_field "shippingCostCents" order = Some shipping;
  b_tax : i64_field "taxAmountCents" order = Some tax;
  b_discount : i64_field "discountAmountCents" order = Some discount;
  b_total : i64_field "totalAmountCents" order = Some (subtotal + shipping + tax)%Z;
  b_charged : foldr Z.add 0%Z (charged form) = (subtotal + shipping + tax)%Z;
  b_items : subtotal = (cart_total (items_array order) - discount)%Z;
  b_client : (Z.abs (client - subtotal) ≤ 200)%Z;
  b_positive : (0 < subtotal ∧ 0 ≤ shipping ∧ 0 ≤ tax ∧ 0 ≤ discount)%Z;
  b_minimum : (discount = 0 ∨ 100 ≤ subtotal)%Z;
  b_rate : (- 5000 ≤ (subtotal + shipping) * province_tax_rate_bps province - 10000 * tax < 5001)%Z;
}.

(** C7: the customer is charged what the order says.  For every order placed in
    a shop without absurd prices or negative coupons, the line items sent to
    Stripe add up to the stored total; the total is subtotal, shipping and tax;
    the subtotal is the stored prices times the quantities less the discount,
    within two dollars of what the client expected; a discount leaves at least
    one dollar; and the tax is the province's rate rounded to the cent. *)
Theorem checkout_charges_order_total e auth req s s' resp :
  shop_ok s → checkout e auth req s = (s', Ok resp) → cr_duplicate resp = false →
  ∃ row key form session province subtotal shipping tax discount,
    table_rows s' "orders" !! cr_checkout_order_id resp = Some row
    ∧ session_of (stripe key form) = Ok session
    ∧ billed (co_subtotal_cents req) province (row_data row) form subtotal shipping tax discount.
Proof.
  intros Hshop H Hd. destruct (checkout_cases _ _ _ _ _ _ H) as [[_ Hr]|(? & u & pr & po & sid & q & a & [= <-] & _ & Hp)].
  { specialize (answered_duplicate _ _ _ _ _ (Hr _ eq_refl)). congruence. }
  destruct (placed_priced _ _ _ _ _ _ _ _ _ _ _ _ Hshop Hp) as [Hpr Ha].
  destruct (placed_row _ _ _ _ _ _ _ _ _ _ _ _ Hp) as [_ ->]. rewrite (pl_order _ _ _ _ _ _ _ _ _ _ _ _ Hp).
  eexists. exists (used_key e req u), (session_form (ke_order_id e) u q a). do 2 eexists.
  exists (q_subtotal_cents q), (am_shipping a), (am_tax a), (q_discount q).
  split; [apply lookup_insert_eq|]. split; [by eapply pl_session|].
  pose proof (pr_range _ _ _ _ Hpr). destruct Ha as [Hs Ht Hrate Htot Hfee].
  assert (am_tax a ≤ 10 ^ 14)%Z by (pose proof (tax_rate_bound pr); nia).
  pose proof (pr_discount _ _ _ _ Hpr) as Hdis. pose proof (pr_subtotal _ _ _ _ Hpr) as Hsub.
  assert (∀ k z, get k (placed_document e req u pr po sid q a) = Some (of_i64 z) → (z ≤ i64_max)%Z →
    i64_field k (placed_document e req u pr po sid q a) = Some z) as Hfield.
  { intros k z Hk Hz. unfold i64_field. rewrite Hk. by apply as_i64_of_i64. }
  split; cbn [row_data]; try (apply Hfield; [done|unfold i64_max; lia]).
  - rewrite <- Htot. apply Hfield; [done|unfold i64_max; lia].
  - apply form_charged; unfold i64_max; lia.
  - exact Hsub.
  - apply Hpr.
  - lia.
  - lia.
  - exact Hrate.
Qed.

(** *** Retries *)

Lemma placed_key e auth req s s' resp user_id province postal session_id q a now :
  placed e auth req s s' resp user_id province postal session_id q a →
  same_key user_id (used_key e req user_id)
    {| row_data := placed_document e req user_id province postal session_id q a;
       row_created_at := now; row_updated_at := now |} = true.
Proof.
  intros _. unfold same_key. apply andb_true_iff. split; apply bool_decide_eq_true; reflexivity.
Qed.

(** Repeating a checkout with its idempotency key places no second order:
    whatever the later request of the same user holds, no table changes, and an
    answer names the order that was placed. *)
Theorem checkout_retry_idempotent e auth req s s1 resp e' auth' req' s2 r key :
  checkout e auth req s = (s1, Ok resp) → cr_duplicate resp = false →
  co_idempotency_key req = Some key → co_idempotency_key req' = Some key →
  resolve_self_user_id auth' (co_user_id req') "userId" = resolve_self_user_id auth (co_user_id req) "userId" →
  checkout e' auth' req' s1 = (s2, r) →
  same_tables s1 s2
  ∧ ∀ resp', r = Ok resp' → cr_duplicate resp' = true ∧ cr_checkout_order_id resp' = cr_checkout_order_id resp.
Proof.
  intros H Hd Hk Hk' Hu H'.
  destruct (checkout_cases _ _ _ _ _ _ H) as [[_ Hr]|(? & u & pr & po & sid & q & a & [= <-] & _ & Hp)].
  { specialize (answered_duplicate _ _ _ _ _ (Hr _ eq_refl)). congruence. }
  destruct (placed_row _ _ _ _ _ _ _ _ _ _ _ _ Hp) as [Hnone Hrows].
  pose proof (placed_key _ _ _ _ _ _ _ _ _ _ _ _ (ke_db_now e) Hp) as Hkey.
  pose proof (pl_new _ _ _ _ _ _ _ _ _ _ _ _ Hp) as Hnew. rewrite (pl_user _ _ _ _ _ _ _ _ _ _ _ _ Hp) in Hu.
  assert (used_key e' req' u = used_key e req u) as Huk by (unfold used_key; by rewrite Hk, Hk').
  destruct (checkout_cases _ _ _ _ _ _ H') as [[Hs Hr]|(? & u' & ? & ? & ? & ? & ? & -> & _ & Hp')].
  - split; [done|]. intros resp' ->. destruct (Hr _ eq_refl) as (u' & i & row & Hu' & Hrow & Hsame & ->).
    split; [done|]. rewrite Hu in Hu'. injection Hu' as <-. rewrite Huk in Hsame. rewrite Hrows in Hrow.
    apply lookup_insert_Some in Hrow as [[<- <-]|[_ Hrow]].
    + rewrite (pl_order _ _ _ _ _ _ _ _ _ _ _ _ Hp). cbn [duplicate_response cr_checkout_order_id].
      by rewrite str_field_doc by concrete.
    + rewrite (Hnew _ _ Hrow) in Hsame. done.
  - exfalso. pose proof (pl_user _ _ _ _ _ _ _ _ _ _ _ _ Hp') as Hu'. rewrite Hu in Hu'. injection Hu' as <-.
    pose proof (pl_new _ _ _ _ _ _ _ _ _ _ _ _ Hp' (ke_order_id e)) as Hc. rewrite Hrows in Hc.
    specialize (Hc _ (lookup_insert_eq _ _ _)). rewrite Huk in Hc. rewrite Hkey in Hc. done.
Qed.

(** *** What the order handlers make of it *)

(** Checkout and the order handlers do not fit together: the buyer of an
    order is stored as buyerId, the confirmation of a receipt compares userId, and
    so no caller, the buyer included, can confirm an item of a placed order. *)
Theorem placed_order_unconfirmable e auth req s s' resp e' user_id pid s1 r :
  checkout e auth req s = (s', Ok resp) → cr_duplicate resp = false →
  confirm_item_receipt pg_invalid_bigint e' user_id
    {| cr_order_id := cr_checkout_order_id resp; cr_product_id := pid |} s' = (s1, r) →
  bare_id "orders" (cr_checkout_order_id resp) = cr_checkout_order_id resp →
  ∀ x, r ≠ Ok x.
Proof.
  intros H Hd Hc Hbare x ->.
  destruct (checkout_cases _ _ _ _ _ _ H) as [[_ Hr]|(? & u & pr & po & sid & q & a & [= <-] & _ & Hp)].
  { specialize (answered_duplicate _ _ _ _ _ (Hr _ eq_refl)). congruence. }
  destruct (placed_row _ _ _ _ _ _ _ _ _ _ _ _ Hp) as [_ Hrows].
  unfold confirm_item_receipt in Hc. cbn [cr_order_id cr_product_id] in Hc.
  run_inv Hc. run_inv Hc. run_inv Hc. run_inv Hc. run_inv Hc. run_inv Hc.
  apply (keeps_run "orders") in R2; [|by apply keeps_rate_limit].
  unfold read_order in R3. apply map_err_ok in R3. unfold get_document in R3.
  rewrite with_table_valid in R3 by done. cbv beta zeta in R3.
  rewrite table_rows_ensured, R2, Hbare, Hrows, (pl_order _ _ _ _ _ _ _ _ _ _ _ _ Hp), lookup_insert_eq in R3.
  injection R3 as _ <-. unfold confirm_plan in R4.
  rewrite str_field_doc in R4 by concrete. cbn [row_data] in R4.
  change (str_field (placed_document _ _ _ _ _ _ _ _) "userId") with "" in R4.
  destruct user_id as [|c user_id]; [discriminate R1|]. discriminate R4.
Qed.
End guarantees.

(** ** Concrete instances *)
Section checkout_witnesses.
#[local] Instance demo_k_chrono : Chrono := plain_chrono.
#[local] Instance demo_k_json : PgJson := plain_json.
#[local] Instance demo_k_text : TextLib := plain_textlib.

Definition product_row (price stock : Z) : DocRow :=
  {| row_data := VObject [("lifecycleStatus", VString "active"); ("priceCents", of_i64 price);
                          ("sellerId", VString "sue"); ("stockQuantity", of_i64 stock)];
     row_created_at := 1; row_updated_at := 1 |}.
Definition demo_shop : store :=
  {["products" := {["p1" := product_row 2000 3; "xp1" := product_row 100 9]}]}.
Definition demo_k_env (order_id limit_id : string) : checkout_env :=
  {| ke_test_mode := true; ke_turnstile_secret := None; ke_stripe_key := Some "sk"; ke_secs := 1000;
     ke_limit_id := limit_id; ke_limit_now := 2; ke_coupon_now := 3; ke_millis := 4; ke_order_id := order_id;
     ke_now := 5; ke_db_now := 6 |}.
Definition cart (items : list (string * N)) (subtotal : Z) : CreateCheckoutRequest :=
  {| co_items := (λ i, {| ci_product_id := i.1; ci_quantity := i.2 |}) <$> items;
     co_shipping_address := {| sa_street := "1 King St"; sa_city := "Toronto"; sa_state := "ON";
                               sa_postal_code := "M5V 2H1"; sa_country := "ca" |};
     co_user_id := None; co_subtotal_cents := subtotal; co_coupon_code := None; co_eula_accepted := false;
     co_age_verification_accepted := false; co_idempotency_key := Some "k1"; co_turnstile_token := None |}.
Definition demo_stripe (key : string) (form : list (string * string)) : stripe_reply :=
  Session (VObject [("id", VString "cs_1"); ("url", VString "https://pay")]).
Definition demo_checkout (order_id : string) (req : CreateCheckoutRequest) : handler CheckoutResponse :=
  create_checkout_session "" map_to_list id id (λ _ _, Ok tt) demo_stripe (demo_k_env order_id "l1")
    (admin_auth "ann") req.

Definition two_of_p1 : CreateCheckoutRequest := cart [("p1", 2%N)] 4000.
Definition demo_response (tax : Z) : CheckoutResponse :=
  {| cr_session_id := "cs_1"; cr_checkout_order_id := "o1"; cr_checkout_url := Some "https://pay";
     cr_ok := true; cr_duplicate := false; cr_tax_amount_cents := tax |}.
Definition after_two : store := (demo_checkout "o1" two_of_p1 demo_shop).1.
Lemma demo_placed : demo_checkout "o1" two_of_p1 demo_shop = (after_two, Ok (demo_response 637)).
Proof. evaluates. Qed.
Lemma demo_scan (rs : rows) : map_to_list rs ≡ₚ map_to_list rs.
Proof. done. Qed.

Lemma demo_shop_ok : shop_ok demo_shop.
Proof.
  split.
  - intros i row. unfold table_rows, demo_shop. rewrite lookup_singleton_eq. cbn [default from_option id].
    intros H z. apply lookup_insert_Some in H as [[_ <-]|[_ H]]; [by intros [= <-]|].
    apply lookup_singleton_Some in H as [_ <-]. by intros [= <-].
  - intros i row. unfold table_rows, demo_shop. rewrite lookup_singleton_ne by done. cbn. by rewrite lookup_empty.
Qed.

Lemma checkout_charges_order_total_witness :
  ∃ row key form session province subtotal shipping tax discount,
    table_rows after_two "orders" !! "o1" = Some row
    ∧ session_of (demo_stripe key form) = Ok session
    ∧ billed 4000 province (row_data row) form subtotal shipping tax discount.
Proof.
  apply (checkout_charges_order_total "" map_to_list demo_scan id id (λ _ _, Ok tt)
    demo_stripe (demo_k_env "o1" "l1") (admin_auth "ann") two_of_p1 demo_shop after_two (demo_response 637)).
  - apply demo_shop_ok.
  - apply demo_placed.
  - done.
Defined.

Lemma checkout_reserves_stock_witness :
  ∃ n', stock_of after_two "p1" = Some n' ∧ (n' ≤ 3)%Z ∧ ((0 ≤ 3)%Z → (0 ≤ n')%Z)
    ∧ ∀ resp, Ok (demo_response 637) = Ok resp :> Result _ → cr_duplicate resp = false →
        ∃ row, table_rows after_two "orders" !! cr_checkout_order_id resp = Some row
          ∧ ((order_units "p1" (row_data row) ≤ 3)%Z → n' = (3 - order_units "p1" (row_data row))%Z).
Proof.
  apply (checkout_reserves_stock (PgJsonLaws0 := plain_json_laws) "" map_to_list demo_scan id id (λ _ _, Ok tt)
    demo_stripe (demo_k_env "o1" "l1") (admin_auth "ann") two_of_p1 demo_shop after_two (Ok (demo_response 637)) "p1" 3).
  - apply demo_placed.
  - evaluates.
Defined.

Lemma checkout_all_or_nothing_witness :
  same_tables demo_shop (demo_checkout "o1" (cart [("p1", 4%N)] 8000) demo_shop).1.
Proof.
  apply (checkout_all_or_nothing "" map_to_list demo_scan id id (λ _ _, Ok tt) demo_stripe (demo_k_env "o1" "l1")
    (admin_auth "ann") (cart [("p1", 4%N)] 8000) demo_shop _
    (Err (Validation "Insufficient stock for product p1. Available: 3"))).
  - evaluates.
  - intros resp [=].
Defined.

Definition retried : store := (demo_checkout "o2" (cart [("p1", 1%N)] 2000) after_two).1.
Definition retry_response : CheckoutResponse :=
  {| cr_session_id := "cs_1"; cr_checkout_order_id := "o1"; cr_checkout_url := None;
     cr_ok := true; cr_duplicate := true; cr_tax_amount_cents := 637 |}.
Lemma checkout_retry_idempotent_witness :
  same_tables after_two retried
  ∧ ∀ resp', Ok retry_response = Ok resp' :> Result _ →
      cr_duplicate resp' = true ∧ cr_checkout_order_id resp' = "o1".
Proof.
  apply (checkout_retry_idempotent "" map_to_list demo_scan id id (λ _ _, Ok tt) demo_stripe (demo_k_env "o1" "l1")
    (admin_auth "ann") two_of_p1 demo_shop after_two (demo_response 637) (demo_k_env "o2" "l1")
    (admin_auth "ann") (cart [("p1", 1%N)] 2000) retried (Ok retry_response) "k1").
  - apply demo_placed.
  - done.
  - done.
  - done.
  - done.
  - evaluates.
Defined.

(** A cart that names a product twice passes the check of each line, the second
    reservation finds too little stock, and the order is placed all the same:
    four units of a product of which three were left. *)
Example oversold :
  let '(s, r) := demo_checkout "o1" (cart [("p1", 2%N); ("p1", 2%N)] 8000) demo_shop in
  r = Ok (demo_response 1040) ∧ stock_of s "p1" = Some 1%Z
  ∧ (order_units "p1" ∘ row_data <$> table_rows s "orders" !! "o1") = Some 4%Z.
Proof. by vm_compute. Qed.

(** A product is looked up among those fetched by the end of its id: with the
    product xp1 in the cart, p1 is sold at the price of xp1. *)
Example sold_at_another_price :
  let '(s, r) := demo_checkout "o1" (cart [("xp1", 1%N); ("p1", 1%N)] 200) demo_shop in
  r = Ok (demo_response 143) ∧ stock_of s "p1" = Some 2%Z
  ∧ (i64_field "subtotalCents" ∘ row_data <$> table_rows s "orders" !! "o1") = Some (Some 200%Z).
Proof. by vm_compute. Qed.

(** The buyer cannot confirm the receipt of the order placed above. *)
Definition confirm_env : request_env :=
  {| env_test_mode := true; env_secs := 1000; env_limit_id := "l2"; env_limit_now := 7; env_now := 8;
     env_write_now := 9; env_event_id := "e1"; env_event_at := 10; env_event_now := 11 |}.
Definition confirm_refused : Result ConfirmItemReceiptResponse :=
  Err (Forbidden "Only the order owner can confirm receipt").
Lemma placed_order_unconfirmable_witness :
  confirm_refused ≠ Ok {| cs_success := true; cs_all_delivered := true; cs_message := None |}.
Proof.
  apply (placed_order_unconfirmable "" map_to_list demo_scan id id (λ _ _, Ok tt) demo_stripe (demo_k_env "o1" "l1")
    (admin_auth "ann") two_of_p1 demo_shop after_two (demo_response 637) confirm_env "ann" "p1"
    (confirm_item_receipt "" confirm_env "ann" {| cr_order_id := "o1"; cr_product_id := "p1" |} after_two).1).
  - apply demo_placed.
  - done.
  - evaluates.
  - evaluates.
Defined.
End checkout_witnesses.
