(* ===== verification/Refunds.v ===== *)
(** * Refunds and cancellations

    crates/ob-handlers/src/orders/refunds.rs: the refund of one item of an
    order and the cancellation of an order, with the amounts computed for them.

    Stripe is a parameter, a function from what is sent to what is answered.
    The reservation of a refund is a loop over a read, a check and a
    compare-and-swap ([refund_room], [reserve_cas]); the same pieces are the
    steps of the interleavings studied below.  The helpers str_field,
    bool_field, items_array and is_user_admin of the file are those of
    orders/status.rs, modelled in Orders.v. *)

From S2P Require Export Checkout.

(** ** Requests *)

Record RefundItemRequest : Type := {
  rr_order_id : string; rr_product_id : string; rr_user_id : string; rr_reason : option string }.
Record RefundItemResponse : Type := {
  rs_success : bool; rs_refund_amount_cents : Z; rs_refund_id : option string;
  rs_already_refunded : option bool }.
Record CancelOrderRequest : Type := {
  xr_order_id : string; xr_user_id : string; xr_reason : option string }.
Record CancelOrderResponse : Type := { xs_success : bool; xs_refunded : bool }.

Definition RETURN_WINDOW_DAYS : Z := 30.

(** ** Helpers *)

(** The file's [i64_field], with its default. *)
Definition cents (v : Value) (field : string) : Z := default 0%Z (i64_field field v).
Definition quantity_of (item : Value) : Z := default 1%Z (i64_field "quantity" item).

(** [TimeDelta::num_days] drops the fraction of a day. *)
Definition num_days (micros : Z) : Z := (micros `quot` (86400 * micros_per_sec))%Z.
Definition delivered_at_expired `{TextLib} (delivered_at : Value) (now : Z) : bool :=
  match as_str delivered_at ≫= parse_rfc3339 with
  | Some dt => (RETURN_WINDOW_DAYS <? num_days (now - dt))%Z
  | None => false
  end.

(** Sums and products of [i64], and [(a * b + c / 2) / c]. *)
Definition i64_add (a b : Z) : Z := wrap_signed 64 (a + b).
Definition i64_sub (a b : Z) : Z := wrap_signed 64 (a - b).
Definition i64_mul (a b : Z) : Z := wrap_signed 64 (a * b).
Definition proportion (a b c : Z) : Z := (i64_add (i64_mul a b) (c `quot` 2) `quot` c)%Z.

Definition calculate_refund_amount_cents (order item : Value) : Result Z :=
  let item_subtotal_cents := i64_mul (cents item "priceCents") (quantity_of item) in
  let order_subtotal_cents := cents order "subtotalCents" in
  let order_discount := cents order "discountAmountCents" in
  let item_subtotal_cents :=
    if (0 <? order_subtotal_cents)%Z && (0 <? order_discount)%Z then
      let discounted_subtotal := Z.max (i64_sub order_subtotal_cents order_discount) 0 in
      proportion item_subtotal_cents discounted_subtotal order_subtotal_cents
    else item_subtotal_cents in
  if (order_subtotal_cents <=? 0)%Z then
    Err (Validation "Order subtotal must be positive to calculate proportional refund")
  else
    let shipping_refund_cents :=
      match i64_field "itemShippingCents" item with
      | Some snap => snap
      | None => proportion (cents order "shippingCostCents") item_subtotal_cents order_subtotal_cents
      end in
    let proportional_tax := proportion (cents order "taxAmountCents") item_subtotal_cents order_subtotal_cents in
    Ok (i64_add (i64_add item_subtotal_cents proportional_tax) shipping_refund_cents).

Module Cancellation.
Definition is_valid_order_transition (from to : string) : bool :=
  existsb (λ p : string * string, (p.1 =s? from) && (p.2 =s? to))
    [("pending", "cancelled"); ("confirmed", "cancelled"); ("awaiting_shipping_approval", "cancelled");
     ("processing", "cancelled")].
End Cancellation.

(** ** Stripe *)

(** What the request for a refund, and that for the release of an
    authorisation, come to. *)
Inductive refund_reply : Type :=
| RefundTimeout
| RefundSendFailed (error : string)
| RefundRefused
| RefundNotJson (error : string)
| RefundBody (body : Value).
Inductive cancel_reply : Type :=
| CancelSendFailed (error : string)
| CancelRefused
| CancelDone.

Definition refund_form (payment_intent_id : string) (amount_cents : option Z) (reason : string)
    (metadata : list (string * string)) : list (string * string) :=
  [("payment_intent", payment_intent_id); ("reason", reason)]
  ++ (match amount_cents with Some amt => [("amount", pretty amt)] | None => [] end)
  ++ ((λ kv, ("metadata[" +:+ kv.1 +:+ "]", kv.2)) <$> metadata).

Section stripe.
(** The answers: to an idempotency key and a form, and to a payment intent. *)
Context (stripe_refunds : string → list (string * string) → refund_reply).
Context (stripe_cancels : string → cancel_reply).

Definition no_stripe_key : Error := Internal "Stripe secret key not configured".

Definition stripe_refund (stripe_key : option string) (payment_intent_id : string) (amount_cents : option Z)
    (reason idempotency_key : string) (metadata : list (string * string)) : Result (option string) :=
  _ ← ok_or no_stripe_key stripe_key;
  match stripe_refunds idempotency_key (refund_form payment_intent_id amount_cents reason metadata) with
  | RefundTimeout => Err (Internal "Stripe refund request timeout")
  | RefundSendFailed e => Err (Internal ("Stripe request failed: " +:+ e))
  | RefundRefused => Err (Internal "Refund failed. Please try again or contact support.")
  | RefundNotJson e => Err (Internal ("Stripe response parse failed: " +:+ e))
  | RefundBody body => Ok (get "id" body ≫= as_str)
  end.

Definition stripe_cancel_pi (stripe_key : option string) (payment_intent_id : string) : Result unit :=
  _ ← ok_or no_stripe_key stripe_key;
  match stripe_cancels payment_intent_id with
  | CancelSendFailed e => Err (Internal ("Stripe cancel failed: " +:+ e))
  | CancelRefused => Err (Internal "Payment release could not be confirmed")
  | CancelDone => Ok tt
  end.

(** ** The clock readings, fresh ids and settings of one request *)

Record refund_env : Type := {
  fe_test_mode : bool;
  fe_stripe_key : option string;
  fe_secs : Z; fe_limit_id : string; fe_limit_now : Z;   (** the limiter's *)
  fe_window_now : Z;                                     (** [Utc::now()] of the return window *)
  fe_now : Z;                                            (** [Utc::now()] of the update *)
  fe_clock : nat → Z;                                    (** the database's clock at each write *)
  fe_event_id : string;
}.

Section handlers.
Context `{C : Chrono} `{P : PgJson} `{T : TextLib}.
Context (pg_invalid_bigint : string).
(** What becomes of the statement that revokes licences when an id breaks out
    of its literal or holds a blank. *)
Context (injected_update : string → string → store → store * Result unit).

(** *** The reservation of an amount *)

Definition cumulative : string := "cumulativeRefundedCents".

(** The amount refunded so far, and with the new refund, if the total allows. *)
Definition refund_room (amount : Z) (cur_order : Value) : option (Z * Z) :=
  let cur_cumulative := cents cur_order cumulative in
  let new_cumulative := i64_add cur_cumulative amount in
  if (cents cur_order "totalAmountCents" <? new_cumulative)%Z then None
  else Some (cur_cumulative, new_cumulative).
Definition lacks_cumulative (cur_order : Value) : bool :=
  (cents cur_order cumulative =? 0)%Z
  && match get cumulative cur_order with None | Some VNull => true | _ => false end.
Definition cumulative_doc (z : Z) : Value := VObject [(cumulative, of_i64 z)].
Definition init_cumulative (now : Z) (order_id : string) : handler unit :=
  ignored (update_document "orders" order_id (cumulative_doc 0) now).
Definition reserve_cas (now : Z) (order_id : string) (cur new : Z) : handler (option Value) :=
  db_map_err (λ e, Database ("Failed to reserve refund: " +:+ error_to_string e))
    (update_document_cas "orders" order_id (cumulative_doc new) cumulative (of_i64 cur) now).

Definition retry_refund : Error := Validation "Concurrent refund modification detected. Please retry.".

(** The attempts that are left: [Ok false] when the total does not allow it. *)
Fixpoint reserve_refund (clock : nat → Z) (order_id : string) (amount : Z) (attempts : nat) : handler bool :=
  match attempts with
  | O => pure (Ok false)
  | S attempts =>
      cur_order ← db_map_err (λ e, Database ("Failed to read order: " +:+ error_to_string e))
                    (get_document "orders" order_id);
      match refund_room amount cur_order with
      | None => pure (Ok false)
      | Some (cur, new) =>
          _ ← (if lacks_cumulative cur_order then init_cumulative (clock (2 * attempts)) order_id else pure (Ok tt));
          cas_result ← reserve_cas (clock (2 * attempts + 1)) order_id cur new;
          match cas_result with
          | Some _ => pure (Ok true)
          | None => match attempts with
                    | O => pure (Err retry_refund)
                    | S _ => reserve_refund clock order_id amount attempts
                    end
          end
      end
  end.

Definition refund_exceeds (order_id : string) (amount : Z) : handler unit :=
  current ← attempt (get_document "orders" order_id);
  let o := default VNull current in
  pure (Err (Validation ("Cumulative refund (" +:+ pretty (i64_add (cents o cumulative) amount)
    +:+ " cents) would exceed order total (" +:+ pretty (cents o "totalAmountCents") +:+ " cents)"))).

Definition reservation_rollback (now : Z) (order_id : string) (amount : Z) : handler unit :=
  rb_order ← attempt (get_document "orders" order_id);
  let rb_cumulative := cents (default VNull rb_order) cumulative in
  ignored (update_document "orders" order_id (cumulative_doc (Z.max (i64_sub rb_cumulative amount) 0)) now).

(** *** Stock and licences *)

(** Attempts to add [qty] to the stock; [stamp] is the time stored with it,
    which the same loop of webhooks.rs leaves out.  The value says whether one
    succeeded, which returns.rs and webhooks.rs look at. *)
Definition stock_doc (stamp : option string) (stock : Z) : Value :=
  VObject (("stockQuantity", of_i64 stock)
           :: match stamp with Some now => [("updatedAt", VString now)] | None => [] end).
Fixpoint restore_stock (err : Error → Error) (clock : nat → Z) (stamp : option string) (pid : string) (qty : Z)
    (attempts : nat) : handler bool :=
  match attempts with
  | O => pure (Ok false)
  | S attempts =>
      cur_product ← attempt (get_document "products" pid);
      let cur_stock := cents (default VNull cur_product) "stockQuantity" in
      cas_result ← db_map_err err (update_document_cas "products" pid
        (stock_doc stamp (i64_add cur_stock qty)) "stockQuantity" (of_i64 cur_stock) (clock attempts));
      match cas_result with
      | Some _ => pure (Ok true)
      | None => restore_stock err clock stamp pid qty attempts
      end
  end.

(** [UPDATE licenses SET data = data || '{"status":"revoked",..}'
    WHERE data->>'orderId' = .. AND data->>'productId' = ..
    AND data->>'status' = 'active']. *)
Definition active_licence (order_id product_id : string) (row : DocRow) : bool :=
  bool_decide (field_text "orderId" (row_data row) = Some order_id)
  && bool_decide (field_text "productId" (row_data row) = Some product_id)
  && bool_decide (field_text "status" (row_data row) = Some "active").
Definition is_blank (c : ascii) : bool := existsb (Ascii.eqb c) [" "; "009"; "010"; "012"; "013"]%char.
Definition one_word (s : string) : option string :=
  if str_exists is_blank s then None else literal s.
Definition revoke_licences (now : string) (db_now : Z) (order_id product_id : string) : handler unit :=
  match one_word order_id, one_word product_id with
  | Some o, Some p => λ s,
      let s := (ensure_table "licenses" s).1 in
      (<["licenses" := (λ row, if active_licence o p row
                               then merged_row (VObject [("revokedAt", VString now); ("status", VString "revoked")]) db_now row
                               else row) <$> table_rows s "licenses"]> s, Ok tt)
  | _, _ => db_map_err (λ e, Database ("Failed to revoke digital licenses for refunded item: " +:+ error_to_string e))
              (injected_update order_id product_id)
  end.

(** *** refund_order_item *)

(** The decision on the order read: [None] when the item is refunded already,
    else the item and the amount. *)
Definition refund_plan (user_id : string) (is_admin : bool) (now : Z) (product_id : string) (order : Value) :
    Result (option (Value * Z)) :=
  item ← ok_or (NotFound ("Product " +:+ product_id +:+ " not found in order"))
           (snd <$> list_find (λ it, str_field it "productId" = product_id) (items_array order));
  if negb is_admin && negb (str_field item "sellerId" =s? user_id) then
    Err (Forbidden "Only seller of the item or admin can issue refunds")
  else if negb (str_field order "paymentStatus" =s? "captured") then
    Err (Validation "Cannot refund uncaptured payment")
  else if str_field order "payoutStatus" =s? "processing" then
    Err (Validation "Cannot refund item while payout is currently processing. Please try again later.")
  else if str_field item "status" =s? order_status_str Order.Refunded then Ok None
  else if negb is_admin && (str_field item "status" =s? order_status_str Order.Delivered)
          && match get "deliveredAt" item with Some d => delivered_at_expired d now | None => false end then
    Err (Validation ("Return window expired. Returns not accepted after " +:+ pretty RETURN_WINDOW_DAYS
                     +:+ " days post-delivery."))
  else
    amount ← calculate_refund_amount_cents order item;
    Ok (Some (item, amount)).

Definition refunded_fields (now reason : string) (amount : Z) (refund_id : option string) :
    list (string * Value) :=
  [("status", VString (order_status_str Order.Refunded)); ("refundedAt", VString now);
   ("refundReason", VString reason); ("refundAmountCents", of_i64 amount)]
  ++ match refund_id with Some rid => [("refundId", VString rid)] | None => [] end.
Definition mark_refunded (product_id now reason : string) (amount : Z) (refund_id : option string)
    (items : list Value) : Result (list Value) :=
  match find_item_index items product_id with
  | Some idx => put_item idx (refunded_fields now reason amount refund_id) items
  | None => Ok items
  end.

Definition is_digital_item (item : Value) : bool :=
  bool_field item "isDigital"
  || existsb (str_eqb (str_field item "productType")) ["software"; "book"; "digital"].

(** The call to Stripe, with the rollback of the reservation. *)
Definition refund_at_stripe (e : refund_env) (req : RefundItemRequest) (order : Value) (amount : Z) :
    handler (option string) :=
  let payment_intent_id := str_field order "paymentIntentId" in
  _ ← pure (if str_empty payment_intent_id then Err (Validation "No payment intent found") else Ok tt);
  match stripe_refund (fe_stripe_key e) payment_intent_id (Some amount) "requested_by_customer"
          ("refund_" +:+ rr_order_id req +:+ "_" +:+ rr_product_id req)
          [("orderId", rr_order_id req); ("productId", rr_product_id req)] with
  | Ok refund_id => pure (Ok refund_id)
  | Err stripe_err =>
      _ ← reservation_rollback (fe_clock e 6) (bare_id "orders" (rr_order_id req)) amount;
      pure (Err stripe_err)
  | Panic => pure Panic
  end.

(** What follows the refund: the item, its licences or stock, the event. *)
Definition refund_finish (e : refund_env) (req : RefundItemRequest) (user_id reason : string)
    (order item : Value) (amount : Z) (refund_id : option string) : handler RefundItemResponse :=
  let now := to_rfc3339 (fe_now e) in
  updated_items ← pure (mark_refunded (rr_product_id req) now reason amount refund_id (items_array order));
  _ ← db_map_err (λ e, Database ("Failed to update refunded order: " +:+ error_to_string e))
        (update_document "orders" (rr_order_id req)
          (VObject [("items", VArray updated_items); ("updatedAt", VString now)]) (fe_clock e 7));
  _ ← (if is_digital_item item then
         revoke_licences now (fe_clock e 8) (rr_order_id req) (rr_product_id req)
       else _ ←
         restore_stock (λ e, Database ("Failed to restore stock for refunded item: " +:+ error_to_string e))
           (λ k, fe_clock e (9 + k)) (Some now) (rr_product_id req) (quantity_of item) 3;
         pure (Ok tt));
  _ ← db_map_err (λ e, Database ("Failed to log refund event: " +:+ error_to_string e))
        (create_document "events" (VObject
          [("createdAt", VString now);
           ("data", VObject [("productId", VString (rr_product_id req)); ("refundAmountCents", of_i64 amount)]);
           ("eventType", VString "item_refunded");
           ("message", VString ("Item " +:+ rr_product_id req +:+ " refunded for " +:+ pretty amount +:+ " cents"));
           ("orderId", VString (rr_order_id req)); ("userId", VString user_id)])
          (fe_event_id e) (fe_clock e 12));
  pure (Ok {| rs_success := true; rs_refund_amount_cents := amount; rs_refund_id := refund_id;
              rs_already_refunded := None |}).

Definition already_refunded : RefundItemResponse :=
  {| rs_success := true; rs_refund_amount_cents := 0; rs_refund_id := None; rs_already_refunded := Some true |}.

Definition refund_order_item (e : refund_env) (auth : AuthContext) (req : RefundItemRequest) :
    handler RefundItemResponse :=
  _ ← pure (validate_uid "orderId" (rr_order_id req));
  _ ← pure (validate_uid "productId" (rr_product_id req));
  let user_id := auth_user_id auth in
  _ ← check_user_rate_limit pg_invalid_bigint (fe_test_mode e) user_id "refund_order_item" 5 1
        (fe_secs e) (fe_limit_id e) (fe_limit_now e);
  let reason := default "Item refund requested" (sanitized_opt 500 (rr_reason req)) in
  order ← read_order (rr_order_id req);
  is_admin ← is_user_admin user_id;
  plan ← pure (refund_plan user_id is_admin (fe_window_now e) (rr_product_id req) order);
  match plan with
  | None => pure (Ok already_refunded)
  | Some (item, amount) =>
      reserved ← reserve_refund (fe_clock e) (bare_id "orders" (rr_order_id req)) amount 3;
      _ ← (if reserved : bool then pure (Ok tt) else refund_exceeds (rr_order_id req) amount);
      refund_id ← refund_at_stripe e req order amount;
      refund_finish e req user_id reason order item amount refund_id
  end.

(** *** cancel_order *)

Definition order_buyer_id (order : Value) : string :=
  match get "buyerId" order ≫= as_str with
  | Some b => if str_empty b then str_field order "userId" else b
  | None => str_field order "userId"
  end.

Definition cancel_guards (user_id : string) (is_admin : bool) (order : Value) : Result unit :=
  let is_buyer := order_buyer_id order =s? user_id in
  let items := items_array order in
  let mine := seller_items user_id items in
  let is_seller := negb (bool_decide (mine = [])) in
  let current_status := str_field order "orderStatus" in
  if bool_field order "archived" then Err (Validation "Cannot cancel archived order")
  else if negb is_admin && negb is_buyer && negb is_seller then
    Err (Forbidden "Only buyer, seller, or admin can cancel order")
  else if is_seller && negb is_buyer && negb is_admin && (length mine <? length items)%nat then
    Err (Forbidden "Cannot cancel a multi-seller order. Use item refund to cancel your items only.")
  else if negb (Cancellation.is_valid_order_transition current_status "cancelled") then
    Err (Validation ("Cannot cancel order with status: " +:+ current_status))
  else if is_buyer && negb is_admin && negb is_seller
          && negb (existsb (str_eqb current_status) ["pending"; "confirmed"]) then
    Err (Validation "Order cannot be cancelled at this stage. Contact support if there is an issue.")
  else Ok tt.

(** A failure at Stripe sets the order aside for a manual review. *)
Definition quarantine {A} (e : refund_env) (order_id : string) (err : Error) : handler A :=
  _ ← ignored (update_document "orders" order_id (VObject
        [("paymentStatus", VString "CANCEL_FAILED"); ("requiresManualReview", VBool true);
         ("updatedAt", VString (to_rfc3339 (fe_now e)))]) (fe_clock e 0));
  pure (Err err).

(** The new payment status, and whether the payment was refunded. *)
Definition cancel_payment (e : refund_env) (order_id : string) (order : Value) : handler (string * bool) :=
  let payment_status := str_field order "paymentStatus" in
  let payment_intent_id := str_field order "paymentIntentId" in
  if (payment_status =s? "captured") && negb (str_empty payment_intent_id) then
    match stripe_refund (fe_stripe_key e) payment_intent_id None "requested_by_customer"
            ("refund_" +:+ order_id) [("orderId", order_id)] with
    | Ok _ => pure (Ok ("refunded", true))
    | Err err => quarantine e order_id err
    | Panic => pure Panic
    end
  else if (payment_status =s? "authorized") && negb (str_empty payment_intent_id) then
    match stripe_cancel_pi (fe_stripe_key e) payment_intent_id with
    | Ok _ => pure (Ok ("cancelled", false))
    | Err err => quarantine e order_id err
    | Panic => pure Panic
    end
  else pure (Ok ("cancelled", false)).

Definition cancelled_doc (e : refund_env) (user_id reason payment_status : string) : Value :=
  let now := to_rfc3339 (fe_now e) in
  VObject [("cancellationReason", VString reason); ("cancelledAt", VString now);
           ("cancelledBy", VString user_id); ("orderStatus", VString "cancelled");
           ("paymentStatus", VString payment_status); ("stockRestored", VBool true);
           ("updatedAt", VString now)].

(** The stock of the items that are not digital, from the [i]-th on. *)
Fixpoint restore_items (e : refund_env) (i : nat) (items : list Value) : handler unit :=
  match items with
  | [] => pure (Ok tt)
  | item :: items =>
      let pid := str_field item "productId" in
      let qty := quantity_of item in
      _ ← (if negb (bool_field item "isDigital") && negb (str_empty pid) && (0 <? qty)%Z then
             _ ← restore_stock (λ e, Database ("Failed to restore stock for product " +:+ pid +:+ ": " +:+ error_to_string e))
                   (λ k, fe_clock e (3 * i + k + 2)) (Some (to_rfc3339 (fe_now e))) pid qty 3;
             pure (Ok tt)
           else pure (Ok tt));
      restore_items e (S i) items
  end.

Definition cancel_write (e : refund_env) (order_id user_id reason : string) (order : Value)
    (payment_status : string) : handler unit :=
  cas_result ← db_map_err (λ e, Database ("Failed to update cancelled order: " +:+ error_to_string e))
    (update_document_cas "orders" order_id (cancelled_doc e user_id reason payment_status) "orderStatus"
      (VString (str_field order "orderStatus")) (fe_clock e 1));
  match cas_result with
  | None => pure (Err (Validation "Order status changed concurrently — please retry cancellation"))
  | Some _ => pure (Ok tt)
  end.

(** The stock of the order, unless it was restored before, and the event. *)
Definition cancel_finish (e : refund_env) (order_id user_id : string) (order : Value) (refunded : bool) :
    handler CancelOrderResponse :=
  let flag := if refunded then "true" else "false" in
  _ ← (if bool_field order "stockRestored" then pure (Ok tt) else restore_items e 0 (items_array order));
  _ ← db_map_err (λ e, Database ("Failed to log order cancellation: " +:+ error_to_string e))
        (create_document "events" (VObject
          [("createdAt", VString (to_rfc3339 (fe_now e))); ("data", VObject [("refunded", VBool refunded)]);
           ("eventType", VString "order_cancelled"); ("message", VString ("Order cancelled. Refunded: " +:+ flag));
           ("orderId", VString order_id); ("userId", VString user_id)])
          (fe_event_id e) (fe_clock e (3 * length (items_array order) + 2)));
  pure (Ok {| xs_success := true; xs_refunded := refunded |}).

Definition cancel_order (e : refund_env) (auth : AuthContext) (req : CancelOrderRequest) :
    handler CancelOrderResponse :=
  user_id ← pure (resolve_self_user_id auth (Some (xr_user_id req)) "userId");
  _ ← pure (validate_uid "orderId" (xr_order_id req));
  _ ← check_user_rate_limit pg_invalid_bigint (fe_test_mode e) user_id "cancel_order" 5 1
        (fe_secs e) (fe_limit_id e) (fe_limit_now e);
  let reason := default "User requested cancellation" (sanitized_opt 500 (xr_reason req)) in
  order ← read_order (xr_order_id req);
  _ ← pure (cancel_guards user_id (has_role "admin" auth) order);
  '(payment_status, refunded) ← cancel_payment e (xr_order_id req) order;
  _ ← cancel_write e (xr_order_id req) user_id reason order payment_status;
  cancel_finish e (xr_order_id req) user_id order refunded.
End handlers.
End stripe.

(** ** Amounts *)
Section amounts.
Local Open Scope Z_scope.

(** The proportional share, rounded to the nearest cent. *)
Lemma proportion_rounded a b c :
  0 ≤ a ≤ 10 ^ 8 → 0 ≤ b ≤ 10 ^ 8 → 0 < c ≤ 10 ^ 8 →
  0 ≤ proportion a b c ∧ c * proportion a b c ≤ a * b + c ∧ - c ≤ 2 * (c * proportion a b c - a * b) ≤ c.
Proof.
  intros Ha Hb Hc. unfold proportion, i64_add, i64_mul.
  pose proof (Z.div_le_upper_bound c 2 c ltac:(lia) ltac:(lia)). pose proof (Z.div_pos c 2 ltac:(lia) ltac:(lia)).
  rewrite (Z.quot_div_nonneg c 2), (wrap_signed_id 64 (a * b)), wrap_signed_id by nia.
  rewrite Z.quot_div_nonneg by nia.
  pose proof (Z.mul_div_le (a * b + c / 2) c ltac:(lia)).
  pose proof (Z.mul_succ_div_gt (a * b + c / 2) c ltac:(lia)).
  pose proof (Z.mul_div_le c 2 ltac:(lia)). pose proof (Z.mul_succ_div_gt c 2 ltac:(lia)).
  pose proof (Z.div_pos (a * b + c / 2) c ltac:(nia) ltac:(lia)). nia.
Qed.
Lemma proportion_whole a c : 0 ≤ a ≤ 10 ^ 8 → 0 < c ≤ 10 ^ 8 → proportion a c c = a.
Proof.
  intros Ha Hc. pose proof (proportion_rounded a c c Ha ltac:(lia) Hc). nia.
Qed.
Lemma proportion_zero a c : 0 ≤ a ≤ 10 ^ 8 → 0 < c ≤ 10 ^ 8 → proportion a 0 c = 0.
Proof.
  intros Ha Hc. pose proof (proportion_rounded a 0 c Ha ltac:(lia) Hc). nia.
Qed.

(** The amounts of an order the refund is computed from. *)
Record refundable (order : Value) (subtotal shipping tax discount : Z) : Prop := {
  rf_subtotal : cents order "subtotalCents" = subtotal;
  rf_shipping : cents order "shippingCostCents" = shipping;
  rf_tax : cents order "taxAmountCents" = tax;
  rf_discount : cents order "discountAmountCents" = discount;
  rf_range : 0 < subtotal ≤ 10 ^ 8 ∧ 0 ≤ shipping ≤ 10 ^ 7 ∧ 0 ≤ tax ≤ 10 ^ 7 ∧ 0 ≤ discount ≤ 10 ^ 14;
}.
Definition gross (item : Value) : Z := cents item "priceCents" * quantity_of item.

Lemma refund_share order item subtotal shipping tax :
  refundable order subtotal shipping tax 0 → i64_field "itemShippingCents" item = None →
  0 ≤ gross item ≤ 10 ^ 8 →
  ∃ r, calculate_refund_amount_cents order item = Ok r
    ∧ Z.abs (subtotal * r - gross item * (subtotal + shipping + tax)) ≤ subtotal
    ∧ (gross item = subtotal → r = subtotal + shipping + tax).
Proof.
  intros [Hs Hh Ht Hd Hr] Hsnap Hg. unfold calculate_refund_amount_cents. cbv zeta.
  rewrite Hs, Hh, Ht, Hd, Hsnap. rewrite andb_false_r. unfold i64_mul. fold (gross item).
  rewrite (wrap_signed_id 64 (gross item)) by lia. destruct (Z.leb_spec subtotal 0); [lia|].
  pose proof (proportion_rounded tax (gross item) subtotal ltac:(lia) ltac:(lia) ltac:(lia)) as (Ht0 & Ht1 & Ht2).
  pose proof (proportion_rounded shipping (gross item) subtotal ltac:(lia) ltac:(lia) ltac:(lia)) as (Hh0 & Hh1 & Hh2).
  assert (0 ≤ proportion tax (gross item) subtotal ≤ 2 * 10 ^ 15) by nia.
  assert (0 ≤ proportion shipping (gross item) subtotal ≤ 2 * 10 ^ 15) by nia.
  unfold i64_add. rewrite (wrap_signed_id 64 (gross item + _)), wrap_signed_id by lia.
  eexists. split; [done|]. split; [nia|]. intros ->. rewrite !proportion_whole by lia. lia.
Qed.

Definition total (l : list Z) : Z := foldr Z.add 0 l.

Lemma refund_shares order items subtotal shipping tax :
  refundable order subtotal shipping tax 0 →
  Forall (λ item, i64_field "itemShippingCents" item = None ∧ 0 ≤ gross item ≤ 10 ^ 8) items →
  ∃ rs, collect (calculate_refund_amount_cents order) items = Ok rs
    ∧ Z.abs (subtotal * total rs - total (gross <$> items) * (subtotal + shipping + tax))
      ≤ subtotal * Z.of_nat (length items)
    ∧ (∀ item, items = [item] → gross item = subtotal → rs = [subtotal + shipping + tax]).
Proof.
  intros Ho. induction 1 as [|item items [Hsnap Hg] _ IH].
  { exists []. split; [done|]. cbn. split; [lia|done]. }
  destruct IH as (rs & Hc & Hb & _).
  destruct (refund_share order item subtotal shipping tax Ho Hsnap Hg) as (r & Hr & Hb1 & Hone).
  exists (r :: rs). split; [|split].
  - unfold collect in *. cbn [foldr] in *. by rewrite Hr, Hc.
  - cbn [fmap list_fmap length]. unfold total in *. cbn [foldr]. lia.
  - intros ? [= <- ->] He. cbn in Hc. injection Hc as <-. by rewrite Hone.
Qed.

(** The discount is taken off twice: checkout stores the subtotal net of it,
    and the refund reduces each price once more.  With a coupon that halved the
    price nothing at all is refunded. *)
Theorem halved_order_refunds_nothing order item subtotal shipping tax discount :
  refundable order subtotal shipping tax discount → subtotal ≤ discount →
  i64_field "itemShippingCents" item = None → 0 ≤ gross item ≤ 10 ^ 8 →
  calculate_refund_amount_cents order item = Ok 0.
Proof.
  intros [Hs Hh Ht Hd Hr] Hle Hsnap Hg. unfold calculate_refund_amount_cents. cbv zeta.
  rewrite Hs, Hh, Ht, Hd, Hsnap. unfold i64_mul, i64_sub. fold (gross item).
  rewrite (wrap_signed_id 64 (gross item)), (wrap_signed_id 64 (subtotal - discount)) by lia.
  destruct (Z.leb_spec subtotal 0); [lia|]. destruct (Z.ltb_spec 0 subtotal); [|lia].
  destruct (Z.ltb_spec 0 discount); [|lia]. cbn [andb]. rewrite Z.max_r by lia.
  rewrite !proportion_zero by lia. done.
Qed.
End amounts.

(** ** Checkout and refunds *)
Section placed_orders.
Context `{C : Chrono} `{P : PgJson} `{T : TextLib} `{!PgJsonLaws P}.
Context (pg_invalid_bigint : string) (scan : rows → list (string * DocRow)) (scan_rows : ∀ rs, scan rs ≡ₚ map_to_list rs).
Context (pg_missing_table pg_duplicate_key : string → string).
Context (validate_turnstile : string → string → Result unit) (stripe : string → list (string * string) → stripe_reply).
Abbreviation checkout := (create_checkout_session pg_invalid_bigint scan pg_missing_table pg_duplicate_key
  validate_turnstile stripe).

Lemma accepted_gross user_id product_rows item snapshot :
  accepted user_id product_rows item snapshot → Forall price_ok product_rows → quantity_ok item →
  gross snapshot = item_amount snapshot ∧ (0 ≤ item_amount snapshot)%Z
  ∧ i64_field "itemShippingCents" snapshot = None.
Proof.
  intros [(product & price & Hin & _ & Hp & Hpos & ->) _] Hok Hq.
  rewrite Forall_forall in Hok. specialize (Hok _ Hin _ Hp).
  unfold gross, item_amount, cents, quantity_of, i64_field, quantity_ok, MAX_ITEM_QUANTITY in *.
  change (get "priceCents" (validated_item _ _ _ _)) with (Some (of_i64 price)).
  change (get "quantity" (validated_item _ _ _ _)) with (Some (VNumber (PosInt (ci_quantity item)))).
  cbn [mbind option_bind]. rewrite as_i64_of_i64 by (unfold i64_max; lia). unfold as_i64, as_u64.
  replace (Z.of_N (ci_quantity item) <=? i64_max)%Z with true by (symmetry; apply Z.leb_le; unfold i64_max; lia).
  cbn [default from_option id]. split_and!; [done|lia|done].
Qed.

Lemma cart_gross user_id product_rows items snapshots :
  Forall2 (accepted user_id product_rows) items snapshots → Forall price_ok product_rows →
  Forall quantity_ok items → (cart_total snapshots ≤ 10 ^ 8)%Z →
  (0 ≤ cart_total snapshots)%Z ∧ total (gross <$> snapshots) = cart_total snapshots
  ∧ Forall (λ item, i64_field "itemShippingCents" item = None ∧ (0 ≤ gross item ≤ 10 ^ 8)%Z) snapshots.
Proof.
  intros Hall Hok. induction Hall as [|item snapshot items snapshots Ha _ IH]; intros Hq Hle; [done|].
  inversion Hq as [|? ? Hq1 Hq2]; subst. destruct (accepted_gross _ _ _ _ Ha Hok Hq1) as (Hg & H0 & Hsnap).
  unfold cart_total, total in *. cbn [fmap list_fmap foldr] in *.
  assert (0 ≤ foldr Z.add 0 (item_amount <$> snapshots))%Z as Hpos.
  { clear -Hle H0 IH Hq2. destruct (Z.leb_spec (foldr Z.add 0 (item_amount <$> snapshots)) (10 ^ 8))%Z as [Hb|]; [|lia].
    by destruct (IH Hq2 Hb). }
  destruct (IH Hq2 ltac:(lia)) as (_ & Hsum & Hf).
  split_and!; [lia|lia|]. constructor; [split; [done|lia]|done].
Qed.

Lemma placed_refundable e auth req s s' resp user_id province postal session_id q a i now :
  shop_ok s → placed pg_invalid_bigint scan pg_missing_table pg_duplicate_key stripe
    e auth req s s' resp user_id province postal session_id q a →
  let order := row_to_doc i {| row_data := placed_document e req user_id province postal session_id q a;
                               row_created_at := now; row_updated_at := now |} in
  refundable order (q_subtotal_cents q) (am_shipping a) (am_tax a) (q_discount q)
  ∧ items_array order = q_items q ∧ i64_field "totalAmountCents" order = Some (am_total a)
  ∧ am_total a = (q_subtotal_cents q + am_shipping a + am_tax a)%Z.
Proof.
  intros Hshop Hp order. eapply placed_priced in Hp as Hpr; [|done..]. destruct Hpr as [Hpr [Hs Ht Hrate Htot Hfee]].
  destruct (check_request_items _ _ _ (pl_request _ _ _ _ _ _ _ _ _ _ _ _ _ _ _ _ _ Hp)) as (_ & _ & Hclient).
  pose proof (pr_range _ _ _ _ Hpr). pose proof (pr_client _ _ _ _ Hpr). pose proof (pr_discount _ _ _ _ Hpr).
  pose proof (pr_subtotal _ _ _ _ Hpr). unfold MAX_CHECKOUT_SUBTOTAL_CENTS in Hclient.
  pose proof (tax_rate_bound province).
  assert (am_tax a ≤ 10 ^ 7)%Z by nia.
  assert (∀ k z, ¬ is_metadata k → get k (placed_document e req user_id province postal session_id q a) = Some (of_i64 z) →
    (z ≤ i64_max)%Z → i64_field k order = Some z) as Hfield.
  { intros k z Hk Hg Hz. unfold i64_field, order. rewrite get_row_to_doc by done. cbn [row_data]. rewrite Hg.
    by apply as_i64_of_i64. }
  split_and!.
  - assert (∀ k z, ¬ is_metadata k → get k (placed_document e req user_id province postal session_id q a)
      = Some (of_i64 z) → (z ≤ i64_max)%Z → cents order k = z) as Hcents.
    { intros k z Hk Hg Hz. unfold cents. by rewrite (Hfield k z). }
    split; [apply Hcents; [concrete|done|unfold i64_max; lia]..|lia].
  - unfold items_array, order. by rewrite get_row_to_doc by concrete.
  - apply Hfield; [concrete|done|unfold i64_max; lia].
  - done.
Qed.

(** C13: the refunds of a placed order add up.  When all items of an order placed
    without a coupon are refunded, the amounts computed one by one differ from
    what the customer paid by at most a cent per item, and the refund of a
    single item is the exact total. *)
Theorem refunds_add_up e auth req s s' resp :
  shop_ok s → checkout e auth req s = (s', Ok resp) → cr_duplicate resp = false →
  ∃ row paid, table_rows s' "orders" !! cr_checkout_order_id resp = Some row
    ∧ let order := row_to_doc (cr_checkout_order_id resp) row in
      i64_field "totalAmountCents" order = Some paid
      ∧ (cents order "discountAmountCents" = 0%Z →
         ∃ refunds, collect (calculate_refund_amount_cents order) (items_array order) = Ok refunds
           ∧ (Z.abs (total refunds - paid) ≤ Z.of_nat (length (items_array order)))%Z
           ∧ (length (items_array order) = 1 → refunds = [paid])).
Proof.
  intros Hshop H Hd.
  destruct (checkout_cases _ _ scan_rows _ _ _ _ _ _ _ _ _ _ H) as [[_ Hr]|(? & u & pr & po & sid & q & a & [= <-] & _ & Hp)].
  { specialize (answered_duplicate _ _ _ _ _ (Hr _ eq_refl)). congruence. }
  destruct (placed_row _ _ _ _ _ _ _ _ _ _ _ _ _ _ _ _ _ Hp) as [_ Hrows].
  rewrite (pl_order _ _ _ _ _ _ _ _ _ _ _ _ _ _ _ _ _ Hp).
  destruct (placed_refundable _ _ _ _ _ _ _ _ _ _ _ _ (ke_order_id e) (ke_db_now e) Hshop Hp) as (Hrf & Hitems & Htot & Hsum).
  eexists _, (am_total a). split; [rewrite Hrows; apply lookup_insert_eq|]. split; [done|].
  intros Hdisc. rewrite (rf_discount _ _ _ _ _ Hrf) in Hdisc. rewrite Hdisc in Hrf. rewrite Hitems.
  destruct (check_request_items _ _ _ (pl_request _ _ _ _ _ _ _ _ _ _ _ _ _ _ _ _ _ Hp)) as (Hc & _ & _).
  eapply placed_priced in Hp as [Hpr _]; [|done..].
  destruct (pr_items _ _ _ _ Hpr) as (product_rows & Hst & Hacc).
  pose proof (pr_subtotal _ _ _ _ Hpr) as Hsub. pose proof (rf_range _ _ _ _ _ Hrf) as Hrange.
  destruct (cart_gross _ _ _ _ Hacc (stored_prices _ _ Hshop Hst) (check_items_ok _ Hc) ltac:(lia)) as (_ & Hg & Hf).
  destruct (refund_shares _ _ _ _ _ Hrf Hf) as (refunds & Hcol & Hb & Hone).
  exists refunds. split; [done|]. split; [nia|].
  intros Hl. destruct (q_items q) as [|item [|]]; try done. rewrite Hsum, Z.add_shuffle0.
  rewrite (Hone item); [f_equal; lia|done|]. unfold total, cart_total in *. cbn in Hg, Hsub. lia.
Qed.
End placed_orders.

(** ** Restored stock *)
Section stock.
Context `{C : Chrono} `{P : PgJson} `{!PgJsonLaws P}.
Local Open Scope Z_scope.

(** The stock of a product, stored as an integer. *)
Definition stocked (s : store) (pid : string) (n : Z) : Prop :=
  ∃ row, table_rows s "products" !! pid = Some row
    ∧ get "stockQuantity" (row_data row) = Some (of_i64 n) ∧ - 2 ^ 63 ≤ n ≤ i64_max.

(** [qty] units go back to the stock of [pid], and nothing else changes. *)
Definition restocked (pid : string) (qty : Z) (s s' : store) : Prop :=
  (∀ c, c ≠ "products" → table_rows s' c = table_rows s c)
  ∧ (∀ p, p ≠ pid → table_rows s' "products" !! p = table_rows s "products" !! p)
  ∧ (∀ n, stocked s pid n → n + qty ≤ i64_max → stocked s' pid (n + qty)).

Lemma attempt_get c id s :
  is_ok (validate_identifier c) = true →
  attempt (get_document c id) s
  = (ensured c s, Ok (row_to_doc (bare_id c id) <$> table_rows s c !! bare_id c id)).
Proof.
  intros Hv. unfold attempt, get_document. rewrite with_table_valid by done. cbv beta zeta.
  rewrite table_rows_ensured. by destruct (table_rows s c !! bare_id c id).
Qed.

Lemma cas_text field n row :
  - 2 ^ 63 ≤ n ≤ i64_max → get field (row_data row) = Some (of_i64 n) → cas_matches field (of_i64 n) row = true.
Proof.
  intros Hn Hg. unfold cas_matches, field_text. rewrite Hg. cbn [mbind option_bind].
  rewrite of_i64_text by done. apply str_eqb_refl.
Qed.

Lemma object_of_get k v x : get k v = Some x → ∃ m, v = VObject m.
Proof. destruct v; try done. eauto. Qed.

Lemma cas_elsewhere c id data field expected now s c' :
  c ≠ c' → is_ok (validate_identifier c) = true →
  table_rows (update_document_cas c id data field expected now s).1 c' = table_rows s c'.
Proof.
  intros Hc Hv. unfold update_document_cas. rewrite with_table_valid by done. cbv beta zeta.
  destruct (table_rows (ensured c s) c !! _) as [row|]; [|apply table_rows_ensured].
  destruct (cas_matches _ _ _); cbn [fst]; [|apply table_rows_ensured].
  rewrite table_rows_insert_ne by done. apply table_rows_ensured.
Qed.

Lemma cas_returns c id data field expected now s :
  is_ok (validate_identifier c) = true →
  ∃ s' r, update_document_cas c id data field expected now s = (s', Ok r).
Proof.
  intros Hv. unfold update_document_cas. rewrite with_table_valid by done. cbv beta zeta.
  destruct (table_rows (ensured c s) c !! _) as [row|]; [|eauto]. destruct (cas_matches _ _ _); eauto.
Qed.

Lemma restock_once err clock stamp pid qty attempts s n :
  stocked s (bare_id "products" pid) n → 0 ≤ qty → n + qty ≤ i64_max →
  ∃ s', restore_stock err clock stamp pid qty (S attempts) s = (s', Ok true)
    ∧ stocked s' (bare_id "products" pid) (n + qty).
Proof.
  intros (row & Hrow & Hg & Hn) Hq Hle. cbn [restore_stock].
  rewrite (bind_run _ _ _ _ _ (attempt_get "products" pid s eq_refl)), Hrow. cbn [fmap option_fmap option_map default from_option id].
  assert (cents (row_to_doc (bare_id "products" pid) row) "stockQuantity" = n) as ->.
  { unfold cents, i64_field. rewrite get_row_to_doc, Hg by concrete. cbn [mbind option_bind].
    by rewrite as_i64_of_i64 by lia. }
  unfold i64_add. rewrite wrap_signed_id by (unfold i64_max in *; lia).
  set (data := stock_doc _ _).
  destruct (cas_applies "products" pid data "stockQuantity" (of_i64 n) (clock attempts) (ensured "products" s) row
    eq_refl) as (s' & doc & Hcas & Hrows); [by rewrite table_rows_ensured|by apply cas_text|].
  erewrite bind_run; [|unfold db_map_err; rewrite Hcas; reflexivity]. exists s'. split; [done|].
  exists (merged_row data (clock attempts) row). rewrite Hrows, lookup_insert_eq. split; [done|].
  destruct (object_of_get _ _ _ Hg) as [m Hm]. split; [|lia].
  unfold data, stock_doc. rewrite (merged_row_get _ _ row m); [done| |done]. destruct stamp; concrete.
Qed.

Lemma restock_frame err clock stamp pid qty attempts s :
  ∃ s' b, restore_stock err clock stamp pid qty attempts s = (s', Ok b)
    ∧ (∀ c, c ≠ "products" → table_rows s' c = table_rows s c)
    ∧ (∀ p, p ≠ bare_id "products" pid → table_rows s' "products" !! p = table_rows s "products" !! p).
Proof.
  revert s. induction attempts as [|attempts IH]; intros s; [by exists s, false|]. cbn [restore_stock].
  rewrite (bind_run _ _ _ _ _ (attempt_get "products" pid s eq_refl)).
  set (data := stock_doc _ _). set (expected := of_i64 (cents _ _)).
  destruct (cas_returns "products" pid data "stockQuantity" expected (clock attempts) (ensured "products" s) eq_refl)
    as (s1 & r & Hcas).
  pose proof (update_cas_rows "products" pid data "stockQuantity" expected (clock attempts) (ensured "products" s) eq_refl) as Hrows.
  pose proof (λ c, cas_elsewhere "products" pid data "stockQuantity" expected (clock attempts) (ensured "products" s) c) as Hne.
  rewrite Hcas in Hrows, Hne. cbn [fst] in *. setoid_rewrite table_rows_ensured in Hne. rewrite table_rows_ensured in Hrows.
  erewrite bind_run; [|unfold db_map_err; rewrite Hcas; reflexivity].
  assert ((∀ c, c ≠ "products" → table_rows s1 c = table_rows s c)
    ∧ (∀ p, p ≠ bare_id "products" pid → table_rows s1 "products" !! p = table_rows s "products" !! p)) as [H1 H2].
  { split; [intros c Hc; by apply Hne|]. intros p Hp. rewrite Hrows.
    destruct (table_rows s "products" !! bare_id "products" pid); [|done].
    destruct (cas_matches _ _ _); [by rewrite lookup_insert_ne|done]. }
  destruct r as [doc|]; [by exists s1, true|]. destruct (IH s1) as (s' & b & Hrun & H3 & H4).
  exists s', b. split; [done|]. split; [intros c Hc; by rewrite H3, H1|intros p Hp; by rewrite H4, H2].
Qed.

Lemma restore_stock_restocks err clock stamp pid qty attempts s :
  0 ≤ qty → ∃ s' b, restore_stock err clock stamp pid qty (S attempts) s = (s', Ok b)
    ∧ restocked (bare_id "products" pid) qty s s'.
Proof.
  intros Hq. destruct (restock_frame err clock stamp pid qty (S attempts) s) as (s' & b & Hrun & H1 & H2).
  exists s', b. split; [done|]. split_and!; [done|done|]. intros n Hn Hle.
  destruct (restock_once err clock stamp pid qty attempts s n Hn Hq Hle) as (s2 & Hrun2 & Hc).
  rewrite Hrun in Hrun2. by injection Hrun2 as <- _.
Qed.

(** The units of a product that a cancellation gives back. *)
Definition returns_stock (item : Value) : bool :=
  negb (bool_field item "isDigital") && negb (str_empty (str_field item "productId")) && (0 <? quantity_of item).
Definition returned_units (pid : string) (item : Value) : Z :=
  if returns_stock item && (bare_id "products" (str_field item "productId") =s? pid) then quantity_of item else 0.

Lemma returned_nonneg pid l : 0 ≤ total (returned_units pid <$> l).
Proof.
  induction l as [|x l IHl]; [done|]. unfold total in *. cbn [fmap list_fmap foldr].
  unfold returned_units at 1. destruct (returns_stock x) eqn:E; cbn [andb]; [|lia].
  case_match; [|lia]. unfold returns_stock in E. bools. apply Z.ltb_lt in H1. lia.
Qed.

Lemma restocked_counted pid qty p s s' n :
  restocked pid qty s s' → stocked s p n → n + (if pid =s? p then qty else 0) ≤ i64_max →
  stocked s' p (n + (if pid =s? p then qty else 0)).
Proof.
  intros (_ & H1 & H2) Hc. destruct (pid =s? p) eqn:E; bools; [subst; by apply H2|].
  rewrite Z.add_0_r. intros _. destruct Hc as (row & Hrow & Hg). exists row. by rewrite H1.
Qed.

Lemma restore_items_counted e i items s :
  ∃ s', restore_items e i items s = (s', Ok tt)
    ∧ (∀ c, c ≠ "products" → table_rows s' c = table_rows s c)
    ∧ (∀ pid n, stocked s pid n → n + total (returned_units pid <$> items) ≤ i64_max →
         stocked s' pid (n + total (returned_units pid <$> items))).
Proof.
  revert i s. induction items as [|item items IH]; intros i s.
  { exists s. split; [done|]. split; [done|]. intros pid n. cbn. by rewrite Z.add_0_r. }
  cbn [restore_items]. fold (returns_stock item).
  assert (∃ s1, (if returns_stock item then _ ← restore_stock (λ err, Database ("Failed to restore stock for product "
      +:+ str_field item "productId" +:+ ": " +:+ error_to_string err)) (λ k, fe_clock e (3 * i + k + 2)%nat)
      (Some (to_rfc3339 (fe_now e))) (str_field item "productId") (quantity_of item) 3; pure (Ok tt)
    else pure (Ok tt)) s = (s1, Ok tt)
    ∧ (∀ c, c ≠ "products" → table_rows s1 c = table_rows s c)
    ∧ (∀ pid n, stocked s pid n → n + returned_units pid item ≤ i64_max →
         stocked s1 pid (n + returned_units pid item))) as (s1 & Hrun & Hother & Hcount).
  { unfold returned_units. destruct (returns_stock item) eqn:E.
    - unfold returns_stock in E. bools. apply Z.ltb_lt in H0.
      edestruct (restore_stock_restocks) as (s1 & b & Hrun & Hres); [apply Z.lt_le_incl; exact H0|].
      exists s1. split; [rewrite (bind_run _ _ _ _ _ Hrun); done|]. split; [apply Hres|]. intros pid n Hc Hle. cbn [andb] in *.
      by eapply restocked_counted.
    - exists s. split; [done|]. split; [done|]. intros pid n Hc _. cbn. by rewrite Z.add_0_r. }
  rewrite (bind_run _ _ _ _ _ Hrun). destruct (IH (S i) s1) as (s' & Hrun' & Hother' & Hcount').
  exists s'. split; [done|]. split; [intros c Hc; by rewrite Hother', Hother|].
  intros pid n Hc Hle. unfold total in *. cbn [fmap list_fmap foldr] in *. pose proof (returned_nonneg pid items) as Hpos.
  rewrite Z.add_assoc. apply Hcount'; [|lia]. apply Hcount; [done|]. unfold total in Hpos. lia.
Qed.
End stock.

(** ** Checkout and cancellation *)
Section cancelled_orders.
Context `{C : Chrono} `{P : PgJson} `{T : TextLib} `{!PgJsonLaws P}.
Context (pg_invalid_bigint : string) (scan : rows → list (string * DocRow)) (scan_rows : ∀ rs, scan rs ≡ₚ map_to_list rs).
Context (pg_missing_table pg_duplicate_key : string → string).
Context (validate_turnstile : string → string → Result unit) (stripe : string → list (string * string) → stripe_reply).
Context (stripe_refunds : string → list (string * string) → refund_reply) (stripe_cancels : string → cancel_reply).
Abbreviation checkout := (create_checkout_session pg_invalid_bigint scan pg_missing_table pg_duplicate_key
  validate_turnstile stripe).
Abbreviation cancel_it := (cancel_order stripe_refunds stripe_cancels pg_invalid_bigint).

Lemma counted_stock s pid n : stocked s pid n → stock_of s pid = Some n.
Proof.
  intros (row & Hrow & Hg & Hn). unfold stock_of, row_stock, field_text. rewrite Hrow. cbn [mbind option_bind].
  rewrite Hg. cbn [mbind option_bind]. rewrite of_i64_text by done. cbn [mbind option_bind]. by apply parse_i64_pretty.
Qed.

Lemma exec_form db_now st s s' k pid n :
  exec_statement pg_invalid_bigint pg_missing_table pg_duplicate_key db_now st s = Ok (s', k) →
  stocked s pid n → ∃ n', stocked s' pid n'.
Proof.
  intros H (row & Hrow & Hg & Hn). unfold table_rows in Hrow.
  destruct (s !! "products") as [ps|] eqn:Ep; [|done]. cbn [default from_option id] in Hrow.
  assert (∀ s', table_rows s' "products" !! pid = Some row → ∃ n', stocked s' pid n') as Hsame.
  { intros s0 H0. by exists n, row. }
  destruct st as [table i data|p qty now]; cbn [exec_statement] in H.
  - destruct (s !! table) as [rs|] eqn:Et; [|done]. destruct (rs !! i) eqn:Ei; [done|]. injection H as <- _.
    apply Hsame. destruct (decide (table = "products")) as [->|Hne].
    + rewrite table_rows_insert. rewrite Ep in Et. injection Et as <-. by rewrite lookup_insert_ne by congruence.
    + rewrite table_rows_insert_ne by done. unfold table_rows. by rewrite Ep.
  - rewrite Ep in H.
    assert (table_rows s "products" !! pid = Some row) as Hs by (unfold table_rows; by rewrite Ep).
    destruct (ps !! p) as [row1|] eqn:Er; [|injection H as <- _; by apply Hsame].
    destruct (field_text "stockQuantity" (row_data row1)) as [text|] eqn:Etext; [|injection H as <- _; by apply Hsame].
    destruct (parse_i64 text) as [stock|] eqn:Eparse; [|done].
    destruct (Z.leb_spec (Z.of_N qty) stock); injection H as <- _; [|by apply Hsame].
    destruct (decide (p = pid)) as [->|Hne].
    + exists (stock - Z.of_N qty)%Z, (reserved_row qty now stock db_now row1). rewrite table_rows_insert.
      split; [apply lookup_insert_eq|]. apply parse_i64_range in Eparse. split; [|lia].
      rewrite Hrow in Er. injection Er as <-. destruct (object_of_get _ _ _ Hg) as [m Hm].
      cbn [reserved_row row_data]. rewrite Hm. by rewrite get_put_ne, get_put.
    + apply Hsame. rewrite table_rows_insert. by rewrite lookup_insert_ne.
Qed.

Lemma execs_counted db_now sts s s' pid n :
  execs pg_invalid_bigint pg_missing_table pg_duplicate_key db_now sts s s' →
  stocked s pid n → stocked s' pid (foldl (reserve pid) n sts).
Proof.
  intros H. revert n. induction H as [s|st sts s s1 s2 k He _ IH]; intros n Hn; [done|]. cbn [foldl]. apply IH.
  destruct (exec_form _ _ _ _ _ _ _ He Hn) as [n' Hn'].
  eapply exec_stock in He; [|by apply counted_stock]. rewrite (counted_stock _ _ _ Hn') in He. by injection He as <-.
Qed.

(** What a cancellation returns is what the placed order took. *)
Lemma accepted_returned pid user_id product_rows item snapshot :
  accepted user_id product_rows item snapshot → is_ok (validate_document_id (ci_product_id item)) = true →
  quantity_ok item → returned_units pid snapshot = item_units pid snapshot.
Proof.
  intros [(product & price & _ & _ & _ & _ & ->) _] Hid Hq. unfold returned_units, returns_stock, item_units, quantity_of, i64_field, quantity_ok in *.
  change (str_field (validated_item _ _ _ _) "productId") with (ci_product_id item).
  change (get "quantity" (validated_item _ _ _ _)) with (Some (VNumber (PosInt (ci_quantity item)))).
  change (bool_field (validated_item _ _ _ _) "isDigital") with (bool_field product "isDigital").
  cbn [mbind option_bind]. unfold as_i64, as_u64, MAX_ITEM_QUANTITY in *.
  replace (Z.of_N (ci_quantity item) <=? i64_max)%Z with true by (symmetry; apply Z.leb_le; unfold i64_max; lia).
  cbn [default from_option id]. replace (0 <? Z.of_N (ci_quantity item))%Z with true by (symmetry; apply Z.ltb_lt; lia).
  destruct (validate_document_id (ci_product_id item)) as [r| |] eqn:E; [|done|done].
  apply validate_document_id_Ok in E as (_ & Hne & _ & Hchars).
  rewrite bare_id_plain.
  - destruct (bool_field product "isDigital"); [done|]. destruct (ci_product_id item); [done|]. done.
  - destruct (strip_prefix _ _) as [rest|] eqn:E; [|done]. apply strip_prefix_Some in E.
    apply (char_free _ ":") in Hchars; [|done]. rewrite E in Hchars.
    by vm_compute in Hchars.
Qed.

Definition cancelled : CancelOrderResponse := {| xs_success := true; xs_refunded := false |}.

Lemma read_order_run order_id s row :
  table_rows s "orders" !! bare_id "orders" order_id = Some row →
  read_order order_id s = (ensured "orders" s, Ok (row_to_doc (bare_id "orders" order_id) row)).
Proof.
  intros Hrow. unfold read_order, db_map_err, get_document. rewrite with_table_valid by done. cbv beta zeta.
  by rewrite table_rows_ensured, Hrow.
Qed.

Lemma cancel_write_run e order_id user_id reason order payment_status s row status :
  table_rows s "orders" !! bare_id "orders" order_id = Some row →
  get "orderStatus" (row_data row) = Some (VString status) → str_field order "orderStatus" = status →
  ∃ s', cancel_write e order_id user_id reason order payment_status s = (s', Ok tt)
    ∧ table_rows s' "orders" = <[bare_id "orders" order_id :=
        merged_row (cancelled_doc e user_id reason payment_status) (fe_clock e 1) row]> (table_rows s "orders")
    ∧ ∀ c, c ≠ "orders" → table_rows s' c = table_rows s c.
Proof.
  intros Hrow Hst Hos. unfold cancel_write. rewrite Hos.
  set (doc := cancelled_doc e user_id reason payment_status).
  destruct (cas_applies "orders" order_id doc "orderStatus" (VString status) (fe_clock e 1) s row eq_refl Hrow)
    as (s1 & d & Hcas & Hrows).
  { unfold cas_matches, field_text. rewrite Hst. apply str_eqb_refl. }
  erewrite bind_run; [|unfold db_map_err; rewrite Hcas; reflexivity].
  exists s1. split; [done|]. split; [done|]. intros c Hc.
  pose proof (cas_elsewhere "orders" order_id doc "orderStatus" (VString status) (fe_clock e 1) s c) as Hel.
  rewrite Hcas in Hel. cbn [fst] in Hel. by apply Hel.
Qed.

Lemma create_run c data fresh now s :
  is_ok (validate_identifier c) = true → table_rows s c !! document_id data fresh = None →
  ∃ s' doc, create_document c data fresh now s = (s', Ok doc)
    ∧ ∀ c', c' ≠ c → table_rows s' c' = table_rows s c'.
Proof.
  intros Hv Hfree. destruct (create_document c data fresh now s) as [s' r] eqn:Hcr.
  assert (∀ c', c' ≠ c → table_rows s' c' = table_rows s c') as Hk.
  { intros c' Hc. eapply (keeps_run c' (db (create_document c data fresh now))); [by apply keeps_create|exact Hcr]. }
  unfold create_document in Hcr. rewrite with_table_valid in Hcr by done. cbv beta zeta in Hcr.
  rewrite table_rows_ensured, Hfree in Hcr. injection Hcr as <- <-. eauto.
Qed.

Lemma cancel_finish_run e order_id user_id order refunded s :
  bool_field order "stockRestored" = false → table_rows s "events" !! fe_event_id e = None →
  ∃ s', cancel_finish e order_id user_id order refunded s
        = (s', Ok {| xs_success := true; xs_refunded := refunded |})
    ∧ table_rows s' "orders" = table_rows s "orders"
    ∧ ∀ pid n, stocked s pid n → (n + total (returned_units pid <$> items_array order) ≤ i64_max)%Z →
        stocked s' pid (n + total (returned_units pid <$> items_array order)).
Proof.
  intros Hsr Hev. unfold cancel_finish. cbv zeta. rewrite Hsr.
  destruct (restore_items_counted e 0 (items_array order) s) as (s2 & Hrun & Hother & Hcount).
  rewrite (bind_run _ _ _ _ _ Hrun). set (event := VObject _). set (clk := fe_clock e _).
  destruct (create_run "events" event (fe_event_id e) clk s2 eq_refl) as (s3 & v & Hcr & Hs3).
  { change (document_id event (fe_event_id e)) with (fe_event_id e). by rewrite Hother. }
  erewrite bind_run; [|unfold db_map_err; rewrite Hcr; reflexivity]. exists s3. split; [done|].
  split; [by rewrite Hs3, Hother|]. intros pid n Hc Hle.
  destruct (Hcount pid n Hc Hle) as (r' & Hr' & Hg). exists r'. split; [|done]. by rewrite Hs3.
Qed.

(** The cancellation of an order that was not paid. *)
Lemma cancel_unpaid e auth req user_id s sl row status :
  let id := bare_id "orders" (xr_order_id req) in
  let order := row_to_doc id row in
  resolve_self_user_id auth (Some (xr_user_id req)) "userId" = Ok user_id →
  validate_uid "orderId" (xr_order_id req) = Ok tt →
  check_user_rate_limit pg_invalid_bigint (fe_test_mode e) user_id "cancel_order" 5 1
    (fe_secs e) (fe_limit_id e) (fe_limit_now e) s = (sl, Ok tt) →
  table_rows s "orders" !! id = Some row → get "orderStatus" (row_data row) = Some (VString status) →
  cancel_guards user_id (has_role "admin" auth) order = Ok tt →
  str_field order "paymentStatus" = "awaiting_payment" → bool_field order "stockRestored" = false →
  table_rows s "events" !! fe_event_id e = None →
  ∃ s' reason, cancel_it e auth req s = (s', Ok cancelled)
    ∧ table_rows s' "orders" !! id = Some (merged_row (cancelled_doc e user_id reason "cancelled") (fe_clock e 1) row)
    ∧ ∀ pid n, stocked s pid n → (n + total (returned_units pid <$> items_array order) ≤ i64_max)%Z →
        stocked s' pid (n + total (returned_units pid <$> items_array order)).
Proof.
  intros id order Hu Hv Hl Hrow Hst Hg Hpay Hsr Hev. unfold cancel_order.
  rewrite (bind_run _ _ s s user_id) by (unfold pure; by rewrite Hu).
  rewrite (bind_run _ _ s s tt) by (unfold pure; by rewrite Hv).
  rewrite (bind_run _ _ _ _ _ Hl). cbv zeta.
  set (reason := default _ (sanitized_opt 500 (xr_reason req))).
  assert (∀ c, c ≠ "rate_limits" → table_rows sl c = table_rows s c) as Hsl.
  { intros c Hc. eapply keeps_run; [|exact Hl]. by apply keeps_rate_limit. }
  rewrite (bind_run _ _ _ _ _ (read_order_run (xr_order_id req) sl row ltac:(by rewrite Hsl))). fold id order.
  rewrite (bind_run _ _ (ensured "orders" sl) (ensured "orders" sl) tt) by (unfold pure; by rewrite Hg).
  rewrite (bind_run _ _ (ensured "orders" sl) (ensured "orders" sl) ("cancelled", false))
    by (unfold cancel_payment; by rewrite Hpay). cbv beta iota.
  destruct (cancel_write_run e (xr_order_id req) user_id reason order "cancelled" (ensured "orders" sl) row status)
    as (s1 & Hw & Hrows & Hs1); [by rewrite table_rows_ensured, Hsl|done| |].
  { unfold order. rewrite str_field_doc by concrete. unfold str_field. by rewrite Hst. }
  rewrite (bind_run _ _ _ _ _ Hw).
  destruct (cancel_finish_run e (xr_order_id req) user_id order false s1 Hsr) as (s2 & Hf & Ho & Hcount).
  { by rewrite Hs1, table_rows_ensured, Hsl. }
  exists s2, reason. split; [exact Hf|]. split; [by rewrite Ho, Hrows, lookup_insert_eq|].
  intros pid n (r & Hr & Hg') Hle. apply Hcount; [|done]. exists r. split; [|done].
  by rewrite Hs1, table_rows_ensured, Hsl.
Qed.

Lemma resolve_nonempty auth provided field user_id : resolve_self_user_id auth provided field = Ok user_id → user_id ≠ "".
Proof.
  unfold resolve_self_user_id, require_authenticated. destruct (authenticated auth); [|done]. cbn [negb orb].
  destruct (auth_user_id auth) as [|c u] eqn:E; [done|]. cbn [str_empty mbind outcome_bind]. unfold must_match.
  intros H. repeat case_match; try done; by injection H as <-.
Qed.

Lemma buyer_may_cancel user_id is_admin order :
  get "buyerId" order = Some (VString user_id) → user_id ≠ "" → get "archived" order = None →
  str_field order "orderStatus" = "pending" → cancel_guards user_id is_admin order = Ok tt.
Proof.
  intros Hb Hne Ha Hst. unfold cancel_guards. cbv zeta. unfold bool_field at 1. rewrite Ha, Hst.
  assert (order_buyer_id order = user_id) as ->.
  { unfold order_buyer_id. rewrite Hb. cbn. by destruct user_id. }
  rewrite str_eqb_refl. cbn [default from_option mbind option_bind negb]. rewrite !andb_false_r. cbn [andb].
  by vm_compute.
Qed.

Lemma placed_returned pid e auth req s s' resp user_id province postal session_id q a :
  placed pg_invalid_bigint scan pg_missing_table pg_duplicate_key stripe
    e auth req s s' resp user_id province postal session_id q a →
  total (returned_units pid <$> q_items q) = order_units pid (placed_document e req user_id province postal session_id q a).
Proof.
  intros Hp. destruct (check_request_items _ _ _ (pl_request _ _ _ _ _ _ _ _ _ _ _ _ _ _ _ _ _ Hp)) as (Hc & _ & _).
  destruct (placed_accepted _ _ _ _ _ _ _ _ _ _ _ _ _ _ _ _ _ Hp) as [product_rows Hacc].
  change (order_units pid _) with (total (item_units pid <$> q_items q)). pose proof (check_items_ids _ Hc) as Hids.
  pose proof (check_items_ok _ Hc) as Hqs. clear -Hacc Hids Hqs.
  induction Hacc as [|item snapshot items snapshots Ha _ IH]; [done|].
  inversion Hids; inversion Hqs; subst. unfold total in *. cbn [fmap list_fmap foldr].
  rewrite IH by done. f_equal. by eapply accepted_returned.
Qed.

Lemma placed_counted pid n e auth req s s' resp user_id province postal session_id q a :
  placed pg_invalid_bigint scan pg_missing_table pg_duplicate_key stripe
    e auth req s s' resp user_id province postal session_id q a → stocked s pid n →
  let units := order_units pid (placed_document e req user_id province postal session_id q a) in
  (units ≤ n)%Z → stocked s' pid (n - units).
Proof.
  intros Hp Hn units Hle. destruct (pl_executes _ _ _ _ _ _ _ _ _ _ _ _ _ _ _ _ _ Hp) as (s1 & Hs1 & He).
  assert (stocked s1 pid n) as Hn1 by (destruct Hn as (r & Hr & Hg); exists r; by rewrite Hs1).
  pose proof (execs_counted _ _ _ _ _ _ He Hn1) as Hc'.
  match type of Hc' with context [foldl (reserve pid) n ?sts] => destruct (reserve_bounds pid sts n) as (_ & _ & H3) end.
  rewrite (placed_units _ _ _ _ _ pid _ _ _ _ _ _ _ _ _ _ _ _ Hp) in H3. by rewrite H3 in Hc'.
Qed.

(** C12: a cancellation undoes a checkout.  The buyer of an order that was placed
    and not yet paid can cancel it: the request succeeds, the order is cancelled,
    and of every product of which the ordered units were in stock the stock is
    again what it was before the checkout. *)
Theorem checkout_cancel_roundtrip e auth req s s1 resp e' auth' req' user_id sl :
  checkout e auth req s = (s1, Ok resp) → cr_duplicate resp = false →
  resolve_self_user_id auth (co_user_id req) "userId" = Ok user_id →
  resolve_self_user_id auth' (Some (xr_user_id req')) "userId" = Ok user_id →
  xr_order_id req' = cr_checkout_order_id resp → bare_id "orders" (xr_order_id req') = xr_order_id req' →
  validate_uid "orderId" (xr_order_id req') = Ok tt →
  check_user_rate_limit pg_invalid_bigint (fe_test_mode e') user_id "cancel_order" 5 1
    (fe_secs e') (fe_limit_id e') (fe_limit_now e') s1 = (sl, Ok tt) →
  table_rows s1 "events" !! fe_event_id e' = None →
  ∃ s2 row, cancel_it e' auth' req' s1 = (s2, Ok cancelled)
    ∧ table_rows s2 "orders" !! cr_checkout_order_id resp = Some row ∧ status_of row = "cancelled"
    ∧ ∀ pid n, stocked s pid n → (order_units pid (row_data row) ≤ n)%Z → stocked s2 pid n.
Proof.
  intros H Hd Hu Hu' Hid Hbare Hv Hl Hev.
  destruct (checkout_cases _ _ scan_rows _ _ _ _ _ _ _ _ _ _ H) as [[_ Hr]|(? & u & pr & po & sid & q & a & [= <-] & _ & Hp)].
  { specialize (answered_duplicate _ _ _ _ _ (Hr _ eq_refl)). congruence. }
  pose proof (pl_user _ _ _ _ _ _ _ _ _ _ _ _ _ _ _ _ _ Hp) as Hu1. rewrite Hu in Hu1. injection Hu1 as <-.
  destruct (placed_row _ _ _ _ _ _ _ _ _ _ _ _ _ _ _ _ _ Hp) as [_ Hrows].
  pose proof (pl_order _ _ _ _ _ _ _ _ _ _ _ _ _ _ _ _ _ Hp) as Ho.
  set (doc := placed_document e req user_id pr po sid q a) in *. set (row := {| row_data := doc |}) in Hrows.
  assert (table_rows s1 "orders" !! bare_id "orders" (xr_order_id req') = Some row) as Hrow
    by (rewrite Hrows, Hbare, Hid, Ho; apply lookup_insert_eq).
  destruct (cancel_unpaid e' auth' req' user_id s1 sl row "pending" Hu' Hv Hl Hrow eq_refl)
    as (s2 & reason & Hrun & Hrow2 & Hcount).
  { apply buyer_may_cancel; [by rewrite get_row_to_doc by concrete|by eapply resolve_nonempty|by rewrite get_row_to_doc by concrete|].
    by rewrite str_field_doc by concrete. }
  { by rewrite str_field_doc by concrete. }
  { unfold bool_field. by rewrite get_row_to_doc by concrete. }
  { done. }
  rewrite items_doc in Hcount. change (items_array (row_data row)) with (q_items q) in Hcount.
  rewrite Hbare, Hid in Hrow2. exists s2. eexists. split; [done|]. split; [exact Hrow2|].
  assert (∀ k, get k (row_data (merged_row (cancelled_doc e' user_id reason "cancelled") (fe_clock e' 1) row))
    = match get k (cancelled_doc e' user_id reason "cancelled") with Some v => Some v | None => get k doc end) as Hget.
  { intros k. eapply merged_row_get; [|reflexivity]. concrete. }
  split; [unfold status_of, str_field; by rewrite Hget|]. intros pid n Hn Hle.
  pose proof (placed_counted pid n _ _ _ _ _ _ _ _ _ _ _ _ Hp Hn) as Hc.
  pose proof (placed_returned pid _ _ _ _ _ _ _ _ _ _ _ _ Hp) as Htot.
  assert (order_units pid (row_data (merged_row (cancelled_doc e' user_id reason "cancelled") (fe_clock e' 1) row))
    = order_units pid doc) as He by (unfold order_units, items_array; by rewrite Hget).
  cbv zeta in Htot, Hc. fold doc in Htot, Hc. rewrite He in Hle. specialize (Hcount _ _ (Hc Hle)). rewrite Htot in Hcount.
  replace (n - order_units pid doc + order_units pid doc)%Z with n in Hcount by lia. apply Hcount.
  destruct Hn as (_ & _ & _ & Hn). lia.
Qed.
End cancelled_orders.

(** ** Refunds at the same time

    Refunds of items of one order, interleaved at every access to the store:
    each has its amount and goes through the phases of [reserve_refund] and,
    when Stripe fails, of [reservation_rollback]. *)
Inductive phase : Type :=
| Waiting                  (** before a read *)
| Init (cur new : Z)       (** read: the field is missing *)
| Checked (cur new : Z)    (** read: the total allows it *)
| Granted | Denied
| RollingBack (rb : Z)     (** Stripe failed, the amount to undo is read *)
| RolledBack.

Section interleavings.
Context `{C : Chrono} `{P : PgJson}.
Context (stripe_fails : bool) (order_id : string) (amounts : list Z).

Definition after_read (amount : Z) (doc : Value) : phase :=
  match refund_room amount doc with
  | None => Denied
  | Some (cur, new) => if lacks_cumulative doc then Init cur new else Checked cur new
  end.

(** Another handler writes, and leaves the two amounts alone. *)
Definition keeps_amounts (s s' : store) : Prop :=
  ∀ row, table_rows s "orders" !! bare_id "orders" order_id = Some row →
  ∃ row', table_rows s' "orders" !! bare_id "orders" order_id = Some row'
    ∧ get cumulative (row_data row') = get cumulative (row_data row)
    ∧ get "totalAmountCents" (row_data row') = get "totalAmountCents" (row_data row).

Inductive refund_step : store * list phase → store * list phase → Prop :=
| step_read i amount doc s s' ph : ph !! i = Some Waiting → amounts !! i = Some amount →
    get_document "orders" order_id s = (s', Ok doc) →
    refund_step (s, ph) (s', <[i := after_read amount doc]> ph)
| step_init i cur new now r s s' ph : ph !! i = Some (Init cur new) →
    init_cumulative now order_id s = (s', r) →
    refund_step (s, ph) (s', <[i := Checked cur new]> ph)
| step_cas i cur new now r s s' ph : ph !! i = Some (Checked cur new) →
    reserve_cas now order_id cur new s = (s', Ok r) →
    refund_step (s, ph) (s', <[i := match r with Some _ => Granted | None => Waiting end]> ph)
| step_rollback_read i doc s s' ph : stripe_fails = true → ph !! i = Some Granted →
    attempt (get_document "orders" order_id) s = (s', Ok doc) →
    refund_step (s, ph) (s', <[i := RollingBack (cents (default VNull doc) cumulative)]> ph)
| step_rollback_write i rb amount now r s s' ph : ph !! i = Some (RollingBack rb) → amounts !! i = Some amount →
    ignored (update_document "orders" order_id (cumulative_doc (Z.max (i64_sub rb amount) 0)) now) s = (s', r) →
    refund_step (s, ph) (s', <[i := RolledBack]> ph)
| step_other s s' ph : keeps_amounts s s' → refund_step (s, ph) (s', ph).

(** What the granted refunds come to. *)
Definition granted_amount (amount : Z) (p : phase) : Z := match p with Granted => amount | _ => 0%Z end.
Definition granted (ph : list phase) : Z := total (zip_with granted_amount amounts ph).
End interleavings.

Lemma granted_insert amounts ph i p q amount :
  ph !! i = Some p → amounts !! i = Some amount →
  granted amounts (<[i := q]> ph) = (granted amounts ph - granted_amount amount p + granted_amount amount q)%Z.
Proof.
  unfold granted, total. revert ph i. induction amounts as [|a amounts IH]; intros [|p0 ph] [|i]; try done.
  - intros [= ->] [= ->]. change (<[0%nat := q]> (p :: ph)) with (q :: ph). cbn [zip_with foldr]. lia.
  - change (<[S i := q]> (p0 :: ph)) with (p0 :: <[i := q]> ph). cbn [zip_with foldr]. intros H1 H2.
    rewrite (IH ph i H1 H2). lia.
Qed.

Section granted_refunds.
Context `{C : Chrono} `{P : PgJson} `{!PgJsonLaws P}.
Context (order_id : string) (amounts : list Z) (c0 paid : Z).
Local Open Scope Z_scope.
Abbreviation id := (bare_id "orders" order_id).

(** The order, with [c] cents reserved for refunds. *)
Definition reserved_cents (s : store) (c : Z) : Prop :=
  ∃ row, table_rows s "orders" !! id = Some row
    ∧ get cumulative (row_data row) = Some (of_i64 c)
    ∧ get "totalAmountCents" (row_data row) = Some (of_i64 paid).

Definition phase_ok (amount : Z) (p : phase) : Prop :=
  match p with
  | Waiting | Granted | Denied => True
  | Checked cur new => new = cur + amount ∧ new ≤ paid ∧ 0 ≤ cur ≤ paid
  | Init _ _ | RollingBack _ | RolledBack => False
  end.
Definition refunds_ok (cfg : store * list phase) : Prop :=
  reserved_cents cfg.1 (c0 + granted amounts cfg.2) ∧ 0 ≤ c0 + granted amounts cfg.2 ≤ paid
  ∧ Forall2 phase_ok amounts cfg.2.

Context (Hamounts : Forall (λ a, 0 ≤ a < 2 ^ 62) amounts) (Hpaid : 0 ≤ paid ≤ 2 ^ 62).

Lemma read_reserved s s' doc c :
  reserved_cents s c → 0 ≤ c ≤ paid → get_document "orders" order_id s = (s', Ok doc) →
  reserved_cents s' c ∧ ∀ amount, 0 ≤ amount < 2 ^ 62 → phase_ok amount (after_read amount doc)
    ∧ granted_amount amount (after_read amount doc) = 0.
Proof.
  intros (row & Hrow & Hc & Ht) Hle H. unfold get_document in H. rewrite with_table_valid in H by done.
  cbv beta zeta in H. rewrite table_rows_ensured, Hrow in H. injection H as <- <-.
  split; [exists row; by rewrite table_rows_ensured|]. intros amount Ha.
  assert (∀ k z, get k (row_data row) = Some (of_i64 z) → ¬ is_metadata k → z ≤ paid →
    cents (row_to_doc id row) k = z) as Hf.
  { intros k z Hk Hm Hz. unfold cents, i64_field. rewrite get_row_to_doc, Hk by done. cbn [mbind option_bind].
    rewrite as_i64_of_i64; [done|]. unfold i64_max. lia. }
  unfold after_read, refund_room. cbv zeta. rewrite (Hf _ _ Hc), (Hf _ _ Ht) by (concrete || lia).
  unfold i64_add. rewrite wrap_signed_id by lia. destruct (Z.ltb_spec paid (c + amount)); [done|].
  unfold lacks_cumulative. rewrite get_row_to_doc, Hc by concrete. unfold of_i64.
  destruct (c <? 0); rewrite andb_false_r; cbn; lia.
Qed.

Lemma cas_reserved s s' now cur new r c :
  reserved_cents s c → 0 ≤ c ≤ paid → 0 ≤ cur ≤ paid → reserve_cas now order_id cur new s = (s', Ok r) →
  match r with Some _ => cur = c ∧ reserved_cents s' new | None => reserved_cents s' c end.
Proof.
  intros (row & Hrow & Hc & Ht) Hle Hcur H. unfold reserve_cas in H. apply map_err_ok in H.
  assert (cas_matches cumulative (of_i64 cur) row = bool_decide (c = cur)) as Hm.
  { unfold cas_matches, field_text. rewrite Hc. cbn [mbind option_bind].
    rewrite !of_i64_text by (unfold i64_max; lia). case_bool_decide as He; [subst; apply str_eqb_refl|].
    apply bool_decide_eq_false. intros Hp. apply He. by apply (inj pretty). }
  case_bool_decide as He.
  - destruct (cas_applies "orders" order_id (cumulative_doc new) cumulative (of_i64 cur) now s row eq_refl Hrow Hm)
      as (s1 & doc & Hcas & Hrows). rewrite Hcas in H. injection H as <- <-. split; [done|].
    eexists. split; [by rewrite Hrows, lookup_insert_eq|]. destruct (object_of_get _ _ _ Hc) as [m Hobj].
    unfold cumulative_doc. rewrite !(merged_row_get _ _ row m) by (done || concrete).
    split; [done|]. exact Ht.
  - rewrite (cas_refused "orders" _ _ _ _ _ _ _ eq_refl Hrow Hm) in H. injection H as <- <-.
    exists row. by rewrite table_rows_ensured.
Qed.

Lemma refund_step_ok cfg cfg' :
  refunds_ok cfg → refund_step false order_id amounts cfg cfg' → refunds_ok cfg'.
Proof.
  intros (Hres & Hle & Hph) Hstep. assert (∀ i p, cfg.2 !! i = Some p → ∃ a, amounts !! i = Some a
    ∧ phase_ok a p ∧ 0 ≤ a < 2 ^ 62) as Hlook.
  { intros i p Hp. destruct (Forall2_lookup_r _ _ _ _ _ Hph Hp) as (a & Ha & Hok). exists a.
    split_and!; [done|done|..]; by apply (Forall_lookup_1 _ _ _ _ Hamounts Ha). }
  assert (∀ i a q, amounts !! i = Some a → phase_ok a q → Forall2 phase_ok amounts (<[i := q]> cfg.2)) as Hins.
  { intros i a q Ha Hq. rewrite <- (list_insert_id amounts i a) at 1 by done. by apply Forall2_insert. }
  destruct Hstep as [i a doc s s' ph Hi Ha Hg|i cur new now r s s' ph Hi|i cur new now r s s' ph Hi Hw|??????
    |i rb a now r s s' ph Hi|s s' ph Hk]; cbn [fst snd] in *; try done.
  - destruct (Hlook _ _ Hi) as (a' & Ha' & _ & Hr). rewrite Ha in Ha'. injection Ha' as <-.
    destruct (read_reserved _ _ _ _ Hres Hle Hg) as [Hres' Hafter]. destruct (Hafter a Hr) as [Hok H0].
    unfold refunds_ok. cbn [fst snd]. rewrite (granted_insert _ _ _ _ _ _ Hi Ha), H0. cbn [granted_amount].
    rewrite Z.sub_0_r, Z.add_0_r. eauto.
  - by destruct (Hlook _ _ Hi) as (? & _ & [] & _).
  - destruct (Hlook _ _ Hi) as (a & Ha & (-> & Hnew & Hcur) & Hr).
    pose proof (cas_reserved _ _ _ _ _ _ _ Hres Hle Hcur Hw) as Hcas.
    unfold refunds_ok. cbn [fst snd]. rewrite (granted_insert _ _ _ _ _ _ Hi Ha). cbn [granted_amount].
    destruct r as [doc|]; cbn [granted_amount].
    + destruct Hcas as [-> Hcas]. rewrite Z.sub_0_r, Z.add_assoc. split_and!; [done|lia|lia|]. by eapply Hins.
    + rewrite Z.sub_0_r, Z.add_0_r. split_and!; [done|lia|lia|]. by eapply Hins.
  - by destruct (Hlook _ _ Hi) as (? & _ & [] & _).
  - split; [|done]. destruct Hres as (row & Hrow & Hc & Ht). destruct (Hk row Hrow) as (row' & Hrow' & Hc' & Ht').
    exists row'. split; [done|]. by rewrite Hc', Ht'.
Qed.

(** C11: refunds never exceed the payment.  Refunds of one order that run at the
    same time, interleaved in any way with each other and with handlers that
    leave the two amounts alone, are granted at most what is left of the total,
    and the order records exactly what was granted; this is for an order that
    has the field and while no request to Stripe fails. *)
Theorem concurrent_refunds_bounded s s' ph :
  reserved_cents s c0 → 0 ≤ c0 ≤ paid →
  rtc (refund_step false order_id amounts) (s, replicate (length amounts) Waiting) (s', ph) →
  granted amounts ph ≤ paid - c0 ∧ reserved_cents s' (c0 + granted amounts ph).
Proof.
  intros Hres Hc Hrtc. assert (granted amounts (replicate (length amounts) Waiting) = 0) as H0.
  { unfold granted, total. clear. induction amounts as [|a l IH]; [done|]. cbn in *. lia. }
  assert (refunds_ok (s', ph)) as (H1 & H2 & _).
  { revert Hrtc. generalize (s', ph). intros cfg Hrtc.
    remember (s, replicate (length amounts) Waiting) as cfg0 eqn:Hcfg.
    assert (refunds_ok cfg0) as Hok.
    { subst cfg0. unfold refunds_ok. cbn [fst snd]. rewrite H0, Z.add_0_r. split_and!; [done|lia|lia|].
      clear. induction amounts; cbn; by constructor. }
    clear Hcfg. induction Hrtc; [done|]. apply IHHrtc. by eapply refund_step_ok. }
  cbn [fst snd] in *. split; [lia|done].
Qed.
End granted_refunds.

(** ** The refund of an item *)
Section item_refunds.
Context `{C : Chrono} `{P : PgJson} `{T : TextLib} `{!PgJsonLaws P}.
Context (pg_invalid_bigint : string) (injected_update : string → string → store → store * Result unit).
Context (stripe_refunds : string → list (string * string) → refund_reply).
Abbreviation refund := (refund_order_item stripe_refunds pg_invalid_bigint injected_update).

(** The row, with [new] cents reserved. *)
Definition reserved_in (row row' : DocRow) (new : Z) : Prop :=
  get cumulative (row_data row') = Some (of_i64 new)
  ∧ (∀ k, k ≠ cumulative → get k (row_data row') = get k (row_data row)) ∧ ∃ m, row_data row' = VObject m.

Lemma merged_cumulative z now row m :
  row_data row = VObject m → reserved_in row (merged_row (cumulative_doc z) now row) z.
Proof.
  intros Hm. unfold cumulative_doc. split; [|split].
  - by rewrite (merged_row_get _ _ row m) by (done || concrete).
  - intros k Hk. rewrite (merged_row_get _ _ row m) by (done || concrete). cbn [assoc_get].
    by destruct (k =s? cumulative) eqn:E; [bools|].
  - cbn. rewrite Hm. eauto.
Qed.

Lemma get_run c id s row :
  is_ok (validate_identifier c) = true → table_rows s c !! bare_id c id = Some row →
  get_document c id s = (ensured c s, Ok (row_to_doc (bare_id c id) row)).
Proof.
  intros Hv Hrow. unfold get_document. rewrite with_table_valid by done. cbv beta zeta.
  by rewrite table_rows_ensured, Hrow.
Qed.

Lemma init_run now order_id s row :
  table_rows s "orders" !! bare_id "orders" order_id = Some row →
  init_cumulative now order_id s
  = (<["orders" := <[bare_id "orders" order_id := merged_row (cumulative_doc 0) now row]> (table_rows s "orders")]>
       (ensured "orders" s), Ok tt).
Proof.
  intros Hrow. unfold init_cumulative, ignored, update_document. rewrite with_table_valid by done. cbv beta zeta.
  by rewrite table_rows_ensured, Hrow.
Qed.

Lemma reserve_cas_ok now order_id cur new s s1 r row m :
  table_rows s "orders" !! bare_id "orders" order_id = Some row → row_data row = VObject m →
  reserve_cas now order_id cur new s = (s1, Ok r) →
  match r with
  | Some _ => table_rows s1 "orders" !! bare_id "orders" order_id = Some (merged_row (cumulative_doc new) now row)
  | None => table_rows s1 "orders" = table_rows s "orders" ∧ cas_matches cumulative (of_i64 cur) row = false
  end ∧ ∀ c, c ≠ "orders" → table_rows s1 c = table_rows s c.
Proof.
  intros Hrow Hm H. unfold reserve_cas in H. apply map_err_ok in H.
  pose proof (λ c, cas_elsewhere "orders" order_id (cumulative_doc new) cumulative (of_i64 cur) now s c) as Hel.
  rewrite H in Hel. cbn [fst] in Hel. split; [|intros c Hc; by apply Hel].
  destruct (cas_matches cumulative (of_i64 cur) row) eqn:E.
  - destruct (cas_applies "orders" order_id (cumulative_doc new) cumulative (of_i64 cur) now s row eq_refl Hrow E)
      as (s' & doc & Hcas & Hrows). rewrite Hcas in H. injection H as <- <-. by rewrite Hrows, lookup_insert_eq.
  - rewrite (cas_refused "orders" _ _ _ _ _ _ _ eq_refl Hrow E) in H. injection H as <- <-.
    split; [apply table_rows_ensured|done].
Qed.

(** A reservation that nothing disturbs. *)
Lemma reserve_refund_ok clock order_id amount attempts s s1 row m :
  table_rows s "orders" !! bare_id "orders" order_id = Some row → row_data row = VObject m →
  reserve_refund clock order_id amount attempts s = (s1, Ok true) →
  let new := i64_add (cents (row_data row) cumulative) amount in
  (new ≤ cents (row_data row) "totalAmountCents")%Z
  ∧ (∃ row1, table_rows s1 "orders" !! bare_id "orders" order_id = Some row1 ∧ reserved_in row row1 new)
  ∧ ∀ c, c ≠ "orders" → table_rows s1 c = table_rows s c.
Proof.
  intros Hrow Hm H new. revert s Hrow H. induction attempts as [|attempts IH]; intros s Hrow H; [done|].
  cbn [reserve_refund] in H.
  rewrite (bind_run _ _ s (ensured "orders" s) (row_to_doc (bare_id "orders" order_id) row)) in H
    by (unfold db_map_err; by rewrite (get_run "orders" _ _ _ eq_refl Hrow)).
  set (doc := row_to_doc _ row) in H.
  assert (∀ k, ¬ is_metadata k → cents doc k = cents (row_data row) k) as Hdoc.
  { intros k Hk. unfold cents, i64_field, doc. by rewrite get_row_to_doc. }
  unfold refund_room in H. rewrite !Hdoc in H by concrete. fold new in H.
  destruct (Z.ltb_spec (cents (row_data row) "totalAmountCents") new) as [|Hle]; [done|]. split; [done|].
  destruct (lacks_cumulative doc) eqn:El.
  - rewrite (bind_run _ _ _ _ _ (init_run _ _ (ensured "orders" s) row ltac:(by rewrite table_rows_ensured))) in H.
    unfold lacks_cumulative in El. bools. apply Z.eqb_eq in H0. rewrite Hdoc in H0 by concrete. rewrite H0 in H.
    destruct (merged_cumulative 0 (clock (2 * attempts)%nat) row m Hm) as (Hc1 & Hk1 & m1 & Hm1).
    set (row1 := merged_row _ _ row) in *. run_inv H. set (si := <["orders" := _]> _) in R.
    assert (table_rows si "orders" !! bare_id "orders" order_id = Some row1) as Hrow1
      by (unfold si; by rewrite table_rows_insert, lookup_insert_eq).
    apply (reserve_cas_ok _ _ _ _ _ _ _ row1 m1) in R as [R Hother]; [|done|done]. destruct a as [d|].
    + apply pure_ok in H as [-> _]. split.
      * eexists. split; [exact R|]. destruct (merged_cumulative new (clock (2 * attempts + 1)%nat) row1 m1 Hm1) as (? & Hk2 & ?).
        split; [done|]. split; [|done]. intros k Hk. by rewrite Hk2, Hk1.
      * intros c Hc. unfold si in Hother. rewrite Hother, table_rows_insert_ne, !table_rows_ensured by done. done.
    + destruct R as [_ R]. rewrite cas_text in R; [done|unfold i64_max; lia|done].
  - rewrite (bind_run _ _ (ensured "orders" s) (ensured "orders" s) tt) in H by done. run_inv H.
    apply (reserve_cas_ok _ _ _ _ _ _ _ row m) in R as [R Hother]; [|by rewrite table_rows_ensured|done].
    assert (∀ c, c ≠ "orders" → table_rows s0 c = table_rows s c) as Hs0
      by (intros c Hc; by rewrite Hother, table_rows_ensured).
    destruct a as [d|].
    + apply pure_ok in H as [-> _]. split; [|done]. eexists. split; [exact R|]. by eapply merged_cumulative.
    + destruct R as [R _]. rewrite table_rows_ensured in R.
      destruct attempts as [|attempts]; [done|]. destruct (IH s0) as (_ & Hres & Hs1); [by rewrite R|done|].
      split; [done|]. intros c Hc. by rewrite Hs1, Hs0.
Qed.

(** Who may refund which item of an order, and for how much. *)
Record may_refund (is_admin : bool) (user_id product_id : string) (order item : Value) (amount : Z) : Prop := {
  mr_item : ∃ i, find_item_index (items_array order) product_id = Some i ∧ items_array order !! i = Some item;
  mr_caller : is_admin = true ∨ str_field item "sellerId" = user_id;
  mr_paid : str_field order "paymentStatus" = "captured";
  mr_payout : str_field order "payoutStatus" ≠ "processing";
  mr_once : str_field item "status" ≠ "refunded";
  mr_amount : calculate_refund_amount_cents order item = Ok amount;
}.

Lemma refund_plan_inv user_id is_admin now product_id order item amount :
  refund_plan user_id is_admin now product_id order = Ok (Some (item, amount)) →
  may_refund is_admin user_id product_id order item amount.
Proof.
  unfold refund_plan. destruct (list_find _ (items_array order)) as [[i it]|] eqn:Ef; [|done].
  cbn [fmap option_fmap option_map snd ok_or mbind outcome_bind]. intros H.
  destruct (negb is_admin && negb (str_field it "sellerId" =s? user_id)) eqn:E1; [done|].
  destruct (negb (str_field order "paymentStatus" =s? "captured")) eqn:E2; [done|].
  destruct (str_field order "payoutStatus" =s? "processing") eqn:E3; [done|].
  destruct (str_field it "status" =s? order_status_str Order.Refunded) eqn:E4; [done|].
  destruct (negb is_admin && _ && _); [done|].
  destruct (calculate_refund_amount_cents order it) as [x| |] eqn:E5; try done. injection H as <- <-. bools.
  split; try done.
  - exists i. unfold find_item_index. rewrite Ef. split; [done|]. by apply list_find_Some in Ef as (? & _).
  - destruct is_admin; [by left|right]. cbn [negb andb] in E1. by bools.
Qed.

Lemma is_user_admin_run user_id s s' b :
  is_user_admin user_id s = (s', Ok b) → b = stored_admin s user_id ∧ ∀ c, table_rows s' c = table_rows s c.
Proof.
  intros H. unfold is_user_admin, get_document in H. rewrite with_table_valid in H by done. cbv beta zeta in H.
  rewrite table_rows_ensured in H. unfold stored_admin.
  destruct (table_rows s "users" !! _) as [row|]; injection H as <- <-;
    (split; [done|intros c; apply table_rows_ensured]).
Qed.

Lemma refund_at_stripe_ok e req order amount s s' refund_id :
  refund_at_stripe stripe_refunds e req order amount s = (s', Ok refund_id) →
  s' = s ∧ ∃ body, stripe_refunds ("refund_" +:+ rr_order_id req +:+ "_" +:+ rr_product_id req)
    (refund_form (str_field order "paymentIntentId") (Some amount) "requested_by_customer"
      [("orderId", rr_order_id req); ("productId", rr_product_id req)]) = RefundBody body
    ∧ refund_id = get "id" body ≫= as_str.
Proof.
  intros H. unfold refund_at_stripe in H. cbv zeta in H. run_inv H.
  destruct (stripe_refund _ _ _ _ _ _ _) as [rid|err|] eqn:E; [|by run_inv H|done].
  apply pure_ok in H as [-> [= <-]]. split; [done|]. unfold stripe_refund in E.
  destruct (ok_or _ (fe_stripe_key e)) as [key| |]; [|done|done]. cbn [mbind outcome_bind] in E.
  case_match; try done. injection E as <-. eauto.
Qed.

(** The goods come back: licences end, physical items return to the stock. *)
Definition goods_returned (order_id product_id : string) (item : Value) (s s' : store) : Prop :=
  if is_digital_item item then
    ∀ i row, table_rows s' "licenses" !! i = Some row → ∀ o p, one_word order_id = Some o →
      one_word product_id = Some p → active_licence o p row = false
  else ∀ n, stocked s (bare_id "products" product_id) n →
    (0 ≤ quantity_of item)%Z → (n + quantity_of item ≤ i64_max)%Z →
    stocked s' (bare_id "products" product_id) (n + quantity_of item).

Lemma revoked_row o p now db_now row :
  active_licence o p row = true →
  active_licence o p (merged_row (VObject [("revokedAt", VString now); ("status", VString "revoked")]) db_now row) = false.
Proof.
  unfold active_licence. intros H. bools. apply andb_false_intro2, bool_decide_eq_false.
  destruct (row_data row) as [| | | | |m] eqn:Em; try done. unfold field_text.
  rewrite (merged_row_get _ _ row m); [done|concrete|done].
Qed.

Lemma revoke_run now db_now order_id product_id o p s :
  one_word order_id = Some o → one_word product_id = Some p →
  ∃ s', revoke_licences injected_update now db_now order_id product_id s = (s', Ok tt)
    ∧ (∀ c, c ≠ "licenses" → table_rows s' c = table_rows s c)
    ∧ ∀ i row, table_rows s' "licenses" !! i = Some row → active_licence o p row = false.
Proof.
  intros Ho Hp. unfold revoke_licences. rewrite Ho, Hp. cbv zeta. eexists. split; [reflexivity|]. split.
  - intros c Hc. rewrite table_rows_insert_ne by done. apply keeps_ensure_first.
  - intros i row. rewrite table_rows_insert, lookup_fmap, keeps_ensure_first.
    destruct (table_rows s "licenses" !! i) as [r|]; [|done]. intros [= <-].
    destruct (active_licence o p r) eqn:E; [by apply revoked_row|done].
Qed.

Lemma counted_same s s' pid n :
  table_rows s' "products" = table_rows s "products" → stocked s pid n → stocked s' pid n.
Proof. intros Hs (row & Hrow & Hg). exists row. by rewrite Hs. Qed.

Lemma goods_run err clock now db_now order_id product_id item s :
  is_Some (one_word order_id) → is_Some (one_word product_id) →
  ∃ s', (if is_digital_item item then revoke_licences injected_update now db_now order_id product_id
         else _ ← restore_stock err clock (Some now) product_id (quantity_of item) 3; pure (Ok tt)) s = (s', Ok tt)
    ∧ table_rows s' "orders" = table_rows s "orders" ∧ table_rows s' "events" = table_rows s "events"
    ∧ goods_returned order_id product_id item s s'.
Proof.
  intros [o Ho] [p Hp]. unfold goods_returned. destruct (is_digital_item item).
  - destruct (revoke_run now db_now order_id product_id o p s Ho Hp) as (s' & Hrun & Hother & Hr).
    exists s'. split; [done|]. split_and!; [by apply Hother..|]. intros i row Hrow o' p'. rewrite Ho, Hp.
    intros [= <-] [= <-]. by eapply Hr.
  - destruct (restock_frame err clock (Some now) product_id (quantity_of item) 3 s) as (s' & b & Hrun & Hother & _).
    exists s'. split; [by rewrite (bind_run _ _ _ _ _ Hrun)|]. split_and!; [by apply Hother..|]. intros n Hn Hq Hle.
    destruct (restore_stock_restocks err clock (Some now) product_id (quantity_of item) 2 s Hq) as (s2 & b2 & Hrun2 & _ & _ & Hc).
    rewrite Hrun in Hrun2. injection Hrun2 as <- _. by apply Hc.
Qed.

Lemma goods_same order_id product_id item s0 s s' s1 :
  table_rows s "products" = table_rows s0 "products" → table_rows s1 "products" = table_rows s' "products" →
  table_rows s1 "licenses" = table_rows s' "licenses" →
  goods_returned order_id product_id item s s' → goods_returned order_id product_id item s0 s1.
Proof.
  intros H1 H2 H3. unfold goods_returned. destruct (is_digital_item item); [by rewrite H3|].
  intros Hg n Hn Hq Hle. eapply counted_same; [exact H2|]. apply Hg; [|done..]. by eapply counted_same.
Qed.

Lemma refund_finish_ok e req user_id reason order item amount refund_id s s' resp row m :
  table_rows s "orders" !! bare_id "orders" (rr_order_id req) = Some row → row_data row = VObject m →
  is_Some (one_word (rr_order_id req)) → is_Some (one_word (rr_product_id req)) →
  refund_finish injected_update e req user_id reason order item amount refund_id s = (s', Ok resp) →
  rs_refund_amount_cents resp = amount ∧ rs_refund_id resp = refund_id
  ∧ (∃ its row', mark_refunded (rr_product_id req) (to_rfc3339 (fe_now e)) reason amount refund_id (items_array order) = Ok its
       ∧ table_rows s' "orders" !! bare_id "orders" (rr_order_id req) = Some row'
       ∧ items_of row' = its ∧ ∀ k, k ∉ ["items"; "updatedAt"] → get k (row_data row') = get k (row_data row))
  ∧ goods_returned (rr_order_id req) (rr_product_id req) item s s'.
Proof.
  intros Hrow Hm Ho Hp H. unfold refund_finish in H. cbv zeta in H. run_inv H. run_inv H. rename a into its.
  unfold update_document in R0. rewrite with_table_valid in R0 by done. cbv beta zeta in R0.
  rewrite table_rows_ensured, Hrow in R0. set (row' := merged_row _ _ row) in R0. injection R0 as <- <-.
  set (s1 := <["orders" := _]> _) in H.
  match type of H with context [if is_digital_item item then revoke_licences _ ?now ?t _ _ else restore_stock ?err ?clock _ _ _ _ ≫= _] =>
    destruct (goods_run err clock now t (rr_order_id req) (rr_product_id req) item s1 Ho Hp) as (s2 & Hrun & Hs2 & _ & Hg) end.
  rewrite (bind_run _ _ _ _ _ Hrun) in H. run_inv H. apply pure_ok in H as [-> [= <-]].
  assert (∀ c, c ≠ "events" → table_rows s0 c = table_rows s2 c) as Hs0.
  { intros c Hc. match type of R0 with create_document ?a ?b ?f ?n _ = _ =>
      eapply (keeps_run c (db (create_document a b f n))); [|exact R0] end. by apply keeps_create. }
  split_and!; [done|done| |].
  - exists its, row'. split; [done|]. rewrite Hs0, Hs2 by done. unfold s1. rewrite table_rows_insert, lookup_insert_eq.
    split; [done|]. split; [unfold items_of, items_array, row'; by rewrite (merged_row_get _ _ row m) by (done || concrete)|].
    intros k Hk. unfold row'. rewrite (merged_row_get _ _ row m) by (done || concrete). cbn [assoc_get].
    destruct (k =s? "items") eqn:E1; [bools; set_solver|]. destruct (k =s? "updatedAt") eqn:E2; [bools; set_solver|done].
  - eapply goods_same; [| | |exact Hg]; [|by apply Hs0..]. unfold s1.
    rewrite table_rows_insert_ne by done. apply table_rows_ensured.
Qed.

Lemma refund_exceeds_fails order_id amount s s' r : refund_exceeds order_id amount s = (s', Ok r) → False.
Proof. unfold refund_exceeds. intros H. run_inv H. by apply pure_ok in H as [_ ?]. Qed.

Lemma object_of_doc i row : str_field (row_to_doc i row) "paymentStatus" ≠ "" → ∃ m, row_data row = VObject m.
Proof. rewrite str_field_doc by concrete. destruct (row_data row); try done. eauto. Qed.

(** C10: a successful refund.  The caller is an administrator or the seller of the
    item, the payment was captured and the item was not refunded before; Stripe
    was asked for, and accepted, exactly the amount computed from the order and
    reported; that amount is reserved within the total and recorded; the item is
    marked refunded and nothing else of the order changes; and its licences are
    revoked or its units are back in stock. *)
Theorem refund_order_item_ok e auth req s s' resp row :
  let id := bare_id "orders" (rr_order_id req) in
  let order := row_to_doc id row in
  let amount := rs_refund_amount_cents resp in
  refund e auth req s = (s', Ok resp) → rs_already_refunded resp = None →
  bare_id "orders" id = id → table_rows s "orders" !! id = Some row →
  is_Some (one_word (rr_order_id req)) → is_Some (one_word (rr_product_id req)) →
  ∃ item row' body reason new,
    may_refund (stored_admin s (auth_user_id auth)) (auth_user_id auth) (rr_product_id req) order item amount
    ∧ stripe_refunds ("refund_" +:+ rr_order_id req +:+ "_" +:+ rr_product_id req)
        (refund_form (str_field order "paymentIntentId") (Some amount) "requested_by_customer"
          [("orderId", rr_order_id req); ("productId", rr_product_id req)]) = RefundBody body
    ∧ table_rows s' "orders" !! id = Some row'
    ∧ new = i64_add (cents order cumulative) amount ∧ (new ≤ cents order "totalAmountCents")%Z
    ∧ get cumulative (row_data row') = Some (of_i64 new)
    ∧ mark_refunded (rr_product_id req) (to_rfc3339 (fe_now e)) reason amount (rs_refund_id resp) (items_array order)
      = Ok (items_of row')
    ∧ (∀ k, k ∉ [cumulative; "items"; "updatedAt"] → get k (row_data row') = get k (row_data row))
    ∧ goods_returned (rr_order_id req) (rr_product_id req) item s s'.
Proof.
  intros id order amount H Hnew Hbare Hrow Ho Hp. unfold refund_order_item in H. cbv zeta in H.
  run_inv H. run_inv H. run_inv H. run_inv H. run_inv H. run_inv H.
  assert (∀ c, c ≠ "rate_limits" → table_rows s0 c = table_rows s c) as Hs0.
  { intros c Hc. eapply keeps_run; [|exact R1]. by apply keeps_rate_limit. }
  rewrite (read_order_run _ _ row) in R2 by (by rewrite Hs0). injection R2 as <- <-. fold id in R4, H. fold order in R4, H.
  apply is_user_admin_run in R3 as [-> Hs2]. setoid_rewrite table_rows_ensured in Hs2.
  destruct a4 as [[item amt]|]; [|apply pure_ok in H as [-> [= <-]]; done].
  apply refund_plan_inv in R4 as Hmay. run_inv H. run_inv H. run_inv H.
  assert (stored_admin (ensured "orders" s0) (auth_user_id auth) = stored_admin s (auth_user_id auth)) as Hadm.
  { unfold stored_admin. by rewrite table_rows_ensured, Hs0. }
  rewrite Hadm in Hmay. destruct (object_of_doc id row) as [m Hm]; [fold order; by rewrite (mr_paid _ _ _ _ _ _ Hmay)|].
  destruct a2; [|by apply refund_exceeds_fails in R3]. apply pure_ok in R3 as [-> _].
  apply (reserve_refund_ok _ _ _ _ _ _ row m) in R2 as (Hle & (row1 & Hrow1 & Hc1 & Hk1 & m1 & Hm1) & Hs1);
    [|by rewrite Hs2, Hs0, Hbare|done]. rewrite Hbare in Hrow1.
  apply refund_at_stripe_ok in R5 as (-> & body & Hbody & Hrid).
  apply (refund_finish_ok _ _ _ _ _ _ _ _ _ _ _ row1 m1) in H as (Hamt & Hid & (its & row' & Hits & Hrow' & Hi & Hk) & Hg);
    [|done..]. unfold amount. rewrite Hamt, Hid. exists item, row', body. do 2 eexists. split; [done|].
  split; [done|]. split; [done|]. split; [reflexivity|].
  assert (∀ k, ¬ is_metadata k → cents order k = cents (row_data row) k) as Hdoc.
  { intros k Hk'. unfold cents, i64_field, order. by rewrite get_row_to_doc. }
  rewrite !Hdoc by concrete. split; [done|]. split; [by rewrite Hk by concrete|].
  split; [rewrite Hi; exact Hits|]. split.
  - intros k Hk'. rewrite Hk, Hk1; set_solver.
  - eapply goods_same; [| | |exact Hg]; [by rewrite Hs1, Hs2, Hs0|done|done].
Qed.
End item_refunds.

(** ** Concrete instances *)
Section refund_witnesses.
#[local] Instance demo_f_chrono : Chrono := plain_chrono.
#[local] Instance demo_f_json : PgJson := plain_json.
#[local] Instance demo_f_text : TextLib := plain_textlib.

Lemma refunds_add_up_witness :
  ∃ row paid, table_rows after_two "orders" !! "o1" = Some row
    ∧ let order := row_to_doc "o1" row in
      i64_field "totalAmountCents" order = Some paid
      ∧ (cents order "discountAmountCents" = 0%Z →
         ∃ refunds, collect (calculate_refund_amount_cents order) (items_array order) = Ok refunds
           ∧ (Z.abs (total refunds - paid) ≤ Z.of_nat (length (items_array order)))%Z
           ∧ (length (items_array order) = 1 → refunds = [paid])).
Proof.
  apply (refunds_add_up "" map_to_list demo_scan id id (λ _ _, Ok tt)
    demo_stripe (demo_k_env "o1" "l1") (admin_auth "ann") two_of_p1 demo_shop after_two (demo_response 637)).
  - apply demo_shop_ok.
  - apply demo_placed.
  - done.
Defined.

(** The refund of the order placed with a coupon of half its price: the two
    units cost 4000 cents, 2000 after the discount, and nothing is refunded. *)
Definition half_coupon : DocRow :=
  {| row_data := VObject [("code", VString "HALF50"); ("couponType", VString "percentage");
                          ("discountValue", VNumber (PosInt 50)); ("isActive", VBool true)];
     row_created_at := 1; row_updated_at := 1 |}.
Definition coupon_shop : store := <["coupons" := {["HALF50" := half_coupon]}]> demo_shop.
Definition half_price_cart : CreateCheckoutRequest :=
  {| co_items := co_items two_of_p1; co_shipping_address := co_shipping_address two_of_p1; co_user_id := None;
     co_subtotal_cents := 2000; co_coupon_code := Some "HALF50"; co_eula_accepted := false;
     co_age_verification_accepted := false; co_idempotency_key := Some "k1"; co_turnstile_token := None |}.
Definition refunds_of (order : Value) : Result (list Z) :=
  collect (calculate_refund_amount_cents order) (items_array order).
Example half_price_refund :
  let '(s, r) := demo_checkout "o1" half_price_cart coupon_shop in
  is_ok r = true ∧ (refunds_of ∘ row_data <$> table_rows s "orders" !! "o1") = Some (Ok [0%Z])
  ∧ (i64_field "totalAmountCents" ∘ row_data <$> table_rows s "orders" !! "o1") = Some (Some 3276%Z).
Proof. by vm_compute. Qed.

(** The buyer cancels the order placed in the demonstration shop. *)
Definition demo_f_env (stripe_key : option string) (event_id : string) : refund_env :=
  {| fe_test_mode := true; fe_stripe_key := stripe_key; fe_secs := 1000; fe_limit_id := "l3"; fe_limit_now := 12;
     fe_window_now := 13; fe_now := 14; fe_clock := λ k, (20 + Z.of_nat k)%Z; fe_event_id := event_id |}.
Definition demo_cancel : CancelOrderRequest := {| xr_order_id := "o1"; xr_user_id := "ann"; xr_reason := None |}.
Definition no_refunds (key : string) (form : list (string * string)) : refund_reply := RefundRefused.
Definition no_cancels (payment_intent : string) : cancel_reply := CancelRefused.

Lemma checkout_cancel_roundtrip_witness :
  ∃ s2 row, cancel_order no_refunds no_cancels "" (demo_f_env None "e1") (admin_auth "ann") demo_cancel after_two
            = (s2, Ok cancelled)
    ∧ table_rows s2 "orders" !! "o1" = Some row ∧ status_of row = "cancelled"
    ∧ ∀ pid n, stocked demo_shop pid n → (order_units pid (row_data row) ≤ n)%Z → stocked s2 pid n.
Proof.
  apply (checkout_cancel_roundtrip (PgJsonLaws0 := plain_json_laws) "" map_to_list demo_scan id id (λ _ _, Ok tt)
    demo_stripe no_refunds no_cancels (demo_k_env "o1" "l1") (admin_auth "ann") two_of_p1 demo_shop after_two
    (demo_response 637) (demo_f_env None "e1") (admin_auth "ann") demo_cancel "ann" after_two).
  - apply demo_placed.
  - done.
  - evaluates.
  - evaluates.
  - evaluates.
  - evaluates.
  - evaluates.
  - done.
  - evaluates.
Defined.

(** A captured order of two items, 5000 and 3000 cents, with 800 cents of tax
    and 400 of shipping, and the stock of its products. *)
Definition paid_item (product seller : string) (price : Z) (digital : bool) : Value :=
  VObject [("isDigital", VBool digital); ("priceCents", of_i64 price); ("productId", VString product);
           ("quantity", VNumber (PosInt 1)); ("sellerId", VString seller)].
Definition paid_fields (cumulated : list (string * Value)) : list (string * Value) :=
  ("buyerId", VString "ann") :: cumulated ++ [("items", VArray [paid_item "p1" "sue" 5000 false; paid_item "p2" "tom" 3000 true]);
   ("orderStatus", VString "confirmed"); ("paymentIntentId", VString "pi_1"); ("paymentStatus", VString "captured");
   ("shippingCostCents", of_i64 400); ("subtotalCents", of_i64 8000); ("taxAmountCents", of_i64 800);
   ("totalAmountCents", of_i64 9200)].
Definition plain_row (data : Value) : DocRow := {| row_data := data; row_created_at := 1; row_updated_at := 1 |}.
Definition paid_row (cumulated : list (string * Value)) : DocRow := plain_row (VObject (paid_fields cumulated)).
Definition paid_store (cumulated : list (string * Value)) : store :=
  <["orders" := {["o1" := paid_row cumulated]}]> demo_shop.

Definition stripe_accepts (key : string) (form : list (string * string)) : refund_reply :=
  RefundBody (VObject [("id", VString "re_1")]).
Definition demo_refund (product : string) (env : refund_env) (user : string) : handler RefundItemResponse :=
  refund_order_item stripe_accepts "" (λ _ _ s, (s, Ok tt)) env
    {| auth_user_id := user; auth_roles := []; authenticated := true; email_verified := true; custom_claims := VNull |}
    {| rr_order_id := "o1"; rr_product_id := product; rr_user_id := user; rr_reason := None |}.
Definition refunded_p1 : store := (demo_refund "p1" (demo_f_env (Some "sk") "e1") "sue" (paid_store [])).1.
Definition p1_response : RefundItemResponse :=
  {| rs_success := true; rs_refund_amount_cents := 5750; rs_refund_id := Some "re_1"; rs_already_refunded := None |}.
Lemma demo_refunded : demo_refund "p1" (demo_f_env (Some "sk") "e1") "sue" (paid_store []) = (refunded_p1, Ok p1_response).
Proof. evaluates. Qed.

Lemma refund_order_item_ok_witness :
  ∃ item row' body reason new,
    may_refund false "sue" "p1" (row_to_doc "o1" (paid_row [])) item 5750
    ∧ stripe_accepts "refund_o1_p1" (refund_form "pi_1" (Some 5750%Z) "requested_by_customer"
        [("orderId", "o1"); ("productId", "p1")]) = RefundBody body
    ∧ table_rows refunded_p1 "orders" !! "o1" = Some row'
    ∧ new = 5750%Z ∧ (new ≤ 9200)%Z
    ∧ get cumulative (row_data row') = Some (of_i64 new)
    ∧ mark_refunded "p1" (to_rfc3339 14) reason 5750 (Some "re_1") (items_array (row_to_doc "o1" (paid_row [])))
      = Ok (items_of row')
    ∧ (∀ k, k ∉ [cumulative; "items"; "updatedAt"] → get k (row_data row') = get k (row_data (paid_row [])))
    ∧ goods_returned "o1" "p1" item (paid_store []) refunded_p1.
Proof.
  apply (refund_order_item_ok (PgJsonLaws0 := plain_json_laws) "" (λ _ _ s, (s, Ok tt)) stripe_accepts
    (demo_f_env (Some "sk") "e1")
    {| auth_user_id := "sue"; auth_roles := []; authenticated := true; email_verified := true; custom_claims := VNull |}
    {| rr_order_id := "o1"; rr_product_id := "p1"; rr_user_id := "sue"; rr_reason := None |}
    (paid_store []) refunded_p1 p1_response (paid_row [])).
  - apply demo_refunded.
  - done.
  - evaluates.
  - evaluates.
  - by eexists.
  - by eexists.
Defined.

(** The units of a refunded item come back once more when the order is then
    cancelled: of the product p1 there were three. *)
Example refunded_then_cancelled :
  let '(s, r) := cancel_order stripe_accepts no_cancels "" (demo_f_env (Some "sk") "e2") (admin_auth "ann")
                   demo_cancel refunded_p1 in
  r = Ok {| xs_success := true; xs_refunded := true |}
  ∧ stock_of (paid_store []) "p1" = Some 3%Z ∧ stock_of refunded_p1 "p1" = Some 4%Z ∧ stock_of s "p1" = Some 5%Z.
Proof. by vm_compute. Qed.

(** Two refunds of 5750 cents, of which the order has room for one: both read,
    one is granted, the other reads again and is denied. *)
Definition with_cents (c : Z) : store := paid_store [(cumulative, of_i64 c)].
Definition order_with (c : Z) : Value := row_to_doc "o1" (paid_row [(cumulative, of_i64 c)]).
Definition reserve_at (now cur new : Z) (s : store) : store := (reserve_cas now "o1" cur new s).1.
Definition answer_at (now cur new : Z) (s : store) : option Value :=
  match (reserve_cas now "o1" cur new s).2 with Ok r => r | _ => None end.
Definition granted_one : store := reserve_at 30 0 5750 (with_cents 0).
Definition reread (s : store) : Value := default VNull (row_to_doc "o1" <$> table_rows s "orders" !! "o1").

(** One step of an interleaving, its premises by evaluation. *)
Ltac step_by rule := eapply rtc_l; [eapply rule; evaluates|].

Lemma two_reads :
  rtc (refund_step false "o1" [5750%Z; 5750%Z]) (with_cents 0, [Waiting; Waiting]) (granted_one, [Granted; Denied]).
Proof.
  set (amounts := [5750%Z; 5750%Z]).
  step_by (step_read false "o1" amounts 0 5750 (order_with 0) (with_cents 0) (with_cents 0)).
  step_by (step_read false "o1" amounts 1 5750 (order_with 0) (with_cents 0) (with_cents 0)).
  step_by (step_cas false "o1" amounts 0 0 5750 30 (answer_at 30 0 5750 (with_cents 0)) (with_cents 0) granted_one).
  step_by (step_cas false "o1" amounts 1 0 5750 31 None granted_one granted_one).
  step_by (step_read false "o1" amounts 1 5750 (reread granted_one) granted_one granted_one).
  apply rtc_refl.
Qed.

Lemma with_cents_reserved c : reserved_cents "o1" 9200 (with_cents c) c.
Proof. exists (paid_row [(cumulative, of_i64 c)]). by split_and!. Qed.

Lemma concurrent_refunds_bounded_witness :
  (granted [5750%Z; 5750%Z] [Granted; Denied] ≤ 9200 - 0)%Z
  ∧ reserved_cents "o1" 9200 granted_one (0 + granted [5750%Z; 5750%Z] [Granted; Denied]).
Proof.
  apply (concurrent_refunds_bounded (PgJsonLaws0 := plain_json_laws) "o1" [5750%Z; 5750%Z] 0 9200) with (with_cents 0).
  - repeat constructor; lia.
  - lia.
  - apply with_cents_reserved.
  - lia.
  - exact two_reads.
Defined.

(** Without the field both refunds find it missing and set it to zero; the
    second does so after the first was granted, and both are granted: 11500
    cents of the 9200 that were paid. *)
Definition no_field : store := paid_store [].
Definition init_at (now : Z) (s : store) : store := (init_cumulative now "o1" s).1.
Definition first_granted : store := reserve_at 31 0 5750 (init_at 30 no_field).
Definition both_granted : store := reserve_at 33 0 5750 (init_at 32 first_granted).
Theorem missing_field_overrefunds :
  rtc (refund_step false "o1" [5750%Z; 5750%Z]) (no_field, [Waiting; Waiting]) (both_granted, [Granted; Granted])
  ∧ (9200 < granted [5750%Z; 5750%Z] [Granted; Granted])%Z.
Proof.
  split; [|done]. set (amounts := [5750%Z; 5750%Z]).
  step_by (step_read false "o1" amounts 0 5750 (reread no_field) no_field no_field).
  step_by (step_read false "o1" amounts 1 5750 (reread no_field) no_field no_field).
  step_by (step_init false "o1" amounts 0 0 5750 30 (Ok tt) no_field (init_at 30 no_field)).
  step_by (step_cas false "o1" amounts 0 0 5750 31 (answer_at 31 0 5750 (init_at 30 no_field))
    (init_at 30 no_field) first_granted).
  step_by (step_init false "o1" amounts 1 0 5750 32 (Ok tt) first_granted (init_at 32 first_granted)).
  step_by (step_cas false "o1" amounts 1 0 5750 33 (answer_at 33 0 5750 (init_at 32 first_granted))
    (init_at 32 first_granted) both_granted).
  apply rtc_refl.
Qed.

(** The rollback after a failure at Stripe writes without a guard: a refund
    granted between its read and its write is forgotten, and the whole total
    can be refunded again. *)
Definition second_granted : store := reserve_at 34 5750 9200 granted_one.
Definition rolled_back : store := (update_document "orders" "o1" (cumulative_doc 0) 35 second_granted).1.
Definition third_granted : store := reserve_at 36 0 9200 rolled_back.
Theorem rollback_overrefunds :
  rtc (refund_step true "o1" [5750%Z; 3450%Z; 9200%Z]) (with_cents 0, [Waiting; Waiting; Waiting])
    (third_granted, [RolledBack; Granted; Granted])
  ∧ (9200 < granted [5750%Z; 3450%Z; 9200%Z] [RolledBack; Granted; Granted])%Z.
Proof.
  split; [|done]. set (amounts := [5750%Z; 3450%Z; 9200%Z]).
  step_by (step_read true "o1" amounts 0 5750 (order_with 0) (with_cents 0) (with_cents 0)).
  step_by (step_cas true "o1" amounts 0 0 5750 30 (answer_at 30 0 5750 (with_cents 0)) (with_cents 0) granted_one).
  step_by (step_rollback_read true "o1" amounts 0 (Some (reread granted_one)) granted_one granted_one).
  step_by (step_read true "o1" amounts 1 3450 (reread granted_one) granted_one granted_one).
  step_by (step_cas true "o1" amounts 1 5750 9200 34 (answer_at 34 5750 9200 granted_one) granted_one second_granted).
  step_by (step_rollback_write true "o1" amounts 0 5750 5750 35 (Ok tt) second_granted rolled_back).
  step_by (step_read true "o1" amounts 2 9200 (reread rolled_back) rolled_back rolled_back).
  step_by (step_cas true "o1" amounts 2 0 9200 36 (answer_at 36 0 9200 rolled_back) rolled_back third_granted).
  apply rtc_refl.
Qed.
End refund_witnesses.
