(* ===== verification/Returns.v ===== *)
(** * Returns

    crates/ob-handlers/src/orders/returns.rs: the buyer's request to return an
    item, the seller's and administrator's answers to it, and the buyer's
    escalation with the notifications it stores and sends.

    The push service is a parameter, and so are the rows the statement for the
    push tokens gives: it writes [user_id IN $1], which PostgreSQL does not parse,
    and names columns the table does not have, so that nothing is known of it. *)

From S2P Require Export Refunds.

(** ** Requests *)

Record CreateReturnRequest : Type := {
  nr_order_id : string; nr_product_id : string; nr_user_id : string; nr_return_reason : string }.
Record CreateReturnResponse : Type := { ns_success : bool; ns_return_id : string }.
Record ApproveReturnReq : Type := {
  ar_return_id : string; ar_user_id : string; ar_action : string;
  ar_return_tracking_number : option string; ar_return_admin_note : option string }.
Record ApproveReturnResponse : Type := { as_success : bool; as_new_status : string }.
Record RejectReturnReq : Type := { jr_return_id : string; jr_user_id : string; jr_reason : option string }.
Record RejectReturnResponse : Type := { js_success : bool; js_new_status : string }.
Record EscalateReturnReq : Type := {
  er_return_id : string; er_user_id : string; er_escalation_reason : string }.
Record EscalateReturnResponse : Type := {
  es_success : bool; es_new_status : string; es_return_status : string; es_return_id : string }.

(** ** Helpers *)

Definition assert_within_return_window `{TextLib} (now : Z) (item : Value) : Result unit :=
  match (get "deliveredAt" item ≫= as_str) ≫= parse_rfc3339 with
  | Some dt =>
      if (RETURN_WINDOW_DAYS <? num_days (now - dt))%Z then
        Err (Validation ("Return window expired. Returns must be requested within "
                         +:+ pretty RETURN_WINDOW_DAYS +:+ " days of delivery."))
      else Ok tt
  | None => Ok tt
  end.

Definition valid_return_transitions (from : string) : list string :=
  if from =s? "requested" then ["approved"; "rejected"]
  else if from =s? "approved" then ["label_issued"; "received"]
  else if from =s? "label_issued" then ["received"]
  else if from =s? "received" then ["refunded"]
  else [].
Definition may_become (from to : string) : bool := existsb (str_eqb to) (valid_return_transitions from).

Section handlers.
Context `{C : Chrono} `{P : PgJson} `{T : TextLib}.
Context (pg_invalid_bigint : string) (scan : rows → list (string * DocRow)).
Context (stripe_refunds : string → list (string * string) → refund_reply).
(** The rows of the statement for the push tokens of some users, and whether
    the push service takes a message: project, account, token, title, body,
    data. *)
Context (push_token_rows : list string → store → list Value).
Context (send_push : string → string → string → string → string → list (string * string) → bool).

(** The clock readings, fresh ids and settings of one request. *)
Record return_env : Type := {
  ve_test_mode : bool;
  ve_stripe_key : option string;
  ve_fcm_project : option string; ve_fcm_account : option string;
  ve_secs : Z; ve_limit_id : string; ve_limit_now : Z;   (** the limiter's *)
  ve_window_now : Z;                                     (** [Utc::now()] of the return window *)
  ve_now : Z;                                            (** [Utc::now()] of the update *)
  ve_notify_now : Z; ve_delivered_now : nat → Z;         (** of the notifications *)
  ve_clock : nat → Z;                                    (** the database's clock at each write *)
  ve_return_id : string;                                 (** the UUID of the handler *)
  ve_doc_id : string;                                    (** the UUID of the store *)
  ve_event_id : string;
}.

(** *** create_return_request *)

(** The item that may be returned. *)
Definition return_plan (user_id product_id : string) (now : Z) (order : Value) : Result Value :=
  if negb (str_field order "userId" =s? user_id) then
    Err (Forbidden "You can only return items from your own orders")
  else
    item ← ok_or (NotFound "Item not found in this order")
             (snd <$> list_find (λ it, str_field it "productId" = product_id) (items_array order));
    if bool_field item "isDigital" then Err (Validation "Digital products cannot be returned")
    else if negb (str_field item "status" =s? "delivered") then
      Err (Validation "Item must be marked as delivered before requesting a return")
    else
      _ ← assert_within_return_window now item;
      Ok item.

Definition return_of (order_id product_id user_id : string) (row : DocRow) : bool :=
  bool_decide (field_text "orderId" (row_data row) = Some order_id)
  && bool_decide (field_text "productId" (row_data row) = Some product_id)
  && bool_decide (field_text "buyerId" (row_data row) = Some user_id).

Definition return_document (e : return_env) (req : CreateReturnRequest) (user_id return_reason : string)
    (item : Value) : Value :=
  let now := to_rfc3339 (ve_now e) in
  VObject [("buyerId", VString user_id);
           ("fulfillmentWarehouseId", VString (str_field item "fulfillmentWarehouseId"));
           ("name", VString (str_field item "name")); ("orderId", VString (nr_order_id req));
           ("productId", VString (nr_product_id req)); ("quantity", of_i64 (quantity_of item));
           ("requestedAt", VString now); ("returnId", VString (ve_return_id e));
           ("returnReason", VString return_reason); ("returnStatus", VString "requested");
           ("sellerId", VString (str_field item "sellerId")); ("updatedAt", VString now)].

Definition create_return_request (e : return_env) (auth : AuthContext) (req : CreateReturnRequest) :
    handler CreateReturnResponse :=
  _ ← pure (validate_uid "orderId" (nr_order_id req));
  _ ← pure (validate_uid "productId" (nr_product_id req));
  user_id ← pure (resolve_self_user_id auth (Some (nr_user_id req)) "userId");
  _ ← check_user_rate_limit pg_invalid_bigint (ve_test_mode e) user_id "create_return_request" 3 60
        (ve_secs e) (ve_limit_id e) (ve_limit_now e);
  let return_reason := take_chars 1000 (sanitize_html (nr_return_reason req)) in
  _ ← pure (if str_empty (trim return_reason) then Err (Validation "returnReason is required") else Ok tt);
  order ← read_order (nr_order_id req);
  item ← pure (return_plan user_id (nr_product_id req) (ve_window_now e) order);
  existing ← select_where scan "return_requests" (return_of (nr_order_id req) (nr_product_id req) user_id);
  _ ← pure (match head existing with
            | Some doc =>
                let status := str_field doc "returnStatus" in
                if negb (status =s? "rejected") && negb (status =s? "refunded") then
                  Err (Validation "A return request already exists for this item")
                else Ok tt
            | None => Ok tt
            end);
  _ ← db_map_err (λ e, Database ("Failed to create return request: " +:+ error_to_string e))
        (create_document "return_requests" (return_document e req user_id return_reason item)
          (ve_doc_id e) (ve_clock e 0));
  pure (Ok {| ns_success := true; ns_return_id := ve_return_id e |}).

(** *** approve_return_request *)

Definition read_return (return_id : string) : handler Value :=
  db_map_err (λ _, NotFound "Return request not found") (get_document "return_requests" return_id).
Definition update_return (e : return_env) (return_id : string) (patch : Value) : handler unit :=
  _ ← db_map_err (λ err, Database ("Failed to update return: " +:+ error_to_string err))
        (update_document "return_requests" return_id patch (ve_clock e 0));
  pure (Ok tt).
Definition opt_field (k : string) (o : option string) : list (string * Value) :=
  match o with Some x => [(k, VString x)] | None => [] end.
Definition status_patch (e : return_env) (status : string) (more : list (string * Value)) : Value :=
  put_all more (VObject [("returnStatus", VString status); ("updatedAt", VString (to_rfc3339 (ve_now e)))]).

(** The two actions that only change the status. *)
Definition advance (e : return_env) (req : ApproveReturnReq) (current_status status verb : string)
    (more : list (string * Value)) : handler string :=
  _ ← pure (if may_become current_status status then Ok tt
            else Err (Validation ("Cannot " +:+ verb +:+ " status '" +:+ current_status +:+ "'")));
  _ ← update_return e (ar_return_id req) (status_patch e status more);
  pure (Ok status).

Definition received_fields (now : string) (amount : Z) (refund_id : option string) : list (string * Value) :=
  [("status", VString "refunded"); ("refundedAt", VString now); ("refundReason", VString "Return approved");
   ("refundAmountCents", of_i64 amount)] ++ opt_field "refundId" refund_id.

(** The refund and the goods, before anything is written. *)
Definition refund_received (e : return_env) (return_id order_id product_id : string) (order : Value)
    (amount : Z) : Result (option string) :=
  let payment_intent_id := str_field order "paymentIntentId" in
  if str_empty payment_intent_id then Ok None
  else stripe_refund stripe_refunds (ve_stripe_key e) payment_intent_id (Some amount) "requested_by_customer"
         ("return_refund_" +:+ return_id +:+ "_" +:+ product_id)
         [("orderId", order_id); ("productId", product_id); ("returnId", return_id)].
Definition restock_received (e : return_env) (product_id : string) (qty : Z) : handler unit :=
  if negb (str_empty product_id) && (0 <? qty)%Z then
    restored ← restore_stock (λ err, Database ("Failed to restore stock for returned product " +:+ product_id
                                               +:+ ": " +:+ error_to_string err))
                 (λ k, ve_clock e (4 + k)) (Some (to_rfc3339 (ve_now e))) product_id qty 3;
    pure (if restored : bool then Ok tt
          else Err (Database ("Failed to restore stock for returned product " +:+ product_id
                              +:+ ": concurrent modification")))
  else pure (Ok tt).

(** What is written once the money and the goods are back. *)
Definition record_received (e : return_env) (user_id return_id order_id product_id : string)
    (updated_items : list Value) (amount : Z) : handler unit :=
  let now := to_rfc3339 (ve_now e) in
  _ ← db_map_err (λ err, Database ("Failed to update refunded return request: " +:+ error_to_string err))
        (update_document "return_requests" return_id (VObject
          [("resolvedAt", VString now); ("returnRefundAmountCents", of_i64 amount);
           ("returnStatus", VString "refunded"); ("updatedAt", VString now)]) (ve_clock e 1));
  _ ← db_map_err (λ err, Database ("Failed to update refunded order item: " +:+ error_to_string err))
        (update_document "orders" order_id
          (VObject [("items", VArray updated_items); ("updatedAt", VString now)]) (ve_clock e 2));
  _ ← db_map_err (λ err, Database ("Failed to log return refund event: " +:+ error_to_string err))
        (create_document "events" (VObject
          [("createdAt", VString now); ("eventType", VString "return_received_and_refunded");
           ("message", VString ("Return " +:+ return_id +:+ " received and item " +:+ product_id +:+ " refunded"));
           ("metadata", VObject [("productId", VString product_id); ("refundAmountCents", of_i64 amount);
                                 ("returnId", VString return_id)]);
           ("orderId", VString order_id); ("userId", VString user_id)])
          (ve_event_id e) (ve_clock e 3));
  pure (Ok tt).

Definition mark_received (e : return_env) (user_id return_id : string) (return_doc : Value) : handler string :=
  let current_status := str_field return_doc "returnStatus" in
  let product_id := str_field return_doc "productId" in
  let order_id := str_field return_doc "orderId" in
  _ ← pure (if may_become current_status "received" then Ok tt
            else Err (Validation ("Cannot mark received from status '" +:+ current_status +:+ "'")));
  order ← read_order order_id;
  let items := items_array order in
  idx ← pure (ok_or (NotFound "Item not found in order") (find_item_index items product_id));
  item ← pure (unwrap (items !! idx));
  amount ← pure (calculate_refund_amount_cents order item);
  refund_id ← pure (refund_received e return_id order_id product_id order amount);
  updated_items ← pure (put_item idx (received_fields (to_rfc3339 (ve_now e)) amount refund_id) items);
  _ ← restock_received e product_id (quantity_of return_doc);
  _ ← record_received e user_id return_id order_id product_id updated_items amount;
  pure (Ok "refunded").

Definition approve_return_request (e : return_env) (auth : AuthContext) (req : ApproveReturnReq) :
    handler ApproveReturnResponse :=
  _ ← pure (validate_uid "returnId" (ar_return_id req));
  user_id ← pure (resolve_self_user_id auth (Some (ar_user_id req)) "userId");
  _ ← check_user_rate_limit pg_invalid_bigint (ve_test_mode e) user_id "approve_return_request" 10 1
        (ve_secs e) (ve_limit_id e) (ve_limit_now e);
  is_admin ← is_user_admin user_id;
  return_doc ← read_return (ar_return_id req);
  let current_status := str_field return_doc "returnStatus" in
  _ ← pure (if negb is_admin && negb (user_id =s? str_field return_doc "sellerId") then
              Err (Forbidden "Only the seller or admin can approve return requests") else Ok tt);
  new_status ←
    (if ar_action req =s? "approve" then
       advance e req current_status "approved" "approve return in"
         (opt_field "returnTrackingNumber" (ar_return_tracking_number req)
          ++ opt_field "returnAdminNote" (ar_return_admin_note req))
     else if ar_action req =s? "issue_label" then
       advance e req current_status "label_issued" "issue label from"
         (opt_field "returnTrackingNumber" (ar_return_tracking_number req))
     else if ar_action req =s? "mark_received" then mark_received e user_id (ar_return_id req) return_doc
     else pure (Err (Validation ("Unknown action: " +:+ ar_action req
                                 +:+ ". Must be 'approve', 'issue_label', or 'mark_received'."))));
  pure (Ok {| as_success := true; as_new_status := new_status |}).

(** *** reject_return_request *)

Definition reject_return_request (e : return_env) (auth : AuthContext) (req : RejectReturnReq) :
    handler RejectReturnResponse :=
  _ ← pure (validate_uid "returnId" (jr_return_id req));
  user_id ← pure (resolve_self_user_id auth (Some (jr_user_id req)) "userId");
  _ ← check_user_rate_limit pg_invalid_bigint (ve_test_mode e) user_id "reject_return_request" 10 1
        (ve_secs e) (ve_limit_id e) (ve_limit_now e);
  is_admin ← is_user_admin user_id;
  return_doc ← read_return (jr_return_id req);
  let current_status := str_field return_doc "returnStatus" in
  _ ← pure (if negb is_admin && negb (user_id =s? str_field return_doc "sellerId") then
              Err (Forbidden "Only the seller or admin can reject return requests") else Ok tt);
  _ ← pure (if may_become current_status "rejected" then Ok tt
            else Err (Validation ("Cannot reject return in status '" +:+ current_status +:+ "'")));
  let now := to_rfc3339 (ve_now e) in
  let rejection_reason := default "" (sanitized_opt 1000 (jr_reason req)) in
  _ ← update_return e (jr_return_id req)
        (put_all (if str_empty rejection_reason then [] else [("rejectionReason", VString rejection_reason)])
          (VObject [("resolvedAt", VString now); ("returnStatus", VString "rejected"); ("updatedAt", VString now)]));
  pure (Ok {| js_success := true; js_new_status := "rejected" |}).

(** *** escalate_return_request *)

(** [data->'roles' @> '"admin"'::jsonb]. *)
Definition has_admin_role (row : DocRow) : bool :=
  match get "roles" (row_data row) with
  | Some (VArray l) => existsb (λ v, bool_decide (as_str v = Some "admin")) l
  | Some (VString r) => r =s? "admin"
  | _ => false
  end.
Definition last_segment (id : string) : string := default id (last (split_on ":" id)).
Definition admin_user_ids : handler (list string) :=
  docs ← select_where scan "users" has_admin_role;
  pure (Ok (omap (λ doc, last_segment <$> (get "id" doc ≫= as_str)) (take 100 docs))).

(** The tokens of the rows that hold both texts, of one user. *)
Definition tokens_of (token_rows : list Value) (admin_id : string) : list string :=
  omap (λ row, match get "user_id" row ≫= as_str, get "token" row ≫= as_str with
               | Some uid, Some token => if uid =s? admin_id then Some token else None
               | _, _ => None
               end) token_rows.

Definition escalation_data (return_id order_id : string) : Value :=
  VObject [("orderId", VString order_id); ("returnId", VString return_id); ("returnStatus", VString "escalated")].
Definition short_id (id : string) : string := to_uppercase (take_chars 8 id).
Definition push_body (return_id order_id : string) : string :=
  "Return #" +:+ short_id return_id +:+ " on order #" +:+ short_id order_id +:+ " escalated — needs admin review".
Definition pending_id (return_id admin_id token : string) : string :=
  "return_escalated_admin_push_" +:+ return_id +:+ "_" +:+ admin_id +:+ "_" +:+ token.

Definition store_notification (e : return_env) (return_id order_id admin_id : string) : handler unit :=
  let now := to_rfc3339 (ve_notify_now e) in
  _ ← db_map_err (λ err, Database ("Failed to upsert admin notification for " +:+ admin_id +:+ ": " +:+ error_to_string err))
        (upsert_document "notifications" ("return_escalated_admin_" +:+ return_id +:+ "_" +:+ admin_id) (VObject
          [("body", VString ("Return #" +:+ short_id return_id +:+ " on order #" +:+ short_id order_id
                             +:+ " was escalated and needs admin review."));
           ("createdAt", VString now); ("data", escalation_data return_id order_id);
           ("notificationType", VString "return_escalated_admin"); ("read", VBool false);
           ("title", VString ("Return escalated by buyer for order #" +:+ short_id order_id));
           ("updatedAt", VString now); ("userId", VString admin_id)]) (ve_clock e 1));
  pure (Ok tt).
Definition store_pending (e : return_env) (return_id order_id admin_id token : string) : handler unit :=
  let now := to_rfc3339 (ve_notify_now e) in
  _ ← db_map_err (λ err, Database ("Failed to upsert pending escalation push for " +:+ admin_id +:+ ": " +:+ error_to_string err))
        (upsert_document "_pending_notifications" (pending_id return_id admin_id token) (VObject
          [("attempts", VNumber (PosInt 0)); ("body", VString (push_body return_id order_id));
           ("created_at", VString now); ("data", escalation_data return_id order_id);
           ("notification_type", VString "return_escalated_admin"); ("status", VString "pending");
           ("title", VString "Return Escalated by Buyer"); ("token", VString token);
           ("updated_at", VString now); ("userId", VString admin_id)]) (ve_clock e 2));
  pure (Ok tt).

Fixpoint for_each {A} (f : A → handler unit) (l : list A) : handler unit :=
  match l with
  | [] => pure (Ok tt)
  | x :: l => _ ← f x; for_each f l
  end.

(** The attempt to deliver the [k]-th message. *)
Definition deliver (e : return_env) (return_id order_id : string) (push : nat * (string * string)) : handler unit :=
  let '(k, (admin_id, token)) := push in
  let sent := match ve_fcm_project e, ve_fcm_account e with
              | Some pid, Some sa =>
                  send_push pid sa token "Return Escalated by Buyer" (push_body return_id order_id)
                    [("orderId", order_id); ("returnId", return_id); ("returnStatus", "escalated")]
              | _, _ => false
              end in
  if sent then
    let delivered_at := to_rfc3339 (ve_delivered_now e k) in
    ignored (update_document "_pending_notifications" (pending_id return_id admin_id token) (VObject
      [("delivered_at", VString delivered_at); ("status", VString "delivered");
       ("updated_at", VString delivered_at)]) (ve_clock e (3 + k)))
  else pure (Ok tt).

Definition notify_admins_of_return_escalation (e : return_env) (return_id order_id : string) : handler unit :=
  admin_ids ← admin_user_ids;
  token_rows ← (λ s, let s := (ensure_table "_push_tokens" s).1 in (s, Ok (push_token_rows admin_ids s)));
  _ ← for_each (λ admin_id,
        _ ← store_notification e return_id order_id admin_id;
        for_each (store_pending e return_id order_id admin_id) (tokens_of token_rows admin_id)) admin_ids;
  for_each (deliver e return_id order_id)
    (imap pair (mjoin ((λ admin_id, pair admin_id <$> tokens_of token_rows admin_id) <$> admin_ids))).

Definition escalate_return_request (e : return_env) (auth : AuthContext) (req : EscalateReturnReq) :
    handler EscalateReturnResponse :=
  _ ← pure (validate_uid "returnId" (er_return_id req));
  user_id ← pure (resolve_self_user_id auth (Some (er_user_id req)) "userId");
  _ ← check_user_rate_limit pg_invalid_bigint (ve_test_mode e) user_id "escalate_return_request" 3 60
        (ve_secs e) (ve_limit_id e) (ve_limit_now e);
  let reason := take_chars 1000 (sanitize_html (er_escalation_reason req)) in
  _ ← pure (if str_empty (trim reason) then Err (Validation "escalationReason is required") else Ok tt);
  return_doc ← read_return (er_return_id req);
  _ ← pure (if negb (str_field return_doc "buyerId" =s? user_id) then
              Err (Forbidden "Only the buyer can escalate this return") else Ok tt);
  let status := str_field return_doc "returnStatus" in
  _ ← pure (if negb (status =s? "requested") && negb (status =s? "approved") then
              Err (Validation "Return can only be escalated from requested or approved state") else Ok tt);
  let now := to_rfc3339 (ve_now e) in
  _ ← db (update_document "return_requests" (er_return_id req) (VObject
        [("escalatedAt", VString now); ("escalationReason", VString reason);
         ("returnStatus", VString "escalated"); ("updatedAt", VString now)]) (ve_clock e 0));
  _ ← notify_admins_of_return_escalation e (er_return_id req) (str_field return_doc "orderId");
  pure (Ok {| es_success := true; es_new_status := "escalated"; es_return_status := "escalated";
              es_return_id := er_return_id req |}).
End handlers.

(** ** Effects on the stored returns *)

(** A step that only reads: no table but the limiter's changes. *)
Definition reads {A} (m : handler A) : Prop := ∀ c, c ≠ "rate_limits" → keeps c m.

Lemma bind_reads s0 {A B} (m : handler A) (k : A → handler B) s s' r :
  same_tables s0 s → reads m → (m ≫= k) s = (s', r) →
  same_tables s0 s' ∧ (∀ b, r ≠ Ok b) ∨ ∃ s1 a, m s = (s1, Ok a) ∧ same_tables s0 s1 ∧ k a s1 = (s', r).
Proof.
  intros H0 Hm H. assert (same_tables s0 (m s).1) as Hs by (intros c Hc; by rewrite Hm, H0).
  unfold mbind, handler_bind in H. destruct (m s) as [s1 [a|e|]]; cbn [fst] in Hs;
    [right; eauto|injection H as <- <-; by left|injection H as <- <-; by left].
Qed.

Section effects.
Context `{C : Chrono} `{P : PgJson} `{T : TextLib}.

Lemma reads_pure {A} (r : Result A) : reads (pure r).
Proof. intros c _. apply keeps_pure. Qed.
Lemma reads_limit pg mode user action max window secs id now :
  reads (check_user_rate_limit pg mode user action max window secs id now).
Proof. intros c Hc. by apply keeps_rate_limit. Qed.
Lemma reads_get f c id : reads (db_map_err f (get_document c id)).
Proof. intros c' _. apply keeps_map_err, keeps_get. Qed.
Lemma reads_is_admin user_id : reads (is_user_admin user_id).
Proof.
  intros c _ s. pose proof (keeps_get c "users" user_id s) as Hk. unfold db in Hk. unfold is_user_admin.
  by destruct (get_document "users" user_id s) as [s1 []].
Qed.
Lemma reads_select scan table p : reads (select_where scan table p).
Proof. intros c _. apply keeps_select. Qed.
End effects.
#[export] Hint Resolve reads_pure reads_limit reads_get reads_is_admin reads_select : ob.

(** The next step of [H], which only reads; [K] says that nothing was written
    before. *)
Ltac reading K H :=
  let s1 := fresh "s" in let a := fresh "a" in let R := fresh "R" in
  apply (bind_reads _ _ _ _ _ _ K) in H as [H|(s1 & a & R & K' & H)];
  [left; first [exact H|apply H]|clear K; rename K' into K|solve [auto with ob | unfold read_order, read_return; auto with ob]].

(** *** The graph of the statuses *)

Definition return_statuses : list string :=
  ["requested"; "approved"; "label_issued"; "rejected"; "escalated"; "refunded"].
Definition return_edge (a b : string) : bool :=
  existsb (λ p : string * string, (p.1 =s? a) && (p.2 =s? b))
    [("requested", "approved"); ("requested", "rejected"); ("requested", "escalated");
     ("approved", "label_issued"); ("approved", "refunded"); ("approved", "escalated");
     ("label_issued", "refunded")].

Section requests.
Context `{C : Chrono} `{P : PgJson} `{T : TextLib}.
Context (pg_invalid_bigint : string) (scan : rows → list (string * DocRow)).
Context (stripe_refunds : string → list (string * string) → refund_reply).
Context (push_token_rows : list string → store → list Value).
Context (send_push : string → string → string → string → string → list (string * string) → bool).

Inductive return_request : Type :=
| Create (req : CreateReturnRequest)
| Approve (req : ApproveReturnReq)
| Reject (req : RejectReturnReq)
| Escalate (req : EscalateReturnReq).

Definition answered_by {A} (m : handler A) : handler unit := _ ← m; pure (Ok tt).
Definition handle_return (e : return_env) (auth : AuthContext) (req : return_request) : handler unit :=
  match req with
  | Create req => answered_by (create_return_request pg_invalid_bigint scan e auth req)
  | Approve req => answered_by (approve_return_request pg_invalid_bigint stripe_refunds e auth req)
  | Reject req => answered_by (reject_return_request pg_invalid_bigint e auth req)
  | Escalate req => answered_by (escalate_return_request pg_invalid_bigint scan push_token_rows send_push e auth req)
  end.

Definition returns_of (s : store) : rows := table_rows s "return_requests".
Definition return_status (row : DocRow) : string := str_field (row_data row) "returnStatus".
Definition requested_return (req : return_request) : string :=
  bare_id "return_requests" (match req with
    | Create _ => ""
    | Approve req => ar_return_id req
    | Reject req => jr_return_id req
    | Escalate req => er_return_id req
    end).

(** Who may change a return. *)
Definition return_party (s : store) (auth : AuthContext) (req : return_request) (row : DocRow) : Prop :=
  match req with
  | Create _ => False
  | Approve _ | Reject _ => stored_admin s (auth_user_id auth) = true
                            ∨ str_field (row_data row) "sellerId" = auth_user_id auth
  | Escalate _ => str_field (row_data row) "buyerId" = auth_user_id auth
  end.

(** The fields of a return that no update touches. *)
Definition fixed_fields : list string := ["buyerId"; "orderId"; "productId"; "quantity"; "returnId"; "sellerId"].
Definition return_patch (patch : Value) (status : string) : Prop :=
  ∃ m, patch = VObject m ∧ NoDup m.*1 ∧ assoc_get "returnStatus" m = Some (VString status)
    ∧ Forall (λ k, assoc_get k m = None) fixed_fields.

Inductive return_effect (e : return_env) (auth : AuthContext) (req : return_request) (s s' : store) : Prop :=
| no_effect : returns_of s' = returns_of s → return_effect e auth req s s'
| return_created creq user_id reason item : req = Create creq → returns_of s !! ve_doc_id e = None →
    returns_of s' = <[ve_doc_id e := {| row_data := return_document e creq user_id reason item;
                                        row_created_at := ve_clock e 0; row_updated_at := ve_clock e 0 |}]>
                      (returns_of s) →
    return_effect e auth req s s'
| return_changed row patch now status : returns_of s !! requested_return req = Some row →
    returns_of s' = <[requested_return req := merged_row patch now row]> (returns_of s) →
    return_patch patch status → return_edge (return_status row) status = true →
    return_party s auth req row → return_effect e auth req s s'.

Lemma bind_pure_state {A B} (m : handler A) (f : A → Result B) s : ((m ≫= λ a, pure (f a)) s).1 = (m s).1.
Proof. unfold mbind, handler_bind. by destruct (m s) as [s1 []]. Qed.

Lemma resolve_user auth provided field user_id :
  resolve_self_user_id auth provided field = Ok user_id → user_id = auth_user_id auth.
Proof.
  unfold resolve_self_user_id, require_authenticated. intros H. destruct (_ || _); [done|].
  cbn [mbind outcome_bind] in H. unfold must_match in H. repeat case_match; try done; by injection H as <-.
Qed.

Lemma create_rows c data fresh now s :
  is_ok (validate_identifier c) = true →
  table_rows (create_document c data fresh now s).1 c
  = match table_rows s c !! document_id data fresh with
    | Some _ => table_rows s c
    | None => <[document_id data fresh := {| row_data := data; row_created_at := now; row_updated_at := now |}]>
                (table_rows s c)
    end.
Proof.
  intros Hv. unfold create_document. rewrite with_table_valid by done. cbv beta zeta. rewrite table_rows_ensured.
  destruct (table_rows s c !! _); cbn [fst]; [apply table_rows_ensured|apply table_rows_insert].
Qed.

Lemma same_admin s s1 user_id : same_tables s s1 → stored_admin s1 user_id = stored_admin s user_id.
Proof. intros Hs. unfold stored_admin. by rewrite Hs. Qed.

Lemma admin_value s0 user_id s s' b :
  is_user_admin user_id s = (s', Ok b) → same_tables s0 s' → b = stored_admin s0 user_id.
Proof.
  intros H Hs. apply is_user_admin_run in H as [-> Hk]. rewrite <- (same_admin s0 s' user_id Hs).
  unfold stored_admin. by rewrite Hk.
Qed.

Lemma document_value s0 f c id s s' doc :
  is_ok (validate_identifier c) = true → c ≠ "rate_limits" →
  db_map_err f (get_document c id) s = (s', Ok doc) → same_tables s0 s' →
  ∃ row, table_rows s0 c !! bare_id c id = Some row ∧ doc = row_to_doc (bare_id c id) row.
Proof.
  intros Hv Hc H Hs. rewrite <- (Hs c) by done.
  pose proof (keeps_run c _ _ _ _ (keeps_map_err _ _ _ (keeps_get _ c id)) H) as ->.
  apply map_err_ok in H. unfold get_document in H.
  rewrite with_table_valid in H by done. cbv beta zeta in H. rewrite table_rows_ensured in H.
  destruct (table_rows s c !! _) as [row|]; [|done]. injection H as _ <-. eauto.
Qed.
Lemma return_value s0 return_id s s' doc :
  read_return return_id s = (s', Ok doc) → same_tables s0 s' →
  ∃ row, returns_of s0 !! bare_id "return_requests" return_id = Some row
    ∧ doc = row_to_doc (bare_id "return_requests" return_id) row.
Proof. by apply document_value. Qed.

Lemma edge_known a b : may_become a b = true → b ∈ ["approved"; "rejected"; "label_issued"] →
  return_edge a b = true.
Proof.
  unfold may_become, valid_return_transitions. intros H Hb.
  repeat case_match; bools; subst; cbn [existsb] in H; try done; set_unfold in Hb; destruct Hb as [->|[->|[->|[]]]]; done.
Qed.

Lemma edge_received a : may_become a "received" = true → return_edge a "refunded" = true.
Proof. unfold may_become, valid_return_transitions. intros H. repeat case_match; bools; subst; done. Qed.

(** The row of a return read before, updated later. *)
Lemma map_err_state {A} f (op : store → store * Result A) s : (db_map_err f op s).1 = (op s).1.
Proof. unfold db_map_err. by destruct (op s). Qed.

Lemma update_effect e auth req s s1 row patch now status id :
  returns_of s1 = returns_of s → bare_id "return_requests" id = requested_return req →
  returns_of s !! requested_return req = Some row → return_patch patch status →
  return_edge (return_status row) status = true → return_party s auth req row →
  return_effect e auth req s (update_document "return_requests" id patch now s1).1.
Proof.
  intros Hs Hid Hrow Hp He Hparty. eapply return_changed; [exact Hrow| |exact Hp|exact He|exact Hparty].
  unfold returns_of in *. pose proof (update_rows "return_requests" id patch now s1) as Hu.
  rewrite Hid, Hs, Hrow in Hu. exact Hu.
Qed.

Lemma create_effect e auth req s s' r :
  create_return_request pg_invalid_bigint scan e auth req s = (s', r) →
  same_tables s s' ∨ return_effect e auth (Create req) s s'.
Proof.
  intros H. assert (same_tables s s) as K by done. unfold create_return_request in H. cbv zeta in H.
  do 9 reading K H. right. apply (f_equal fst) in H. rewrite bind_pure_state in H. unfold db_map_err in H.
  match type of H with context [create_document _ ?doc ?i ?n ?st] =>
    pose proof (create_rows "return_requests" doc i n st eq_refl) as Hc;
    destruct (create_document "return_requests" doc i n st) as [s_end r_end] end.
  cbn [fst] in H, Hc. subst s_end. change (document_id _ (ve_doc_id e)) with (ve_doc_id e) in Hc.
  rewrite (K "return_requests" ltac:(done)) in Hc. fold (returns_of s) (returns_of s') in Hc.
  destruct (returns_of s !! ve_doc_id e) eqn:E; [by apply no_effect|]. by eapply return_created.
Qed.

(** The caller is the seller or an administrator. *)
Lemma seller_or_admin e (is_admin : bool) user_id (doc : Value) s (s' : store) u :
  pure (if negb is_admin && negb (user_id =s? str_field doc "sellerId") then Err e else Ok tt) s = (s', Ok u) →
  is_admin = true ∨ str_field doc "sellerId" = user_id.
Proof.
  intros [_ H]%pure_ok. destruct is_admin; [by left|]. cbn [negb andb] in H.
  destruct (user_id =s? str_field doc "sellerId") eqn:E; [|done]. bools. by right.
Qed.

Lemma reject_effect e auth req s s' r :
  reject_return_request pg_invalid_bigint e auth req s = (s', r) →
  same_tables s s' ∨ return_effect e auth (Reject req) s s'.
Proof.
  intros H. assert (same_tables s s) as K by done. unfold reject_return_request in H. cbv zeta in H.
  do 4 reading K H. apply pure_ok in R0 as [-> Hu]. apply resolve_user in Hu as ->.
  apply (admin_value s) in R2 as ->; [|done]. reading K H.
  apply (return_value s) in R0 as (row & Hrow & ->); [|done]. reading K H. apply seller_or_admin in R0.
  reading K H. apply pure_ok in R2 as [-> Hm]. right.
  apply (f_equal fst) in H. unfold update_return in H. rewrite !bind_pure_state, map_err_state in H. cbn [fst] in H. subst s'.
  rewrite str_field_doc in Hm, R0 by concrete. destruct (may_become _ _) eqn:Em; [|done].
  eapply update_effect; [by apply K|done|exact Hrow| | |exact R0].
  - unfold return_patch.
    destruct (str_empty _); (eexists; split; [reflexivity|]); by split_and!; [concrete|..|concrete].
  - apply edge_known; [done|set_solver].
Qed.

Lemma return_effect_ext e auth req s s1 s2 :
  returns_of s2 = returns_of s1 → return_effect e auth req s s1 → return_effect e auth req s s2.
Proof.
  intros Hs [|creq user_id reason item|row patch now status]; rewrite <- Hs in *;
    [by apply no_effect|by eapply return_created|by eapply return_changed].
Qed.

Lemma bind_keeps_state {A B} c (m : handler A) (k : A → handler B) s :
  (∀ a, keeps c (k a)) → table_rows ((m ≫= k) s).1 c = table_rows (m s).1 c.
Proof. intros Hk. unfold mbind, handler_bind. destruct (m s) as [s1 []]; [apply Hk|done|done]. Qed.

Lemma keeps_upsert c c' id data now : c' ≠ c → keeps c (db (upsert_document c' id data now)).
Proof. intros Hne. apply keeps_with_table. intros s. cbv zeta. by apply table_rows_insert_ne. Qed.
Lemma keeps_update c c' id data now : c' ≠ c → keeps c (db (update_document c' id data now)).
Proof.
  intros Hne. apply keeps_with_table. intros s. cbv zeta.
  destruct (table_rows s c' !! _); [by apply table_rows_insert_ne|done].
Qed.
Lemma keeps_for_each {A} c (f : A → handler unit) l : (∀ x, keeps c (f x)) → keeps c (for_each f l).
Proof.
  intros Hf. induction l as [|x l IH]; [apply keeps_pure|]. cbn [for_each]. apply keeps_bind; [apply Hf|done].
Qed.

Lemma keeps_notify c e return_id order_id :
  c ∉ ["notifications"; "_pending_notifications"] →
  keeps c (notify_admins_of_return_escalation scan push_token_rows send_push e return_id order_id).
Proof.
  intros Hc. unfold notify_admins_of_return_escalation, admin_user_ids.
  apply keeps_bind; [apply keeps_bind; [apply keeps_select|intros; apply keeps_pure]|]. intros admins.
  apply keeps_bind; [intros s; apply keeps_ensure_first|]. intros token_rows. apply keeps_bind.
  - apply keeps_for_each. intros admin. apply keeps_bind; [unfold store_notification; cbv zeta|intros _].
    + apply keeps_bind; [|intros; apply keeps_pure]. apply keeps_map_err, keeps_upsert. set_solver.
    + apply keeps_for_each. intros token. unfold store_pending. cbv zeta.
      apply keeps_bind; [|intros; apply keeps_pure]. apply keeps_map_err, keeps_upsert. set_solver.
  - intros _. apply keeps_for_each. intros [k [admin token]]. unfold deliver. cbv zeta.
    case_match; [|apply keeps_pure]. apply keeps_ignored, keeps_update. set_solver.
Qed.

Lemma escalate_effect e auth req s s' r :
  escalate_return_request pg_invalid_bigint scan push_token_rows send_push e auth req s = (s', r) →
  same_tables s s' ∨ return_effect e auth (Escalate req) s s'.
Proof.
  intros H. assert (same_tables s s) as K by done. unfold escalate_return_request in H. cbv zeta in H.
  do 5 reading K H. apply pure_ok in R0 as [-> Hu]. apply resolve_user in Hu as ->.
  apply (return_value s) in R3 as (row & Hrow & ->); [|done]. do 2 reading K H.
  apply pure_ok in R0 as [-> Hbuyer], R3 as [-> Hst]. rewrite !str_field_doc in Hbuyer, Hst by concrete.
  right. apply (f_equal fst) in H. cbn [fst] in H. subst s'.
  eapply return_effect_ext.
  { apply bind_keeps_state. intros _. apply keeps_bind; [apply keeps_notify; set_solver|intros; apply keeps_pure]. }
  eapply (update_effect _ _ (Escalate req)); [by apply K|done|exact Hrow| | |].
  - eexists. split; [reflexivity|]. by split_and!; [concrete|..|concrete].
  - fold (return_status row) in Hst. destruct (return_status row =s? "requested") eqn:E1; [by bools; rewrite E1|].
    destruct (return_status row =s? "approved") eqn:E2; [by bools; rewrite E2|done].
  - cbn. destruct (str_field (row_data row) "buyerId" =s? auth_user_id auth) eqn:E; [by bools|done].
Qed.

Lemma keeps_restock c e product_id qty : c ≠ "products" → keeps c (restock_received e product_id qty).
Proof.
  intros Hc. unfold restock_received. case_match; [|apply keeps_pure].
  apply keeps_bind; [|intros; apply keeps_pure]. intros s.
  match goal with |- context [restore_stock ?err ?clock ?now ?pid ?q ?n s] =>
    destruct (restock_frame err clock now pid q n s) as (s1 & b & -> & Hk & _) end. by apply Hk.
Qed.

Lemma record_effect e auth req user_id return_id order_id product_id items amount s s1 row :
  returns_of s1 = returns_of s → bare_id "return_requests" return_id = requested_return req →
  returns_of s !! requested_return req = Some row → return_edge (return_status row) "refunded" = true →
  return_party s auth req row →
  return_effect e auth req s (record_received e user_id return_id order_id product_id items amount s1).1.
Proof.
  intros Hs Hid Hrow He Hp. eapply return_effect_ext.
  { apply bind_keeps_state. intros _. apply keeps_bind; [apply keeps_map_err, keeps_update; done|intros _].
    apply keeps_bind; [apply keeps_map_err, keeps_create; done|intros _; apply keeps_pure]. }
  rewrite map_err_state. eapply update_effect; [exact Hs|exact Hid|exact Hrow| |exact He|exact Hp].
  eexists. split; [reflexivity|]. by split_and!; [concrete|..|concrete].
Qed.

Lemma received_effect e auth req user_id return_id row s s1 s' r :
  same_tables s s1 → bare_id "return_requests" return_id = requested_return req →
  returns_of s !! requested_return req = Some row → return_party s auth req row →
  mark_received stripe_refunds e user_id return_id (row_to_doc (requested_return req) row) s1 = (s', r) →
  same_tables s s' ∨ return_effect e auth req s s'.
Proof.
  intros K Hid Hrow Hp H. unfold mark_received in H. cbv zeta in H. do 7 reading K H.
  apply pure_ok in R as [-> Hm]. rewrite str_field_doc in Hm by concrete. fold (return_status row) in Hm.
  destruct (may_become (return_status row) "received") eqn:Em; [|done]. right.
  apply (f_equal fst) in H. cbn [fst] in H. subst s'. unfold mbind at 1, handler_bind at 1.
  match goal with |- context [restock_received ?e0 ?pid ?q ?st] =>
    pose proof (keeps_restock "return_requests" e0 pid q ltac:(done) st) as Hk;
    destruct (restock_received e0 pid q st) as [s_end [u|err|]] end; cbn [fst] in *.
  2, 3: apply no_effect; unfold returns_of; by rewrite Hk, K.
  rewrite bind_pure_state. eapply record_effect; [unfold returns_of; by rewrite Hk, K|exact Hid|exact Hrow| |exact Hp].
  by apply edge_received.
Qed.

Lemma advance_effect e auth req status verb more row s s1 :
  same_tables s s1 → returns_of s !! requested_return (Approve req) = Some row →
  status ∈ ["approved"; "label_issued"] → return_patch (status_patch e status more) status →
  return_party s auth (Approve req) row →
  same_tables s (advance e req (return_status row) status verb more s1).1
  ∨ return_effect e auth (Approve req) s (advance e req (return_status row) status verb more s1).1.
Proof.
  intros K Hrow Hst Hpatch Hp. unfold advance. destruct (may_become (return_status row) status) eqn:Em; [right|by left].
  rewrite (bind_run _ _ s1 s1 tt) by done. unfold update_return. rewrite !bind_pure_state, map_err_state.
  eapply update_effect; [by apply K|done|exact Hrow|exact Hpatch| |exact Hp]. apply edge_known; [done|set_solver].
Qed.

Lemma approve_effect e auth req s s' r :
  approve_return_request pg_invalid_bigint stripe_refunds e auth req s = (s', r) →
  same_tables s s' ∨ return_effect e auth (Approve req) s s'.
Proof.
  intros H. assert (same_tables s s) as K by done. unfold approve_return_request in H. cbv zeta in H.
  do 4 reading K H. apply pure_ok in R0 as [-> Hu]. apply resolve_user in Hu as ->.
  apply (admin_value s) in R2 as ->; [|done]. reading K H.
  apply (return_value s) in R0 as (row & Hrow & ->); [|done]. reading K H. apply seller_or_admin in R0.
  rewrite !str_field_doc in R0 by concrete. apply (f_equal fst) in H. rewrite bind_pure_state in H. cbn [fst] in H.
  assert (∀ status verb more, status ∈ ["approved"; "label_issued"] →
    return_patch (status_patch e status more) status →
    (advance e req (str_field (row_to_doc (bare_id "return_requests" (ar_return_id req)) row) "returnStatus")
       status verb more s4).1 = s' → same_tables s s' ∨ return_effect e auth (Approve req) s s') as Hadv.
  { intros status verb more Hst Hpatch <-. rewrite str_field_doc by concrete. by eapply advance_effect. }
  destruct (ar_action req =s? "approve").
  { eapply Hadv; [..|exact H]; [set_solver|]. destruct (ar_return_tracking_number req), (ar_return_admin_note req);
    (eexists; split; [reflexivity|]; by split_and!; [concrete|..|concrete]). }
  destruct (ar_action req =s? "issue_label").
  { eapply Hadv; [..|exact H]; [set_solver|]. destruct (ar_return_tracking_number req);
    (eexists; split; [reflexivity|]; by split_and!; [concrete|..|concrete]). }
  destruct (ar_action req =s? "mark_received"); [|subst s'; by left].
  destruct (mark_received _ _ _ _ _ _) as [s_end r_end] eqn:Hm. cbn [fst] in H. subst s_end.
  by eapply (received_effect _ _ (Approve req)) in Hm.
Qed.

Lemma handle_return_effect e auth req s s' r :
  handle_return e auth req s = (s', r) → return_effect e auth req s s'.
Proof.
  intros H. apply (f_equal fst) in H. assert (same_tables s s' ∨ return_effect e auth req s s') as [Hs|]; [|by apply no_effect, Hs|done].
  destruct req as [req|req|req|req]; cbn [handle_return fst] in H; unfold answered_by in H; rewrite bind_pure_state in H;
    match type of H with (?m s).1 = _ => destruct (m s) as [s_end r_end] eqn:Hm end; cbn [fst] in H; subst s_end;
    [by eapply create_effect|by eapply approve_effect|by eapply reject_effect|by eapply escalate_effect].
Qed.

Lemma patched_get patch status now row m k :
  return_patch patch status → row_data row = VObject m →
  get k (row_data (merged_row patch now row))
  = match get k patch with Some v => Some v | None => get k (row_data row) end.
Proof. intros (m' & -> & Hnd & _) Hm. by apply (merged_row_get m' now row m). Qed.

Lemma status_object row status : return_edge (return_status row) status = true → ∃ m, row_data row = VObject m.
Proof. unfold return_status. destruct (row_data row); try done. eauto. Qed.

(** C15: the life of a return: whoever sends whatever request, no stored return
    disappears, and one that changes is the one requested: its status moves along
    an edge of the graph, for its seller or an administrator, or, when it is
    escalated, for its buyer; its order, item, buyer and seller stay. *)
Theorem return_status_moves e auth req s s' r id row :
  handle_return e auth req s = (s', r) → returns_of s !! id = Some row →
  ∃ row', returns_of s' !! id = Some row'
    ∧ (row' = row ∨ id = requested_return req ∧ return_edge (return_status row) (return_status row') = true
         ∧ return_party s auth req row
         ∧ ∀ k, k ∈ fixed_fields → get k (row_data row') = get k (row_data row)).
Proof.
  intros H Hrow. apply handle_return_effect in H as [Hs|creq u rs it _ Hn Hs|row0 patch now status H0 Hs Hp He Hparty];
    rewrite Hs; [by eauto|exists row; rewrite lookup_insert_ne by congruence; by eauto|].
  destruct (decide (id = requested_return req)) as [->|Hne]; [|exists row; rewrite lookup_insert_ne by done; by eauto].
  rewrite Hrow in H0. injection H0 as <-. rewrite lookup_insert_eq. eexists. split; [done|]. right.
  destruct (status_object _ _ He) as [m Hm]. pose proof (λ k, patched_get patch status now row m k Hp Hm) as Hget.
  destruct Hp as (m' & -> & _ & Hst & Hfix). split_and!; [done| |done|].
  - unfold return_status at 2, str_field. rewrite Hget. cbn [get mbind option_bind]. by rewrite Hst.
  - intros k Hk. rewrite Hget. rewrite Forall_forall in Hfix. cbn [get]. by rewrite (Hfix k Hk).
Qed.

(** The statuses that no request changes. *)
Lemma final_edge a b : a ∈ ["rejected"; "escalated"; "refunded"] → return_edge a b = false.
Proof. intros Ha. set_unfold in Ha. by destruct Ha as [->|[->|[->|[]]]]. Qed.

(** An escalated return is never resolved: like a rejected and a refunded one,
    it is changed by no request of any caller, the administrators it was
    escalated to included. *)
Theorem escalated_return_stuck e auth req s s' r id row :
  handle_return e auth req s = (s', r) → returns_of s !! id = Some row →
  return_status row ∈ ["rejected"; "escalated"; "refunded"] → returns_of s' !! id = Some row.
Proof.
  intros H Hrow Hst. apply handle_return_effect in H as [Hs|creq u rs it _ Hn Hs|row0 patch now status H0 Hs Hp He Hparty];
    rewrite Hs; [done|by rewrite lookup_insert_ne by congruence|].
  rewrite lookup_insert_ne; [done|]. intros <-. rewrite Hrow in H0. injection H0 as <-.
  by rewrite final_edge in He.
Qed.

(** *** Types *)

(** A well-formed return: its fields have the types of the schema. *)
Definition is_text (o : option Value) : bool := match o with Some (VString _) => true | _ => false end.
Definition is_integer (o : option Value) : bool :=
  match o with Some (VNumber (PosInt _)) | Some (VNumber (NegInt _)) => true | _ => false end.
Definition return_typed (row : DocRow) : Prop :=
  return_status row ∈ return_statuses
  ∧ Forall (λ k, is_text (get k (row_data row)) = true) ["buyerId"; "orderId"; "productId"; "returnId"; "sellerId"]
  ∧ is_integer (get "quantity" (row_data row)) = true.
Definition returns_typed (s : store) : Prop := map_Forall (λ _, return_typed) (returns_of s).

Lemma edge_target a b : return_edge a b = true → b ∈ return_statuses.
Proof.
  unfold return_edge. intros H. apply existsb_exists in H as ([x y] & Hin & Hxy). bools. cbn in *. subst.
  repeat destruct Hin as [[= <- <-]|Hin]; [set_solver..|done].
Qed.

Lemma created_typed e req user_id reason item now :
  return_typed {| row_data := return_document e req user_id reason item; row_created_at := now; row_updated_at := now |}.
Proof.
  split_and!.
  - set_solver.
  - by repeat constructor.
  - change (get "quantity" _) with (Some (of_i64 (quantity_of item))). unfold of_i64. by destruct (_ <? 0)%Z.
Qed.

(** C37: the stored returns keep their types: after any request, successful or
    not, every return has one of the six statuses, the texts that say whose
    return of which item of which order it is, and a whole number of units. *)
Theorem returns_stay_typed e auth req s s' r :
  handle_return e auth req s = (s', r) → returns_typed s → returns_typed s'.
Proof.
  intros H Ht. unfold returns_typed in *.
  apply handle_return_effect in H as [Hs|creq u rs it _ Hn Hs|row patch now status H0 Hs Hp He _]; rewrite Hs; [done|..].
  - apply map_Forall_insert_2; [apply created_typed|done].
  - apply map_Forall_insert_2; [|done]. destruct (Ht _ _ H0) as (_ & Htext & Hint).
    destruct (status_object _ _ He) as [m Hm]. pose proof (λ k, patched_get patch status now row m k Hp Hm) as Hget.
    destruct Hp as (m' & -> & _ & Hst & Hfix). unfold return_typed, return_status, str_field. setoid_rewrite Hget.
    cbn [get mbind option_bind]. rewrite Hst. rewrite Forall_forall in Hfix. split_and!.
    + by eapply edge_target.
    + rewrite Forall_forall in Htext |- *. intros k Hk. rewrite (Hfix k) by set_solver. by apply Htext.
    + by rewrite (Hfix "quantity") by set_solver.
Qed.

(** *** The id of a return *)

Lemma reads_run {A} (m : handler A) s0 s s1 r : reads m → same_tables s0 s → m s = (s1, r) → same_tables s0 s1.
Proof. intros Hm H0 H c Hc. rewrite <- (H0 c Hc). by apply (keeps_run c m s s1 r (Hm c Hc)). Qed.

Lemma handled_exists e auth req s s' u :
  handle_return e auth req s = (s', Ok u) → (∀ creq, req ≠ Create creq) →
  is_Some (returns_of s !! requested_return req).
Proof.
  intros H Hreq. assert (same_tables s s) as K by done.
  destruct req as [req|req|req|req]; [by destruct (Hreq req)|..]; cbn [handle_return] in H; unfold answered_by in H;
    run_inv H; clear H; unfold approve_return_request, reject_return_request, escalate_return_request in R; cbv zeta in R.
  1, 2: run_inv R; run_inv R; run_inv R; run_inv R; run_inv R;
    apply reads_run with (s0 := s) in R2; [|apply reads_limit|done];
    apply reads_run with (s0 := s) in R3; [|apply reads_is_admin|done].
  3: run_inv R; run_inv R; run_inv R; run_inv R; run_inv R;
    apply reads_run with (s0 := s) in R2; [|apply reads_limit|done].
  all: pose proof R4 as R5; apply reads_run with (s0 := s) in R5; [|apply reads_get|done];
    apply (return_value s) in R4 as (row & Hrow & _); eauto.
Qed.

(** A return cannot be reached by the id its creation reports: the document is
    stored under an id of its own, the reported one is only a field of it, and
    every request that names it fails. *)
Theorem created_return_unreachable e auth creq s s1 resp e' auth' req s2 r :
  create_return_request pg_invalid_bigint scan e auth creq s = (s1, Ok resp) →
  ve_return_id e ≠ ve_doc_id e → returns_of s !! ve_return_id e = None →
  handle_return e' auth' req s1 = (s2, r) → (∀ creq, req ≠ Create creq) →
  requested_return req = ns_return_id resp → ∀ u, r ≠ Ok u.
Proof.
  intros Hc Hne Hnone H Hreq Hid u ->. apply handled_exists in H as [row Hrow]; [|done].
  assert (ns_return_id resp = ve_return_id e) as Hresp.
  { unfold create_return_request in Hc. cbv zeta in Hc. do 10 run_inv Hc. by apply pure_ok in Hc as [_ [= <-]]. }
  rewrite Hid, Hresp in Hrow. apply create_effect in Hc as [Hs|[Hs|? ? ? ? _ _ Hs|? ? ? ? _ _ _ _ []]].
  - unfold returns_of in *. rewrite Hs in Hrow by done. congruence.
  - congruence.
  - rewrite Hs, lookup_insert_ne in Hrow by done. congruence.
Qed.

End requests.

(** ** Received goods *)
Section received_goods.
Context `{C : Chrono} `{P : PgJson} `{!PgJsonLaws P}.
Context (pg_invalid_bigint : string) (stripe_refunds : string → list (string * string) → refund_reply).

Lemma restock_received_ok e pid qty s s' u n :
  restock_received e pid qty s = (s', Ok u) → pid ≠ "" → (0 < qty)%Z →
  stocked s (bare_id "products" pid) n → (n + qty ≤ i64_max)%Z → stocked s' (bare_id "products" pid) (n + qty).
Proof.
  intros H Hp Hq Hs Hle. unfold restock_received in H. rewrite (proj2 (Z.ltb_lt _ _) Hq) in H.
  destruct pid as [|c pid]; [done|]. cbn [str_empty negb andb] in H. run_inv H. apply pure_ok in H as [-> _].
  match type of R with restore_stock ?err ?clock ?now ?p ?q _ _ = _ =>
    destruct (restock_once err clock now p q 2 s n Hs ltac:(lia) Hle) as (s2 & Hrun & Hc) end.
  rewrite Hrun in R. by injection R as <- _.
Qed.

Lemma update_run c id data now s s' doc :
  is_ok (validate_identifier c) = true → update_document c id data now s = (s', Ok doc) →
  ∃ row, table_rows s c !! bare_id c id = Some row
    ∧ table_rows s' c = <[bare_id c id := merged_row data now row]> (table_rows s c)
    ∧ ∀ c', c ≠ c' → table_rows s' c' = table_rows s c'.
Proof.
  intros Hv H. pose proof (update_rows c id data now s) as Hu. pose proof (λ c', keeps_update c' c id data now) as Hk.
  unfold keeps, db in Hk. specialize (λ c' Hc, Hk c' Hc s). rewrite H in Hu, Hk. rewrite Hv in Hu. cbn [fst] in *.
  unfold update_document in H. rewrite with_table_valid in H by done. cbv beta zeta in H. rewrite table_rows_ensured in H.
  destruct (table_rows s c !! bare_id c id) as [row|]; [|done]. exists row. split; [done|]. split; [exact Hu|].
  intros c' Hc. by apply Hk.
Qed.

Lemma record_received_ok e user_id return_id order_id pid items amount s s' u row orow m om :
  record_received e user_id return_id order_id pid items amount s = (s', Ok u) →
  returns_of s !! bare_id "return_requests" return_id = Some row → row_data row = VObject m →
  table_rows s "orders" !! bare_id "orders" order_id = Some orow → row_data orow = VObject om →
  (∃ row', returns_of s' !! bare_id "return_requests" return_id = Some row' ∧ return_status row' = "refunded"
     ∧ get "returnRefundAmountCents" (row_data row') = Some (of_i64 amount))
  ∧ (∃ orow', table_rows s' "orders" !! bare_id "orders" order_id = Some orow' ∧ items_of orow' = items)
  ∧ table_rows s' "products" = table_rows s "products".
Proof.
  intros H Hrow Hm Horow Hom. unfold record_received in H. cbv zeta in H. run_inv H. run_inv H. run_inv H.
  apply pure_ok in H as [-> _]. apply update_run in R as (r0 & E0 & Hr & Hk0), R0 as (r1 & E1 & Ho & Hk1); [|done..].
  unfold returns_of in *. rewrite Hrow in E0. injection E0 as <-. rewrite Hk0 in E1 by done. rewrite Horow in E1. injection E1 as <-.
  assert (∀ c, c ≠ "events" → table_rows s2 c = table_rows s1 c) as Hk2.
  { intros c Hc. match type of R1 with create_document ?a ?b ?f ?n _ = _ =>
      eapply (keeps_run c (db (create_document a b f n))); [|exact R1] end. by apply keeps_create. }
  split_and!.
  - rewrite Hk2, Hk1, Hr, lookup_insert_eq by done. eexists. split; [done|].
    unfold return_status, str_field. by rewrite !(merged_row_get _ _ row m) by (done || concrete).
  - rewrite Hk2, Ho, Hk0, lookup_insert_eq by done. eexists. split; [done|].
    unfold items_of, items_array. by rewrite (merged_row_get _ _ orow om) by (done || concrete).
  - by rewrite Hk2, Hk1, Hk0.
Qed.

(** What becomes of the money: with a recorded payment intent Stripe was asked,
    under the return's own idempotency key, for a refund of exactly [amount] of
    that payment, accepted it, and [refund_id] is the id it answered; without one
    nothing was asked and no refund is recorded. *)
Definition refunded_at_stripe (return_id order_id pid intent : string) (amount : Z) (refund_id : option string) : Prop :=
  if decide (intent = "") then refund_id = None
  else ∃ body, stripe_refunds ("return_refund_" +:+ return_id +:+ "_" +:+ pid)
      (refund_form intent (Some amount) "requested_by_customer"
        [("orderId", order_id); ("productId", pid); ("returnId", return_id)]) = RefundBody body
    ∧ refund_id = get "id" body ≫= as_str.

Lemma refund_received_ok e return_id order_id pid order amount refund_id :
  refund_received stripe_refunds e return_id order_id pid order amount = Ok refund_id →
  refunded_at_stripe return_id order_id pid (str_field order "paymentIntentId") amount refund_id.
Proof.
  unfold refund_received, refunded_at_stripe. cbv zeta.
  destruct (str_field order "paymentIntentId") as [|c pi]; [by intros [= <-]|].
  cbn [str_empty]. unfold stripe_refund. intros H. rewrite decide_False by done.
  destruct (ok_or _ (ve_stripe_key e)); [|done|done]. cbn [mbind outcome_bind] in H.
  destruct (stripe_refunds _ _) as [| | | |body] eqn:E; try done. exists body. split; [done|]. by injection H.
Qed.

(** A return is received: the run that ends well. *)
Record received (e : return_env) (return_id order_id pid : string) (qty : Z) (order : Value) (s s' : store)
    (idx : nat) (item : Value) (amount : Z) (refund_id : option string) (items : list Value) : Prop := {
  rv_item : find_item_index (items_array order) pid = Some idx ∧ items_array order !! idx = Some item;
  rv_amount : calculate_refund_amount_cents order item = Ok amount;
  rv_stripe : refunded_at_stripe return_id order_id pid (str_field order "paymentIntentId") amount refund_id;
  rv_items : put_item idx (received_fields (to_rfc3339 (ve_now e)) amount refund_id) (items_array order) = Ok items;
  rv_return : ∃ row', returns_of s' !! bare_id "return_requests" return_id = Some row'
    ∧ return_status row' = "refunded" ∧ get "returnRefundAmountCents" (row_data row') = Some (of_i64 amount);
  rv_order : ∃ orow', table_rows s' "orders" !! bare_id "orders" order_id = Some orow' ∧ items_of orow' = items;
  rv_stock : ∀ n, pid ≠ "" → (0 < qty)%Z → stocked s (bare_id "products" pid) n → (n + qty ≤ i64_max)%Z →
    stocked s' (bare_id "products" pid) (n + qty);
}.

Lemma mark_received_ok e user_id return_id s0 s s' status row m orow :
  same_tables s0 s → returns_of s0 !! bare_id "return_requests" return_id = Some row → row_data row = VObject m →
  let doc := row_to_doc (bare_id "return_requests" return_id) row in
  let order_id := str_field doc "orderId" in
  table_rows s0 "orders" !! bare_id "orders" order_id = Some orow →
  mark_received stripe_refunds e user_id return_id doc s = (s', Ok status) →
  ∃ idx item amount refund_id items, received e return_id order_id (str_field doc "productId") (quantity_of doc)
    (row_to_doc (bare_id "orders" order_id) orow) s0 s' idx item amount refund_id items.
Proof.
  intros K Hrow Hm doc order_id Horow H. unfold mark_received in H. cbv zeta in H. fold order_id in H.
  run_inv H. run_inv H. rewrite (read_order_run _ _ orow) in R0 by (by rewrite K). injection R0 as <- <-.
  do 5 run_inv H. run_inv H. run_inv H. apply pure_ok in H as [-> _].
  set (order := row_to_doc _ orow) in *. destruct (find_item_index (items_array order) _) as [idx|] eqn:Ef; [|done].
  injection R0 as <-. destruct (items_array order !! idx) as [item|] eqn:Ei; [|done]. injection R1 as <-.
  assert (∃ om, row_data orow = VObject om) as [om Hom].
  { unfold order in Ei. rewrite items_doc in Ei. unfold items_array in Ei. destruct (row_data orow); try done. eauto. }
  pose proof (λ c Hc, keeps_run c _ _ _ _ (keeps_restock c e _ _ Hc) R5) as Hk. setoid_rewrite table_rows_ensured in Hk.
  eapply record_received_ok in R6 as (Hret & Hord & Hprod);
    [|by unfold returns_of; rewrite Hk, K|exact Hm|by rewrite Hk, K|exact Hom].
  exists idx, item. do 3 eexists. split; [done|exact R2|by eapply refund_received_ok|exact R4|exact Hret|exact Hord|].
  intros n Hp Hq Hs Hle. eapply counted_same; [exact Hprod|].
  eapply restock_received_ok; [exact R5|done|done| |done].
  eapply counted_same; [|exact Hs]. by rewrite table_rows_ensured, K.
Qed.

Lemma mark_received_status e user_id return_id doc s s' status :
  mark_received stripe_refunds e user_id return_id doc s = (s', Ok status) →
  status = "refunded" ∧ may_become (str_field doc "returnStatus") "received" = true.
Proof.
  unfold mark_received. cbv zeta. intros H. run_inv H. do 8 run_inv H. apply pure_ok in H as [_ [= <-]].
  split; [done|]. by destruct (may_become _ _).
Qed.

Lemma receivable a : may_become a "received" = true → a ∈ ["approved"; "label_issued"].
Proof.
  unfold may_become, valid_return_transitions. intros H. repeat case_match; bools; subst; set_solver.
Qed.

(** C14: a return that is received is settled: the request of its seller or an
    administrator, in a status that allows it, marks the item and the return
    refunded, records the amount computed for the item, and puts the units of the
    return back in stock. Where the order records a payment intent, Stripe has
    refunded exactly that amount of it and the item carries the id of the refund;
    where it records none, Stripe is not asked and no refund id is stored, though
    item and return are marked refunded all the same ([return_unpaid] below). *)
Theorem return_received_ok e auth req s s' resp row orow :
  approve_return_request pg_invalid_bigint stripe_refunds e auth req s = (s', Ok resp) →
  ar_action req = "mark_received" →
  let id := bare_id "return_requests" (ar_return_id req) in
  returns_of s !! id = Some row → let doc := row_to_doc id row in
  let order_id := str_field doc "orderId" in
  table_rows s "orders" !! bare_id "orders" order_id = Some orow →
  as_new_status resp = "refunded" ∧ return_status row ∈ ["approved"; "label_issued"]
  ∧ return_party s auth (Approve req) row
  ∧ ∃ idx item amount refund_id items, received e (ar_return_id req) order_id (str_field doc "productId")
      (quantity_of doc) (row_to_doc (bare_id "orders" order_id) orow) s s' idx item amount refund_id items.
Proof.
  intros H Ha id Hrow doc order_id Horow. assert (same_tables s s) as K by done.
  unfold approve_return_request in H. cbv zeta in H. rewrite Ha in H.
  run_inv H. run_inv H. run_inv H. run_inv H. run_inv H. run_inv H. run_inv H. apply pure_ok in H as [-> [= <-]].
  apply resolve_user in R0 as ->. apply reads_run with (s0 := s) in R1; [|apply reads_limit|done].
  pose proof (reads_run _ s _ _ _ (reads_is_admin _) R1 R2) as K2.
  apply (admin_value s) in R2 as ->; [|done].
  pose proof (reads_run _ s _ _ _ (reads_get _ _ _) K2 R3) as K3.
  apply (return_value s) in R3 as (row0 & Hrow0 & ->); [|done]. fold id in Hrow0, R5. rewrite Hrow in Hrow0. injection Hrow0 as <-.
  change (mark_received stripe_refunds e (auth_user_id auth) (ar_return_id req) doc s2 = (s3, Ok a5)) in R5.
  apply mark_received_status in R5 as Hst. destruct Hst as [-> Hst]. unfold doc in Hst.
  rewrite str_field_doc in R4, Hst by concrete. fold (return_status row) in Hst.
  assert (∃ m, row_data row = VObject m) as [m Hm] by (eapply status_object; by apply edge_received).
  split_and!; [done|by apply receivable| |by eapply mark_received_ok].
  - cbn. destruct (stored_admin s (auth_user_id auth)); [by left|right]. cbn [negb andb] in R4.
    destruct (auth_user_id auth =s? _) eqn:E; [by bools|done].
Qed.
End received_goods.

(** ** Concrete instances *)
Section return_witnesses.
#[local] Instance demo_v_chrono : Chrono := plain_chrono.
#[local] Instance demo_v_json : PgJson := plain_json.
#[local] Instance demo_v_text : TextLib := plain_textlib.

Definition demo_v_env (doc_id event_id : string) : return_env :=
  {| ve_test_mode := true; ve_stripe_key := Some "sk"; ve_fcm_project := None; ve_fcm_account := None; ve_secs := 1000;
     ve_limit_id := "l4"; ve_limit_now := 40; ve_window_now := 41; ve_now := 42; ve_notify_now := 43;
     ve_delivered_now := λ k, (50 + Z.of_nat k)%Z; ve_clock := λ k, (60 + Z.of_nat k)%Z; ve_return_id := "r1";
     ve_doc_id := doc_id; ve_event_id := event_id |}.
Definition no_tokens (admins : list string) (s : store) : list Value := [].
Definition no_push (project account token title body : string) (data : list (string * string)) : bool := false.
Definition demo_return (env : return_env) (user : string) (req : return_request) : handler unit :=
  handle_return "" map_to_list stripe_accepts no_tokens no_push env (admin_auth user) req.

(** The order of the refunds above, its first item delivered. *)
Definition delivered_item : Value := put "status" (VString "delivered") (paid_item "p1" "sue" 5000 false).
Definition delivered_order : DocRow :=
  plain_row (put "userId" (VString "ann") (put "items" (VArray [delivered_item; paid_item "p2" "tom" 3000 true])
    (VObject (paid_fields [])))).
Definition delivered_store : store := <["orders" := {["o1" := delivered_order]}]> demo_shop.
Definition demo_create : return_request :=
  Create {| nr_order_id := "o1"; nr_product_id := "p1"; nr_user_id := "ann"; nr_return_reason := "broken" |}.
Definition after_create : store := (demo_return (demo_v_env "d1" "e1") "ann" demo_create delivered_store).1.
Definition seller_says (id action : string) : return_request :=
  Approve {| ar_return_id := id; ar_user_id := "sue"; ar_action := action; ar_return_tracking_number := None;
             ar_return_admin_note := Some "ok" |}.
Definition after_approval : store := (demo_return (demo_v_env "d2" "e2") "sue" (seller_says "d1" "approve") after_create).1.
Definition created_row : DocRow := default (plain_row VNull) (returns_of after_create !! "d1").
Definition approved_row : DocRow := default (plain_row VNull) (returns_of after_approval !! "d1").

(** The return is created and approved by the id of its document; by the id
    its creation reports there is none. *)
Example return_id_unknown :
  return_status created_row = "requested" ∧ return_status approved_row = "approved"
  ∧ str_field (row_data created_row) "returnId" = "r1"
  ∧ (demo_return (demo_v_env "d2" "e2") "sue" (seller_says "r1" "approve") after_create).2
    = Err (NotFound "Return request not found").
Proof. by vm_compute. Qed.

Lemma return_status_moves_witness :
  ∃ row', returns_of after_approval !! "d1" = Some row'
    ∧ (row' = created_row ∨ "d1" = requested_return (seller_says "d1" "approve")
         ∧ return_edge (return_status created_row) (return_status row') = true
         ∧ return_party after_create (admin_auth "sue") (seller_says "d1" "approve") created_row
         ∧ ∀ k, k ∈ fixed_fields → get k (row_data row') = get k (row_data created_row)).
Proof.
  apply (return_status_moves "" map_to_list stripe_accepts no_tokens no_push (demo_v_env "d2" "e2") (admin_auth "sue")
    (seller_says "d1" "approve") after_create after_approval (Ok tt)).
  - evaluates.
  - evaluates.
Defined.

Lemma empty_typed : returns_typed delivered_store.
Proof.
  unfold returns_typed, returns_of. assert (table_rows delivered_store "return_requests" = ∅) as -> by evaluates.
  apply map_Forall_empty.
Qed.
Lemma returns_stay_typed_witness : returns_typed after_create.
Proof.
  apply (returns_stay_typed "" map_to_list stripe_accepts no_tokens no_push (demo_v_env "d1" "e1") (admin_auth "ann")
    demo_create delivered_store after_create (Ok tt)).
  - evaluates.
  - apply empty_typed.
Defined.

Definition sue_receives : ApproveReturnReq :=
  {| ar_return_id := "d1"; ar_user_id := "sue"; ar_action := "mark_received"; ar_return_tracking_number := None;
     ar_return_admin_note := None |}.
Definition after_receipt : store := (demo_return (demo_v_env "d3" "e3") "sue" (Approve sue_receives) after_approval).1.
Lemma return_received_ok_witness :
  "refunded" = "refunded" ∧ return_status approved_row ∈ ["approved"; "label_issued"]
  ∧ return_party after_approval (admin_auth "sue") (Approve sue_receives) approved_row
  ∧ ∃ idx item amount refund_id items, received stripe_accepts (demo_v_env "d3" "e3") "d1" "o1" "p1" 1
      (row_to_doc "o1" delivered_order) after_approval after_receipt idx item amount refund_id items.
Proof.
  apply (return_received_ok (PgJsonLaws0 := plain_json_laws) "" stripe_accepts (demo_v_env "d3" "e3") (admin_auth "sue")
    sue_receives after_approval after_receipt {| as_success := true; as_new_status := "refunded" |} approved_row delivered_order).
  - evaluates.
  - done.
  - evaluates.
  - evaluates.
Defined.

(** The receipt of a return neither looks at what the item has been refunded
    before nor counts against the total: the seller refunds the item, receives its
    return, and 11500 of the 9200 cents paid are sent back. *)
Definition refunded_before : store :=
  (demo_refund "p1" (demo_f_env (Some "sk") "e4") "sue" after_approval).1.
Example return_refunds_again :
  (demo_refund "p1" (demo_f_env (Some "sk") "e4") "sue" after_approval).2 = Ok p1_response
  ∧ let '(s, r) := demo_return (demo_v_env "d3" "e5") "sue" (Approve sue_receives) refunded_before in
    r = Ok tt
    ∧ (λ row, cents (row_data row) "returnRefundAmountCents") <$> returns_of s !! "d1" = Some 5750%Z
    ∧ (λ row, cents (row_data row) "totalAmountCents") <$> table_rows s "orders" !! "o1" = Some 9200%Z.
Proof. by vm_compute. Qed.

(** An order that records no payment intent: the receipt marks return and item
    refunded, with the amount, and Stripe, which here would refuse, is not asked. *)
Definition no_intent (s : store) : store :=
  <["orders" := {["o1" := plain_row (put "paymentIntentId" (VString "") (row_data delivered_order))]}]> s.
Definition stripe_refuses (key : string) (form : list (string * string)) : refund_reply := RefundRefused.
Example return_unpaid :
  let '(s, r) := handle_return "" map_to_list stripe_refuses no_tokens no_push (demo_v_env "d3" "e3")
                   (admin_auth "sue") (Approve sue_receives) (no_intent after_approval) in
  r = Ok tt
  ∧ (return_status <$> returns_of s !! "d1") = Some "refunded"
  ∧ (λ row, (λ item, (str_field item "status", cents item "refundAmountCents", get "refundId" item)) <$> items_of row !! 0)
      <$> table_rows s "orders" !! "o1" = Some (Some ("refunded", 5750%Z, None)).
Proof. by vm_compute. Qed.

(** The check for a return in progress looks at one of the returns of the item,
    in whatever order the database gives them: with an earlier one that was
    rejected, a second return is created beside the open one. *)
Definition rejected_row : DocRow := plain_row (put "returnStatus" (VString "rejected") (row_data created_row)).
Definition two_returns : store :=
  <["return_requests" := {["d0" := rejected_row; "d1" := created_row]}]> after_create.
Definition rejected_first (rs : rows) : list (string * DocRow) :=
  let l := map_to_list rs in
  filter (λ kr, return_status kr.2 = "rejected") l ++ filter (λ kr, return_status kr.2 ≠ "rejected") l.
Example second_open_return :
  let '(s, r) := handle_return "" rejected_first stripe_accepts no_tokens no_push (demo_v_env "d2" "e6")
                   (admin_auth "ann") demo_create two_returns in
  r = Ok tt ∧ (return_status <$> returns_of s !! "d1") = Some "requested"
  ∧ (return_status <$> returns_of s !! "d2") = Some "requested".
Proof. by vm_compute. Qed.
End return_witnesses.
