(* ===== verification/Capture.v ===== *)
(** * Capture of a payment

    crates/ob-handlers/src/payments/capture.rs: the handler that captures a
    payment Stripe authorised and moves the order to processing.  What is read
    leads to a decision ([capture_guards], [intent_of]), then Stripe is called
    ([stripe_capture]) and the order written without a guard ([capture_write]).
    Stripe is a parameter. *)

From S2P Require Export Returns.

Record CapturePaymentRequest : Type := { cp_order_id : string; cp_user_id : option string }.
Record CapturePaymentResponse : Type := {
  cq_success : bool; cq_order_id : string; cq_payment_status : string; cq_order_status : string }.

(** What a request to Stripe comes to. *)
Inductive api_reply : Type :=
| ApiSendFailed (error : string)
| ApiRefused
| ApiNotJson (error : string)
| ApiBody (body : Value).

Record capture_env : Type := {
  pe_test_mode : bool;
  pe_stripe_key : option string;
  pe_secs : Z; pe_limit_id : string; pe_limit_now : Z;   (** the limiter's *)
  pe_now : Z;                                            (** [Utc::now()] of the update *)
  pe_db_now : Z;                                         (** the database's clock *)
}.

Section capture.
Context `{C : Chrono} `{P : PgJson}.
Context (pg_invalid_bigint : string).
(** The answers: to a session id, and to an idempotency key and an intent. *)
Context (stripe_sessions : string → api_reply) (stripe_captures : string → string → api_reply).

Definition capture_key (e : capture_env) : Result string :=
  ok_or (Config "Missing required secret: stripe_secret_key") (pe_stripe_key e).

Definition first_seller (order : Value) : string :=
  default "" (((get "items" order ≫= as_array) ≫= head) ≫= λ item, get "sellerId" item ≫= as_str).

Definition capture_guards (user_id : string) (is_admin : bool) (order : Value) : Result unit :=
  let seller_id := first_seller order in
  let buyer_id := str_field order "buyerId" in
  let current_status := str_field order "orderStatus" in
  let current_payment := str_field order "paymentStatus" in
  if (negb (str_empty seller_id) && negb (seller_id =s? user_id))
     && (negb (str_empty buyer_id) && negb (buyer_id =s? user_id)) && negb is_admin then
    Err (Forbidden "Only the buyer, seller, or admin can capture payment for this order")
  else if negb (current_status =s? order_status_str Order.PaymentAuthorized)
          && negb (current_status =s? order_status_str Order.AwaitingShippingApproval) then
    Err (Validation ("Cannot capture payment for order in status '" +:+ current_status
                     +:+ "'. Expected confirmed or awaiting_shipping_approval"))
  else if negb (current_payment =s? "authorized") then
    Err (Validation ("Cannot capture payment with payment status '" +:+ current_payment +:+ "'"))
  else Ok tt.

(** The payment intent of the order, or of its checkout session. *)
Definition intent_of (e : capture_env) (order : Value) : Result string :=
  let payment_intent_id := str_field order "paymentIntentId" in
  if str_empty payment_intent_id then
    let session_id := str_field order "stripeSessionId" in
    if str_empty session_id then Err (Internal "Order has no payment intent or checkout session")
    else
      _ ← capture_key e;
      match stripe_sessions session_id with
      | ApiSendFailed err => Err (Internal ("Stripe API error: " +:+ err))
      | ApiRefused => Err (Internal "Failed to fetch checkout session")
      | ApiNotJson err => Err (Internal ("Parse error: " +:+ err))
      | ApiBody session =>
          let pi := str_field session "payment_intent" in
          if str_empty pi then Err (Internal "Checkout session has no payment intent") else Ok pi
      end
  else Ok payment_intent_id.

Definition stripe_capture (e : capture_env) (order_id pi_id : string) : Result unit :=
  _ ← capture_key e;
  match stripe_captures (order_id +:+ "_capture") pi_id with
  | ApiSendFailed err => Err (Internal ("Stripe capture error: " +:+ err))
  | ApiRefused => Err (Internal "Failed to capture payment with Stripe")
  | ApiNotJson err => Err (Internal ("Parse error: " +:+ err))
  | ApiBody result =>
      let stripe_status := default "unknown" (get "status" result ≫= as_str) in
      if stripe_status =s? "succeeded" then Ok tt
      else Err (Internal ("Payment capture returned status: " +:+ stripe_status))
  end.

Definition captured_doc (e : capture_env) (pi_id : string) : Value :=
  VObject [("orderStatus", VString (order_status_str Order.Processing)); ("paymentIntentId", VString pi_id);
           ("paymentStatus", VString (payment_status_str Payment.Captured));
           ("updatedAt", VString (to_rfc3339 (pe_now e)))].
Definition capture_write (e : capture_env) (order_id pi_id : string) : handler unit :=
  _ ← db_map_err update_failed (update_document "orders" order_id (captured_doc e pi_id) (pe_db_now e));
  pure (Ok tt).

Definition capture_payment (e : capture_env) (auth : AuthContext) (req : CapturePaymentRequest) :
    handler CapturePaymentResponse :=
  _ ← pure (validate_uid "orderId" (cp_order_id req));
  user_id ← pure (resolve_self_user_id auth (cp_user_id req) "userId");
  _ ← pure (validate_uid "userId" user_id);
  _ ← check_user_rate_limit pg_invalid_bigint (pe_test_mode e) user_id "capture_payment" 5 1
        (pe_secs e) (pe_limit_id e) (pe_limit_now e);
  order ← db_map_err (λ _, NotFound ("Order " +:+ cp_order_id req +:+ " not found"))
            (get_document "orders" (cp_order_id req));
  _ ← pure (capture_guards user_id (has_role "admin" auth) order);
  pi_id ← pure (intent_of e order);
  _ ← pure (stripe_capture e (cp_order_id req) pi_id);
  _ ← capture_write e (cp_order_id req) pi_id;
  pure (Ok {| cq_success := true; cq_order_id := cp_order_id req;
              cq_payment_status := payment_status_str Payment.Captured;
              cq_order_status := order_status_str Order.Processing |}).

(** ** What a capture does *)

(** The caller, as the code checks it: an order that lacks a seller or a buyer
    is open to everyone. *)
Definition may_capture (user_id : string) (is_admin : bool) (order : Value) : Prop :=
  is_admin = true ∨ first_seller order = user_id ∨ str_field order "buyerId" = user_id
  ∨ first_seller order = "" ∨ str_field order "buyerId" = "".

Lemma capture_guards_ok user_id is_admin order :
  capture_guards user_id is_admin order = Ok tt →
  may_capture user_id is_admin order
  ∧ str_field order "orderStatus" ∈ ["confirmed"; "awaiting_shipping_approval"]
  ∧ str_field order "paymentStatus" = "authorized".
Proof.
  unfold capture_guards, may_capture. cbv zeta.
  case_match eqn:E1; [done|]. case_match eqn:E2; [done|]. case_match eqn:E3; [done|]. intros _. bools. split_and!; [| |done].
  - destruct is_admin; [by left|right]. destruct (first_seller order) as [|c fs]; [by right; right; left|].
    destruct (str_field order "buyerId") as [|d b]; [by do 3 right|]. cbn [str_empty negb andb] in E1.
    destruct (String c fs =s? user_id) eqn:Es; [bools; by left|]. destruct (String d b =s? user_id) eqn:Eb; [bools; by right; left|done].
  - destruct (str_field order "orderStatus" =s? order_status_str Order.PaymentAuthorized) eqn:Ea; bools; [rewrite Ea; set_solver|].
    cbn [negb andb] in E2. bools. rewrite E2. set_solver.
Qed.

Lemma update_done c id data now s row :
  is_ok (validate_identifier c) = true → table_rows s c !! bare_id c id = Some row →
  ∃ s' doc, update_document c id data now s = (s', Ok doc)
    ∧ table_rows s' c = <[bare_id c id := merged_row data now row]> (table_rows s c).
Proof.
  intros Hv Hrow. pose proof (update_rows c id data now s) as Hu. rewrite Hrow, Hv in Hu.
  unfold update_document in *. rewrite with_table_valid in * by done. cbv beta zeta in *.
  rewrite table_rows_ensured, Hrow in *. eauto.
Qed.

Lemma captured_get e pi_id now row m k :
  row_data row = VObject m →
  get k (row_data (merged_row (captured_doc e pi_id) now row))
  = match get k (captured_doc e pi_id) with Some v => Some v | None => get k (row_data row) end.
Proof. intros Hm. eapply merged_row_get; [concrete|exact Hm]. Qed.

(** C16: a capture either fails and leaves every table but the limiter's as it was, or Stripe
    reported that it succeeded for the intent of the order, and the order is
    recorded as captured and processing, with nothing else changed. *)
Theorem capture_payment_ok e auth req s s' r row :
  let id := bare_id "orders" (cp_order_id req) in
  let order := row_to_doc id row in
  table_rows s "orders" !! id = Some row → capture_payment e auth req s = (s', r) →
  same_tables s s' ∧ (∀ resp, r ≠ Ok resp)
  ∨ ∃ pi_id row', (∃ resp, r = Ok resp)
      ∧ may_capture (auth_user_id auth) (has_role "admin" auth) order
      ∧ str_field order "orderStatus" ∈ ["confirmed"; "awaiting_shipping_approval"]
      ∧ str_field order "paymentStatus" = "authorized"
      ∧ intent_of e order = Ok pi_id ∧ stripe_capture e (cp_order_id req) pi_id = Ok tt
      ∧ table_rows s' "orders" = <[id := row']> (table_rows s "orders")
      ∧ status_of row' = "processing" ∧ str_field (row_data row') "paymentStatus" = "captured"
      ∧ (∀ k, k ∉ ["orderStatus"; "paymentIntentId"; "paymentStatus"; "updatedAt"] →
           get k (row_data row') = get k (row_data row)).
Proof.
  intros id order Hrow H. assert (same_tables s s) as K by done. unfold capture_payment in H.
  do 8 reading K H. apply pure_ok in R0 as [-> Hu]. apply resolve_user in Hu as ->.
  apply pure_ok in R4 as [-> Hg], R5 as [-> Hi], R6 as [-> Hc].
  apply (document_value s) in R3 as (row0 & Hrow0 & ->); [|done..]. fold id in Hrow0, Hg, Hi, H. rewrite Hrow in Hrow0.
  injection Hrow0 as <-. fold order in Hg, Hi, H. destruct a4, a6. apply capture_guards_ok in Hg as (Hmay & Hst & Hpay).
  destruct (object_of_doc id row) as [m Hm]; [fold order; by rewrite Hpay|].
  right. unfold capture_write in H.
  destruct (update_done "orders" (cp_order_id req) (captured_doc e a5) (pe_db_now e) s4 row eq_refl)
    as (s_end & doc & Hup & Hrows); [by rewrite K|].
  rewrite (bind_run _ _ s4 s_end tt) in H
    by (erewrite bind_run; [|unfold db_map_err; rewrite Hup; reflexivity]; done).
  injection H as <- <-. exists a5. eexists. split_and!; [eauto|done|done|done|done|done|by rewrite Hrows, K|..].
  - unfold status_of, str_field. by rewrite (captured_get e a5 _ row m _ Hm).
  - unfold str_field. by rewrite (captured_get e a5 _ row m _ Hm).
  - intros k Hk. rewrite (captured_get e a5 _ row m _ Hm). cbn [get captured_doc assoc_get].
    assert (∀ x, x ∈ ["orderStatus"; "paymentIntentId"; "paymentStatus"; "updatedAt"] → (k =s? x) = false) as Hne
      by (intros x Hx; apply bool_decide_eq_false; by intros ->).
    by rewrite !Hne by concrete.
Qed.

(** The write has no guard: an order that was cancelled, its stock given back,
    after the capture had read it becomes captured and processing again. *)
Theorem capture_overwrites_cancellation e e' order_id user_id reason payment pi_id s s1 row m :
  let id := bare_id "orders" order_id in
  let order := row_to_doc id row in
  table_rows s "orders" !! id = Some row → row_data row = VObject m →
  capture_guards user_id false order = Ok tt →
  cancel_write e' order_id user_id reason order payment s = (s1, Ok tt) →
  ∃ s2 row2, capture_write e order_id pi_id s1 = (s2, Ok tt) ∧ table_rows s2 "orders" !! id = Some row2
    ∧ status_of row2 = "processing" ∧ get "stockRestored" (row_data row2) = Some (VBool true).
Proof.
  intros id order Hrow Hm Hg Hcancel. unfold cancel_write in Hcancel. run_inv Hcancel.
  destruct a as [d|]; [|done]. apply pure_ok in Hcancel as [-> _].
  destruct (cas_success _ _ _ _ _ _ _ _ _ R) as (row0 & E & Hmatch & _).
  pose proof (update_cas_rows "orders" order_id (cancelled_doc e' user_id reason payment) "orderStatus"
    (VString (str_field order "orderStatus")) (fe_clock e' 1) s eq_refl) as Hrows.
  rewrite R in Hrows. cbn [fst] in Hrows. fold id in E, Hrows. rewrite E in Hrow. injection Hrow as ->.
  rewrite E, Hmatch in Hrows. set (row1 := merged_row _ _ row) in Hrows.
  destruct (update_done "orders" order_id (captured_doc e pi_id) (pe_db_now e) s0 row1 eq_refl)
    as (s2 & doc & Hup & Hrows2); [by rewrite Hrows, lookup_insert_eq|]. fold id in Hrows2.
  assert (∃ m1, row_data row1 = VObject m1) as [m1 Hm1] by (unfold row1; cbn; rewrite Hm; cbn; eauto).
  exists s2. eexists. split; [unfold capture_write; erewrite bind_run; [|unfold db_map_err; rewrite Hup; reflexivity]; done|].
  split; [by rewrite Hrows2, lookup_insert_eq|]. unfold status_of, str_field. rewrite !(captured_get e pi_id _ row1 m1 _ Hm1).
  split; [done|]. change (get "stockRestored" (captured_doc e pi_id)) with (@None Value). unfold row1, cancelled_doc.
  by rewrite (merged_row_get _ _ row m) by (done || concrete).
Qed.
End capture.

(** ** Concrete instances *)
Section capture_witnesses.
#[local] Instance demo_p_chrono : Chrono := plain_chrono.
#[local] Instance demo_p_json : PgJson := plain_json.

Definition demo_p_env : capture_env :=
  {| pe_test_mode := true; pe_stripe_key := Some "sk"; pe_secs := 1000; pe_limit_id := "l5"; pe_limit_now := 70;
     pe_now := 71; pe_db_now := 72 |}.
Definition authorised (buyer : list (string * Value)) : DocRow :=
  plain_row (VObject (buyer ++ [("items", VArray [paid_item "p1" "sue" 5000 false]);
    ("orderStatus", VString "confirmed"); ("paymentStatus", VString "authorized");
    ("stripeSessionId", VString "cs_1")])).
Definition authorised_store (buyer : list (string * Value)) : store := {["orders" := {["o1" := authorised buyer]}]}.
Definition demo_sessions (session : string) : api_reply := ApiBody (VObject [("payment_intent", VString "pi_1")]).
Definition demo_captures (key intent : string) : api_reply := ApiBody (VObject [("status", VString "succeeded")]).
Definition demo_capture (user : string) (s : store) : store * Result CapturePaymentResponse :=
  capture_payment "" demo_sessions demo_captures demo_p_env (admin_auth user)
    {| cp_order_id := "o1"; cp_user_id := None |} s.
Definition anns : list (string * Value) := [("buyerId", VString "ann")].
Definition captured_response : CapturePaymentResponse :=
  {| cq_success := true; cq_order_id := "o1"; cq_payment_status := "captured"; cq_order_status := "processing" |}.

Definition capture_answer : Result CapturePaymentResponse := Ok captured_response.

Lemma capture_payment_ok_witness :
  let s' := (demo_capture "ann" (authorised_store anns)).1 in
  same_tables (authorised_store anns) s' ∧ (∀ resp, capture_answer ≠ Ok resp)
  ∨ ∃ pi_id row', (∃ resp, capture_answer = Ok resp)
      ∧ may_capture "ann" false (row_to_doc "o1" (authorised anns))
      ∧ str_field (row_to_doc "o1" (authorised anns)) "orderStatus" ∈ ["confirmed"; "awaiting_shipping_approval"]
      ∧ str_field (row_to_doc "o1" (authorised anns)) "paymentStatus" = "authorized"
      ∧ intent_of demo_sessions demo_p_env (row_to_doc "o1" (authorised anns)) = Ok pi_id
      ∧ stripe_capture demo_captures demo_p_env "o1" pi_id = Ok tt
      ∧ table_rows s' "orders" = <["o1" := row']> (table_rows (authorised_store anns) "orders")
      ∧ status_of row' = "processing" ∧ str_field (row_data row') "paymentStatus" = "captured"
      ∧ (∀ k, k ∉ ["orderStatus"; "paymentIntentId"; "paymentStatus"; "updatedAt"] →
           get k (row_data row') = get k (row_data (authorised anns))).
Proof.
  intros s'. apply (capture_payment_ok "" demo_sessions demo_captures demo_p_env (admin_auth "ann")
    {| cp_order_id := "o1"; cp_user_id := None |} (authorised_store anns) s' capture_answer (authorised anns)).
  - evaluates.
  - evaluates.
Defined.

(** Without a buyer on the order anyone may capture its payment. *)
Example stranger_captures : (demo_capture "eve" (authorised_store [])).2 = Ok captured_response.
Proof. by vm_compute. Qed.
End capture_witnesses.
