(* ===== verification/Subscriptions.v ===== *)
(** * Subscription events

    The part of crates/ob-handlers/src/payments/subscriptions.rs that Stripe's
    webhooks reach: [route_subscription_webhook] and its handlers, which keep
    the premium flag of a user and the subscription document in step with
    Stripe.  The endpoints of that file are not modelled. *)

From S2P Require Export Capture.

(** shared/schema.rs *)
Module Subscription.
Inductive SubscriptionStatus : Type := Active | Cancelled | CancelPending | PastDue | Expired.
End Subscription.
Abbreviation SubscriptionStatus := Subscription.SubscriptionStatus.
Definition subscription_status_str (s : SubscriptionStatus) : string :=
  match s with
  | Subscription.Active => "active" | Subscription.Cancelled => "cancelled"
  | Subscription.CancelPending => "cancel_pending" | Subscription.PastDue => "past_due"
  | Subscription.Expired => "expired"
  end.

(** The clock readings of one event. *)
Record subscription_env : Type := {
  se_now : Z;            (** [Utc::now()] *)
  se_clock : nat → Z;    (** the database's clock at each write *)
}.

Definition extract_customer_id (event_data : Value) : option string :=
  (get "object" event_data ≫= get "customer") ≫= as_str.
Definition extract_uid (user : Value) : option string :=
  match get "uid" user ≫= as_str with
  | Some uid => Some uid
  | None => get "id" user ≫= as_str
  end.

Section subscriptions.
Context `{C : Chrono} `{P : PgJson}.
Context (scan : rows → list (string * DocRow)).
(** The customer's id is quoted with [escape_sql_string].  Where it holds a
    blank or closes its literal: the table that is created first and the rows
    of the statement that results. *)
Context (injected_users : string → store → string * Result (list Value)).

Definition find_user_by_customer_id (customer_id : string) : handler (option Value) :=
  rows ← match one_word customer_id with
         | Some c => select_where scan "users" (λ row, bool_decide (field_text "customerId" (row_data row) = Some c))
         | None => λ s, let '(table, r) := injected_users customer_id s in ((ensure_table table s).1, r)
         end;
  pure (Ok (head rows)).

(** The common start of the handlers: the user of the event, if any, and what
    is done for the id. *)
Definition for_customer (event_data : Value) (act : string → handler unit) : handler unit :=
  match extract_customer_id event_data with
  | None => pure (Ok tt)
  | Some customer_id =>
      user ← find_user_by_customer_id customer_id;
      match user with
      | None => pure (Ok tt)
      | Some user => act (default "" (extract_uid user))
      end
  end.
Definition uid_short (uid : string) : string := bare_id "users" uid.
Definition write (collection id : string) (fields : list (string * Value)) (now : Z) : handler unit :=
  _ ← db (update_document collection id (VObject fields) now); pure (Ok tt).

Definition handle_subscription_created (e : subscription_env) (event_data : Value) : handler unit :=
  let now := VString (to_rfc3339 (se_now e)) in
  for_customer event_data (λ uid,
    write "users" uid
      [("isPremium", VBool true); ("premiumSince", now);
       ("subscriptionStatus", VString (subscription_status_str Subscription.Active)); ("updatedAt", now)] (se_clock e 0)).

Definition handle_subscription_updated (e : subscription_env) (event_data : Value) : handler unit :=
  let now := VString (to_rfc3339 (se_now e)) in
  for_customer event_data (λ uid,
    let sub_obj := default (VObject []) (get "object" event_data) in
    let status := default "unknown" (get "status" sub_obj ≫= as_str) in
    write "subscriptions" (uid_short uid)
      [("cancelAtPeriodEnd", VBool (bool_field sub_obj "cancel_at_period_end"));
       ("currentPeriodEnd", of_i64 (cents sub_obj "current_period_end"));
       ("status", VString status); ("subscriptionStatus", VString status); ("updatedAt", now)] (se_clock e 0)).

Definition handle_subscription_deleted (e : subscription_env) (event_data : Value) : handler unit :=
  let now := VString (to_rfc3339 (se_now e)) in
  let cancelled := VString (subscription_status_str Subscription.Cancelled) in
  for_customer event_data (λ uid,
    _ ← write "users" (uid_short uid)
          [("isPremium", VBool false); ("premiumExpiresAt", now); ("subscriptionStatus", cancelled);
           ("updatedAt", now)] (se_clock e 0);
    write "subscriptions" (uid_short uid)
      [("status", cancelled); ("subscriptionStatus", cancelled); ("updatedAt", now)] (se_clock e 1)).

(** Reached through [route_subscription_webhook] only, not by the webhook
    handler, which has its own. *)
Definition handle_subscription_payment_failed (e : subscription_env) (event_data : Value) : handler unit :=
  let now := VString (to_rfc3339 (se_now e)) in
  let past_due := VString (subscription_status_str Subscription.PastDue) in
  for_customer event_data (λ uid,
    _ ← write "users" (uid_short uid) [("subscriptionStatus", past_due); ("updatedAt", now)] (se_clock e 0);
    _ ← write "subscriptions" (uid_short uid)
          [("status", past_due); ("subscriptionStatus", past_due); ("updatedAt", now)] (se_clock e 1);
    ignored (update_document "notifications" ("notif_payment_failed_" +:+ uid_short uid)
      (VObject [("body", VString "Your subscription payment failed. Please update your payment method to keep Premium access.");
                ("buyerId", VString (uid_short uid)); ("createdAt", now);
                ("notificationType", VString "payment_failed"); ("status", VString "unread");
                ("title", VString "Payment Failed"); ("updatedAt", now)]) (se_clock e 2))).

Definition route_subscription_webhook (e : subscription_env) (event_type : string) (event_data : Value) : handler unit :=
  if event_type =s? "customer.subscription.created" then handle_subscription_created e event_data
  else if event_type =s? "customer.subscription.updated" then handle_subscription_updated e event_data
  else if event_type =s? "customer.subscription.deleted" then handle_subscription_deleted e event_data
  else if event_type =s? "invoice.payment_failed" then handle_subscription_payment_failed e event_data
  else pure (Ok tt).

(** ** What the events leave alone *)

Lemma keeps_find_user c customer_id : keeps c (find_user_by_customer_id customer_id).
Proof.
  apply keeps_bind; [|intros; apply keeps_pure]. destruct (one_word customer_id); [apply keeps_select|].
  intros s. destruct (injected_users customer_id s) as [table r]. apply keeps_ensure_first.
Qed.

Lemma keeps_for_customer c event_data act :
  (∀ uid, keeps c (act uid)) → keeps c (for_customer event_data act).
Proof.
  intros H. unfold for_customer. destruct (extract_customer_id event_data); [|apply keeps_pure].
  apply keeps_bind; [apply keeps_find_user|]. intros [user|]; [apply H|apply keeps_pure].
Qed.

Lemma keeps_write c collection id fields now : collection ≠ c → keeps c (write collection id fields now).
Proof. intros H. apply keeps_bind; [by apply keeps_update|intros; apply keeps_pure]. Qed.

(** Subscription events only touch users, subscriptions and notifications. *)
Lemma keeps_subscription c e event_type event_data :
  c ∉ ["users"; "subscriptions"; "notifications"] → keeps c (route_subscription_webhook e event_type event_data).
Proof.
  intros Hc. assert ("users" ≠ c ∧ "subscriptions" ≠ c ∧ "notifications" ≠ c) as (H1 & H2 & H3).
  { split_and!; intros <-; apply Hc; repeat constructor. }
  unfold route_subscription_webhook. repeat case_match; try apply keeps_pure; apply keeps_for_customer; intros uid;
    repeat first [by apply keeps_write | apply keeps_ignored; by apply keeps_update | apply keeps_bind; [|intros ?]].
Qed.
End subscriptions.
