(* ===== verification/Webhooks.v ===== *)
(** * Stripe webhooks

    crates/ob-handlers/src/payments/webhooks.rs: the endpoint Stripe calls.  It
    checks the signature of the request, records the event so that it is handled
    once, and routes it to a handler that moves the order, its stock and its
    coupon.

    The statements the handlers send are functions on the tables.  Some of them
    set or compare columns (paymentStatus, payoutId, ..) that the tables of the
    store do not have, since a document is one column: PostgreSQL refuses them
    ([unknown_column]).  The functions marked as dead code, the mails and the log
    lines are not modelled. *)

From S2P Require Export Storage Subscriptions.

(** ** Requests *)

(** The header, if it is there and visible ASCII, and the body or why it could
    not be read. *)
Record webhook_request : Type := {
  wr_signature : option string;
  wr_body : outcome string string;
}.
Record StripeWebhookEvent : Type := {
  we_id : string; we_type : string; we_data : Value; we_created : Z }.

(** ** The signature *)

(** [hex::encode] and [hex::decode]. *)
Class HexLib := {
  hex_encode : string → string;
  hex_decode : string → option string;
}.
Class HexLaws (H : HexLib) : Prop := {
  hex_decode_encode x : hex_decode (hex_encode x) = Some x;
  hex_encode_text x : str_forall is_alnum (hex_encode x) = true;
}.

(** [str::split_once]. *)
Fixpoint split_once (c : ascii) (s : string) : option (string * string) :=
  match s with
  | "" => None
  | String a s =>
      if Ascii.eqb a c then Some ("", s)
      else '(k, v) ← split_once c s; Some (String a k, v)
  end.

Section signature.
Context `{K : Crypto} `{H : HexLib}.

(** The map of the parts of the header; a later part replaces an earlier one. *)
Definition add_part (parts : gmap string string) (part : string) : gmap string string :=
  match split_once "=" part with
  | Some (k, v) => <[k := v]> parts
  | None => parts
  end.
Definition signature_parts (signature : string) : gmap string string :=
  foldl add_part ∅ (split_on "," signature).

(** [(now - ts).abs() > 300] on [i64], wrapping. *)
Definition i64_abs (z : Z) : Z := wrap_signed 64 (Z.abs z).
Definition too_old (now ts : Z) : bool := (300 <? i64_abs (i64_sub now ts))%Z.

(** [now]: the seconds of the system clock. *)
Definition verify_stripe_signature (now : Z) (body signature secret : string) : bool :=
  let parts := signature_parts signature in
  let timestamp := default "" (parts !! "t") in
  let provided_sig := default "" (parts !! "v1") in
  if str_empty timestamp || str_empty provided_sig then false
  else match parse_i64 timestamp with
       | None => false
       | Some ts =>
           if too_old now ts then false
           else match hex_decode provided_sig with
                | None => false
                | Some provided_bytes => hmac_sha256 secret (timestamp +:+ "." +:+ body) =s? provided_bytes
                end
       end.
End signature.

(** ** The settings, clock readings and fresh ids of one delivery *)
Record hook_env : Type := {
  he_secret : option string;
  he_secs : Z;                  (** the system clock, for the signature *)
  he_stored : Z;                (** [Utc::now()] of the record of the event *)
  he_now : nat → Z;             (** [Utc::now()] of the handler: 0 for the status, 1 for the rest *)
  he_clock : nat → Z;           (** the database's clock at each write *)
  he_fresh : nat → string;      (** the ids drawn *)
}.

Section handlers.
Context `{C : Chrono} `{P : PgJson} `{T : TextLib} `{K : Crypto} `{H : HexLib}.
Context (scan : rows → list (string * DocRow)).
Context (injected_users : string → store → string * Result (list Value)).
(** PostgreSQL's messages: a column that is not there, and a path into what is
    no object. *)
Context (pg_undefined_column : string → string) (pg_no_object : string).
(** The decoder serde derives for [StripeWebhookEvent]. *)
Context (parse_event : string → outcome string StripeWebhookEvent).

Definition timestamp (micros : Z) : Z := (micros / micros_per_sec)%Z.
Definition text_of (field fallback : string) (v : Value) : string := default fallback (get field v ≫= as_str).

(** ** Statements *)

(** [SELECT * FROM table WHERE p LIMIT 1]. *)
Definition select_first (table : string) (p : string → DocRow → bool) : handler (option Value) := λ s,
  let s := (ensure_table table s).1 in
  (s, Ok (head ((λ kr : string * DocRow, row_to_doc kr.1 kr.2)
                  <$> filter (λ kr, p kr.1 kr.2 = true) (scan (table_rows s table))))).

(** [UPDATE table SET data = jsonb_set(.. jsonb_set(data, '{k}', v, true) ..)
    WHERE p]: the number of rows. *)
Definition is_object (v : Value) : bool := match v with VObject _ => true | _ => false end.
Definition update_where (table : string) (p : string → DocRow → bool) (fields : list (string * Value)) (now : Z) :
    handler nat := λ s,
  let s := (ensure_table table s).1 in
  let hits := filter (λ kr : string * DocRow, p kr.1 kr.2 = true) (table_rows s table) in
  if forallb (λ kr : string * DocRow, is_object (row_data kr.2)) (map_to_list hits) then
    (<[table := map_imap (λ id row, Some (if p id row then merged_row (VObject fields) now row else row))
                  (table_rows s table)]> s, Ok (size hits))
  else (s, Err (Database ("Query failed: " +:+ pg_no_object))).

(** [DELETE FROM table WHERE p]. *)
Definition delete_where (table : string) (p : DocRow → bool) : handler unit := λ s,
  let s := (ensure_table table s).1 in
  (<[table := filter (λ kr : string * DocRow, p kr.2 = false) (table_rows s table)]> s, Ok tt).

(** A statement on a table that names a column it does not have. *)
Definition unknown_column (table column : string) : handler (list Value) := λ s,
  ((ensure_table table s).1, Err (Database ("Query failed: " +:+ pg_undefined_column column))).

(** ** Deduplication *)

Definition invalid_event_id : Error := Validation "Invalid webhook event ID".
Definition event_record (now : Z) (event : StripeWebhookEvent) : Value :=
  VObject [("data", we_data event); ("id", VString (we_id event)); ("processed", VBool true);
           ("timestamp", of_i64 (timestamp now)); ("timestamp_iso", VString (to_rfc3339 now));
           ("type", VString (we_type event))].
Definition names_duplicate (err_str : string) : bool :=
  existsb (λ p, str_contains p err_str)
    ["already exists"; "duplicate"; "unique constraint"; "RecordIdAlreadyExists"; "conflict"].
Definition try_store_webhook_event_atomic (e : hook_env) (event : StripeWebhookEvent) : handler bool :=
  if str_empty (we_id event) || (512 <? String.length (we_id event))%nat then pure (Err invalid_event_id)
  else λ s,
    match create_document "webhook_events" (event_record (he_stored e) event) (he_fresh e 0) (he_clock e 0) s with
    | (s, Ok _) => (s, Ok true)
    | (s, Err err) => if names_duplicate (error_to_string err) then (s, Ok false) else (s, Err err)
    | (s, Panic) => (s, Panic)
    end.

(** ** Helpers of the handlers *)

Definition find_order_by_payment_intent (payment_intent_id : string) : handler (option Value) :=
  select_first "orders" (λ _ row, bool_decide (field_text "paymentIntentId" (row_data row) = Some payment_intent_id)).
Definition find_order_by_metadata_id (order_id : string) : handler (option Value) :=
  let order_key := bare_id "orders" order_id in
  select_first "orders" (λ id row, (id =s? order_key) || (id =s? order_id)
    || bool_decide (field_text "orderId" (row_data row) = Some order_key)).

(** Whether the order had the expected status, and has the new one. *)
Definition update_order_status (e : hook_env) (order_id : string) (expected new : OrderStatus) : handler bool :=
  n ← update_where "orders"
        (λ id row, (id =s? order_id)
           && (default "" (field_text "orderStatus" (row_data row)) =s? order_status_str expected))
        [("orderStatus", VString (order_status_str new)); ("updatedAt", VString (to_rfc3339 (he_now e 0)))]
        (he_clock e 1);
  pure (Ok (negb (n =? 0)%nat)).

Definition order_missing_id : Error := Validation "Order missing id".
(** Each item is tried three times; the same loop of shipping.rs skips digital
    items and stores the time with the stock. *)
Fixpoint restore_each (skip_digital : bool) (clock : nat → nat → Z) (stamp : option string) (i : nat) (items : list Value) :
    handler unit :=
  match items with
  | [] => pure (Ok tt)
  | item :: items =>
      let product_id := str_field item "productId" in
      let quantity := quantity_of item in
      _ ← (if (skip_digital && bool_field item "isDigital") || str_empty product_id || (quantity <=? 0)%Z then pure (Ok tt)
           else restored ← restore_stock id (clock i) stamp product_id quantity 3;
                pure (if restored : bool then Ok tt
                      else Err (Database ("Failed to restore stock for product " +:+ product_id))));
      restore_each skip_digital clock stamp (S i) items
  end.
Definition restore_order_items (e : hook_env) (items : list Value) : handler unit :=
  restore_each false (λ i k, he_clock e (3 * i + k + 2)) None 0 items.
Definition restore_stock_for_order (e : hook_env) (order : Value) : handler unit :=
  _ ← pure (ok_or order_missing_id (get "id" order ≫= as_str));
  restore_order_items e (items_array order).

Definition mark_coupon_redeemed (e : hook_env) (order_id coupon_code : string) : handler unit :=
  if str_empty coupon_code then pure (Ok tt)
  else _ ← update_where "coupon_uses"
             (λ _ row, bool_decide (field_text "orderId" (row_data row) = Some order_id)
                && bool_decide (field_text "couponCode" (row_data row) = Some (to_uppercase coupon_code)))
             [("redeemedAt", VString (to_rfc3339 (he_now e 1)))] (he_clock e 3);
       pure (Ok tt).
Definition reserved_use (order_id : string) (row : DocRow) : bool :=
  bool_decide (field_text "orderId" (row_data row) = Some order_id)
  && bool_decide (field_text "redeemedAt" (row_data row) = None).
Definition release_coupon_reservation (order_id : string) : handler unit :=
  ignored (delete_where "coupon_uses" (reserved_use order_id)).

Record RefundRecordInput : Type := {
  rf_refund_id : string; rf_amount_cents : Z; rf_currency : string; rf_status : string;
  rf_payment_intent_id : string; rf_reason : string; rf_failure_reason : option string }.
Definition refund_record (now : Z) (refund : RefundRecordInput) : list (string * Value) :=
  [("amountCents", of_i64 (rf_amount_cents refund)); ("currency", VString (rf_currency refund));
   ("paymentIntentId", VString (rf_payment_intent_id refund)); ("reason", VString (rf_reason refund));
   ("stripeRefundId", VString (rf_refund_id refund)); ("stripeRefundStatus", VString (rf_status refund));
   ("updatedAt", VString (to_rfc3339 now))]
  ++ match rf_failure_reason refund with Some r => [("refundFailureReason", VString r)] | None => [] end.
Definition nothing_there (doc : option Value) : bool :=
  match doc with Some (VObject (_ :: _)) => false | _ => true end.
Definition upsert_refund_record (e : hook_env) (refund : RefundRecordInput) : handler unit :=
  existing ← attempt (get_document "refunds" (rf_refund_id refund));
  let created := if nothing_there existing
                 then [("createdAt", of_i64 (timestamp (he_now e 1))); ("createdAtIso", VString (to_rfc3339 (he_now e 1)))]
                 else [] in
  _ ← db (upsert_document "refunds" (rf_refund_id refund)
        (VObject (refund_record (he_now e 1) refund ++ created)) (he_clock e 1));
  pure (Ok tt).

Definition mark_order_refund_failure (e : hook_env) (payment_intent_id failure_reason : string) : handler unit :=
  if str_empty payment_intent_id then pure (Ok tt)
  else
    order ← find_order_by_payment_intent payment_intent_id;
    match order with
    | None => pure (Ok tt)
    | Some order =>
        let order_id := str_field order "id" in
        if str_empty order_id then pure (Ok tt)
        else _ ← db (update_document "orders" order_id
                   (VObject [("refundFailureReason", VString failure_reason); ("requiresManualReview", VBool true);
                             ("updatedAt", VString (to_rfc3339 (he_now e 1)))]) (he_clock e 2));
             pure (Ok tt)
    end.

(** The refunded amount, as Stripe reports it in total, written to the order; a
    full refund gives the stock back once. *)
Definition is_full_refund (refunded total : Z) : bool := (total <=? refunded)%Z && (0 <? total)%Z.
Definition refund_state (now : Z) (full : bool) (refunded : Z) (refund_id : option string) : list (string * Value) :=
  [("orderStatus", VString (order_status_str (if full then Order.Refunded else Order.PartiallyRefunded)));
   ("paymentStatus", VString (payment_status_str (if full then Payment.Refunded else Payment.PartialRefund)));
   ("refundedAmountCents", of_i64 refunded); ("updatedAt", VString (to_rfc3339 now))]
  ++ (if full then [("refundedAt", VString (to_rfc3339 now)); ("stockRestored", VBool true)] else [])
  ++ match refund_id with Some r => [("refundId", VString r)] | None => [] end.
Definition sync_order_refund_state (e : hook_env) (payment_intent_id : string) (refund_id : option string)
    (refunded : Z) : handler unit :=
  if str_empty payment_intent_id then pure (Ok tt)
  else
    order ← find_order_by_payment_intent payment_intent_id;
    match order with
    | None => pure (Ok tt)
    | Some order =>
        order_id ← pure (ok_or order_missing_id (get "id" order ≫= as_str));
        let total := cents order "totalAmountCents" in
        _ ← pure (if (total <? refunded)%Z
                  then Err (Validation ("Refund amount " +:+ pretty refunded +:+ " exceeds order total " +:+ pretty total))
                  else Ok tt);
        let full := is_full_refund refunded total in
        _ ← (if full && negb (bool_field order "stockRestored") then restore_stock_for_order e order else pure (Ok tt));
        _ ← db (update_document "orders" order_id (VObject (refund_state (he_now e 1) full refunded refund_id)) (he_clock e 1));
        pure (Ok tt)
    end.

(** The sum of the succeeded refunds of the intent, on [i64]. *)
Definition succeeded_cents (refunds : list Value) : Z :=
  foldl i64_add 0%Z ((λ r, cents r "amountCents")
    <$> filter (λ r, get "stripeRefundStatus" r ≫= as_str = Some "succeeded") refunds).
Definition sync_order_refund_state_from_records (e : hook_env) (payment_intent_id : string)
    (refund_id : option string) : handler unit :=
  if str_empty payment_intent_id then pure (Ok tt)
  else
    refunds ← select_where scan "refunds"
                (λ row, bool_decide (field_text "paymentIntentId" (row_data row) = Some payment_intent_id));
    let refunded := succeeded_cents refunds in
    if (0 <? refunded)%Z then sync_order_refund_state e payment_intent_id refund_id refunded else pure (Ok tt).

(** ** Payment intents and checkout sessions *)

Definition event_object (event_data : Value) : Result Value :=
  ok_or (Validation "No object in event data") (get "object" event_data).
Definition required (field message : string) (v : Value) : Result string :=
  ok_or (Validation message) (get field v ≫= as_str).

(** The id of the object, and the order and the coupon its metadata name. *)
Definition paid_object (no_id no_metadata : string) (event_data : Value) : Result (Value * string * string * string) :=
  obj ← event_object event_data;
  obj_id ← required "id" no_id obj;
  metadata ← ok_or (Validation no_metadata) (get "metadata" obj ≫= as_object);
  order_id ← ok_or (Validation "No order_id in metadata") (assoc_get "order_id" metadata ≫= as_str);
  Ok (obj, obj_id, order_id, default "" (assoc_get "coupon_code" metadata ≫= as_str)).
Definition intent_object : Value → Result (Value * string * string * string) :=
  paid_object "No payment intent ID" "No metadata in payment intent".
Definition session_object : Value → Result (Value * string * string * string) :=
  paid_object "No session ID" "No metadata in checkout session".

Definition found_order (order_id : string) : handler Value :=
  order ← find_order_by_metadata_id order_id;
  pure (ok_or (NotFound ("Order " +:+ order_id +:+ " not found")) order).
Definition is_pending (order : Value) : bool :=
  str_field order "orderStatus" =s? order_status_str Order.PendingPayment.

(** An order that is still pending becomes authorised, then [act] runs. *)
Definition authorise (e : hook_env) (order_id : string) (order : Value) (act : handler unit) : handler unit :=
  if negb (is_pending order) then pure (Ok tt)
  else
    updated ← update_order_status e order_id Order.PendingPayment Order.PaymentAuthorized;
    if negb updated then pure (Ok tt) else act.

(** [UPDATE orders SET paymentIntentId = $pi_id, paymentStatus = 'authorized'
    WHERE id = $order_id] follows the change of the status. *)
Definition handle_payment_intent_succeeded (e : hook_env) (event_data : Value) : handler unit :=
  '(_, pi_id, order_id, coupon_code) ← pure (intent_object event_data);
  order ← found_order order_id;
  authorise e order_id order
    (_ ← unknown_column "orders" "paymentIntentId";
     mark_coupon_redeemed e order_id coupon_code).

(** A pending order gets the status [new], and its stock back if [restock];
    the reservation of the coupon is released. *)
Definition abandon (e : hook_env) (new : OrderStatus) (restock : bool) (order_id : string) (order : Value) : handler unit :=
  _ ← (if is_pending order then
         _ ← update_order_status e order_id Order.PendingPayment new;
         if restock then restore_stock_for_order e order else pure (Ok tt)
       else pure (Ok tt));
  release_coupon_reservation order_id.
Definition handle_payment_intent_failed (e : hook_env) (event_data : Value) : handler unit :=
  '(_, pi_id, order_id, _) ← pure (intent_object event_data);
  order ← found_order order_id;
  abandon e Order.Cancelled true order_id order.
Definition handle_payment_intent_canceled (e : hook_env) (event_data : Value) : handler unit :=
  '(_, pi_id, order_id, _) ← pure (intent_object event_data);
  order ← found_order order_id;
  abandon e Order.Cancelled true order_id order.

(** [DELETE FROM cart WHERE data->>'userId' = $buyer_id]. *)
Definition clear_cart (buyer_id : string) : handler unit :=
  if str_empty buyer_id then pure (Ok tt)
  else ignored (delete_where "cart" (λ row, bool_decide (field_text "userId" (row_data row) = Some buyer_id))).
Definition session_doc (e : hook_env) (pi_id session_id : string) : list (string * Value) :=
  [("paymentIntentId", VString pi_id); ("stripeSessionId", VString session_id);
   ("updatedAt", VString (to_rfc3339 (he_now e 1)))].
Definition handle_checkout_session_completed (e : hook_env) (event_data : Value) : handler unit :=
  '(session, session_id, order_id, coupon_code) ← pure (session_object event_data);
  order ← found_order order_id;
  authorise e order_id order
    (_ ← update_where "orders" (λ id _, id =s? order_id)
           (session_doc e (text_of "payment_intent" "" session) session_id) (he_clock e 2);
     _ ← mark_coupon_redeemed e order_id coupon_code;
     clear_cart (str_field order "buyerId")).
Definition handle_checkout_session_expired (e : hook_env) (event_data : Value) : handler unit :=
  '(_, session_id, order_id, _) ← pure (session_object event_data);
  order ← found_order order_id;
  abandon e Order.Expired true order_id order.
Definition handle_checkout_session_async_payment_succeeded : hook_env → Value → handler unit :=
  handle_checkout_session_completed.
Definition handle_checkout_session_async_payment_failed (e : hook_env) (event_data : Value) : handler unit :=
  '(_, session_id, order_id, _) ← pure (session_object event_data);
  order ← found_order order_id;
  abandon e Order.Failed false order_id order.

(** ** Charges *)

(** Events that are only logged. *)
Definition logged (event_data : Value) : handler unit := pure (Ok tt).

Definition handle_charge_refunded (e : hook_env) (event_data : Value) : handler unit :=
  charge ← pure (event_object event_data);
  _ ← pure (required "id" "No charge ID" charge);
  payment_intent_id ← pure (required "payment_intent" "No payment intent ID in charge" charge);
  refunded ← pure (ok_or (Validation "No refund amount in charge") (i64_field "amount_refunded" charge));
  order ← find_order_by_payment_intent payment_intent_id;
  _ ← pure (ok_or (NotFound ("Order not found for payment intent " +:+ payment_intent_id)) order);
  sync_order_refund_state e payment_intent_id None refunded.

(** What is done for the order of a payment intent, if there is one. *)
Definition for_order_of (payment_intent_id : string) (act : string → handler unit) : handler unit :=
  if str_empty payment_intent_id then pure (Ok tt)
  else
    order ← find_order_by_payment_intent payment_intent_id;
    match order with
    | None => pure (Ok tt)
    | Some order =>
        let order_id := str_field order "id" in
        if str_empty order_id then pure (Ok tt) else act order_id
    end.

(** [UPDATE orders SET paymentStatus = 'captured', autoCaptured = true, updatedAt
    = $now WHERE id = $order_id], its error ignored. *)
Definition handle_charge_captured (e : hook_env) (event_data : Value) : handler unit :=
  charge ← pure (event_object event_data);
  _ ← pure (required "id" "No charge ID" charge);
  for_order_of (text_of "payment_intent" "" charge) (λ order_id,
    ignored (unknown_column "orders" "paymentStatus")).

(** ** Disputes *)

Definition handle_charge_dispute_created (e : hook_env) (event_data : Value) : handler unit :=
  dispute ← pure (event_object event_data);
  dispute_id ← pure (required "id" "No dispute ID" dispute);
  payment_intent_id ← pure (required "payment_intent" "No payment_intent in dispute" dispute);
  order ← find_order_by_payment_intent payment_intent_id;
  let order_id := match order with Some o => str_field o "id" | None => "" end in
  _ ← (if str_empty order_id then pure (Ok tt)
       else _ ← update_order_status e order_id Order.PaymentAuthorized Order.Disputed; pure (Ok tt));
  _ ← db (create_document "disputes"
        (VObject [("amountCents", of_i64 (cents dispute "amount")); ("chargeId", VString (text_of "charge" "" dispute));
                  ("createdAt", of_i64 (timestamp (he_now e 1))); ("createdAtIso", VString (to_rfc3339 (he_now e 1)));
                  ("currency", VString (text_of "currency" "cad" dispute)); ("disputeId", VString dispute_id);
                  ("orderId", VString order_id); ("paymentIntentId", VString payment_intent_id);
                  ("reason", VString (text_of "reason" "unknown" dispute)); ("status", VString "needs_response")])
        (he_fresh e 1) (he_clock e 2));
  pure (Ok tt).

(** [UPDATE disputes SET disputeStatus = .. WHERE disputeId = $dispute_id], then
    [UPDATE orders SET paymentStatus = 'disputed_lost' WHERE id = $order_id] if
    the dispute is lost; the errors are ignored. *)
Definition handle_charge_dispute_closed (e : hook_env) (event_data : Value) : handler unit :=
  dispute ← pure (event_object event_data);
  dispute_id ← pure (required "id" "No dispute ID" dispute);
  payment_intent_id ← pure (required "payment_intent" "No payment_intent in dispute" dispute);
  let lost := text_of "status" "unknown" dispute =s? "lost" in
  _ ← ignored (unknown_column "disputes" "disputeStatus");
  order ← find_order_by_payment_intent payment_intent_id;
  match order with
  | None => pure (Ok tt)
  | Some order =>
      if negb (str_empty (str_field order "id")) && lost then ignored (unknown_column "orders" "paymentStatus")
      else pure (Ok tt)
  end.
(** [UPDATE disputes SET stripeStatus = .. WHERE disputeId = $dispute_id]. *)
Definition handle_charge_dispute_updated (e : hook_env) (event_data : Value) : handler unit :=
  dispute ← pure (event_object event_data);
  dispute_id ← pure (required "id" "No dispute ID" dispute);
  ignored (unknown_column "disputes" "stripeStatus").
(** [UPDATE disputes SET fundsWithdrawn = true .. WHERE disputeId = $dispute_id]. *)
Definition handle_charge_dispute_funds_withdrawn (e : hook_env) (event_data : Value) : handler unit :=
  dispute ← pure (event_object event_data);
  dispute_id ← pure (required "id" "No dispute ID" dispute);
  ignored (unknown_column "disputes" "fundsWithdrawn").
(** [UPDATE disputes SET fundsReinstated = true ..], then [UPDATE orders SET
    paymentStatus = 'captured' WHERE id = $order_id AND paymentStatus =
    'disputed_lost']. *)
Definition handle_charge_dispute_funds_reinstated (e : hook_env) (event_data : Value) : handler unit :=
  dispute ← pure (event_object event_data);
  dispute_id ← pure (required "id" "No dispute ID" dispute);
  _ ← ignored (unknown_column "disputes" "fundsReinstated");
  for_order_of (text_of "payment_intent" "" dispute) (λ order_id,
    ignored (unknown_column "orders" "paymentStatus")).

(** ** Payouts *)

(** [format!("{}{}.{:02}", if currency == "cad" { "$" } else { "" },
    amount / 100, amount % 100)]. *)
Definition two_digits (z : Z) : string :=
  if (0 <=? z)%Z && (z <? 10)%Z then "0" +:+ pretty z else pretty z.
Definition money (currency : string) (amount : Z) : string :=
  (if currency =s? "cad" then "$" else "") +:+ pretty (amount `quot` 100)%Z +:+ "." +:+ two_digits (Z.rem amount 100).
Definition notify (e : hook_env) (user_id kind title body : string) : handler unit :=
  ignored (create_document "notifications"
    (VObject [("body", VString body); ("createdAt", of_i64 (timestamp (he_now e 1)));
              ("createdAtIso", VString (to_rfc3339 (he_now e 1))); ("read", VBool false);
              ("title", VString title); ("type", VString kind); ("userId", VString user_id)])
    (he_fresh e 1) (he_clock e 5)).

(** [UPDATE orders SET payoutStatus = 'initiated', payoutId = $payout_id WHERE
    stripeAccountId = $acct_id AND payoutId IS NULL] links the orders. *)
Definition handle_payout_created (e : hook_env) (event_data : Value) : handler unit :=
  payout ← pure (event_object event_data);
  payout_id ← pure (required "id" "No payout ID" payout);
  _ ← db (create_document "payouts"
        (VObject [("amountCents", of_i64 (cents payout "amount")); ("arrivalDate", of_i64 (cents payout "arrival_date"));
                  ("createdAt", of_i64 (timestamp (he_now e 1))); ("createdAtIso", VString (to_rfc3339 (he_now e 1)));
                  ("currency", VString (text_of "currency" "cad" payout)); ("payoutId", VString payout_id);
                  ("payoutMethod", VString (text_of "method" "standard" payout)); ("status", VString "initiated");
                  ("stripePayoutStatus", VString (text_of "status" "pending" payout))])
        (he_fresh e 1) (he_clock e 1));
  if str_empty (text_of "destination" "" payout) then pure (Ok tt)
  else ignored (unknown_column "orders" "payoutStatus").
(** [UPDATE payouts SET stripePayoutStatus = .. WHERE payoutId = $payout_id], then
    [UPDATE orders SET payoutStatus = $status WHERE payoutId = $payout_id]. *)
Definition handle_payout_updated (e : hook_env) (event_data : Value) : handler unit :=
  payout ← pure (event_object event_data);
  payout_id ← pure (required "id" "No payout ID" payout);
  _ ← ignored (unknown_column "payouts" "stripePayoutStatus");
  ignored (unknown_column "orders" "payoutStatus").

(** [SELECT * FROM seller_profiles WHERE stripeAccountId = $acct_id LIMIT 1],
    its error ignored. *)
Definition seller_of_account (destination : string) : handler string :=
  if str_empty destination then pure (Ok "")
  else sellers ← attempt (unknown_column "seller_profiles" "stripeAccountId");
       pure (Ok (match head (default [] sellers) with Some seller => str_field seller "sellerId" | None => "" end)).
(** [UPDATE payouts SET stripePayoutStatus = 'paid' ..] and [UPDATE orders SET
    payoutStatus = 'paid' ..], then the notification. *)
Definition handle_payout_paid (e : hook_env) (event_data : Value) : handler unit :=
  payout ← pure (event_object event_data);
  payout_id ← pure (required "id" "No payout ID" payout);
  _ ← ignored (unknown_column "payouts" "stripePayoutStatus");
  _ ← ignored (unknown_column "orders" "payoutStatus");
  seller_id ← seller_of_account (text_of "destination" "" payout);
  if str_empty seller_id then pure (Ok tt)
  else notify e seller_id "payout_paid" "Payout Complete"
         ("Your payout of " +:+ money (text_of "currency" "cad" payout) (cents payout "amount")
          +:+ " has been deposited to your bank account.").
(** [SELECT * FROM orders WHERE payoutId = $payout_id] is only counted in the log,
    [UPDATE payouts SET status = 'failed', failureCode = $code ..] marks the payout. *)
Definition handle_payout_failed (e : hook_env) (event_data : Value) : handler unit :=
  payout ← pure (event_object event_data);
  payout_id ← pure (required "id" "No payout ID" payout);
  _ ← ignored (unknown_column "orders" "payoutId");
  _ ← ignored (unknown_column "payouts" "failureCode");
  seller_id ← seller_of_account (text_of "destination" "" payout);
  if str_empty seller_id then pure (Ok tt)
  else notify e seller_id "payout_failed" "Payout Failed"
         ("Your payout of " +:+ money (text_of "currency" "cad" payout) (cents payout "amount")
          +:+ " has failed. Reason: " +:+ text_of "failure_message" "No details provided" payout
          +:+ ". Please update your bank details.").

(** ** Refunds *)

Definition refund_input (status : string) (reason : string) (failure_reason : option string)
    (refund_id : string) (refund : Value) : RefundRecordInput :=
  {| rf_refund_id := refund_id; rf_amount_cents := cents refund "amount";
     rf_currency := text_of "currency" "cad" refund; rf_status := status;
     rf_payment_intent_id := text_of "payment_intent" "" refund; rf_reason := reason;
     rf_failure_reason := failure_reason |}.
(** [UPDATE orders SET refundId = $refund_id WHERE id = $order_id] in between. *)
Definition handle_refund_created (e : hook_env) (event_data : Value) : handler unit :=
  refund ← pure (event_object event_data);
  refund_id ← pure (required "id" "No refund ID" refund);
  let status := text_of "status" "pending" refund in
  let payment_intent_id := text_of "payment_intent" "" refund in
  _ ← upsert_refund_record e (refund_input status (text_of "reason" "" refund) None refund_id refund);
  _ ← for_order_of payment_intent_id (λ order_id, ignored (unknown_column "orders" "refundId"));
  if status =s? "succeeded" then sync_order_refund_state_from_records e payment_intent_id (Some refund_id)
  else pure (Ok tt).
Definition handle_refund_updated (e : hook_env) (event_data : Value) : handler unit :=
  refund ← pure (event_object event_data);
  refund_id ← pure (required "id" "No refund ID" refund);
  let status := text_of "status" "unknown" refund in
  _ ← upsert_refund_record e (refund_input status (text_of "reason" "" refund) None refund_id refund);
  if status =s? "succeeded"
  then sync_order_refund_state_from_records e (text_of "payment_intent" "" refund) (Some refund_id)
  else pure (Ok tt).
Definition handle_refund_failed (e : hook_env) (event_data : Value) : handler unit :=
  refund ← pure (event_object event_data);
  refund_id ← pure (required "id" "No refund ID" refund);
  let failure_reason := text_of "failure_reason" "unknown" refund in
  let payment_intent_id := text_of "payment_intent" "" refund in
  _ ← upsert_refund_record e (refund_input "failed" "" (Some failure_reason) refund_id refund);
  _ ← mark_order_refund_failure e payment_intent_id failure_reason;
  if str_empty payment_intent_id then pure (Ok tt)
  else
    order ← find_order_by_payment_intent payment_intent_id;
    match order with
    | None => pure (Ok tt)
    | Some order =>
        let buyer_id := str_field order "buyerId" in
        if str_empty buyer_id then pure (Ok tt)
        else notify e buyer_id "refund_failed" "Refund Failed"
               ("Your refund of " +:+ money (text_of "currency" "cad" refund) (cents refund "amount")
                +:+ " could not be processed. Our team has been notified and will resolve this shortly.")
    end.

(** ** Accounts and invoices *)

(** [UPDATE seller_profiles SET chargesEnabled = $charges, .. WHERE id =
    $profile_id]. *)
Definition handle_account_updated (e : hook_env) (event_data : Value) : handler unit :=
  account ← pure (event_object event_data);
  account_id ← pure (required "id" "No account ID" account);
  profile ← select_first "seller_profiles"
              (λ _ row, bool_decide (field_text "stripeAccountId" (row_data row) = Some account_id));
  match profile with
  | None => pure (Ok tt)
  | Some profile =>
      if str_empty (str_field profile "id") then pure (Ok tt)
      else _ ← unknown_column "seller_profiles" "chargesEnabled"; pure (Ok tt)
  end.
Definition handle_invoice_payment_failed (e : hook_env) (event_data : Value) : handler unit :=
  let object := default event_data (get "object" event_data) in
  let customer_id := str_field object "customer" in
  let now := VString (to_rfc3339 (he_now e 1)) in
  if negb (str_empty (str_field object "subscription")) && negb (str_empty customer_id) then
    user ← select_first "users"
             (λ _ row, bool_decide (field_text "stripeCustomerId" (row_data row) = Some customer_id));
    match user with
    | None => pure (Ok tt)
    | Some user =>
        let user_id := str_field user "id" in
        if str_empty user_id then pure (Ok tt)
        else ignored (update_document "users" user_id
          (VObject [("subscriptionPaymentAttemptCount", of_i64 (cents object "attempt_count"));
                    ("subscriptionPaymentFailed", VBool true); ("subscriptionPaymentFailedAt", now);
                    ("updatedAt", now)]) (he_clock e 1))
    end
  else pure (Ok tt).

(** ** The endpoint *)

Definition on_subscription (event_type : string) (e : hook_env) : Value → handler unit :=
  route_subscription_webhook scan injected_users
    {| se_now := he_now e 1; se_clock := λ k, he_clock e (S k) |} event_type.
Definition routes : list (string * (hook_env → Value → handler unit)) :=
  [("payment_intent.succeeded", handle_payment_intent_succeeded);
   ("payment_intent.payment_failed", handle_payment_intent_failed);
   ("payment_intent.canceled", handle_payment_intent_canceled);
   ("charge.succeeded", λ _, logged); ("charge.failed", λ _, logged);
   ("charge.refunded", handle_charge_refunded);
   ("customer.created", λ _, logged); ("customer.updated", λ _, logged); ("customer.deleted", λ _, logged);
   ("payment_method.attached", λ _, logged); ("payment_method.detached", λ _, logged);
   ("invoice.paid", λ _, logged); ("invoice.payment_failed", handle_invoice_payment_failed);
   ("customer.subscription.created", on_subscription "customer.subscription.created");
   ("customer.subscription.updated", on_subscription "customer.subscription.updated");
   ("customer.subscription.deleted", on_subscription "customer.subscription.deleted");
   ("checkout.session.completed", handle_checkout_session_completed);
   ("checkout.session.expired", handle_checkout_session_expired);
   ("checkout.session.async_payment_succeeded", handle_checkout_session_async_payment_succeeded);
   ("checkout.session.async_payment_failed", handle_checkout_session_async_payment_failed);
   ("charge.captured", handle_charge_captured);
   ("charge.dispute.created", handle_charge_dispute_created);
   ("charge.dispute.closed", handle_charge_dispute_closed);
   ("charge.dispute.updated", handle_charge_dispute_updated);
   ("charge.dispute.funds_withdrawn", handle_charge_dispute_funds_withdrawn);
   ("charge.dispute.funds_reinstated", handle_charge_dispute_funds_reinstated);
   ("payout.created", handle_payout_created); ("payout.updated", handle_payout_updated);
   ("payout.paid", handle_payout_paid); ("payout.failed", handle_payout_failed);
   ("refund.created", handle_refund_created); ("refund.updated", handle_refund_updated);
   ("refund.failed", handle_refund_failed); ("account.updated", handle_account_updated)].
Definition route (event_type : string) : hook_env → Value → handler unit :=
  match list_find (λ r, r.1 = event_type) routes with
  | Some (_, (_, h)) => h
  | None => λ _, logged
  end.

(** The event of a request that is signed, or the refusal. *)
Definition receive (e : hook_env) (request : webhook_request) : Result StripeWebhookEvent :=
  let signature := default "" (wr_signature request) in
  body ← map_err (λ err, Internal ("Failed to read body: " +:+ err)) (wr_body request);
  secret ← ok_or (Forbidden "Webhook processing unavailable") (he_secret e);
  if str_empty signature then Err (Auth "Missing webhook signature")
  else if negb (verify_stripe_signature (he_secs e) body signature secret) then Err (Auth "Invalid webhook signature")
  else map_err (λ err, Validation ("Invalid webhook JSON: " +:+ err)) (parse_event body).

(** The answer: whether the event was a duplicate, and its id. *)
Record hook_answer : Type := { ha_duplicate : bool; ha_event_id : string }.
Definition handle_stripe_webhook (e : hook_env) (request : webhook_request) : handler hook_answer :=
  event ← pure (receive e request);
  stored ← try_store_webhook_event_atomic e event;
  if negb stored then pure (Ok {| ha_duplicate := true; ha_event_id := we_id event |})
  else λ s,
    match route (we_type event) e (we_data event) s with
    | (s, Ok _) => (s, Ok {| ha_duplicate := false; ha_event_id := we_id event |})
    | (s, Err err) => (_ ← ignored (delete_document "webhook_events" (we_id event)); pure (Err err)) s
    | (s, Panic) => (s, Panic)
    end.
End handlers.

(** ** What the statements leave alone *)
Section statements.
Context `{C : Chrono} `{P : PgJson} `{T : TextLib}.
Context (scan : rows → list (string * DocRow)).
Context (pg_undefined_column : string → string) (pg_no_object : string).

Lemma keeps_select_first c table p : keeps c (select_first scan table p).
Proof. intros s. apply keeps_ensure_first. Qed.
Lemma keeps_unknown c table column : keeps c (unknown_column pg_undefined_column table column).
Proof. intros s. apply keeps_ensure_first. Qed.
Lemma keeps_update_where c table p fields now : table ≠ c → keeps c (update_where pg_no_object table p fields now).
Proof.
  intros Hne s. unfold update_where. cbv zeta. destruct (forallb _ _); cbn [fst]; [|apply keeps_ensure_first].
  rewrite table_rows_insert_ne by done. apply keeps_ensure_first.
Qed.
Lemma keeps_delete_where c table p : table ≠ c → keeps c (delete_where table p).
Proof. intros Hne s. unfold delete_where. cbn [fst]. rewrite table_rows_insert_ne by done. apply keeps_ensure_first. Qed.

Lemma keeps_restore_stock c err clock stamp pid qty attempts :
  c ≠ "products" → keeps c (restore_stock err clock stamp pid qty attempts).
Proof.
  intros Hc s. destruct (restock_frame err clock stamp pid qty attempts s) as (s' & b & -> & Ho & _). by apply Ho.
Qed.
Lemma keeps_restore_items c skip clock stamp i items : c ≠ "products" → keeps c (restore_each skip clock stamp i items).
Proof.
  intros Hc. revert i. induction items as [|item items IH]; intros i; [apply keeps_pure|]. cbn [restore_each].
  apply keeps_bind; [|intros; apply IH]. destruct (_ || _); [apply keeps_pure|].
  apply keeps_bind; [by apply keeps_restore_stock|intros; apply keeps_pure].
Qed.
Lemma keeps_restore_order c e order : c ≠ "products" → keeps c (restore_stock_for_order e order).
Proof. intros Hc. apply keeps_bind; [apply keeps_pure|intros; by apply keeps_restore_items]. Qed.

(** What a statement finds and what it changes. *)
Lemma select_first_found (scan_rows : ∀ rs, scan rs ≡ₚ map_to_list rs) table p s s' doc :
  select_first scan table p s = (s', Ok (Some doc)) →
  ∃ id row, table_rows s table !! id = Some row ∧ p id row = true ∧ doc = row_to_doc id row.
Proof.
  unfold select_first. cbv zeta. rewrite keeps_ensure_first. intros [= _ H].
  destruct (filter _ _) as [|[id row] l] eqn:E; [done|]. injection H as <-. exists id, row.
  assert ((id, row) ∈ filter (λ kr : string * DocRow, p kr.1 kr.2 = true) (scan (table_rows s table))) as Hin
    by (rewrite E; left).
  apply list_elem_of_filter in Hin as [Hp Hin]. split; [|done]. rewrite scan_rows in Hin. by apply elem_of_map_to_list.
Qed.

Lemma update_where_rows table p fields now s id :
  table_rows (update_where pg_no_object table p fields now s).1 table !! id
  = match table_rows s table !! id with
    | Some row => Some (if p id row && is_ok (update_where pg_no_object table p fields now s).2
                        then merged_row (VObject fields) now row else row)
    | None => None
    end.
Proof.
  unfold update_where. cbv zeta. rewrite keeps_ensure_first. destruct (forallb _ _); cbn [fst snd is_ok].
  - rewrite table_rows_insert, map_lookup_imap. destruct (table_rows s table !! id) as [row|]; [|done].
    by rewrite andb_true_r.
  - rewrite keeps_ensure_first. destruct (table_rows s table !! id); [|done]. by rewrite andb_false_r.
Qed.

Lemma update_where_object table p fields now s id row :
  table_rows s table !! id = Some row → p id row = true →
  is_ok (update_where pg_no_object table p fields now s).2 = true → ∃ m, row_data row = VObject m.
Proof.
  unfold update_where. cbv zeta. rewrite keeps_ensure_first. intros Hrow Hp.
  destruct (forallb _ _) eqn:E; [|done]. intros _. rewrite forallb_forall in E.
  assert (In (id, row) (map_to_list (filter (λ kr : string * DocRow, p kr.1 kr.2 = true) (table_rows s table)))) as Hin.
  { apply list_elem_of_In, elem_of_map_to_list, map_lookup_filter_Some. done. }
  specialize (E _ Hin). cbn in E. destruct (row_data row); try done. eauto.
Qed.

Lemma keeps_subscription_event c event_type e data injected_users :
  c ∉ ["users"; "subscriptions"; "notifications"] → keeps c (on_subscription scan injected_users event_type e data).
Proof. apply keeps_subscription. Qed.
End statements.

(** Goals that a table is left alone, by the last statements. *)
Ltac other_table := solve [assumption | done | let E := fresh in intros E; discriminate E].
Ltac keep_step :=
  lazymatch goal with
  | |- keeps _ (match _ with _ => _ end) => case_match
  | |- keeps _ (pure _) => apply keeps_pure
  | |- keeps _ (restore_stock_for_order _ _) => apply keeps_restore_order; other_table
  | |- keeps _ (update_where _ _ _ _ _) => apply keeps_update_where; other_table
  | |- keeps _ (delete_where _ _) => apply keeps_delete_where; other_table
  | |- keeps _ (select_first _ _ _) => apply keeps_select_first
  | |- keeps _ (select_where _ _ _) => apply keeps_select
  | |- keeps _ (unknown_column _ _ _) => apply keeps_unknown
  | |- keeps _ (get_document _ _) => apply keeps_get
  | |- keeps _ (create_document _ _ _ _) => apply keeps_create; other_table
  | |- keeps _ (update_document _ _ _ _) => apply keeps_update; other_table
  | |- keeps _ (upsert_document _ _ _ _) => apply keeps_upsert; other_table
  | |- keeps _ (on_subscription _ _ _ _ _) => apply keeps_subscription_event; concrete
  | |- keeps _ (ignored _) => apply keeps_ignored
  | |- keeps _ (attempt _) => apply keeps_attempt
  | |- keeps _ (db _) => unfold db
  | |- keeps _ (_ ≫= _) => apply keeps_bind; [|intros ?]
  end.
Ltac keeping := repeat (cbv beta zeta; keep_step).
Ltac unfold_handlers :=
  cbv delta [handle_payment_intent_succeeded handle_payment_intent_failed handle_payment_intent_canceled
    handle_checkout_session_completed handle_checkout_session_expired handle_checkout_session_async_payment_succeeded
    handle_checkout_session_async_payment_failed handle_charge_refunded handle_charge_captured
    handle_charge_dispute_created handle_charge_dispute_closed handle_charge_dispute_updated
    handle_charge_dispute_funds_withdrawn handle_charge_dispute_funds_reinstated handle_payout_created
    handle_payout_updated handle_payout_paid handle_payout_failed handle_refund_created handle_refund_updated
    handle_refund_failed handle_account_updated handle_invoice_payment_failed logged
    authorise abandon found_order find_order_by_metadata_id find_order_by_payment_intent for_order_of mark_coupon_redeemed
    release_coupon_reservation clear_cart upsert_refund_record sync_order_refund_state_from_records
    seller_of_account notify db]; cbv beta zeta.

(** ** What events do to orders *)

(** The changes of a status that an event may make. *)
Definition hook_edge (a b : string) : Prop :=
  a = "pending" ∧ b ∈ ["confirmed"; "cancelled"; "expired"; "failed"]
  ∨ a = "confirmed" ∧ b = "disputed"
  ∨ b ∈ ["refunded"; "partially_refunded"].

Section evolution.
Context `{C : Chrono} `{P : PgJson} `{T : TextLib} `{K : Crypto} `{H : HexLib}.
Context (scan : rows → list (string * DocRow)) (scan_rows : ∀ rs, scan rs ≡ₚ map_to_list rs).
Context (injected_users : string → store → string * Result (list Value)).
Context (pg_undefined_column : string → string) (pg_no_object : string).
Context (parse_event : string → outcome string StripeWebhookEvent).

(** The status, as the statements compare it. *)
Definition status_text (row : DocRow) : string := default "" (field_text "orderStatus" (row_data row)).
(** The fields an event writes to an order. *)
Inductive hook_fields (row : DocRow) : list (string * Value) → Prop :=
| status_fields b now : hook_edge (status_text row) b →
    hook_fields row [("orderStatus", VString b); ("updatedAt", VString now)]
| session_fields e pi session_id : hook_fields row (session_doc e pi session_id)
| refund_fields now refunded refund_id : (refunded ≤ cents (row_data row) "totalAmountCents")%Z →
    hook_fields row (refund_state now (is_full_refund refunded (cents (row_data row) "totalAmountCents"))
                       refunded refund_id)
| failure_fields reason now :
    hook_fields row [("refundFailureReason", VString reason); ("requiresManualReview", VBool true);
                     ("updatedAt", VString now)].
Definition hook_write (row row' : DocRow) : Prop :=
  ∃ fields now m, row_data row = VObject m ∧ hook_fields row fields ∧ row' = merged_row (VObject fields) now row.

(** The orders stay, each changed by such writes. *)
Definition evolves (s s' : store) : Prop :=
  ∀ id, option_Forall2 (rtc hook_write) (orders_of s !! id) (orders_of s' !! id).
(** No order is stored under an id with the prefix that lookups strip. *)
Definition plain_orders (s : store) : Prop :=
  ∀ id, is_Some (orders_of s !! id) → bare_id "orders" id = id.
Definition evolving {A} (m : handler A) : Prop := ∀ s, plain_orders s → evolves s (m s).1.

Global Instance evolves_preorder : PreOrder evolves.
Proof.
  split.
  - intros s id. destruct (orders_of s !! id); by constructor.
  - intros s1 s2 s3 H1 H2 id. specialize (H1 id). specialize (H2 id).
    destruct (orders_of s1 !! id), (orders_of s2 !! id), (orders_of s3 !! id); inversion H1; inversion H2;
      constructor; by etrans.
Qed.
Lemma evolves_plain s s' : evolves s s' → plain_orders s → plain_orders s'.
Proof. intros H1 Hp id [row Hrow]. apply Hp. specialize (H1 id). rewrite Hrow in H1. inversion H1. eauto. Qed.

Lemma evolving_bind {A B} (m : handler A) (k : A → handler B) :
  evolving m → (∀ a, evolving (k a)) → evolving (m ≫= k).
Proof.
  intros Hm Hk s Hs. specialize (Hm s Hs). unfold mbind, handler_bind.
  destruct (m s) as [s' [a|err|]]; cbn [fst] in *; [|done..]. etrans; [done|]. apply Hk. by eapply evolves_plain.
Qed.
Lemma evolving_keeps {A} (m : handler A) : keeps "orders" m → evolving m.
Proof.
  intros Ho s _ id. unfold orders_of. rewrite (Ho s).
  destruct (table_rows s "orders" !! id); by constructor.
Qed.
Lemma evolving_pure {A} (r : Result A) : evolving (pure r).
Proof. by apply evolving_keeps. Qed.
Lemma evolving_ignored {A} (op : handler A) : evolving op → evolving (ignored op).
Proof. intros Hop s Hs. specialize (Hop s Hs). unfold ignored. by destruct (op s) as [s' [a|err|]]. Qed.

(** An update of one order that evolves it. *)
Lemma evolves_rows s s' :
  (∀ id, orders_of s !! id = None → orders_of s' !! id = None) →
  (∀ id row, orders_of s !! id = Some row → ∃ row', orders_of s' !! id = Some row' ∧ rtc hook_write row row') →
  evolves s s'.
Proof.
  intros Hn Hs id. destruct (orders_of s !! id) as [row|] eqn:E.
  - destruct (Hs id row E) as (row' & -> & Hw). by constructor.
  - rewrite (Hn id E). constructor.
Qed.

Lemma evolving_update_where p fields now :
  (∀ id row m, p id row = true → row_data row = VObject m → hook_fields row fields) →
  evolving (update_where pg_no_object "orders" p fields now).
Proof.
  intros Hf s _. apply evolves_rows.
  - intros id Hn. unfold orders_of in *. by rewrite update_where_rows, Hn.
  - intros id row Hrow. unfold orders_of in *. rewrite update_where_rows, Hrow. eexists. split; [done|].
    destruct (p id row) eqn:Hp; [|by constructor]. destruct (is_ok _) eqn:Hok; [|by constructor].
    destruct (update_where_object _ _ _ _ _ _ _ _ Hrow Hp Hok) as [m Hm]. apply rtc_once.
    exists fields, now, m. split_and!; [done|by eapply Hf|done].
Qed.

Lemma evolving_status e order_id a b :
  hook_edge (order_status_str a) (order_status_str b) → evolving (update_order_status pg_no_object e order_id a b).
Proof.
  intros Hedge. apply evolving_bind; [|intros; apply evolving_pure]. apply evolving_update_where.
  intros id row m Hp Hm. bools. constructor. unfold status_text. by rewrite H1.
Qed.

Lemma evolving_session e order_id pi session_id now :
  evolving (update_where pg_no_object "orders" (λ id _, id =s? order_id) (session_doc e pi session_id) now).
Proof. apply evolving_update_where. intros. constructor. Qed.

(** The order of a payment intent: stored under its id, an object. *)
Lemma intent_order s s' payment_intent_id doc :
  find_order_by_payment_intent scan payment_intent_id s = (s', Ok (Some doc)) → plain_orders s →
  ∃ id row m, orders_of s !! id = Some row ∧ row_data row = VObject m ∧ doc = row_to_doc id row ∧ bare_id "orders" id = id.
Proof.
  intros Hf Hp. apply (select_first_found _ scan_rows) in Hf as (id & row & Hrow & Hpi & ->). bools.
  assert (∃ m, row_data row = VObject m) as [m Hm].
  { unfold field_text in Hpi. destruct (get "paymentIntentId" (row_data row)) as [v|] eqn:E; [|done].
    by apply object_of_get in E. }
  exists id, row, m. split_and!; try done. apply Hp. by eexists.
Qed.

Lemma evolves_update s0 s id row m fields now :
  plain_orders s0 → evolves s0 s → orders_of s !! id = Some row → row_data row = VObject m → hook_fields row fields →
  evolves s0 (update_document "orders" id (VObject fields) now s).1.
Proof.
  intros Hp He Hrow Hm Hf. etrans; [exact He|].
  assert (bare_id "orders" id = id) as Hid by (eapply (evolves_plain s0); eauto).
  pose proof (update_rows "orders" id (VObject fields) now s) as Hu. unfold orders_of in *. rewrite Hid, Hrow in Hu.
  change (is_ok (validate_identifier "orders")) with true in Hu. cbn iota in Hu.
  apply evolves_rows; unfold orders_of.
  - intros id' Hn. rewrite Hu. rewrite lookup_insert_ne; [done|]. intros ->. congruence.
  - intros id' row' Hrow'. rewrite Hu. destruct (decide (id = id')) as [<-|Hne].
    + rewrite lookup_insert_eq. eexists. split; [done|]. apply rtc_once. rewrite Hrow in Hrow'. injection Hrow' as <-.
      exists fields, now, m. done.
    + rewrite lookup_insert_ne by done. eexists. split; [done|constructor].
Qed.

Lemma evolving_find {A} payment_intent_id (k : option Value → handler A) :
  evolving (k None) →
  (∀ s id row m, plain_orders s → orders_of s !! id = Some row → row_data row = VObject m →
     bare_id "orders" id = id → evolves s (k (Some (row_to_doc id row)) s).1) →
  evolving (find_order_by_payment_intent scan payment_intent_id ≫= k).
Proof.
  intros Hn Hk s Hs. unfold mbind, handler_bind.
  destruct (find_order_by_payment_intent scan payment_intent_id s) as [s1 [doc|err|]] eqn:Hf;
    pose proof (evolving_keeps _ (keeps_select_first scan "orders" "orders" _) s Hs
      : evolves s (find_order_by_payment_intent scan payment_intent_id s).1) as He; rewrite Hf in He; cbn [fst] in He; [|done..].
  destruct doc as [doc|]; [|etrans; [exact He|]; by apply Hn, (evolves_plain s)].
  pose proof (keeps_select_first scan "orders" "orders" _ s : table_rows (find_order_by_payment_intent scan payment_intent_id s).1 "orders" = _) as Ho.
  rewrite Hf in Ho. cbn [fst] in Ho.
  destruct (intent_order _ _ _ _ Hf Hs) as (id & row & m & Hrow & Hm & -> & Hid). etrans; [exact He|].
  eapply Hk; eauto; [by apply (evolves_plain s)|]. unfold orders_of in *. by rewrite Ho.
Qed.

Lemma doc_id id row m : row_data row = VObject m → get "id" (row_to_doc id row) = Some (VString id).
Proof. intros Hm. apply row_to_doc_id. rewrite Hm. by eexists. Qed.
Lemma doc_cents id row k : ¬ is_metadata k → cents (row_to_doc id row) k = cents (row_data row) k.
Proof. intros Hk. unfold cents, i64_field. by rewrite get_row_to_doc. Qed.

Lemma evolving_sync e payment_intent_id refund_id refunded :
  evolving (sync_order_refund_state scan e payment_intent_id refund_id refunded).
Proof.
  unfold sync_order_refund_state. destruct (str_empty payment_intent_id); [apply evolving_pure|].
  apply evolving_find; [apply evolving_pure|]. intros s id row m Hs Hrow Hm Hid.
  unfold mbind at 1, handler_bind at 1, pure at 1. rewrite (doc_id id row m Hm). cbn [mbind option_bind as_str ok_or].
  rewrite doc_cents by concrete.
  destruct (Z.ltb_spec (cents (row_data row) "totalAmountCents") refunded) as [_|Hle]; [done|].
  unfold mbind at 1, handler_bind at 1, pure at 1.
  set (full := is_full_refund _ _). set (m1 := if full && _ then _ else _).
  assert (keeps "orders" m1) as Ko.
  { subst m1. destruct (full && _); [|done]. by apply keeps_restore_order. }
  pose proof (evolving_keeps m1 Ko s Hs) as He. specialize (Ko s).
  unfold mbind at 1, handler_bind at 1. destruct (m1 s) as [s1 [[]|err|]]; cbn [fst] in *; [|done..].
  rewrite bind_pure_state. eapply evolves_update; [exact Hs|exact He|unfold orders_of; rewrite Ko; exact Hrow|exact Hm|].
  by constructor.
Qed.

Lemma evolving_failure e payment_intent_id reason :
  evolving (mark_order_refund_failure scan e payment_intent_id reason).
Proof.
  unfold mark_order_refund_failure. destruct (str_empty payment_intent_id); [apply evolving_pure|].
  apply evolving_find; [apply evolving_pure|]. intros s id row m Hs Hrow Hm Hid. cbv zeta.
  unfold str_field. rewrite (doc_id id row m Hm). cbn [mbind option_bind as_str default from_option].
  destruct (str_empty _); [done|]. rewrite bind_pure_state. eapply evolves_update; eauto; [done|]. constructor.
Qed.

(** The statements on other tables. *)
Lemma evolving_attempt {A} (op : handler A) : evolving op → evolving (attempt op).
Proof. intros Hop s Hs. specialize (Hop s Hs). unfold attempt. by destruct (op s) as [s' [a|err|]]. Qed.

Ltac evolve_step :=
  lazymatch goal with
  | |- evolving (match _ with _ => _ end) => case_match
  | |- evolving (pure _) => apply evolving_pure
  | |- evolving (sync_order_refund_state _ _ _ _ _) => apply evolving_sync
  | |- evolving (mark_order_refund_failure _ _ _ _) => apply evolving_failure
  | |- evolving (update_order_status _ _ _ _ _) => apply evolving_status; unfold hook_edge; concrete
  | |- evolving (update_where _ "orders" _ _ _) => apply evolving_session
  | |- evolving (ignored _) => apply evolving_ignored
  | |- evolving (attempt _) => apply evolving_attempt
  | |- evolving (_ ≫= _) => apply evolving_bind; [|intros ?]
  | |- evolving _ => apply evolving_keeps; keeping
  end.
Ltac evolve := repeat (cbv beta zeta; evolve_step).

Abbreviation routed := (route scan injected_users pg_undefined_column pg_no_object).
Lemma evolving_routes : Forall (λ r, ∀ e data, evolving (r.2 e data))
  (routes scan injected_users pg_undefined_column pg_no_object).
Proof.
  unfold routes. repeat (apply Forall_cons; split; [cbn [snd]; intros e data|]); [..|by constructor].
  all: unfold_handlers; evolve.
Qed.
(** No handler touches the records of the events. *)
Lemma kept_routes : Forall (λ r, ∀ e data, keeps "webhook_events" (r.2 e data))
  (routes scan injected_users pg_undefined_column pg_no_object).
Proof.
  unfold routes. repeat (apply Forall_cons; split; [cbn [snd]; intros e data|]); [..|by constructor].
  all: unfold_handlers; cbv delta [update_order_status sync_order_refund_state mark_order_refund_failure
    find_order_by_payment_intent db]; keeping.
Qed.
Lemma route_in event_type (Φ : (hook_env → Value → handler unit) → Prop) :
  Φ (λ _, logged) → Forall (λ r, Φ r.2) (routes scan injected_users pg_undefined_column pg_no_object) → Φ (routed event_type).
Proof.
  intros Hlog Hall. unfold route. destruct (list_find _ _) as [[i [t h]]|] eqn:E; [|done].
  apply list_find_Some in E as (E & _ & _). apply list_elem_of_lookup_2 in E.
  exact (proj1 (Forall_forall _ _) Hall _ E).
Qed.
Lemma evolving_route event_type e data : evolving (routed event_type e data).
Proof.
  apply (route_in event_type (λ h, ∀ e data, evolving (h e data))); [intros; apply evolving_pure|apply evolving_routes].
Qed.
Lemma kept_route event_type e data : keeps "webhook_events" (routed event_type e data).
Proof.
  apply (route_in event_type (λ h, ∀ e data, keeps "webhook_events" (h e data))); [done|apply kept_routes].
Qed.
End evolution.

(** ** Deliveries *)
Section deliveries.
Context `{C : Chrono} `{P : PgJson} `{T : TextLib} `{K : Crypto} `{H : HexLib}.
Context (scan : rows → list (string * DocRow)).
Context (injected_users : string → store → string * Result (list Value)).
Context (pg_undefined_column : string → string) (pg_no_object : string).
Context (parse_event : string → outcome string StripeWebhookEvent).
Abbreviation routed := (route scan injected_users pg_undefined_column pg_no_object).
Abbreviation handle_hook := (handle_stripe_webhook scan injected_users pg_undefined_column pg_no_object parse_event).
Abbreviation events_of s := (table_rows s "webhook_events").

Definition valid_event_id (id : string) : bool := negb (str_empty id) && (String.length id <=? 512)%nat.

(** The record of an event is stored once. *)
Lemma store_event e event s :
  try_store_webhook_event_atomic e event s
  = if valid_event_id (we_id event) then
      match events_of s !! we_id event with
      | Some _ => (ensured "webhook_events" s, Ok false)
      | None => (<["webhook_events" := <[we_id event :=
                    {| row_data := event_record (he_stored e) event; row_created_at := he_clock e 0;
                       row_updated_at := he_clock e 0 |}]> (events_of s)]> (ensured "webhook_events" s), Ok true)
      end
    else (s, Err invalid_event_id).
Proof.
  unfold try_store_webhook_event_atomic, valid_event_id. rewrite <- (negb_involutive (str_empty _ || _)), negb_orb.
  rewrite <- Nat.leb_antisym.
  destruct (negb (str_empty (we_id event)) && _); [|done]. cbn [negb].
  unfold create_document. rewrite with_table_valid by done. cbv beta zeta.
  change (document_id (event_record _ event) _) with (we_id event). rewrite table_rows_ensured.
  by destruct (events_of s !! we_id event).
Qed.

Lemma store_event_keeps c e event : c ≠ "webhook_events" → keeps c (try_store_webhook_event_atomic e event).
Proof.
  intros Hc s. rewrite store_event. destruct (valid_event_id _); [|done].
  destruct (events_of s !! we_id event); cbn [fst]; [apply table_rows_ensured|].
  rewrite table_rows_insert_ne by done. apply table_rows_ensured.
Qed.

(** What becomes of a delivery. *)
Inductive delivered (e : hook_env) (event : StripeWebhookEvent) (s s' : store) : Result hook_answer → Prop :=
| invalid_id : s' = s → delivered e event s s' (Err invalid_event_id)
| duplicate row : events_of s !! we_id event = Some row → s' = ensured "webhook_events" s →
    delivered e event s s' (Ok {| ha_duplicate := true; ha_event_id := we_id event |})
| handled s1 : events_of s !! we_id event = None → try_store_webhook_event_atomic e event s = (s1, Ok true) →
    routed (we_type event) e (we_data event) s1 = (s', Ok tt) →
    delivered e event s s' (Ok {| ha_duplicate := false; ha_event_id := we_id event |})
| failed s1 s2 err : events_of s !! we_id event = None → try_store_webhook_event_atomic e event s = (s1, Ok true) →
    routed (we_type event) e (we_data event) s1 = (s2, Err err) →
    s' = (delete_document "webhook_events" (we_id event) s2).1 → delivered e event s s' (Err err)
| panicked s1 : events_of s !! we_id event = None → try_store_webhook_event_atomic e event s = (s1, Ok true) →
    routed (we_type event) e (we_data event) s1 = (s', Panic) → delivered e event s s' Panic.

Lemma delivery_cases e request s s' r :
  handle_hook e request s = (s', r) →
  s' = s ∧ (∀ event, receive parse_event e request ≠ Ok event) ∧ (∀ a, r ≠ Ok a)
  ∨ ∃ event, receive parse_event e request = Ok event ∧ delivered e event s s' r.
Proof.
  unfold handle_stripe_webhook. destruct (receive parse_event e request) as [event|err|];
    [|intros [= <- <-]; left; split_and!; congruence..].
  right. exists event. split; [done|]. revert H0. unfold mbind, handler_bind, pure at 1. rewrite store_event.
  pose proof (store_event e event s) as Hst. destruct (valid_event_id (we_id event)); [|intros [= <- <-]; by constructor].
  destruct (events_of s !! we_id event) eqn:Hev; cbn [negb]; [intros [= <- <-]; by econstructor|].
  destruct (routed _ _ _ _) as [s2 [[]|err|]] eqn:Hr; [intros [= <- <-]; by econstructor| |intros [= <- <-]; by econstructor].
  unfold ignored, pure. intros Hd.
  assert ((delete_document "webhook_events" (we_id event) s2).2 ≠ Panic) as Hp.
  { unfold delete_document. rewrite with_table_valid by done. cbv beta zeta. by destruct (table_rows _ _ !! bare_id _ _). }
  destruct (delete_document "webhook_events" (we_id event) s2) as [s3 [v|err2|]] eqn:Hdel; [..|done];
    injection Hd as <- <-; eapply failed; eauto; by rewrite Hdel.
Qed.

(** The request was signed with the secret, about the time it was received; the
    second time is the one whose distance is not representable. *)
Definition authentic (now : Z) (body header secret : string) : Prop :=
  ∃ t sig ts, signature_parts header !! "t" = Some t ∧ signature_parts header !! "v1" = Some sig
    ∧ parse_i64 t = Some ts ∧ (Z.abs (now - ts) ≤ 300 ∨ ts = now - 2 ^ 63)%Z
    ∧ hex_decode sig = Some (hmac_sha256 secret (t +:+ "." +:+ body)).

Lemma not_too_old now ts :
  (0 ≤ now < 2 ^ 62)%Z → (- 2 ^ 63 ≤ ts ≤ i64_max)%Z → too_old now ts = false →
  (Z.abs (now - ts) ≤ 300 ∨ ts = now - 2 ^ 63)%Z.
Proof.
  unfold too_old, i64_abs, i64_sub, i64_max. intros Hn Ht Ho. apply Z.ltb_ge in Ho.
  destruct (decide (now - ts < 2 ^ 63)%Z) as [Hd|Hd].
  - left. rewrite (wrap_signed_id 64 (now - ts)), wrap_signed_id in Ho; lia.
  - assert (wrap_signed 64 (now - ts) = now - ts - 2 ^ 64)%Z as Hw.
    { unfold wrap_signed. rewrite <- (Z.mod_unique_pos _ (2 ^ 64) 1 (now - ts - 2 ^ 63)); lia. }
    rewrite Hw in Ho. destruct (decide (now - ts = 2 ^ 63)%Z) as [He|He]; [right; lia|].
    rewrite wrap_signed_id in Ho; lia.
Qed.

Lemma verify_authentic now body header secret :
  (0 ≤ now < 2 ^ 62)%Z → verify_stripe_signature now body header secret = true → authentic now body header secret.
Proof.
  intros Hn. unfold verify_stripe_signature. cbv zeta.
  destruct (signature_parts header !! "t") as [t|] eqn:Et; [|done].
  destruct (signature_parts header !! "v1") as [sig|] eqn:Es; cbn [default from_option id]; [|by rewrite orb_true_r].
  destruct (_ || _); [done|]. destruct (parse_i64 t) as [ts|] eqn:Ep; [|done].
  destruct (too_old now ts) eqn:Eo; [done|]. destruct (hex_decode sig) as [bytes|] eqn:Eh; [|done].
  intros Hb. bools. subst bytes. exists t, sig, ts. split_and!; try done. apply not_too_old; [done| |done].
  by eapply parse_i64_range.
Qed.

Lemma receive_inv e request event :
  receive parse_event e request = Ok event →
  ∃ secret body header, he_secret e = Some secret ∧ wr_body request = Ok body ∧ wr_signature request = Some header
    ∧ verify_stripe_signature (he_secs e) body header secret = true ∧ parse_event body = Ok event.
Proof.
  unfold receive. destruct (wr_body request) as [body|err|]; [|done..]. cbn [map_err mbind outcome_bind].
  destruct (he_secret e) as [secret|]; [|done]. cbn [ok_or mbind outcome_bind].
  destruct (wr_signature request) as [header|]; [|done]. cbn [default from_option id].
  destruct (str_empty header); [done|]. destruct (verify_stripe_signature _ _ _ _) eqn:Hv; [|done].
  cbn [negb]. intros Hp. exists secret, body, header. split_and!; try done.
  revert Hp. destruct (parse_event body); cbn; congruence.
Qed.

(** C17: a delivery that is answered, or that changes anything stored, carries a
    signature made with the webhook's secret over its timestamp and its body, and
    that timestamp is at most 300 seconds from the server's clock (or the one
    instant whose distance overflows). *)
Theorem webhook_authentic e request s s' r :
  (0 ≤ he_secs e < 2 ^ 62)%Z → handle_hook e request s = (s', r) → (∃ a, r = Ok a) ∨ s' ≠ s →
  ∃ secret body header, he_secret e = Some secret ∧ wr_body request = Ok body ∧ wr_signature request = Some header
    ∧ authentic (he_secs e) body header secret.
Proof.
  intros Hn Hh Hr. apply delivery_cases in Hh as [(-> & _ & Ha)|(event & Hrec & _)].
  - destruct Hr as [[a ->]|]; [by destruct (Ha a)|done].
  - apply receive_inv in Hrec as (secret & body & header & ? & ? & ? & Hv & _). exists secret, body, header.
    split_and!; try done. by apply verify_authentic.
Qed.

(** *** Each event once *)

(** The ids of events do not start with the name of the collection. *)
Definition plain_event (event : StripeWebhookEvent) : Prop := bare_id "webhook_events" (we_id event) = we_id event.

Lemma delete_rows c id s : is_ok (validate_identifier c) = true →
  table_rows (delete_document c id s).1 c = delete (bare_id c id) (table_rows s c).
Proof.
  intros Hv. unfold delete_document. rewrite with_table_valid by done. cbv beta zeta. rewrite table_rows_ensured.
  destruct (table_rows s c !! bare_id c id) eqn:E; cbn [fst]; [by rewrite table_rows_insert|].
  rewrite table_rows_ensured. by rewrite delete_id.
Qed.

Lemma stored_events e event s s1 :
  events_of s !! we_id event = None → try_store_webhook_event_atomic e event s = (s1, Ok true) →
  ∃ row, events_of s1 = <[we_id event := row]> (events_of s).
Proof.
  intros Hn. rewrite store_event, Hn. destruct (valid_event_id _); [|done]. intros [= <-].
  eexists. by rewrite table_rows_insert.
Qed.

Lemma delivered_events e event s s' r :
  plain_event event → delivered e event s s' r →
  (∃ row, events_of s' = <[we_id event := row]> (events_of s)
     ∧ (events_of s !! we_id event = None ∧ (∀ err, r ≠ Err err)
        ∨ events_of s !! we_id event = Some row ∧ r = Ok {| ha_duplicate := true; ha_event_id := we_id event |}))
  ∨ events_of s' = events_of s ∧ ∃ err, r = Err err.
Proof.
  intros Hp [->|row Hrow ->|s1 Hn Hst Hr|s1 s2 err Hn Hst Hr ->|s1 Hn Hst Hr].
  - right. eauto.
  - left. exists row. rewrite table_rows_ensured. split; [by rewrite insert_id|by right].
  - left. destruct (stored_events _ _ _ _ Hn Hst) as [row Hs1]. exists row. split; [|by left].
    rewrite <- Hs1. eapply keeps_run; [apply kept_route|exact Hr].
  - right. destruct (stored_events _ _ _ _ Hn Hst) as [row Hs1]. split; [|eauto].
    rewrite delete_rows by done. rewrite Hp. erewrite (keeps_run "webhook_events"); [|apply kept_route|exact Hr].
    rewrite Hs1, delete_insert_eq. by apply delete_id.
  - left. destruct (stored_events _ _ _ _ Hn Hst) as [row Hs1]. exists row. split; [|by left].
    rewrite <- Hs1. eapply keeps_run; [apply kept_route|exact Hr].
Qed.

Context (plain_events : ∀ body event, parse_event body = Ok event → plain_event event).
Lemma received_plain e request event : receive parse_event e request = Ok event → plain_event event.
Proof. intros (? & body & ? & _ & _ & _ & _ & Hp)%receive_inv. by eapply plain_events. Qed.

(** A delivery that is answered with an error leaves no record of its event, so
    that the next one is handled again. *)
Theorem failed_delivery_forgotten e request s s' err :
  handle_hook e request s = (s', Err err) → events_of s' = events_of s.
Proof.
  intros Hh. apply delivery_cases in Hh as [(-> & _)|(event & Hrec & Hd)]; [done|].
  apply received_plain in Hrec.
  destruct (delivered_events _ _ _ _ _ Hrec Hd) as [(row & _ & [[_ Hr]|[_ Hr]])|[? _]]; [by destruct (Hr err)|done|done].
Qed.

(** Deliveries one after the other, with their answers. *)
Fixpoint deliver_all (l : list (hook_env * webhook_request)) (s : store) : store * list (Result hook_answer) :=
  match l with
  | [] => (s, [])
  | (e, request) :: l =>
      let '(s, r) := handle_hook e request s in
      let '(s, rs) := deliver_all l s in (s, r :: rs)
  end.
Definition handles (id : string) (r : Result hook_answer) : bool :=
  match r with Ok a => negb (ha_duplicate a) && (ha_event_id a =s? id) | _ => false end.

Lemma delivery_once e request s s' r id :
  handle_hook e request s = (s', r) →
  (is_Some (events_of s !! id) → is_Some (events_of s' !! id) ∧ handles id r = false)
  ∧ (handles id r = true → is_Some (events_of s' !! id)).
Proof.
  intros Hh. apply delivery_cases in Hh as [(-> & _ & Ha)|(event & Hrec & Hd)].
  { assert (handles id r = false) as -> by (destruct r as [a| |]; [by destruct (Ha a)|done..]). done. }
  apply received_plain in Hrec.
  destruct (delivered_events _ _ _ _ _ Hrec Hd) as [(row & -> & Hr)|[-> [err ->]]]; [|done].
  split.
  - intros Hs. split; [by apply lookup_insert_is_Some'; right|]. destruct Hr as [[Hn Hne]|[_ ->]]; [|done].
    inversion Hd; subst; try done. cbn. apply not_true_is_false. intros E. bools. subst id. rewrite Hn in Hs. by destruct Hs.
  - intros Hh. destruct Hr as [[Hn Hne]|[_ ->]]; [|done]. inversion Hd; subst; try done. cbn in Hh. bools. subst id.
    rewrite lookup_insert_eq. by eexists.
Qed.

Lemma handled_no_more l s id :
  is_Some (events_of s !! id) → filter (λ r, handles id r = true) (deliver_all l s).2 = [].
Proof.
  revert s. induction l as [|[e request] l IH]; intros s Hs; [done|]. cbn [deliver_all].
  destruct (handle_hook e request s) as [s1 r] eqn:Hh. destruct (delivery_once _ _ _ _ _ id Hh) as [H1 _].
  destruct (H1 Hs) as [Hs1 Hr]. specialize (IH s1 Hs1). destruct (deliver_all l s1) as [s2 rs]. cbn [snd] in *.
  by rewrite filter_cons_False by (by rewrite Hr).
Qed.

(** C18: whatever is delivered in whatever order and however often, an event is
    handled successfully at most once; every other delivery of it is answered as
    a duplicate or with an error. *)
Theorem webhook_handled_once l s id :
  length (filter (λ r, handles id r = true) (deliver_all l s).2) ≤ 1.
Proof.
  revert s. induction l as [|[e request] l IH]; intros s; [cbn; lia|]. cbn [deliver_all].
  destruct (handle_hook e request s) as [s1 r] eqn:Hh. destruct (delivery_once _ _ _ _ _ id Hh) as [_ H2].
  specialize (IH s1). pose proof (handled_no_more l s1 id) as Hno.
  destruct (deliver_all l s1) as [s2 rs]. cbn [snd] in *. destruct (handles id r) eqn:Er.
  - rewrite filter_cons_True, Hno by auto. done.
  - by rewrite filter_cons_False by (by rewrite Er).
Qed.
End deliveries.

(** *** Orders *)

(** The fields of an order that events write. *)
Definition hook_touched : list string :=
  ["orderStatus"; "paymentIntentId"; "paymentStatus"; "refundFailureReason"; "refundId"; "refundedAmountCents";
   "refundedAt"; "requiresManualReview"; "stockRestored"; "stripeSessionId"; "updatedAt"].

Section orders.
Context `{C : Chrono} `{P : PgJson} `{T : TextLib} `{K : Crypto} `{H : HexLib}.

(** What events keep of an order. *)
Record order_kept (row row' : DocRow) : Prop := {
  ok_fields k : k ∉ hook_touched → get k (row_data row') = get k (row_data row);
  ok_status : rtc hook_edge (status_text row) (status_text row');
  ok_payment : get "paymentStatus" (row_data row') = get "paymentStatus" (row_data row)
    ∨ str_field (row_data row') "paymentStatus" ∈ ["refunded"; "partially_refunded"];
  ok_refunded : get "refundedAmountCents" (row_data row') = get "refundedAmountCents" (row_data row)
    ∨ ∃ z, get "refundedAmountCents" (row_data row') = Some (of_i64 z)
         ∧ (z ≤ cents (row_data row) "totalAmountCents")%Z;
}.

Global Instance order_kept_preorder : PreOrder order_kept.
Proof.
  split; [by constructor; [|constructor|left|left]|].
  intros r1 r2 r3 [F1 S1 P1 A1] [F2 S2 P2 A2]. constructor.
  - intros k Hk. by rewrite F2, F1.
  - by etrans.
  - destruct P2 as [E2|]; [|by right]. unfold str_field. rewrite E2. done.
  - unfold cents, i64_field in *. setoid_rewrite (F1 "totalAmountCents") in A2; [|concrete].
    destruct A2 as [E2|]; [|by right]. by rewrite E2.
Qed.

Lemma hook_fields_keys row fields : hook_fields row fields → NoDup fields.*1 ∧ fields.*1 ⊆ hook_touched.
Proof.
  intros [| |now refunded refund_id _|]; [split; concrete..| |split; concrete].
  unfold refund_state. destruct (is_full_refund _ _), refund_id; split; concrete.
Qed.

Lemma assoc_get_elem k (m : list (string * Value)) v : assoc_get k m = Some v → k ∈ m.*1.
Proof.
  induction m as [|[k' v'] m IH]; [done|]. cbn [assoc_get fmap list_fmap fst].
  destruct (k =s? k') eqn:E; bools; [subst; by left|]. intros Hm. right. by apply IH.
Qed.

Lemma hook_write_kept row row' : hook_write row row' → order_kept row row'.
Proof.
  intros (fields & now & m & Hm & Hf & ->). destruct (hook_fields_keys _ _ Hf) as [Hnd Hsub].
  assert (∀ k, get k (row_data (merged_row (VObject fields) now row))
    = match assoc_get k fields with Some v => Some v | None => get k (row_data row) end) as Hget.
  { intros k. by eapply merged_row_get. }
  assert (∀ k, assoc_get k fields = None → get k (row_data (merged_row (VObject fields) now row)) = get k (row_data row)) as Hnone.
  { intros k Hk. by rewrite Hget, Hk. }
  constructor.
  - intros k Hk. apply Hnone. destruct (assoc_get k fields) as [v|] eqn:E; [|done].
    exfalso. apply Hk, Hsub. by eapply assoc_get_elem.
  - unfold status_text, field_text. rewrite Hget. destruct Hf as [b t Hb| |t refunded rid _|]; cbn [assoc_get]; try done.
    + by apply rtc_once.
    + change (assoc_get "orderStatus" _) with (Some (VString (order_status_str (if is_full_refund refunded (cents (row_data row) "totalAmountCents") then Order.Refunded else Order.PartiallyRefunded)))).
      apply rtc_once. right. right. cbn [mbind option_bind jsonb_as_text default from_option]. case_match; concrete.
  - destruct Hf as [| |t refunded rid _|]; [by left; apply Hnone..| |by left; apply Hnone].
    right. unfold str_field. rewrite Hget.
    change (assoc_get "paymentStatus" _) with (Some (VString (payment_status_str (if is_full_refund refunded (cents (row_data row) "totalAmountCents") then Payment.Refunded else Payment.PartialRefund)))).
    cbn [mbind option_bind as_str default from_option]. case_match; concrete.
  - destruct Hf as [| |t refunded rid Hle|]; [by left; apply Hnone..| |by left; apply Hnone].
    right. exists refunded. split; [|done]. by rewrite Hget.
Qed.

Lemma evolves_kept s s' id :
  evolves s s' → option_Forall2 order_kept (orders_of s !! id) (orders_of s' !! id).
Proof.
  intros He. destruct (He id) as [row row' Hw|]; constructor. induction Hw as [|r1 r2 r3 H1 _ IH]; [done|]. etrans; [by apply hook_write_kept|exact IH].
Qed.

Context (scan : rows → list (string * DocRow)) (scan_rows : ∀ rs, scan rs ≡ₚ map_to_list rs).
Context (injected_users : string → store → string * Result (list Value)).
Context (pg_undefined_column : string → string) (pg_no_object : string).
Context (parse_event : string → outcome string StripeWebhookEvent).
Abbreviation handle_hook := (handle_stripe_webhook scan injected_users pg_undefined_column pg_no_object parse_event).
Abbreviation deliver := (deliver_all scan injected_users pg_undefined_column pg_no_object parse_event).

Lemma keeps_delete c c' id : c' ≠ c → keeps c (db (delete_document c' id)).
Proof.
  intros Hne. apply keeps_with_table. intros s. cbv zeta. destruct (table_rows s c' !! _); [|done].
  by apply table_rows_insert_ne.
Qed.

Lemma evolves_handled e event s s1 s2 r :
  plain_orders s → try_store_webhook_event_atomic e event s = (s1, Ok true) →
  route scan injected_users pg_undefined_column pg_no_object (we_type event) e (we_data event) s1 = (s2, r) →
  evolves s s2.
Proof.
  intros Hp Hst Hr.
  pose proof (evolving_keeps _ (store_event_keeps "orders" e event ltac:(done)) s Hp) as H1. rewrite Hst in H1. cbn [fst] in H1.
  etrans; [exact H1|].
  pose proof (evolving_route scan scan_rows injected_users pg_undefined_column pg_no_object (we_type event) e (we_data event)
    s1 (evolves_plain _ _ H1 Hp)) as H2. by rewrite Hr in H2.
Qed.

Lemma evolving_delivery e request : evolving (handle_hook e request).
Proof.
  intros s Hp. destruct (handle_hook e request s) as [s' r] eqn:Hh. cbn [fst].
  apply delivery_cases in Hh as [(-> & _)|(event & _ & Hd)]; [done|].
  destruct Hd as [->|row _ ->|s1 _ Hst Hr|s1 s2 err _ Hst Hr ->|s1 _ Hst Hr]; [done| | | |].
  - apply (evolving_keeps (λ s, (ensured "webhook_events" s, @Ok Error unit tt))); [|done]. intros s0. apply table_rows_ensured.
  - by eapply evolves_handled.
  - pose proof (evolves_handled _ _ _ _ _ _ Hp Hst Hr) as He. etrans; [exact He|].
    apply (evolving_keeps (delete_document "webhook_events" (we_id event))); [by apply keeps_delete|by eapply evolves_plain].
  - by eapply evolves_handled.
Qed.
Lemma evolves_deliver l s : plain_orders s → evolves s (deliver l s).1.
Proof.
  revert s. induction l as [|[e request] l IH]; intros s Hp; [done|]. cbn [deliver_all].
  pose proof (evolving_delivery e request s Hp) as He. destruct (handle_hook e request s) as [s1 r]. cbn [fst] in He.
  specialize (IH s1 (evolves_plain _ _ He Hp)). destruct (deliver l s1) as [s2 rs]. cbn [fst] in *. by etrans.
Qed.

(** C19: no sequence of deliveries, signed or forged, successful or failing,
    creates or removes an order.  Of each order the buyer, the items, the amounts
    and every other field but eleven stay; its status only moves from pending to
    confirmed, cancelled, expired or failed, from confirmed to disputed, or to a
    refunded one; the payment status only becomes a refunded one; and the amount
    refunded never exceeds the total. *)
Theorem webhooks_respect_orders l s id :
  plain_orders s → option_Forall2 order_kept (orders_of s !! id) (orders_of (deliver l s).1 !! id).
Proof. intros Hp. apply evolves_kept. by apply evolves_deliver. Qed.
End orders.

(** *** An abandoned checkout *)
Section abandoned.
Context `{C : Chrono} `{P : PgJson} `{T : TextLib} `{!PgJsonLaws P}.
Context (scan : rows → list (string * DocRow)) (scan_rows : ∀ rs, scan rs ≡ₚ map_to_list rs).
Context (pg_no_object : string).

Lemma select_first_only table p s id row :
  table_rows s table !! id = Some row → p id row = true →
  (∀ id' row', table_rows s table !! id' = Some row' → p id' row' = true → id' = id) →
  select_first scan table p s = ((ensure_table table s).1, Ok (Some (row_to_doc id row))).
Proof.
  intros Hrow Hp Honly. unfold select_first. cbv zeta. rewrite keeps_ensure_first.
  assert ((id, row) ∈ filter (λ kr : string * DocRow, p kr.1 kr.2 = true) (scan (table_rows s table))) as Hin.
  { apply list_elem_of_filter. split; [done|]. rewrite scan_rows. by apply elem_of_map_to_list. }
  destruct (filter _ _) as [|[id' row'] l] eqn:E; [by apply elem_of_nil in Hin|].
  assert ((id', row') ∈ filter (λ kr : string * DocRow, p kr.1 kr.2 = true) (scan (table_rows s table))) as Hin'
    by (rewrite E; left).
  apply list_elem_of_filter in Hin' as [Hp' Hin']. rewrite scan_rows in Hin'. apply elem_of_map_to_list in Hin'.
  cbn [fst snd] in Hp'. pose proof (Honly _ _ Hin' Hp') as ->. rewrite Hrow in Hin'. by injection Hin' as ->.
Qed.

(** A statement that hits objects only. *)
Lemma update_where_runs table p fields now s :
  (∀ id row, table_rows s table !! id = Some row → p id row = true → ∃ m, row_data row = VObject m) →
  ∃ s' n, update_where pg_no_object table p fields now s = (s', Ok n)
    ∧ (∀ id, table_rows s' table !! id
         = (λ row, if p id row then merged_row (VObject fields) now row else row) <$> table_rows s table !! id)
    ∧ (n = 0%nat → ∀ id row, table_rows s table !! id = Some row → p id row = false)
    ∧ ∀ c, c ≠ table → table_rows s' c = table_rows s c.
Proof.
  intros Hobj.
  assert (∃ n, (update_where pg_no_object table p fields now s).2 = Ok n
    ∧ (n = 0%nat → ∀ id row, table_rows s table !! id = Some row → p id row = false)) as (n & Hok & Hzero).
  { unfold update_where. cbv zeta. rewrite keeps_ensure_first. replace (forallb _ _) with true.
    - eexists. split; [done|]. intros Hn%map_size_empty_inv id row Hrow. apply not_true_is_false. intros Hp.
      assert (filter (λ kr : string * DocRow, p kr.1 kr.2 = true) (table_rows s table) !! id = Some row) as Hin
        by (by apply map_lookup_filter_Some). by rewrite Hn in Hin.
    - symmetry. apply forallb_forall. intros [id row] Hin.
      apply list_elem_of_In, elem_of_map_to_list, map_lookup_filter_Some in Hin as [Hrow Hp]. cbn [fst snd] in *.
      destruct (Hobj _ _ Hrow Hp) as [m Hm]. by rewrite Hm. }
  pose proof (λ id, update_where_rows pg_no_object table p fields now s id) as Hr. rewrite Hok in Hr.
  pose proof (λ c Hc, keeps_update_where pg_no_object c table p fields now Hc s) as Hk.
  destruct (update_where pg_no_object table p fields now s) as [s' r]. cbn [fst snd is_ok] in *. subst r.
  exists s', n. split_and!; [done| |done|intros c Hc; by apply Hk]. intros id. rewrite Hr.
  destruct (table_rows s table !! id); [|done]. by rewrite andb_true_r.
Qed.

Local Open Scope Z_scope.
Lemma restock_succeeds err clock stamp pid qty s n :
  stocked s (bare_id "products" pid) n → 0 ≤ qty → n + qty ≤ i64_max →
  ∃ s', restore_stock err clock stamp pid qty 3 s = (s', Ok true) ∧ restocked (bare_id "products" pid) qty s s'.
Proof.
  intros Hn Hq Hle. destruct (restore_stock_restocks err clock stamp pid qty 2 s Hq) as (s' & b & Hrun & Hres).
  destruct (restock_once err clock stamp pid qty 2 s n Hn Hq Hle) as (s2 & Hrun2 & _).
  rewrite Hrun in Hrun2. injection Hrun2 as <- ->. by exists s'.
Qed.
Lemma returned_own item : returns_stock item = true →
  returned_units (bare_id "products" (str_field item "productId")) item = quantity_of item.
Proof. intros E. unfold returned_units. by rewrite E, str_eqb_refl. Qed.

Lemma restore_each_counted skip clock stamp i items s :
  Forall (λ item, skip = false → bool_field item "isDigital" = false) items →
  (∀ item, item ∈ items → returns_stock item = true → let pid := bare_id "products" (str_field item "productId") in
     ∃ n, stocked s pid n ∧ n + total (returned_units pid <$> items) ≤ i64_max) →
  ∃ s', restore_each skip clock stamp i items s = (s', Ok tt)
    ∧ (∀ c, c ≠ "products" → table_rows s' c = table_rows s c)
    ∧ (∀ pid n, stocked s pid n → n + total (returned_units pid <$> items) ≤ i64_max →
         stocked s' pid (n + total (returned_units pid <$> items))).
Proof.
  intros Hdig. revert i s. induction Hdig as [|item items Hd Hdig IH]; intros i s Hst.
  { exists s. split_and!; [done|done|]. intros pid n. cbn. by rewrite Z.add_0_r. }
  cbn [restore_each]. cbv zeta. set (pid0 := bare_id "products" (str_field item "productId")) in *.
  set (step := if _ || _ then _ else _).
  assert (∃ s1, step s = (s1, Ok tt) ∧ (∀ c, c ≠ "products" → table_rows s1 c = table_rows s c)
    ∧ ∀ pid n, stocked s pid n → n + returned_units pid item ≤ i64_max → stocked s1 pid (n + returned_units pid item))
    as (s1 & Hrun & Hother & Hcount).
  { subst step. destruct (returns_stock item) eqn:E.
    - destruct (Hst item (list_elem_of_here _ _) E) as (n0 & Hn0 & Hle). fold pid0 in Hn0, Hle.
      unfold total in Hle. cbn [fmap list_fmap foldr] in Hle. pose proof (returned_nonneg pid0 items) as Hpos.
      unfold total in Hpos. unfold pid0 at 1 in Hle. rewrite (returned_own item E) in Hle.
      pose proof E as E'. unfold returns_stock in E'. bools. apply Z.ltb_lt in H0. rewrite H, H1, andb_false_r.
      replace (quantity_of item <=? 0) with false by (symmetry; apply Z.leb_gt; lia). cbn [orb].
      destruct (restock_succeeds id (clock i) stamp (str_field item "productId") (quantity_of item) s n0 Hn0 ltac:(lia) ltac:(lia)) as (s1 & Hrun & Hres). exists s1. rewrite (bind_run _ _ _ _ _ Hrun). split; [done|]. split; [apply Hres|].
      intros pid n Hn Hmax. unfold returned_units in *. rewrite E in *. cbn [andb] in *. by eapply restocked_counted.
    - exists s. unfold returned_units. rewrite E. split; [|split; [done|intros pid n Hn _; cbn; by rewrite Z.add_0_r]].
      unfold returns_stock in E. destruct (bool_field item "isDigital") eqn:Edig; [destruct skip; [done|specialize (Hd eq_refl); congruence]|].
      rewrite andb_false_r. cbn [negb andb orb] in *. destruct (str_empty (str_field item "productId")); [done|].
      cbn [negb andb orb] in *. replace (quantity_of item <=? 0) with true by (symmetry; apply Z.leb_le; apply Z.ltb_ge in E; lia). done. }
  rewrite (bind_run _ _ _ _ _ Hrun). destruct (IH (S i) s1) as (s' & Hrun' & Hother' & Hcount').
  { intros item' Hin E'. destruct (Hst item' (list_elem_of_further _ _ _ Hin) E') as (n & Hn & Hle).
    exists (n + returned_units (bare_id "products" (str_field item' "productId")) item).
    unfold total in Hle. cbn [fmap list_fmap foldr] in Hle.
    pose proof (returned_nonneg (bare_id "products" (str_field item' "productId")) items) as Hpos. unfold total in *.
    split; [apply Hcount; [done|lia]|lia]. }
  exists s'. split; [done|]. split; [intros c Hc; by rewrite Hother', Hother|].
  intros pid n Hn Hle. unfold total in *. cbn [fmap list_fmap foldr] in *.
  pose proof (returned_nonneg pid items) as Hpos. unfold total in Hpos.
  rewrite Z.add_assoc. apply Hcount'; [|lia]. apply Hcount; [done|]. lia.
Qed.


Lemma release_run order_id s :
  ∃ s', release_coupon_reservation order_id s = (s', Ok tt)
    ∧ (∀ c, c ≠ "coupon_uses" → table_rows s' c = table_rows s c)
    ∧ ∀ i r, table_rows s' "coupon_uses" !! i = Some r → reserved_use order_id r = false.
Proof.
  eexists. split; [reflexivity|]. split.
  - intros c Hc. by apply (keeps_delete_where c "coupon_uses").
  - intros i r. rewrite table_rows_insert. by intros [_ Hr]%map_lookup_filter_Some.
Qed.

(** A pending order that is given up. *)
Definition restorable (s : store) (items : list Value) : Prop :=
  Forall (λ item, bool_field item "isDigital" = false) items
  ∧ ∀ item, item ∈ items → returns_stock item = true → let pid := bare_id "products" (str_field item "productId") in
      ∃ n, stocked s pid n ∧ n + total (returned_units pid <$> items) ≤ i64_max.
Definition abandoned_doc (e : hook_env) (new : OrderStatus) : Value :=
  VObject [("orderStatus", VString (order_status_str new)); ("updatedAt", VString (to_rfc3339 (he_now e 0)))].

Lemma stocked_same s s' pid n :
  table_rows s' "products" = table_rows s "products" → stocked s pid n → stocked s' pid n.
Proof. intros Hs (row & Hrow & Hr). exists row. by rewrite Hs. Qed.

Lemma status_objects order_id row m s a :
  orders_of s !! order_id = Some row → row_data row = VObject m →
  ∀ i r, table_rows s "orders" !! i = Some r →
    (i =s? order_id) && (default "" (field_text "orderStatus" (row_data r)) =s? order_status_str a) = true →
    ∃ m, row_data r = VObject m.
Proof. intros Hrow Hm i r Hr Hp. bools; subst i. unfold orders_of in Hrow. rewrite Hrow in Hr. injection Hr as <-. eauto. Qed.

(** The status of a pending order, changed. *)
Lemma status_run e new order_id row m s :
  orders_of s !! order_id = Some row → row_data row = VObject m →
  get "orderStatus" (row_data row) = Some (VString "pending") →
  ∃ s', update_order_status pg_no_object e order_id Order.PendingPayment new s = (s', Ok true)
    ∧ orders_of s' !! order_id = Some (merged_row (abandoned_doc e new) (he_clock e 1) row)
    ∧ ∀ c, c ≠ "orders" → table_rows s' c = table_rows s c.
Proof.
  intros Hrow Hm Hst. unfold update_order_status.
  set (p := λ id r, (id =s? order_id) && (default "" (field_text "orderStatus" (row_data r)) =s? order_status_str Order.PendingPayment)).
  destruct (update_where_runs "orders" p [("orderStatus", VString (order_status_str new)); ("updatedAt", VString (to_rfc3339 (he_now e 0)))]
    (he_clock e 1) s) as (s1 & k & Hu & Hrow1 & Hk & Hs1); [by eapply status_objects|].
  assert (p order_id row = true) as Hp by (subst p; cbn; rewrite str_eqb_refl; unfold field_text; by rewrite Hst).
  unfold orders_of in *. specialize (Hrow1 order_id). rewrite Hrow in Hrow1. cbn [fmap option_fmap option_map] in Hrow1. rewrite Hp in Hrow1.
  rewrite (bind_run _ _ _ _ _ Hu). exists s1. split_and!; [|done|done].
  destruct k; [|done]. specialize (Hk eq_refl _ _ Hrow). congruence.
Qed.
Lemma abandon_run e new order_id row m s :
  orders_of s !! order_id = Some row → row_data row = VObject m →
  get "orderStatus" (row_data row) = Some (VString "pending") →
  let items := items_array (row_data row) in restorable s items →
  ∃ s', abandon pg_no_object e new true order_id (row_to_doc order_id row) s = (s', Ok tt)
    ∧ orders_of s' !! order_id = Some (merged_row (abandoned_doc e new) (he_clock e 1) row)
    ∧ (∀ pid n, stocked s pid n → n + total (returned_units pid <$> items) ≤ i64_max →
         stocked s' pid (n + total (returned_units pid <$> items)))
    ∧ ∀ i r, table_rows s' "coupon_uses" !! i = Some r → reserved_use order_id r = false.
Proof.
  intros Hrow Hm Hst items [Hdig Hstock]. unfold abandon, is_pending.
  rewrite str_field_doc by concrete. unfold str_field at 1. rewrite Hst. cbn [mbind option_bind as_str default from_option].
  change (id "pending" =s? _) with true. cbn iota.
  destruct (status_run e new order_id row m s Hrow Hm Hst) as (s1 & Hu & Hrow1 & Hs1).
  destruct (restore_each_counted false (λ i k, he_clock e (3 * i + k + 2)%nat) None 0 items s1) as (s2 & Hres & Hs2 & Hcount);
    [by eapply Forall_impl| |].
  { intros item Hin E. destruct (Hstock item Hin E) as (n & Hn & Hle). exists n. split; [|done].
    eapply stocked_same; [|exact Hn]. by apply Hs1. }
  destruct (release_run order_id s2) as (s3 & Hrel & Hs3 & Hfree).
  assert ((update_order_status pg_no_object e order_id Order.PendingPayment new
    ≫= λ _ : bool, restore_stock_for_order e (row_to_doc order_id row)) s = (s2, Ok tt)) as Hrun.
  { rewrite (bind_run _ _ _ _ _ Hu). unfold restore_stock_for_order. rewrite (doc_id _ _ _ Hm), items_doc. done. }
  rewrite (bind_run _ _ _ _ _ Hrun). exists s3. split; [done|]. split_and!; [|intros pid n Hn Hle|done].
  - unfold orders_of in *. by rewrite Hs3, Hs2.
  - eapply stocked_same; [by apply Hs3|]. apply Hcount; [|done]. eapply stocked_same; [by apply Hs1|done].
Qed.

Context (pg_invalid_bigint : string) (pg_missing_table pg_duplicate_key : string → string).
Context (validate_turnstile : string → string → Result unit) (stripe : string → list (string * string) → stripe_reply).
Abbreviation checkout := (create_checkout_session pg_invalid_bigint scan pg_missing_table pg_duplicate_key
  validate_turnstile stripe).

Lemma returned_elem item items :
  item ∈ items → returns_stock item = true →
  0 < total (returned_units (bare_id "products" (str_field item "productId")) <$> items).
Proof.
  intros Hin E. pose proof (returned_own item E) as Ho. set (pid := bare_id _ _) in *.
  assert (0 < quantity_of item) as Hq by (unfold returns_stock in E; bools; by apply Z.ltb_lt).
  induction items as [|x items IH]; [by apply elem_of_nil in Hin|]. apply elem_of_cons in Hin as [<-|Hin];
    unfold total in *; cbn [fmap list_fmap foldr].
  - pose proof (returned_nonneg pid items) as Hpos. unfold total in Hpos. lia.
  - pose proof (returned_nonneg pid [x]) as Hpos. unfold total in Hpos. cbn [fmap list_fmap foldr] in Hpos. specialize (IH Hin). lia.
Qed.

Lemma placed_restorable e auth req s s1 resp u pr po sid q a :
  placed pg_invalid_bigint scan pg_missing_table pg_duplicate_key stripe e auth req s s1 resp u pr po sid q a →
  Forall (λ item, bool_field item "isDigital" = false) (q_items q) →
  let doc := placed_document e req u pr po sid q a in
  (∀ pid, 0 < order_units pid doc → ∃ n, stocked s pid n ∧ order_units pid doc ≤ n) → restorable s1 (q_items q).
Proof.
  intros Hp Hdig doc Hstock. split; [done|]. intros item Hin E pid.
  pose proof (returned_elem item _ Hin E) as Hpos. fold pid in Hpos.
  pose proof (placed_returned _ _ _ _ _ pid _ _ _ _ _ _ _ _ _ _ _ _ Hp) as Htot. rewrite Htot in *.
  destruct (Hstock pid Hpos) as (n & Hn & Hle). exists (n - order_units pid doc).
  split; [by eapply placed_counted|]. fold doc. destruct Hn as (_ & _ & _ & Hn). lia.
Qed.

Lemma found_placed s order_id row :
  bare_id "orders" order_id = order_id → orders_of s !! order_id = Some row →
  (∀ i r, orders_of s !! i = Some r → i ≠ order_id → field_text "orderId" (row_data r) ≠ Some order_id) →
  found_order scan order_id s = ((ensure_table "orders" s).1, Ok (row_to_doc order_id row)).
Proof.
  intros Hbare Hrow Hother. unfold found_order, find_order_by_metadata_id. rewrite Hbare.
  erewrite bind_run; [|apply select_first_only; [exact Hrow|by rewrite str_eqb_refl|]]; [done|].
  intros i r Hr Hm. destruct (decide (i = order_id)) as [|Hne]; [done|]. exfalso.
  destruct (i =s? order_id) eqn:E; bools; [done|]. cbn [orb] in Hm. bools. by eapply Hother.
Qed.

(** C20: an expired checkout session undoes the checkout, if every ordered unit was
    in stock when the order was placed.  For such an order of physical goods, under
    a plain id no other order has, the event that its session expired, delivered
    next, succeeds; the order is marked expired, the stock of every product is again
    what it was before the checkout, and no use of a coupon stays reserved for the
    order.  The condition is needed: a checkout sells units that are not there
    ([Checkout.oversold]), and the event then returns more than was taken. *)
Theorem expired_session_undoes_checkout e auth req s s1 resp e' data obj session_id coupon row :
  checkout e auth req s = (s1, Ok resp) → cr_duplicate resp = false →
  let order_id := cr_checkout_order_id resp in
  session_object data = Ok (obj, session_id, order_id, coupon) →
  bare_id "orders" order_id = order_id →
  (∀ i r, orders_of s !! i = Some r → field_text "orderId" (row_data r) ≠ Some order_id) →
  orders_of s1 !! order_id = Some row →
  Forall (λ item, bool_field item "isDigital" = false) (items_array (row_data row)) →
  (∀ pid, 0 < order_units pid (row_data row) → ∃ n, stocked s pid n ∧ order_units pid (row_data row) ≤ n) →
  ∃ s2 row', handle_checkout_session_expired scan pg_no_object e' data s1 = (s2, Ok tt)
    ∧ orders_of s2 !! order_id = Some row' ∧ status_text row' = "expired"
    ∧ (∀ pid n, stocked s pid n → order_units pid (row_data row) ≤ n → stocked s2 pid n)
    ∧ ∀ i r, table_rows s2 "coupon_uses" !! i = Some r → reserved_use order_id r = false.
Proof.
  intros Hc Hd order_id Hobj Hbare Hfresh Hrow Hdig Hstock.
  destruct (checkout_cases _ _ scan_rows _ _ _ _ _ _ _ _ _ _ Hc) as [[_ Hr]|(? & u & pr & po & sid & q & a & [= <-] & _ & Hp)].
  { specialize (answered_duplicate _ _ _ _ _ (Hr _ eq_refl)). congruence. }
  destruct (placed_row _ _ _ _ _ _ _ _ _ _ _ _ _ _ _ _ _ Hp) as [_ Hrows].
  pose proof (pl_order _ _ _ _ _ _ _ _ _ _ _ _ _ _ _ _ _ Hp) as Ho. fold order_id in Ho.
  set (doc := placed_document e req u pr po sid q a) in *.
  assert (row_data row = doc) as Hdoc.
  { unfold orders_of in Hrow. rewrite Hrows, <- Ho, lookup_insert_eq in Hrow. by injection Hrow as <-. }
  rewrite Hdoc in *. set (s1' := (ensure_table "orders" s1).1).
  assert (∀ c, table_rows s1' c = table_rows s1 c) as Hens by (intros c; apply keeps_ensure_first).
  assert (restorable s1' (items_array (row_data row))) as Hrest.
  { rewrite Hdoc. destruct (placed_restorable _ _ _ _ _ _ _ _ _ _ _ _ Hp Hdig Hstock) as [? Hst]. split; [done|].
    intros item Hin E. destruct (Hst item Hin E) as (n & Hn & Hle). exists n. split; [|done]. eapply stocked_same; [apply Hens|exact Hn]. }
  assert (∀ i r, orders_of s1 !! i = Some r → i ≠ order_id → field_text "orderId" (row_data r) ≠ Some order_id) as Hother.
  { intros i r Hr Hne. unfold orders_of in Hr. rewrite Hrows, <- Ho, lookup_insert_ne in Hr by done. by eapply Hfresh. }
  assert (orders_of s1' !! order_id = Some row) as Hrow1 by (unfold orders_of; rewrite Hens; exact Hrow).
  destruct (abandon_run e' Order.Expired order_id row _ s1' Hrow1 Hdoc) as
    (s2 & Hrun & Hrow2 & Hcount & Hfree); [by rewrite Hdoc|exact Hrest|].
  exists s2, (merged_row (abandoned_doc e' Order.Expired) (he_clock e' 1) row). split_and!; [|done| |intros pid n Hn Hle|done].
  - unfold handle_checkout_session_expired. rewrite (bind_run _ _ s1 s1 _) by (unfold pure; by rewrite Hobj). cbn iota beta.
    rewrite (bind_run _ _ _ _ _ (found_placed _ _ _ Hbare Hrow Hother)). done.
  - unfold status_text, field_text, abandoned_doc. by erewrite merged_row_get by (done || concrete).
  - rewrite Hdoc in Hcount. change (items_array doc) with (q_items q) in Hcount.
    pose proof (placed_counted _ _ _ _ _ pid n _ _ _ _ _ _ _ _ _ _ _ _ Hp Hn Hle) as Hc1. fold doc in Hc1.
    specialize (Hcount pid (n - order_units pid doc)).
    rewrite (placed_returned _ _ _ _ _ pid _ _ _ _ _ _ _ _ _ _ _ _ Hp) in Hcount. fold doc in Hcount.
    rewrite Z.sub_add in Hcount. apply Hcount; [eapply stocked_same; [apply Hens|exact Hc1]|].
    destruct Hn as (_ & _ & _ & Hn). lia.
Qed.
End abandoned.

(** *** A completed checkout *)
Section completed.
Context `{C : Chrono} `{P : PgJson} `{T : TextLib}.
Context (scan : rows → list (string * DocRow)) (scan_rows : ∀ rs, scan rs ≡ₚ map_to_list rs).
Context (pg_no_object : string).

(** The uses of a coupon that belong to an order. *)
Definition use_of (order_id coupon_code : string) (row : DocRow) : bool :=
  bool_decide (field_text "orderId" (row_data row) = Some order_id)
  && bool_decide (field_text "couponCode" (row_data row) = Some (to_uppercase coupon_code)).

Lemma redeem_run e order_id coupon_code s :
  ∃ s', mark_coupon_redeemed pg_no_object e order_id coupon_code s = (s', Ok tt)
    ∧ (∀ c, c ≠ "coupon_uses" → table_rows s' c = table_rows s c)
    ∧ (coupon_code ≠ "" → ∀ i r, table_rows s' "coupon_uses" !! i = Some r → use_of order_id coupon_code r = true →
         get "redeemedAt" (row_data r) = Some (VString (to_rfc3339 (he_now e 1)))).
Proof.
  unfold mark_coupon_redeemed. destruct (str_empty coupon_code) eqn:E; [exists s; split_and!; [done|done|by destruct coupon_code]|].
  change (λ (_ : string) row, bool_decide (field_text "orderId" (row_data row) = Some order_id) && _)
    with (λ (_ : string) row, use_of order_id coupon_code row).
  assert (∀ row, use_of order_id coupon_code row = true → ∃ m, row_data row = VObject m) as Hobj.
  { intros row Hu. unfold use_of, field_text in Hu. bools.
    destruct (get "orderId" (row_data row)) eqn:Eg; [|done]. by eapply object_of_get. }
  destruct (update_where_runs pg_no_object "coupon_uses" (λ _ row, use_of order_id coupon_code row)
    [("redeemedAt", VString (to_rfc3339 (he_now e 1)))] (he_clock e 3) s) as (s' & n & Hu & Hrows & _ & Hother); [eauto|].
  rewrite (bind_run _ _ _ _ _ Hu). exists s'. split_and!; [done|done|]. intros _ i r Hr Huse.
  rewrite Hrows in Hr. destruct (table_rows s "coupon_uses" !! i) as [row|]; [|done]. injection Hr as <-.
  destruct (use_of order_id coupon_code row) eqn:Eu; [|congruence]. destruct (Hobj row Eu) as [m Hm].
  by erewrite merged_row_get by (done || concrete).
Qed.

Lemma clear_run buyer_id s :
  ∃ s', clear_cart buyer_id s = (s', Ok tt)
    ∧ (∀ c, c ≠ "cart" → table_rows s' c = table_rows s c)
    ∧ (buyer_id ≠ "" → ∀ i r, table_rows s' "cart" !! i = Some r → field_text "userId" (row_data r) ≠ Some buyer_id).
Proof.
  unfold clear_cart. destruct (str_empty buyer_id) eqn:E; [exists s; split_and!; [done|done|by destruct buyer_id]|].
  eexists. split; [reflexivity|]. split.
  - intros c Hc. rewrite table_rows_insert_ne by done. apply keeps_ensure_first.
  - intros _ i r. rewrite table_rows_insert. intros [_ Hr]%map_lookup_filter_Some. cbn in Hr. by bools.
Qed.


(** The order with the session and the intent. *)
Lemma session_run e pi session_id order_id row m s :
  orders_of s !! order_id = Some row → row_data row = VObject m →
  ∃ s' n, update_where pg_no_object "orders" (λ id _, id =s? order_id) (session_doc e pi session_id) (he_clock e 2) s = (s', Ok n)
    ∧ orders_of s' !! order_id = Some (merged_row (VObject (session_doc e pi session_id)) (he_clock e 2) row)
    ∧ ∀ c, c ≠ "orders" → table_rows s' c = table_rows s c.
Proof.
  intros Hrow Hm. unfold orders_of in *.
  destruct (update_where_runs pg_no_object "orders" (λ id _, id =s? order_id) (session_doc e pi session_id) (he_clock e 2) s)
    as (s' & n & Hu & Hrows & _ & Hother).
  { intros i r Hr Hp. bools; subst i. rewrite Hrow in Hr. injection Hr as <-. eauto. }
  exists s', n. split_and!; [done| |done]. by rewrite Hrows, Hrow, str_eqb_refl.
Qed.

Definition confirmed_row (e : hook_env) (pi session_id : string) (row : DocRow) : DocRow :=
  merged_row (VObject (session_doc e pi session_id)) (he_clock e 2)
    (merged_row (abandoned_doc e Order.PaymentAuthorized) (he_clock e 1) row).
Lemma confirmed_get e pi session_id row m k :
  row_data row = VObject m →
  get k (row_data (confirmed_row e pi session_id row))
  = match assoc_get k (session_doc e pi session_id) with
    | Some v => Some v
    | None => match get k (abandoned_doc e Order.PaymentAuthorized) with Some v => Some v | None => get k (row_data row) end
    end.
Proof.
  intros Hm. unfold confirmed_row.
  assert (∃ m1, row_data (merged_row (abandoned_doc e Order.PaymentAuthorized) (he_clock e 1) row) = VObject m1) as [m1 Hm1]
    by (cbn; rewrite Hm; cbn; eauto).
  rewrite (merged_row_get _ _ _ m1) by (done || concrete). unfold abandoned_doc. by rewrite (merged_row_get _ _ _ m) by (done || concrete).
Qed.

(** The completion of a checkout session confirms its order.  For a pending
    order the event succeeds, records the session and the payment intent on the
    order, whose other fields stay, marks the uses of its coupon as redeemed,
    empties the buyer's cart and leaves the stock as the checkout reserved it. *)
Theorem completed_session_confirms e data obj session_id order_id coupon s row m :
  session_object data = Ok (obj, session_id, order_id, coupon) → bare_id "orders" order_id = order_id →
  orders_of s !! order_id = Some row → row_data row = VObject m →
  get "orderStatus" (row_data row) = Some (VString "pending") →
  (∀ i r, orders_of s !! i = Some r → i ≠ order_id → field_text "orderId" (row_data r) ≠ Some order_id) →
  let buyer_id := str_field (row_data row) "buyerId" in
  ∃ s' row', handle_checkout_session_completed scan pg_no_object e data s = (s', Ok tt)
    ∧ orders_of s' !! order_id = Some row' ∧ status_text row' = "confirmed"
    ∧ get "paymentIntentId" (row_data row') = Some (VString (text_of "payment_intent" "" obj))
    ∧ get "stripeSessionId" (row_data row') = Some (VString session_id)
    ∧ (∀ k, k ∉ ["orderStatus"; "paymentIntentId"; "stripeSessionId"; "updatedAt"] →
         get k (row_data row') = get k (row_data row))
    ∧ (coupon ≠ "" → ∀ i r, table_rows s' "coupon_uses" !! i = Some r → use_of order_id coupon r = true →
         get "redeemedAt" (row_data r) = Some (VString (to_rfc3339 (he_now e 1))))
    ∧ (buyer_id ≠ "" → ∀ i r, table_rows s' "cart" !! i = Some r → field_text "userId" (row_data r) ≠ Some buyer_id)
    ∧ table_rows s' "products" = table_rows s "products".
Proof.
  intros Hobj Hbare Hrow Hm Hst Hother buyer_id. unfold handle_checkout_session_completed.
  rewrite (bind_run _ _ s s _) by (unfold pure; by rewrite Hobj). cbn iota beta.
  rewrite (bind_run _ _ _ _ _ (found_placed scan scan_rows _ _ _ Hbare Hrow Hother)).
  set (s0 := (ensure_table "orders" s).1). assert (∀ c, table_rows s0 c = table_rows s c) as Hens by (intros; apply keeps_ensure_first).
  unfold authorise, is_pending. rewrite !str_field_doc by concrete. fold buyer_id.
  unfold str_field at 1. rewrite Hst. cbn [mbind option_bind as_str default from_option].
  change (id "pending" =s? _) with true. cbn [negb].
  destruct (status_run pg_no_object e Order.PaymentAuthorized order_id row m s0) as (s1 & Hu & Hrow1 & Hs1);
    [by unfold orders_of in *; rewrite Hens|done..|].
  rewrite (bind_run _ _ _ _ _ Hu). cbn [negb].
  destruct (session_run e (text_of "payment_intent" "" obj) session_id order_id _ _ s1 Hrow1
    ltac:(cbn; rewrite Hm; reflexivity)) as (s2 & n & Hse & Hrow2 & Hs2).
  rewrite (bind_run _ _ _ _ _ Hse). destruct (redeem_run e order_id coupon s2) as (s3 & Hre & Hs3 & Huse).
  rewrite (bind_run _ _ _ _ _ Hre). destruct (clear_run buyer_id s3) as (s4 & Hcl & Hs4 & Hcart).
  exists s4, (confirmed_row e (text_of "payment_intent" "" obj) session_id row).
  unfold status_text, field_text. rewrite !(confirmed_get _ _ _ _ _ _ Hm).
  split_and!; [done|by unfold orders_of in *; rewrite Hs4, Hs3|done|done|done| |by rewrite Hs4|done|
    by rewrite Hs4, Hs3, Hs2, Hs1, Hens].
  intros k Hk. rewrite (confirmed_get _ _ _ _ _ _ Hm).
  assert (∀ x, x ∈ ["orderStatus"; "paymentIntentId"; "stripeSessionId"; "updatedAt"] → (k =s? x) = false) as Hne
    by (intros x Hx; apply bool_decide_eq_false; by intros ->).
  unfold session_doc, abandoned_doc. cbn [get assoc_get]. by rewrite !Hne by concrete.
Qed.
End completed.

(** *** Paid orders cannot be captured

    The capture asks for the payment status authorized.  Checkout stores another
    one, the event of the completed session leaves it, and the statement that
    would set it names columns the table does not have. *)
Section uncaptured.
Context `{C : Chrono} `{P : PgJson} `{T : TextLib} `{K : Crypto} `{H : HexLib}.
Context (scan : rows → list (string * DocRow)) (scan_rows : ∀ rs, scan rs ≡ₚ map_to_list rs).
Context (injected_users : string → store → string * Result (list Value)).
Context (pg_undefined_column : string → string) (pg_no_object : string).
Context (parse_event : string → outcome string StripeWebhookEvent).
Context (pg_invalid_bigint : string) (pg_missing_table pg_duplicate_key : string → string).
Context (validate_turnstile : string → string → Result unit) (stripe : string → list (string * string) → stripe_reply).
Context (stripe_sessions : string → api_reply) (stripe_captures : string → string → api_reply).
Abbreviation checkout := (create_checkout_session pg_invalid_bigint scan pg_missing_table pg_duplicate_key
  validate_turnstile stripe).
Abbreviation deliver := (deliver_all scan injected_users pg_undefined_column pg_no_object parse_event).

Lemma captured_authorised e auth req s s' resp row :
  orders_of s !! bare_id "orders" (cp_order_id req) = Some row →
  capture_payment pg_invalid_bigint stripe_sessions stripe_captures e auth req s = (s', Ok resp) →
  str_field (row_data row) "paymentStatus" = "authorized".
Proof.
  intros Hrow Hc. unfold capture_payment in Hc. do 6 run_inv Hc. unfold orders_of in Hrow.
  rewrite <- (keeps_run "orders" _ _ _ _ (keeps_rate_limit _ "orders" _ _ _ _ _ _ _ _ ltac:(done)) R2) in Hrow.
  rewrite (get_run "orders" _ _ _ eq_refl Hrow) in R3. injection R3 as _ <-. destruct a4.
  apply (capture_guards_ok stripe_sessions stripe_captures) in R4 as (_ & _ & Hpay). by rewrite str_field_doc in Hpay by concrete.
Qed.

(** No order that checkout placed is ever captured, whatever events Stripe
    sends: the capture of a paid order is refused. *)
Theorem placed_never_captured e auth req s s1 resp l e' auth' req' s3 r :
  checkout e auth req s = (s1, Ok resp) → cr_duplicate resp = false → plain_orders s1 →
  bare_id "orders" (cp_order_id req') = cr_checkout_order_id resp →
  capture_payment pg_invalid_bigint stripe_sessions stripe_captures e' auth' req' (deliver l s1).1 = (s3, r) →
  ∀ a, r ≠ Ok a.
Proof.
  intros Hc Hd Hplain Hid Hcap a ->.
  destruct (checkout_cases _ _ scan_rows _ _ _ _ _ _ _ _ _ _ Hc) as [[_ Hr]|(? & u & pr & po & sid & q & am & [= <-] & _ & Hp)].
  { specialize (answered_duplicate _ _ _ _ _ (Hr _ eq_refl)). congruence. }
  destruct (placed_row _ _ _ _ _ _ _ _ _ _ _ _ _ _ _ _ _ Hp) as [_ Hrows].
  pose proof (pl_order _ _ _ _ _ _ _ _ _ _ _ _ _ _ _ _ _ Hp) as Ho.
  pose proof (evolves_kept _ _ (cr_checkout_order_id resp) (evolves_deliver scan scan_rows injected_users pg_undefined_column
    pg_no_object parse_event l s1 Hplain)) as Hk.
  unfold orders_of at 1 in Hk. rewrite Hrows, Ho, lookup_insert_eq in Hk. inversion Hk as [r1 row Hkept E1 E2|]. subst r1.
  rewrite <- Ho, <- Hid in E2.
  pose proof (captured_authorised _ _ _ _ _ _ _ (eq_sym E2) Hcap) as Hpay.
  destruct (ok_payment _ _ Hkept) as [E|E].
  - unfold str_field in Hpay. rewrite E in Hpay. done.
  - rewrite Hpay in E. revert E. concrete.
Qed.
End uncaptured.

(** *** Deliveries of one event at the same time

    Each delivery stores the record, runs its handler and, if that fails, removes
    the record again.  Between these any statement may run, of this or another
    handler; by [kept_route] it leaves the records alone. *)
Inductive hook_phase : Type :=
| Arrived
| Handling
| Undoing     (** the handler failed, the record is still there *)
| Done
| Undone
| Skipped.    (** answered as a duplicate *)
Definition busy (p : hook_phase) : bool :=
  match p with Handling | Undoing | Done => true | _ => false end.

Section concurrent.
Context `{C : Chrono} `{P : PgJson}.
Context (deliveries : list (hook_env * StripeWebhookEvent)).
Implicit Types (s : store) (ph : list hook_phase).

Inductive hook_step : store * list hook_phase → store * list hook_phase → Prop :=
| hook_stores i e event s s' ph : ph !! i = Some Arrived → deliveries !! i = Some (e, event) →
    try_store_webhook_event_atomic e event s = (s', Ok true) → hook_step (s, ph) (s', <[i := Handling]> ph)
| hook_skips i e event s s' ph : ph !! i = Some Arrived → deliveries !! i = Some (e, event) →
    try_store_webhook_event_atomic e event s = (s', Ok false) → hook_step (s, ph) (s', <[i := Skipped]> ph)
| hook_works s s' ph : table_rows s' "webhook_events" = table_rows s "webhook_events" → hook_step (s, ph) (s', ph)
| hook_succeeds i s ph : ph !! i = Some Handling → hook_step (s, ph) (s, <[i := Done]> ph)
| hook_fails i s ph : ph !! i = Some Handling → hook_step (s, ph) (s, <[i := Undoing]> ph)
| hook_undoes i e event s s' r ph : ph !! i = Some Undoing → deliveries !! i = Some (e, event) →
    delete_document "webhook_events" (we_id event) s = (s', r) → hook_step (s, ph) (s', <[i := Undone]> ph).

Context (id : string) (one_event : Forall (λ d, we_id d.2 = id) deliveries).

(** At most one delivery is busy, and the record is there while one is. *)
Definition hook_inv (cfg : store * list hook_phase) : Prop :=
  (∀ i j p q, cfg.2 !! i = Some p → cfg.2 !! j = Some q → busy p = true → busy q = true → i = j)
  ∧ (∀ i p, cfg.2 !! i = Some p → busy p = true → is_Some (table_rows cfg.1 "webhook_events" !! id)).

Lemma event_named i e event : deliveries !! i = Some (e, event) → we_id event = id.
Proof. intros Hd. by apply (proj1 (Forall_lookup _ _) one_event i (e, event)). Qed.

(** A phase that changes from one that is not busy, to one that is as busy as
    it was, or to one that is not busy. *)
Lemma inv_change i p q s s' ph :
  hook_inv (s, ph) → ph !! i = Some p → (busy q = true → busy p = true) →
  (busy q = true ∨ busy p = false → table_rows s' "webhook_events" !! id = table_rows s "webhook_events" !! id) →
  hook_inv (s', <[i := q]> ph).
Proof.
  intros [Hu Hr] Hp Hq Hrows. split; cbn [fst snd] in *.
  - intros j k pj pk Hj Hk Bj Bk. apply list_lookup_insert_Some in Hj as [(<- & <- & _)|[Hj1 Hj2]];
      apply list_lookup_insert_Some in Hk as [(<- & <- & _)|[Hk1 Hk2]]; [done| | |]; eauto.
  - intros j pj Hj Bj. apply list_lookup_insert_Some in Hj as [(<- & <- & _)|[Hj1 Hj2]].
    + rewrite Hrows by auto. eauto.
    + rewrite Hrows; [by eauto|]. right. apply not_true_is_false. intros Bp. apply Hj1. eauto.
Qed.

Lemma hook_step_inv cfg cfg' : hook_step cfg cfg' → hook_inv cfg → hook_inv cfg'.
Proof.
  intros Hstep. destruct Hstep as [i e event s s' ph Hi Hd Hst|i e event s s' ph Hi Hd Hst|s s' ph Hk|i s ph Hi|i s ph Hi
    |i e event s s' r ph Hi Hd Hdel]; intros Hinv.
  - rewrite store_event, (event_named _ _ _ Hd) in Hst. destruct (valid_event_id id); [|done].
    destruct (table_rows s "webhook_events" !! id) eqn:Hn; [done|]. injection Hst as <-.
    destruct Hinv as [_ Hr]. cbn [fst snd] in Hr.
    assert (∀ j p, ph !! j = Some p → busy p = false) as Hidle.
    { intros j p Hj. apply not_true_is_false. intros Bp. destruct (Hr j p Hj Bp) as [row Hrow]. congruence. }
    split; cbn [fst snd].
    + intros j k pj pk Hj Hk Bj Bk. apply list_lookup_insert_Some in Hj as [(<- & <- & _)|[_ Hj]];
        apply list_lookup_insert_Some in Hk as [(<- & <- & _)|[_ Hk]]; [done|..];
        [by rewrite (Hidle _ _ Hk) in Bk|by rewrite (Hidle _ _ Hj) in Bj..].
    + intros j pj _ _. rewrite table_rows_insert, lookup_insert_eq. by eexists.
  - eapply inv_change; [exact Hinv|exact Hi|done|]. intros _. rewrite store_event in Hst.
    destruct (valid_event_id _); [|done]. destruct (table_rows s _ !! we_id event); [|done].
    injection Hst as <-. by rewrite table_rows_ensured.
  - destruct Hinv as [Hu Hr]. split; [done|]. cbn [fst snd] in *. by rewrite Hk.
  - by eapply inv_change.
  - by eapply inv_change.
  - eapply inv_change; [exact Hinv|exact Hi|done|]. intros [|]; done.
Qed.

Lemma hook_steps_inv cfg cfg' : rtc hook_step cfg cfg' → hook_inv cfg → hook_inv cfg'.
Proof. induction 1; eauto using hook_step_inv. Qed.

(** However the deliveries of one event interleave with each other and with
    whatever else runs, at most one of them is being handled, is being undone or
    has been handled. *)
Theorem deliveries_exclusive s s' ph i j p q :
  rtc hook_step (s, replicate (length deliveries) Arrived) (s', ph) →
  ph !! i = Some p → ph !! j = Some q → busy p = true → busy q = true → i = j.
Proof.
  intros Hsteps. assert (hook_inv (s', ph)) as [Hu _]; [|by apply Hu].
  eapply hook_steps_inv; [exact Hsteps|].
  split; cbn [fst snd]; [intros k l p1 p2 Hk _ B _|intros k p1 Hk B];
    apply lookup_replicate in Hk as [-> _]; discriminate B.
Qed.
End concurrent.

(** ** Concrete instances *)
Section hook_witnesses.
#[local] Instance demo_w_chrono : Chrono := plain_chrono.
#[local] Instance demo_w_json : PgJson := plain_json.
#[local] Instance demo_w_laws : PgJsonLaws demo_w_json := plain_json_laws.
#[local] Instance demo_w_text : TextLib := plain_textlib.
#[local] Instance demo_w_crypto : Crypto :=
  {| hmac_sha256 := λ k m, k +:+ ":" +:+ m; b64_encode := id; b64_decode := Some |}.
#[local] Instance demo_w_hex : HexLib := {| hex_encode := id; hex_decode := Some |}.

(** Events about the order o1. *)
Definition demo_object (id : string) : Value :=
  VObject [("object", VObject [("id", VString id); ("metadata", VObject [("order_id", VString "o1")]);
                               ("payment_intent", VString "pi_1")])].
Definition demo_events : list (string * StripeWebhookEvent) :=
  [("completed", {| we_id := "evt_1"; we_type := "checkout.session.completed"; we_data := demo_object "cs_1"; we_created := 9 |});
   ("intent", {| we_id := "evt_2"; we_type := "payment_intent.succeeded"; we_data := demo_object "pi_1"; we_created := 9 |});
   ("expired", {| we_id := "evt_3"; we_type := "checkout.session.expired"; we_data := demo_object "cs_1"; we_created := 9 |});
   ("unpaid", {| we_id := "evt_4"; we_type := "checkout.session.async_payment_failed"; we_data := demo_object "cs_1"; we_created := 9 |})].
Definition demo_parse (body : string) : outcome string StripeWebhookEvent :=
  match list_find (λ ev, ev.1 = body) demo_events with
  | Some (_, (_, event)) => Ok event
  | None => Err "expected value"
  end.
Definition demo_h_env : hook_env :=
  {| he_secret := Some "whsec"; he_secs := 1000; he_stored := 80; he_now := λ k, (90 + Z.of_nat k)%Z;
     he_clock := λ k, (100 + Z.of_nat k)%Z; he_fresh := λ k, "f" +:+ pretty k |}.
Definition demo_request (body : string) : webhook_request :=
  {| wr_signature := Some ("t=1000,v1=whsec:1000." +:+ body); wr_body := Ok body |}.
Definition no_injection (customer : string) (s : store) : string * Result (list Value) := ("users", Ok []).
Definition missing_column (column : string) : string := "column " +:+ column +:+ " does not exist".
Definition demo_hook (body : string) : handler hook_answer :=
  handle_stripe_webhook map_to_list no_injection missing_column "" demo_parse demo_h_env (demo_request body).
Definition hooked (bodies : list string) (s : store) : store := foldl (λ s body, (demo_hook body s).1) s bodies.
Definition order_field (field : string) (s : store) : option Value :=
  table_rows s "orders" !! "o1" ≫= λ row, get field (row_data row).

(** The event of a paid intent fails after it has confirmed the order; sent
    again it is accepted, and neither the intent nor the payment is recorded. *)
Example paid_intent_lost :
  let s1 := (demo_hook "intent" after_two).1 in let s2 := (demo_hook "intent" s1).1 in
  (demo_hook "intent" after_two).2 = Err (Database "Query failed: column paymentIntentId does not exist")
  ∧ order_field "orderStatus" s1 = Some (VString "confirmed")
  ∧ (demo_hook "intent" s1).2 = Ok {| ha_duplicate := false; ha_event_id := "evt_2" |}
  ∧ order_field "paymentIntentId" s2 = None ∧ order_field "paymentStatus" s2 = Some (VString "awaiting_payment").
Proof. by vm_compute. Qed.

(** A payment that fails later marks the order failed and keeps its stock; an
    expired session gives it back. *)
Example failed_payment_keeps_stock :
  stock_of demo_shop "p1" = Some 3%Z ∧ order_field "orderStatus" (hooked ["unpaid"] after_two) = Some (VString "failed")
  ∧ stock_of (hooked ["unpaid"] after_two) "p1" = Some 1%Z ∧ stock_of (hooked ["expired"] after_two) "p1" = Some 3%Z.
Proof. by vm_compute. Qed.

(** The stock is given back whether or not the status was changed: two events
    that read the order before either writes return it twice. *)
Example stale_read_restocks_twice :
  let order := default VNull (row_to_doc "o1" <$> table_rows after_two "orders" !! "o1") in
  let forsake new s := (abandon "" demo_h_env new true "o1" order s).1 in
  stock_of (forsake Order.Cancelled (forsake Order.Expired after_two)) "p1" = Some 5%Z.
Proof. by vm_compute. Qed.

(** A digital item took no stock, but its product is looked for: without a
    stock the event fails, the goods after it are not given back, and the event
    sent again is accepted. *)
Definition mixed_item (product : string) (digital : bool) : Value :=
  VObject [("isDigital", VBool digital); ("productId", VString product); ("quantity", of_i64 2)].
Definition mixed_store : store :=
  {["orders" := {["o1" := plain_row (VObject [("items", VArray [mixed_item "ebook" true; mixed_item "p1" false]);
                                              ("orderStatus", VString "pending")])]};
    "products" := {["p1" := product_row 2000 1; "ebook" := plain_row (VObject [("name", VString "Ebook")])]}]}.
Example digital_item_blocks_restock :
  let s1 := (demo_hook "expired" mixed_store).1 in let s2 := (demo_hook "expired" s1).1 in
  (demo_hook "expired" mixed_store).2 = Err (Database "Failed to restore stock for product ebook")
  ∧ order_field "orderStatus" s1 = Some (VString "expired") ∧ stock_of s1 "p1" = Some 1%Z
  ∧ (demo_hook "expired" s1).2 = Ok {| ha_duplicate := false; ha_event_id := "evt_3" |} ∧ stock_of s2 "p1" = Some 1%Z.
Proof. by vm_compute. Qed.

Lemma webhook_authentic_witness :
  ∃ secret body header, he_secret demo_h_env = Some secret ∧ wr_body (demo_request "completed") = Ok body
    ∧ wr_signature (demo_request "completed") = Some header ∧ authentic 1000 body header secret.
Proof.
  eapply (webhook_authentic map_to_list no_injection missing_column "" demo_parse demo_h_env (demo_request "completed") after_two).
  - by vm_compute.
  - apply surjective_pairing.
  - left. exists {| ha_duplicate := false; ha_event_id := "evt_1" |}. by vm_compute.
Defined.

Lemma demo_plain_events body event : demo_parse body = Ok event → plain_event event.
Proof.
  unfold demo_parse. destruct (list_find _ _) as [[i [b ev]]|] eqn:E; [|done]. intros [= <-].
  apply list_find_Some in E as (E & _ & _). unfold demo_events in E.
  do 4 (destruct i as [|i]; [cbn in E; injection E as <- <-; by vm_compute|]). done.
Qed.
Definition twice : list (hook_env * webhook_request) :=
  [(demo_h_env, demo_request "completed"); (demo_h_env, demo_request "expired"); (demo_h_env, demo_request "completed")].
Abbreviation twice_answers := (deliver_all map_to_list no_injection missing_column "" demo_parse twice after_two).2.
Lemma webhook_handled_once_witness :
  twice_answers = [Ok {| ha_duplicate := false; ha_event_id := "evt_1" |};
                   Ok {| ha_duplicate := false; ha_event_id := "evt_3" |};
                   Ok {| ha_duplicate := true; ha_event_id := "evt_1" |}]
  ∧ length (filter (λ r, handles "evt_1" r = true) twice_answers) ≤ 1.
Proof.
  split; [by vm_compute|].
  exact (webhook_handled_once map_to_list no_injection missing_column "" demo_parse demo_plain_events twice after_two "evt_1").
Defined.

Lemma after_two_plain : plain_orders after_two.
Proof.
  intros id [row Hrow]. destruct (decide (id = "o1")) as [->|Hne]; [by vm_compute|].
  assert (orders_of after_two = {["o1" := default (plain_row VNull) (orders_of after_two !! "o1")]}) as E by (by vm_compute).
  rewrite E, lookup_singleton_ne in Hrow by (clear -Hne; congruence). discriminate Hrow.
Qed.
Lemma webhooks_respect_orders_witness :
  option_Forall2 order_kept (orders_of after_two !! "o1")
    (orders_of (deliver_all map_to_list no_injection missing_column "" demo_parse twice after_two).1 !! "o1").
Proof.
  apply (webhooks_respect_orders map_to_list demo_scan no_injection missing_column "" demo_parse twice after_two "o1").
  apply after_two_plain.
Defined.

Definition placed_o1 : DocRow := default (plain_row VNull) (orders_of after_two !! "o1").
Lemma placed_o1_row : orders_of after_two !! "o1" = Some placed_o1.
Proof. evaluates. Qed.
Lemma shop_p1 : stocked demo_shop "p1" 3.
Proof. exists (product_row 2000 3). split_and!; [evaluates|evaluates|done..]. Qed.
Lemma only_o1 i r : orders_of after_two !! i = Some r → i ≠ "o1" → field_text "orderId" (row_data r) ≠ Some "o1".
Proof.
  intros Hr Hne.
  assert (orders_of after_two = {["o1" := placed_o1]}) as E by (by vm_compute).
  rewrite E, lookup_singleton_ne in Hr by (clear -Hne; congruence). discriminate Hr.
Qed.

Lemma expired_session_undoes_checkout_witness :
  ∃ s2 row', handle_checkout_session_expired map_to_list "" demo_h_env (demo_object "cs_1") after_two = (s2, Ok tt)
    ∧ orders_of s2 !! "o1" = Some row' ∧ status_text row' = "expired"
    ∧ (∀ pid n, stocked demo_shop pid n → (order_units pid (row_data placed_o1) ≤ n)%Z → stocked s2 pid n)
    ∧ ∀ i r, table_rows s2 "coupon_uses" !! i = Some r → reserved_use "o1" r = false.
Proof.
  eapply (expired_session_undoes_checkout map_to_list demo_scan "" "" id id (λ _ _, Ok tt) demo_stripe
    (demo_k_env "o1" "l1") (admin_auth "ann") two_of_p1 demo_shop after_two (demo_response 637) demo_h_env
    (demo_object "cs_1") (default VNull (get "object" (demo_object "cs_1"))) "cs_1" "" placed_o1).
  - apply demo_placed.
  - reflexivity.
  - reflexivity.
  - evaluates.
  - intros i r Hr. assert (orders_of demo_shop = ∅) as E by evaluates. rewrite E, lookup_empty in Hr. discriminate Hr.
  - apply placed_o1_row.
  - apply (bool_decide_unpack _). by vm_compute.
  - intros pid Hpid. destruct (decide (pid = "p1")) as [->|Hne].
    + exists 3%Z. split; [apply shop_p1|by vm_compute].
    + exfalso. assert (order_units pid (row_data placed_o1) = (if "p1" =s? pid then 2 else 0) + 0)%Z as E by reflexivity.
      rewrite E in Hpid. destruct ("p1" =s? pid) eqn:Eq; [|lia]. apply str_eqb_eq in Eq. congruence.
Defined.

Lemma completed_session_confirms_witness :
  ∃ s' row', handle_checkout_session_completed map_to_list "" demo_h_env (demo_object "cs_1") after_two = (s', Ok tt)
    ∧ orders_of s' !! "o1" = Some row' ∧ status_text row' = "confirmed".
Proof.
  destruct (completed_session_confirms map_to_list demo_scan "" demo_h_env (demo_object "cs_1")
    (default VNull (get "object" (demo_object "cs_1"))) "cs_1" "o1" "" after_two placed_o1
    (default [] (as_object (row_data placed_o1)))) as (s' & row' & Hrun & Hrow & Hst & _).
  - reflexivity.
  - evaluates.
  - apply placed_o1_row.
  - evaluates.
  - evaluates.
  - apply only_o1.
  - exists s', row'. split_and!; [exact Hrun|exact Hrow|exact Hst].
Defined.

Definition demo_event : StripeWebhookEvent :=
  {| we_id := "evt_1"; we_type := "checkout.session.completed"; we_data := VNull; we_created := 0 |}.
Definition two_deliveries : list (hook_env * StripeWebhookEvent) := [(demo_h_env, demo_event); (demo_h_env, demo_event)].
Definition one_stored : store := (try_store_webhook_event_atomic demo_h_env demo_event ∅).1.
Lemma one_handled : rtc (hook_step two_deliveries) (∅, [Arrived; Arrived]) (one_stored, [Done; Skipped]).
Proof.
  eapply rtc_l; [apply (hook_stores two_deliveries 0 demo_h_env demo_event ∅ one_stored [Arrived; Arrived] eq_refl eq_refl); evaluates|].
  eapply rtc_l; [apply (hook_skips two_deliveries 1 demo_h_env demo_event one_stored one_stored [Handling; Arrived] eq_refl eq_refl); evaluates|].
  eapply rtc_l; [apply (hook_succeeds two_deliveries 0 one_stored [Handling; Skipped] eq_refl)|]. reflexivity.
Qed.
Lemma deliveries_exclusive_witness :
  rtc (hook_step two_deliveries) (∅, [Arrived; Arrived]) (one_stored, [Done; Skipped]) ∧ 0 = 0.
Proof.
  split; [apply one_handled|].
  eapply (deliveries_exclusive two_deliveries "evt_1" ltac:(by repeat constructor) ∅ one_stored [Done; Skipped] 0 0 Done Done).
  - apply one_handled.
  - reflexivity.
  - reflexivity.
  - reflexivity.
  - reflexivity.
Defined.
End hook_witnesses.
