(* ===== verification/Premium.v ===== *)
(** * Premium subscriptions

    The endpoints of crates/ob-handlers/src/payments/subscriptions.rs: to start,
    cancel and reactivate a subscription, to read its status and to set the
    notification preferences.  [Subscriptions] holds the part of that file that
    Stripe's events reach.  Stripe is a parameter: a function from what is sent
    to the reply.  The statements that PostgreSQL refuses (a column that is not
    there, the syntax of another database) are modelled as refused. *)

From S2P Require Export Float Webhooks.

(** ** Requests and responses *)

Record CreateSubscriptionRequest : Type := {
  cs_user_id : option string; cs_interval : option string; cs_payment_method_id : option string }.
Record CreateSubscriptionResponse : Type := {
  cs_success : bool; cs_subscription_id : option string; cs_checkout_url : option string;
  cs_client_secret : option string; cs_status : string }.
(** The responses to a cancellation and to a reactivation. *)
Record SubscriptionChanged : Type := { sc_success : bool; sc_status : string }.
Record SubscriptionStatusResponse : Type := {
  ss_success : bool; ss_is_premium : bool; ss_status : string;
  ss_current_period_end : option string; ss_stripe_subscription_id : option string }.
Record SubscriptionNotificationPrefsRequest : Type := {
  np_user_id : option string; np_notify_new_products : option bool; np_notify_trending : option bool }.

(** ** Constants *)

Definition PREMIUM_SUBSCRIPTION_PRICE_CAD : f64 := default (f64_of_Z 0) (parse_f64 "7.86").
Definition PREMIUM_PRICE_CENTS : Z := f64_as_i64 (f64_mul PREMIUM_SUBSCRIPTION_PRICE_CAD (f64_of_Z 100)).
Definition SUBSCRIPTION_BENEFITS_DELAY_HOURS : Z := 48.
Definition MAX_EARLY_CANCELS : Z := 3.
Definition EARLY_CANCEL_DAYS : Z := 7.

(** What attaching a payment method comes to. *)
Inductive attach_reply : Type :=
| AttachSendFailed (error : string)
| AttachRefused (body : string)
| Attached.

Record premium_env : Type := {
  qe_test_mode : bool;
  qe_stripe_key : option string;
  qe_base_url : string;            (** OB_BASE_URL, or the address of the server *)
  qe_secs : Z; qe_limit_id : string; qe_limit_now : Z;   (** the limiter's *)
  qe_now : nat → Z;                (** [Utc::now()], in order *)
  qe_clock : nat → Z;              (** the database's clock at each write *)
}.

Section premium.
Context `{C : Chrono} `{P : PgJson} `{T : TextLib}.
Context (pg_invalid_bigint : string) (pg_undefined_column : string → string).
Context (scan : rows → list (string * DocRow)).
(** The rows of a table by creation time, the latest first. *)
Context (latest : rows → list (string * DocRow)).
(** Stripe: customers, checkout sessions, payment methods and subscriptions to
    create, and the flag [cancel_at_period_end] of a subscription to set. *)
Context (stripe_customers stripe_checkouts stripe_subscriptions : list (string * string) → api_reply).
Context (stripe_attach : string → string → attach_reply) (stripe_period_end : string → bool → api_reply).
(** The table that the text of the malformed statement of a cancellation makes
    the store create, for a user id that is not one plain word. *)
Context (stray_table : string → option string).

Definition normalize_subscription_interval (interval : option string) : Result string :=
  let other := lower (trim (default "monthly" interval)) in
  if bool_decide (other ∈ ["month"; "monthly"]) then Ok "month"
  else if bool_decide (other ∈ ["year"; "yearly"; "annual"; "annually"]) then Ok "year"
  else Err (Validation ("interval must be one of monthly/yearly; got " +:+ other)).

Definition premium_key (e : premium_env) : Result string :=
  ok_or (Config "Missing required secret: stripe_secret_key") (qe_stripe_key e).
(** The reply to a request: its body, or the error of a failure. *)
Definition replied (refused : string) (reply : api_reply) : Result Value :=
  match reply with
  | ApiSendFailed err => Err (Internal ("Stripe API error: " +:+ err))
  | ApiRefused => Err (Internal refused)
  | ApiNotJson err => Err (Internal ("Parse error: " +:+ err))
  | ApiBody body => Ok body
  end.

Definition customer_form (user_id : string) (user : Value) : list (string * string) :=
  [("email", str_field user "email"); ("name", str_field user "name"); ("metadata[user_id]", user_id)].
Definition ensure_customer (e : premium_env) (user_id : string) : handler string :=
  user ← db_map_err (λ _, NotFound ("User " +:+ user_id +:+ " not found")) (get_document "users" user_id);
  let existing := str_field user "customerId" in
  if negb (str_empty existing) then pure (Ok existing)
  else
    customer ← pure (replied "Failed to create Stripe customer" (stripe_customers (customer_form user_id user)));
    customer_id ← pure (ok_or (Internal "Missing customer ID from Stripe") (get "id" customer ≫= as_str));
    _ ← db (update_document "users" user_id
          (VObject [("customerId", VString customer_id); ("updatedAt", VString (to_rfc3339 (qe_now e 0)))]) (qe_clock e 0));
    pure (Ok customer_id).

Definition bought_by (user_id : string) (row : DocRow) : bool :=
  bool_decide (field_text "buyerId" (row_data row) = Some user_id).
Definition get_user_subscription (user_id : string) : handler (option Value) :=
  doc ← attempt (get_document "subscriptions" (bare_id "users" user_id));
  match doc with
  | Some doc => pure (Ok (Some doc))
  | None =>
      _ ← pure (validate_record_id user_id);
      docs ← select_where latest "subscriptions" (bought_by user_id);
      pure (Ok (head docs))
  end.

(** ** To subscribe *)

Definition has_active (user_id : string) (row : DocRow) : bool :=
  bought_by user_id row
  && (bool_decide (field_text "status" (row_data row) = Some "active")
      || bool_decide (field_text "subscriptionStatus" (row_data row) = Some "active")).
(** [SELECT earlyCancelCount FROM users WHERE id = $uid], its error ignored, and
    the active subscription. *)
Definition may_subscribe (user_id : string) : handler unit :=
  abuse_results ← attempt (unknown_column pg_undefined_column "users" "earlyCancelCount");
  let early_cancel_count :=
    default 0%Z ((head (default [] abuse_results) ≫= get "earlyCancelCount") ≫= as_i64) in
  if (MAX_EARLY_CANCELS <=? early_cancel_count)%Z then
    pure (Err (Validation "Too many short-term subscriptions. Please contact support@orignagta.ca."))
  else
    existing ← select_first scan "subscriptions" (λ _, has_active user_id);
    pure (match existing with
          | Some existing => Err (Validation ("User already has an active subscription: "
                                              +:+ default "unknown" (get "id" existing ≫= as_str)))
          | None => Ok tt
          end).

Definition checkout_form (e : premium_env) (customer_id user_id recurring_interval : string) : list (string * string) :=
  [("customer", customer_id);
   ("line_items[0][price_data][currency]", "cad");
   ("line_items[0][price_data][unit_amount]", pretty PREMIUM_PRICE_CENTS);
   ("line_items[0][price_data][product_data][name]", "Origna Premium Subscription");
   ("line_items[0][quantity]", "1");
   ("line_items[0][price_data][recurring][interval]", recurring_interval);
   ("mode", "subscription");
   ("success_url", qe_base_url e +:+ "/subscription/success?session_id={CHECKOUT_SESSION_ID}");
   ("cancel_url", qe_base_url e +:+ "/subscription/cancel");
   ("client_reference_id", user_id); ("metadata[uid]", user_id); ("subscription_data[metadata][uid]", user_id);
   ("payment_method_types[0]", "card")].
Definition is_seller (user : Value) : bool :=
  existsb (λ role, bool_decide (as_str role = Some "seller")) (default [] (get "roles" user ≫= as_array)).
Definition subscribe_by_checkout (e : premium_env) (customer_id user_id recurring_interval : string) :
    handler CreateSubscriptionResponse :=
  user ← db (get_document "users" user_id);
  if is_seller user then pure (Err (Validation "Seller accounts cannot currently subscribe to Premium."))
  else
    session ← pure (replied "Failed to create subscription checkout session"
                      (stripe_checkouts (checkout_form e customer_id user_id recurring_interval)));
    let checkout_url := str_field session "url" in
    if str_empty checkout_url then pure (Err (Internal "Stripe did not return a checkout URL"))
    else
      let now := VString (to_rfc3339 (qe_now e 1)) in
      _ ← ignored (update_document "users" user_id
            (VObject [("lastCheckoutSession", VString checkout_url); ("lastCheckoutTimestamp", now); ("updatedAt", now)])
            (qe_clock e 1));
      pure (Ok {| cs_success := true; cs_subscription_id := Some (str_field session "id");
                  cs_checkout_url := Some checkout_url; cs_client_secret := None; cs_status := "checkout_pending" |}).

Definition attach (payment_method_id customer_id : string) : Result unit :=
  match stripe_attach payment_method_id customer_id with
  | AttachSendFailed err => Err (Internal ("Stripe API error: " +:+ err))
  | AttachRefused body =>
      if negb (str_contains "already been attached" body) then Err (Internal "Failed to attach payment method") else Ok tt
  | Attached => Ok tt
  end.
Definition subscription_form (customer_id user_id recurring_interval : string) : list (string * string) :=
  [("customer", customer_id);
   ("items[0][price_data][currency]", "cad");
   ("items[0][price_data][unit_amount]", pretty PREMIUM_PRICE_CENTS);
   ("items[0][price_data][recurring][interval]", recurring_interval);
   ("items[0][price_data][product_data][name]", "Origna Premium Subscription");
   ("payment_behavior", "default_incomplete");
   ("expand[0]", "latest_invoice.payment_intent");
   ("metadata[user_id]", user_id)].
Definition stored_status (sub_status : string) : string :=
  if sub_status =s? subscription_status_str Subscription.Active
  then subscription_status_str Subscription.Active else "incomplete".
Definition sub_doc (e : premium_env) (user_id : string) (sub : Value) : list (string * Value) :=
  let now := VString (to_rfc3339 (qe_now e 1)) in
  let status := VString (stored_status (default "incomplete" (get "status" sub ≫= as_str))) in
  filter (λ kv, is_null kv.2 = false)
    [("benefitsActiveAt", of_i64 (i64_add (timestamp (qe_now e 2)) (SUBSCRIPTION_BENEFITS_DELAY_HOURS * 3600)));
     ("buyerId", VString user_id); ("cancelAtPeriodEnd", VBool false); ("createdAt", now);
     ("currentPeriodEnd", of_i64 (cents sub "current_period_end")); ("status", status);
     ("stripeSubscriptionId", VString (str_field sub "id")); ("subscriptionStatus", status); ("updatedAt", now)].
Definition client_secret_of (sub : Value) : option string :=
  ((get "latest_invoice" sub ≫= get "payment_intent") ≫= get "client_secret") ≫= as_str.
(** Stripe is also told the default payment method, whatever it answers. *)
Definition subscribe_directly (e : premium_env) (payment_method_id customer_id user_id recurring_interval : string) :
    handler CreateSubscriptionResponse :=
  _ ← pure (attach payment_method_id customer_id);
  sub ← pure (replied "Failed to create subscription"
                (stripe_subscriptions (subscription_form customer_id user_id recurring_interval)));
  let sub_status := default "incomplete" (get "status" sub ≫= as_str) in
  _ ← db_map_err (λ err, Database ("Failed to store subscription: " +:+ error_to_string err))
        (upsert_document "subscriptions" (bare_id "users" user_id) (VObject (sub_doc e user_id sub)) (qe_clock e 1));
  _ ← (if sub_status =s? subscription_status_str Subscription.Active then
         ignored (update_document "users" user_id
           (VObject [("isPremium", VBool true); ("updatedAt", VString (to_rfc3339 (qe_now e 1)))]) (qe_clock e 2))
       else pure (Ok tt));
  pure (Ok {| cs_success := true; cs_subscription_id := Some (str_field sub "id"); cs_checkout_url := None;
              cs_client_secret := client_secret_of sub; cs_status := sub_status |}).

Definition premium_limit (e : premium_env) (user_id action : string) (max : nat) (window : Z) : handler unit :=
  check_user_rate_limit pg_invalid_bigint (qe_test_mode e) user_id action max window
    (qe_secs e) (qe_limit_id e) (qe_limit_now e).
Definition create_subscription (e : premium_env) (auth : AuthContext) (req : CreateSubscriptionRequest) :
    handler CreateSubscriptionResponse :=
  user_id ← pure (resolve_self_user_id auth (cs_user_id req) "userId");
  recurring_interval ← pure (normalize_subscription_interval (cs_interval req));
  _ ← pure (validate_uid "userId" user_id);
  _ ← pure (match cs_payment_method_id req with Some pm => validate_uid "paymentMethodId" pm | None => Ok tt end);
  _ ← premium_limit e user_id "create_subscription" 5 60;
  _ ← may_subscribe user_id;
  _ ← pure (premium_key e);
  customer_id ← ensure_customer e user_id;
  match cs_payment_method_id req with
  | None => subscribe_by_checkout e customer_id user_id recurring_interval
  | Some pm => subscribe_directly e pm customer_id user_id recurring_interval
  end.

(** ** To cancel, to reactivate *)

Definition sub_status_of (sub_doc : Value) : option string :=
  match get "status" sub_doc with Some v => Some v | None => get "subscriptionStatus" sub_doc end ≫= as_str.
(** The common start: the subscription of the caller and its id at Stripe. *)
Definition own_subscription (e : premium_env) (auth : AuthContext) (provided : option string) (action : string) :
    handler (string * Value * string) :=
  user_id ← pure (resolve_self_user_id auth provided "userId");
  _ ← pure (validate_uid "userId" user_id);
  _ ← premium_limit e user_id action 5 60;
  found ← get_user_subscription user_id;
  sub_doc ← pure (ok_or (NotFound "No subscription found") found);
  let stripe_sub_id := str_field sub_doc "stripeSubscriptionId" in
  if str_empty stripe_sub_id then pure (Err (Internal "Subscription has no Stripe ID"))
  else pure (Ok (user_id, sub_doc, stripe_sub_id)).
(** The reply is not parsed. *)
Definition set_period_end (e : premium_env) (refused stripe_sub_id : string) (cancel : bool) : Result unit :=
  _ ← premium_key e;
  match stripe_period_end stripe_sub_id cancel with
  | ApiSendFailed err => Err (Internal ("Stripe API error: " +:+ err))
  | ApiRefused => Err (Internal refused)
  | ApiNotJson _ | ApiBody _ => Ok tt
  end.

Definition days_active (e : premium_env) (sub_doc : Value) : Z :=
  let sub_created_at := default 0%Z (timestamp <$> ((get "createdAt" sub_doc ≫= as_str) ≫= parse_rfc3339)) in
  (i64_sub (timestamp (qe_now e 0)) sub_created_at `quot` 86400)%Z.
Definition is_plain_word (s : string) : bool := str_forall (λ c, (byte_of c <? 128)%N && negb (is_blank c)) s.
(** [UPDATE users:<user_id> SET earlyCancelCount += 1], a syntax error; its table
    is created first if the text names one. *)
Definition count_early_cancel (user_id : string) : handler unit := λ s,
  (match (if is_plain_word user_id then None else stray_table user_id) with
   | Some table => (ensure_table table s).1 | None => s end, Ok tt).
Definition cancel_doc (e : premium_env) (sub_doc : Value) : Value :=
  let pending := VString (subscription_status_str Subscription.CancelPending) in
  let now := VString (to_rfc3339 (qe_now e 1)) in
  VObject [("cancelAtPeriodEnd", VBool true); ("cancelledAt", now);
           ("cancelsAt", of_i64 (default (timestamp (qe_now e 0)) (i64_field "currentPeriodEnd" sub_doc)));
           ("status", pending); ("subscriptionStatus", pending); ("updatedAt", now)].
Definition cancel_subscription (e : premium_env) (auth : AuthContext) (provided : option string) :
    handler SubscriptionChanged :=
  '(user_id, sub_doc, stripe_sub_id) ← own_subscription e auth provided "cancel_subscription";
  let answer st := Ok {| sc_success := true; sc_status := subscription_status_str st |} in
  if default "" (sub_status_of sub_doc) =s? subscription_status_str Subscription.Cancelled
  then pure (answer Subscription.Cancelled)
  else
    _ ← pure (set_period_end e "Failed to cancel subscription" stripe_sub_id true);
    _ ← (if (days_active e sub_doc <? EARLY_CANCEL_DAYS)%Z then count_early_cancel user_id else pure (Ok tt));
    _ ← ignored (update_document "subscriptions" (bare_id "users" user_id) (cancel_doc e sub_doc) (qe_clock e 0));
    pure (answer Subscription.CancelPending).

Definition reactivate_doc (e : premium_env) : Value :=
  let active := VString (subscription_status_str Subscription.Active) in
  VObject [("cancelAtPeriodEnd", VBool false); ("status", active); ("subscriptionStatus", active);
           ("updatedAt", VString (to_rfc3339 (qe_now e 0)))].
Definition reactivate_subscription (e : premium_env) (auth : AuthContext) (provided : option string) :
    handler SubscriptionChanged :=
  '(user_id, sub_doc, stripe_sub_id) ← own_subscription e auth provided "reactivate_subscription";
  let current_status := default "" (sub_status_of sub_doc) in
  let answer := pure (Ok {| sc_success := true; sc_status := subscription_status_str Subscription.Active |}) in
  if current_status =s? subscription_status_str Subscription.Active then answer
  else if current_status =s? subscription_status_str Subscription.Expired then
    pure (Err (Validation "Cannot reactivate an expired subscription. Please create a new one."))
  else
    _ ← pure (set_period_end e "Failed to reactivate subscription" stripe_sub_id false);
    _ ← ignored (update_document "subscriptions" (bare_id "users" user_id) (reactivate_doc e) (qe_clock e 0));
    _ ← ignored (update_document "users" user_id
          (VObject [("isPremium", VBool true); ("updatedAt", VString (to_rfc3339 (qe_now e 0)))]) (qe_clock e 1));
    answer.

(** ** To read the status, to set preferences *)

(** [DateTime::from_timestamp(ts, 0)], printed. *)
Definition printed_time (ts : Z) : string :=
  if (utc_min <=? ts * micros_per_sec)%Z && (ts * micros_per_sec <=? utc_max)%Z
  then to_rfc3339 (ts * micros_per_sec) else "".
Definition status_of_doc (doc : Value) : SubscriptionStatusResponse :=
  let status := default "unknown" (sub_status_of doc) in
  {| ss_success := true; ss_is_premium := status =s? subscription_status_str Subscription.Active; ss_status := status;
     ss_current_period_end := printed_time <$> i64_field "currentPeriodEnd" doc;
     ss_stripe_subscription_id := get "stripeSubscriptionId" doc ≫= as_str |}.
Definition subscription_status (e : premium_env) (auth : AuthContext) (provided : option string) :
    handler SubscriptionStatusResponse :=
  user_id ← pure (resolve_self_user_id auth provided "userId");
  _ ← pure (validate_uid "userId" user_id);
  _ ← premium_limit e user_id "subscription_status" 30 1;
  found ← get_user_subscription user_id;
  pure (Ok (match found with
            | None => {| ss_success := true; ss_is_premium := false; ss_status := "none";
                         ss_current_period_end := None; ss_stripe_subscription_id := None |}
            | Some doc => status_of_doc doc
            end)).

Definition preference (field : string) (v : option bool) : list (string * Value) :=
  match v with Some b => [(field, VBool b)] | None => [] end.
Definition update_notification_preferences (e : premium_env) (auth : AuthContext)
    (req : SubscriptionNotificationPrefsRequest) : handler unit :=
  user_id ← pure (resolve_self_user_id auth (np_user_id req) "userId");
  _ ← pure (validate_uid "userId" user_id);
  _ ← premium_limit e user_id "update_notification_preferences" 10 1;
  match np_notify_new_products req, np_notify_trending req with
  | None, None => pure (Err (Validation "At least one notification preference must be provided"))
  | new_products, trending =>
      _ ← db (update_document "users" user_id
            (VObject (preference "notifyNewProducts" new_products ++ preference "notifyTrending" trending
                      ++ [("updatedAt", VString (to_rfc3339 (qe_now e 0)))])) (qe_clock e 0));
      pure (Ok tt)
  end.

(** [SELECT data->>'benefitsActiveAt' .., data->>'status' .. LIMIT 1]: a row of
    texts; a NULL is left out. *)
Definition benefits_row (row : DocRow) : Value :=
  let column name := match field_text name (row_data row) with Some t => [(name, VString t)] | None => [] end in
  match column "benefitsActiveAt" ++ column "status" with [] => VNull | obj => VObject obj end.
Definition is_subscription_benefits_active (user_id : string) (now_secs : Z) (s : store) : bool :=
  let s := (ensure_table "subscriptions" s).1 in
  match filter (λ kr : string * DocRow, has_active user_id kr.2 = true) (scan (table_rows s "subscriptions")) with
  | [] => false
  | (_, row) :: _ => (default i64_max (get "benefitsActiveAt" (benefits_row row) ≫= as_i64) <=? now_secs)%Z
  end.

(** ** A call of the endpoints *)
Inductive premium_call : Type :=
| Subscribe (req : CreateSubscriptionRequest)
| Cancel (user_id : option string)
| Reactivate (user_id : option string)
| ReadStatus (user_id : option string)
| SetPreferences (req : SubscriptionNotificationPrefsRequest).
Definition call_premium (e : premium_env) (auth : AuthContext) (call : premium_call) : handler unit :=
  match call with
  | Subscribe req => _ ← create_subscription e auth req; pure (Ok tt)
  | Cancel user_id => _ ← cancel_subscription e auth user_id; pure (Ok tt)
  | Reactivate user_id => _ ← reactivate_subscription e auth user_id; pure (Ok tt)
  | ReadStatus user_id => _ ← subscription_status e auth user_id; pure (Ok tt)
  | SetPreferences req => update_notification_preferences e auth req
  end.

Definition sub_key (user_id : string) : string := bare_id "subscriptions" (bare_id "users" user_id).
Abbreviation subs_of s := (table_rows s "subscriptions").

(** *** Whose documents are written *)

(** The documents of others: the limiter's records apart, those that are not the
    user document or the subscription of the caller. *)
Definition of_others (user_id c id : string) : Prop :=
  c ≠ "rate_limits" ∧ (c, id) ≠ ("users", bare_id "users" user_id) ∧ (c, id) ≠ ("subscriptions", sub_key user_id).

Lemma resolve_self_ok auth provided field user_id :
  resolve_self_user_id auth provided field = Ok user_id → user_id = auth_user_id auth.
Proof.
  unfold resolve_self_user_id, require_authenticated, must_match. destruct (negb _ || _); [done|].
  cbn [mbind outcome_bind]. intros H. cases_ok H; congruence.
Qed.

Section own_documents.
Context (u : string).
Abbreviation spared := (spares (of_others u)).

Lemma spares_limit e user_id action max window : spared (premium_limit e user_id action max window).
Proof. apply spares_keeps. intros c id (Hc & _). by apply keeps_rate_limit. Qed.
Lemma spares_select f table p : spared (select_where f table p).
Proof. apply spares_keeps. intros c id _. apply keeps_select. Qed.
Lemma spares_select_first table p : spared (select_first scan table p).
Proof. apply spares_keeps. intros c id _. apply keeps_select_first. Qed.
Lemma spares_user id data now : bare_id "users" id = bare_id "users" u → spared (db (update_document "users" id data now)).
Proof. intros Hid. apply spares_update. intros (_ & H & _). by rewrite Hid in H. Qed.
Lemma spares_sub data now : spared (db (update_document "subscriptions" (bare_id "users" u) data now)).
Proof. apply spares_update. intros (_ & _ & H). by apply H. Qed.
Lemma spares_sub_upsert data now : spared (db (upsert_document "subscriptions" (bare_id "users" u) data now)).
Proof. apply spares_upsert; [done|]. intros (_ & _ & H). by apply H. Qed.
Lemma spares_early_cancel id : spared (count_early_cancel id).
Proof. intros s c k _. unfold count_early_cancel. case_match; cbn [fst]; [by rewrite keeps_ensure_first|done]. Qed.
Lemma spares_unknown table column : spared (unknown_column pg_undefined_column table column).
Proof. apply spares_keeps. intros c id _. apply keeps_unknown. Qed.
End own_documents.

(** One step through a handler that only touches the caller's documents. *)
Ltac spare :=
  lazymatch goal with
  | |- spares _ (pure ?r ≫= _) => apply spares_pure_bind; intros ? ?
  | |- spares _ (_ ≫= _) => apply spares_bind; [|intros ?]
  | |- spares _ (pure _) => apply spares_pure
  | |- spares _ (premium_limit _ _ _ _ _) => apply spares_limit
  | |- spares _ (select_where _ _ _) => apply spares_select
  | |- spares _ (select_first _ _ _) => apply spares_select_first
  | |- spares _ (unknown_column _ _ _) => apply spares_unknown
  | |- spares _ (db (unknown_column _ _ _)) => apply spares_unknown
  | |- spares _ (count_early_cancel _) => apply spares_early_cancel
  | |- spares _ (ignored _) => apply spares_ignored
  | |- spares _ (attempt _) => apply spares_attempt
  | |- spares _ (db_map_err _ _) => apply spares_map_err
  | |- spares _ (db (get_document _ _)) => apply spares_get
  | |- spares _ (db (update_document "users" _ _ _)) => by apply spares_user
  | |- spares _ (db (update_document "subscriptions" _ _ _)) => apply spares_sub
  | |- spares _ (db (upsert_document "subscriptions" _ _ _)) => apply spares_sub_upsert
  | |- spares _ (match ?x with _ => _ end) => destruct x
  end.

Lemma spares_customer u e : spares (of_others u) (ensure_customer e u).
Proof. unfold ensure_customer. repeat spare. Qed.
Lemma spares_get_subscription u id : spares (of_others u) (get_user_subscription id).
Proof. unfold get_user_subscription. repeat spare. Qed.
Lemma spares_may_subscribe u id : spares (of_others u) (may_subscribe id).
Proof. unfold may_subscribe. cbv zeta. repeat spare. Qed.
Lemma spares_checkout u e customer_id interval : spares (of_others u) (subscribe_by_checkout e customer_id u interval).
Proof. unfold subscribe_by_checkout. cbv zeta. repeat spare. Qed.
Lemma spares_direct u e pm customer_id interval : spares (of_others u) (subscribe_directly e pm customer_id u interval).
Proof. unfold subscribe_directly. cbv zeta. repeat spare. Qed.
Lemma spares_own_subscription u e auth provided action : spares (of_others u) (own_subscription e auth provided action).
Proof. unfold own_subscription. repeat first [spare|apply spares_get_subscription]. Qed.

Lemma own_subscription_user e auth provided action s s' user_id doc sid :
  own_subscription e auth provided action s = (s', Ok (user_id, doc, sid)) → user_id = auth_user_id auth.
Proof.
  intros H. unfold own_subscription in H. do 5 run_inv H. cbv zeta in H.
  destruct (str_empty _); [done|]. injection H as _ -> _ _. by eapply resolve_self_ok.
Qed.
Lemma spares_for_own {A} e auth provided action (k : string * Value * string → handler A) :
  (∀ doc sid, spares (of_others (auth_user_id auth)) (k (auth_user_id auth, doc, sid))) →
  spares (of_others (auth_user_id auth)) (own_subscription e auth provided action ≫= k).
Proof.
  intros Hk s c id Hc. pose proof (spares_own_subscription (auth_user_id auth) e auth provided action s c id Hc) as Ho.
  unfold mbind, handler_bind. destruct (own_subscription _ _ _ _ s) as [s1 [[[x doc] sid]|err|]] eqn:E; [|done..].
  apply own_subscription_user in E as ->. by rewrite Hk.
Qed.

(** Whoever calls an endpoint of the subscriptions, with whatever request and
    whatever Stripe answers, whether it succeeds or fails: apart from the records
    of the limiter, only the caller's own user document and subscription are
    written. *)
Theorem premium_own_documents e auth call s c id :
  of_others (auth_user_id auth) c id →
  table_rows (call_premium e auth call s).1 c !! id = table_rows s c !! id.
Proof.
  revert s c id. change (spares (of_others (auth_user_id auth)) (call_premium e auth call)).
  destruct call; cbn [call_premium];
    unfold create_subscription, cancel_subscription, reactivate_subscription, subscription_status, update_notification_preferences.
  - apply spares_bind; [|done]. spare. apply resolve_self_ok in H as ->.
    repeat first [spare|apply spares_may_subscribe|apply spares_customer|apply spares_checkout|apply spares_direct].
  - apply spares_bind; [|done]. apply spares_for_own. intros doc sid. cbv zeta. repeat spare.
  - apply spares_bind; [|done]. apply spares_for_own. intros doc sid. cbv zeta. repeat spare.
  - apply spares_bind; [|done]. repeat first [spare|apply spares_get_subscription].
  - spare. apply resolve_self_ok in H as ->. repeat spare.
Qed.

(** *** The life of a subscription

    The specification: a subscription is its status, and each call has its own
    steps.  With a payment method a subscription is started when it is not active;
    it is cancelled when it is not cancelled already, and reactivated unless it is
    active or expired.  No other call has a step. *)
Inductive sub_step : premium_call → option string → option string → Prop :=
| step_subscribe req st st' :
    is_Some (cs_payment_method_id req) → st ≠ Some "active" → st' ∈ ["active"; "incomplete"] →
    sub_step (Subscribe req) st (Some st')
| step_cancel who st : st ≠ Some "cancelled" → sub_step (Cancel who) st (Some "cancel_pending")
| step_reactivate who st : st ≠ Some "active" → st ≠ Some "expired" → sub_step (Reactivate who) st (Some "active").

(** What a call that succeeds has brought about. *)
Definition achieved (call : premium_call) (st : option string) : Prop :=
  match call with
  | Subscribe req => is_Some (cs_payment_method_id req) → st ∈ [Some "active"; Some "incomplete"]
  | Cancel _ => st ∈ [Some "cancel_pending"; Some "cancelled"]
  | Reactivate _ => st = Some "active"
  | ReadStatus _ | SetPreferences _ => True
  end.

(** The status of each subscription, kept under the id of its user. *)
Definition status_at (rs : rows) (id : string) : option string := rs !! id ≫= λ row, sub_status_of (row_data row).
Definition subs_wf (rs : rows) : Prop :=
  map_Forall (λ id row, (∃ m, row_data row = VObject m) ∧ get "buyerId" (row_data row) = Some (VString id)) rs.
Definition moves (call : premium_call) (u : string) (rs rs' : rows) : Prop :=
  subs_wf rs → subs_wf rs' ∧ ∀ id, status_at rs' id = status_at rs id
                                  ∨ id = u ∧ sub_step call (status_at rs u) (status_at rs' u).

Lemma moves_refl call u rs : moves call u rs rs.
Proof. intros H. split; [done|]. by left. Qed.

Lemma moves_insert call u rs row' :
  (∃ m, row_data row' = VObject m) → get "buyerId" (row_data row') = Some (VString u) →
  (subs_wf rs → sub_step call (status_at rs u) (sub_status_of (row_data row'))) → moves call u rs (<[u := row']> rs).
Proof.
  intros Hobj Hbuyer Hstep Hwf. split; [by apply map_Forall_insert_2|]. intros id.
  destruct (decide (id = u)) as [->|Hne].
  - right. split; [done|]. unfold status_at at 2. rewrite lookup_insert_eq. cbn. auto.
  - left. unfold status_at. by rewrite lookup_insert_ne.
Qed.

Lemma after_keeps {A B} c (R : rows → rows → Prop) (m : handler A) (k : A → handler B) s :
  (∀ r, R r r) → keeps c m →
  (∀ s1 a, m s = (s1, Ok a) → table_rows s1 c = table_rows s c → R (table_rows s1 c) (table_rows (k a s1).1 c)) →
  R (table_rows s c) (table_rows ((m ≫= k) s).1 c).
Proof.
  intros HR Hm Hk. specialize (Hm s). unfold mbind, handler_bind. destruct (m s) as [s1 [a|err|]]; cbn [fst] in *.
  - rewrite <- Hm. by apply Hk.
  - by rewrite Hm.
  - by rewrite Hm.
Qed.

(** [keeping] of the webhooks, with the operations of these endpoints. *)
Ltac kept := repeat (cbv beta zeta; first [keep_step|apply keeps_map_err|by apply keeps_rate_limit]).

Section life.
Context (scan_rows : ∀ rs, scan rs ≡ₚ map_to_list rs).
Context (u : string) (plain_user : bare_id "users" u = u) (plain_key : bare_id "subscriptions" u = u).

Lemma key_plain : bare_id "subscriptions" (bare_id "users" u) = u.
Proof. by rewrite plain_user. Qed.

(** An update of the caller's subscription, which sets its status. *)
Lemma moves_merge call fields now rs row st :
  rs !! u = Some row → NoDup fields.*1 → assoc_get "buyerId" fields ∈ [None; Some (VString u)] →
  assoc_get "status" fields = Some (VString st) → (subs_wf rs → sub_step call (status_at rs u) (Some st)) →
  moves call u rs (<[u := merged_row (VObject fields) now row]> rs).
Proof.
  intros Hrow Hnd Hb Hst Hstep Hwf. destruct (Hwf u row Hrow) as [[m Hm] Hbuyer]. refine (moves_insert call u _ _ _ _ _ Hwf).
  - cbn. rewrite Hm. cbn. eauto.
  - rewrite (merged_row_get _ _ _ m) by done. set_unfold in Hb. destruct Hb as [->|[->|[]]]; done.
  - unfold sub_status_of. rewrite (merged_row_get _ _ _ m) by done. by rewrite Hst.
Qed.

Lemma moves_update call fields now s st :
  NoDup fields.*1 → assoc_get "buyerId" fields = None → assoc_get "status" fields = Some (VString st) →
  (is_Some (subs_of s !! u) → sub_step call (status_at (subs_of s) u) (Some st)) →
  moves call u (subs_of s) (subs_of (update_document "subscriptions" (bare_id "users" u) (VObject fields) now s).1).
Proof.
  intros Hnd Hb Hst Hstep. rewrite update_rows, key_plain.
  change (is_ok (validate_identifier "subscriptions")) with true. cbv iota.
  destruct (subs_of s !! u) as [row|] eqn:Hrow; [|apply moves_refl].
  eapply moves_merge; eauto. rewrite Hb. set_solver.
Qed.

Lemma not_active user_id s s1 :
  may_subscribe user_id s = (s1, Ok tt) → map_Forall (λ _ row, has_active user_id row = false) (subs_of s).
Proof.
  intros H. unfold may_subscribe in H. run_inv H. cbv zeta in H. destruct (MAX_EARLY_CANCELS <=? _)%Z; [done|].
  run_inv H. apply pure_ok in H as [-> H]. destruct a0; [done|].
  pose proof (keeps_run "subscriptions" _ _ _ _ (keeps_attempt _ _ (keeps_unknown pg_undefined_column "subscriptions" "users" "earlyCancelCount")) R) as Hk.
  rewrite <- Hk. clear -R0 scan_rows. unfold select_first in R0. cbv zeta in R0. rewrite keeps_ensure_first in R0.
  injection R0 as _ Hnone. intros id row Hrow. destruct (has_active user_id row) eqn:E; [exfalso|done].
  assert ((id, row) ∈ filter (λ kr : string * DocRow, has_active user_id kr.2 = true) (scan (subs_of s0))) as Hin.
  { apply list_elem_of_filter. split; [done|]. rewrite scan_rows. by apply elem_of_map_to_list. }
  destruct (filter _ _); [by apply elem_of_nil in Hin|done].
Qed.
Lemma status_inactive rs :
  subs_wf rs → map_Forall (λ _ row, has_active u row = false) rs → status_at rs u ≠ Some "active".
Proof.
  intros Hwf Hna. unfold status_at. destruct (rs !! u) as [row|] eqn:E; [|done]. cbn. intros Hst.
  specialize (Hna u row E). destruct (Hwf u row E) as [_ Hb]. unfold has_active, bought_by, field_text in Hna.
  rewrite Hb in Hna. cbn [mbind option_bind jsonb_as_text] in Hna. rewrite bool_decide_true in Hna by done. cbn [andb] in Hna.
  bools. unfold sub_status_of in Hst. destruct (get "status" (row_data row)) as [v|]; [by destruct v; simplify_eq/=|].
  destruct (get "subscriptionStatus" (row_data row)) as [v|]; [by destruct v; simplify_eq/=|done].
Qed.

Lemma moves_upsert req e sub s s0 :
  is_Some (cs_payment_method_id req) → map_Forall (λ _ row, has_active u row = false) (subs_of s) →
  moves (Subscribe req) u (subs_of s) (subs_of (upsert_document "subscriptions" (bare_id "users" u) (VObject (sub_doc e u sub)) s0 s).1).
Proof.
  intros Hpm Hna. rewrite upsert_rows by done. rewrite key_plain.
  set (st := stored_status (default "incomplete" (get "status" sub ≫= as_str))).
  assert (subs_wf (subs_of s) → sub_step (Subscribe req) (status_at (subs_of s) u) (Some st)) as Hstep.
  { intros Hwf. apply step_subscribe; [done|by apply status_inactive|]. unfold st, stored_status. case_match; set_solver. }
  destruct (subs_of s !! u) as [row|] eqn:Hrow.
  - apply moves_merge with (st := st); try done; [concrete|]. cbn. set_solver.
  - by apply moves_insert; [eexists|..].
Qed.

Lemma before_keeps {A B} c (m : handler A) (k : A → handler B) s :
  (∀ a, keeps c (k a)) → table_rows ((m ≫= k) s).1 c = table_rows (m s).1 c.
Proof. intros Hk. unfold mbind, handler_bind. destruct (m s) as [s1 [a|err|]]; [apply Hk|done..]. Qed.

Lemma keeps_may_subscribe c user_id : keeps c (may_subscribe user_id).
Proof. unfold may_subscribe. keeping. Qed.
Lemma keeps_customer c e user_id : c ≠ "users" → keeps c (ensure_customer e user_id).
Proof. intros Hc. unfold ensure_customer. kept. Qed.
Lemma keeps_checkout c e customer_id user_id interval : c ≠ "users" → keeps c (subscribe_by_checkout e customer_id user_id interval).
Proof. intros Hc. unfold subscribe_by_checkout. kept. Qed.
Lemma keeps_get_subscription c user_id : keeps c (get_user_subscription user_id).
Proof. unfold get_user_subscription. keeping. Qed.
Lemma keeps_own_subscription c e auth provided action : c ≠ "rate_limits" → keeps c (own_subscription e auth provided action).
Proof.
  intros Hc. unfold own_subscription, premium_limit.
  repeat first [apply keeps_bind; [|intros ?]|apply keeps_get_subscription|kept].
Qed.

Lemma keeps_early_cancel c user_id : keeps c (count_early_cancel user_id).
Proof. intros s. unfold count_early_cancel. case_match; [apply keeps_ensure_first|done]. Qed.

Lemma keeps_status c e auth provided : c ≠ "rate_limits" → keeps c (subscription_status e auth provided).
Proof. intros Hc. unfold subscription_status, premium_limit. kept. apply keeps_get_subscription. Qed.
Lemma keeps_preferences c e auth req :
  c ∉ ["rate_limits"; "users"] → keeps c (update_notification_preferences e auth req).
Proof. intros Hc. assert (c ≠ "rate_limits" ∧ "users" ≠ c) as [? ?] by set_solver. unfold update_notification_preferences, premium_limit. kept. Qed.

(** A step that leaves the subscriptions alone. *)
Ltac over_kept :=
  lazymatch goal with |- moves ?call _ _ _ => apply (after_keeps "subscriptions" (moves call u)); [apply moves_refl| |] end.

Lemma moves_create e auth req s :
  auth_user_id auth = u → moves (Subscribe req) u (subs_of s) (subs_of (create_subscription e auth req s).1).
Proof.
  intros Hu. unfold create_subscription.
  over_kept; [done|]. intros s1 x Hx _. apply pure_ok in Hx as [_ Hx]. apply resolve_self_ok in Hx as ->. rewrite Hu.
  do 3 (over_kept; [done|intros ? ? _ _]).
  over_kept; [by apply keeps_rate_limit|]. intros s5 _ _ _.
  over_kept; [apply keeps_may_subscribe|]. intros s6 [] Hm Hk. apply not_active in Hm. rewrite <- Hk in Hm. clear Hk.
  over_kept; [done|]. intros s7 _ _ Hk. rewrite <- Hk in Hm. clear Hk.
  over_kept; [by apply keeps_customer|]. intros s8 customer_id _ Hk. rewrite <- Hk in Hm. clear Hk.
  destruct (cs_payment_method_id req) as [pm|] eqn:Hpm.
  - unfold subscribe_directly. over_kept; [done|]. intros s9 _ _ Hk. rewrite <- Hk in Hm. clear Hk.
    over_kept; [done|]. intros s10 sub _ Hk. rewrite <- Hk in Hm. clear Hk. cbv zeta. rewrite before_keeps by (intros; kept).
    unfold db_map_err. pose proof (moves_upsert req e sub s10 (qe_clock e 1) (mk_is_Some _ _ Hpm) Hm) as Hup. by destruct (upsert_document _ _ _ _ s10).
  - rewrite keeps_checkout by done. apply moves_refl.
Qed.

Lemma sub_status_doc id row : sub_status_of (row_to_doc id row) = sub_status_of (row_data row).
Proof. unfold sub_status_of. by rewrite !get_row_to_doc by concrete. Qed.

(** What is read is the caller's subscription. *)
Lemma own_subscription_doc e auth provided action s s' x doc sid row :
  auth_user_id auth = u → own_subscription e auth provided action s = (s', Ok (x, doc, sid)) →
  subs_of s !! u = Some row → doc = row_to_doc u row.
Proof.
  intros Hu H Hrow. unfold own_subscription in H. run_inv H. apply resolve_self_ok in R as ->. do 2 run_inv H.
  rewrite Hu in *. apply (keeps_run "subscriptions") in R0; [|by apply keeps_rate_limit]. rewrite <- R0 in Hrow.
  do 2 run_inv H. cbv zeta in H. destruct (str_empty _); [done|]. injection H as _ _ <- _.
  unfold get_user_subscription in R1. erewrite bind_run in R1 by (by apply attempt_get).
  rewrite key_plain, Hrow in R1. cbn in R1. injection R1 as _ <-. cbn in R2. by injection R2 as <-.
Qed.
Lemma own_status e auth provided action s s' x doc sid :
  auth_user_id auth = u → own_subscription e auth provided action s = (s', Ok (x, doc, sid)) →
  is_Some (subs_of s !! u) → status_at (subs_of s) u = sub_status_of doc.
Proof.
  intros Hu H [row Hrow]. rewrite (own_subscription_doc _ _ _ _ _ _ _ _ _ _ Hu H Hrow). unfold status_at. rewrite Hrow.
  cbn. by rewrite sub_status_doc.
Qed.

Lemma moves_ignored_update call fields now st s :
  NoDup fields.*1 → assoc_get "buyerId" fields = None → assoc_get "status" fields = Some (VString st) →
  (is_Some (subs_of s !! u) → sub_step call (status_at (subs_of s) u) (Some st)) →
  moves call u (subs_of s) (subs_of (ignored (update_document "subscriptions" (bare_id "users" u) (VObject fields) now) s).1).
Proof.
  intros Hnd Hb Hst Hstep. pose proof (moves_update call fields now s st Hnd Hb Hst Hstep) as Hm.
  unfold ignored. by destruct (update_document _ _ _ _ s) as [s1 [a|err|]].
Qed.

Lemma moves_cancel e auth provided s :
  auth_user_id auth = u → moves (Cancel provided) u (subs_of s) (subs_of (cancel_subscription e auth provided s).1).
Proof.
  intros Hu. unfold cancel_subscription.
  over_kept; [by apply keeps_own_subscription|]. intros s1 [[x doc] sid] Hown Hk.
  pose proof (own_subscription_user _ _ _ _ _ _ _ _ _ Hown) as ->. rewrite Hu. pose proof (own_status _ _ _ _ _ _ _ _ _ Hu Hown) as Hst. clear Hown. rename Hst into Hown.
  rewrite <- Hk in Hown. clear Hk. cbv zeta. destruct (default "" _ =s? _) eqn:E; [apply moves_refl|]. bools.
  over_kept; [done|]. intros s2 _ _ Hk. rewrite <- Hk in Hown. clear Hk.
  over_kept; [case_match; [|done]; apply keeps_early_cancel|]. intros s3 _ _ Hk. rewrite <- Hk in Hown. clear Hk.
  rewrite before_keeps by done. apply moves_ignored_update with (st := "cancel_pending"); try done; [concrete|].
  intros Hsome. apply step_cancel. rewrite Hown by done. intros Hst. rewrite Hst in E. done.
Qed.

Lemma moves_reactivate e auth provided s :
  auth_user_id auth = u → moves (Reactivate provided) u (subs_of s) (subs_of (reactivate_subscription e auth provided s).1).
Proof.
  intros Hu. unfold reactivate_subscription.
  over_kept; [by apply keeps_own_subscription|]. intros s1 [[x doc] sid] Hown Hk.
  pose proof (own_subscription_user _ _ _ _ _ _ _ _ _ Hown) as ->. rewrite Hu. pose proof (own_status _ _ _ _ _ _ _ _ _ Hu Hown) as Hst. clear Hown. rename Hst into Hown.
  rewrite <- Hk in Hown. clear Hk. cbv zeta.
  do 2 (case_match; [apply moves_refl|]). bools.
  over_kept; [done|]. intros s2 _ _ Hk. rewrite <- Hk in Hown. clear Hk.
  rewrite before_keeps by (intros; kept). apply moves_ignored_update with (st := "active"); try done; try concrete.
  intros Hsome. apply step_reactivate; rewrite Hown by done; intros Hst; rewrite Hst in *; done.
Qed.

(** *** What a successful call has done *)

Lemma ignored_fst {A} (op : store → store * Result A) s : (ignored op s).1 = (op s).1.
Proof. unfold ignored. by destruct (op s) as [s1 [a|err|]]. Qed.

Lemma own_subs e auth provided action s s1 a :
  own_subscription e auth provided action s = (s1, Ok a) → subs_of s1 = subs_of s.
Proof. apply keeps_run, keeps_own_subscription. done. Qed.

Lemma updated_subs fields now s s1 (row : DocRow) a :
  subs_of s !! u = Some row →
  ignored (update_document "subscriptions" (bare_id "users" u) (VObject fields) now) s = (s1, Ok a) →
  subs_of s1 = <[u := merged_row (VObject fields) now row]> (subs_of s).
Proof.
  intros Hrow H. pose proof (ignored_fst (update_document "subscriptions" (bare_id "users" u) (VObject fields) now) s) as Hf.
  rewrite H in Hf. cbn [fst] in Hf. subst s1. by rewrite update_rows, key_plain, Hrow.
Qed.

Lemma cancel_ok e auth provided s s1 r row :
  auth_user_id auth = u → subs_of s !! u = Some row → sub_status_of (row_data row) ≠ Some "cancelled" →
  cancel_subscription e auth provided s = (s1, Ok r) →
  r = {| sc_success := true; sc_status := "cancel_pending" |} ∧ table_rows s1 "users" = table_rows s "users"
  ∧ subs_of s1 = <[u := merged_row (cancel_doc e (row_to_doc u row)) (qe_clock e 0) row]> (subs_of s).
Proof.
  intros Hu Hrow Hst H. unfold cancel_subscription in H. run_inv H. destruct a as [[x doc] sid].
  pose proof (own_subscription_user _ _ _ _ _ _ _ _ _ R) as ->. rewrite (own_subscription_doc _ _ _ _ _ _ _ _ _ _ Hu R Hrow) in *.
  pose proof (own_subs _ _ _ _ _ _ _ R) as Hs. apply (keeps_run "users") in R; [|by apply keeps_own_subscription].
  cbv zeta in H. rewrite sub_status_doc in H.
  destruct (default "" _ =s? _) eqn:E.
  { bools. destruct (sub_status_of (row_data row)); [cbn in E; congruence|done]. }
  do 3 run_inv H. apply pure_ok in H as [-> [= <-]].
  assert (∀ c, keeps c (if (days_active e (row_to_doc u row) <? EARLY_CANCEL_DAYS)%Z then count_early_cancel (auth_user_id auth) else pure (Ok tt))) as Hk
    by (intros c; case_match; [apply keeps_early_cancel|done]).
  rewrite Hu in *. rewrite <- Hs, <- (keeps_run "subscriptions" _ _ _ _ (Hk _) R1) in Hrow.
  split; [done|]. split.
  - rewrite <- R, <- (keeps_run "users" _ _ _ _ (Hk _) R1).
    by apply (keeps_run "users") in R2; [|apply keeps_ignored; by apply keeps_update].
  - apply (updated_subs _ _ _ _ _ _ Hrow) in R2. by rewrite R2, (keeps_run "subscriptions" _ _ _ _ (Hk _) R1), Hs.
Qed.

Lemma reactivate_ok e auth provided s s1 r row :
  auth_user_id auth = u → subs_of s !! u = Some row →
  sub_status_of (row_data row) ≠ Some "active" →
  reactivate_subscription e auth provided s = (s1, Ok r) →
  r = {| sc_success := true; sc_status := "active" |}
  ∧ subs_of s1 = <[u := merged_row (reactivate_doc e) (qe_clock e 0) row]> (subs_of s).
Proof.
  intros Hu Hrow Ha H. unfold reactivate_subscription in H. run_inv H. destruct a as [[x doc] sid].
  pose proof (own_subscription_user _ _ _ _ _ _ _ _ _ R) as ->. rewrite (own_subscription_doc _ _ _ _ _ _ _ _ _ _ Hu R Hrow) in *.
  pose proof (own_subs _ _ _ _ _ _ _ R) as Hs. cbv zeta in H. rewrite sub_status_doc in H.
  destruct (default "" _ =s? subscription_status_str Subscription.Active) eqn:E1.
  { bools. destruct (sub_status_of (row_data row)); [cbn in E1; congruence|done]. }
  destruct (default "" _ =s? subscription_status_str Subscription.Expired); [done|].
  do 3 run_inv H. apply pure_ok in H as [-> [= <-]]. rewrite Hu in *. rewrite <- Hs in Hrow. split; [done|].
  apply (updated_subs _ _ _ _ _ _ Hrow) in R1.
  apply (keeps_run "subscriptions") in R2; [|apply keeps_ignored; by apply keeps_update]. by rewrite R2, R1, Hs.
Qed.

Lemma upserted_status e sub now s :
  subs_wf (subs_of s) →
  status_at (subs_of (upsert_document "subscriptions" (bare_id "users" u) (VObject (sub_doc e u sub)) now s).1) u
  = Some (stored_status (default "incomplete" (get "status" sub ≫= as_str))).
Proof.
  intros Hwf. rewrite upsert_rows by done. rewrite key_plain. unfold status_at. rewrite lookup_insert_eq. cbn [mbind option_bind].
  destruct (subs_of s !! u) as [row|] eqn:Hrow; [|done]. destruct (Hwf _ _ Hrow) as [[m Hm] _].
  unfold sub_status_of. by rewrite (merged_row_get _ _ _ m) by (done || concrete).
Qed.

Lemma create_ok e auth req s s1 r :
  auth_user_id auth = u → is_Some (cs_payment_method_id req) → subs_wf (subs_of s) →
  create_subscription e auth req s = (s1, Ok r) → status_at (subs_of s1) u ∈ [Some "active"; Some "incomplete"].
Proof.
  intros Hu [pm Hpm] Hwf H. unfold create_subscription in H. run_inv H. apply resolve_self_ok in R as ->.
  do 7 run_inv H. rewrite Hpm, Hu in *. unfold premium_limit in R2.
  apply (keeps_run "subscriptions") in R2; [|by apply keeps_rate_limit].
  apply (keeps_run "subscriptions") in R3; [|apply keeps_may_subscribe].
  apply (keeps_run "subscriptions") in R5; [|by apply keeps_customer]. rewrite <- R2, <- R3, <- R5 in Hwf.
  unfold subscribe_directly in H. run_inv H. run_inv H. cbv zeta in H. run_inv H. run_inv H. apply pure_ok in H as [-> _].
  pose proof (upserted_status e a7 (qe_clock e 1) s3 Hwf) as Hst.
  apply (keeps_run "subscriptions") in R9; [|case_match; [apply keeps_ignored; by apply keeps_update|done]].
  rewrite R8 in Hst. cbn [fst] in Hst. rewrite R9, Hst. unfold stored_status. case_match; set_solver.
Qed.

Lemma moved_at call rs rs' : moves call u rs rs' → subs_wf rs →
  status_at rs' u = status_at rs u ∨ sub_step call (status_at rs u) (status_at rs' u).
Proof. intros Hm Hwf. destruct (proj2 (Hm Hwf) u) as [|[_ ?]]; auto. Qed.

Lemma call_moves e auth call s :
  auth_user_id auth = u → moves call u (subs_of s) (subs_of (call_premium e auth call s).1).
Proof.
  intros Hu. destruct call; cbn [call_premium]; try (rewrite before_keeps by done).
  - by apply moves_create.
  - by apply moves_cancel.
  - by apply moves_reactivate.
  - rewrite keeps_status by done. apply moves_refl.
  - rewrite keeps_preferences by set_solver. apply moves_refl.
Qed.

Lemma call_achieved e auth call s s' :
  auth_user_id auth = u → subs_wf (subs_of s) → is_Some (subs_of s !! u) ∨ (∃ req, call = Subscribe req) →
  call_premium e auth call s = (s', Ok tt) → achieved call (status_at (subs_of s') u).
Proof.
  intros Hu Hwf Hrow H. pose proof (moved_at call _ _ (call_moves e auth call s Hu) Hwf) as Hm. rewrite H in Hm. cbn [fst] in Hm.
  destruct call as [req|who|who|who|req]; cbn [achieved]; [| | |done..]; cbn [call_premium] in H; run_inv H; apply pure_ok in H as [-> _].
  - intros Hpm. by eapply create_ok.
  - destruct Hrow as [[row Hrow]|[? [=]]]. unfold status_at in *.
    destruct (decide (sub_status_of (row_data row) = Some "cancelled")) as [E|E].
    + destruct Hm as [Hm|Hm]; [|inversion Hm]; rewrite ?Hm, ?Hrow; cbn; rewrite ?E; set_solver.
    + apply (cancel_ok _ _ _ _ _ _ row Hu Hrow) in R as (_ & _ & ->); [|done]. destruct (Hwf _ _ Hrow) as [[m Hm'] _].
      rewrite lookup_insert_eq. cbn [mbind option_bind]. unfold sub_status_of, cancel_doc. erewrite merged_row_get by (done || concrete).
      cbn. set_solver.
  - destruct Hrow as [[row Hrow]|[? [=]]]. unfold status_at in *.
    destruct (decide (sub_status_of (row_data row) = Some "active")) as [E|E].
    + destruct Hm as [Hm|Hm]; [|by inversion Hm]. by rewrite Hm, Hrow.
    + apply (reactivate_ok _ _ _ _ _ _ row Hu Hrow) in R as (_ & ->); [|done]. destruct (Hwf _ _ Hrow) as [[m Hm'] _].
      rewrite lookup_insert_eq. cbn [mbind option_bind]. unfold sub_status_of, reactivate_doc. by erewrite merged_row_get by (done || concrete).
Qed.

(** C21: the endpoints implement the life of a subscription.  Whatever a user asks
    and whatever Stripe answers, in success and failure: the subscriptions stay
    well formed, the status of every other subscription stays as it is, and the
    caller's stays or makes the step that the specification has for this very
    call.  A call that succeeds has done its work: a subscription that was started
    with a payment method is active or incomplete, one that was cancelled is
    cancelled or about to be, one that was reactivated is active. *)
Theorem premium_calls_refine e auth call s :
  auth_user_id auth = u → subs_wf (subs_of s) →
  let '(s', r) := call_premium e auth call s in
  subs_wf (subs_of s')
  ∧ (∀ id, id ≠ u → status_at (subs_of s') id = status_at (subs_of s) id)
  ∧ (status_at (subs_of s') u = status_at (subs_of s) u
     ∨ sub_step call (status_at (subs_of s) u) (status_at (subs_of s') u))
  ∧ (r = Ok tt → is_Some (subs_of s !! u) ∨ (∃ req, call = Subscribe req) → achieved call (status_at (subs_of s') u)).
Proof.
  intros Hu Hwf. pose proof (call_moves e auth call s Hu) as Hm. pose proof (λ s', call_achieved e auth call s s' Hu Hwf) as Ha.
  destruct (call_premium e auth call s) as [s' r]. cbn [fst] in Hm. split_and!.
  - by apply Hm.
  - intros id Hne. by destruct (proj2 (Hm Hwf) id) as [|[? _]].
  - by apply moved_at.
  - intros -> Hrow. by apply Ha.
Qed.

(** *** A cancellation that is taken back *)

(** A cancellation can be taken back.  An active subscription that its user
    cancels is pending until the end of the period, the user document staying as
    it was; reactivated, it is reported exactly as before it was cancelled, is no
    longer set to end, and every field but the times of the cancellation and of
    the update is what it was. *)
Theorem cancel_reactivate_roundtrip e e' auth provided provided' s s1 s2 r1 r2 row m :
  auth_user_id auth = u → subs_of s !! u = Some row → row_data row = VObject m →
  get "status" (row_data row) = Some (VString "active") → get "subscriptionStatus" (row_data row) = Some (VString "active") →
  get "cancelAtPeriodEnd" (row_data row) = Some (VBool false) →
  cancel_subscription e auth provided s = (s1, Ok r1) → reactivate_subscription e' auth provided' s1 = (s2, Ok r2) →
  ∃ row1 row2, subs_of s1 !! u = Some row1 ∧ subs_of s2 !! u = Some row2
    ∧ sc_status r1 = "cancel_pending" ∧ sub_status_of (row_data row1) = Some "cancel_pending"
    ∧ get "cancelAtPeriodEnd" (row_data row1) = Some (VBool true) ∧ table_rows s1 "users" = table_rows s "users"
    ∧ sc_status r2 = "active" ∧ status_of_doc (row_to_doc u row2) = status_of_doc (row_to_doc u row)
    ∧ ∀ k, k ∉ ["cancelledAt"; "cancelsAt"; "updatedAt"] → get k (row_data row2) = get k (row_data row).
Proof.
  intros Hu Hrow Hm Hst Hst' Hc H1 H2.
  apply (cancel_ok _ _ _ _ _ _ row Hu Hrow) in H1 as (-> & Husers & Hs1); [|unfold sub_status_of; by rewrite Hst].
  set (row1 := merged_row (cancel_doc e (row_to_doc u row)) (qe_clock e 0) row) in *.
  assert (∃ m1, row_data row1 = VObject m1) as [m1 Hm1] by (cbn; rewrite Hm; cbn; eauto).
  assert (∀ k, get k (row_data row1) = match get k (cancel_doc e (row_to_doc u row)) with Some v => Some v | None => get k (row_data row) end)
    as Hg1 by (intros k; unfold row1, cancel_doc; rewrite (merged_row_get _ _ _ m) by (done || concrete); done).
  clearbody row1. assert (subs_of s1 !! u = Some row1) as Hrow1 by (rewrite Hs1; apply lookup_insert_eq).
  apply (reactivate_ok _ _ _ _ _ _ row1 Hu Hrow1) in H2 as (-> & Hs2); [|unfold sub_status_of; by rewrite Hg1..].
  set (row2 := merged_row (reactivate_doc e') (qe_clock e' 0) row1) in *.
  assert (∀ k, get k (row_data row2) = match get k (reactivate_doc e') with Some v => Some v | None => get k (row_data row1) end)
    as Hg2 by (intros k; unfold row2, reactivate_doc; rewrite (merged_row_get _ _ _ m1) by (done || concrete); done).
  clearbody row2. exists row1, row2. split_and!; try done.
  - rewrite Hs2. apply lookup_insert_eq.
  - unfold sub_status_of. by rewrite Hg1.
  - unfold status_of_doc, i64_field. rewrite !sub_status_doc. unfold sub_status_of.
    rewrite !get_row_to_doc by concrete. by rewrite !Hg2, !Hg1, Hst.
  - intros k Hk. rewrite Hg2, Hg1. clear -Hk Hst Hst' Hc. unfold reactivate_doc, cancel_doc. cbn [get assoc_get].
    rewrite !not_elem_of_cons in Hk. destruct Hk as (H1 & H2 & H3 & _). repeat (case_match; bools; subst; try congruence); cbn in *; congruence.
Qed.
End life.
End premium.

(** ** Where the code falls short *)

(** The delay of the benefits is selected as text and read as a number: no
    subscription ever has its benefits. *)
Lemma benefits_never_active `{C : Chrono} `{P : PgJson} scan user_id now_secs s :
  (now_secs < i64_max)%Z → is_subscription_benefits_active scan user_id now_secs s = false.
Proof.
  intros Hn. unfold is_subscription_benefits_active. cbv zeta. destruct (filter _ _) as [|[id row] l]; [done|].
  assert (get "benefitsActiveAt" (benefits_row row) ≫= as_i64 = None) as ->.
  { unfold benefits_row. destruct (field_text "benefitsActiveAt" _), (field_text "status" _); done. }
  cbn. lia.
Qed.

(** The count of early cancellations is read from a column that is not there: no
    user is refused for it. *)
Lemma early_cancels_never_refused `{C : Chrono} `{P : PgJson} pg_undefined_column scan user_id s :
  (may_subscribe pg_undefined_column scan user_id s).2
  ≠ Err (Validation "Too many short-term subscriptions. Please contact support@orignagta.ca.").
Proof.
  unfold may_subscribe, attempt, unknown_column, mbind, handler_bind. cbn -[select_first].
  destruct (select_first _ _ _ _) as [s1 [[doc|]|err|]] eqn:E; done.
Qed.

Lemma record_id_no_colon id : str_exists (Ascii.eqb ":") id = false → ∃ err, validate_record_id id = Err (Validation err).
Proof.
  intros H. unfold validate_record_id. rewrite split_on_no_sep by done.
  destruct (str_empty id); [eauto|]. destruct (512 <? String.length id); eauto.
Qed.

(** Without a subscription document, a user id that names no collection makes the
    status fail instead of being none. *)
Lemma status_without_subscription `{C : Chrono} `{P : PgJson} pg_invalid_bigint latest e auth provided s :
  qe_test_mode e = true → resolve_self_user_id auth provided "userId" = Ok (auth_user_id auth) →
  is_ok (validate_uid "userId" (auth_user_id auth)) = true →
  table_rows s "subscriptions" !! sub_key (auth_user_id auth) = None →
  str_exists (Ascii.eqb ":") (auth_user_id auth) = false →
  ∃ s' err, subscription_status pg_invalid_bigint latest e auth provided s = (s', Err (Validation err)).
Proof.
  intros Ht Hr Hu Hnone Hcolon. unfold subscription_status. rewrite Hr. erewrite bind_run by reflexivity.
  destruct (validate_uid _ _) as [[]| |]; [|done..]. erewrite bind_run by reflexivity.
  unfold premium_limit, check_user_rate_limit. rewrite Ht. erewrite bind_run by reflexivity.
  unfold get_user_subscription, mbind at 1, handler_bind at 1. unfold mbind at 1, handler_bind at 1.
  rewrite attempt_get by done. unfold sub_key in Hnone. rewrite Hnone. cbn [fmap option_fmap option_map].
  destruct (record_id_no_colon _ Hcolon) as [err ->]. by eexists _, err.
Qed.

(** ** Concrete instances *)
Section premium_witnesses.
#[local] Instance demo_q_chrono : Chrono := plain_chrono.
#[local] Instance demo_q_json : PgJson := plain_json.
#[local] Instance demo_q_text : TextLib := plain_textlib.

Definition demo_q_env : premium_env :=
  {| qe_test_mode := true; qe_stripe_key := Some "sk"; qe_base_url := "http://shop";
     qe_secs := 1000; qe_limit_id := "l"; qe_limit_now := 1; qe_now := λ k, (500 + Z.of_nat k)%Z; qe_clock := λ k, (600 + Z.of_nat k)%Z |}.
Definition ann_auth : AuthContext :=
  {| auth_user_id := "ann"; auth_roles := []; authenticated := true; email_verified := true; custom_claims := VNull |}.
Definition demo_customers (form : list (string * string)) : api_reply := ApiBody (VObject [("id", VString "cus_1")]).
Definition demo_checkouts (form : list (string * string)) : api_reply :=
  ApiBody (VObject [("id", VString "cs_1"); ("url", VString "http://stripe")]).
Definition demo_subscriptions (status : string) (form : list (string * string)) : api_reply :=
  ApiBody (VObject [("current_period_end", of_i64 2000); ("id", VString "sub_1"); ("status", VString status)]).
Definition demo_attach (pm customer : string) : attach_reply := Attached.
Definition demo_period_end (sub : string) (cancel : bool) : api_reply := ApiBody VNull.
Definition demo_create (status : string) (pm : option string) : handler CreateSubscriptionResponse :=
  create_subscription "" missing_column map_to_list demo_customers demo_checkouts (demo_subscriptions status) demo_attach
    demo_q_env ann_auth {| cs_user_id := None; cs_interval := None; cs_payment_method_id := pm |}.
Definition demo_cancel : handler SubscriptionChanged :=
  cancel_subscription "" map_to_list demo_period_end (λ _, None) demo_q_env ann_auth None.
Definition demo_reactivate : handler SubscriptionChanged :=
  reactivate_subscription "" map_to_list demo_period_end demo_q_env ann_auth None.
Definition demo_status : handler SubscriptionStatusResponse :=
  subscription_status "" map_to_list demo_q_env ann_auth None.
Definition user_store (roles : list string) : store :=
  {["users" := {["ann" := plain_row (VObject [("roles", VArray (VString <$> roles)); ("uid", VString "ann")])]}]}.
Definition premium_flag (s : store) : option Value := table_rows s "users" !! "ann" ≫= λ row, get "isPremium" (row_data row).
Definition sub_events (event_type : string) : handler unit :=
  route_subscription_webhook map_to_list no_injection {| se_now := 700; se_clock := λ _, 700%Z |} event_type
    (VObject [("object", VObject [("customer", VString "cus_1"); ("status", VString "active")])]).

Example premium_price : PREMIUM_PRICE_CENTS = 786%Z.
Proof. by vm_compute. Qed.

(** A subscription that was never paid is reactivated, and the user premium. *)
Example unpaid_becomes_premium :
  let s1 := (demo_create "incomplete" (Some "pm_1") (user_store [])).1 in let s2 := (demo_reactivate s1).1 in
  premium_flag s1 = None ∧ status_at (table_rows s1 "subscriptions") "ann" = Some "incomplete"
  ∧ premium_flag s2 = Some (VBool true) ∧ status_at (table_rows s2 "subscriptions") "ann" = Some "active".
Proof. by vm_compute. Qed.

(** Sellers are refused by the checkout only: with a payment method they subscribe. *)
Example seller_subscribes_directly :
  let s := user_store ["seller"] in
  (demo_create "active" None s).2 = Err (Validation "Seller accounts cannot currently subscribe to Premium.")
  ∧ premium_flag (demo_create "active" (Some "pm_1") s).1 = Some (VBool true).
Proof. by vm_compute. Qed.

(** The checkout stores no subscription, and no event creates one: the user is
    premium, cannot cancel, and the events of the subscription fail. *)
Example checkout_subscriber_cannot_cancel :
  let s1 := (demo_create "active" None (user_store [])).1 in let s2 := (sub_events "customer.subscription.created" s1).1 in
  premium_flag s2 = Some (VBool true)
  ∧ (demo_cancel s2).2 = Err (Validation "Record ID 'ann' must be in format 'collection:record_id'")
  ∧ is_ok (sub_events "customer.subscription.updated" s2).2 = false
  ∧ is_ok (sub_events "customer.subscription.deleted" s2).2 = false.
Proof. by vm_compute. Qed.

(** Directly after a cancellation the user is reported as not premium, while the
    document says that the paid period goes on. *)
Example cancelled_loses_premium_early :
  let s1 := (demo_create "active" (Some "pm_1") (user_store [])).1 in let s2 := (demo_cancel s1).1 in
  premium_flag s2 = Some (VBool true)
  ∧ (demo_status s2).2 = Ok {| ss_success := true; ss_is_premium := false; ss_status := "cancel_pending";
                               ss_current_period_end := Some "2000000000"; ss_stripe_subscription_id := Some "sub_1" |}.
Proof. by vm_compute. Qed.

(** Early cancellations are not counted. *)
Example early_cancels_uncounted :
  let s1 := (demo_create "active" (Some "pm_1") (user_store [])).1 in let s2 := (demo_cancel s1).1 in
  days_active demo_q_env (VObject [("createdAt", VString "500")]) = 0%Z
  ∧ table_rows s2 "users" = table_rows s1 "users".
Proof. by vm_compute. Qed.

Definition two_users : store :=
  {["users" := {["ann" := plain_row (VObject [("uid", VString "ann")]); "bob" := plain_row (VObject [("uid", VString "bob")])]}]}.
Abbreviation demo_call := (call_premium "" missing_column map_to_list map_to_list demo_customers demo_checkouts
  (demo_subscriptions "active") demo_attach demo_period_end (λ _, None)).
Definition direct_request : CreateSubscriptionRequest :=
  {| cs_user_id := None; cs_interval := None; cs_payment_method_id := Some "pm_1" |}.

Lemma premium_own_documents_witness :
  let s' := (demo_call demo_q_env ann_auth (Subscribe direct_request) two_users).1 in
  premium_flag s' = Some (VBool true) ∧ table_rows s' "users" !! "bob" = table_rows two_users "users" !! "bob".
Proof.
  split; [by vm_compute|].
  apply (premium_own_documents "" missing_column map_to_list map_to_list demo_customers demo_checkouts
    (demo_subscriptions "active") demo_attach demo_period_end (λ _, None) demo_q_env ann_auth (Subscribe direct_request) two_users "users" "bob").
  split; [done|]. split; intros E; discriminate E.
Defined.

Lemma premium_calls_refine_witness :
  let s' := (demo_call demo_q_env ann_auth (Subscribe direct_request) two_users).1 in
  subs_wf (table_rows s' "subscriptions")
  ∧ sub_step (Subscribe direct_request) None (status_at (table_rows s' "subscriptions") "ann").
Proof.
  pose proof (premium_calls_refine "" missing_column map_to_list map_to_list demo_customers demo_checkouts
    (demo_subscriptions "active") demo_attach demo_period_end (λ _, None) (λ _, reflexivity _) "ann" eq_refl eq_refl
    demo_q_env ann_auth (Subscribe direct_request) two_users eq_refl (map_Forall_empty _)) as H.
  destruct (demo_call _ _ _ two_users) as [s' r] eqn:E. destruct H as (Hwf & _ & [Hs|Hstep] & _); split; [exact Hwf| |exact Hwf|exact Hstep].
  exfalso. revert Hs. replace s' with (demo_call demo_q_env ann_auth (Subscribe direct_request) two_users).1 by (by rewrite E).
  by vm_compute.
Defined.

Definition subscribed : store := (demo_create "active" (Some "pm_1") (user_store [])).1.
Definition subscribed_row : DocRow := default (plain_row VNull) (table_rows subscribed "subscriptions" !! "ann").
Definition subscribed_fields : list (string * Value) := default [] (as_object (row_data subscribed_row)).
Lemma cancel_reactivate_roundtrip_witness :
  ∃ row1 row2, table_rows (demo_cancel subscribed).1 "subscriptions" !! "ann" = Some row1
    ∧ table_rows (demo_reactivate (demo_cancel subscribed).1).1 "subscriptions" !! "ann" = Some row2
    ∧ sub_status_of (row_data row1) = Some "cancel_pending"
    ∧ status_of_doc (row_to_doc "ann" row2) = status_of_doc (row_to_doc "ann" subscribed_row).
Proof.
  edestruct (cancel_reactivate_roundtrip "" map_to_list demo_period_end (λ _, None) "ann" eq_refl eq_refl
    demo_q_env demo_q_env ann_auth None None subscribed (demo_cancel subscribed).1
    (demo_reactivate (demo_cancel subscribed).1).1
    {| sc_success := true; sc_status := "cancel_pending" |} {| sc_success := true; sc_status := "active" |}
    subscribed_row subscribed_fields) as (row1 & row2 & H1 & H2 & _ & H3 & _ & _ & _ & H4 & _).
  1-8: evaluates.
  exists row1, row2. exact (conj H1 (conj H2 (conj H3 H4))).
Defined.
End premium_witnesses.
