(* ===== verification/Shipping.v ===== *)
(** * Shipping costs

    crates/ob-handlers/src/orders/shipping.rs: a seller corrects the shipping cost
    of an order ([update_shipping_cost]); a large increase waits for the buyer, who
    approves it or rejects it and thereby cancels the order
    ([approve_shipping_cost]).  Each handler is split into what it decides from the
    order read and what it writes.  Stripe is a parameter. *)

From S2P Require Export Premium.

(** ** Requests and constants *)

Record ApproveShippingRequest : Type := {
  ap_order_id : string; ap_user_id : string; ap_approved : bool; ap_expected_cost_cents : option Z }.
Record ApproveShippingResponse : Type := { ap_success : bool; ap_was_approved : bool }.
Record UpdateShippingCostRequest : Type := {
  us_order_id : string; us_user_id : string; us_new_shipping_cost_cents : Z; us_reason : option string }.
Record UpdateShippingCostResponse : Type := { us_success : bool; us_approval_required : bool }.

Definition SHIPPING_APPROVAL_THRESHOLD_BPS : Z := 2000.
Definition SHIPPING_APPROVAL_MULTIPLIER_BPS : Z := 120.
Definition ABSOLUTE_MAX_SHIPPING_CENTS : Z := 50000.

Record shipping_env : Type := {
  ve_test_mode : bool;
  ve_stripe_key : option string;
  ve_secs : Z; ve_limit_id : string; ve_limit_now : Z;   (** the limiter's *)
  ve_expiry_now : Z;                                     (** [Utc::now()] of the check of the authorisation *)
  ve_now : Z;                                            (** [Utc::now()] of the update *)
  ve_clock : nat → Z;                                    (** the database's clock at each write *)
}.

(** ** Amounts *)

Definition max_allowed_shipping_cents (old_seller_cents : Z) : Z :=
  if (old_seller_cents =? 0)%Z then ABSOLUTE_MAX_SHIPPING_CENTS
  else (i64_add (i64_mul old_seller_cents SHIPPING_APPROVAL_MULTIPLIER_BPS) 50 `quot` 100)%Z.

Definition shipping_update_requires_approval (original_seller_cents new_shipping_cents : Z) : bool :=
  if (0 <? original_seller_cents)%Z then
    let diff := i64_sub new_shipping_cents original_seller_cents in
    (SHIPPING_APPROVAL_THRESHOLD_BPS <? i64_mul diff 10000 `quot` original_seller_cents)%Z
  else (0 <? new_shipping_cents)%Z.

Definition get_tax_rate_bps (province : string) : Z :=
  if bool_decide (province ∈ ["AB"; "NT"; "NU"; "YT"]) then 5000
  else if province =s? "BC" then 12000
  else if province =s? "MB" then 12000
  else if province =s? "SK" then 11000
  else if province =s? "QC" then 14975
  else if province =s? "ON" then 13000
  else 15000.

Definition shipping_tax_difference_cents (difference_cents : Z) (province : string) : Z :=
  let rate := get_tax_rate_bps province in
  (i64_add (i64_mul difference_cents rate) (i64_mul 50000 (Z.sgn difference_cents)) `quot` 100000)%Z.

(** The map of the sellers' costs, and its sum. *)
Definition seller_costs (order : Value) : list (string * Value) :=
  (λ kv : string * Value, (kv.1, of_i64 (default 0%Z (as_i64 kv.2))))
    <$> default [] (get "sellerShippingCosts" order ≫= as_object).
Definition cost_of (seller : string) (costs : list (string * Value)) : Z :=
  default 0%Z (assoc_get seller costs ≫= as_i64).
Definition sum_costs (costs : list (string * Value)) : Z :=
  foldl i64_add 0%Z ((λ kv : string * Value, default 0%Z (as_i64 kv.2)) <$> costs).

(** The amounts of the order when the cost of one seller becomes [cents_]. *)
Record new_amounts : Type := {
  na_costs : list (string * Value); na_shipping : Z; na_difference : Z; na_tax_difference : Z; na_tax : Z; na_total : Z }.
Definition province_of (order : Value) : string :=
  default "ON" ((get "shippingAddress" order ≫= get "state") ≫= as_str).
Definition amounts_with (order : Value) (seller : string) (cost : Z) : new_amounts :=
  let costs := assoc_insert seller (of_i64 cost) (seller_costs order) in
  let new_total_shipping := sum_costs costs in
  let difference := i64_sub new_total_shipping (cents order "shippingCostCents") in
  let tax_difference :=
    if (difference =? 0)%Z then 0%Z else shipping_tax_difference_cents difference (province_of order) in
  {| na_costs := costs; na_shipping := new_total_shipping; na_difference := difference;
     na_tax_difference := tax_difference; na_tax := i64_add (cents order "taxAmountCents") tax_difference;
     na_total := i64_add (i64_add (cents order "totalAmountCents") difference) tax_difference |}.

(** [format!("{:.2}", f)]: the nearest multiple of a hundredth, ties to even. *)
Definition hundredths (m e : Z) : Z :=
  if (0 <=? e)%Z then (m * 100 * 2 ^ e)%Z
  else let q := (m * 100 / 2 ^ (- e))%Z in let r := ((m * 100) `mod` 2 ^ (- e))%Z in
       match (2 * r ?= 2 ^ (- e))%Z with Gt => (q + 1)%Z | Eq => (q + q `mod` 2)%Z | Lt => q end.
Definition two_decimals (f : f64) : string :=
  match f with
  | S754_zero s => (if s then "-" else "") +:+ "0.00"
  | S754_infinity s => (if s then "-" else "") +:+ "inf"
  | S754_nan => "NaN"
  | S754_finite s m e =>
      let h := hundredths (Zpos m) e in
      (if s then "-" else "") +:+ pretty (h / 100)%Z +:+ "." +:+ two_digits (h `mod` 100)
  end.
Definition f64_div (a b : f64) : f64 := SFdiv f64_prec f64_emax a b.
Definition dollars_of (cents_ : Z) : f64 := f64_div (f64_of_Z cents_) (f64_of_Z 100).

Section shipping.
Context `{C : Chrono} `{P : PgJson} `{T : TextLib}.
Context (pg_invalid_bigint : string).
(** Stripe's answers to a change of the amount of an intent, and to refunds. *)
Context (stripe_amounts : string → Z → api_reply).
Context (stripe_refunds : string → list (string * string) → refund_reply).

Definition stripe_modify_pi (e : shipping_env) (payment_intent_id : string) (amount_cents : Z) : Result unit :=
  _ ← ok_or no_stripe_key (ve_stripe_key e);
  match stripe_amounts payment_intent_id amount_cents with
  | ApiSendFailed err => Err (Internal ("Stripe modify failed: " +:+ err))
  | ApiRefused => Err (Internal "Shipping approved but payment update failed. Flagged for manual review.")
  | ApiNotJson _ | ApiBody _ => Ok tt
  end.

Definition restore_stock_for_items (e : shipping_env) (items : list Value) : handler unit :=
  restore_each true (λ i k, ve_clock e (3 * i + k + 1)) (Some (to_rfc3339 (ve_now e))) 0 items.

(** ** The buyer's answer *)

(** The checks before the answer is looked at: the pending approval. *)
Definition approval_of (e : shipping_env) (user_id : string) (order : Value) : Result (list (string * Value)) :=
  if match (get "expiresAt" order ≫= as_str) ≫= parse_rfc3339 with
     | Some dt => (dt <? ve_expiry_now e)%Z | None => false end
  then Err (Validation "Payment authorization has expired")
  else if negb (str_field order "userId" =s? user_id) then Err (Forbidden "Not your order")
  else
    approval ← ok_or (Validation "No shipping approval data") (get "shippingApproval" order ≫= as_object);
    if negb (default "" (assoc_get "status" approval ≫= as_str) =s? "pending")
    then Err (Validation "No pending shipping approval")
    else Ok approval.

(** The cost that is approved and the seller who asked for it. *)
Definition approved_cost (approval : list (string * Value)) : Z :=
  f64_round_as_i64 (f64_mul (default (f64_of_Z 0) (assoc_get "actualCost" approval ≫= as_f64)) (f64_of_Z 100)).
Definition requesting_seller (approval : list (string * Value)) : string :=
  default "" (assoc_get "requestedBy" approval ≫= as_str).
Definition approval_checks (req : ApproveShippingRequest) (order : Value) (approval : list (string * Value)) : Result unit :=
  let actual := default 0%Z (assoc_get "newCostCents" approval ≫= as_i64) in
  let new_cost := approved_cost approval in
  if match ap_expected_cost_cents req with Some expected => negb (actual =? expected)%Z | None => false end
  then Err (Validation ("Shipping cost has changed (was $" +:+ two_decimals (dollars_of (default 0%Z (ap_expected_cost_cents req)))
                        +:+ ", now $" +:+ two_decimals (dollars_of actual) +:+ "). Please review the new cost."))
  else if (max_allowed_shipping_cents (cost_of (requesting_seller approval) (seller_costs order)) <? new_cost)%Z
  then Err (Validation ("Shipping cost $" +:+ two_decimals (dollars_of new_cost) +:+ " exceeds maximum allowed"))
  else Ok tt.

Definition payment_locked (order : Value) : bool :=
  (str_field order "paymentStatus" =s? "captured") || (str_field order "paymentStatus" =s? "authorized").
(** Whether somebody has to collect the difference by hand. *)
Definition approval_review (e : shipping_env) (order : Value) (a : new_amounts) : bool :=
  if (0 <? i64_add (na_difference a) (na_tax_difference a))%Z then
    if negb (payment_locked order) && negb (str_empty (str_field order "paymentIntentId"))
    then negb (is_ok (stripe_modify_pi e (str_field order "paymentIntentId") (na_total a)))
    else payment_locked order
  else false.
Definition review_fields (reason : string) (review : bool) : list (string * Value) :=
  if review then [("requiresManualReview", VBool true); ("manualReviewReason", VString reason)] else [].
Definition answered_fields (e : shipping_env) (status : string) : list (string * Value) :=
  let now := VString (to_rfc3339 (ve_now e)) in
  [("shippingApproval", VObject [("respondedAt", now); ("status", VString status)]);
   ("shippingApprovalStatus", VString status); ("updatedAt", now)].
Definition approved_doc (e : shipping_env) (order : Value) (a : new_amounts) : Value :=
  VObject ([("sellerShippingCosts", VObject (na_costs a)); ("shippingCostCents", of_i64 (na_shipping a));
            ("taxAmountCents", of_i64 (na_tax a)); ("totalAmountCents", of_i64 (na_total a))]
           ++ answered_fields e "approved"
           ++ review_fields "Shipping approved but payment cannot be automatically modified. Requires manual capture of additional funds."
                (approval_review e order a)).

(** What a rejection adds for a captured payment, which is refunded in full. *)
Definition rejection_refund (e : shipping_env) (order_id : string) (order : Value) : list (string * Value) :=
  let payment_intent_id := str_field order "paymentIntentId" in
  if (str_field order "paymentStatus" =s? "captured") && negb (str_empty payment_intent_id) then
    if is_ok (stripe_refund stripe_refunds (ve_stripe_key e) payment_intent_id None "requested_by_customer"
                ("reject-shipping-" +:+ order_id) [("reason", "buyer_rejected_shipping")])
    then [("paymentStatus", VString "refunded")]
    else review_fields "Buyer rejected shipping but refund failed. Requires manual refund." true
  else [].
Definition rejected_doc (e : shipping_env) (order_id : string) (order : Value) : list (string * Value) :=
  answered_fields e "rejected"
  ++ [("cancellationReason", VString "Buyer rejected shipping cost"); ("orderStatus", VString "cancelled");
      ("stockRestored", VBool true)]
  ++ rejection_refund e order_id order.
(** [UPDATE orders SET data = data || $update::jsonb WHERE id = $order_id AND
    COALESCE(data->'shippingApproval'->>'status', '') = 'pending' RETURNING ..]:
    whether a row was updated. *)
Definition approval_pending (row : DocRow) : bool :=
  bool_decide ((get "shippingApproval" (row_data row) ≫= field_text "status") = Some "pending").
Definition reject_update (order_id : string) (fields : list (string * Value)) (now : Z) : handler bool := λ s,
  let s := (ensure_table "orders" s).1 in
  match table_rows s "orders" !! order_id with
  | Some row =>
      if approval_pending row
      then (<["orders" := <[order_id := merged_row (VObject fields) now row]> (table_rows s "orders")]> s, Ok true)
      else (s, Ok false)
  | None => (s, Ok false)
  end.
Definition reject_shipping (e : shipping_env) (order_id : string) (order : Value) : handler unit :=
  updated ← reject_update order_id (rejected_doc e order_id order) (ve_clock e 0);
  if negb (updated : bool) then pure (Err (Validation "No pending shipping approval"))
  else if bool_field order "stockRestored" then pure (Ok tt)
  else restore_stock_for_items e (items_array order).

Definition shipping_limit (e : shipping_env) (user_id action : string) : handler unit :=
  check_user_rate_limit pg_invalid_bigint (ve_test_mode e) user_id action 10 1 (ve_secs e) (ve_limit_id e) (ve_limit_now e).
Definition write_shipping (e : shipping_env) (order_id : string) (doc : Value) : handler unit :=
  _ ← db_map_err update_failed (update_document "orders" order_id doc (ve_clock e 0)); pure (Ok tt).
Definition approve_shipping_cost (e : shipping_env) (auth : AuthContext) (req : ApproveShippingRequest) :
    handler ApproveShippingResponse :=
  _ ← pure (validate_uid "orderId" (ap_order_id req));
  user_id ← pure (resolve_self_user_id auth (Some (ap_user_id req)) "userId");
  _ ← shipping_limit e user_id "approve_shipping_cost";
  order ← read_order (ap_order_id req);
  approval ← pure (approval_of e user_id order);
  _ ← (if ap_approved req then
         _ ← pure (approval_checks req order approval);
         write_shipping e (ap_order_id req)
           (approved_doc e order (amounts_with order (requesting_seller approval) (approved_cost approval)))
       else reject_shipping e (ap_order_id req) order);
  pure (Ok {| ap_success := true; ap_was_approved := ap_approved req |}).

(** ** The seller's correction *)

Definition update_checks (user_id : string) (order : Value) : Result unit :=
  let payment_status := str_field order "paymentStatus" in
  if negb (existsb (λ it, str_field it "sellerId" =s? user_id) (items_array order))
  then Err (Forbidden "You do not have items in this order")
  else if negb (bool_decide (str_field order "orderStatus" ∈ ["confirmed"; "processing"]))
  then Err (Validation "Can only update shipping on confirmed/processing orders")
  else if negb (payment_status =s? "authorized") && negb (payment_status =s? "captured")
  then Err (Validation ("Cannot update shipping cost: payment status is '" +:+ payment_status +:+ "'"))
  else Ok tt.
Definition pending_doc (e : shipping_env) (user_id reason : string) (original new : Z) : Value :=
  let now := VString (to_rfc3339 (ve_now e)) in
  VObject [("shippingApproval",
            VObject [("actualCost", VNumber (Float (dollars_of new))); ("newCostCents", of_i64 new);
                     ("originalCostCents", of_i64 original); ("reason", VString reason); ("requestedAt", now);
                     ("requestedBy", VString user_id); ("status", VString "pending")]);
           ("shippingApprovalRequired", VBool true); ("shippingApprovalStatus", VString "pending"); ("updatedAt", now)].
(** The totals of an order that is not captured, or the differences of one that
    is; the payment of an order that passed the checks is locked, so that Stripe is
    never asked. *)
Definition updated_fields (e : shipping_env) (order : Value) (a : new_amounts) : Result (list (string * Value)) :=
  let captured := str_field order "paymentStatus" =s? "captured" in
  let delta := i64_add (na_difference a) (na_tax_difference a) in
  let payment_intent_id := str_field order "paymentIntentId" in
  let reason := "Shipping auto-updated but payment is captured or locked. Manual review required." in
  if negb captured then
    _ ← (if (0 <? delta)%Z && negb (payment_locked order) && negb (str_empty payment_intent_id)
         then stripe_modify_pi e payment_intent_id (na_total a) else Ok tt);
    Ok ([("taxAmountCents", of_i64 (na_tax a)); ("totalAmountCents", of_i64 (na_total a))]
        ++ review_fields reason ((0 <? delta)%Z && payment_locked order))
  else if negb (na_difference a =? 0)%Z then
    Ok ([("shippingDiffCents", of_i64 (na_difference a)); ("taxDiffCents", of_i64 (na_tax_difference a))]
        ++ review_fields reason true)
  else Ok [].
Definition updated_doc (e : shipping_env) (a : new_amounts) (fields : list (string * Value)) : Value :=
  VObject ([("actualShippingCents", of_i64 (na_shipping a)); ("sellerShippingCosts", VObject (na_costs a));
            ("shippingCostCents", of_i64 (na_shipping a)); ("updatedAt", VString (to_rfc3339 (ve_now e)))] ++ fields).

Definition update_shipping_cost (e : shipping_env) (auth : AuthContext) (req : UpdateShippingCostRequest) :
    handler UpdateShippingCostResponse :=
  _ ← pure (validate_uid "orderId" (us_order_id req));
  user_id ← pure (resolve_self_user_id auth (Some (us_user_id req)) "userId");
  _ ← shipping_limit e user_id "update_shipping_cost";
  if (us_new_shipping_cost_cents req <? 0)%Z then pure (Err (Validation "newShippingCost must be non-negative"))
  else
    let reason := default "Actual shipping cost differs from estimate" (sanitized_opt 500 (us_reason req)) in
    order ← read_order (us_order_id req);
    _ ← pure (update_checks user_id order);
    let original := cost_of user_id (seller_costs order) in
    let new := us_new_shipping_cost_cents req in
    let approval_required := shipping_update_requires_approval original new in
    _ ← (if approval_required then write_shipping e (us_order_id req) (pending_doc e user_id reason original new)
         else
           let a := amounts_with order user_id new in
           fields ← pure (updated_fields e order a);
           write_shipping e (us_order_id req) (updated_doc e a fields));
    pure (Ok {| us_success := true; us_approval_required := approval_required |}).

(** ** What the handlers write *)

Inductive shipping_call : Type :=
| BuyerAnswers (req : ApproveShippingRequest)
| SellerCorrects (req : UpdateShippingCostRequest).
Definition call_shipping (e : shipping_env) (auth : AuthContext) (call : shipping_call) : handler unit :=
  match call with
  | BuyerAnswers req => _ ← approve_shipping_cost e auth req; pure (Ok tt)
  | SellerCorrects req => _ ← update_shipping_cost e auth req; pure (Ok tt)
  end.

(** The cost a seller asks for. *)
Definition asked_of (call : shipping_call) : Z :=
  match call with BuyerAnswers _ => 0%Z | SellerCorrects req => us_new_shipping_cost_cents req end.

(** The fields written to an order, and by whom. *)
Inductive shipping_write (e : shipping_env) (new : Z) (u id : string) (order : Value) : list (string * Value) → Prop :=
| write_approved approval req fields :
    approval_of e u order = Ok approval → approval_checks req order approval = Ok tt →
    approved_doc e order (amounts_with order (requesting_seller approval) (approved_cost approval)) = VObject fields →
    shipping_write e new u id order fields
| write_rejected approval :
    approval_of e u order = Ok approval → shipping_write e new u id order (rejected_doc e id order)
| write_pending reason fields :
    update_checks u order = Ok tt → shipping_update_requires_approval (cost_of u (seller_costs order)) new = true →
    pending_doc e u reason (cost_of u (seller_costs order)) new = VObject fields → shipping_write e new u id order fields
| write_updated more fields :
    update_checks u order = Ok tt → (0 ≤ new)%Z →
    shipping_update_requires_approval (cost_of u (seller_costs order)) new = false →
    updated_fields e order (amounts_with order u new) = Ok more →
    updated_doc e (amounts_with order u new) more = VObject fields → shipping_write e new u id order fields.

(** The orders are as they were, or one of them had such fields merged. *)
Definition written (e : shipping_env) (new : Z) (u : string) (rs rs' : rows) : Prop :=
  rs' = rs ∨ ∃ id row fields now, rs !! id = Some row
    ∧ shipping_write e new u id (row_to_doc id row) fields ∧ rs' = <[id := merged_row (VObject fields) now row]> rs.

Lemma read_order_rows order_id s s1 order :
  read_order order_id s = (s1, Ok order) →
  ∃ row, table_rows s1 "orders" !! bare_id "orders" order_id = Some row ∧ order = row_to_doc (bare_id "orders" order_id) row.
Proof.
  intros H. destruct (table_rows s "orders" !! bare_id "orders" order_id) as [row|] eqn:E.
  - rewrite (read_order_run _ _ _ E) in H. injection H as <- <-. exists row. by rewrite table_rows_ensured.
  - unfold read_order, db_map_err, get_document in H. rewrite with_table_valid in H by done. cbv beta zeta in H.
    rewrite table_rows_ensured, E in H. done.
Qed.

Lemma written_update e new u order_id row doc fields s :
  table_rows s "orders" !! bare_id "orders" order_id = Some row →
  doc = VObject fields → shipping_write e new u (bare_id "orders" order_id) (row_to_doc (bare_id "orders" order_id) row) fields →
  written e new u (table_rows s "orders") (table_rows (write_shipping e order_id doc s).1 "orders").
Proof.
  intros Hrow -> Hw. right. eexists _, row, fields, (ve_clock e 0). split; [done|]. split; [done|].
  unfold write_shipping. rewrite before_keeps by done. pose proof (update_rows "orders" order_id (VObject fields) (ve_clock e 0) s) as Hu.
  rewrite Hrow in Hu. unfold db_map_err. by destruct (update_document _ _ _ _ s).
Qed.

Lemma written_reject e new u order_id order s :
  plain_orders s →
  (∀ row, table_rows s "orders" !! order_id = Some row → bare_id "orders" order_id = order_id →
     shipping_write e new u order_id (row_to_doc order_id row) (rejected_doc e order_id order)) →
  written e new u (table_rows s "orders") (table_rows (reject_shipping e order_id order s).1 "orders").
Proof.
  intros Hplain Hw. unfold reject_shipping.
  rewrite before_keeps by (intros b; repeat (case_match; [done|]); by apply keeps_restore_items).
  unfold reject_update. cbv zeta. rewrite keeps_ensure_first.
  destruct (table_rows s "orders" !! order_id) as [row|] eqn:E; [|left; apply keeps_ensure_first].
  destruct (approval_pending row); [|left; apply keeps_ensure_first]. cbn [fst]. right.
  eexists order_id, row, _, _. split; [done|]. split; [|by rewrite table_rows_insert].
  apply Hw; [done|]. apply Hplain. unfold orders_of. by rewrite E.
Qed.

Lemma plain_same s s1 : table_rows s1 "orders" = table_rows s "orders" → plain_orders s → plain_orders s1.
Proof. intros Hk Hp id. unfold orders_of. rewrite Hk. apply Hp. Qed.
(** A step that leaves the orders alone. *)
Ltac over_order := apply (after_keeps "orders" (written _ _ _)); [by left| |].

Lemma call_writes e auth call s :
  plain_orders s → written e (asked_of call) (auth_user_id auth) (table_rows s "orders") (table_rows (call_shipping e auth call s).1 "orders").
Proof.
  intros Hplain. destruct call as [req|req]; cbn [call_shipping]; rewrite before_keeps by done.
  - unfold approve_shipping_cost. over_order; [done|]. intros s1 _ _ Hk1. apply (plain_same _ _ Hk1) in Hplain.
    over_order; [done|]. intros s2 u Hu Hk2. apply pure_ok in Hu as [-> Hu]. apply resolve_self_ok in Hu as ->. clear Hk2.
    over_order; [by apply keeps_rate_limit|]. intros s3 _ _ Hk3. apply (plain_same _ _ Hk3) in Hplain.
    over_order; [apply keeps_map_err, keeps_get|]. intros s4 order Ho Hk4. apply (plain_same _ _ Hk4) in Hplain.
    apply read_order_rows in Ho as (row & Hrow & ->).
    over_order; [done|]. intros s5 approval Ha _. apply pure_ok in Ha as [-> Ha]. rewrite before_keeps by done.
    destruct (ap_approved req).
    + over_order; [done|]. intros s6 [] Hc _. apply pure_ok in Hc as [-> Hc].
      eapply written_update; [done|reflexivity|]. by eapply write_approved.
    + apply written_reject; [done|]. intros row' Hrow' Hid. rewrite Hid in *. rewrite Hrow in Hrow'. injection Hrow' as <-.
      by eapply write_rejected.
  - unfold update_shipping_cost. over_order; [done|]. intros s1 _ _ Hk1. apply (plain_same _ _ Hk1) in Hplain.
    over_order; [done|]. intros s2 u Hu Hk2. apply pure_ok in Hu as [-> Hu]. apply resolve_self_ok in Hu as ->. clear Hk2.
    over_order; [by apply keeps_rate_limit|]. intros s3 _ _ Hk3. apply (plain_same _ _ Hk3) in Hplain.
    destruct (us_new_shipping_cost_cents req <? 0)%Z eqn:Hneg; [by left|]. cbv zeta.
    over_order; [apply keeps_map_err, keeps_get|]. intros s4 order Ho _. apply read_order_rows in Ho as (row & Hrow & ->).
    over_order; [done|]. intros s5 [] Hc _. apply pure_ok in Hc as [-> Hc]. rewrite before_keeps by done.
    case_match eqn:Happ.
    + eapply written_update; [done|reflexivity|]. by eapply write_pending.
    + over_order; [done|]. intros s6 fields Hf _. apply pure_ok in Hf as [-> Hf].
      eapply written_update; [done|reflexivity|]. eapply write_updated; [done|cbn [asked_of]; lia|done|done|reflexivity].
Qed.

(** ** The amounts *)

(** What the buyer pays for besides shipping and tax, modulo the width of an
    [i64]. *)
Definition rest_of (v : Value) : Z :=
  ((cents v "totalAmountCents" - cents v "shippingCostCents" - cents v "taxAmountCents") `mod` 2 ^ 64)%Z.

Lemma wrap_congruent z : ∃ k, wrap_signed 64 z = (z + k * 2 ^ 64)%Z.
Proof.
  exists (- ((z + 2 ^ 63) / 2 ^ 64))%Z. unfold wrap_signed. change (64 - 1)%Z with 63%Z.
  pose proof (Z.div_mod (z + 2 ^ 63) (2 ^ 64)). lia.
Qed.
Lemma sum_costs_range costs : (- 2 ^ 63 ≤ sum_costs costs ≤ i64_max)%Z.
Proof.
  unfold sum_costs. generalize ((λ kv : string * Value, default 0%Z (as_i64 kv.2)) <$> costs). intros l.
  assert (∀ z, - 2 ^ 63 ≤ z ≤ i64_max → - 2 ^ 63 ≤ foldl i64_add z l ≤ i64_max)%Z as H; [|apply H; unfold i64_max; lia].
  induction l as [|x l IH]; intros z Hz; [done|]. apply IH. pose proof (wrap_signed_range 64 (z + x) ltac:(lia)).
  unfold i64_add, i64_max in *. lia.
Qed.

Lemma amounts_balanced order seller cost :
  let a := amounts_with order seller cost in
  ((na_total a - na_shipping a - na_tax a) `mod` 2 ^ 64)%Z = rest_of order.
Proof.
  cbn -[Z.pow]. unfold rest_of, i64_add, i64_sub. set (S' := sum_costs _). set (D := wrap_signed 64 (S' - _)).
  set (X := if (D =? 0)%Z then _ else _).
  destruct (wrap_congruent (S' - cents order "shippingCostCents")) as [k1 H1]. fold D in H1.
  destruct (wrap_congruent (cents order "totalAmountCents" + D)) as [k2 H2].
  destruct (wrap_congruent (wrap_signed 64 (cents order "totalAmountCents" + D) + X)) as [k3 H3].
  destruct (wrap_congruent (cents order "taxAmountCents" + X)) as [k4 H4]. rewrite H3, H4, H2.
  symmetry. rewrite <- (Z_mod_plus_full _ (k1 + k2 + k3 - k4)). f_equal. lia.
Qed.

(** Amounts read from a merged row. *)
Lemma cents_merged fields now row m k :
  NoDup fields.*1 → row_data row = VObject m →
  cents (row_data (merged_row (VObject fields) now row)) k
  = match assoc_get k fields with Some v => default 0%Z (as_i64 v) | None => cents (row_data row) k end.
Proof.
  intros Hnd Hm. unfold cents, i64_field. rewrite (merged_row_get _ _ _ m) by done. by destruct (assoc_get k fields).
Qed.
Lemma cents_doc id row k : ¬ is_metadata k → cents (row_to_doc id row) k = cents (row_data row) k.
Proof. intros Hk. unfold cents, i64_field. by rewrite get_row_to_doc. Qed.
Lemma rest_doc id row : rest_of (row_to_doc id row) = rest_of (row_data row).
Proof. unfold rest_of. by rewrite !cents_doc by concrete. Qed.
Lemma read_back z : (- 2 ^ 63 ≤ z ≤ i64_max)%Z → default 0%Z (as_i64 (of_i64 z)) = z.
Proof. intros Hz. by rewrite as_i64_of_i64 by lia. Qed.
Lemma amounts_range order seller cost :
  let a := amounts_with order seller cost in
  (- 2 ^ 63 ≤ na_shipping a ≤ i64_max)%Z ∧ (- 2 ^ 63 ≤ na_tax a ≤ i64_max)%Z ∧ (- 2 ^ 63 ≤ na_total a ≤ i64_max)%Z.
Proof.
  cbn -[Z.pow]. split; [apply sum_costs_range|]. assert (∀ z, - 2 ^ 63 ≤ wrap_signed 64 z ≤ i64_max)%Z as H.
  { intros z. pose proof (wrap_signed_range 64 z ltac:(lia)). unfold i64_max. lia. }
  split; apply H.
Qed.

(** New totals balance: the rest stays. *)
Lemma rest_merged fields now id row m seller cost :
  let a := amounts_with (row_to_doc id row) seller cost in
  NoDup fields.*1 → row_data row = VObject m → assoc_get "shippingCostCents" fields = Some (of_i64 (na_shipping a)) →
  assoc_get "taxAmountCents" fields = Some (of_i64 (na_tax a)) → assoc_get "totalAmountCents" fields = Some (of_i64 (na_total a)) →
  rest_of (row_data (merged_row (VObject fields) now row)) = rest_of (row_data row).
Proof.
  intros a Hnd Hm Hs Ht Hto. unfold rest_of at 1. rewrite !(cents_merged _ _ _ m), Hs, Ht, Hto by done.
  rewrite <- (rest_doc id row), <- (amounts_balanced _ seller cost). fold a.
  destruct (amounts_range (row_to_doc id row) seller cost) as (? & ? & ?). by rewrite !read_back.
Qed.
Lemma rest_untouched fields now row m :
  NoDup fields.*1 → row_data row = VObject m → assoc_get "shippingCostCents" fields = None →
  assoc_get "taxAmountCents" fields = None → assoc_get "totalAmountCents" fields = None →
  rest_of (row_data (merged_row (VObject fields) now row)) = rest_of (row_data row).
Proof. intros Hnd Hm Hs Ht Hto. unfold rest_of. by rewrite !(cents_merged _ _ _ m), Hs, Ht, Hto by done. Qed.

(** The fields of each write that matter for the amounts. *)
Lemma approved_fields e order a fields :
  approved_doc e order a = VObject fields →
  NoDup fields.*1 ∧ assoc_get "shippingCostCents" fields = Some (of_i64 (na_shipping a))
  ∧ assoc_get "taxAmountCents" fields = Some (of_i64 (na_tax a)) ∧ assoc_get "totalAmountCents" fields = Some (of_i64 (na_total a)).
Proof.
  unfold approved_doc. generalize (approval_review e order a). intros b [= <-].
  split; [destruct b; concrete|]. destruct b; split_and!; reflexivity.
Qed.
Lemma rejected_fields e id order k :
  let fields := rejected_doc e id order in
  NoDup fields.*1 ∧ (k ∈ ["shippingCostCents"; "taxAmountCents"; "totalAmountCents"] → assoc_get k fields = None).
Proof.
  cbv zeta. unfold rejected_doc, rejection_refund. set (r := is_ok _). clearbody r.
  case_match; [destruct r|]; (split; [concrete|]); intros Hk; set_unfold in Hk; by destruct Hk as [->|[->|[->|[]]]].
Qed.
Lemma updated_fields_captured e order a more :
  str_field order "paymentStatus" = "captured" → updated_fields e order a = Ok more →
  na_difference a = 0%Z ∧ more = []
  ∨ more = [("shippingDiffCents", of_i64 (na_difference a)); ("taxDiffCents", of_i64 (na_tax_difference a));
            ("requiresManualReview", VBool true);
            ("manualReviewReason", VString "Shipping auto-updated but payment is captured or locked. Manual review required.")].
Proof.
  intros Hc. unfold updated_fields. rewrite Hc. cbn -[of_i64].
  destruct (na_difference a =? 0)%Z eqn:E; cbn -[of_i64]; intros [= <-]; [left|by right]. split; [lia|done].
Qed.
Lemma updated_fields_open e order a more :
  str_field order "paymentStatus" ≠ "captured" → updated_fields e order a = Ok more →
  ∃ review, more = [("taxAmountCents", of_i64 (na_tax a)); ("totalAmountCents", of_i64 (na_total a))]
    ++ review_fields "Shipping auto-updated but payment is captured or locked. Manual review required." review.
Proof.
  intros Hc. unfold updated_fields. destruct (_ =s? "captured") eqn:E; [by bools|]. cbn [negb].
  intros H. destruct (if _ && _ then _ else _) as [[]| |]; [|done..]. injection H as <-. eauto.
Qed.

Lemma updated_lookup e a more fields :
  updated_doc e a more = VObject fields →
  assoc_get "shippingCostCents" fields = Some (of_i64 (na_shipping a))
  ∧ ∀ k, k ∈ ["taxAmountCents"; "totalAmountCents"; "shippingDiffCents"; "requiresManualReview"] →
      assoc_get k fields = assoc_get k more.
Proof.
  intros [= <-]. split; [reflexivity|]. intros k Hk. set_unfold in Hk. by destruct Hk as [->|[->|[->|[->|[]]]]].
Qed.
Lemma updated_nodup e a more fields :
  updated_doc e a more = VObject fields → more.*1 ∈ [[]; ["shippingDiffCents"; "taxDiffCents"; "requiresManualReview"; "manualReviewReason"];
    ["taxAmountCents"; "totalAmountCents"]; ["taxAmountCents"; "totalAmountCents"; "requiresManualReview"; "manualReviewReason"]] →
  NoDup fields.*1.
Proof.
  intros [= <-] Hm. cbn [app fmap list_fmap fst]. set_unfold in Hm. destruct Hm as [->|[->|[->|[->|[]]]]]; concrete.
Qed.
Lemma captured_rest a fields now row m :
  na_difference a = i64_sub (na_shipping a) (cents (row_data row) "shippingCostCents") → na_difference a = 0%Z →
  (- 2 ^ 63 ≤ na_shipping a ≤ i64_max)%Z → NoDup fields.*1 → row_data row = VObject m →
  assoc_get "shippingCostCents" fields = Some (of_i64 (na_shipping a)) →
  assoc_get "taxAmountCents" fields = None → assoc_get "totalAmountCents" fields = None →
  rest_of (row_data (merged_row (VObject fields) now row)) = rest_of (row_data row).
Proof.
  intros Hd Hz Hr Hnd Hm Hs Ht Hto. unfold rest_of. rewrite !(cents_merged _ _ _ m), Hs, Ht, Hto, read_back by done.
  rewrite Hz in Hd. unfold i64_sub in Hd. destruct (wrap_congruent (na_shipping a - cents (row_data row) "shippingCostCents")) as [k Hk].
  symmetry. rewrite <- (Z_mod_plus_full _ k). f_equal. lia.
Qed.

(** C22: the amounts of an order stay consistent.  Whatever buyers answer and
    sellers correct, and whether it succeeds or fails: what an order costs besides
    shipping and tax never changes.  The one exception is the correction of an
    order already captured, where the total and the tax stay, and the order is
    marked for manual review with the difference of the shipping. *)
Theorem shipping_amounts_consistent e auth call s id row m :
  plain_orders s → table_rows s "orders" !! id = Some row → row_data row = VObject m →
  ∃ row', table_rows (call_shipping e auth call s).1 "orders" !! id = Some row'
    ∧ (rest_of (row_data row') = rest_of (row_data row)
       ∨ str_field (row_data row) "paymentStatus" = "captured"
         ∧ get "requiresManualReview" (row_data row') = Some (VBool true)
         ∧ cents (row_data row') "totalAmountCents" = cents (row_data row) "totalAmountCents"
         ∧ cents (row_data row') "taxAmountCents" = cents (row_data row) "taxAmountCents"
         ∧ cents (row_data row') "shippingDiffCents"
           = i64_sub (cents (row_data row') "shippingCostCents") (cents (row_data row) "shippingCostCents")).
Proof.
  intros Hplain Hrow Hm. destruct (call_writes e auth call s Hplain) as [->|(id' & row0 & fields & now & Hrow0 & Hw & ->)].
  { exists row. split; [done|by left]. }
  destruct (decide (id' = id)) as [->|Hne]; [|rewrite lookup_insert_ne by done; exists row; split; [done|by left]].
  rewrite Hrow in Hrow0. injection Hrow0 as <-. rewrite lookup_insert_eq. eexists. split; [reflexivity|].
  destruct Hw as [approval req fields _ _ Hd|approval Ha|reason fields _ _ Hd|more fields Hc _ _ Hf Hd].
  - left. apply approved_fields in Hd as (Hnd & H1 & H2 & H3). by eapply rest_merged.
  - left. apply (rest_untouched _ _ _ m); try done; first [by apply (rejected_fields e id _ "")|apply rejected_fields; concrete].
  - left. injection Hd as <-. by apply (rest_untouched _ _ _ m); [concrete|..].
  - set (new := asked_of call) in *. set (a := amounts_with (row_to_doc id row) (auth_user_id auth) new) in *.
    pose proof (amounts_range (row_to_doc id row) (auth_user_id auth) new) as (Hr & _). fold a in Hr.
    assert (na_difference a = i64_sub (na_shipping a) (cents (row_data row) "shippingCostCents")) as Hdiff.
    { unfold a. cbn. by rewrite cents_doc by concrete. }
    destruct (updated_lookup _ _ _ _ Hd) as [Hs Hk]. rewrite <- (str_field_doc id) by concrete.
    destruct (decide (str_field (row_to_doc id row) "paymentStatus" = "captured")) as [Hcap|Hcap].
    + apply updated_fields_captured in Hf as [[Hz ->]| ->]; [left|right|done];
        (assert (NoDup fields.*1) as Hnd by (eapply updated_nodup; [exact Hd|concrete])).
      * apply (captured_rest a _ _ _ m); try done; rewrite Hk by concrete; done.
      * rewrite (merged_row_get _ _ _ m), !(cents_merged _ _ _ m), Hs, !Hk by first [done|concrete].
        split_and!; try done. clearbody a. rewrite (read_back (na_shipping a)) by done. rewrite <- Hdiff.
        change (default 0%Z (as_i64 (of_i64 (na_difference a))) = na_difference a). apply read_back. rewrite Hdiff.
        pose proof (wrap_signed_range 64 (na_shipping a - cents (row_data row) "shippingCostCents")).
        unfold i64_sub, i64_max. lia.
    + apply updated_fields_open in Hf as [review ->]; [left|done].
      assert (NoDup fields.*1) as Hnd by (eapply updated_nodup; [exact Hd|destruct review; concrete]).
      apply (rest_merged _ _ id row m (auth_user_id auth) new); try done; rewrite Hk by concrete; done.
Qed.

(** ** Who changes an order *)

Lemma approval_of_ok e u order approval :
  approval_of e u order = Ok approval → str_field order "userId" = u ∧ get "shippingApproval" order = Some (VObject approval)
  ∧ get "status" (VObject approval) = Some (VString "pending").
Proof.
  unfold approval_of. set (ex := match _ ≫= parse_rfc3339 with Some _ => _ | None => _ end).
  destruct ex; [done|]. case_match eqn:Hu; [done|]. bools.
  destruct (get "shippingApproval" order) as [[| | | | |m]|]; try done. cbn -[assoc_get].
  destruct (assoc_get "status" m) as [v|] eqn:Hs; [|done]. case_match eqn:E; [done|]. bools. intros [= <-].
  split_and!; try done. cbn [get]. rewrite Hs. destruct v; try done. cbn in E. by subst.
Qed.
Lemma update_checks_ok u order :
  update_checks u order = Ok tt →
  (∃ item, item ∈ items_array order ∧ str_field item "sellerId" = u)
  ∧ str_field order "orderStatus" ∈ ["confirmed"; "processing"] ∧ str_field order "paymentStatus" ∈ ["authorized"; "captured"].
Proof.
  unfold update_checks. cbv zeta. case_match eqn:H1; [done|]. case_match eqn:H2; [done|]. case_match eqn:H3; [done|].
  intros _. apply negb_false_iff in H1, H2. apply bool_decide_eq_true in H2. split_and!; [|done|].
  - apply existsb_exists in H1 as (item & Hin & Hs). bools. exists item. split; [by apply list_elem_of_In|done].
  - destruct (_ =s? "authorized") eqn:E; bools; [rewrite E; set_solver|]. cbn [negb andb] in H3. bools. rewrite H3. set_solver.
Qed.

(** The party of an order: its buyer, or the seller of one of its items. *)
Definition party (u : string) (v : Value) : Prop :=
  str_field v "userId" = u ∨ ∃ item, item ∈ items_array v ∧ str_field item "sellerId" = u.
Lemma write_by_party e new u id row fields : shipping_write e new u id (row_to_doc id row) fields → party u (row_data row).
Proof.
  assert (party u (row_to_doc id row) → party u (row_data row)) as Hdoc.
  { unfold party. by rewrite str_field_doc, items_doc by concrete. }
  intros Hw. apply Hdoc. destruct Hw as [? ? ? Ha|? Ha|? ? Hc|? ? Hc]; try (apply approval_of_ok in Ha; left; apply Ha);
    apply update_checks_ok in Hc; right; apply Hc.
Qed.

(** An order that a shipping request changes is changed by its buyer or by the
    seller of one of its items. *)
Theorem shipping_changed_by_party e auth call s id :
  plain_orders s → table_rows (call_shipping e auth call s).1 "orders" !! id ≠ table_rows s "orders" !! id →
  ∃ row, table_rows s "orders" !! id = Some row ∧ party (auth_user_id auth) (row_data row).
Proof.
  intros Hplain Hne. destruct (call_writes e auth call s Hplain) as [E|(id' & row & fields & now & Hrow & Hw & E)]; rewrite E in Hne; [done|].
  destruct (decide (id' = id)) as [->|Hid]; [|by rewrite lookup_insert_ne in Hne].
  exists row. split; [done|]. by eapply write_by_party.
Qed.

(** ** How far a cost rises *)
Local Open Scope Z_scope.

Lemma assoc_get_fmap (f : Value → Value) k (m : list (string * Value)) :
  assoc_get k ((λ kv : string * Value, (kv.1, f kv.2)) <$> m) = f <$> assoc_get k m.
Proof. induction m as [|[k' v] m IH]; [done|]. cbn. by destruct (k =s? k'). Qed.
Definition cost_in (row : DocRow) (seller : string) : Z := cost_of seller (seller_costs (row_data row)).
(** The largest amount whose ten thousandfold fits an [i64], rounded down. *)
Definition cost_limit : Z := 900 * 10 ^ 12.

Lemma cost_normal seller m :
  cost_of seller ((λ kv : string * Value, (kv.1, of_i64 (default 0 (as_i64 kv.2)))) <$> m)
  = default 0 (as_i64 (of_i64 (cost_of seller m))).
Proof.
  unfold cost_of. rewrite (assoc_get_fmap (λ v, of_i64 (default 0 (as_i64 v)))). by destruct (assoc_get seller m).
Qed.
Lemma read_twice z : default 0 (as_i64 (of_i64 (default 0 (as_i64 (of_i64 z))))) = default 0 (as_i64 (of_i64 z)).
Proof.
  destruct (decide (z ≤ i64_max)) as [Hz|Hz]; [rewrite (as_i64_of_i64 z Hz); cbn [default from_option id]; by rewrite (as_i64_of_i64 z Hz)|].
  assert (as_i64 (of_i64 z) = None) as ->; [|done]. unfold of_i64, i64_max in *. destruct (z <? 0) eqn:E; [lia|]. cbn [as_i64].
  rewrite Z2N.id by lia. unfold i64_max. by rewrite (proj2 (Z.leb_gt _ _)) by lia.
Qed.

(** The costs after a write that sets one of them. *)
Lemma cost_written fields now row m seller cost x order :
  NoDup fields.*1 → row_data row = VObject m → seller_costs order = seller_costs (row_data row) → cost ≤ i64_max →
  assoc_get "sellerShippingCosts" fields = Some (VObject (na_costs (amounts_with order seller cost))) →
  cost_in (merged_row (VObject fields) now row) x = if x =s? seller then cost else cost_in row x.
Proof.
  intros Hnd Hm Ho Hc Hf. unfold cost_in at 1, seller_costs at 1. rewrite (merged_row_get _ _ _ m), Hf by done.
  cbn [mbind option_bind as_object default from_option id]. rewrite cost_normal. cbn [na_costs amounts_with]. rewrite Ho.
  unfold cost_of at 1. destruct (x =s? seller) eqn:E; bools.
  - subst x. rewrite assoc_get_insert. cbn [mbind option_bind]. rewrite (as_i64_of_i64 cost Hc).
    cbn [default from_option id]. by rewrite (as_i64_of_i64 cost Hc).
  - rewrite assoc_get_insert_ne by done. change (default 0 (assoc_get x ?c ≫= as_i64)) with (cost_of x c).
    unfold cost_in, seller_costs. rewrite cost_normal. apply read_twice.
Qed.
Lemma cost_kept fields now row m x :
  NoDup fields.*1 → row_data row = VObject m → assoc_get "sellerShippingCosts" fields = None →
  cost_in (merged_row (VObject fields) now row) x = cost_in row x.
Proof. intros Hnd Hm Hf. unfold cost_in, seller_costs. by rewrite (merged_row_get _ _ _ m), Hf by done. Qed.

Lemma unapproved_bound old new :
  0 ≤ old ≤ cost_limit → 0 ≤ new ≤ cost_limit → shipping_update_requires_approval old new = false → 10000 * new ≤ 12001 * old.
Proof.
  unfold cost_limit. intros Ho Hn. unfold shipping_update_requires_approval, SHIPPING_APPROVAL_THRESHOLD_BPS, i64_sub, i64_mul.
  destruct (0 <? old) eqn:E; [|lia]. cbv zeta.
  rewrite (wrap_signed_id 64 (new - old)) by lia. rewrite wrap_signed_id by lia. intros H.
  pose proof (Z.quot_rem' ((new - old) * 10000) old). pose proof (Z.rem_bound_abs ((new - old) * 10000) old ltac:(lia)).
  set (q := ((new - old) * 10000) `quot` old) in *. set (r := Z.rem ((new - old) * 10000) old) in *. clearbody q r.
  apply Z.ltb_ge in H. assert (old * q ≤ old * 2000) by (apply Z.mul_le_mono_nonneg_l; lia). lia.
Qed.
Lemma approved_bound old new :
  0 ≤ old ≤ cost_limit → new ≤ max_allowed_shipping_cents old →
  old = 0 ∧ new ≤ 50000 ∨ 100 * new ≤ 120 * old + 50.
Proof.
  unfold cost_limit, max_allowed_shipping_cents, i64_add, i64_mul. intros Ho Hnew. destruct (old =? 0) eqn:E; [left; split; [lia|done]|].
  unfold SHIPPING_APPROVAL_MULTIPLIER_BPS in Hnew. rewrite (wrap_signed_id 64 (old * 120)) in Hnew by lia.
  rewrite wrap_signed_id in Hnew by lia. right.
  pose proof (Z.quot_rem' (old * 120 + 50) 100). pose proof (Z.rem_bound_pos (old * 120 + 50) 100 ltac:(lia) ltac:(lia)).
  set (q := (old * 120 + 50) `quot` 100) in *. lia.
Qed.

Lemma costs_doc id row : seller_costs (row_to_doc id row) = seller_costs (row_data row).
Proof. unfold seller_costs. by rewrite get_row_to_doc by concrete. Qed.
Lemma approved_cost_max approval : approved_cost approval ≤ i64_max.
Proof.
  unfold approved_cost, f64_round_as_i64, f64_to_i64, saturate_i64. case_match; unfold i64_max; try case_match; lia.
Qed.
Lemma approval_checks_ok req order approval :
  approval_checks req order approval = Ok tt →
  approved_cost approval ≤ max_allowed_shipping_cents (cost_of (requesting_seller approval) (seller_costs order)).
Proof.
  unfold approval_checks. cbv zeta. lazymatch goal with |- (if ?b then _ else _) = _ → _ => destruct b end; [done|].
  destruct (_ <? approved_cost approval) eqn:E; [done|]. intros _. lia.
Qed.
Lemma approved_costs e order a fields :
  approved_doc e order a = VObject fields → assoc_get "sellerShippingCosts" fields = Some (VObject (na_costs a)).
Proof. by intros [= <-]. Qed.
Lemma updated_costs e a more fields :
  updated_doc e a more = VObject fields → assoc_get "sellerShippingCosts" fields = Some (VObject (na_costs a)).
Proof. by intros [= <-]. Qed.
Lemma updated_fields_nodup e order a more fields :
  updated_fields e order a = Ok more → updated_doc e a more = VObject fields → NoDup fields.*1.
Proof.
  intros Hf Hd. eapply updated_nodup; [exact Hd|]. destruct (decide (str_field order "paymentStatus" = "captured")) as [Hc|Hc].
  - by apply updated_fields_captured in Hf as [[_ ->]| ->]; [concrete|concrete|].
  - apply updated_fields_open in Hf as [review ->]; [|done]. destruct review; concrete.
Qed.

(** A shipping cost rises only within bounds.  Of a request with amounts below
    nine hundred trillion cents, whoever sends it: the cost of a seller of an order
    never rises, or its seller raised it himself to less than 120.01 per cent, or
    the buyer approved it, and then it is at most 120 per cent, half a cent rounded
    up, or 500 dollars where shipping had been free. *)
Theorem shipping_increase_bounded e auth call s id row row' m x :
  plain_orders s → asked_of call ≤ cost_limit →
  table_rows s "orders" !! id = Some row → row_data row = VObject m → 0 ≤ cost_in row x ≤ cost_limit →
  table_rows (call_shipping e auth call s).1 "orders" !! id = Some row' →
  cost_in row' x ≤ cost_in row x
  ∨ x = auth_user_id auth ∧ 10000 * cost_in row' x ≤ 12001 * cost_in row x
  ∨ str_field (row_data row) "userId" = auth_user_id auth
    ∧ (cost_in row x = 0 ∧ cost_in row' x ≤ 50000 ∨ 100 * cost_in row' x ≤ 120 * cost_in row x + 50).
Proof.
  intros Hplain Hreq Hrow Hm Hold Hrow'.
  destruct (call_writes e auth call s Hplain) as [E|(id' & row0 & fields & now & Hrow0 & Hw & E)]; rewrite E in Hrow'.
  { rewrite Hrow in Hrow'. injection Hrow' as <-. by left. }
  destruct (decide (id' = id)) as [->|Hne]; [|rewrite lookup_insert_ne, Hrow in Hrow' by done; injection Hrow' as <-; by left].
  rewrite lookup_insert_eq in Hrow'. injection Hrow' as <-. rewrite Hrow in Hrow0. injection Hrow0 as <-. clear E.
  destruct Hw as [approval req fields Ha Hc Hd|approval Ha|reason fields _ _ Hd|more fields _ Hpos Happ Hf Hd].
  - destruct (approved_fields _ _ _ _ Hd) as [Hnd _]. apply approved_costs in Hd.
    rewrite (cost_written _ _ _ m _ _ _ _ Hnd Hm (costs_doc id row) (approved_cost_max _) Hd).
    destruct (x =s? _) eqn:E; bools; [|left; lia]. subst x. right. right. split.
    + apply approval_of_ok in Ha as [Ha _]. by rewrite str_field_doc in Ha by concrete.
    + apply approval_checks_ok in Hc. rewrite costs_doc in Hc. by apply approved_bound.
  - left. rewrite (cost_kept _ _ _ m); [lia|apply (rejected_fields e id _ "")|done|].
    unfold rejected_doc, rejection_refund. set (r := is_ok _). clearbody r. case_match; [by destruct r|done].
  - left. injection Hd as <-. rewrite (cost_kept _ _ _ m); [lia|concrete|done|done].
  - pose proof (updated_fields_nodup _ _ _ _ _ Hf Hd) as Hnd. apply updated_costs in Hd.
    rewrite costs_doc in Happ. fold (cost_in row (auth_user_id auth)) in Happ.
    assert (asked_of call ≤ i64_max) as Hmax by (unfold cost_limit, i64_max in *; lia).
    rewrite (cost_written _ _ _ m _ _ _ _ Hnd Hm (costs_doc id row) Hmax Hd).
    destruct (x =s? _) eqn:E; bools; [|left; lia]. subst x. right. left. split; [done|]. by apply unapproved_bound.
Qed.

(** ** What the buyer approves *)

(** The amount survives as dollars in binary64. *)
Definition dollars_exact (n : Z) : bool := f64_round_as_i64 (f64_mul (dollars_of n) (f64_of_Z 100)) =? n.

Lemma write_shipping_ok e order_id doc s s' a row :
  table_rows s "orders" !! bare_id "orders" order_id = Some row → write_shipping e order_id doc s = (s', Ok a) →
  table_rows s' "orders" = <[bare_id "orders" order_id := merged_row doc (ve_clock e 0) row]> (table_rows s "orders").
Proof.
  intros Hrow H. unfold write_shipping in H. run_inv H. apply pure_ok in H as [-> _].
  pose proof (update_rows "orders" order_id doc (ve_clock e 0) s) as Hu. by rewrite Hrow, R in Hu.
Qed.
Lemma limited_orders e user_id action s s' a :
  shipping_limit e user_id action s = (s', Ok a) → table_rows s' "orders" = table_rows s "orders".
Proof. apply keeps_run. by apply keeps_rate_limit. Qed.
Lemma read_order_ok order_id s s' order :
  read_order order_id s = (s', Ok order) → table_rows s' "orders" = table_rows s "orders"
  ∧ ∃ row, table_rows s "orders" !! bare_id "orders" order_id = Some row ∧ order = row_to_doc (bare_id "orders" order_id) row.
Proof.
  intros H. assert (table_rows s' "orders" = table_rows s "orders") as Hk by (eapply keeps_run; [|exact H]; apply keeps_map_err, keeps_get).
  split; [done|]. rewrite <- Hk. by eapply read_order_rows.
Qed.

Lemma update_pending_ok e auth req s s' r :
  update_shipping_cost e auth req s = (s', Ok r) → us_approval_required r = true →
  let id := bare_id "orders" (us_order_id req) in let u := auth_user_id auth in
  ∃ row reason, table_rows s "orders" !! id = Some row
    ∧ table_rows s' "orders" = <[id := merged_row (pending_doc e u reason (cost_in row u) (us_new_shipping_cost_cents req))
                                   (ve_clock e 0) row]> (table_rows s "orders").
Proof.
  intros H Hr id u. unfold update_shipping_cost in H. do 3 run_inv H. apply resolve_self_ok in R0 as ->.
  apply limited_orders in R1. destruct (_ <? 0); [done|]. cbv zeta in H. run_inv H. rename R0 into Ho.
  apply read_order_ok in Ho as (Hk & row & Hrow & ->). run_inv H. clear R0. run_inv H. rename R0 into Hw.
  apply pure_ok in H as [-> [= <-]]. cbn [us_approval_required] in Hr. rewrite Hr in Hw.
  apply (write_shipping_ok _ _ _ _ _ _ row) in Hw; [|by rewrite Hk]. rewrite Hk, R1, costs_doc in Hw. rewrite R1 in Hrow. eauto.
Qed.

(** An answer that succeeds: the order read, its pending approval, and the rest. *)
Lemma approve_runs e auth req s s' r :
  approve_shipping_cost e auth req s = (s', Ok r) →
  let id := bare_id "orders" (ap_order_id req) in
  ∃ row approval s1, table_rows s "orders" !! id = Some row ∧ approval_of e (auth_user_id auth) (row_to_doc id row) = Ok approval
    ∧ (∀ c, c ≠ "rate_limits" → table_rows s1 c = table_rows s c)
    ∧ (if ap_approved req then
         _ ← pure (approval_checks req (row_to_doc id row) approval);
         write_shipping e (ap_order_id req)
           (approved_doc e (row_to_doc id row) (amounts_with (row_to_doc id row) (requesting_seller approval) (approved_cost approval)))
       else reject_shipping e (ap_order_id req) (row_to_doc id row)) s1 = (s', Ok tt).
Proof.
  intros H id. unfold approve_shipping_cost in H. do 3 run_inv H. apply resolve_self_ok in R0 as ->.
  run_inv H. rename R0 into Ho. pose proof (read_order_ok _ _ _ _ Ho) as (_ & row & Hrow & ->).
  run_inv H. run_inv H. apply pure_ok in H as [-> _]. destruct a2. exists row, a0, s1. split_and!.
  - by rewrite <- (limited_orders _ _ _ _ _ _ R1).
  - done.
  - intros c Hc. rewrite (keeps_run c _ _ _ _ (keeps_map_err c _ _ (keeps_get c "orders" _)) Ho).
    by apply (keeps_run c) in R1; [|by apply keeps_rate_limit].
  - done.
Qed.

Lemma approve_ok e auth req s s' r :
  approve_shipping_cost e auth req s = (s', Ok r) → ap_approved req = true →
  let id := bare_id "orders" (ap_order_id req) in
  ∃ row approval, table_rows s "orders" !! id = Some row ∧ approval_of e (auth_user_id auth) (row_to_doc id row) = Ok approval
    ∧ approval_checks req (row_to_doc id row) approval = Ok tt
    ∧ table_rows s' "orders" = <[id := merged_row (approved_doc e (row_to_doc id row)
        (amounts_with (row_to_doc id row) (requesting_seller approval) (approved_cost approval))) (ve_clock e 0) row]> (table_rows s "orders").
Proof.
  intros H Hyes id. apply approve_runs in H as (row & approval & s1 & Hrow & Ha & Hk & Hw). rewrite Hyes in Hw.
  run_inv Hw. destruct a. apply (write_shipping_ok _ _ _ _ _ _ row) in Hw; [|by rewrite Hk].
  exists row, approval. split_and!; try done. by rewrite Hw, Hk.
Qed.

(** The approval that a correction leaves pending. *)
Definition asked_approval (e : shipping_env) (u reason : string) (original new : Z) : list (string * Value) :=
  [("actualCost", VNumber (Float (dollars_of new))); ("newCostCents", of_i64 new); ("originalCostCents", of_i64 original);
   ("reason", VString reason); ("requestedAt", VString (to_rfc3339 (ve_now e))); ("requestedBy", VString u); ("status", VString "pending")].
Lemma pending_row e u reason original new now row m :
  row_data row = VObject m →
  let row1 := merged_row (pending_doc e u reason original new) now row in
  (∃ m1, row_data row1 = VObject m1) ∧ (∀ x, cost_in row1 x = cost_in row x)
  ∧ str_field (row_data row1) "userId" = str_field (row_data row) "userId"
  ∧ get "shippingApproval" (row_data row1) = Some (VObject (asked_approval e u reason original new)).
Proof.
  intros Hm row1. unfold row1, pending_doc. split; [cbn; rewrite Hm; cbn; eauto|]. split; [|split].
  - intros x. by apply (cost_kept _ _ _ m); [concrete|..].
  - unfold str_field. by rewrite (merged_row_get _ _ _ m) by (done || concrete).
  - by rewrite (merged_row_get _ _ _ m) by (done || concrete).
Qed.
Lemma asked_is_approved e u reason original new :
  dollars_exact new = true → new ≤ i64_max → let approval := asked_approval e u reason original new in
  requesting_seller approval = u ∧ approved_cost approval = new.
Proof.
  intros Hex Hmax. split; [done|]. unfold approved_cost. unfold dollars_exact in Hex.
  change (default (f64_of_Z 0) _) with (dollars_of new). lia.
Qed.
Lemma expected_is_asked req order e u reason original new seen :
  new ≤ i64_max → approval_checks req order (asked_approval e u reason original new) = Ok tt →
  ap_expected_cost_cents req = Some seen → seen = new.
Proof.
  intros Hmax Hc Hseen. unfold approval_checks in Hc. cbv zeta in Hc. rewrite Hseen in Hc.
  change (assoc_get "newCostCents" _ ≫= as_i64) with (as_i64 (of_i64 new)) in Hc. rewrite as_i64_of_i64 in Hc by done.
  cbn [default from_option id] in Hc. destruct (new =? seen) eqn:E; [lia|done].
Qed.

(** The buyer pays the shipping the seller asked for and the buyer saw.  When a
    seller's correction needs approval and the buyer approves it, the cost of that
    seller becomes exactly the amount asked for, the costs of other sellers stay,
    and an amount the buyer names as the one seen is the amount asked for. *)
Theorem approved_as_asked e e' auth auth' req req' s s1 s2 r r' row m :
  update_shipping_cost e auth req s = (s1, Ok r) → us_approval_required r = true →
  approve_shipping_cost e' auth' req' s1 = (s2, Ok r') → ap_approved req' = true →
  let id := bare_id "orders" (us_order_id req) in bare_id "orders" (ap_order_id req') = id →
  table_rows s "orders" !! id = Some row → row_data row = VObject m →
  dollars_exact (us_new_shipping_cost_cents req) = true → us_new_shipping_cost_cents req ≤ i64_max →
  ∃ row2, table_rows s2 "orders" !! id = Some row2
    ∧ (∀ x, cost_in row2 x = if x =s? auth_user_id auth then us_new_shipping_cost_cents req else cost_in row x)
    ∧ (∀ seen, ap_expected_cost_cents req' = Some seen → seen = us_new_shipping_cost_cents req)
    ∧ str_field (row_data row) "userId" = auth_user_id auth'.
Proof.
  intros Hup Hreq Hap Hyes id Hid Hrow Hm Hexact Hmax.
  destruct (update_pending_ok _ _ _ _ _ _ Hup Hreq) as (row0 & reason & Hrow0 & Hs1). fold id in Hrow0, Hs1.
  rewrite Hrow in Hrow0. injection Hrow0 as <-.
  destruct (approve_ok _ _ _ _ _ _ Hap Hyes) as (row1 & approval & Hrow1 & Ha & Hc & Hs2). rewrite Hid, Hs1 in Hrow1, Hs2.
  rewrite lookup_insert_eq in Hrow1. rewrite Hid in *. 
  destruct (pending_row e (auth_user_id auth) reason (cost_in row (auth_user_id auth)) (us_new_shipping_cost_cents req)
    (ve_clock e 0) row m Hm) as ([m1 Hm1] & Hcosts & Huser & Happroval).
  set (row1' := merged_row _ _ row) in *. clearbody row1'. injection Hrow1 as <-.
  apply approval_of_ok in Ha as (Hu & Ha & _). rewrite get_row_to_doc, Happroval in Ha by concrete. injection Ha as <-.
  destruct (asked_is_approved e (auth_user_id auth) reason (cost_in row (auth_user_id auth)) _ Hexact Hmax) as [Hby Hcost].
  rewrite Hby, Hcost in Hs2. rewrite Hs2, insert_insert_eq, lookup_insert_eq. eexists. split; [reflexivity|]. split; [|split].
  - intros x. set (doc := approved_doc _ _ _). assert (∃ fields, doc = VObject fields) as [fields Hd] by (eexists; reflexivity).
    destruct (approved_fields _ _ _ _ Hd) as [Hnd _]. rewrite Hd. apply approved_costs in Hd.
    rewrite (cost_written _ _ _ m1 _ _ _ _ Hnd Hm1 (costs_doc id row1') Hmax Hd). by rewrite Hcosts.
  - intros seen. by apply (expected_is_asked _ _ _ _ _ _ _ _ Hmax Hc).
  - rewrite str_field_doc in Hu by concrete. by rewrite <- Huser.
Qed.

(** ** What a rejection does *)
Context `{!PgJsonLaws P}.

Lemma reject_update_ok id fields now s s' row :
  table_rows s "orders" !! id = Some row → reject_update id fields now s = (s', Ok true) →
  table_rows s' "orders" = <[id := merged_row (VObject fields) now row]> (table_rows s "orders")
  ∧ ∀ c, c ≠ "orders" → table_rows s' c = table_rows s c.
Proof.
  intros Hrow. unfold reject_update. cbv zeta. rewrite keeps_ensure_first, Hrow. destruct (approval_pending row); [|done].
  intros [= <-]. split; [by rewrite table_rows_insert|]. intros c Hc. rewrite table_rows_insert_ne by done.
  apply (table_rows_ensured "orders").
Qed.

Lemma rejected_row e id order now row m :
  row_data row = VObject m → let row' := merged_row (VObject (rejected_doc e id order)) now row in
  status_text row' = "cancelled" ∧ bool_field (row_data row') "stockRestored" = true
  ∧ str_field (row_data row') "shippingApprovalStatus" = "rejected"
  ∧ (∃ now', get "shippingApproval" (row_data row') = Some (VObject [("respondedAt", now'); ("status", VString "rejected")]))
  ∧ (str_field order "paymentStatus" = "captured" → str_field order "paymentIntentId" ≠ "" →
     str_field (row_data row') "paymentStatus" = "refunded" ∨ bool_field (row_data row') "requiresManualReview" = true).
Proof.
  intros Hm row'. destruct (rejected_fields e id order "") as [Hnd _].
  assert (∀ k, get k (row_data row') = match assoc_get k (rejected_doc e id order) with Some v => Some v | None => get k (row_data row) end)
    as Hg by (intros k; by apply (merged_row_get _ _ _ m)).
  clearbody row'. unfold status_text, bool_field, str_field, field_text. rewrite !Hg. split_and!; try done; [by eexists|].
  intros Hcap Hpi. unfold rejected_doc, rejection_refund, str_field. rewrite Hcap, str_eqb_refl.
  destruct (default "" (get "paymentIntentId" order ≫= as_str)); [done|]. cbn [str_empty negb andb].
  set (ok := is_ok _). clearbody ok. destruct ok; [by left|by right].
Qed.

(** Rejecting a shipping cost undoes the order once.  When the buyer rejects
    the cost of an order whose products are in stock, the order is cancelled and
    its approval rejected; a captured payment is refunded in full or flagged for
    review; the units of every physical item go back to the stock; and no later
    answer to the same approval succeeds, so that none of this happens twice. *)
Theorem rejection_undoes_order e auth req s s' r row m :
  approve_shipping_cost e auth req s = (s', Ok r) → ap_approved req = false →
  let id := ap_order_id req in
  bare_id "orders" id = id → table_rows s "orders" !! id = Some row → row_data row = VObject m →
  bool_field (row_data row) "stockRestored" = false →
  let items := items_array (row_data row) in
  (∀ item, item ∈ items → returns_stock item = true → let pid := bare_id "products" (str_field item "productId") in
     ∃ n, stocked s pid n ∧ n + total (returned_units pid <$> items) ≤ i64_max) →
  (∃ row', table_rows s' "orders" !! id = Some row' ∧ status_text row' = "cancelled"
     ∧ bool_field (row_data row') "stockRestored" = true ∧ str_field (row_data row') "shippingApprovalStatus" = "rejected"
     ∧ (str_field (row_data row) "paymentStatus" = "captured" → str_field (row_data row) "paymentIntentId" ≠ "" →
        str_field (row_data row') "paymentStatus" = "refunded" ∨ bool_field (row_data row') "requiresManualReview" = true))
  ∧ (∀ pid n, stocked s pid n → n + total (returned_units pid <$> items) ≤ i64_max →
       stocked s' pid (n + total (returned_units pid <$> items)))
  ∧ ∀ e2 auth2 req2 s2 r2, bare_id "orders" (ap_order_id req2) = id → approve_shipping_cost e2 auth2 req2 s' ≠ (s2, Ok r2).
Proof.
  intros H Hno id Hid Hrow Hm Hst items Hstock.
  destruct (approve_runs _ _ _ _ _ _ H) as (row0 & approval & s1 & Hrow0 & Ha & Hk & Hw). change (ap_order_id req) with id in Hrow0, Ha, Hw. rewrite Hid in Hrow0, Ha, Hw.
  rewrite Hrow in Hrow0. injection Hrow0 as <-. rewrite Hno in Hw. unfold reject_shipping in Hw. run_inv Hw.
  destruct a; [|done]. cbn [negb] in Hw. apply (reject_update_ok _ _ _ _ _ row) in R as [Hs2 Hother]; [|by rewrite Hk].
  assert (bool_field (row_to_doc id row) "stockRestored" = false) as Hst' by (unfold bool_field in *; by rewrite get_row_to_doc by concrete).
  rewrite Hst', items_doc in Hw. fold items in Hw. unfold restore_stock_for_items in Hw.
  destruct (restore_each_counted true (λ i k, ve_clock e (3 * i + k + 1)%nat) (Some (to_rfc3339 (ve_now e))) 0 items s0)
    as (s3 & Hrun & Hs3 & Hcount).
  { by apply Forall_true. }
  { intros item Hin E. destruct (Hstock item Hin E) as (n & Hn & Hle). exists n. split; [|done].
    eapply stocked_same; [|exact Hn]. by rewrite Hother, Hk. }
  rewrite Hrun in Hw. injection Hw as ->. set (fields := rejected_doc e id (row_to_doc id row)) in *.
  assert (table_rows s' "orders" = <[id := merged_row (VObject fields) (ve_clock e 0) row]> (table_rows s "orders")) as Horders
    by (rewrite Hs3, Hs2, Hk by done; done).
  destruct (rejected_row e id (row_to_doc id row) (ve_clock e 0) row m Hm) as (H1 & H2 & H3 & [now' H4] & H5).
  rewrite !str_field_doc in H5 by concrete. fold fields in H1, H2, H3, H4, H5. split_and!.
  - eexists. rewrite Horders, lookup_insert_eq. split; [reflexivity|]. done.
  - intros pid n Hn Hle. apply Hcount; [|done]. eapply stocked_same; [|exact Hn]. by rewrite Hother, Hk.
  - intros e2 auth2 req2 s2 r2 Hid2 Hap. apply approve_runs in Hap as (row2 & ap2 & _ & Hrow2 & Ha2 & _).
    rewrite Hid2, Horders, lookup_insert_eq in Hrow2. injection Hrow2 as <-. apply approval_of_ok in Ha2 as (_ & Hget & Hpend).
    rewrite get_row_to_doc, H4 in Hget by concrete. injection Hget as <-. done.
Qed.
End shipping.

(** ** Where the code falls short *)
Local Open Scope Z_scope.

(** An increase that needs approval is beyond what an approval may grant: for a
    cost above fifty dollars the buyer's consent is always refused. *)
Lemma approval_never_granted old new :
  5000 < old ≤ cost_limit → 0 ≤ new ≤ cost_limit →
  shipping_update_requires_approval old new = true → max_allowed_shipping_cents old < new.
Proof.
  unfold cost_limit, shipping_update_requires_approval, max_allowed_shipping_cents, SHIPPING_APPROVAL_THRESHOLD_BPS,
    SHIPPING_APPROVAL_MULTIPLIER_BPS, i64_add, i64_sub, i64_mul. intros Ho Hn.
  replace (0 <? old) with true by lia. replace (old =? 0) with false by lia. cbv zeta.
  rewrite (wrap_signed_id 64 (new - old)), (wrap_signed_id 64 (old * 120)) by lia. rewrite !wrap_signed_id by lia.
  intros H. apply Z.ltb_lt in H.
  pose proof (Z.quot_rem' ((new - old) * 10000) old) as Hq. pose proof (Z.rem_bound_abs ((new - old) * 10000) old ltac:(lia)) as Hr.
  pose proof (Z.quot_rem' (old * 120 + 50) 100). pose proof (Z.rem_bound_pos (old * 120 + 50) 100 ltac:(lia) ltac:(lia)).
  set (q := ((new - old) * 10000) `quot` old) in *. set (r := Z.rem ((new - old) * 10000) old) in *.
  assert (0 ≤ new - old) as Hpos by nia. assert (0 ≤ r) by (subst r; apply Z.rem_nonneg; lia).
  clearbody q r. assert (old * 2001 ≤ old * q) by (apply Z.mul_le_mono_nonneg_l; lia). lia.
Qed.

(** The threshold is computed on wrapping numbers: a large enough cost needs no
    approval. *)
Example huge_cost_needs_no_approval : shipping_update_requires_approval 1000 922337203686478 = false.
Proof. by vm_compute. Qed.
(** The threshold is relative to the last cost: step by step a cost rises beyond
    every bound without approval. *)
Example creeping_cost_needs_no_approval :
  Forall (λ p : Z * Z, shipping_update_requires_approval p.1 p.2 = false) [(1000, 1200); (1200, 1440); (1440, 1728); (1728, 2073)].
Proof. repeat constructor; by vm_compute. Qed.

(** ** Concrete instances *)
Section shipping_witnesses.
#[local] Instance demo_v_chrono : Chrono := plain_chrono.
#[local] Instance demo_v_json : PgJson := plain_json.
#[local] Instance demo_v_laws : PgJsonLaws demo_v_json := plain_json_laws.
#[local] Instance demo_v_text : TextLib := plain_textlib.

Definition demo_v_env : shipping_env :=
  {| ve_test_mode := true; ve_stripe_key := Some "sk"; ve_secs := 1000; ve_limit_id := "l"; ve_limit_now := 1;
     ve_expiry_now := 400; ve_now := 500; ve_clock := λ k, 600 + Z.of_nat k |}.
Definition user_auth (u : string) : AuthContext :=
  {| auth_user_id := u; auth_roles := []; authenticated := true; email_verified := true; custom_claims := VNull |}.
Definition shipped_fields_of (payment : string) : list (string * Value) :=
  [("items", VArray [VObject [("productId", VString "p1"); ("quantity", of_i64 2); ("sellerId", VString "sel")]]);
   ("orderStatus", VString "confirmed"); ("paymentIntentId", VString "pi_1"); ("paymentStatus", VString payment);
   ("shippingAddress", VObject [("state", VString "ON")]); ("shippingCostCents", of_i64 0); ("taxAmountCents", of_i64 260);
   ("totalAmountCents", of_i64 2260); ("userId", VString "ann")].
Definition shipped_row (payment : string) : DocRow := plain_row (VObject (shipped_fields_of payment)).
Definition store_with (row : DocRow) : store :=
  {["orders" := {["o1" := row]}; "products" := {["p1" := product_row 1000 1]}]}.
Definition shipped_store (payment : string) : store := store_with (shipped_row payment).
Definition demo_amounts (pi : string) (amount : Z) : api_reply := ApiBody VNull.
Definition demo_v_refunds (key : string) (form : list (string * string)) : refund_reply :=
  RefundBody (VObject [("id", VString "re_1")]).
Definition ask (new : Z) : UpdateShippingCostRequest :=
  {| us_order_id := "o1"; us_user_id := "sel"; us_new_shipping_cost_cents := new; us_reason := None |}.
Definition answer (yes : bool) : ApproveShippingRequest :=
  {| ap_order_id := "o1"; ap_user_id := "ann"; ap_approved := yes; ap_expected_cost_cents := if yes then Some 1500 else None |}.
Definition asked (new : Z) (s : store) : store * Result UpdateShippingCostResponse :=
  update_shipping_cost "" demo_amounts demo_v_env (user_auth "sel") (ask new) s.
Definition answered (yes : bool) (s : store) : store * Result ApproveShippingResponse :=
  approve_shipping_cost "" demo_amounts demo_v_refunds demo_v_env (user_auth "ann") (answer yes) s.
Definition pending_store (payment : string) : store := (asked 1500 (shipped_store payment)).1.

(** The writes of an approval are not guarded: one decided on before the order was
    rejected marks the cancelled order as approved. *)
Example approval_overwrites_rejection :
  let s := pending_store "authorized" in
  let order := default VNull (row_to_doc "o1" <$> table_rows s "orders" !! "o1") in
  let stale := approved_doc demo_amounts demo_v_env order (amounts_with order "sel" 1500) in
  let s' := (write_shipping demo_v_env "o1" stale (answered false s).1).1 in
  order_field "orderStatus" s' = Some (VString "cancelled") ∧ order_field "shippingApprovalStatus" s' = Some (VString "approved")
  ∧ order_field "totalAmountCents" s' = Some (of_i64 3955).
Proof. by vm_compute. Qed.

Lemma plain_demo row : plain_orders (store_with row).
Proof.
  intros i. unfold orders_of, store_with, table_rows. rewrite lookup_insert_eq. cbn [default from_option id].
  intros [row' H]. apply lookup_singleton_Some in H as [<- _]. done.
Qed.

Lemma shipping_amounts_consistent_witness :
  ∃ row', table_rows (call_shipping "" demo_amounts demo_v_refunds demo_v_env (user_auth "sel") (SellerCorrects (ask 0))
                        (shipped_store "authorized")).1 "orders" !! "o1" = Some row'
    ∧ (rest_of (row_data row') = 2000 ∨ str_field (row_data (shipped_row "authorized")) "paymentStatus" = "captured").
Proof.
  destruct (shipping_amounts_consistent "" demo_amounts demo_v_refunds demo_v_env (user_auth "sel") (SellerCorrects (ask 0))
    (shipped_store "authorized") "o1" (shipped_row "authorized") (shipped_fields_of "authorized") (plain_demo _) eq_refl eq_refl)
    as (row' & H1 & [H2|[H2 _]]); exists row'; (split; [exact H1|]); [left; rewrite H2; by vm_compute|right; exact H2].
Defined.

(** The order while the seller's cost waits for the buyer, and after its approval. *)
Definition current_row (s : store) : DocRow := default (shipped_row "") (table_rows s "orders" !! "o1").
Definition waiting_row : DocRow := current_row (pending_store "authorized").
Definition consented_row : DocRow :=
  current_row (call_shipping "" demo_amounts demo_v_refunds demo_v_env (user_auth "ann") (BuyerAnswers (answer true)) (store_with waiting_row)).1.

Lemma shipping_increase_bounded_witness :
  cost_in consented_row "sel" = 1500
  ∧ (cost_in consented_row "sel" ≤ cost_in waiting_row "sel"
     ∨ "sel" = "ann" ∧ 10000 * cost_in consented_row "sel" ≤ 12001 * cost_in waiting_row "sel"
     ∨ str_field (row_data waiting_row) "userId" = "ann"
       ∧ (cost_in waiting_row "sel" = 0 ∧ cost_in consented_row "sel" ≤ 50000
          ∨ 100 * cost_in consented_row "sel" ≤ 120 * cost_in waiting_row "sel" + 50)).
Proof.
  split; [by vm_compute|].
  apply (shipping_increase_bounded "" demo_amounts demo_v_refunds demo_v_env (user_auth "ann") (BuyerAnswers (answer true))
    (store_with waiting_row) "o1" waiting_row consented_row (default [] (as_object (row_data waiting_row))) "sel" (plain_demo _));
    [by vm_compute|evaluates|evaluates|by vm_compute|evaluates].
Defined.

Lemma approved_as_asked_witness :
  let s := shipped_store "authorized" in
  ∃ row2, table_rows (answered true (asked 1500 s).1).1 "orders" !! "o1" = Some row2 ∧ cost_in row2 "sel" = 1500.
Proof.
  destruct (approved_as_asked "" demo_amounts demo_v_refunds demo_v_env demo_v_env (user_auth "sel") (user_auth "ann") (ask 1500) (answer true)
    (shipped_store "authorized") (asked 1500 (shipped_store "authorized")).1 (answered true (asked 1500 (shipped_store "authorized")).1).1
    {| us_success := true; us_approval_required := true |} {| ap_success := true; ap_was_approved := true |}
    (shipped_row "authorized") (shipped_fields_of "authorized")) as (row2 & H1 & H2 & _);
    [evaluates|reflexivity|evaluates|reflexivity|reflexivity|reflexivity|reflexivity|by vm_compute|by vm_compute|].
  exists row2. split; [exact H1|]. rewrite H2. reflexivity.
Defined.

Lemma rejection_undoes_order_witness :
  ∃ row', table_rows (answered false (store_with waiting_row)).1 "orders" !! "o1" = Some row' ∧ status_text row' = "cancelled".
Proof.
  destruct (rejection_undoes_order "" demo_amounts demo_v_refunds demo_v_env (user_auth "ann") (answer false) (store_with waiting_row)
    (answered false (store_with waiting_row)).1 {| ap_success := true; ap_was_approved := false |}
    waiting_row (default [] (as_object (row_data waiting_row)))) as [(row' & H1 & H2 & _) _];
    [evaluates|reflexivity|reflexivity|reflexivity|evaluates|by vm_compute| |].
  - intros item Hin _. replace (items_array (row_data waiting_row)) with
      [VObject [("productId", VString "p1"); ("quantity", of_i64 2); ("sellerId", VString "sel")]] in * by evaluates.
    apply list_elem_of_singleton in Hin as ->. exists 1. split; [|by vm_compute].
    exists (product_row 1000 1). split_and!; [evaluates|reflexivity|by vm_compute|by vm_compute].
  - exists row'. exact (conj H1 H2).
Defined.
End shipping_witnesses.
