(* ===== verification/Digital.v ===== *)
(** * Digital goods

    crates/ob-handlers/src/digital/mod.rs: the licences of software and books.  The
    owner of a licence activates it on a limited number of devices and takes it off
    them again; anyone who knows the key verifies it; the owner is given a download
    token, which is exchanged once and in time for the address of the file. *)

From S2P Require Export Shipping.

(** ** Requests *)

Record ActivateLicenseRequest : Type := {
  al_license_key : string; al_device_id : string; al_user_id : string; al_platform : option string }.
Record ActivateLicenseResponse : Type := {
  alr_approved : bool; alr_license_key : string; alr_activated_at : string; alr_product_name : string }.
Record DeactivateLicenseRequest : Type := { dl_license_key : string; dl_device_id : string; dl_user_id : string }.
Record DeactivateLicenseResponse : Type := { dlr_deactivated : bool; dlr_remaining_activations : nat }.
Record DownloadRequest : Type := { dn_product_id : string; dn_user_id : string; dn_license_key : option string }.
Record DownloadResponse : Type := { dnr_download_url : string }.
Record VerifyLicenseRequest : Type := {
  vl_license_key : string; vl_device_id : option string; vl_platform : option string }.
Record VerifyLicenseResponse : Type := {
  vlr_valid : bool; vlr_license_key : string; vlr_product_name : string; vlr_status : string }.

Record digital_env : Type := {
  ge_test_mode : bool;
  ge_secs : Z; ge_limit_id : string; ge_limit_now : Z;   (** the limiter's *)
  ge_now : Z;                                            (** [Utc::now()] *)
  ge_used_now : Z;                                       (** that of the note that a token was used *)
  ge_uuid : string;                                      (** the bytes of [Uuid::new_v4()] *)
  ge_doc_id : string;                                    (** the id of a new document *)
  ge_clock : Z;                                          (** the database's clock at the write *)
}.

(** [^[A-Z0-9]{4}-[A-Z0-9]{4}-[A-Z0-9]{4}-[A-Z0-9]{4}$]. *)
Definition key_char (c : ascii) : bool := is_upper c || is_digit c.
Definition LICENSE_KEY_PATTERN : list (ascii → bool) :=
  let group := repeat key_char 4 in let dash := [λ c, Ascii.eqb c "-"] in
  group ++ dash ++ group ++ dash ++ group ++ dash ++ group.
Fixpoint matches (pattern : list (ascii → bool)) (s : string) : bool :=
  match pattern, s with
  | [], "" => true
  | p :: pattern, String c s => p c && matches pattern s
  | _, _ => false
  end.
Definition is_valid_license_key (key : string) : bool := matches LICENSE_KEY_PATTERN key.
Definition DOWNLOAD_TOKEN_MINUTES : Z := 15.
Definition MAX_DEVICES_PER_LICENSE : N := 5.

(** ** The activations of a licence *)

Definition activations_of (license : Value) : list Value := default [] (get "activations" license ≫= as_array).
Definition device_of (act : Value) : option string := get "deviceId" act ≫= as_str.
Definition on_device (device_id : string) (act : Value) : bool := bool_decide (device_of act = Some device_id).
Definition device_limit (license : Value) : N := default MAX_DEVICES_PER_LICENSE (get "deviceLimit" license ≫= as_u64).

Definition verified_at (now : string) (act : Value) : Value := put "lastVerifiedAt" (VString now) act.
(** [iter_mut().find(..)], and the loop over all. *)
Fixpoint verify_first (device_id now : string) (acts : list Value) : list Value :=
  match acts with
  | [] => []
  | act :: acts => if on_device device_id act then verified_at now act :: acts
                   else act :: verify_first device_id now acts
  end.
Definition verify_all (device_id now : string) (acts : list Value) : list Value :=
  (λ act, if on_device device_id act then verified_at now act else act) <$> acts.
Definition activation (device_id now : string) (platform : option string) : Value :=
  VObject [("activatedAt", VString now); ("deviceId", VString device_id); ("lastVerifiedAt", VString now);
           ("platform", VString (default "" platform))].
Definition activations_doc (acts : list Value) (now : string) : Value :=
  VObject [("activations", VArray acts); ("updatedAt", VString now)].

Definition invalid_key : Error := Validation "Invalid license key format".
Definition no_license : Error := NotFound "License not found".
Definition not_own_license : Error := Forbidden "Not your license".

Section digital.
Context `{C : Chrono} `{P : PgJson} `{T : TextLib} `{H : HexLib}.
Context (pg_invalid_bigint : string).
Context (scan : rows → list (string * DocRow)).
(** The redirects quote their token with [escape_sql_string].  Where it holds a
    blank or closes its literal: the table that is created first and the first
    row of the statement that results. *)
Context (injected_token : string → string → store → string * Result (option Value)).

Definition digital_limit (e : digital_env) (user_id action : string) (max : nat) : handler unit :=
  check_user_rate_limit pg_invalid_bigint (ge_test_mode e) user_id action max 60 (ge_secs e) (ge_limit_id e) (ge_limit_now e).
Definition read_license (license_key : string) : handler Value :=
  license ← db_map_err (λ _, no_license) (get_document "licenses" license_key);
  pure (if is_null license then Err no_license else Ok license).
Definition license_key_of (text : string) : string := to_uppercase (trim text).

(** ** To activate and deactivate *)

(** What an activation does with the licence read: the first activation of the
    device is verified again, or one is added. *)
Inductive activation_plan : Type :=
| Reverify (activated_at : string) (acts : list Value)
| Add (acts : list Value).
Definition plan_activation (now user_id device_id : string) (platform : option string) (license : Value) : Result activation_plan :=
  let acts := activations_of license in
  if negb (str_field license "status" =s? "active") then Err (Forbidden "License has been revoked")
  else if negb (str_field license "userId" =s? user_id) then Err (Forbidden "You do not own this license")
  else match list_find (λ act, on_device device_id act = true) acts with
       | Some (_, act) => Ok (Reverify (default now (get "activatedAt" act ≫= as_str)) (verify_first device_id now acts))
       | None =>
           if (device_limit license <=? N.of_nat (length acts))%N then Err (Forbidden "Device activation limit reached")
           else Ok (Add (acts ++ [activation device_id now platform]))
       end.
Definition activate_license (e : digital_env) (auth : AuthContext) (req : ActivateLicenseRequest) : handler ActivateLicenseResponse :=
  _ ← pure (validate_uid "userId" (al_user_id req));
  user_id ← pure (resolve_self_user_id auth (Some (al_user_id req)) "userId");
  _ ← digital_limit e user_id "activate_license" 20;
  let license_key := license_key_of (al_license_key req) in
  let device_id := trim (al_device_id req) in
  _ ← pure (if negb (is_valid_license_key license_key) then Err invalid_key
            else if str_empty device_id then Err (Validation "deviceId is required") else Ok tt);
  license ← read_license license_key;
  let now := to_rfc3339 (ge_now e) in
  plan ← pure (plan_activation now user_id device_id (al_platform req) license);
  activated_at ← match plan with
    | Reverify activated_at acts =>
        _ ← ignored (update_document "licenses" license_key (activations_doc acts now) (ge_clock e)); pure (Ok activated_at)
    | Add acts =>
        _ ← db_map_err (λ err, Database ("Failed to activate license: " +:+ error_to_string err))
              (update_document "licenses" license_key (activations_doc acts now) (ge_clock e)); pure (Ok now)
    end;
  pure (Ok {| alr_approved := true; alr_license_key := license_key; alr_activated_at := activated_at;
              alr_product_name := str_field license "productName" |}).

Definition remaining_of (device_id : string) (license : Value) : list Value :=
  filter (λ act, device_of act ≠ Some device_id) (activations_of license).
Definition deactivate_license (e : digital_env) (auth : AuthContext) (req : DeactivateLicenseRequest) :
    handler DeactivateLicenseResponse :=
  _ ← pure (validate_uid "userId" (dl_user_id req));
  user_id ← pure (resolve_self_user_id auth (Some (dl_user_id req)) "userId");
  _ ← digital_limit e user_id "deactivate_license" 20;
  let license_key := license_key_of (dl_license_key req) in
  _ ← pure (if negb (is_valid_license_key license_key) then Err invalid_key
            else if str_empty (dl_device_id req) then Err (Validation "deviceId is required") else Ok tt);
  license ← read_license license_key;
  _ ← pure (if negb (str_field license "userId" =s? user_id) then Err not_own_license else Ok tt);
  let remaining := remaining_of (dl_device_id req) license in
  _ ← db_map_err (λ err, Database ("Failed to deactivate: " +:+ error_to_string err))
        (update_document "licenses" license_key (activations_doc remaining (to_rfc3339 (ge_now e))) (ge_clock e));
  pure (Ok {| dlr_deactivated := true; dlr_remaining_activations := length remaining |}).

(** ** To verify *)

Definition verify_license (e : digital_env) (req : VerifyLicenseRequest) : handler VerifyLicenseResponse :=
  let license_key := license_key_of (vl_license_key req) in
  _ ← pure (if negb (is_valid_license_key license_key) then Err invalid_key else Ok tt);
  license ← read_license license_key;
  let status := default "unknown" (get "status" license ≫= as_str) in
  let acts := activations_of license in
  _ ← match vl_device_id req with
      | Some device_id =>
          if existsb (on_device device_id) acts then
            let now := to_rfc3339 (ge_now e) in
            ignored (update_document "licenses" license_key (activations_doc (verify_all device_id now acts) now) (ge_clock e))
          else pure (Ok tt)
      | None => pure (Ok tt)
      end;
  pure (Ok {| vlr_valid := status =s? "active"; vlr_license_key := license_key;
              vlr_product_name := str_field license "productName"; vlr_status := status |}).

(** ** To download *)

Inductive digital_type : Type := Book | Software.
#[global] Instance digital_type_eq_dec : EqDecision digital_type.
Proof. solve_decision. Defined.
Definition type_str (ty : digital_type) : string := match ty with Book => "book" | Software => "software" end.
Definition token_table (ty : digital_type) : string := type_str ty +:+ "_access_tokens".
Definition redirect_path (ty : digital_type) : string := match ty with Book => "/dl?t=" | Software => "/sdl?t=" end.
Definition token_of (e : digital_env) : string := "tok_" +:+ hex_encode (ge_uuid e).

Definition download_checks (ty : digital_type) (user_id : string) (license : Value) : Result unit :=
  if negb (str_field license "userId" =s? user_id) then Err not_own_license
  else if negb (str_field license "status" =s? "active") then Err (Forbidden "License revoked")
  else if negb (str_field license "digitalType" =s? type_str ty)
  then Err (Validation ("Not a " +:+ type_str ty +:+ " license"))
  else Ok tt.
(** The address of the file in the licence, and the fields of the token. *)
Definition url_field (ty : digital_type) : string := type_str ty +:+ "SourceUrl".
Definition source_of (ty : digital_type) (license : Value) : Value :=
  match ty with
  | Book => VString (str_field license "bookSourceUrl")
  | Software =>
      match get "softwareSourceUrl" license with
      | Some v => v
      | None => default (VString "") (get "downloadUrl" license)
      end
  end.
Definition token_doc (ty : digital_type) (e : digital_env) (license_key user_id product_id : string) (expires_at : Z)
    (license : Value) : Value :=
  put (url_field ty) (source_of ty license)
    (VObject [("accessToken", VString (token_of e)); ("createdAt", VString (to_rfc3339 (ge_now e)));
              ("expiresAt", VString (to_rfc3339 expires_at)); ("licenseKey", VString license_key);
              ("productId", VString product_id); ("used", VBool false); ("userId", VString user_id)]).
Definition download (ty : digital_type) (e : digital_env) (auth : AuthContext) (req : DownloadRequest) : handler DownloadResponse :=
  _ ← pure (validate_uid "productId" (dn_product_id req));
  _ ← pure (validate_uid "userId" (dn_user_id req));
  user_id ← pure (resolve_self_user_id auth (Some (dn_user_id req)) "userId");
  _ ← digital_limit e user_id ("download_" +:+ type_str ty) 10;
  let license_key := default "" (dn_license_key req) in
  _ ← pure (if str_empty license_key then Err (Validation "licenseKey is required") else Ok tt);
  let license_key := license_key_of license_key in
  _ ← pure (if negb (is_valid_license_key license_key) then Err invalid_key else Ok tt);
  license ← read_license license_key;
  _ ← pure (download_checks ty user_id license);
  expires_at ← pure (add_seconds (ge_now e) (DOWNLOAD_TOKEN_MINUTES * 60));
  _ ← db_map_err (λ err, Database ("Failed to create download token: " +:+ error_to_string err))
        (create_document (token_table ty) (token_doc ty e license_key user_id (dn_product_id req) expires_at license)
           (ge_doc_id e) (ge_clock e));
  pure (Ok {| dnr_download_url := redirect_path ty +:+ token_of e |}).

(** ** To redeem a token *)

Definition validate_string_token (field token : string) : Result unit :=
  if str_empty (trim token) || (255 <? String.length token) then Err (Validation (field +:+ " is invalid")) else Ok tt.
(** [SELECT * FROM .. WHERE data->>'accessToken' = '..' LIMIT 1]. *)
Definition has_token (t : string) (row : DocRow) : bool := bool_decide (field_text "accessToken" (row_data row) = Some t).
Definition find_token (ty : digital_type) (t : string) : handler (option Value) :=
  match one_word t with
  | Some t => select_first scan (token_table ty) (λ _, has_token t)
  | None => λ s, let '(table, r) := injected_token (token_table ty) t s in ((ensure_table table s).1, r)
  end.
Definition validate_redirect_token_state (now : Z) (token : Value) : Result unit :=
  if bool_field token "used" then Err (Forbidden "Download token already used")
  else
    text ← ok_or (Validation "Token missing expiration") (get "expiresAt" token ≫= as_str);
    expires_at ← ok_or (Validation "Token expiration is invalid") (parse_rfc3339 text);
    if (expires_at <? now)%Z then Err (Forbidden "Download token expired") else Ok tt.
Definition redirect_target (ty : digital_type) (token : Value) : option string :=
  match ty with
  | Book => get "bookSourceUrl" token ≫= as_str
  | Software =>
      match get "softwareSourceUrl" token with
      | Some v => as_str v
      | None => get "downloadUrl" token ≫= as_str
      end
  end.
Definition mark_download_token_used (e : digital_env) (collection : string) (token : Value) : handler unit :=
  match get "id" token ≫= as_str with
  | Some raw_id =>
      ignored (update_document collection (bare_id collection raw_id)
        (VObject [("updatedAt", VString (to_rfc3339 (ge_used_now e))); ("used", VBool true)]) (ge_clock e))
  | None => pure (Ok tt)
  end.
(** The address the client is sent to. *)
Definition redirect (ty : digital_type) (e : digital_env) (t : string) : handler string :=
  _ ← pure (validate_string_token "t" t);
  found ← find_token ty t;
  token ← pure (ok_or (NotFound "Download token not found") found);
  _ ← pure (validate_redirect_token_state (ge_now e) token);
  source_url ← pure (ok_or (NotFound "Download URL not found") (redirect_target ty token));
  _ ← mark_download_token_used e (token_table ty) token;
  pure (Ok source_url).
Definition download_book := download Book.
Definition download_software := download Software.
Definition get_book_redirect := redirect Book.
Definition get_software_redirect := redirect Software.

(** ** The licences as a life cycle *)

Inductive digital_call : Type :=
| Activate (req : ActivateLicenseRequest)
| Deactivate (req : DeactivateLicenseRequest)
| Verify (req : VerifyLicenseRequest)
| Download (ty : digital_type) (req : DownloadRequest)
| Redeem (ty : digital_type) (t : string).
Definition call_digital (e : digital_env) (auth : AuthContext) (call : digital_call) : handler unit :=
  match call with
  | Activate req => _ ← activate_license e auth req; pure (Ok tt)
  | Deactivate req => _ ← deactivate_license e auth req; pure (Ok tt)
  | Verify req => _ ← verify_license e req; pure (Ok tt)
  | Download ty req => _ ← download ty e auth req; pure (Ok tt)
  | Redeem ty t => _ ← redirect ty e t; pure (Ok tt)
  end.
Definition run_digital (calls : list (digital_env * AuthContext * digital_call)) (s : store) : store :=
  foldl (λ s c, (call_digital c.1.1 c.1.2 c.2 s).1) s calls.

(** What may become of the activations of a licence, by the user [u]: anyone
    verifies, the owner of an active licence adds a device within the limit, and
    the owner removes one. *)
Inductive license_step (u : string) (license : Value) (acts : list Value) : list Value → Prop :=
| license_verified acts' :
    Forall2 (λ a b, b = a ∨ ∃ now, b = verified_at now a) acts acts' → license_step u license acts acts'
| license_activated d now platform :
    str_field license "userId" = u → str_field license "status" = "active" →
    Forall (λ a, device_of a ≠ Some d) acts → (N.of_nat (length acts) < device_limit license)%N →
    license_step u license acts (acts ++ [activation d now platform])
| license_deactivated d :
    str_field license "userId" = u → license_step u license acts (filter (λ a, device_of a ≠ Some d) acts).

(** The licences are as they were, or one of them made a step. *)
Definition licensed (u : string) (rs rs' : rows) : Prop :=
  rs' = rs ∨ ∃ key row acts now clock, rs !! key = Some row
    ∧ license_step u (row_data row) (activations_of (row_data row)) acts
    ∧ rs' = <[key := merged_row (activations_doc acts now) clock row]> rs.

Lemma read_license_rows key s s1 license :
  read_license key s = (s1, Ok license) →
  ∃ row, table_rows s1 "licenses" !! bare_id "licenses" key = Some row
    ∧ license = row_to_doc (bare_id "licenses" key) row.
Proof.
  unfold read_license. intros R. run_inv R. apply pure_ok in R as [-> R]. cases_ok R. injection R as <-.
  unfold get_document in R0. rewrite with_table_valid in R0 by done. cbv beta zeta in R0. rewrite table_rows_ensured in R0.
  destruct (table_rows s "licenses" !! _) as [row|] eqn:E; [|done]. injection R0 as <- <-. exists row. by rewrite table_rows_ensured.
Qed.
Lemma keeps_read_license c key : keeps c (read_license key).
Proof. apply keeps_bind; [apply keeps_map_err, keeps_get|intros; apply keeps_pure]. Qed.

Lemma activations_doc_of id row : activations_of (row_to_doc id row) = activations_of (row_data row).
Proof. unfold activations_of. by rewrite get_row_to_doc by concrete. Qed.
Lemma device_limit_doc id row : device_limit (row_to_doc id row) = device_limit (row_data row).
Proof. unfold device_limit. by rewrite get_row_to_doc by concrete. Qed.

Lemma licensed_update u key acts now clock row s :
  table_rows s "licenses" !! bare_id "licenses" key = Some row →
  license_step u (row_data row) (activations_of (row_data row)) acts →
  licensed u (table_rows s "licenses") (table_rows (update_document "licenses" key (activations_doc acts now) clock s).1 "licenses").
Proof.
  intros Hrow Hstep. right. exists (bare_id "licenses" key), row, acts, now, clock. split; [done|]. split; [done|].
  pose proof (update_rows "licenses" key (activations_doc acts now) clock s) as Hu. by rewrite Hrow in Hu.
Qed.

Lemma verified_first d now acts : Forall2 (λ a b, b = a ∨ ∃ now, b = verified_at now a) acts (verify_first d now acts).
Proof.
  assert (∀ l, Forall2 (λ a b, b = a ∨ ∃ now, b = verified_at now a) l l) as Hrefl.
  { induction l; constructor; eauto. }
  induction acts as [|a acts IH]; cbn; [constructor|]. destruct (on_device d a); constructor; eauto.
Qed.
Lemma verified_all d now acts : Forall2 (λ a b, b = a ∨ ∃ now, b = verified_at now a) acts (verify_all d now acts).
Proof.
  induction acts as [|a acts IH]; [constructor|]. cbn. constructor; [|done]. destruct (on_device d a); eauto.
Qed.

Lemma plan_steps now u d platform license id row plan :
  license = row_to_doc id row → plan_activation now u d platform license = Ok plan →
  license_step u (row_data row) (activations_of (row_data row)) (match plan with Reverify _ acts | Add acts => acts end).
Proof.
  intros ->. unfold plan_activation. cbv zeta. rewrite !str_field_doc, activations_doc_of, device_limit_doc by concrete.
  destruct (str_field _ "status" =s? _) eqn:E1; cbn [negb]; [|done].
  destruct (str_field _ "userId" =s? _) eqn:E2; cbn [negb]; [|done]. bools.
  destruct (list_find _ _) as [[i act]|] eqn:E; [intros [= <-]; apply license_verified, verified_first|].
  destruct (_ <=? _)%N eqn:E3; [done|]. intros [= <-]. apply license_activated; [done..| |by apply N.leb_gt].
  apply list_find_None in E. eapply Forall_impl; [exact E|]. cbn. intros a Ha Hd. apply Ha. by apply bool_decide_eq_true.
Qed.

Ltac over_licenses u := apply (after_keeps "licenses" (licensed u)); [by left| |].
Lemma state_map_err {A} f (op : store → store * Result A) s : (db_map_err f op s).1 = (op s).1.
Proof. unfold db_map_err. by destruct (op s). Qed.
Lemma state_ignored {A} (op : store → store * Result A) s : (ignored op s).1 = (op s).1.
Proof. unfold ignored. by destruct (op s) as [? []]. Qed.
Lemma keeps_limit c e u action max : c ≠ "rate_limits" → keeps c (digital_limit e u action max).
Proof. intros. by apply keeps_rate_limit. Qed.

Lemma activate_licensed e auth req s :
  licensed (auth_user_id auth) (table_rows s "licenses") (table_rows (activate_license e auth req s).1 "licenses").
Proof.
  set (u := auth_user_id auth). unfold activate_license. over_licenses u; [done|]. intros s1 _ _ _.
  over_licenses u; [done|]. intros s2 user_id Hu _. apply pure_ok in Hu as [-> Hu]. apply resolve_self_ok in Hu as ->. fold u.
  over_licenses u; [by apply keeps_limit|]. intros s3 _ _ _. cbv zeta. over_licenses u; [done|]. intros s4 _ _ _.
  over_licenses u; [apply keeps_read_license|]. intros s5 license Hl _. apply read_license_rows in Hl as (row & Hrow & ->).
  over_licenses u; [done|]. intros s6 plan Hp _. apply pure_ok in Hp as [-> Hp]. rewrite before_keeps by done.
  pose proof (plan_steps _ _ _ _ _ _ _ _ eq_refl Hp) as Hstep. clear Hp.
  destruct plan; rewrite before_keeps by done; rewrite ?state_ignored, ?state_map_err; by eapply licensed_update.
Qed.
Lemma deactivate_licensed e auth req s :
  licensed (auth_user_id auth) (table_rows s "licenses") (table_rows (deactivate_license e auth req s).1 "licenses").
Proof.
  set (u := auth_user_id auth). unfold deactivate_license. over_licenses u; [done|]. intros s1 _ _ _.
  over_licenses u; [done|]. intros s2 user_id Hu _. apply pure_ok in Hu as [-> Hu]. apply resolve_self_ok in Hu as ->. fold u.
  over_licenses u; [by apply keeps_limit|]. intros s3 _ _ _. cbv zeta. over_licenses u; [done|]. intros s4 _ _ _.
  over_licenses u; [apply keeps_read_license|]. intros s5 license Hl _. apply read_license_rows in Hl as (row & Hrow & ->).
  over_licenses u; [done|]. intros s6 [] Hp _. apply pure_ok in Hp as [-> Hp]. rewrite before_keeps by done.
  rewrite state_map_err. eapply licensed_update; [exact Hrow|]. unfold remaining_of. rewrite activations_doc_of.
  apply license_deactivated. rewrite str_field_doc in Hp by concrete. destruct (_ =s? _) eqn:E; [by bools|done].
Qed.
Lemma verify_licensed u e req s :
  licensed u (table_rows s "licenses") (table_rows (verify_license e req s).1 "licenses").
Proof.
  unfold verify_license. cbv zeta. over_licenses u; [done|]. intros s1 _ _ _.
  over_licenses u; [apply keeps_read_license|]. intros s2 license Hl _. apply read_license_rows in Hl as (row & Hrow & ->).
  rewrite before_keeps by done. destruct (vl_device_id req) as [d|]; [|by left]. destruct (existsb _ _); [|by left].
  rewrite state_ignored. eapply licensed_update; [exact Hrow|]. rewrite activations_doc_of. apply license_verified, verified_all.
Qed.

Lemma keeps_find_token c ty t : keeps c (find_token ty t).
Proof.
  unfold find_token. destruct (one_word t); [apply keeps_select_first|].
  intros s. destruct (injected_token (token_table ty) t s). apply keeps_ensure_first.
Qed.
Lemma keeps_mark c e table token : table ≠ c → keeps c (mark_download_token_used e table token).
Proof. intros Hne. unfold mark_download_token_used. case_match; [by apply keeps_ignored, keeps_update|done]. Qed.
(** A handler leaves alone the tables it does not write. *)
Ltac framing := repeat
  lazymatch goal with
  | |- keeps _ (pure _) => apply keeps_pure
  | |- keeps _ (read_license _) => apply keeps_read_license
  | |- keeps _ (digital_limit _ _ _ _) => by apply keeps_limit
  | |- keeps _ (find_token _ _) => apply keeps_find_token
  | |- keeps _ (mark_download_token_used _ _ _) => by apply keeps_mark
  | |- keeps _ (db_map_err _ (create_document _ _ _ _)) => by apply keeps_map_err, keeps_create
  | |- keeps _ (db_map_err _ (update_document _ _ _ _)) => by apply keeps_map_err, keeps_update
  | |- keeps _ (ignored (update_document _ _ _ _)) => by apply keeps_ignored, keeps_update
  | |- keeps _ (match _ with _ => _ end) => case_match
  | |- keeps _ (_ ≫= _) => apply keeps_bind; [|intros ?]
  end.
Lemma keeps_download c ty e auth req : c ≠ "rate_limits" → token_table ty ≠ c → keeps c (download ty e auth req).
Proof.
  intros H1 H2. unfold download. cbv zeta.
  framing.
Qed.
Lemma keeps_redirect c ty e t : token_table ty ≠ c → keeps c (redirect ty e t).
Proof.
  intros H1. unfold redirect.
  framing.
Qed.

Lemma call_licensed e auth call s :
  licensed (auth_user_id auth) (table_rows s "licenses") (table_rows (call_digital e auth call s).1 "licenses").
Proof.
  destruct call as [req|req|req|ty req|ty t]; cbn [call_digital]; rewrite before_keeps by done.
  - apply activate_licensed.
  - apply deactivate_licensed.
  - apply verify_licensed.
  - left. apply keeps_download; [done|by destruct ty].
  - left. apply keeps_redirect. by destruct ty.
Qed.

Lemma merged_activations acts now clock row m :
  row_data row = VObject m → let row' := merged_row (activations_doc acts now) clock row in
  activations_of (row_data row') = acts
  ∧ ∀ k, k ∉ ["activations"; "updatedAt"] → get k (row_data row') = get k (row_data row).
Proof.
  intros Hm row'. unfold row', activations_doc. split.
  - unfold activations_of. by rewrite (merged_row_get _ _ _ m) by (done || concrete).
  - intros k Hk. rewrite (merged_row_get _ _ _ m) by (done || concrete). cbn [assoc_get].
    destruct (k =s? "activations") eqn:E1; [bools; subst; set_solver|].
    destruct (k =s? "updatedAt") eqn:E2; [bools; subst; set_solver|done].
Qed.

(** What becomes of a licence.  Whoever calls whatever digital endpoint with
    whatever outcome, no licence appears or disappears, every field but the list of
    activations and the time of the update stays, and the list stays or makes one
    step of the life cycle for the caller: only the owner of an active licence adds
    a device, one it does not have and below its limit, only the owner removes one,
    and everybody else at most notes the time of a verification. *)
Theorem license_calls_refine e auth call s key :
  match table_rows s "licenses" !! key with
  | None => table_rows (call_digital e auth call s).1 "licenses" !! key = None
  | Some row =>
      ∀ m, row_data row = VObject m →
      ∃ row', table_rows (call_digital e auth call s).1 "licenses" !! key = Some row'
        ∧ (∀ k, k ∉ ["activations"; "updatedAt"] → get k (row_data row') = get k (row_data row))
        ∧ (row' = row ∨ license_step (auth_user_id auth) (row_data row)
                          (activations_of (row_data row)) (activations_of (row_data row')))
  end.
Proof.
  destruct (call_licensed e auth call s) as [->|(key' & row0 & acts & now & clock & Hrow0 & Hstep & ->)].
  - destruct (table_rows s "licenses" !! key) as [row|]; [|done]. intros m _. exists row. auto.
  - destruct (decide (key' = key)) as [->|Hne].
    + rewrite Hrow0, lookup_insert_eq. intros m Hm. destruct (merged_activations acts now clock row0 m Hm) as [Ha Hk].
      eexists. split; [reflexivity|]. split; [exact Hk|]. right. by rewrite Ha.
    + rewrite lookup_insert_ne by done. destruct (table_rows s "licenses" !! key) as [row|]; [|done]. intros m _. exists row. auto.
Qed.

(** *** The limit *)

(** A licence that is active on no more devices than it may be, each once. *)
Definition license_wf (license : Value) : Prop :=
  (N.of_nat (length (activations_of license)) ≤ device_limit license)%N ∧ NoDup (omap device_of (activations_of license)).
Definition licenses_wf (rs : rows) : Prop := map_Forall (λ _ row, is_object (row_data row) = true ∧ license_wf (row_data row)) rs.

Lemma device_verified now act : device_of (verified_at now act) = device_of act.
Proof. destruct act as [| | | | |m]; [done..|]. cbn. by rewrite assoc_get_insert_ne by done. Qed.

Lemma step_wf u license acts acts' :
  license_step u license acts acts' → (N.of_nat (length acts) ≤ device_limit license)%N → NoDup (omap device_of acts) →
  (N.of_nat (length acts') ≤ device_limit license)%N ∧ NoDup (omap device_of acts').
Proof.
  destruct 1 as [acts' Hv|d now platform _ _ Hnew Hlt|d _]; intros Hlen Hnd.
  - assert (omap device_of acts' = omap device_of acts) as ->; [|by rewrite <- (Forall2_length _ _ _ Hv)].
    induction Hv as [|a b acts acts' Hab Hv IH]; [done|]. cbn [omap list_omap].
    assert (device_of b = device_of a) as -> by (destruct Hab as [->|[now ->]]; [done|apply device_verified]).
    cbn [length] in Hlen. cbn [omap list_omap] in Hnd. destruct (device_of a) as [d|]; [apply NoDup_cons in Hnd as [_ Hnd]|];
      rewrite IH; try done; lia.
  - rewrite length_app. cbn [length]. split; [lia|]. rewrite omap_app. apply NoDup_app. split; [done|]. split.
    + intros d' Hin Hd'. apply list_elem_of_singleton in Hd' as ->. apply list_elem_of_omap in Hin as (a & Ha & Hd).
      rewrite Forall_forall in Hnew. by apply (Hnew a Ha).
    + apply NoDup_singleton.
  - split; [pose proof (length_filter (λ a, device_of a ≠ Some d) acts); lia|].
    eapply sublist_NoDup; [exact Hnd|]. clear. induction acts as [|a acts IH]; [done|]. rewrite filter_cons. cbn [omap list_omap].
    case_decide; cbn [omap list_omap]; destruct (device_of a); by try constructor.
Qed.

Lemma licensed_wf u rs rs' : licensed u rs rs' → licenses_wf rs → licenses_wf rs'.
Proof.
  intros [->|(key & row & acts & now & clock & Hrow & Hstep & ->)] Hwf; [done|]. apply map_Forall_insert_2; [|done].
  destruct (Hwf _ _ Hrow) as [Ho [Hlen Hnd]]. destruct (row_data row) as [| | | | |m] eqn:Hm; try done.
  destruct (merged_activations acts now clock row m Hm) as [Ha Hk]. rewrite <- Hm in *. split; [cbn; by rewrite Hm|].
  unfold license_wf. rewrite Ha. unfold device_limit. rewrite Hk by set_solver. by apply (step_wf u (row_data row) (activations_of (row_data row))).
Qed.

(** C23: no licence is active on more devices than it may be.  However the
    digital endpoints are called, one call after the other, by whomever and with
    whatever outcome, a licence that respects its limit (its own, or five devices)
    and lists every device once does so for ever. *)
Theorem devices_bounded calls s :
  licenses_wf (table_rows s "licenses") → licenses_wf (table_rows (run_digital calls s) "licenses").
Proof.
  unfold run_digital. revert s. induction calls as [|[[e auth] call] calls IH]; intros s Hwf; [done|]. cbn [foldl].
  apply IH. eapply licensed_wf; [apply call_licensed|done].
Qed.

(** ** Download tokens *)

(** Words need no escaping. *)
Definition word_char (c : ascii) : bool := is_alnum c || Ascii.eqb c "_".
Lemma word_char_plain c :
  word_char c = true → is_blank c = false ∧ Ascii.eqb APOS c = false ∧ Ascii.eqb c BACKSLASH = false ∧ Ascii.eqb c APOS = false.
Proof. destruct c as [[] [] [] [] [] [] [] []]; by vm_compute. Qed.
Lemma one_word_plain w : str_forall word_char w = true → one_word w = Some w.
Proof.
  intros Hw. assert (str_exists is_blank w = false ∧ str_exists (Ascii.eqb APOS) w = false ∧ escape_sql_string w = w) as (H1 & H2 & H3).
  { induction w as [|c w IH]; [done|]. cbn [str_forall] in Hw. bools. destruct (word_char_plain c) as (A & B & D & E); [done|].
    destruct IH as (I1 & I2 & I3); [done|]. rewrite escape_cons, D, E, I3. cbn [str_exists]. by rewrite A, B, I1, I2. }
  unfold one_word, literal. rewrite H1, escape_quote_free by done. rewrite H3. change (lex_standard (str1 APOS)) with (Some ("", "")). cbn [mbind option_bind]. by rewrite str_app_nil_r.
Qed.

Lemma table_valid ty : is_ok (validate_identifier (token_table ty)) = true.
Proof. by destruct ty. Qed.

(** What one call does to the tokens of a table. *)
Definition used_doc (now : string) : Value := VObject [("updatedAt", VString now); ("used", VBool true)].
Definition tokens_step (fresh : string) (rs rs' : rows) : Prop :=
  rs' = rs
  ∨ (∃ id row now clock, rs !! id = Some row ∧ rs' = <[id := merged_row (used_doc now) clock row]> rs)
  ∨ (∃ id row, rs !! id = None ∧ field_text "accessToken" (row_data row) = Some fresh ∧ rs' = <[id := row]> rs).

Lemma tokens_mark ty e token s :
  tokens_step (token_of e) (table_rows s (token_table ty))
    (table_rows (mark_download_token_used e (token_table ty) token s).1 (token_table ty)).
Proof.
  unfold mark_download_token_used. case_match; [|by left]. rewrite state_ignored, update_rows, table_valid.
  case_match eqn:E; [|by left]. right. left. eauto 6.
Qed.
Lemma token_doc_fields ty e key u pid expires license :
  let doc := token_doc ty e key u pid expires license in
  get "accessToken" doc = Some (VString (token_of e)) ∧ get "id" doc = None ∧ get "used" doc = Some (VBool false)
  ∧ get "expiresAt" doc = Some (VString (to_rfc3339 expires)) ∧ get (url_field ty) doc = Some (source_of ty license).
Proof. by destruct ty. Qed.

Lemma after_keeps_step {A B} c fresh (m : handler A) (k : A → handler B) s :
  keeps c m → (∀ s1 a, m s = (s1, Ok a) → tokens_step fresh (table_rows s1 c) (table_rows (k a s1).1 c)) →
  tokens_step fresh (table_rows s c) (table_rows ((m ≫= k) s).1 c).
Proof. intros Hm Hk. apply after_keeps; [by left|done|]. intros s1 a E _. by apply Hk. Qed.

Lemma tokens_download ty e auth req s :
  tokens_step (token_of e) (table_rows s (token_table ty)) (table_rows (download ty e auth req s).1 (token_table ty)).
Proof.
  unfold download. cbv zeta. do 3 (apply after_keeps_step; [done|intros ? ? _]).
  apply after_keeps_step; [apply keeps_limit; by destruct ty|intros ? _ _]. do 2 (apply after_keeps_step; [done|intros ? _ _]).
  apply after_keeps_step; [apply keeps_read_license|intros ? license _]. do 2 (apply after_keeps_step; [done|intros ? ? _]).
  rewrite before_keeps by done. rewrite state_map_err, create_rows by apply table_valid.
  case_match eqn:E; [by left|]. right. right. do 2 eexists. split; [exact E|]. split; [|reflexivity].
  cbn [row_data]. unfold field_text. by rewrite (proj1 (token_doc_fields _ _ _ _ _ _ _)).
Qed.
Lemma tokens_redirect ty e t s :
  tokens_step (token_of e) (table_rows s (token_table ty)) (table_rows (redirect ty e t s).1 (token_table ty)).
Proof.
  unfold redirect. apply after_keeps_step; [done|intros ? _ _]. apply after_keeps_step; [apply keeps_find_token|intros ? found _].
  do 3 (apply after_keeps_step; [done|intros ? ? _]). rewrite before_keeps by done. apply tokens_mark.
Qed.

Lemma keeps_activate c e auth req : c ≠ "rate_limits" → c ≠ "licenses" → keeps c (activate_license e auth req).
Proof.
  intros H1 H2. unfold activate_license. cbv zeta.
  framing.
Qed.
Lemma keeps_deactivate c e auth req : c ≠ "rate_limits" → c ≠ "licenses" → keeps c (deactivate_license e auth req).
Proof.
  intros H1 H2. unfold deactivate_license. cbv zeta.
  framing.
Qed.
Lemma keeps_verify c e req : c ≠ "licenses" → keeps c (verify_license e req).
Proof.
  intros H2. unfold verify_license. cbv zeta.
  framing.
Qed.

Lemma call_tokens ty e auth call s :
  tokens_step (token_of e) (table_rows s (token_table ty)) (table_rows (call_digital e auth call s).1 (token_table ty)).
Proof.
  destruct call as [req|req|req|ty' req|ty' t]; cbn [call_digital]; rewrite before_keeps by done.
  - left. apply keeps_activate; by destruct ty.
  - left. apply keeps_deactivate; by destruct ty.
  - left. apply keeps_verify; by destruct ty.
  - destruct (decide (ty' = ty)) as [->|Hne]; [apply tokens_download|]. left. apply keeps_download; by destruct ty, ty'.
  - destruct (decide (ty' = ty)) as [->|Hne]; [apply tokens_redirect|]. left. apply keeps_redirect; by destruct ty, ty'.
Qed.

Context (scan_rows : ∀ rs, scan rs ≡ₚ map_to_list rs).

(** The token [t] is that of one row only. *)
Definition token_row (t : string) (rs : rows) (id : string) (row : DocRow) : Prop :=
  rs !! id = Some row ∧ has_token t row = true ∧ ∀ id' row', rs !! id' = Some row' → has_token t row' = true → id' = id.
Definition spent (t : string) (rs : rows) : Prop :=
  ∃ id row, token_row t rs id row ∧ get "used" (row_data row) = Some (VBool true).

Lemma token_object t row : has_token t row = true → ∃ m, row_data row = VObject m.
Proof.
  unfold has_token, field_text. intros Ht%bool_decide_eq_true. destruct (row_data row) as [| | | | |m]; [done..|]. by exists m.
Qed.
Lemma has_token_used t now clock row : has_token t (merged_row (used_doc now) clock row) = has_token t row.
Proof.
  unfold has_token, field_text. f_equal. destruct (row_data row) as [| | | | |m] eqn:Hm; try (cbn; by rewrite Hm).
  unfold used_doc. rewrite (merged_row_get _ _ _ m) by (done || concrete). by rewrite Hm.
Qed.
Lemma get_used now clock row m :
  row_data row = VObject m → get "used" (row_data (merged_row (used_doc now) clock row)) = Some (VBool true).
Proof. intros Hm. unfold used_doc. by rewrite (merged_row_get _ _ _ m) by (done || concrete). Qed.

(** Marking a row keeps the token of every row. *)
Lemma token_row_used t rs id row id' row' now clock :
  token_row t rs id row → rs !! id' = Some row' →
  token_row t (<[id' := merged_row (used_doc now) clock row']> rs) id
    (if decide (id' = id) then merged_row (used_doc now) clock row' else row).
Proof.
  intros (Hrow & Ht & Huniq) Hrow'. split_and!.
  - case_decide as E; [by rewrite E, lookup_insert_eq|by rewrite lookup_insert_ne].
  - case_decide as E; [|done]. rewrite has_token_used. congruence.
  - intros id2 row2 [[<- <-]|[Hne Hrow2]]%lookup_insert_Some Ht2; [|by eapply Huniq].
    rewrite has_token_used in Ht2. by eapply Huniq.
Qed.

Lemma spent_step t fresh rs rs' : t ≠ fresh → tokens_step fresh rs rs' → spent t rs → spent t rs'.
Proof.
  intros Hne [->|[(id' & row' & now & clock & Hrow' & ->)|(id' & row' & Hnone & Hf & ->)]] (id & row & Htok & Hu); [by exists id, row| |].
  - pose proof (token_row_used _ _ _ _ _ _ now clock Htok Hrow') as Htok'. eexists id, _. split; [exact Htok'|].
    case_decide as E; [|done]. destruct (token_object _ _ (proj1 (proj2 Htok))) as [m Hm]. destruct Htok as (Hrow & _).
    eapply (get_used _ _ _ m). congruence.
  - destruct Htok as (Hrow & Ht & Huniq). exists id, row. split; [|done]. split_and!; [|done|].
    + rewrite lookup_insert_ne; [done|]. intros ->. congruence.
    + intros id2 row2 [[<- <-]|[_ Hrow2]]%lookup_insert_Some Ht2; [|by eapply Huniq].
      unfold has_token in Ht2. apply bool_decide_eq_true in Ht2. congruence.
Qed.

(** Looking up a token. *)
Lemma found_token t w ty s id row :
  one_word t = Some w → token_row w (table_rows s (token_table ty)) id row →
  ∃ s', find_token ty t s = (s', Ok (Some (row_to_doc id row)))
    ∧ ∀ c, table_rows s' c = table_rows s c.
Proof.
  intros Hw (Hrow & Ht & Huniq). pose proof (λ c, keeps_find_token c ty t s) as Hk.
  unfold find_token in *. rewrite Hw in *. unfold select_first in *. cbv zeta in *. cbn [fst] in *. rewrite Hk.
  eexists. split; [|exact Hk]. do 3 f_equal.
  set (l := filter _ (scan _)). assert (∀ kr, kr ∈ l ↔ kr = (id, row)) as Hl.
  { intros [id' row']. unfold l. rewrite list_elem_of_filter, scan_rows, elem_of_map_to_list. cbn [fst snd]. split.
    - intros [Ht' Hrow']. assert (id' = id) as -> by eauto. congruence.
    - intros [= -> ->]. done. }
  destruct l as [|kr l']; [by destruct (proj1 (elem_of_nil (id, row)) (proj2 (Hl _) eq_refl))|]. cbn. by rewrite (proj1 (Hl kr)) by left.
Qed.

(** A token that has been used is refused. *)
Lemma redirect_spent ty e t w s :
  one_word t = Some w → spent w (table_rows s (token_table ty)) → ∀ s' url, redirect ty e t s ≠ (s', Ok url).
Proof.
  intros Hw (id & row & Htok & Hu) s' url R. unfold redirect in R. run_inv R.
  destruct (found_token _ _ ty s id row Hw Htok) as (s1 & Hf & _). rewrite (bind_run _ _ _ _ _ Hf) in R.
  run_inv R. cbn in R1. injection R1 as <-. run_inv R. unfold validate_redirect_token_state, bool_field in R1.
  rewrite get_row_to_doc, Hu in R1 by concrete. done.
Qed.

(** The exchange of a token. *)
Lemma mark_runs ty e w s id row :
  token_row w (table_rows s (token_table ty)) id row → bare_id (token_table ty) id = id →
  ∃ s', mark_download_token_used e (token_table ty) (row_to_doc id row) s = (s', Ok tt)
    ∧ table_rows s' (token_table ty)
      = <[id := merged_row (used_doc (to_rfc3339 (ge_used_now e))) (ge_clock e) row]> (table_rows s (token_table ty)).
Proof.
  intros (Hrow & Ht & _) Hid. destruct (token_object _ _ Ht) as [m Hm]. unfold mark_download_token_used.
  rewrite row_to_doc_id by (rewrite Hm; by eexists). cbn [mbind option_bind as_str]. unfold ignored, update_document.
  rewrite with_table_valid by apply table_valid. cbv beta zeta. rewrite table_rows_ensured, !Hid, Hrow.
  eexists. split; [reflexivity|]. by rewrite table_rows_insert.
Qed.
Lemma redirect_runs ty e t w s id row :
  is_ok (validate_string_token "t" t) = true → one_word t = Some w →
  token_row w (table_rows s (token_table ty)) id row → bare_id (token_table ty) id = id →
  match (_ ← validate_redirect_token_state (ge_now e) (row_to_doc id row);
         ok_or (NotFound "Download URL not found") (redirect_target ty (row_to_doc id row))) with
  | Ok url => ∃ s', redirect ty e t s = (s', Ok url)
      ∧ table_rows s' (token_table ty)
        = <[id := merged_row (used_doc (to_rfc3339 (ge_used_now e))) (ge_clock e) row]> (table_rows s (token_table ty))
  | Err err => (redirect ty e t s).2 = Err err
  | Panic => (redirect ty e t s).2 = Panic
  end.
Proof.
  intros Hv Hw Htok Hid. destruct (found_token _ _ ty s id row Hw Htok) as (s1 & Hf & Hk). unfold redirect.
  destruct (validate_string_token "t" t) as [[]|err|]; [|done..]. rewrite (bind_run _ _ s s tt) by done.
  rewrite (bind_run _ _ _ _ _ Hf), (bind_run _ _ s1 s1 (row_to_doc id row)) by done.
  destruct (validate_redirect_token_state _ _) as [[]|err|]; [|done..]. rewrite (bind_run _ _ s1 s1 tt) by done. cbn [mbind outcome_bind].
  destruct (ok_or _ (redirect_target _ _)) as [url|err|]; [|done..]. rewrite (bind_run _ _ s1 s1 url) by done.
  destruct (mark_runs ty e w s1 id row) as (s' & Hs' & Hrows); [by rewrite Hk|done|]. rewrite (bind_run _ _ _ _ _ Hs').
  rewrite Hk in Hrows. by exists s'.
Qed.

(** A download token is good for one download.  Once a token, that of a
    single row, has been exchanged for the address of its file, no request with it
    succeeds again, whatever other calls come in between, as long as none of them
    draws the same token once more. *)
Theorem download_token_once ty e t w url calls s s1 id row :
  redirect ty e t s = (s1, Ok url) → one_word t = Some w →
  token_row w (table_rows s (token_table ty)) id row → bare_id (token_table ty) id = id →
  Forall (λ c, token_of c.1.1 ≠ w) calls →
  ∀ e2 s2 url2, redirect ty e2 t (run_digital calls s1) ≠ (s2, Ok url2).
Proof.
  intros R Hw Htok Hid Hcalls e2. apply (redirect_spent _ _ _ w); [done|].
  assert (spent w (table_rows s1 (token_table ty))) as Hs.
  { assert (is_ok (validate_string_token "t" t) = true) as Hv.
    { unfold redirect in R. run_inv R. by rewrite R0. }
    pose proof (redirect_runs ty e t w s id row Hv Hw Htok Hid) as Hr. destruct (_ ≫= _) as [url'|err|]; [|by rewrite R in Hr..].
    destruct Hr as (s' & Hs' & Hrows). rewrite R in Hs'. injection Hs' as <- _. rewrite Hrows.
    eexists id, _. split; [by apply (token_row_used _ _ id row), Htok|]. rewrite decide_True by done.
    destruct (token_object _ _ (proj1 (proj2 Htok))) as [m Hm]. by eapply get_used. }
  clear R Htok. unfold run_digital. revert s1 Hs. induction Hcalls as [|[[e' auth] call] calls Hne Hcalls IH]; intros s1 Hs; [done|].
  cbn [foldl]. apply IH. eapply spent_step; [|apply call_tokens|done]. apply not_eq_sym, Hne.
Qed.

(** ** From the download to the file *)

Context `{!HexLaws H}.
(** [trim] of a word, and [parse_from_rfc3339] of what [to_rfc3339] prints. *)
Context (trim_word : ∀ w, str_forall word_char w = true → trim w = w).
Context (parse_printed : ∀ x, (utc_min ≤ x ≤ utc_max)%Z → parse_rfc3339 (to_rfc3339 x) = Some x).

Lemma token_word e : str_forall word_char (token_of e) = true.
Proof.
  unfold token_of. rewrite str_forall_app. cbn. eapply str_forall_impl; [|apply hex_encode_text].
  intros c Hc. unfold word_char. by rewrite Hc.
Qed.

Lemma add_seconds_ok now secs x :
  add_seconds (E := Error) now secs = Ok x → x = (now + secs * micros_per_sec)%Z ∧ (utc_min ≤ x ≤ utc_max)%Z.
Proof.
  unfold add_seconds, duration_seconds, datetime_add, unwrap. intros E.
  destruct (_ && _); cbn [mbind option_bind] in E; [|done]. destruct (_ && _) eqn:Hr; [|done]. injection E as <-.
  apply andb_true_iff in Hr as [H1%Z.leb_le H2%Z.leb_le]. done.
Qed.
Lemma download_runs ty e auth req s s1 r :
  download ty e auth req s = (s1, Ok r) →
  let key := bare_id "licenses" (license_key_of (default "" (dn_license_key req))) in
  ∃ row, table_rows s "licenses" !! key = Some row
    ∧ str_field (row_data row) "userId" = auth_user_id auth ∧ str_field (row_data row) "status" = "active"
    ∧ str_field (row_data row) "digitalType" = type_str ty
    ∧ dnr_download_url r = redirect_path ty +:+ token_of e ∧ table_rows s (token_table ty) !! ge_doc_id e = None
    ∧ (utc_min ≤ ge_now e + 900 * micros_per_sec ≤ utc_max)%Z
    ∧ ∃ u k, table_rows s1 (token_table ty)
      = <[ge_doc_id e := {| row_data := token_doc ty e k u (dn_product_id req) (ge_now e + 900 * micros_per_sec) (row_to_doc key row);
                            row_created_at := ge_clock e; row_updated_at := ge_clock e |}]> (table_rows s (token_table ty)).
Proof.
  intros R key. unfold download in R. cbv zeta in R. do 2 run_inv R. run_inv R. apply resolve_self_ok in R2 as ->.
  run_inv R. pose proof (λ c Hc, keeps_run c _ _ _ _ (keeps_limit c e _ _ _ Hc) R2) as Hk1. do 2 run_inv R. run_inv R.
  pose proof (λ c, keeps_run c _ _ _ _ (keeps_read_license c _) R5) as Hk2. apply read_license_rows in R5 as (row & Hrow & ->).
  fold key in Hrow, R. run_inv R. run_inv R. exists row. rewrite Hk2, Hk1 in Hrow by done. split; [done|].
  unfold download_checks in R5. rewrite !str_field_doc in R5 by concrete. cases_ok R5. bools. do 3 (split; [done|]).
  apply add_seconds_ok in R6 as [Ha Hrange]. change (DOWNLOAD_TOKEN_MINUTES * 60)%Z with 900%Z in Ha. subst a5. run_inv R. apply pure_ok in R as [-> R]. injection R as <-. split; [done|].
  destruct (token_doc_fields ty e (license_key_of (default "" (dn_license_key req))) (auth_user_id auth) (dn_product_id req)
    (ge_now e + 900 * micros_per_sec)%Z (row_to_doc key row)) as (_ & Hnoid & _).
  match goal with Hc : create_document _ _ _ _ _ = _ |- _ => rename Hc into R6 end. unfold create_document in R6. rewrite with_table_valid in R6 by apply table_valid. cbv beta zeta in R6.
  unfold document_id in R6. rewrite Hnoid in R6. cbn [mbind option_bind default from_option] in R6.
  rewrite table_rows_ensured, Hk2, Hk1 in R6 by (by destruct ty). destruct (table_rows s (token_table ty) !! ge_doc_id e); [done|].
  injection R6 as <- _. do 2 (split; [done|]). do 2 eexists. rewrite table_rows_insert. reflexivity.
Qed.

Lemma source_doc ty id row : source_of ty (row_to_doc id row) = source_of ty (row_data row).
Proof. destruct ty; cbn [source_of]; [by rewrite str_field_doc by concrete|by rewrite !get_row_to_doc by concrete]. Qed.

(** The owner of a licence gets the file.  A download that succeeds was asked
    for by the owner of an active licence of that kind, and the token in the address
    it returns is exchanged for the file of the licence within fifteen minutes and
    refused as expired after that. *)
Theorem download_roundtrip ty e auth req s s1 r row url :
  download ty e auth req s = (s1, Ok r) →
  map_Forall (λ _ row', has_token (token_of e) row' = false) (table_rows s (token_table ty)) →
  bare_id (token_table ty) (ge_doc_id e) = ge_doc_id e → String.length (token_of e) ≤ 255 →
  table_rows s "licenses" !! bare_id "licenses" (license_key_of (default "" (dn_license_key req))) = Some row →
  source_of ty (row_data row) = VString url →
  str_field (row_data row) "userId" = auth_user_id auth ∧ str_field (row_data row) "status" = "active"
  ∧ str_field (row_data row) "digitalType" = type_str ty
  ∧ ∃ t, dnr_download_url r = redirect_path ty +:+ t
    ∧ ∀ e', if (ge_now e + 900 * micros_per_sec <? ge_now e')%Z
            then (redirect ty e' t s1).2 = Err (Forbidden "Download token expired")
            else ∃ s2, redirect ty e' t s1 = (s2, Ok url).
Proof.
  intros R Hfresh Hid Hlen Hrow Hurl. apply download_runs in R as (row0 & Hrow0 & Hu & Hst & Hty & Hr & Hnone & Hrange & u & k & Hrows).
  rewrite Hrow in Hrow0. injection Hrow0 as <-. do 3 (split; [done|]). exists (token_of e). split; [done|]. intros e'.
  set (row' := {| row_data := _ |}) in Hrows. pose proof (token_doc_fields ty e k u (dn_product_id req) (ge_now e + 900 * micros_per_sec)%Z
    (row_to_doc (bare_id "licenses" (license_key_of (default "" (dn_license_key req)))) row)) as (F1 & _ & F3 & F4 & F5).
  rewrite source_doc, Hurl in F5.
  assert (token_row (token_of e) (table_rows s1 (token_table ty)) (ge_doc_id e) row') as Htok.
  { rewrite Hrows. split_and!.
    - apply lookup_insert_eq.
    - unfold has_token, field_text, row'. cbn [row_data]. rewrite F1. by apply bool_decide_eq_true.
    - intros id2 row2 [[<- _]|[_ Hrow2]]%lookup_insert_Some Ht; [done|]. specialize (Hfresh _ _ Hrow2). cbn in Hfresh. congruence. }
  assert (is_ok (validate_string_token "t" (token_of e)) = true) as Hv.
  { unfold validate_string_token. rewrite trim_word by apply token_word. by replace (255 <? _) with false by (symmetry; by apply Nat.ltb_ge). }
  pose proof (redirect_runs ty e' _ _ s1 _ _ Hv (one_word_plain _ (token_word e)) Htok Hid) as Hrun.
  unfold validate_redirect_token_state, bool_field in Hrun. rewrite !get_row_to_doc in Hrun by concrete.
  rewrite (F3 : get "used" (row_data row') = _), (F4 : get "expiresAt" (row_data row') = _) in Hrun. cbn [mbind option_bind as_bool as_str default from_option ok_or outcome_bind] in Hrun.
  rewrite parse_printed in Hrun by done. cbn [ok_or outcome_bind mbind] in Hrun. destruct (_ <? ge_now e')%Z; [exact Hrun|]. cbn [outcome_bind] in Hrun.
  assert (redirect_target ty (row_to_doc (ge_doc_id e) row') = Some url) as Ht.
  { destruct ty; cbn [redirect_target]; rewrite !get_row_to_doc by concrete; unfold row'; cbn [row_data];
      [change "bookSourceUrl" with (url_field Book)|change "softwareSourceUrl" with (url_field Software)]; by rewrite F5. }
  rewrite Ht in Hrun. destruct Hrun as (s2 & Hrun & _). by exists s2.
Qed.
End digital.

(** ** Where the code falls short *)

(** The redirects take their token from anyone and put it in the text of the
    statement: PostgreSQL reads the rest of such a token as SQL, here a condition
    that every token meets. *)
Example redirect_injection :
  let t := str1 APOS +:+ " OR true --" in
  is_ok (validate_string_token (T := plain_textlib) "t" t) = true
  ∧ lex_standard (escape_sql_string t +:+ str1 APOS +:+ " LIMIT 1") = Some (str1 BACKSLASH, " OR true --' LIMIT 1").
Proof. by vm_compute. Qed.

(** ** Concrete instances *)
Section digital_witnesses.
#[local] Instance demo_g_chrono : Chrono := plain_chrono.
#[local] Instance demo_g_json : PgJson := plain_json.
#[local] Instance demo_g_text : TextLib := plain_textlib.
(** Bytes in binary digits, which obey the laws of hexadecimal ones. *)
Definition bit_char (b : bool) : ascii := if b then "1"%char else "0"%char.
Definition char_bit (c : ascii) : bool := Ascii.eqb c "1".
Fixpoint bits_encode (s : string) : string :=
  match s with
  | "" => ""
  | String (Ascii a b c d e f g h) s =>
      String (bit_char a) (String (bit_char b) (String (bit_char c) (String (bit_char d)
        (String (bit_char e) (String (bit_char f) (String (bit_char g) (String (bit_char h) (bits_encode s))))))))
  end.
Fixpoint bits_decode (s : string) : option string :=
  match s with
  | "" => Some ""
  | String a (String b (String c (String d (String e (String f (String g (String h s))))))) =>
      String (Ascii (char_bit a) (char_bit b) (char_bit c) (char_bit d) (char_bit e) (char_bit f) (char_bit g) (char_bit h))
        <$> bits_decode s
  | _ => None
  end.
#[local] Instance demo_g_hex : HexLib := {| hex_encode := bits_encode; hex_decode := bits_decode |}.
Lemma char_bit_char b : char_bit (bit_char b) = b.
Proof. by destruct b. Qed.
Lemma bit_alnum b : is_alnum (bit_char b) = true.
Proof. by destruct b. Qed.
Lemma demo_hex_laws : HexLaws demo_g_hex.
Proof.
  constructor; cbn [hex_encode hex_decode demo_g_hex]; intros x; induction x as [|[a b c d e f g h] x IH]; [done| |done|].
  - cbn. rewrite IH. cbn. by rewrite !char_bit_char.
  - cbn [bits_encode str_forall]. rewrite IH. by rewrite !bit_alnum.
Qed.
Lemma demo_trim w : str_forall word_char w = true → trim w = w.
Proof.
  intros Hw. cbn [trim demo_g_text plain_textlib].
  assert (∀ c, word_char c = true → Ascii.eqb c " " = false) as Hb by (intros [[] [] [] [] [] [] [] []]; by vm_compute).
  assert (trim_start " " w = w) as -> by (destruct w; cbn in *; bools; [done|by rewrite Hb]).
  induction w as [|c w IH]; [done|]. cbn in Hw. bools. cbn. rewrite IH by done. destruct w; [by rewrite Hb|done].
Qed.
Lemma demo_printed x : (utc_min ≤ x ≤ utc_max)%Z → parse_rfc3339 (to_rfc3339 x) = Some x.
Proof.
  intros Hx. cbn [parse_rfc3339 to_rfc3339 demo_g_text demo_g_chrono plain_textlib plain_chrono]. apply parse_i64_pretty.
  change utc_min with (-8334601228800000000)%Z in Hx. change utc_max with 8210266876799000000%Z in Hx. unfold i64_max. lia.
Qed.
Lemma demo_g_scan (rs : rows) : map_to_list rs ≡ₚ map_to_list rs.
Proof. done. Qed.

Definition demo_g_env (now : Z) : digital_env :=
  {| ge_test_mode := true; ge_secs := 1000; ge_limit_id := "l"; ge_limit_now := 1; ge_now := now; ge_used_now := now;
     ge_uuid := "0123456789abcdef"; ge_doc_id := "d1"; ge_clock := now |}.
Definition demo_key : string := "AB12-CD34-EF56-GH78".
Definition license_fields (limit : Z) : list (string * Value) :=
  [("activations", VArray []); ("bookSourceUrl", VString "https://files/b.epub"); ("deviceLimit", of_i64 limit);
   ("digitalType", VString "book"); ("productName", VString "A book"); ("status", VString "active"); ("userId", VString "ann")].
Definition license_row (limit : Z) : DocRow := plain_row (VObject (license_fields limit)).
Definition license_store (limit : Z) : store := {["licenses" := {[demo_key := license_row limit]}]}.
Definition on_new_device (d : string) : ActivateLicenseRequest :=
  {| al_license_key := " ab12-cd34-ef56-gh78 "; al_device_id := d; al_user_id := "ann"; al_platform := None |}.
Definition off_device (d : string) : DeactivateLicenseRequest :=
  {| dl_license_key := demo_key; dl_device_id := d; dl_user_id := "ann" |}.
Definition activated (d : string) (s : store) : store * Result ActivateLicenseResponse :=
  activate_license "" (demo_g_env 500) (user_auth "ann") (on_new_device d) s.
Definition current_license (s : store) : Value :=
  default VNull (row_to_doc demo_key <$> table_rows s "licenses" !! demo_key).
Definition devices (s : store) : list string := omap device_of (activations_of (current_license s)).
Definition write_plan (plan : Result activation_plan) (s : store) : store :=
  match plan with
  | Ok (Reverify _ acts | Add acts) => (update_document "licenses" demo_key (activations_doc acts "now") 1 s).1
  | _ => s
  end.

(** Two devices that are activated at the same time are both approved for a
    licence for one: the second write drops the first device. *)
Example racing_activations :
  let s := license_store 1 in
  let plan d := plan_activation "now" "ann" d None (current_license s) in
  is_ok (plan "d1") = true ∧ is_ok (plan "d2") = true ∧ devices (write_plan (plan "d2") (write_plan (plan "d1") s)) = ["d2"].
Proof. by vm_compute. Qed.
(** A verification that was under way when a device was taken off puts it back. *)
Example verification_restores_device :
  let s := (activated "d1" (license_store 2)).1 in
  let stale := verify_all "d1" "now" (activations_of (current_license s)) in
  let s' := (deactivate_license "" (demo_g_env 501) (user_auth "ann") (off_device "d1") s).1 in
  devices s' = [] ∧ devices (update_document "licenses" demo_key (activations_doc stale "now") 502 s').1 = ["d1"].
Proof. by vm_compute. Qed.
(** An activation trims the id of the device and a deactivation does not: the id
    that was activated is reported as deactivated, and stays. *)
Example untrimmed_device_stays :
  let s := (activated " d1" (license_store 2)).1 in
  (deactivate_license "" (demo_g_env 501) (user_auth "ann") (off_device " d1") s).2
  = Ok {| dlr_deactivated := true; dlr_remaining_activations := 1 |}.
Proof. by vm_compute. Qed.

Definition no_injection (table t : string) (s : store) : string * Result (option Value) := (table, Ok None).
Definition one_device : list (digital_env * AuthContext * digital_call) :=
  [(demo_g_env 500, user_auth "ann", Activate (on_new_device "d1")); (demo_g_env 501, user_auth "ann", Activate (on_new_device "d2"))].
Lemma license_store_wf : licenses_wf (table_rows (license_store 1) "licenses").
Proof.
  assert (table_rows (license_store 1) "licenses" = {[demo_key := license_row 1]}) as -> by evaluates.
  apply map_Forall_singleton. split; [done|]. split; [by vm_compute|]. cbn. constructor.
Qed.
Lemma devices_bounded_witness :
  licenses_wf (table_rows (run_digital "" map_to_list no_injection one_device (license_store 1)) "licenses").
Proof. exact (devices_bounded "" map_to_list no_injection one_device (license_store 1) license_store_wf). Defined.

Lemma license_calls_refine_witness :
  ∃ row', table_rows (call_digital "" map_to_list no_injection (demo_g_env 500) (user_auth "ann") (Activate (on_new_device "d1"))
                        (license_store 1)).1 "licenses" !! demo_key = Some row'
    ∧ get "status" (row_data row') = Some (VString "active").
Proof.
  destruct (license_calls_refine "" map_to_list no_injection (demo_g_env 500) (user_auth "ann") (Activate (on_new_device "d1"))
    (license_store 1) demo_key (license_fields 1) eq_refl) as (row' & H1 & H2 & _).
  exists row'. split; [exact H1|]. rewrite H2; [reflexivity|concrete].
Defined.

Definition ask_book : DownloadRequest := {| dn_product_id := "p1"; dn_user_id := "ann"; dn_license_key := Some demo_key |}.
Definition downloaded : store := (download "" Book (demo_g_env 500) (user_auth "ann") ask_book (license_store 1)).1.
Definition demo_token : string := token_of (demo_g_env 500).
Lemma download_roundtrip_witness :
  ∃ t, redirect_path Book +:+ demo_token = redirect_path Book +:+ t
    ∧ ∃ s2, redirect map_to_list no_injection Book (demo_g_env 600) t downloaded = (s2, Ok "https://files/b.epub").
Proof.
  destruct (download_roundtrip "" map_to_list no_injection demo_g_scan (HexLaws0 := demo_hex_laws) demo_trim demo_printed
    Book (demo_g_env 500) (user_auth "ann") ask_book (license_store 1) downloaded {| dnr_download_url := redirect_path Book +:+ demo_token |}
    (license_row 1) "https://files/b.epub") as (_ & _ & _ & t & H1 & H2);
    [evaluates|apply map_Forall_empty|by vm_compute|by apply Nat.leb_le; vm_compute|evaluates|by vm_compute|].
  exists t. split; [exact H1|]. exact (H2 (demo_g_env 600)).
Defined.

Definition token_row1 : DocRow := default (license_row 0) (table_rows downloaded "book_access_tokens" !! "d1").
Lemma token_row_demo : token_row demo_token (table_rows downloaded (token_table Book)) "d1" token_row1.
Proof.
  assert (table_rows downloaded (token_table Book) = {["d1" := token_row1]}) as -> by evaluates.
  split; [apply lookup_insert_eq|]. split; [by vm_compute|].
  intros id' row' Hl _. by apply lookup_singleton_Some in Hl as [<- _].
Qed.
Lemma download_token_once_witness :
  redirect map_to_list no_injection Book (demo_g_env 700) demo_token
    (run_digital "" map_to_list no_injection [] (redirect map_to_list no_injection Book (demo_g_env 600) demo_token downloaded).1)
  ≠ (downloaded, Ok "https://files/b.epub").
Proof.
  apply (download_token_once "" map_to_list no_injection demo_g_scan Book (demo_g_env 600) demo_token demo_token "https://files/b.epub" []
    downloaded _ "d1" token_row1);
    [evaluates|evaluates|exact token_row_demo|by vm_compute|by apply Forall_nil].
Defined.
End digital_witnesses.
