(* ===== verification/Ratings.v ===== *)
(** * Ratings and reviews

    crates/ob-handlers/src/products/ratings.rs: a buyer rates a product of an order
    that was delivered, others vote on the review, and the seller answers it.  The
    rating of a product and the votes of a review are counted beside the documents
    they summarise. *)

From S2P Require Export Digital.

(** ** Requests *)

Record SubmitRatingRequest : Type := {
  sr_product_id : string; sr_user_id : string; sr_order_id : string; sr_rating : f64;
  sr_review_text : option string; sr_review_image_urls : list string }.
Record SubmitRatingAtomicRequest : Type := {
  sa_product_id : string; sa_user_id : string; sa_order_id : string; sa_rating : f64;
  sa_review_text : option string; sa_images : list string }.
Record SubmitRatingResponse : Type := { sr_success : bool; sr_new_rating : f64; sr_rating_count : Z }.
Record GetRatingsRequest : Type := {
  gr_product_id : string; gr_limit : N; gr_start_after : option string; gr_min_rating : option f64 }.
Record GetRatingsResponse : Type := {
  gr_ratings : list Value; gr_next_cursor : option string; gr_has_more : bool; gr_total_fetched : nat }.
Inductive VoteType : Type := Helpful | Unhelpful | NoVote.
Record ReviewVoteRequest : Type := { rv_review_id : string; rv_vote : VoteType }.
Record AnswerReviewRequest : Type := { ar_review_id : string; ar_response_text : string }.

Definition MAX_RATINGS_PAGE : N := 50.
Definition MAX_REVIEW_LENGTH : nat := 1000.

Record rating_env : Type := {
  te_test_mode : bool;
  te_secs : Z; te_limit_id : string; te_limit_now : Z;   (** the limiter's *)
  te_now : nat → Z;                                      (** [Utc::now()], at each reading *)
  te_doc_id : string;                                    (** the id of a new document *)
  te_clock : nat → Z;                                    (** the database's clock at each write *)
}.

Definition f64_add (a b : f64) : f64 := SFadd f64_prec f64_emax a b.
(** [(1.0..=5.0).contains(&x)]. *)
Definition in_stars (x : f64) : bool := f64_leb (f64_of_Z 1) x && f64_leb x (f64_of_Z 5).
(** [json!(x)] of a float. *)
Definition json_f64 (x : f64) : Value := match number_from_f64 x with Some n => VNumber n | None => VNull end.
(** [text[..n]], which panics within a character. *)
Definition slice_to (n : nat) (text : string) : Result string :=
  match String.get n text with
  | Some c => if is_continuation c then Panic else Ok (String.substring 0 n text)
  | None => if String.length text =? n then Ok text else Panic
  end.

Section ratings.
Context `{C : Chrono} `{P : PgJson} `{T : TextLib}.
Context (pg_invalid_bigint : string).
Context (scan : rows → list (string * DocRow)).
(** Two values are quoted with [escape_sql_string].  Where one of them holds a
    blank or closes its literal: the table that is created first and the first row
    of the statement that results, if it succeeds. *)
Context (injected_row : string → string → string → store → string * option Value).

Definition rating_limit (e : rating_env) (user_id action : string) (max : nat) : handler unit :=
  check_user_rate_limit pg_invalid_bigint (te_test_mode e) user_id action max 60 (te_secs e) (te_limit_id e) (te_limit_now e).
Definition stamp (e : rating_env) (k : nat) : string := to_rfc3339 (te_now e k).

(** [SELECT * FROM table WHERE data->>'k' = 'x' AND data->>'userId' = 'u' LIMIT 1],
    its error ignored. *)
Definition of_user (k x user_id : string) (row : DocRow) : bool :=
  bool_decide (field_text k (row_data row) = Some x) && bool_decide (field_text "userId" (row_data row) = Some user_id).
Definition find_of_user (table k x user_id : string) : handler (option Value) :=
  match one_word x, one_word user_id with
  | Some x, Some user_id => select_first scan table (λ _, of_user k x user_id)
  | _, _ => λ s, let '(table, r) := injected_row table x user_id s in ((ensure_table table s).1, Ok r)
  end.

(** ** To rate *)

Definition sanitized_review (text : option string) : Result string :=
  let review_text := default "" text in
  if str_empty review_text then Ok ""
  else
    let sanitized := sanitize_html review_text in
    if MAX_REVIEW_LENGTH <? String.length sanitized then slice_to MAX_REVIEW_LENGTH sanitized else Ok sanitized.
Definition item_of (product_id : string) (item : Value) : bool :=
  bool_decide (get "productId" item ≫= as_str = Some product_id).
Definition rating_checks (user_id product_id : string) (order : Value) : Result unit :=
  let status := str_field order "status" in
  if negb (str_field order "buyerId" =s? user_id) then Err (Forbidden "Order ownership mismatch")
  else if negb (status =s? "delivered") && negb (status =s? "disputed") then Err (Validation "Order not in ratable state")
  else match list_find (λ item, item_of product_id item = true) (items_array order) with
       | None => Err (Validation "Product not in this order")
       | Some (_, item) =>
           if bool_decide (get "sellerId" item ≫= as_str = Some user_id)
           then Err (Forbidden "Sellers cannot rate their own products") else Ok tt
       end.
Definition read_or_missing (collection id : string) (missing : Error) : handler Value :=
  doc ← db_map_err (λ _, missing) (get_document collection id);
  pure (if is_null doc then Err missing else Ok doc).
Definition rating_doc (e : rating_env) (user_id review : string) (req : SubmitRatingRequest) : Value :=
  VObject [("createdAt", VString (stamp e 0)); ("helpfulCount", of_i64 0); ("orderId", VString (sr_order_id req));
           ("productId", VString (sr_product_id req)); ("rating", json_f64 (sr_rating req));
           ("reviewImageUrls", VArray (VString <$> sr_review_image_urls req)); ("reviewText", VString review);
           ("userId", VString user_id); ("verifiedPurchase", VBool true)].
Definition new_average (avg : f64) (count : Z) (rating : f64) : f64 :=
  f64_div (f64_add (f64_mul avg (f64_of_Z count)) rating) (f64_of_Z (i64_add count 1)).

Definition submit_rating (e : rating_env) (auth : AuthContext) (req : SubmitRatingRequest) : handler SubmitRatingResponse :=
  _ ← pure (validate_uid "productId" (sr_product_id req));
  _ ← pure (validate_uid "orderId" (sr_order_id req));
  user_id ← pure (resolve_self_user_id auth (Some (sr_user_id req)) "userId");
  _ ← rating_limit e user_id "submit_rating" 5;
  _ ← pure (if negb (in_stars (sr_rating req)) then Err (Validation "Rating must be between 1 and 5") else Ok tt);
  review ← pure (sanitized_review (sr_review_text req));
  order ← read_or_missing "orders" (sr_order_id req) (NotFound "Order not found");
  _ ← pure (rating_checks user_id (sr_product_id req) order);
  existing ← find_of_user "product_ratings" "productId" (sr_product_id req) user_id;
  _ ← pure (match existing with Some _ => Err (Validation "You have already rated this product") | None => Ok tt end);
  product ← read_or_missing "products" (sr_product_id req) (NotFound "Product not found");
  let curr_avg := default (f64_of_Z 0) (get "avgRating" product ≫= as_f64) in
  let curr_count := cents product "totalReviews" in
  let new_count := i64_add curr_count 1 in
  let new_avg := new_average curr_avg curr_count (sr_rating req) in
  _ ← db_map_err (λ err, Database ("Failed to create rating: " +:+ error_to_string err))
        (create_document "product_ratings" (rating_doc e user_id review req) (te_doc_id e) (te_clock e 0));
  _ ← db_map_err (λ err, Database ("Failed to update product rating: " +:+ error_to_string err))
        (update_document "products" (sr_product_id req)
           (VObject [("avgRating", json_f64 new_avg); ("totalReviews", of_i64 new_count); ("updatedAt", VString (stamp e 0))])
           (te_clock e 1));
  pure (Ok {| sr_success := true; sr_new_rating := new_avg; sr_rating_count := new_count |}).
Definition submit_rating_atomic (e : rating_env) (auth : AuthContext) (req : SubmitRatingAtomicRequest) : handler SubmitRatingResponse :=
  submit_rating e auth
    {| sr_product_id := sa_product_id req; sr_user_id := sa_user_id req; sr_order_id := sa_order_id req;
       sr_rating := sa_rating req; sr_review_text := sa_review_text req; sr_review_image_urls := sa_images req |}.

(** ** To vote *)

Definition vote_str (vote : VoteType) : string :=
  match vote with Helpful => "helpful" | Unhelpful => "unhelpful" | NoVote => "none" end.
Definition vote_change (old_vote new_vote : string) : Z * Z :=
  if (old_vote =s? "helpful") && (new_vote =s? "unhelpful") then (-1, 1)%Z
  else if (old_vote =s? "unhelpful") && (new_vote =s? "helpful") then (1, -1)%Z
  else if (old_vote =s? "none") && (new_vote =s? "helpful") then (1, 0)%Z
  else if (old_vote =s? "none") && (new_vote =s? "unhelpful") then (0, 1)%Z
  else if (old_vote =s? "helpful") && (new_vote =s? "none") then (-1, 0)%Z
  else if (old_vote =s? "unhelpful") && (new_vote =s? "none") then (0, -1)%Z
  else (0, 0)%Z.
Definition first_vote (new_vote : string) : Z * Z :=
  if new_vote =s? "helpful" then (1, 0)%Z else if new_vote =s? "unhelpful" then (0, 1)%Z else (0, 0)%Z.
(** The counts of the review, read and written. *)
Definition adjust_counts (e : rating_env) (review_id now : string) (adj : Z * Z) : handler unit :=
  if negb (adj.1 =? 0)%Z || negb (adj.2 =? 0)%Z then
    review ← attempt (get_document "product_ratings" review_id);
    let review := default VNull review in
    _ ← db (update_document "product_ratings" review_id
          (VObject [("helpfulVotes", of_i64 (i64_add (cents review "helpfulVotes") adj.1));
                    ("unhelpfulVotes", of_i64 (i64_add (cents review "unhelpfulVotes") adj.2)); ("updatedAt", VString now)])
          (te_clock e 1));
    pure (Ok tt)
  else pure (Ok tt).
Definition require_login (auth : AuthContext) : Result unit :=
  if negb (authenticated auth) || str_empty (auth_user_id auth) then Err (Auth "Authentication required") else Ok tt.
Definition change_vote (e : rating_env) (review_id vote : string) (record : Value) : handler string :=
  let old_vote := str_field record "vote" in
  if old_vote =s? vote then pure (Ok "Vote already recorded")
  else
    _ ← db (update_document "review_votes" (str_field record "id")
          (VObject [("updatedAt", VString (stamp e 0)); ("vote", VString vote)]) (te_clock e 0));
    _ ← adjust_counts e review_id (stamp e 1) (vote_change old_vote vote);
    pure (Ok "Vote recorded").
Definition cast_vote (e : rating_env) (user_id review_id vote : string) : handler string :=
  _ ← db (create_document "review_votes"
        (VObject [("createdAt", VString (stamp e 0)); ("reviewId", VString review_id); ("updatedAt", VString (stamp e 0));
                  ("userId", VString user_id); ("vote", VString vote)]) (te_doc_id e) (te_clock e 0));
  _ ← adjust_counts e review_id (stamp e 0) (first_vote vote);
  pure (Ok "Vote recorded").
(** The message of the answer. *)
Definition review_vote (e : rating_env) (auth : AuthContext) (req : ReviewVoteRequest) : handler string :=
  _ ← pure (require_login auth);
  let user_id := auth_user_id auth in
  _ ← pure (validate_uid "reviewId" (rv_review_id req));
  _ ← rating_limit e user_id "review_vote" 20;
  existing ← find_of_user "review_votes" "reviewId" (rv_review_id req) user_id;
  match existing with
  | Some record => change_vote e (rv_review_id req) (vote_str (rv_vote req)) record
  | None => cast_vote e user_id (rv_review_id req) (vote_str (rv_vote req))
  end.

(** ** To answer *)

Definition answer_review (e : rating_env) (auth : AuthContext) (req : AnswerReviewRequest) : handler unit :=
  _ ← pure (require_login auth);
  let seller_id := auth_user_id auth in
  _ ← pure (validate_uid "reviewId" (ar_review_id req));
  _ ← pure (validate_uid "sellerId" seller_id);
  _ ← rating_limit e seller_id "answer_review" 20;
  let response_text := sanitize_html (ar_response_text req) in
  _ ← pure (if str_empty (trim response_text) then Err (Validation "responseText is required") else Ok tt);
  review ← db (get_document "product_ratings" (ar_review_id req));
  product_id ← pure (ok_or (Validation "Review missing productId") (get "productId" review ≫= as_str));
  product ← db (get_document "products" product_id);
  _ ← pure (if negb (str_field product "sellerId" =s? seller_id) && negb (has_role "admin" auth)
            then Err (Forbidden "Only the product seller can answer reviews") else Ok tt);
  _ ← db (update_document "product_ratings" (ar_review_id req)
        (VObject [("sellerRespondedAt", VString (stamp e 0)); ("sellerResponse", VString response_text);
                  ("updatedAt", VString (stamp e 0))]) (te_clock e 0));
  pure (Ok tt).

End ratings.

(** ** To list *)
Section listing.
Context `{C : Chrono} `{P : PgJson}.

(** The rows in the order of [data->>'createdAt' DESC], the text of a float, and the
    error of a cast that fails, if the statement meets one. *)
Context (latest : rows → list (string * DocRow)).
Context (pg_float8 : string → option f64).
Context (cast_error : f64 → rows → option string).
Definition listed (product_id : string) (min : option f64) (row : DocRow) : bool :=
  bool_decide (field_text "productId" (row_data row) = Some product_id)
  && match min with
     | None => true
     | Some min => match field_text "rating" (row_data row) ≫= pg_float8 with Some x => f64_leb min x | None => false end
     end.
Definition fetch_ratings (product_id : string) (min : option f64) (n : nat) : handler (list Value) := λ s,
  let s := (ensure_table "product_ratings" s).1 in
  (s, match min ≫= λ m, cast_error m (table_rows s "product_ratings") with
      | Some err => Err (Database ("Failed to fetch ratings: " +:+ error_to_string (Database ("Query failed: " +:+ err))))
      | None => Ok (take n ((λ kr : string * DocRow, row_to_doc kr.1 kr.2)
                              <$> filter (λ kr, listed product_id min kr.2 = true) (latest (table_rows s "product_ratings"))))
      end).
(** Where the product's id closes its literal. *)
Context (injected_ratings : string → option f64 → nat → store → string * Result (list Value)).
Definition get_ratings (req : GetRatingsRequest) : handler GetRatingsResponse :=
  _ ← pure (validate_uid "productId" (gr_product_id req));
  let limit := N.to_nat (N.min (gr_limit req) MAX_RATINGS_PAGE) in
  _ ← pure (if match gr_min_rating req with Some min => negb (in_stars min) | None => false end
            then Err (Validation "minRating must be between 1 and 5") else Ok tt);
  rows ← match one_word (gr_product_id req) with
         | Some product_id => fetch_ratings product_id (gr_min_rating req) (limit + 1)
         | None => λ s, let '(table, r) := injected_ratings (gr_product_id req) (gr_min_rating req) (limit + 1) s in
                        ((ensure_table table s).1, r)
         end;
  let has_more := limit <? length rows in
  let ratings := take limit rows in
  pure (Ok {| gr_ratings := ratings;
              gr_next_cursor := if has_more then (last ratings ≫= get "id") ≫= as_str else None;
              gr_has_more := has_more; gr_total_fetched := length ratings |}).
End listing.

Section rating_facts.
Context `{C : Chrono} `{P : PgJson} `{T : TextLib}.
Context (pg_invalid_bigint : string).
Context (scan : rows → list (string * DocRow)).
Context (injected_row : string → string → string → store → string * option Value).
Local Abbreviation rating_limit := (rating_limit pg_invalid_bigint).
Local Abbreviation find_of_user := (find_of_user scan injected_row).
Local Abbreviation submit_rating := (submit_rating pg_invalid_bigint scan injected_row).
Local Abbreviation review_vote := (review_vote pg_invalid_bigint scan injected_row).
Local Abbreviation answer_review := (answer_review pg_invalid_bigint).

(** ** Counting rows *)

Definition tally (p : DocRow → bool) (rs : rows) : Z := Z.of_nat (size (filter (λ kr : string * DocRow, p kr.2 = true) rs)).
Lemma tally_insert p rs k row : tally p (<[k := row]> rs) = (tally p (delete k rs) + Z.b2z (p row))%Z.
Proof.
  unfold tally. destruct (p row) eqn:E; cbn [Z.b2z].
  - rewrite <- insert_delete_eq. rewrite map_filter_insert_True by done. rewrite map_size_insert_None; [lia|]. apply map_lookup_filter_None. left. apply lookup_delete_eq.
  - rewrite map_filter_insert_False by (cbn; congruence). lia.
Qed.
Lemma tally_delete p rs k row : rs !! k = Some row → tally p (delete k rs) = (tally p rs - Z.b2z (p row))%Z.
Proof. intros Hk. rewrite <- (insert_id rs k row Hk) at 2. rewrite tally_insert. lia. Qed.
Lemma tally_replace p rs k row row' :
  rs !! k = Some row → tally p (<[k := row']> rs) = (tally p rs + Z.b2z (p row') - Z.b2z (p row))%Z.
Proof. intros Hk. rewrite tally_insert, (tally_delete _ _ _ row Hk). lia. Qed.
Lemma tally_new p rs k row : rs !! k = None → tally p (<[k := row]> rs) = (tally p rs + Z.b2z (p row))%Z.
Proof. intros Hk. by rewrite tally_insert, delete_id. Qed.
Lemma tally_same p rs k row row' : rs !! k = Some row → p row' = p row → tally p (<[k := row']> rs) = tally p rs.
Proof. intros Hk Hp. rewrite (tally_replace _ _ _ row) by done. rewrite Hp. lia. Qed.

(** ** The votes add up *)

Abbreviation reviews_of s := (table_rows s "product_ratings").
Abbreviation votes_of s := (table_rows s "review_votes").
(** The vote is one for the review [id]. *)
Definition vote_on (id vote : string) (row : DocRow) : bool :=
  bool_decide (bare_id "product_ratings" <$> field_text "reviewId" (row_data row) = Some id)
  && (str_field (row_data row) "vote" =s? vote).
Definition votes_wf (votes : rows) : Prop :=
  map_Forall (λ key row, bare_id "review_votes" key = key
    ∧ str_field (row_data row) "vote" ∈ ["helpful"; "unhelpful"; "none"]) votes.
(** The counts of a review are those of its votes, at the width of an [i64]. *)
Definition votes_counted (votes reviews : rows) : Prop :=
  map_Forall (λ id row, is_object (row_data row) = true
    ∧ cents (row_data row) "helpfulVotes" = wrap_signed 64 (tally (vote_on id "helpful") votes)
    ∧ cents (row_data row) "unhelpfulVotes" = wrap_signed 64 (tally (vote_on id "unhelpful") votes)) reviews.

(** What a change of the counts does to the reviews. *)
Definition adjusted (review_id : string) (adj : Z * Z) (reviews reviews' : rows) : Prop :=
  adj = (0, 0)%Z ∧ reviews' = reviews
  ∨ reviews !! bare_id "product_ratings" review_id = None ∧ reviews' = reviews
  ∨ ∃ row now clock, reviews !! bare_id "product_ratings" review_id = Some row
    ∧ reviews' = <[bare_id "product_ratings" review_id :=
        merged_row (VObject [("helpfulVotes", of_i64 (i64_add (cents (row_data row) "helpfulVotes") adj.1));
                             ("unhelpfulVotes", of_i64 (i64_add (cents (row_data row) "unhelpfulVotes") adj.2));
                             ("updatedAt", VString now)]) clock row]> reviews.

Lemma adjust_effect e review_id now adj s :
  adjusted review_id adj (reviews_of s) (reviews_of (adjust_counts e review_id now adj s).1).
Proof.
  unfold adjust_counts. destruct (negb _ || negb _) eqn:E.
  - right. destruct (reviews_of s !! bare_id "product_ratings" review_id) as [row|] eqn:Hrow.
    + right. exists row, now, (te_clock e 1). split; [done|].
      assert (attempt (get_document "product_ratings" review_id) s
              = (ensured "product_ratings" s, Ok (Some (row_to_doc (bare_id "product_ratings" review_id) row)))) as Hget.
      { unfold attempt, get_document. rewrite with_table_valid by done. cbv beta zeta. by rewrite table_rows_ensured, Hrow. }
      rewrite (bind_run _ _ _ _ _ Hget). cbv zeta. cbn [default from_option id]. rewrite before_keeps by done. unfold db.
      rewrite update_rows, table_rows_ensured, Hrow. cbn [is_ok validate_identifier]. unfold cents, i64_field. by rewrite !get_row_to_doc by concrete.
    + left. split; [done|]. rewrite <- (keeps_attempt "product_ratings" _ (keeps_get _ "product_ratings" review_id) s) in Hrow |- *.
      unfold mbind at 1, handler_bind at 1. destruct (attempt _ s) as [s1 [r|err|]]; [|done..]. cbn [fst] in *. cbv zeta.
      rewrite before_keeps by done. unfold db. by rewrite update_rows, Hrow.
  - left. apply orb_false_iff in E as [E1 E2]. destruct adj as [a b]. cbn [fst snd] in *. bools.
    apply Z.eqb_eq in E1, E2. by subst.
Qed.

Lemma wrap_add a b : i64_add (wrap_signed 64 a) b = wrap_signed 64 (a + b).
Proof.
  unfold i64_add. destruct (wrap_congruent a) as [k ->]. unfold wrap_signed.
  replace (a + k * 2 ^ 64 + b + 2 ^ (64 - 1))%Z with (a + b + 2 ^ (64 - 1) + k * 2 ^ 64)%Z by lia. by rewrite Z_mod_plus_full.
Qed.
Lemma cents_wrapped z : default 0%Z (as_i64 (of_i64 (wrap_signed 64 z))) = wrap_signed 64 z.
Proof. apply read_back. pose proof (wrap_signed_range 64 z ltac:(lia)). unfold i64_max. lia. Qed.

(** The counts stay exact when they change by what the votes changed by. *)
Lemma counted_adjusted review_id adj votes votes' reviews reviews' :
  votes_counted votes reviews → adjusted review_id adj reviews reviews' →
  (∀ id, let mine := bool_decide (bare_id "product_ratings" review_id = id) in
     tally (vote_on id "helpful") votes' = (tally (vote_on id "helpful") votes + if mine then adj.1 else 0)%Z
     ∧ tally (vote_on id "unhelpful") votes' = (tally (vote_on id "unhelpful") votes + if mine then adj.2 else 0)%Z) →
  votes_counted votes' reviews'.
Proof.
  intros Hc Hadj Ht. assert (∀ id row, reviews !! id = Some row → bare_id "product_ratings" review_id ≠ id ∨ adj = (0, 0)%Z →
    is_object (row_data row) = true ∧ cents (row_data row) "helpfulVotes" = wrap_signed 64 (tally (vote_on id "helpful") votes')
    ∧ cents (row_data row) "unhelpfulVotes" = wrap_signed 64 (tally (vote_on id "unhelpful") votes')) as Hsame.
  { intros id row Hrow Hne. destruct (Ht id) as [-> ->]. destruct (Hc id row Hrow) as (Ho & H1 & H2).
    assert ((if bool_decide (bare_id "product_ratings" review_id = id) then adj.1 else 0%Z) = 0%Z
            ∧ (if bool_decide (bare_id "product_ratings" review_id = id) then adj.2 else 0%Z) = 0%Z) as [-> ->]
      by (case_bool_decide; destruct Hne as [? | ->]; done).
    by rewrite !Z.add_0_r. }
  destruct Hadj as [[-> ->]|[[Hnone ->]|(row & now & clock & Hrow & ->)]]; intros id row'.
  - intros Hl. apply Hsame; [done|by right].
  - intros Hl. apply Hsame; [done|]. left. intros <-. congruence.
  - intros [[<- <-]|[Hne Hl]]%lookup_insert_Some; [|by apply Hsame; [|left]].
    destruct (Hc _ _ Hrow) as (Ho & H1 & H2). destruct (row_data row) as [| | | | |m] eqn:Hm; try done. rewrite <- Hm in *.
    split; [cbn; by rewrite Hm|]. rewrite !(cents_merged _ _ _ m) by (done || concrete). cbn [assoc_get str_eqb].
    specialize (Ht (bare_id "product_ratings" review_id)). cbv zeta in Ht. rewrite bool_decide_true in Ht by done. destruct Ht as [-> ->].
    rewrite H1, H2, !wrap_add. split; apply cents_wrapped.
Qed.

(** A vote that is cast, or changed. *)
Lemma counted_cast votes key row review_id vote id k :
  votes !! key = None → field_text "reviewId" (row_data row) = Some review_id → str_field (row_data row) "vote" = vote_str vote →
  tally (vote_on id k) (<[key := row]> votes)
  = (tally (vote_on id k) votes + if bool_decide (bare_id "product_ratings" review_id = id) then Z.b2z (vote_str vote =s? k) else 0)%Z.
Proof.
  intros Hn Hr Hv. rewrite tally_new by done. f_equal. unfold vote_on. rewrite Hr, Hv. cbn [fmap option_fmap option_map].
  rewrite (bool_decide_ext (Some (bare_id "product_ratings" review_id) = Some id) (bare_id "product_ratings" review_id = id)) by naive_solver.
  by case_bool_decide.
Qed.
Lemma counted_change votes key row row' review_id vote id k :
  votes !! key = Some row → field_text "reviewId" (row_data row) = Some review_id →
  field_text "reviewId" (row_data row') = Some review_id → str_field (row_data row') "vote" = vote_str vote →
  tally (vote_on id k) (<[key := row']> votes)
  = (tally (vote_on id k) votes + if bool_decide (bare_id "product_ratings" review_id = id)
       then Z.b2z (vote_str vote =s? k) - Z.b2z (str_field (row_data row) "vote" =s? k) else 0)%Z.
Proof.
  intros Hk Hr Hr' Hv. rewrite (tally_replace _ _ _ row) by done. unfold vote_on. rewrite Hr, Hr', Hv. cbn [fmap option_fmap option_map].
  rewrite !(bool_decide_ext (Some (bare_id "product_ratings" review_id) = Some id) (bare_id "product_ratings" review_id = id)) by naive_solver.
  case_bool_decide; cbn [andb Z.b2z]; lia.
Qed.

Lemma first_vote_counts vote : first_vote (vote_str vote) = (Z.b2z (vote_str vote =s? "helpful"), Z.b2z (vote_str vote =s? "unhelpful")).
Proof. by destruct vote. Qed.
Lemma vote_change_counts old vote :
  old ∈ ["helpful"; "unhelpful"; "none"] → old ≠ vote_str vote →
  vote_change old (vote_str vote) = (Z.b2z (vote_str vote =s? "helpful") - Z.b2z (old =s? "helpful"),
                                     Z.b2z (vote_str vote =s? "unhelpful") - Z.b2z (old =s? "unhelpful"))%Z.
Proof. intros Hold Hne. rewrite !elem_of_cons in Hold. destruct Hold as [->|[->|[->|Hn]]]; [| | |by apply elem_of_nil in Hn]; by destruct vote. Qed.

Context (scan_rows : ∀ rs, scan rs ≡ₚ map_to_list rs).

(** What a vote does to the votes and the reviews. *)
Definition vote_effect (fresh review_id : string) (vote : VoteType) (votes reviews votes' reviews' : rows) : Prop :=
  (votes' = votes ∧ reviews' = reviews)
  ∨ (∃ row, votes !! fresh = None ∧ field_text "reviewId" (row_data row) = Some review_id
      ∧ str_field (row_data row) "vote" = vote_str vote
      ∧ votes' = <[fresh := row]> votes ∧ adjusted review_id (first_vote (vote_str vote)) reviews reviews')
  ∨ (∃ key row row', votes !! key = Some row ∧ field_text "reviewId" (row_data row) = Some review_id
      ∧ field_text "reviewId" (row_data row') = Some review_id ∧ str_field (row_data row') "vote" = vote_str vote
      ∧ str_field (row_data row) "vote" ≠ vote_str vote
      ∧ votes' = <[key := row']> votes
      ∧ adjusted review_id (vote_change (str_field (row_data row) "vote") (vote_str vote)) reviews reviews').

Lemma field_text_object k x v : field_text k v = Some x → ∃ m, v = VObject m.
Proof. unfold field_text. destruct v as [| | | | |m]; [done..|]. by exists m. Qed.
Lemma keeps_rating_limit c e u action max : c ≠ "rate_limits" → keeps c (rating_limit e u action max).
Proof. intros. by apply keeps_rate_limit. Qed.
Lemma keeps_find c table k x u : keeps c (find_of_user table k x u).
Proof.
  unfold find_of_user. repeat case_match; try apply keeps_select_first;
    intros st; destruct (injected_row table x u st); apply keeps_ensure_first.
Qed.
Lemma keeps_adjust c e review_id now adj : "product_ratings" ≠ c → keeps c (adjust_counts e review_id now adj).
Proof.
  intros Hc. unfold adjust_counts. case_match; [|done]. apply keeps_bind; [apply keeps_attempt, keeps_get|intros ?].
  apply keeps_bind; [by apply keeps_update|intros ?; apply keeps_pure].
Qed.

(** Creating and updating a document: refused or done, and nothing else changes. *)
Lemma create_cases c data fresh now s :
  is_ok (validate_identifier c) = true →
  (∃ err, create_document c data fresh now s = (ensured c s, Err err) ∧ is_Some (table_rows s c !! document_id data fresh))
  ∨ ∃ s' doc, create_document c data fresh now s = (s', Ok doc) ∧ table_rows s c !! document_id data fresh = None
    ∧ table_rows s' c = <[document_id data fresh := {| row_data := data; row_created_at := now; row_updated_at := now |}]> (table_rows s c)
    ∧ ∀ c', c' ≠ c → table_rows s' c' = table_rows s c'.
Proof.
  intros Hv. unfold create_document. rewrite with_table_valid by done. cbv beta zeta. rewrite table_rows_ensured.
  destruct (table_rows s c !! document_id data fresh) as [row|]; [left; eexists; split; [reflexivity|by eexists]|].
  right. do 2 eexists. split; [reflexivity|]. split; [done|]. split; [by rewrite table_rows_insert|].
  intros c' Hc. rewrite table_rows_insert_ne by done. apply table_rows_ensured.
Qed.
Lemma update_cases c id data now s :
  is_ok (validate_identifier c) = true →
  (∃ err, update_document c id data now s = (ensured c s, Err err) ∧ table_rows s c !! bare_id c id = None)
  ∨ ∃ s' doc row, update_document c id data now s = (s', Ok doc) ∧ table_rows s c !! bare_id c id = Some row
    ∧ table_rows s' c = <[bare_id c id := merged_row data now row]> (table_rows s c)
    ∧ ∀ c', c' ≠ c → table_rows s' c' = table_rows s c'.
Proof.
  intros Hv. unfold update_document. rewrite with_table_valid by done. cbv beta zeta. rewrite table_rows_ensured.
  destruct (table_rows s c !! bare_id c id) as [row|]; [|left; eexists; by split].
  right. do 3 eexists. split; [reflexivity|]. split; [done|]. split; [by rewrite table_rows_insert|].
  intros c' Hc. rewrite table_rows_insert_ne by done. apply table_rows_ensured.
Qed.
Lemma bind_err {A B} (m : handler A) (k : A → handler B) st st1 err : m st = (st1, Err err) → (m ≫= k) st = (st1, Err err).
Proof. unfold mbind, handler_bind. by intros ->. Qed.

Lemma cast_vote_effect e u review_id vote s :
  vote_effect (te_doc_id e) review_id vote (votes_of s) (reviews_of s)
    (votes_of (cast_vote e u review_id (vote_str vote) s).1) (reviews_of (cast_vote e u review_id (vote_str vote) s).1).
Proof.
  unfold cast_vote, db. set (doc := VObject _).
  destruct (create_cases "review_votes" doc (te_doc_id e) (te_clock e 0) s eq_refl) as [(err & Hop & _)|(s1 & d & Hop & Hnone & Hv & Hr)].
  - rewrite (bind_err _ _ _ _ _ Hop). left. cbn [fst]. by rewrite !table_rows_ensured.
  - rewrite (bind_run _ _ _ _ _ Hop). right. left.
    exists {| row_data := doc; row_created_at := te_clock e 0; row_updated_at := te_clock e 0 |}. split; [exact Hnone|].
    rewrite !before_keeps by done. rewrite (keeps_adjust "review_votes") by done. split_and!; [reflexivity|reflexivity|exact Hv|].
    rewrite <- Hr by done. apply adjust_effect.
Qed.
Lemma change_vote_effect e fresh review_id vote key row s :
  votes_of s !! key = Some row → bare_id "review_votes" key = key → field_text "reviewId" (row_data row) = Some review_id →
  let r := change_vote e review_id (vote_str vote) (row_to_doc key row) s in
  vote_effect fresh review_id vote (votes_of s) (reviews_of s) (votes_of r.1) (reviews_of r.1).
Proof.
  intros Hrow Hkey Hrid. cbv zeta. destruct (field_text_object _ _ _ Hrid) as [m Hm]. unfold change_vote, db. cbv zeta.
  rewrite str_field_doc by concrete. destruct (_ =s? _) eqn:E; [by left|]. bools.
  assert (str_field (row_to_doc key row) "id" = key) as ->.
  { unfold str_field. rewrite row_to_doc_id by (rewrite Hm; by eexists). done. }
  set (doc := VObject _). destruct (update_cases "review_votes" key doc (te_clock e 0) s eq_refl)
    as [(err & _ & Hnone)|(s1 & d & row0 & Hop & Hrow0 & Hv & Hr)]; [congruence|].
  rewrite Hkey in Hrow0, Hv. rewrite Hrow in Hrow0. injection Hrow0 as <-.
  rewrite (bind_run _ _ _ _ _ Hop). right. right. exists key, row, (merged_row doc (te_clock e 0) row). split; [done|]. split; [done|].
  rewrite !before_keeps by done. rewrite (keeps_adjust "review_votes") by done. split_and!; [| |done|exact Hv|].
  - unfold field_text, doc. rewrite (merged_row_get _ _ _ m) by (done || concrete). exact Hrid.
  - unfold str_field, doc. by rewrite (merged_row_get _ _ _ m) by (done || concrete).
  - rewrite <- Hr by done. apply adjust_effect.
Qed.

Lemma reads_rating_limit e u action max : reads (rating_limit e u action max).
Proof. intros c Hc. by apply keeps_rating_limit. Qed.
Lemma reads_find table k x u : reads (find_of_user table k x u).
Proof. intros c _. apply keeps_find. Qed.
Lemma reads_or_missing c id missing : reads (read_or_missing c id missing).
Proof. intros c' _. apply keeps_bind; [apply keeps_map_err, keeps_get|done]. Qed.
#[local] Hint Resolve reads_rating_limit reads_find reads_or_missing : ob.

Lemma review_vote_effect e auth req s s' r :
  review_vote e auth req s = (s', r) →
  one_word (rv_review_id req) = Some (rv_review_id req) → one_word (auth_user_id auth) = Some (auth_user_id auth) →
  votes_wf (votes_of s) →
  same_tables s s'
  ∨ vote_effect (te_doc_id e) (rv_review_id req) (rv_vote req) (votes_of s) (reviews_of s) (votes_of s') (reviews_of s')
    ∧ table_rows s' "products" = table_rows s "products".
Proof.
  intros H Hw1 Hw2 Hwf. assert (same_tables s s) as K by done. unfold review_vote in H. cbv zeta in H. do 3 reading K H.
  assert (votes_of s2 = votes_of s) as Hk by by apply K. reading K H.
  assert (∀ d, keeps "products" (change_vote e (rv_review_id req) (vote_str (rv_vote req)) d)
    ∧ keeps "products" (cast_vote e (auth_user_id auth) (rv_review_id req) (vote_str (rv_vote req)))) as Hkp.
  { intros d. unfold change_vote, cast_vote. cbv zeta. split; [destruct (_ =s? _); [apply keeps_pure|]|];
      (apply keeps_bind; [first [by apply keeps_update|by apply keeps_create]|intros ?]); (apply keeps_bind; [by apply keeps_adjust|done]). }
  right. apply (f_equal fst) in H. cbn [fst] in H. subst s'. rewrite <- (K "products"), <- (K "review_votes"), <- (K "product_ratings") by done.
  destruct a2 as [record|]; (split; [|first [by apply Hkp|by apply (Hkp VNull)]]); [|apply cast_vote_effect].
  unfold find_of_user in R2. rewrite Hw1, Hw2 in R2. apply (select_first_found _ scan_rows) in R2 as (key & row & Hrow & Hp & ->).
  rewrite Hk in Hrow. apply andb_true_iff in Hp as [Hp%bool_decide_eq_true _].
  apply change_vote_effect; [by rewrite K|by apply (Hwf key row)|done].
Qed.

Definition votes_ok (s : store) : Prop := votes_wf (votes_of s) ∧ votes_counted (votes_of s) (reviews_of s).

Lemma vote_effect_ok fresh review_id vote votes reviews votes' reviews' :
  bare_id "review_votes" fresh = fresh → vote_effect fresh review_id vote votes reviews votes' reviews' →
  votes_wf votes → votes_counted votes reviews → votes_wf votes' ∧ votes_counted votes' reviews'.
Proof.
  intros Hfresh He Hwf Hc. assert (vote_str vote ∈ ["helpful"; "unhelpful"; "none"]) as Hv by (destruct vote; set_solver).
  destruct He as [[-> ->]|[(row & Hn & Hr & Hvote & -> & Hadj)|(key & row & row' & Hk & Hr & Hr' & Hvote & Hne & -> & Hadj)]]; [done| |].
  - split; [apply map_Forall_insert_2; [by rewrite Hvote|done]|]. eapply counted_adjusted; [exact Hc|exact Hadj|].
    intros id mine. rewrite first_vote_counts. cbn [fst snd]. split; by rewrite (counted_cast _ _ _ review_id vote).
  - destruct (Hwf _ _ Hk) as [Hkey Hold].
    split; [apply map_Forall_insert_2; [by rewrite Hvote|done]|]. eapply counted_adjusted; [exact Hc|exact Hadj|].
    intros id mine. rewrite vote_change_counts by done. cbn [fst snd].
    split; by rewrite (counted_change _ _ row _ review_id vote).
Qed.

(** ** Answers and ratings *)

Definition answer_fields (e : rating_env) (req : AnswerReviewRequest) : list (string * Value) :=
  [("sellerRespondedAt", VString (stamp e 0)); ("sellerResponse", VString (sanitize_html (ar_response_text req)));
   ("updatedAt", VString (stamp e 0))].
(** An answer: by the seller of the product reviewed, or an administrator. *)
Definition answer_effect (e : rating_env) (auth : AuthContext) (req : AnswerReviewRequest) (s s' : store) : Prop :=
  let id := bare_id "product_ratings" (ar_review_id req) in
  ∃ row pid product, reviews_of s !! id = Some row ∧ get "productId" (row_data row) ≫= as_str = Some pid
    ∧ table_rows s "products" !! bare_id "products" pid = Some product
    ∧ (str_field (row_data product) "sellerId" = auth_user_id auth ∨ has_role "admin" auth = true)
    ∧ reviews_of s' = <[id := merged_row (VObject (answer_fields e req)) (te_clock e 0) row]> (reviews_of s)
    ∧ ∀ c, c ∉ ["rate_limits"; "product_ratings"] → table_rows s' c = table_rows s c.

Lemma get_found c id st st1 doc :
  is_ok (validate_identifier c) = true → get_document c id st = (st1, Ok doc) →
  ∃ row, table_rows st c !! bare_id c id = Some row ∧ doc = row_to_doc (bare_id c id) row.
Proof.
  intros Hv. unfold get_document. rewrite with_table_valid by done. cbv beta zeta. rewrite table_rows_ensured.
  destruct (table_rows st c !! bare_id c id) as [row|]; [|done]. intros [= _ <-]. by exists row.
Qed.
Lemma missing_found c id missing st st1 doc :
  is_ok (validate_identifier c) = true → read_or_missing c id missing st = (st1, Ok doc) →
  ∃ row, table_rows st c !! bare_id c id = Some row ∧ doc = row_to_doc (bare_id c id) row.
Proof.
  intros Hv R. unfold read_or_missing in R. run_inv R. apply pure_ok in R as [-> R]. cases_ok R. injection R as <-.
  by eapply get_found.
Qed.
Lemma reads_db_get c id : reads (db (get_document c id)).
Proof. intros c' _. apply keeps_get. Qed.
#[local] Hint Resolve reads_db_get : ob.

Lemma answer_review_effect e auth req s s' r :
  answer_review e auth req s = (s', r) → same_tables s s' ∨ answer_effect e auth req s s'.
Proof.
  intros H. assert (same_tables s s) as K by done. unfold answer_review in H. cbv zeta in H. do 5 reading K H.
  pose proof K as K1. reading K H. apply get_found in R4 as (row & Hrow & ->); [|done]. reading K H.
  pose proof K as K2. reading K H. apply get_found in R5 as (product & Hproduct & ->); [|done]. reading K H.
  apply pure_ok in R4 as [-> R4]. apply pure_ok in R5 as [-> R5]. rewrite get_row_to_doc in R4 by concrete.
  destruct (get "productId" (row_data row) ≫= as_str) as [pid|] eqn:Hpid; [|done]. injection R4 as <-.
  rewrite K1 in Hrow by done. rewrite K2 in Hproduct by done.
  right. exists row, pid, product. do 3 (split; [done|]). split.
  { rewrite str_field_doc in R5 by concrete. destruct (_ =s? _) eqn:E1; [left; by bools|].
    destruct (has_role "admin" auth) eqn:E2; [by right|done]. }
  match type of H with (db (update_document _ _ ?doc ?now) ≫= _) ?st = _ =>
    destruct (update_cases "product_ratings" (ar_review_id req) doc now st eq_refl)
      as [(err & Hop & Hnone)|(s9 & d & row0 & Hop & Hrow0 & Hv & Hr)] end; [rewrite K in Hnone by done; congruence|].
  unfold db in H. rewrite (bind_run _ _ _ _ _ Hop) in H. injection H as <- _. rewrite K in Hrow0, Hv by done.
  rewrite Hrow in Hrow0. injection Hrow0 as <-. split; [exact Hv|].
  intros c Hc. rewrite !not_elem_of_cons in Hc. destruct Hc as (Hc1 & Hc2 & _). by rewrite Hr, K by done.
Qed.

Lemma select_first_nothing table p st st1 :
  select_first scan table p st = (st1, Ok None) → map_Forall (λ id row, p id row = false) (table_rows st table).
Proof.
  unfold select_first. cbv zeta. rewrite keeps_ensure_first. intros [= _ H] id row Hrow. destruct (p id row) eqn:E; [exfalso|done].
  assert ((id, row) ∈ filter (λ kr : string * DocRow, p kr.1 kr.2 = true) (scan (table_rows st table))) as Hin.
  { apply list_elem_of_filter. split; [done|]. rewrite scan_rows. by apply elem_of_map_to_list. }
  destruct (filter _ _); [by apply elem_of_nil in Hin|done].
Qed.

Definition average_fields (e : rating_env) (product : Value) (rating : f64) : list (string * Value) :=
  let count := cents product "totalReviews" in
  [("avgRating", json_f64 (new_average (default (f64_of_Z 0) (get "avgRating" product ≫= as_f64)) count rating));
   ("totalReviews", of_i64 (i64_add count 1)); ("updatedAt", VString (stamp e 0))].
(** A rating: by the buyer of an order that was delivered and holds the product of
    another seller, and who has not rated it. *)
Definition submit_effect (e : rating_env) (auth : AuthContext) (req : SubmitRatingRequest) (s s' : store) : Prop :=
  let u := auth_user_id auth in let pid := sr_product_id req in
  ∃ order product review,
    table_rows s "orders" !! bare_id "orders" (sr_order_id req) = Some order
    ∧ rating_checks u pid (row_data order) = Ok tt ∧ in_stars (sr_rating req) = true
    ∧ table_rows s "products" !! bare_id "products" pid = Some product
    ∧ (one_word pid = Some pid → one_word u = Some u → map_Forall (λ _ row, of_user "productId" pid u row = false) (reviews_of s))
    ∧ reviews_of s !! te_doc_id e = None
    ∧ reviews_of s' = <[te_doc_id e := {| row_data := rating_doc e u review req; row_created_at := te_clock e 0;
                                          row_updated_at := te_clock e 0 |}]> (reviews_of s)
    ∧ table_rows s' "products" = <[bare_id "products" pid :=
        merged_row (VObject (average_fields e (row_data product) (sr_rating req))) (te_clock e 1) product]> (table_rows s "products")
    ∧ ∀ c, c ∉ ["rate_limits"; "product_ratings"; "products"] → table_rows s' c = table_rows s c.

Lemma rating_checks_doc u pid id row : rating_checks u pid (row_to_doc id row) = rating_checks u pid (row_data row).
Proof. unfold rating_checks. cbv zeta. by rewrite !str_field_doc, items_doc by concrete. Qed.

Lemma submit_rating_effect e auth req s s' r :
  submit_rating e auth req s = (s', r) →
  (same_tables s s' ∧ ∀ resp, r ≠ Ok resp)
  ∨ submit_effect e auth req s s' ∧ ∃ resp, r = Ok resp.
Proof.
  intros H. assert (same_tables s s) as K by done. unfold submit_rating in H. cbv zeta in H. do 3 reading K H.
  apply pure_ok in R as [-> _]. apply pure_ok in R0 as [-> _]. apply pure_ok in R1 as [-> Hu]. apply resolve_self_ok in Hu as ->.
  do 3 reading K H. apply pure_ok in R0 as [-> Hstars]. apply pure_ok in R1 as [-> Hreview].
  pose proof K as K1. reading K H. apply missing_found in R0 as (order & Horder & ->); [|done]. rewrite K1 in Horder by done.
  reading K H. apply pure_ok in R0 as [-> Hchecks]. rewrite rating_checks_doc in Hchecks. clear K1. pose proof K as K1. reading K H.
  assert (one_word (sr_product_id req) = Some (sr_product_id req) → one_word (auth_user_id auth) = Some (auth_user_id auth) →
    a5 = None → map_Forall (λ _ row, of_user "productId" (sr_product_id req) (auth_user_id auth) row = false) (reviews_of s)) as Hnew.
  { intros Hw1 Hw2 ->. unfold find_of_user in R0. rewrite Hw1, Hw2 in R0. apply select_first_nothing in R0. by rewrite K1 in R0. }
  clear R0. reading K H. apply pure_ok in R0 as [-> Hdup]. destruct a5; [done|]. clear K1. pose proof K as K1. reading K H.
  apply missing_found in R0 as (product & Hproduct & ->); [|done]. rewrite K1 in Hproduct by done. clear K1.
  match type of H with (db_map_err _ (create_document _ ?doc ?id ?now) ≫= _) ?st = _ =>
    destruct (create_cases "product_ratings" doc id now st eq_refl)
      as [(err & Hop & _)|(s8 & d & Hop & Hnone & Hv & Hr)] end.
  { left. erewrite bind_err in H by (unfold db_map_err; by rewrite Hop). injection H as <- <-. split; [|done].
    intros c Hc. by rewrite table_rows_ensured, K. }
  change (document_id _ (te_doc_id e)) with (te_doc_id e) in Hnone, Hv. rewrite K in Hnone, Hv by done.
  erewrite bind_run in H by (unfold db_map_err; by rewrite Hop).
  match type of H with (db_map_err _ (update_document _ ?id ?doc ?now) ≫= _) ?st = _ =>
    destruct (update_cases "products" id doc now st eq_refl)
      as [(err & _ & Hno)|(s9 & d' & row0 & Hop' & Hrow0 & Hv' & Hr')] end.
  { rewrite Hr, K in Hno by done. congruence. }
  rewrite Hr, K in Hrow0, Hv' by done. rewrite Hproduct in Hrow0. injection Hrow0 as <-.
  erewrite bind_run in H by (unfold db_map_err; by rewrite Hop'). injection H as <- <-. right. split; [|by eexists].
  exists order, product, a3. split; [done|]. split; [by destruct a4|]. split; [by destruct (in_stars (sr_rating req))|].
  split; [done|]. split; [auto|]. split; [done|]. split; [rewrite Hr' by done; exact Hv|]. split.
  - unfold average_fields. cbv zeta. rewrite Hv', !cents_doc, get_row_to_doc by concrete. reflexivity.
  - intros c Hc. rewrite !not_elem_of_cons in Hc. destruct Hc as (Hc1 & Hc2 & Hc3 & _). by rewrite Hr', Hr, K by done.
Qed.

(** ** What holds for ever *)

(** The requests of any users, one after the other: the ids they name are words, and
    the ids that are drawn are new. *)
Inductive ratings_step (s : store) : store → Prop :=
| step_submit e auth req :
    one_word (sr_product_id req) = Some (sr_product_id req) → one_word (auth_user_id auth) = Some (auth_user_id auth) →
    (∀ vote, tally (vote_on (te_doc_id e) vote) (votes_of s) = 0%Z) → ratings_step s (submit_rating e auth req s).1
| step_vote e auth req :
    one_word (rv_review_id req) = Some (rv_review_id req) → one_word (auth_user_id auth) = Some (auth_user_id auth) →
    bare_id "review_votes" (te_doc_id e) = te_doc_id e → ratings_step s (review_vote e auth req s).1
| step_answer e auth req : ratings_step s (answer_review e auth req s).1.

(** The number of reviews of a product is that of the ratings stored, and each user
    has rated a product once. *)
Definition review_of (pid : string) (row : DocRow) : bool :=
  bool_decide (bare_id "products" <$> field_text "productId" (row_data row) = Some pid).
Definition one_each (reviews : rows) : Prop :=
  ∀ k1 k2 r1 r2 pid u, reviews !! k1 = Some r1 → reviews !! k2 = Some r2 →
    of_user "productId" pid u r1 = true → of_user "productId" pid u r2 = true → k1 = k2.
Definition reviews_ok (s : store) : Prop :=
  map_Forall (λ pid row, is_object (row_data row) = true
    ∧ cents (row_data row) "totalReviews" = wrap_signed 64 (tally (review_of pid) (reviews_of s))) (table_rows s "products")
  ∧ one_each (reviews_of s).

(** A change of a review that leaves alone whose it is. *)
Definition retouched (reviews reviews' : rows) : Prop :=
  reviews' = reviews ∨ ∃ k row fields now, reviews !! k = Some row
    ∧ reviews' = <[k := merged_row (VObject fields) now row]> reviews
    ∧ NoDup fields.*1 ∧ assoc_get "productId" fields = None ∧ assoc_get "userId" fields = None.
Lemma merged_text fields now row k :
  NoDup fields.*1 → assoc_get k fields = None →
  field_text k (row_data (merged_row (VObject fields) now row)) = field_text k (row_data row).
Proof.
  intros Hnd Hk. unfold field_text. destruct (row_data row) as [| | | | |m] eqn:Hm; try (cbn; by rewrite Hm).
  by rewrite (merged_row_get _ _ _ m), Hk, Hm by done.
Qed.
Lemma retouched_of_user reviews reviews' k row pid u :
  retouched reviews reviews' → reviews' !! k = Some row →
  ∃ row0, reviews !! k = Some row0 ∧ of_user "productId" pid u row = of_user "productId" pid u row0.
Proof.
  intros [->|(k0 & row0 & fields & now & Hk & -> & Hnd & H1 & H2)] Hrow; [by exists row|].
  apply lookup_insert_Some in Hrow as [[<- <-]|[_ Hrow]]; [|by exists row]. exists row0. split; [done|].
  unfold of_user. by rewrite !merged_text.
Qed.
Lemma retouched_ok s s' :
  reviews_ok s → retouched (reviews_of s) (reviews_of s') → table_rows s' "products" = table_rows s "products" → reviews_ok s'.
Proof.
  intros [Hc Ho] Hr Hp. split.
  - rewrite Hp. assert (∀ pid, tally (review_of pid) (reviews_of s') = tally (review_of pid) (reviews_of s)) as Ht.
    { intros pid. destruct Hr as [->|(k0 & row0 & fields & now & Hk & -> & Hnd & H1 & H2)]; [done|].
      apply (tally_same _ _ _ row0); [done|]. unfold review_of. by rewrite merged_text. }
    intros pid row Hrow. rewrite Ht. by apply Hc.
  - intros k1 k2 r1 r2 pid u H1 H2 O1 O2. destruct (retouched_of_user _ _ _ _ pid u Hr H1) as (r1' & H1' & E1).
    destruct (retouched_of_user _ _ _ _ pid u Hr H2) as (r2' & H2' & E2). rewrite E1 in O1. rewrite E2 in O2. by eapply Ho.
Qed.
Lemma adjusted_retouched review_id adj reviews reviews' : adjusted review_id adj reviews reviews' → retouched reviews reviews'.
Proof.
  intros [[_ ->]|[[_ ->]|(row & now & clock & Hrow & ->)]]; [by left..|]. right. eexists _, row, _, clock.
  split; [done|]. split; [reflexivity|]. split_and!; [concrete|done|done].
Qed.

Lemma same_ok s s' : same_tables s s' → (votes_ok s → votes_ok s') ∧ (reviews_ok s → reviews_ok s').
Proof. intros K. unfold votes_ok, reviews_ok. by rewrite !K by done. Qed.

Lemma ratings_step_votes s s' : ratings_step s s' → votes_ok s → votes_ok s'.
Proof.
  intros [e auth req _ _ Hfresh|e auth req Hw1 Hw2 Hfresh|e auth req] [Hwf Hc].
  - destruct (submit_rating e auth req s) as [s1 r] eqn:E. apply submit_rating_effect in E as [[K _]|[E _]]; [by apply (same_ok s)|].
    destruct E as (order & product & review & _ & _ & _ & _ & _ & Hnone & Hr & _ & Hother). cbn [fst].
    unfold votes_ok. rewrite (Hother "review_votes"), Hr by set_solver. split; [done|]. apply map_Forall_insert_2; [|done].
    rewrite !Hfresh. done.
  - destruct (review_vote e auth req s) as [s1 r] eqn:E. apply review_vote_effect in E as [K|[E _]]; [by apply (same_ok s)| |done..].
    by eapply vote_effect_ok.
  - destruct (answer_review e auth req s) as [s1 r] eqn:E.
    apply answer_review_effect in E as [K|(row & pid & product & Hrow & _ & _ & _ & Hr & Hother)]; [by apply (same_ok s)|].
    cbn [fst]. unfold votes_ok. rewrite (Hother "review_votes"), Hr by set_solver. split; [done|]. apply map_Forall_insert_2; [|done].
    destruct (Hc _ _ Hrow) as (Ho & H1 & H2). destruct (row_data row) as [| | | | |m] eqn:Hm; try done. rewrite <- Hm in *.
    split; [cbn; by rewrite Hm|]. by rewrite !(cents_merged _ _ _ m) by (done || concrete).
Qed.
Lemma submitted_ok s s1 e u review req product :
  reviews_ok s → let new := {| row_data := rating_doc e u review req; row_created_at := te_clock e 0; row_updated_at := te_clock e 0 |} in
  table_rows s "products" !! bare_id "products" (sr_product_id req) = Some product →
  map_Forall (λ _ row, of_user "productId" (sr_product_id req) u row = false) (reviews_of s) →
  reviews_of s !! te_doc_id e = None → reviews_of s1 = <[te_doc_id e := new]> (reviews_of s) →
  table_rows s1 "products" = <[bare_id "products" (sr_product_id req) :=
    merged_row (VObject (average_fields e (row_data product) (sr_rating req))) (te_clock e 1) product]> (table_rows s "products") →
  reviews_ok s1.
Proof.
  intros [Hc Ho] new Hp Hnew Hnone Hr Hp'.
  assert (∀ pid, review_of pid new = bool_decide (bare_id "products" (sr_product_id req) = pid)) as Hrev.
  { intros pid. unfold review_of. change (field_text "productId" (row_data new)) with (Some (sr_product_id req)). cbn [fmap option_fmap option_map].
    apply bool_decide_ext. naive_solver. }
  split.
  - rewrite Hr, Hp'. intros pid row. rewrite tally_new, Hrev by done. intros [[<- <-]|[Hne Hrow]]%lookup_insert_Some.
    + destruct (Hc _ _ Hp) as [Hobj Hcount]. destruct (row_data product) as [| | | | |m] eqn:Hm; try done. rewrite <- Hm in *.
      split; [cbn; by rewrite Hm|]. rewrite (cents_merged _ _ _ m) by (done || concrete). cbn [average_fields assoc_get]. cbv zeta.
      cbn [assoc_get]. rewrite bool_decide_true by done. cbn [Z.b2z str_eqb]. rewrite Hcount, wrap_add. apply cents_wrapped.
    + rewrite bool_decide_false by done. cbn [Z.b2z]. rewrite Z.add_0_r. by apply Hc.
  - rewrite Hr. assert (∀ pid u', of_user "productId" pid u' new = true → pid = sr_product_id req ∧ u' = u) as Hnu.
    { intros pid u'. unfold of_user. change (field_text "productId" (row_data new)) with (Some (sr_product_id req)).
      change (field_text "userId" (row_data new)) with (Some u). intros [[= <-]%bool_decide_eq_true [= <-]%bool_decide_eq_true]%andb_true_iff. done. }
    intros k1 k2 r1 r2 pid u' [[<- <-]|[_ H1]]%lookup_insert_Some [[<- <-]|[_ H2]]%lookup_insert_Some O1 O2; [done| | |by eapply Ho].
    + apply Hnu in O1 as [-> ->]. specialize (Hnew _ _ H2). cbn in Hnew. congruence.
    + apply Hnu in O2 as [-> ->]. specialize (Hnew _ _ H1). cbn in Hnew. congruence.
Qed.

Lemma ratings_step_reviews s s' : ratings_step s s' → votes_ok s → reviews_ok s → reviews_ok s'.
Proof.
  intros [e auth req Hw1 Hw2 _|e auth req Hw1 Hw2 Hfresh|e auth req] [Hwf Hv] Hok.
  - destruct (submit_rating e auth req s) as [s1 r] eqn:E. apply submit_rating_effect in E as [[K _]|[E _]]; [by apply (same_ok s)|].
    destruct E as (order & product & review & _ & _ & _ & Hp & Hnew & Hnone & Hr & Hp' & _). cbn [fst].
    exact (submitted_ok s s1 e (auth_user_id auth) review req product Hok Hp (Hnew Hw1 Hw2) Hnone Hr Hp').
  - destruct (review_vote e auth req s) as [s1 r] eqn:E. apply review_vote_effect in E as [K|[E Hp]]; [by apply (same_ok s)| |done..].
    eapply retouched_ok; [done| |done]. cbn [fst]. destruct E as [[_ ->]|[(row & _ & _ & _ & _ & E)|(k & row & row' & _ & _ & _ & _ & _ & _ & E)]];
      [by left|by eapply adjusted_retouched..].
  - destruct (answer_review e auth req s) as [s1 r] eqn:E.
    apply answer_review_effect in E as [K|(row & pid & product & Hrow & _ & _ & _ & Hr & Hother)]; [by apply (same_ok s)|].
    eapply retouched_ok; [done| |by apply Hother; set_solver]. right. eexists _, row, _, _. split; [done|]. split; [exact Hr|].
    split_and!; [concrete|done|done].
Qed.

(** C24: the votes of a review add up.  For requests that are served one at a time,
    whose ids of products, reviews and users need no SQL escaping, and where new
    documents get new ids: however users rate, vote, change or take back their votes
    and answer, in any number and order and with any outcome, the helpful and the
    unhelpful count of every review is the number of such votes stored for it.  The
    conditions are needed: [vote_injected] is a vote with a quote in the id of its
    review, [racing_votes] two at the same time. *)
Theorem votes_tallied s s' : rtc ratings_step s s' → votes_ok s → votes_ok s'.
Proof. induction 1 as [|s s1 s2 Hstep _ IH]; [done|]. intros Hok. by apply IH, (ratings_step_votes s). Qed.

(** The ratings of a product are counted, and each user has one.  However users
    rate, vote and answer, the number of reviews of every product is that of the
    ratings stored for it, and no user has two ratings of the same product. *)
Theorem reviews_counted s s' : rtc ratings_step s s' → votes_ok s → reviews_ok s → reviews_ok s'.
Proof.
  induction 1 as [|s s1 s2 Hstep _ IH]; [done|]. intros Hv Hr.
  apply IH; [by apply (ratings_step_votes s)|by apply (ratings_step_reviews s)].
Qed.

(** Who may rate and who may answer.  A rating is refused without effect, or
    was given by the buyer of an order that was delivered or disputed and holds the
    product, sold by somebody else; an answer to a review is refused without effect,
    or comes from the seller of the product or an administrator and changes the
    review answered and nothing else. *)
Theorem reviews_by_parties e auth (req : SubmitRatingRequest + AnswerReviewRequest) s :
  match req with
  | inl req =>
      let s' := (submit_rating e auth req s).1 in
      same_tables s s'
      ∨ ∃ order, table_rows s "orders" !! bare_id "orders" (sr_order_id req) = Some order
        ∧ str_field (row_data order) "buyerId" = auth_user_id auth
        ∧ str_field (row_data order) "status" ∈ ["delivered"; "disputed"]
        ∧ ∃ item, item ∈ items_array (row_data order) ∧ str_field item "productId" = sr_product_id req
          ∧ get "sellerId" item ≠ Some (VString (auth_user_id auth))
  | inr req =>
      let s' := (answer_review e auth req s).1 in
      same_tables s s'
      ∨ ∃ row pid product, reviews_of s !! bare_id "product_ratings" (ar_review_id req) = Some row
        ∧ get "productId" (row_data row) = Some (VString pid) ∧ table_rows s "products" !! bare_id "products" pid = Some product
        ∧ (str_field (row_data product) "sellerId" = auth_user_id auth ∨ has_role "admin" auth = true)
        ∧ (∀ k, k ∉ ["sellerRespondedAt"; "sellerResponse"; "updatedAt"] → ∀ row', 
             reviews_of s' !! bare_id "product_ratings" (ar_review_id req) = Some row' → get k (row_data row') = get k (row_data row))
        ∧ ∀ c id, c ≠ "rate_limits" → (c, id) ≠ ("product_ratings", bare_id "product_ratings" (ar_review_id req)) →
            table_rows s' c !! id = table_rows s c !! id
  end.
Proof.
  destruct req as [req|req]; cbv zeta.
  - destruct (submit_rating e auth req s) as [s1 r] eqn:E. apply submit_rating_effect in E as [[K _]|[E _]]; [by left|]. right.
    destruct E as (order & product & review & Horder & Hchecks & _). exists order. split; [done|]. unfold rating_checks in Hchecks. cbv zeta in Hchecks.
    destruct (str_field (row_data order) "buyerId" =s? _) eqn:E1; [|done]. bools. split; [done|].
    destruct (negb _ && negb _) eqn:E2; [done|]. split.
    { apply andb_false_iff in E2 as [E2|E2]; bools; rewrite E2; set_solver. }
    destruct (list_find _ _) as [[i item]|] eqn:E3; [|done]. apply list_find_Some in E3 as (Hi & Hit & _).
    exists item. split; [by eapply list_elem_of_lookup_2|]. apply bool_decide_eq_true in Hit. split; [unfold str_field; by rewrite Hit|].
    destruct (bool_decide _) eqn:E4; [done|]. apply bool_decide_eq_false in E4. intros Hs. by rewrite Hs in E4.
  - destruct (answer_review e auth req s) as [s1 r] eqn:E. apply answer_review_effect in E as [K|E]; [by left|]. right.
    destruct E as (row & pid & product & Hrow & Hpid & Hproduct & Hauth & Hr & Hother). exists row, pid, product. cbn [fst].
    split; [done|]. split; [destruct (get "productId" (row_data row)) as [[]|]; by simplify_eq/=|]. do 2 (split; [done|]). split.
    + intros k Hk row' Hrow'. rewrite Hr, lookup_insert_eq in Hrow'. injection Hrow' as <-.
      destruct (row_data row) as [| | | | |m] eqn:Hm; try done. rewrite <- Hm. rewrite (merged_row_get _ _ _ m) by (done || concrete).
      rewrite !not_elem_of_cons in Hk. destruct Hk as (K1 & K2 & K3 & _). unfold answer_fields. cbn [assoc_get].
      unfold str_eqb. by rewrite !bool_decide_false by done.
    + intros c id Hc Hne. destruct (decide (c = "product_ratings")) as [->|Hc']; [|by rewrite Hother by set_solver].
      rewrite Hr, lookup_insert_ne; [done|]. congruence.
Qed.
End rating_facts.

(** ** Where the code falls short *)

Section shortcomings.
Context `{C : Chrono} `{P : PgJson} `{T : TextLib}.
(** The next page is never reached: the cursor that is returned is not looked at. *)
Lemma cursor_ignored latest pg_float8 cast_error injected_ratings req cursor :
  get_ratings latest pg_float8 cast_error injected_ratings req
  = get_ratings latest pg_float8 cast_error injected_ratings
      {| gr_product_id := gr_product_id req; gr_limit := gr_limit req; gr_start_after := cursor;
         gr_min_rating := gr_min_rating req |}.
Proof. by destruct req. Qed.
End shortcomings.

(** A review that is cut within a character panics. *)
Example long_review_panics :
  sanitized_review (Some (String.concat "" (repeat "a" 999) +:+ String "195" (String "169" "!"))) = Panic.
Proof. by vm_compute. Qed.
(** The status of an order is stored as [orderStatus], as the checkout and the order
    handlers write it, and read as [status]: such an order cannot be rated. *)
Example delivered_order_not_ratable :
  rating_checks "ann" "p1" (VObject [("buyerId", VString "ann");
    ("items", VArray [VObject [("productId", VString "p1"); ("sellerId", VString "sel")]]); ("orderStatus", VString "delivered")])
  = Err (Validation "Order not in ratable state").
Proof. by vm_compute. Qed.

(** ** Concrete instances *)
Section rating_witnesses.
#[local] Instance demo_t_chrono : Chrono := plain_chrono.
#[local] Instance demo_t_json : PgJson := plain_json.
#[local] Instance demo_t_text : TextLib := plain_textlib.

Definition demo_t_env (id : string) : rating_env :=
  {| te_test_mode := true; te_secs := 1000; te_limit_id := "l"; te_limit_now := 1; te_now := λ k, 500 + Z.of_nat k;
     te_doc_id := id; te_clock := λ k, 600 + Z.of_nat k |}%Z.
Definition delivered_order : DocRow :=
  plain_row (VObject [("buyerId", VString "ann");
    ("items", VArray [VObject [("productId", VString "p1"); ("sellerId", VString "sel")]]); ("status", VString "delivered")]).
Definition rated_product : DocRow := plain_row (VObject [("sellerId", VString "sel")]).
Definition rating_store : store := {["orders" := {["o1" := delivered_order]}; "products" := {["p1" := rated_product]}]}.
Definition five_stars : SubmitRatingRequest :=
  {| sr_product_id := "p1"; sr_user_id := "ann"; sr_order_id := "o1"; sr_rating := f64_of_Z 5; sr_review_text := Some "Good";
     sr_review_image_urls := [] |}.
Definition no_rows (table x u : string) (s : store) : string * option Value := (table, None).
Definition rated : store := (submit_rating "" map_to_list no_rows (demo_t_env "r1") (user_auth "ann") five_stars rating_store).1.
Definition voted (id user review : string) (vote : VoteType) (s : store) : store :=
  (review_vote "" map_to_list no_rows (demo_t_env id) (user_auth user) {| rv_review_id := review; rv_vote := vote |} s).1.
Definition helpful_of (s : store) : option Z := (λ row, cents (row_data row) "helpfulVotes") <$> table_rows s "product_ratings" !! "r1".

Example votes_change :
  helpful_of (voted "v1" "bob" "r1" Helpful rated) = Some 1%Z
  ∧ helpful_of (voted "v2" "bob" "r1" NoVote (voted "v1" "bob" "r1" Helpful rated)) = Some 0%Z.
Proof. by vm_compute. Qed.
(** An id with the prefix of its collection is the same review, but another text: a
    user votes twice. *)
Example prefix_votes_twice :
  helpful_of (voted "v2" "bob" "product_ratings:r1" Helpful (voted "v1" "bob" "r1" Helpful rated)) = Some 2%Z.
Proof. by vm_compute. Qed.
(** The counts are read and written in separate statements: of two votes at the same
    time one is not counted. *)
Example racing_votes :
  let doc := VObject [("helpfulVotes", of_i64 (i64_add (default 0%Z (helpful_of rated)) 1))] in
  helpful_of (update_document "product_ratings" "r1" doc 1 (update_document "product_ratings" "r1" doc 1 rated).1).1 = Some 1%Z.
Proof. by vm_compute. Qed.

(** A quote in the id of the review ends its literal, and the text after it is part
    of the condition: the statement finds the first vote of anybody.  That vote is
    changed, the review of the request is not found, and the review of the vote keeps
    its count. *)
Definition quoted_review : string := "x" +:+ str1 APOS +:+ " OR true --".
Definition first_vote_row (table x u : string) (s : store) : string * option Value :=
  (table, (λ kr : string * DocRow, row_to_doc kr.1 kr.2) <$> head (map_to_list (table_rows s table))).
Example vote_injected :
  lex_standard (escape_sql_string quoted_review +:+ str1 APOS +:+ " AND data->>'userId' = 'eve' LIMIT 1")
  = Some ("x" +:+ str1 BACKSLASH, " OR true --" +:+ str1 APOS +:+ " AND data->>'userId' = 'eve' LIMIT 1")
  ∧ let '(s, r) := review_vote "" map_to_list first_vote_row (demo_t_env "v2") (user_auth "eve")
                     {| rv_review_id := quoted_review; rv_vote := NoVote |} (voted "v1" "bob" "r1" Helpful rated) in
    is_ok r = false
    ∧ (λ row, (str_field (row_data row) "userId", str_field (row_data row) "vote")) <$> table_rows s "review_votes" !! "v1" = Some ("bob", "none")
    ∧ helpful_of s = Some 1%Z.
Proof. by vm_compute. Qed.

Lemma demo_steps : rtc (ratings_step "" map_to_list no_rows) rating_store (voted "v1" "bob" "r1" Helpful rated).
Proof.
  eapply rtc_l; [|eapply rtc_l; [|apply rtc_refl]].
  - apply (step_submit "" map_to_list no_rows rating_store (demo_t_env "r1") (user_auth "ann") five_stars); [by vm_compute..|].
    intros vote. reflexivity.
  - apply (step_vote "" map_to_list no_rows rated (demo_t_env "v1") (user_auth "bob")); by vm_compute.
Qed.
Lemma rating_store_votes : votes_ok rating_store.
Proof. split; apply map_Forall_empty. Qed.
Lemma rating_store_reviews : reviews_ok rating_store.
Proof.
  split.
  - assert (table_rows rating_store "products" = {["p1" := rated_product]}) as -> by evaluates.
    apply map_Forall_singleton. split; by vm_compute.
  - assert (table_rows rating_store "product_ratings" = ∅) as -> by evaluates. intros ? ? ? ? ? ? H. by rewrite lookup_empty in H.
Qed.
Lemma demo_t_scan (rs : rows) : map_to_list rs ≡ₚ map_to_list rs.
Proof. done. Qed.

Lemma votes_tallied_witness : votes_ok (voted "v1" "bob" "r1" Helpful rated).
Proof. exact (votes_tallied "" map_to_list no_rows demo_t_scan _ _ demo_steps rating_store_votes). Defined.
Lemma reviews_counted_witness : reviews_ok (voted "v1" "bob" "r1" Helpful rated).
Proof. exact (reviews_counted "" map_to_list no_rows demo_t_scan _ _ demo_steps rating_store_votes rating_store_reviews). Defined.
End rating_witnesses.
