(* ===== verification/Mcp.v ===== *)
(** * The tools for agents

    crates/ob-mcp: the errors of the JSON-RPC interface (errors.rs), what keeps an
    agent from ordering twice or spending too much (safeguards.rs), and the order
    tools that use it (tools/orders.rs, and the cart tool of tools/shopping.rs).  A
    lock guards each of the shared maps; a function is one critical section. *)

From S2P Require Export Ratings.

(** ** Errors *)

Inductive McpError : Type :=
| InvalidRequest (s : string) | MethodNotFound (s : string) | InvalidParams (s : string) | McpInternal (s : string)
| Unauthorized | McpForbidden (s : string) | McpNotFound (s : string) | RateLimited | IdempotencyMismatch (s : string)
| DatabaseError (s : string) | ValidationError (s : string).
Abbreviation McpResult := (outcome McpError).
Definition mcp_code (e : McpError) : Z :=
  match e with
  | InvalidRequest _ => -32600 | MethodNotFound _ => -32601 | InvalidParams _ => -32602 | McpInternal _ => -32603
  | Unauthorized => 401 | McpForbidden _ => 403 | McpNotFound _ => 404 | RateLimited => 429 | IdempotencyMismatch _ => 409
  | DatabaseError _ => 500 | ValidationError _ => 422
  end%Z.
Definition mcp_to_string (e : McpError) : string :=
  match e with
  | InvalidRequest s => "Invalid request: " +:+ s | MethodNotFound s => "Method not found: " +:+ s
  | InvalidParams s => "Invalid params: " +:+ s | McpInternal s => "Internal error: " +:+ s
  | Unauthorized => "Unauthorized" | McpForbidden s => "Forbidden: " +:+ s | McpNotFound s => "Not found: " +:+ s
  | RateLimited => "Rate limited" | IdempotencyMismatch s => "Idempotency key mismatch: " +:+ s
  | DatabaseError s => "Database error: " +:+ s | ValidationError s => "Validation error: " +:+ s
  end.
Definition mcp_message (e : McpError) : string :=
  match e with
  | McpInternal _ => "Internal server error" | DatabaseError _ => "Database operation failed"
  | McpNotFound _ => "Resource not found" | McpForbidden _ => "Forbidden"
  | e => mcp_to_string e
  end.

(** ** What was done already *)

Record IdempotencyTracker : Type := {
  it_cache : gmap string (Value * Z); it_cleanup_interval : N; it_check_count : N }.
Definition IDEMPOTENCY_TTL_SECS : Z := 24 * 60 * 60.
Definition MAX_ENTRIES : N := 10000.
Definition tracker_new : IdempotencyTracker := {| it_cache := ∅; it_cleanup_interval := 100; it_check_count := 0 |}.

(** [now - ts < TTL]. *)
Definition young (ttl now ts : Z) : bool := (i64_sub now ts <? ttl)%Z.
Definition with_cache (cache : gmap string (Value * Z)) (t : IdempotencyTracker) : IdempotencyTracker :=
  {| it_cache := cache; it_cleanup_interval := it_cleanup_interval t; it_check_count := it_check_count t |}.
Definition with_count (count : N) (t : IdempotencyTracker) : IdempotencyTracker :=
  {| it_cache := it_cache t; it_cleanup_interval := it_cleanup_interval t; it_check_count := count |}.
Definition tracker_cleanup (now : Z) (t : IdempotencyTracker) : IdempotencyTracker :=
  with_cache (filter (λ kv : string * (Value * Z), young IDEMPOTENCY_TTL_SECS now kv.2.2 = true) (it_cache t)) t.
Definition tracker_check (cleanup_now now : Z) (key : string) (t : IdempotencyTracker) : IdempotencyTracker * option Value :=
  let count := (it_check_count t + 1)%N in
  let t := if (it_cleanup_interval t <=? count)%N then tracker_cleanup cleanup_now (with_count 0 t) else with_count count t in
  (t, '(value, ts) ← it_cache t !! key; if young IDEMPOTENCY_TTL_SECS now ts then Some value else None).

(** The order of the oldest first; that of equal times is the map's. *)
Definition older (a b : string * Z) : Prop := (a.2 ≤ b.2)%Z.
#[global] Instance older_dec : RelDecision older.
Proof. intros a b. unfold older. apply _. Defined.

Section safeguards.
(** The order in which a map is visited. *)
Context (visit : gmap string Z → list (string * Z)).

Definition evicted {A} (n : nat) (age : A → Z) (m : gmap string A) : gmap string A :=
  foldr delete m (take n (merge_sort older (visit (age <$> m)))).*1.
Definition tracker_mark (now : Z) (key : string) (result : Value) (t : IdempotencyTracker) : IdempotencyTracker :=
  let cache := it_cache t in
  let cache := if (MAX_ENTRIES <=? N.of_nat (size cache))%N then evicted (size cache / 2) snd cache else cache in
  with_cache (<[key := (result, now)]> cache) t.

(** ** What was spent *)

Record SpendLimit : Type := {
  max_amount_cents : N; max_per_24h_cents : N; user_spend : gmap string (list (N * Z)); sl_check_count : N }.
Definition SPEND_TTL_SECS : Z := 86400.
Definition SPEND_MAX_USERS : N := 10000.
Definition SPEND_CLEANUP_INTERVAL : N := 100.
Definition spend_new (max_amount max_per_24h : N) : SpendLimit :=
  {| max_amount_cents := max_amount; max_per_24h_cents := max_per_24h; user_spend := ∅; sl_check_count := 0 |}.
Definition with_spend (spend : gmap string (list (N * Z))) (count : N) (l : SpendLimit) : SpendLimit :=
  {| max_amount_cents := max_amount_cents l; max_per_24h_cents := max_per_24h_cents l; user_spend := spend; sl_check_count := count |}.

Definition u64_add (a b : N) : N := ((a + b) `mod` 2 ^ 64)%N.
Definition pruned (now : Z) (entries : list (N * Z)) : list (N * Z) :=
  filter (λ e : N * Z, young SPEND_TTL_SECS now e.2 = true) entries.
Definition spent_sum (entries : list (N * Z)) : N := foldl u64_add 0%N entries.*1.
Definition prune_and_sum (now : Z) (entries : list (N * Z)) : list (N * Z) * N :=
  (pruned now entries, spent_sum (pruned now entries)).
Definition newest (entries : list (N * Z)) : Z := match entries.*2 with [] => 0%Z | t :: ts => foldl Z.max t ts end.
Definition spend_cleanup (now : Z) (spend : gmap string (list (N * Z))) : gmap string (list (N * Z)) :=
  let spend := omap (λ es, match pruned now es with [] => None | es => Some es end) spend in
  if (SPEND_MAX_USERS <? N.of_nat (size spend))%N
  then evicted (size spend - N.to_nat (SPEND_MAX_USERS / 2)) newest spend else spend.
Definition spend_check (cleanup_now now : Z) (user_id : string) (amount_cents : N) (l : SpendLimit) : SpendLimit * McpResult unit :=
  if (max_amount_cents l <? amount_cents)%N
  then (l, Err (ValidationError ("Amount exceeds per-request limit of $" +:+ pretty (max_amount_cents l / 100)%N)))
  else
    let count := (sl_check_count l + 1)%N in
    let '(spend, count) := if (SPEND_CLEANUP_INTERVAL <=? count)%N then (spend_cleanup cleanup_now (user_spend l), 0%N)
                           else (user_spend l, count) in
    let '(entries, current) := prune_and_sum now (default [] (spend !! user_id)) in
    (with_spend (<[user_id := entries]> spend) count l,
     if (max_per_24h_cents l <? u64_add current amount_cents)%N then Err (ValidationError "Amount exceeds 24h spend limit")
     else Ok tt).
Definition spend_record (now : Z) (user_id : string) (amount_cents : N) (l : SpendLimit) : SpendLimit :=
  let entries := pruned now (default [] (user_spend l !! user_id)) in
  with_spend (<[user_id := entries ++ [(amount_cents, now)]]> (user_spend l)) (sl_check_count l) l.

(** ** Tokens *)

Record ConfirmationToken : Type := { ct_token : string; ct_operation : string; ct_expires_at : Z }.
Definition token_new (uuid operation : string) (now : Z) : ConfirmationToken :=
  {| ct_token := uuid; ct_operation := operation; ct_expires_at := i64_add now 3600 |}.
Definition is_valid (now : Z) (t : ConfirmationToken) : bool := (now <? ct_expires_at t)%Z.
Definition token_verify (now : Z) (provided_token : string) (t : ConfirmationToken) : McpResult unit :=
  if negb (is_valid now t) then Err (ValidationError "Token expired")
  else if negb (ct_token t =s? provided_token) then Err (ValidationError "Invalid confirmation token")
  else Ok tt.

(** ** The tools *)

Record mcp_env : Type := {
  me_now : nat → Z;      (** [Utc::now().timestamp()], at each reading *)
  me_uuid : string;
  me_micros : Z;         (** [Utc::now()] in full *)
  me_clock : Z;          (** the database's clock *)
}.
Record McpState : Type := { ms_db : store; ms_idempotency : IdempotencyTracker; ms_spend : SpendLimit }.
Context `{C : Chrono} `{P : PgJson} `{T : TextLib}.

(** [id.split_once(':').map(|(_, id)| id).unwrap_or(id)]. *)
Definition record_of (id : string) : string := match split_once ":" id with Some (_, r) => r | None => id end.
Definition text_param (name : string) (params : Value) : McpResult string :=
  ok_or (InvalidParams ("Missing '" +:+ name +:+ "'")) (get name params ≫= as_str).

Definition list_orders (user_id : string) (params : Value) : McpResult Value :=
  let limit := default 20%N (get "limit" params ≫= as_u64) in
  let offset := default 0%N (get "offset" params ≫= as_u64) in
  if (100 <? limit)%N then Err (ValidationError "Limit must be <= 100")
  else Ok (VObject [("limit", VNumber (PosInt limit)); ("offset", VNumber (PosInt offset)); ("orders", VArray []);
                    ("total", of_i64 0); ("user_id", VString user_id)]).

(** The order of an id with a colon. *)
Definition fetch_order (order_id : string) (s : store) : store * McpResult Value :=
  if negb (str_exists (Ascii.eqb ":") order_id) then (s, Err (ValidationError "Invalid order ID format"))
  else match get_document "orders" (record_of order_id) s with
       | (s, Ok order) => (s, if is_null order then Err (McpNotFound "Order not found") else Ok order)
       | (s, Err e) => (s, Err (McpInternal ("Failed to fetch order: " +:+ error_to_string e)))
       | (s, Panic) => (s, Panic)
       end.
Definition get_order (user_id : string) (params : Value) (s : store) : store * McpResult Value :=
  match text_param "order_id" params with
  | Ok order_id =>
      let '(s, r) := fetch_order order_id s in
      (s, order ← r;
          if negb (str_field order "buyerId" =s? user_id) && negb (str_field order "sellerId" =s? user_id)
          then Err (McpForbidden "Access denied") else Ok order)
  | Err e => (s, Err e)
  | Panic => (s, Panic)
  end.

Definition RETURN_WINDOW_DAYS : Z := 30.
Definition timestamp (micros : Z) : Z := (micros / micros_per_sec)%Z.
Definition return_checks (e : mcp_env) (user_id : string) (order : Value) : McpResult unit :=
  if negb (str_field order "buyerId" =s? user_id)
  then Err (McpForbidden "You can only request returns for your own orders")
  else if negb (str_field order "orderStatus" =s? "delivered")
  then Err (ValidationError "Returns can only be requested for delivered orders")
  else match (get "deliveredAt" order ≫= as_str) ≫= parse_rfc3339 with
       | Some delivered_at =>
           let days := (i64_sub (timestamp (me_micros e)) (timestamp delivered_at) `quot` 86400)%Z in
           if (RETURN_WINDOW_DAYS <? days)%Z
           then Err (ValidationError ("Return window expired (" +:+ pretty days +:+ " days since delivery)"))
           else Ok tt
       | None => Ok tt
       end.
Definition request_return (e : mcp_env) (user_id : string) (params : Value) (s : store) : store * McpResult Value :=
  match (order_id ← text_param "order_id" params; reason ← text_param "reason" params; Ok (order_id, reason)) with
  | Ok (order_id, reason) =>
      match fetch_order order_id s with
      | (s, Ok order) =>
          match return_checks e user_id order with
          | Ok _ =>
              let return_doc_id := "return_" +:+ me_uuid e in
              let data := VObject [("buyerId", VString user_id); ("createdAt", VString (to_rfc3339 (me_micros e)));
                                   ("id", VString ("return_requests:" +:+ return_doc_id)); ("orderId", VString order_id);
                                   ("reason", VString reason); ("status", VString "pending")] in
              match create_document "return_requests" data "" (me_clock e) s with
              | (s, Ok _) => (s, Ok (VObject [("buyer_id", VString user_id); ("order_id", VString order_id);
                                              ("reason", VString reason); ("return_id", VString return_doc_id);
                                              ("status", VString "pending")]))
              | (s, Err err) => (s, Err (McpInternal ("Failed to create return request: " +:+ error_to_string err)))
              | (s, Panic) => (s, Panic)
              end
          | Err err => (s, Err err)
          | Panic => (s, Panic)
          end
      | (s, Err err) => (s, Err err)
      | (s, Panic) => (s, Panic)
      end
  | Err err => (s, Err err)
  | Panic => (s, Panic)
  end.

(** The price of an item, and of the cart. *)
Definition u64_max : N := (2 ^ 64 - 1)%N.
Definition saturating_add (a b : N) : N := N.min u64_max (a + b).
Definition saturating_mul (a b : N) : N := N.min u64_max (a * b).
Definition u64_or_zero (k : string) (v : Value) : N := default 0%N (get k v ≫= as_u64).
Definition priced_item (item : Value) (s : store) : store * McpResult N :=
  match (product_id ← ok_or (InvalidParams "Item missing 'product_id'") (get "product_id" item ≫= as_str);
         quantity ← ok_or (InvalidParams "Item missing 'quantity'") (get "quantity" item ≫= as_u64); Ok (product_id, quantity)) with
  | Ok (product_id, quantity) =>
      let missing := McpNotFound ("Product " +:+ product_id +:+ " not found") in
      match get_document "products" (record_of product_id) s with
      | (s, Ok product) =>
          (s, if is_null product then Err missing
              else if negb (str_field product "lifecycleStatus" =s? "active")
              then Err (ValidationError ("Product " +:+ product_id +:+ " is not available for purchase"))
              else if (u64_or_zero "stockQuantity" product <? quantity)%N
              then Err (ValidationError ("Product " +:+ product_id +:+ " has insufficient stock (available: "
                                         +:+ pretty (u64_or_zero "stockQuantity" product) +:+ ")"))
              else Ok (saturating_mul (u64_or_zero "priceCents" product) quantity))
      | (s, Err (NotFound _)) => (s, Err missing)
      | (s, Err err) => (s, Err (McpInternal ("Failed to fetch product " +:+ product_id +:+ ": " +:+ error_to_string err)))
      | (s, Panic) => (s, Panic)
      end
  | Err err => (s, Err err)
  | Panic => (s, Panic)
  end.
Fixpoint priced_items (items : list Value) (total : N) (s : store) : store * McpResult N :=
  match items with
  | [] => (s, Ok total)
  | item :: items =>
      match priced_item item s with
      | (s, Ok cents) => priced_items items (saturating_add total cents) s
      | (s, Err err) => (s, Err err)
      | (s, Panic) => (s, Panic)
      end
  end.

(** The checks of the limit and the record of what is spent. *)
Definition spend_request (cleanup_now check_now record_now : Z) (user_id : string) (cents : N) (l : SpendLimit) :
    SpendLimit * McpResult unit :=
  match spend_check cleanup_now check_now user_id cents l with
  | (l, Ok _) => (spend_record record_now user_id cents l, Ok tt)
  | (l, r) => (l, r)
  end.
(** [Some(tracker).check(key)] where the request has a key. *)
Definition cached (e : mcp_env) (params : Value) (t : IdempotencyTracker) : IdempotencyTracker * option Value :=
  match get "idempotency_key" params ≫= as_str with
  | Some key => tracker_check (me_now e 0) (me_now e 1) key t
  | None => (t, None)
  end.
Definition marked (e : mcp_env) (params : Value) (result : Value) (t : IdempotencyTracker) : IdempotencyTracker :=
  match get "idempotency_key" params ≫= as_str with
  | Some key => tracker_mark (me_now e 6) key result t
  | None => t
  end.
Definition create_checkout (e : mcp_env) (user_id : string) (params : Value) (st : McpState) : McpState * McpResult Value :=
  match (items ← ok_or (InvalidParams "Missing 'items' array") (get "items" params ≫= as_array);
         _ ← (match items with [] => Err (ValidationError "Items array cannot be empty") | _ => Ok tt end);
         _ ← ok_or (InvalidParams "Missing 'shipping_address'") (get "shipping_address" params); Ok items) with
  | Ok items =>
      match cached e params (ms_idempotency st) with
      | (t, Some result) => ({| ms_db := ms_db st; ms_idempotency := t; ms_spend := ms_spend st |}, Ok result)
      | (t, None) =>
          match priced_items items 0%N (ms_db st) with
          | (s, Ok total_cents) =>
              match spend_request (me_now e 2) (me_now e 3) (me_now e 4) user_id total_cents (ms_spend st) with
              | (l, Ok _) =>
                  let result := VObject [("checkout_id", VString (me_uuid e)); ("expires_at", of_i64 (i64_add (me_now e 5) 1800));
                                         ("total_cents", VNumber (PosInt total_cents)); ("user_id", VString user_id)] in
                  ({| ms_db := s; ms_idempotency := marked e params result t; ms_spend := l |}, Ok result)
              | (l, Err err) => ({| ms_db := s; ms_idempotency := t; ms_spend := l |}, Err err)
              | (l, Panic) => ({| ms_db := s; ms_idempotency := t; ms_spend := l |}, Panic)
              end
          | (s, Err err) => ({| ms_db := s; ms_idempotency := t; ms_spend := ms_spend st |}, Err err)
          | (s, Panic) => ({| ms_db := s; ms_idempotency := t; ms_spend := ms_spend st |}, Panic)
          end
      end
  | Err err => (st, Err err)
  | Panic => (st, Panic)
  end.

Definition add_to_cart (e : mcp_env) (user_id : string) (params : Value) (t : IdempotencyTracker) : IdempotencyTracker * McpResult Value :=
  match (product_id ← text_param "product_id" params;
         quantity ← ok_or (InvalidParams "Missing 'quantity'") (get "quantity" params ≫= as_u64);
         if (quantity <? 1)%N then Err (ValidationError "Quantity must be >= 1")
         else if (99 <? quantity)%N then Err (ValidationError "Quantity must be <= 99") else Ok (product_id, quantity)) with
  | Ok (product_id, quantity) =>
      match cached e params t with
      | (t, Some result) => (t, Ok result)
      | (t, None) =>
          let result := VObject [("added", VBool true); ("product_id", VString product_id);
                                 ("quantity", VNumber (PosInt quantity)); ("user_id", VString user_id)] in
          (marked e params result t, Ok result)
      end
  | Err err => (t, Err err)
  | Panic => (t, Panic)
  end.

(** ** The limit holds *)

(** Attempts to spend, one after the other, and what was spent. *)
Record attempt : Type := { at_user : string; at_cents : N; at_cleanup : Z; at_check : Z; at_record : Z }.
Fixpoint run_attempts (attempts : list attempt) (l : SpendLimit) : list (string * (N * Z)) :=
  match attempts with
  | [] => []
  | a :: attempts =>
      let '(l, r) := spend_request (at_cleanup a) (at_check a) (at_record a) (at_user a) (at_cents a) l in
      (if is_ok r then [(at_user a, (at_cents a, at_record a))] else []) ++ run_attempts attempts l
  end.
(** The clock does not go back, and is far from its limits. *)
Fixpoint in_order (now : Z) (attempts : list attempt) : Prop :=
  match attempts with
  | [] => True
  | a :: attempts => (now ≤ at_cleanup a ≤ at_check a)%Z ∧ (at_check a ≤ at_record a ≤ 2 ^ 62)%Z ∧ in_order (at_record a) attempts
  end.
Definition amount_of (entries : list (N * Z)) : N := foldr N.add 0%N entries.*1.
Definition entries_of (u : string) (ledger : list (string * (N * Z))) : list (N * Z) :=
  (filter (λ e : string * (N * Z), e.1 = u) ledger).*2.
(** What a user spent in the 24 hours that end at a time. *)
Definition spent_within (u : string) (until : Z) (ledger : list (string * (N * Z))) : N :=
  amount_of (filter (λ e : N * Z, (until - SPEND_TTL_SECS < e.2 ≤ until)%Z) (entries_of u ledger)).

Lemma young_spec now ts : (0 ≤ ts)%Z → (0 ≤ now ≤ 2 ^ 62)%Z → (ts ≤ 2 ^ 62)%Z → young SPEND_TTL_SECS now ts = true ↔ (now - SPEND_TTL_SECS < ts)%Z.
Proof.
  intros H0 H1 H2. unfold young, i64_sub. rewrite wrap_signed_id by lia. unfold SPEND_TTL_SECS. rewrite Z.ltb_lt. lia.
Qed.
Definition in_range (entries : list (N * Z)) (now : Z) : Prop := Forall (λ e : N * Z, (0 ≤ e.2 ≤ now)%Z) entries.

Lemma pruned_pruned now now' entries bound :
  (0 ≤ now ≤ now')%Z → (now' ≤ 2 ^ 62)%Z → in_range entries bound → (bound ≤ 2 ^ 62)%Z →
  pruned now' (pruned now entries) = pruned now' entries.
Proof.
  intros Hn Hn' Hr Hb. unfold pruned. induction Hr as [|[c ts] entries Hts _ IH]; [done|]. cbn [snd] in Hts.
  assert (young SPEND_TTL_SECS now' ts = true → young SPEND_TTL_SECS now ts = true) as Hy by (rewrite !young_spec by lia; lia).
  rewrite (filter_cons _ (c, ts) entries). case_decide as E1; cbn [snd] in E1; rewrite !filter_cons; cbn [snd].
  - by rewrite IH.
  - rewrite (decide_False (P := young SPEND_TTL_SECS now' ts = true)) by tauto. exact IH.
Qed.
Lemma amount_app a b : amount_of (a ++ b) = (amount_of a + amount_of b)%N.
Proof. unfold amount_of. induction a as [|[c ts] a IH]; [done|]. cbn. cbn in IH. lia. Qed.
Lemma amount_one c t : amount_of [(c, t)] = c.
Proof. unfold amount_of. cbn. lia. Qed.
Lemma amount_nil : amount_of [] = 0%N.
Proof. done. Qed.
Lemma amount_filter_le (Q R : N * Z → Prop) `{∀ e, Decision (Q e)} `{∀ e, Decision (R e)} entries :
  Forall (λ e, Q e → R e) entries → (amount_of (filter Q entries) ≤ amount_of (filter R entries))%N.
Proof.
  unfold amount_of. induction 1 as [|[c ts] entries HQR _ IH]; [done|]. rewrite !filter_cons.
  repeat case_decide; cbn [fmap list_fmap foldr fst] in *; try lia. tauto.
Qed.
Lemma spent_sum_amount entries : spent_sum entries = (amount_of entries `mod` 2 ^ 64)%N.
Proof.
  unfold spent_sum, amount_of. generalize entries.*1. intros l. rewrite <- (N.Div0.mod_0_l (2 ^ 64)) at 1.
  assert (∀ a, foldl u64_add (a `mod` 2 ^ 64)%N l = ((a + foldr N.add 0 l) `mod` 2 ^ 64)%N) as Hgen; [|by rewrite Hgen].
  induction l as [|c l IH]; intros a; cbn [foldl foldr]; [by rewrite N.add_0_r|]. unfold u64_add at 2.
  rewrite N.Div0.add_mod_idemp_l, IH. f_equal. lia.
Qed.

(** The map holds, of every user, at least what is younger than a day. *)
Abbreviation entries_in spend u := (default [] (spend !! u)).
Definition tracked (now : Z) (users : gset string) (spend : gmap string (list (N * Z))) (ledger : list (string * (N * Z))) : Prop :=
  dom spend ⊆ users
  ∧ (∀ u, in_range (entries_in spend u) now ∧ in_range (entries_of u ledger) now)
  ∧ ∀ u until, (now ≤ until ≤ 2 ^ 62)%Z → pruned until (entries_in spend u) = pruned until (entries_of u ledger).

Lemma in_range_mono now now' entries : (now ≤ now')%Z → in_range entries now → in_range entries now'.
Proof. intros Hle H. eapply Forall_impl; [exact H|]. intros e He. cbn in *. lia. Qed.
Lemma in_range_pruned now t entries : in_range entries now → in_range (pruned t entries) now.
Proof.
  unfold in_range. rewrite !Forall_forall. intros H e He. apply H. by apply list_elem_of_filter in He as [_ He].
Qed.

Lemma tracked_pruned now now' users spend spend' ledger :
  tracked now users spend ledger → (0 ≤ now ≤ now')%Z → (now' ≤ 2 ^ 62)%Z → dom spend' ⊆ users →
  (∀ u, entries_in spend' u = entries_in spend u ∨ entries_in spend' u = pruned now' (entries_in spend u)) →
  tracked now' users spend' ledger.
Proof.
  intros (_ & Hr & Hp) Hn Hn' Hd Hs. split; [done|]. split.
  - intros u. destruct (Hr u) as [H1 H2]. split; [|by eapply in_range_mono; [|exact H2]; lia].
    destruct (Hs u) as [->| ->]; [|apply in_range_pruned]; (eapply in_range_mono; [|exact H1]; lia).
  - intros u until Hu. rewrite <- Hp by lia. destruct (Hs u) as [->| ->]; [done|].
    eapply (pruned_pruned now' until _ now); [lia..|apply Hr|lia].
Qed.

Lemma cleanup_entries now spend u :
  (N.of_nat (size spend) ≤ SPEND_MAX_USERS)%N →
  entries_in (spend_cleanup now spend) u = pruned now (entries_in spend u) ∧ dom (spend_cleanup now spend) ⊆ dom spend.
Proof.
  intros Hsize. unfold spend_cleanup. set (m := omap _ spend).
  assert (dom m ⊆ (dom spend : gset string)) as Hdom.
  { intros k. rewrite !elem_of_dom. unfold m. rewrite lookup_omap. destruct (spend !! k); [by eexists|]. by intros [? ?]. }
  pose proof (subseteq_size _ _ Hdom) as Hs. rewrite !size_dom in Hs.
  rewrite (proj2 (N.ltb_ge _ _)) by lia. split; [|done]. unfold m. rewrite lookup_omap.
  destruct (spend !! u) as [es|]; [|done]. cbn [mbind option_bind default from_option id]. by destruct (pruned now es).
Qed.

(** A new entry. *)
Lemma tracked_record now users spend ledger u cents t :
  tracked now users spend ledger → u ∈ users → (0 ≤ now ≤ t)%Z → (t ≤ 2 ^ 62)%Z →
  tracked t users (<[u := pruned t (entries_in spend u) ++ [(cents, t)]]> spend) (ledger ++ [(u, (cents, t))]).
Proof.
  intros (Hd & Hr & Hp) Hu Hn Ht. assert (∀ v, entries_of v (ledger ++ [(u, (cents, t))])
    = entries_of v ledger ++ (if decide (u = v) then [(cents, t)] else [])) as Hent.
  { intros v. unfold entries_of. rewrite filter_app, fmap_app. f_equal. rewrite filter_cons. cbn [fst]. by case_decide. }
  split; [rewrite dom_insert; set_solver|]. split.
  - intros v. rewrite Hent. destruct (Hr v) as [H1 H2]. split; [destruct (decide (u = v)) as [->|Hne]|].
    + rewrite lookup_insert_eq. apply Forall_app. split; [|repeat constructor; cbn; lia].
      apply in_range_pruned. eapply in_range_mono; [|exact H1]. lia.
    + rewrite lookup_insert_ne by done. eapply in_range_mono; [|exact H1]. lia.
    + apply Forall_app. split; [eapply in_range_mono; [|exact H2]; lia|]. case_decide; repeat constructor; cbn; lia.
  - intros v until Hut. rewrite Hent. unfold pruned at 1 3. rewrite filter_app. fold (pruned until (entries_of v ledger)).
    destruct (decide (u = v)) as [->|Hne].
    + rewrite lookup_insert_eq. cbn [default from_option id]. rewrite filter_app. f_equal. rewrite <- Hp by lia.
      apply (pruned_pruned t until _ now); [lia..|apply Hr|lia].
    + rewrite lookup_insert_ne by done. rewrite filter_nil, app_nil_r. apply Hp. lia.
Qed.

(** What the check of the limit sees. *)
Lemma seen_amount now users spend ledger u max t :
  tracked now users spend ledger → (0 ≤ now ≤ t)%Z → (t ≤ 2 ^ 62)%Z → (max < 2 ^ 64)%N →
  (spent_within u t ledger ≤ max)%N →
  spent_sum (pruned t (entries_in spend u)) = spent_within u t ledger.
Proof.
  intros (_ & Hr & Hp) Hn Ht Hmax Hle. rewrite Hp, spent_sum_amount by lia.
  assert (amount_of (pruned t (entries_of u ledger)) = spent_within u t ledger) as ->; [|apply N.mod_small; lia].
  unfold spent_within, pruned. f_equal. destruct (Hr u) as [_ Hin].
  induction Hin as [|[c ts] entries Hts _ IH]; [done|]. cbn [snd] in Hts. rewrite !filter_cons. cbn [snd]. pose proof (young_spec t ts) as Hy.
  rewrite IH. repeat case_decide; try done; exfalso; rewrite Hy in *; lia.
Qed.

Lemma spent_within_record u v t cents until ledger now :
  in_range (entries_of u ledger) now → (now ≤ t)%Z → (spent_within u until (ledger ++ [(v, (cents, t))])
    ≤ if decide (v = u ∧ t ≤ until)%Z then spent_within u t ledger + cents else spent_within u until ledger)%N.
Proof.
  intros Hin Hn. unfold spent_within at 1, entries_of. rewrite filter_app, fmap_app, filter_app, amount_app. fold (entries_of u ledger).
  rewrite filter_cons, filter_nil. cbn [fst]. fold (spent_within u until ledger). destruct (decide (v = u)) as [->|Hne].
  - cbn [fmap list_fmap snd]. rewrite filter_cons, filter_nil. cbn [snd]. destruct (decide (t ≤ until)%Z) as [Hle|Hnle].
    + rewrite (decide_True (P := u = u ∧ (t ≤ until)%Z)) by done. unfold spent_within.
      pose proof (amount_filter_le (λ e : N * Z, (until - SPEND_TTL_SECS < e.2 ≤ until)%Z) (λ e : N * Z, (t - SPEND_TTL_SECS < e.2 ≤ t)%Z)
        (entries_of u ledger)) as Hm.
      assert (Forall (λ e : N * Z, (until - SPEND_TTL_SECS < e.2 ≤ until)%Z → (t - SPEND_TTL_SECS < e.2 ≤ t)%Z) (entries_of u ledger)) as HF.
      { eapply Forall_impl; [exact Hin|]. intros e He. cbn in *. lia. }
      specialize (Hm HF). case_decide; rewrite ?amount_one, ?amount_nil; lia.
    + rewrite decide_False by lia. rewrite decide_False by tauto. rewrite amount_nil. lia.
  - rewrite decide_False by tauto. cbn [fmap list_fmap]. rewrite filter_nil, amount_nil. lia.
Qed.

Lemma request_step now users l ledger a l' r :
  (max_per_24h_cents l + max_amount_cents l < 2 ^ 64)%N → (N.of_nat (size users) ≤ SPEND_MAX_USERS)%N → at_user a ∈ users →
  tracked now users (user_spend l) ledger → (0 ≤ now)%Z →
  (now ≤ at_cleanup a ≤ at_check a)%Z → (at_check a ≤ at_record a ≤ 2 ^ 62)%Z →
  (∀ u until, spent_within u until ledger ≤ max_per_24h_cents l)%N →
  spend_request (at_cleanup a) (at_check a) (at_record a) (at_user a) (at_cents a) l = (l', r) →
  let ledger' := ledger ++ (if is_ok r then [(at_user a, (at_cents a, at_record a))] else []) in
  tracked (at_record a) users (user_spend l') ledger' ∧ (∀ u until, spent_within u until ledger' ≤ max_per_24h_cents l)%N
  ∧ max_per_24h_cents l' = max_per_24h_cents l ∧ max_amount_cents l' = max_amount_cents l.
Proof.
  intros Hmax Husers Hu Ht H0 Hc1 Hc2 Hb. unfold spend_request, spend_check. destruct (max_amount_cents l <? at_cents a)%N eqn:Hamt.
  { intros [= <- <-]. cbn [is_ok]. rewrite app_nil_r. split; [|done]. eapply tracked_pruned; [exact Ht|lia..|apply Ht|by left]. }
  apply N.ltb_ge in Hamt. destruct (if (SPEND_CLEANUP_INTERVAL <=? _)%N then _ else _) as [spend count] eqn:Ecl.
  assert (tracked (at_cleanup a) users spend ledger) as Ht1.
  { destruct (_ <=? _)%N; injection Ecl as <- _; (eapply tracked_pruned; [exact Ht|lia..| |]); [|intros u; right|apply Ht|by left].
    - etransitivity; [apply (cleanup_entries (at_cleanup a) _ "")|apply Ht]. destruct Ht as (Hd & _).
      apply subseteq_size in Hd. rewrite size_dom in Hd. lia.
    - apply cleanup_entries. destruct Ht as (Hd & _). apply subseteq_size in Hd. rewrite size_dom in Hd. lia. }
  cbn [prune_and_sum]. pose proof (seen_amount _ _ _ _ (at_user a) (max_per_24h_cents l) (at_check a) Ht1 ltac:(lia) ltac:(lia) ltac:(lia) (Hb _ _)) as Hseen.
  unfold prune_and_sum. rewrite Hseen. set (es := pruned (at_check a) _).
  assert (tracked (at_check a) users (<[at_user a := es]> spend) ledger) as Ht2.
  { eapply tracked_pruned; [exact Ht1|lia..| |].
    - rewrite dom_insert. destruct Ht1 as (Hd & _). set_solver.
    - intros u. destruct (decide (at_user a = u)) as [<-|Hne]; [right; by rewrite lookup_insert_eq|left; by rewrite lookup_insert_ne]. }
  destruct (max_per_24h_cents l <? _)%N eqn:Elim; intros [= <- <-]; cbn [is_ok].
  { rewrite app_nil_r. split; [|done]. cbn [with_spend user_spend]. eapply tracked_pruned; [exact Ht2|lia..|apply Ht2|by left]. }
  apply N.ltb_ge in Elim. unfold u64_add in Elim. specialize (Hb (at_user a) (at_check a)) as Hbc. rewrite N.mod_small in Elim by lia.
  split; [|split; [|done]].
  - unfold spend_record. cbn [with_spend user_spend]. apply (tracked_record (at_check a)); [exact Ht2|done|lia..].
  - intros u until. destruct Ht2 as (_ & Hr & _). etransitivity; [apply (spent_within_record _ _ _ _ _ _ (at_check a)); [apply Hr|lia]|].
    case_decide as Hd; [|apply Hb]. destruct Hd as [<- Hle]. etransitivity; [|exact Elim]. apply N.add_le_mono_r.
    apply amount_filter_le. eapply Forall_impl; [apply Hr|]. intros e He. cbn in *. lia.
Qed.

(** C32: nobody spends more than the limit.  However agents order for however many
    users up to ten thousand, one attempt after the other on a clock that does not
    go back, what is recorded as spent by a user within any 24 hours never exceeds
    the limit per day. *)
Theorem spend_bounded max_amount max_day attempts now u until :
  (max_day + max_amount < 2 ^ 64)%N → (0 ≤ now)%Z → in_order now attempts →
  (N.of_nat (size (list_to_set (at_user <$> attempts) : gset string)) ≤ SPEND_MAX_USERS)%N →
  (spent_within u until (run_attempts attempts (spend_new max_amount max_day)) ≤ max_day)%N.
Proof.
  intros Hmax Hnow Hord Hsize. set (users := list_to_set (at_user <$> attempts) : gset string) in *.
  assert (∀ l ledger now, (0 ≤ now)%Z → in_order now attempts → (∀ a, a ∈ attempts → at_user a ∈ users) →
    max_per_24h_cents l = max_day → max_amount_cents l = max_amount → tracked now users (user_spend l) ledger →
    (∀ u until, spent_within u until ledger ≤ max_day)%N → ∀ u until, spent_within u until (ledger ++ run_attempts attempts l) ≤ max_day)%N as Hgen.
  { clear Hord now Hnow u until. clearbody users. induction attempts as [|a attempts IH]; intros l ledger now H0 Hord Hin Hd Ha Ht Hb u until.
    - cbn. rewrite app_nil_r. apply Hb.
    - cbn [run_attempts in_order] in *. destruct Hord as (Hc1 & Hc2 & Hord).
      destruct (spend_request _ _ _ _ _ l) as [l' r] eqn:E. rewrite <- Hd, <- Ha in Hmax.
      destruct (request_step now users l ledger a l' r Hmax Hsize (Hin a (list_elem_of_here _ _)) Ht H0 Hc1 Hc2) as (Ht' & Hb' & Hd' & Ha');
        [intros; rewrite Hd; apply Hb|exact E|].
      rewrite app_assoc. apply (IH l' _ (at_record a)); try done; [lia|set_solver|congruence|congruence|by rewrite <- Hd]. }
  apply (Hgen (spend_new max_amount max_day) [] now); try done.
  - intros a Ha. unfold users. apply elem_of_list_to_set, list_elem_of_fmap. by exists a.
  - split; [cbn; set_solver|]. split; [intros v; split; cbn; rewrite ?lookup_empty; constructor|]. intros v until' _. cbn. by rewrite lookup_empty.
  - intros v until'. unfold spent_within, amount_of. cbn. lia.
Qed.

(** ** A checkout is not made twice *)

Definition key_of (params : Value) : option string := get "idempotency_key" params ≫= as_str.
(** The clock readings of a request lie within a time. *)
Definition within (t0 t1 : Z) (e : mcp_env) : Prop := ∀ k, (t0 ≤ me_now e k < t1)%Z.
Definition run_checkouts (calls : list (mcp_env * string * Value)) (st : McpState) : McpState :=
  foldl (λ st c, (create_checkout c.1.1 c.1.2 c.2 st).1) st calls.
(** The result of a key is known, for a day from [t0]. *)
Definition known (key : string) (result : Value) (t0 : Z) (t : IdempotencyTracker) : Prop :=
  ∃ ts, it_cache t !! key = Some (result, ts) ∧ (t0 ≤ ts)%Z ∧ (ts < t0 + IDEMPOTENCY_TTL_SECS)%Z.

Lemma young_in_day t0 now ts :
  (0 ≤ t0 ≤ 2 ^ 61)%Z → (t0 ≤ ts < t0 + IDEMPOTENCY_TTL_SECS)%Z → (t0 ≤ now < t0 + IDEMPOTENCY_TTL_SECS)%Z →
  young IDEMPOTENCY_TTL_SECS now ts = true.
Proof. unfold young, i64_sub, IDEMPOTENCY_TTL_SECS. intros H0 H1 H2. rewrite wrap_signed_id by lia. lia. Qed.

Lemma cached_known e params t key result t0 :
  (0 ≤ t0 ≤ 2 ^ 61)%Z → within t0 (t0 + IDEMPOTENCY_TTL_SECS) e → known key result t0 t →
  known key result t0 (cached e params t).1 ∧ size (it_cache (cached e params t).1) ≤ size (it_cache t)
  ∧ (key_of params = Some key → (cached e params t).2 = Some result).
Proof.
  intros H0 Hw (ts & Hk & Hts). unfold cached, key_of. destruct (get "idempotency_key" params ≫= as_str) as [k|]; [|split; [by exists ts|done]].
  unfold tracker_check. cbv zeta. set (t1 := if (_ <=? _)%N then _ else _). cbn [fst snd].
  assert (it_cache t1 !! key = Some (result, ts) ∧ size (it_cache t1) ≤ size (it_cache t)) as [Hk1 Hs].
  { unfold t1. destruct (_ <=? _)%N; cbn [it_cache with_count tracker_cleanup with_cache]; [|done]. split.
    - apply map_lookup_filter_Some. split; [done|]. cbn [snd]. by apply (young_in_day t0).
    - apply map_subseteq_size, map_filter_subseteq. }
  split; [by exists ts|]. split; [done|]. intros [= <-]. rewrite Hk1. cbn. by rewrite (young_in_day t0).
Qed.

Lemma marked_known e params r t key result t0 :
  (N.of_nat (size (it_cache t)) < MAX_ENTRIES)%N → key_of params ≠ Some key → known key result t0 t →
  known key result t0 (marked e params r t) ∧ size (it_cache (marked e params r t)) ≤ S (size (it_cache t)).
Proof.
  intros Hsize Hne (ts & Hk & Hts). unfold marked, key_of in *. destruct (get "idempotency_key" params ≫= as_str) as [k|]; [|split; [by exists ts|lia]].
  unfold tracker_mark. cbv zeta. rewrite (proj2 (N.leb_gt _ _)) by done. cbn [it_cache with_cache]. split.
  - exists ts. cbn [it_cache with_cache]. rewrite lookup_insert_ne by congruence. done.
  - rewrite map_size_insert. destruct (it_cache t !! k); cbn; lia.
Qed.

Lemma checkout_known e u params st key result t0 :
  (0 ≤ t0 ≤ 2 ^ 61)%Z → within t0 (t0 + IDEMPOTENCY_TTL_SECS) e →
  (N.of_nat (size (it_cache (ms_idempotency st))) < MAX_ENTRIES)%N → known key result t0 (ms_idempotency st) →
  let st' := (create_checkout e u params st).1 in
  known key result t0 (ms_idempotency st') ∧ size (it_cache (ms_idempotency st')) ≤ S (size (it_cache (ms_idempotency st))).
Proof.
  intros H0 Hw Hs Hk. cbv zeta. unfold create_checkout. destruct (_ ≫= _) as [items|err|]; cbn [fst]; [|split; [done|lia]..].
  destruct (cached_known e params _ key result t0 H0 Hw Hk) as (Hk1 & Hs1 & Hc). destruct (cached e params (ms_idempotency st)) as [t [v|]]; cbn [fst snd] in *.
  { split; [done|]. cbn. lia. }
  destruct (priced_items _ _ _) as [s [total|err|]]; cbn [fst ms_idempotency]; [|split; [done|lia]..].
  destruct (spend_request _ _ _ _ _ _) as [l [[]|err|]]; cbn [fst ms_idempotency]; [|split; [done|lia]..].
  destruct (marked_known e params (VObject [("checkout_id", VString (me_uuid e)); ("expires_at", of_i64 (i64_add (me_now e 5) 1800));
    ("total_cents", VNumber (PosInt total)); ("user_id", VString u)]) t key result t0) as [Hm Hsm]; [lia| |done|].
  - intros Heq. by specialize (Hc Heq).
  - split; [done|]. lia.
Qed.

(** A checkout that is repeated is not made again.  When a checkout with a key
    has been made, every further one with this key within a day is answered with the
    same result and neither spends nor reads anything, whatever other checkouts come
    in between, as long as the keys fit the memory of ten thousand. *)
Theorem checkout_replayed e u params st st1 result key calls t0 e' u' params' :
  create_checkout e u params st = (st1, Ok result) → (cached e params (ms_idempotency st)).2 = None → key_of params = Some key →
  (0 ≤ t0 ≤ 2 ^ 61)%Z → within t0 (t0 + IDEMPOTENCY_TTL_SECS) e →
  Forall (λ c, within t0 (t0 + IDEMPOTENCY_TTL_SECS) c.1.1) calls → within t0 (t0 + IDEMPOTENCY_TTL_SECS) e' →
  (N.of_nat (size (it_cache (ms_idempotency st1)) + length calls) < MAX_ENTRIES)%N →
  key_of params' = Some key → get "items" params' = get "items" params → get "shipping_address" params' = get "shipping_address" params →
  let st2 := run_checkouts calls st1 in
  ∃ t, create_checkout e' u' params' st2 = ({| ms_db := ms_db st2; ms_idempotency := t; ms_spend := ms_spend st2 |}, Ok result).
Proof.
  intros R Hnone Hkey H0 Hw Hcalls Hw' Hsize Hkey' Hitems Haddr st2.
  unfold create_checkout in R. destruct (_ ≫= _) as [items|err|] eqn:Epar; [|done..].
  assert (known key result t0 (ms_idempotency st1)) as Hk.
  { destruct (cached e params (ms_idempotency st)) as [t [v|]]; [done|]. destruct (priced_items _ _ _) as [s [total|err|]]; [|done..].
    destruct (spend_request _ _ _ _ _ _) as [l [[]|err|]]; [|done..]. injection R as <- <-. cbn [ms_idempotency].
    unfold marked, key_of in *. rewrite Hkey. exists (me_now e 6). unfold tracker_mark. cbn [it_cache with_cache]. rewrite lookup_insert_eq. split; [done|apply Hw]. }
  assert (known key result t0 (ms_idempotency st2) ∧ (N.of_nat (size (it_cache (ms_idempotency st2))) < MAX_ENTRIES)%N) as [Hk2 _].
  { clear R Epar. unfold st2, run_checkouts. clear st2. revert st1 Hk Hsize. induction Hcalls as [|[[ec uc] pc] calls Hwc _ IH]; intros st1 Hk Hsize.
    - cbn in *. split; [done|]. lia.
    - cbn [foldl length] in *. destruct (checkout_known ec uc pc st1 key result t0 H0 Hwc ltac:(lia) Hk) as [Hk1 Hs1]. apply IH; [done|]. cbn [fst snd]. lia. }
  unfold create_checkout. rewrite Hitems, Haddr, Epar.
  destruct (cached_known e' params' (ms_idempotency st2) key result t0 H0 Hw' Hk2) as (_ & _ & Hc). specialize (Hc Hkey').
  destruct (cached e' params' (ms_idempotency st2)) as [t v]. cbn [snd] in Hc. subst v. by exists t.
Qed.

(** ** Whose orders *)

Lemma fetch_order_found order_id s s' order :
  fetch_order order_id s = (s', Ok order) →
  ∃ row, table_rows s "orders" !! bare_id "orders" (record_of order_id) = Some row
    ∧ order = row_to_doc (bare_id "orders" (record_of order_id)) row ∧ ∀ c, table_rows s' c = table_rows s c.
Proof.
  unfold fetch_order. destruct (negb _); [done|]. intros H. pose proof (λ c, keeps_get c "orders" (record_of order_id) s) as Hk. unfold db in Hk.
  destruct (get_document "orders" (record_of order_id) s) as [s1 [d|err|]] eqn:E; [|done..]. destruct (is_null d); [done|].
  injection H as <- <-. apply get_found in E as (row & Hrow & ->); [|done]. by exists row.
Qed.

(** The tools show and return orders of the caller only: what is shown is an order
    the caller bought or sold, and a return is stored for an order that the caller
    bought and that was delivered. *)
Theorem order_tools_own e u params s s' v :
  (get_order u params s = (s', Ok v) →
     (∀ c, table_rows s' c = table_rows s c) ∧ (str_field v "buyerId" = u ∨ str_field v "sellerId" = u))
  ∧ (request_return e u params s = (s', Ok v) →
     ∃ id row, table_rows s "orders" !! id = Some row ∧ str_field (row_data row) "buyerId" = u
       ∧ str_field (row_data row) "orderStatus" = "delivered" ∧ ∀ c, c ≠ "return_requests" → table_rows s' c = table_rows s c).
Proof.
  split.
  - unfold get_order. destruct (text_param "order_id" params) as [order_id|err|]; [|done..].
    destruct (fetch_order order_id s) as [s1 [order|err|]] eqn:E; [|done..]. apply fetch_order_found in E as (row & _ & _ & Hk).
    cbn [mbind outcome_bind]. destruct (negb _ && negb _) eqn:Ea; [done|]. intros [= <- <-]. split; [done|].
    apply andb_false_iff in Ea as [Ea|Ea]; bools; auto.
  - unfold request_return. destruct (_ ≫= _) as [[order_id reason]|err|]; [|done..].
    destruct (fetch_order order_id s) as [s1 [order|err|]] eqn:E; [|done..]. apply fetch_order_found in E as (row & Hrow & -> & Hk).
    destruct (return_checks e u _) as [[]|err|] eqn:Ec; [|done..]. cbv zeta.
    match goal with |- context [create_document _ ?doc _ _ s1] => destruct (create_cases "return_requests" doc "" (me_clock e) s1 eq_refl)
      as [(err & -> & _)|(s2 & d & -> & _ & _ & Hr)] end; [done|]. intros [= <- _].
    eexists _, row. split; [exact Hrow|]. unfold return_checks in Ec. rewrite !str_field_doc in Ec by concrete.
    destruct (str_field (row_data row) "buyerId" =s? u) eqn:E1; [|done]. destruct (str_field (row_data row) "orderStatus" =s? _) eqn:E2; [|done].
    bools. split; [done|]. split; [done|]. intros c Hc. by rewrite Hr, Hk.
Qed.

(** ** Where the code falls short *)

Context (visit_entries : ∀ m, visit m ≡ₚ map_to_list m).
Lemma delete_all_size {A} (m : gmap string A) keys :
  NoDup keys → (∀ k, k ∈ keys → is_Some (m !! k)) → size (foldr delete m keys) = size m - length keys.
Proof.
  induction keys as [|k keys IH]; intros Hnd Hin; [cbn; lia|]. apply NoDup_cons in Hnd as [Hk Hnd]. cbn [foldr length].
  assert (is_Some (foldr delete m keys !! k)) as Hsome.
  { rewrite lookup_foldr_delete_not_elem_of by done. apply Hin. by left. }
  rewrite map_size_delete_Some by done. rewrite IH by (done || set_solver). lia.
Qed.
Lemma evicted_size {A} n (age : A → Z) m : n ≤ size m → size (evicted n age m) = size m - n.
Proof.
  intros Hn. unfold evicted. set (l := merge_sort older _). assert (l ≡ₚ map_to_list (age <$> m)) as Hp
    by (unfold l; rewrite merge_sort_Permutation; apply visit_entries).
  assert (length l = size m) as Hl by (rewrite Hp, length_map_to_list; apply map_size_fmap).
  rewrite delete_all_size.
  - rewrite length_fmap, length_take. lia.
  - rewrite fmap_take. apply (sublist_NoDup _ l.*1); [|apply sublist_take]. rewrite Hp. apply NoDup_fst_map_to_list.
  - intros k Hk. apply list_elem_of_fmap in Hk as ([k' t] & -> & Hk). apply elem_of_take in Hk as (i & Hk & _).
    apply list_elem_of_lookup_2 in Hk. rewrite Hp, elem_of_map_to_list, lookup_fmap in Hk. cbn [fst].
    destruct (m !! k'); [by eexists|done].
Qed.
(** When more users have spent within a day than are kept, more than half of them are
    forgotten, with what they spent. *)
Lemma cleanup_forgets now spend :
  let live := omap (λ es, match pruned now es with [] => None | es => Some es end) spend in
  (SPEND_MAX_USERS < N.of_nat (size live))%N → N.of_nat (size (spend_cleanup now spend)) = (SPEND_MAX_USERS / 2)%N.
Proof.
  intros live Hsize. unfold spend_cleanup. fold live. cbv zeta. rewrite (proj2 (N.ltb_lt _ _)) by done.
  unfold SPEND_MAX_USERS in *. rewrite evicted_size; change (10000 / 2)%N with 5000%N; lia.
Qed.
End safeguards.

(** ** Concrete instances *)
Section mcp_witnesses.
#[local] Instance demo_m_chrono : Chrono := plain_chrono.
#[local] Instance demo_m_json : PgJson := plain_json.
#[local] Instance demo_m_text : TextLib := plain_textlib.

Definition demo_m_env (t : Z) : mcp_env := {| me_now := λ _, t; me_uuid := "c1"; me_micros := t * micros_per_sec; me_clock := t |}.
Definition mcp_product : DocRow :=
  plain_row (VObject [("lifecycleStatus", VString "active"); ("priceCents", of_i64 300); ("stockQuantity", of_i64 9)]).
Definition mcp_order : DocRow := plain_row (VObject [("buyerId", VString "ann"); ("orderStatus", VString "delivered")]).
Definition mcp_db : store := {["orders" := {["o1" := mcp_order]}; "products" := {["p1" := mcp_product]}]}.
Definition mcp_start : McpState :=
  {| ms_db := mcp_db; ms_idempotency := tracker_new; ms_spend := spend_new 1000 1000 |}.
Definition cart : Value :=
  VObject [("idempotency_key", VString "k"); ("items", VArray [VObject [("product_id", VString "products:p1"); ("quantity", of_i64 2)]]);
           ("shipping_address", VObject [])].
Definition ordered (u : string) (t : Z) (st : McpState) : McpState * McpResult Value :=
  create_checkout map_to_list (demo_m_env t) u cart st.

(** The key of a request is not bound to its user: who sends the same key is given
    the checkout of somebody else. *)
Example key_shared_between_users :
  (ordered "bob" 200 (ordered "ann" 100 mcp_start).1).2 = (ordered "ann" 100 mcp_start).2
  ∧ is_ok (ordered "ann" 100 mcp_start).2 = true.
Proof. by vm_compute. Qed.
(** The limit is checked and the amount recorded under separate locks: two checkouts
    at the same time both pass a limit that allows one. *)
Example racing_checks :
  let l := spend_new 1000 1000 in
  let '(l, r1) := spend_check map_to_list 100 100 "ann" 600 l in
  let '(l, r2) := spend_check map_to_list 100 100 "ann" 600 l in
  is_ok r1 = true ∧ is_ok r2 = true
  ∧ amount_of (default [] (user_spend (spend_record 100 "ann" 600 (spend_record 100 "ann" 600 l)) !! "ann")) = 1200%N.
Proof. by vm_compute. Qed.
(** A return is stored under an id with the prefix of its collection, under which
    nothing is looked up: the id that is reported names no return. *)
Example reported_return_missing :
  let '(s, r) := request_return (demo_m_env 100) "ann" (VObject [("order_id", VString "orders:o1"); ("reason", VString "broken")]) mcp_db in
  match r with
  | Ok v => is_ok (get_document "return_requests" (str_field v "return_id") s).2
            || is_ok (get_document "return_requests" ("return_requests:" +:+ str_field v "return_id") s).2
  | _ => true
  end = false.
Proof. by vm_compute. Qed.

Definition demo_attempts : list attempt :=
  [{| at_user := "ann"; at_cents := 600; at_cleanup := 100; at_check := 100; at_record := 101 |};
   {| at_user := "ann"; at_cents := 600; at_cleanup := 102; at_check := 102; at_record := 103 |}].
Example second_attempt_refused : run_attempts map_to_list demo_attempts (spend_new 1000 1000) = [("ann", (600%N, 101%Z))].
Proof. by vm_compute. Qed.
Lemma spend_bounded_witness :
  (spent_within "ann" 200 (run_attempts map_to_list demo_attempts (spend_new 1000 1000)) ≤ 1000)%N.
Proof.
  apply (spend_bounded map_to_list 1000 1000 demo_attempts 0); [done|done|by cbn; lia|].
  by vm_compute.
Defined.

Lemma checkout_replayed_witness :
  let st1 := (ordered "ann" 100 mcp_start).1 in
  ∃ t, create_checkout map_to_list (demo_m_env 300) "ann" cart st1
       = ({| ms_db := ms_db st1; ms_idempotency := t; ms_spend := ms_spend st1 |},
          Ok (VObject [("checkout_id", VString "c1"); ("expires_at", of_i64 1900); ("total_cents", of_i64 600); ("user_id", VString "ann")])).
Proof.
  apply (checkout_replayed map_to_list (demo_m_env 100) "ann" cart mcp_start (ordered "ann" 100 mcp_start).1 _ "k" [] 0 (demo_m_env 300) "ann" cart);
    [evaluates|evaluates|reflexivity|lia|intros k; cbn; unfold IDEMPOTENCY_TTL_SECS; lia|by apply Forall_nil
    |intros k; cbn; unfold IDEMPOTENCY_TTL_SECS; lia|by vm_compute|reflexivity..].
Defined.
End mcp_witnesses.
