(* ===== verification/Cron.v ===== *)
(** * The scheduled jobs

    crates/ob-handlers/src/cron/mod.rs: jobs that run by the clock under a lock kept
    in the database.  They record the payouts of delivered orders, give up orders that
    were never paid, archive, clean up and reconcile.

    A job reads the rows of a query with a limit and then writes them one by one,
    going on after errors.  Times are stored and compared as text: the order of texts
    is the collation of the database, a parameter.  Every reading of a clock is named
    by its place, a list of numbers that says in which round of which loop it is. *)

From S2P Require Export Ratings.

Create HintDb cron.

(** The order of texts in the database. *)
Class Collation := { text_compare : string → string → comparison }.
Definition text_leb `{Collation} (a b : string) : bool := match text_compare a b with Gt => false | _ => true end.
Definition text_ltb `{Collation} (a b : string) : bool := match text_compare a b with Lt => true | _ => false end.
(** The collation "C". *)
Definition byte_collation : Collation := {| text_compare := String.compare |}.

Definition AUTHORIZATION_EXPIRY_DAYS : Z := 6.
Definition AUTO_ARCHIVE_DAYS : Z := 30.
Definition RATE_LIMIT_STALE_HOURS : Z := 2.
Definition WEBHOOK_EVENT_RETENTION_DAYS : Z := 7.
Definition SECURITY_ALERT_ARCHIVE_DAYS : Z := 90.
Definition RETURN_ESCALATION_DAYS : Z := 7.
Definition MEILISEARCH_DLQ_MAX_RETRIES : N := 3.

Definition minutes (n : Z) : Z := (n * 60 * micros_per_sec)%Z.
Definition hours (n : Z) : Z := minutes (n * 60).
Definition days (n : Z) : Z := hours (n * 24).

Record cron_env : Type := {
  ce_now : list nat → Z;             (** [Utc::now()], at each reading *)
  ce_clock : list nat → Z;           (** the database's clock at each write *)
  ce_fresh : list nat → string;      (** the id of a new document *)
  ce_stripe_key : option string;
}.

(** The part after the first colon, if there is one. *)
Definition normalize_record_id (raw_id : string) : string :=
  match split_once ":" raw_id with Some (_, r) => r | None => raw_id end.
(** [order[field]]: null when the field is missing. *)
Definition field_or_null (field : string) (v : Value) : Value := default VNull (get field v).

Section cron.
Context `{C : Chrono} `{P : PgJson} `{T : TextLib} `{L : Collation}.
Context (scan : rows → list (string * DocRow)).

(** ** Statements *)

(** [SELECT * FROM table WHERE p LIMIT n]. *)
Definition selected (n : nat) (p : DocRow → bool) (rs : rows) : list (string * DocRow) :=
  take n (filter (λ kr, p kr.2 = true) (scan rs)).
Definition select_limit (n : nat) (table : string) (p : DocRow → bool) : handler (list Value) := λ s,
  let s := (ensure_table table s).1 in
  (s, Ok ((λ kr : string * DocRow, row_to_doc kr.1 kr.2) <$> selected n p (table_rows s table))).

(** [data->>'field' IN (..)], [<= $cutoff] and [< $cutoff]; NULL satisfies none. *)
Definition text_in (field : string) (values : list string) (row : DocRow) : bool :=
  match field_text field (row_data row) with Some t => bool_decide (t ∈ values) | None => false end.
Definition text_upto (field cutoff : string) (row : DocRow) : bool :=
  match field_text field (row_data row) with Some t => text_leb t cutoff | None => false end.
Definition text_before (field cutoff : string) (row : DocRow) : bool :=
  match field_text field (row_data row) with Some t => text_ltb t cutoff | None => false end.

(** The rounds of a loop, numbered. *)
Fixpoint each_from {A} (i : nat) (body : nat → A → handler unit) (l : list A) : handler unit :=
  match l with
  | [] => pure (Ok tt)
  | x :: l => _ ← body i x; each_from (S i) body l
  end.
Abbreviation each := (each_from 0).

(** ** The lock *)

Definition lock_held (cutoff : Z) (doc : Value) : bool :=
  match (get "lockedAt" doc ≫= as_str) ≫= parse_rfc3339 with
  | Some ts => (cutoff <? ts)%Z && bool_decide (get "status" doc ≫= as_str = Some "running")
  | None => false
  end.
Definition lock_data (job_name : string) (now : Z) : Value :=
  VObject [("lockedAt", VString (to_rfc3339 now)); ("lockedBy", VString ("cron_" +:+ job_name)); ("status", VString "running")].
Definition succeeded {A} (op : store → store * Result A) : handler bool := λ s,
  match op s with (s, Ok _) => (s, Ok true) | (s, Err _) => (s, Ok false) | (s, Panic) => (s, Panic) end.
Definition acquire_cron_lock (e : cron_env) (job_name : string) (ttl_minutes : Z) : handler bool :=
  let now := ce_now e [] in
  doc ← attempt (get_document "_cron_locks" job_name);
  if match doc with Some doc => lock_held (now - minutes ttl_minutes) doc | None => false end then pure (Ok false)
  else succeeded (upsert_document "_cron_locks" job_name (lock_data job_name now) (ce_clock e [])).
Definition release_cron_lock (e : cron_env) (job_name : string) : handler unit :=
  ignored (update_document "_cron_locks" job_name
    (VObject [("completedAt", VString (to_rfc3339 (ce_now e [9%nat]))); ("status", VString "completed")]) (ce_clock e [9%nat])).
Definition alert_cron_failure (e : cron_env) (job_name error_msg : string) : handler unit :=
  msg ← pure (slice_to (Nat.min (String.length error_msg) 2000) error_msg);
  ignored (create_document "_cron_failures"
    (VObject [("createdAt", VString (to_rfc3339 (ce_now e [8%nat]))); ("errorMessage", VString msg); ("jobName", VString job_name)])
    (ce_fresh e [8%nat]) (ce_clock e [8%nat])).
(** What every job does after and around its work. *)
Definition finish (e : cron_env) (job_name : string) (work : handler unit) : handler unit := λ s,
  match work s with
  | (s, Ok _) => release_cron_lock e job_name s
  | (s, Err err) => (_ ← alert_cron_failure e job_name (error_to_string err); release_cron_lock e job_name) s
  | (s, Panic) => (s, Panic)
  end.
Definition locked (e : cron_env) (job_name : string) (ttl_minutes : Z) (work : handler unit) : handler unit :=
  obtained ← acquire_cron_lock e job_name ttl_minutes;
  if obtained : bool then finish e job_name work else pure (Ok tt).

(** ** Payouts *)

Definition stripe_provider_enabled : handler bool :=
  doc ← attempt (get_document "config" "payment_providers");
  pure (Ok (match doc with
            | None => true
            | Some doc =>
                let provider := providers ← (get "providers" doc ≫= as_array);
                                snd <$> list_find (λ p, get "name" p ≫= as_str = Some "stripe") providers in
                default true ((provider ≫= get "enabled") ≫= as_bool)
            end)).

Definition payable (cutoff : string) (row : DocRow) : bool :=
  text_in "orderStatus" [order_status_str Order.Delivered] row
  && text_in "paymentStatus" [payment_status_str Payment.Captured; payment_status_str Payment.Authorized] row
  && text_upto "deliveredAt" cutoff row.
Definition disputed (order_id : string) (row : DocRow) : bool :=
  text_in "type" ["dispute_created"] row && text_in "resolved" ["false"] row && text_in "orderId" [order_id] row.
Definition being_returned (order_id : string) (row : DocRow) : bool :=
  text_in "orderId" [order_id] row
  && text_in "returnStatus" ["requested"; "approved"; "label_issued"; "received"; "escalated"] row.

(** What each seller is owed for the items delivered; [i64] wraps around. *)
Definition add_item (m : gmap string Z) (item : Value) : gmap string Z :=
  if negb (str_field item "status" =s? "delivered") then m
  else let seller_id := str_field item "sellerId" in
       <[seller_id := i64_add (default 0%Z (m !! seller_id)) (i64_mul (cents item "priceCents") (quantity_of item))]> m.
Definition sellers_total_cents (items : list Value) : gmap string Z := foldl add_item ∅ items.
Definition fee_cents (amount_cents platform_fee_total order_subtotal : Z) : Z :=
  (i64_add (i64_mul amount_cents platform_fee_total) (order_subtotal `quot` 2) `quot` order_subtotal)%Z.
Definition payout_doc (payout_id order_id seller_id payout_date created_at : string) (amount fee : Z) : Value :=
  VObject [("amountCents", of_i64 amount); ("autoCaptured", VBool true); ("createdAt", VString created_at);
           ("id", VString payout_id); ("netAmountCents", of_i64 (i64_sub amount fee)); ("orderId", VString order_id);
           ("payoutDate", VString payout_date); ("platformFeeTotalCents", of_i64 fee); ("sellerId", VString seller_id);
           ("status", VString "completed")].
Definition payout_id (order_id seller_id : string) : string := order_id +:+ "_" +:+ seller_id.

(** The order in which a [HashMap] is traversed. *)
Context (traverse : gmap string Z → list (string * Z)).

(** One record for each seller: how many were written. *)
Fixpoint write_payouts (e : cron_env) (i j : nat) (order_id : string) (fee_total subtotal : Z) (l : list (string * Z)) : handler nat :=
  match l with
  | [] => pure (Ok 0)
  | (seller_id, amount) :: l =>
      ok ← succeeded (upsert_document "payouts" (payout_id order_id seller_id)
             (payout_doc (payout_id order_id seller_id) order_id seller_id (to_rfc3339 (ce_now e [1; i; 2; j]))
                (to_rfc3339 (ce_now e [1; i; 3; j])) amount (fee_cents amount fee_total subtotal)) (ce_clock e [1; i; 2; j]));
      n ← write_payouts e i (S j) order_id fee_total subtotal l;
      pure (Ok (if ok : bool then S n else n))
  end%nat.
Definition final_status (expected success_count : nat) : string :=
  if (success_count =? expected)%nat && (0 <? success_count)%nat then "completed"
  else if (0 <? success_count)%nat then "partial" else "failed".
Definition payout_status_doc (status : string) (now : Z) : Value :=
  VObject [("payoutStatus", VString status); ("updatedAt", VString (to_rfc3339 now))].
Definition pay_out (e : cron_env) (i : nat) (order_id : string) (order : Value) : handler unit :=
  _ ← ignored (update_document "orders" order_id (payout_status_doc "processing" (ce_now e [1%nat; i; 0%nat])) (ce_clock e [1%nat; i; 0%nat]));
  let sellers := sellers_total_cents (items_array order) in
  success_count ← write_payouts e i 0 order_id (cents order "platformFeeTotalCents") (Z.max 1 (cents order "subtotalCents")) (traverse sellers);
  ignored (update_document "orders" order_id
    (payout_status_doc (final_status (size sellers) success_count) (ce_now e [1%nat; i; 1%nat])) (ce_clock e [1%nat; i; 1%nat])).
Definition consider_payout (e : cron_env) (i : nat) (order : Value) : handler unit :=
  let order_id := normalize_record_id (str_field order "id") in
  if str_empty (str_field order "paymentIntentId") then pure (Ok tt)
  else
    disputes ← select_limit 1 "security_alerts" (disputed order_id);
    if negb (bool_decide (disputes = [])) then pure (Ok tt)
    else
      returns ← select_limit 1 "return_requests" (being_returned order_id);
      if negb (bool_decide (returns = [])) then pure (Ok tt) else pay_out e i order_id order.
Definition payout_cutoff (e : cron_env) : string := to_rfc3339 (ce_now e [0%nat] - days AUTHORIZATION_EXPIRY_DAYS).
Definition run_auto_capture (e : cron_env) : handler unit :=
  enabled ← stripe_provider_enabled;
  if negb enabled then pure (Ok tt)
  else orders ← select_limit 250 "orders" (payable (payout_cutoff e));
       each (consider_payout e) orders.
Definition auto_capture_confirmed_receipts (e : cron_env) : handler unit :=
  locked e "auto_capture_confirmed_receipts" 30 (run_auto_capture e).

(** ** Orders that were never paid *)

Definition expirable (cutoff : string) (row : DocRow) : bool :=
  text_in "paymentStatus" ["authorized"; "awaiting_payment"] row
  && text_in "orderStatus" ["pending"; "confirmed"] row
  && text_upto "createdAt" cutoff row.
Definition expired_fields (now_str : string) : list (string * Value) :=
  [("cancellationReason", VString "authorization_expired"); ("orderStatus", VString "expired");
   ("paymentStatus", VString "cancelled"); ("stockRestored", VBool true); ("updatedAt", VString now_str)].

(** [UPDATE products SET data = jsonb_set(jsonb_set(data, '{stockQuantity}', ..),
    '{updatedAt}', ..) WHERE id = $product_id], on 32-bit integers. *)
Definition in_i32 (z : Z) : bool := (- 2 ^ 31 <=? z)%Z && (z <=? 2 ^ 31 - 1)%Z.
Definition stock_text (row : DocRow) : option Z :=
  match field_text "stockQuantity" (row_data row) with None => Some 0%Z | Some t => parse_i64 t end.
Definition added_stock (qty : Z) (row : DocRow) : option Z :=
  stock ← stock_text row;
  if in_i32 stock && in_i32 qty && in_i32 (stock + qty) then Some (stock + qty)%Z else None.
Definition add_stock (pid : string) (qty : Z) (updated_at : string) (now : Z) : handler unit := λ s,
  let s := (ensure_table "products" s).1 in
  match table_rows s "products" !! pid with
  | None => (s, Ok tt)
  | Some row =>
      match added_stock qty row, row_data row with
      | Some stock, VObject _ =>
          (<["products" := <[pid := merged_row (VObject [("stockQuantity", of_i64 stock); ("updatedAt", VString updated_at)]) now row]>
               (table_rows s "products")]> s, Ok tt)
      | _, _ => (s, Err (Database "Query failed"))
      end
  end.
Definition give_back (e : cron_env) (i : nat) (now_str : string) (j : nat) (item : Value) : handler unit :=
  if returns_stock item
  then ignored (add_stock (str_field item "productId") (quantity_of item) now_str (ce_clock e [1%nat; i; 2%nat; j]))
  else pure (Ok tt).

Context (stripe_cancels : string → cancel_reply).
Definition expiry_event (order : Value) (now_str : string) : Value :=
  VObject [("createdAt", VString now_str); ("eventType", VString "authorization_expired");
           ("message", VString "Payment authorization expired after 7 days. Order cancelled and stock restored.");
           ("orderId", VString (str_field order "id")); ("userId", VString (str_field order "userId"))].
(** Nothing hangs on the answer of Stripe. *)
Definition release_intent (e : cron_env) (order : Value) : handler unit :=
  if str_empty (str_field order "paymentIntentId") then pure (Ok tt)
  else ignored (pure (stripe_cancel_pi stripe_cancels (ce_stripe_key e) (str_field order "paymentIntentId"))).
Definition give_back_items (e : cron_env) (i : nat) (now_str : string) (order : Value) : handler unit :=
  if bool_field order "stockRestored" then pure (Ok tt) else each (give_back e i now_str) (items_array order).
Definition after_expiry (e : cron_env) (now_str : string) (i : nat) (order : Value) : handler unit :=
  _ ← release_intent e order;
  _ ← give_back_items e i now_str order;
  ignored (create_document "events" (expiry_event order now_str) (ce_fresh e [1%nat; i]) (ce_clock e [1%nat; i; 3%nat])).
Definition expire_order (e : cron_env) (now_str : string) (i : nat) (order : Value) : handler unit :=
  let order_id := normalize_record_id (str_field order "id") in
  updated ← attempt (update_document_cas "orders" order_id (VObject (expired_fields now_str)) "orderStatus"
                       (field_or_null "orderStatus" order) (ce_clock e [1%nat; i; 0%nat]));
  match updated with
  | Some (Some _) => after_expiry e now_str i order
  | _ => pure (Ok tt)
  end.
Definition expiry_cutoff (e : cron_env) : string := to_rfc3339 (ce_now e [0%nat] - days AUTHORIZATION_EXPIRY_DAYS).
Definition expire_orders (e : cron_env) : handler unit :=
  orders ← select_limit 100 "orders" (expirable (expiry_cutoff e));
  each (expire_order e (to_rfc3339 (ce_now e [1%nat]))) orders.
Definition check_expired_authorizations (e : cron_env) : handler unit :=
  locked e "check_expired_authorizations" 30 (expire_orders e).

(** ** Archiving and clean-up *)

Definition not_archived (row : DocRow) : bool :=
  match field_text "archived" (row_data row) with None => true | Some t => t =s? "false" end.
Definition archivable (cutoff : string) (row : DocRow) : bool :=
  text_in "orderStatus" ["delivered"; "cancelled"; "expired"; "failed"; "disputed"] row
  && text_upto "updatedAt" cutoff row && not_archived row.
Definition archived_fields (e : cron_env) (i : nat) : list (string * Value) :=
  [("archived", VBool true); ("archivedAt", VString (to_rfc3339 (ce_now e [1%nat; i; 0%nat])));
   ("updatedAt", VString (to_rfc3339 (ce_now e [1%nat; i; 1%nat])))].
Definition archive_order (e : cron_env) (i : nat) (order : Value) : handler unit :=
  ignored (update_document "orders" (str_field order "id") (VObject (archived_fields e i)) (ce_clock e [1%nat; i])).
Definition archive_orders (e : cron_env) : handler unit :=
  orders ← select_limit 200 "orders" (archivable (to_rfc3339 (ce_now e [0%nat] - days AUTO_ARCHIVE_DAYS)));
  each (archive_order e) orders.
Definition auto_archive_old_orders (e : cron_env) : handler unit :=
  locked e "auto_archive_old_orders" 30 (archive_orders e).

Definition delete_doc (table : string) (_ : nat) (doc : Value) : handler unit :=
  let id := str_field doc "id" in
  if str_empty id then pure (Ok tt) else ignored (delete_document table id).
(** The three clean-ups differ in the table and in what is stale. *)
Definition clean_up (table : string) (stale : DocRow → bool) : handler unit :=
  docs ← select_limit 500 table stale; each (delete_doc table) docs.
Definition cleanup_stale_rate_limits (e : cron_env) : handler unit :=
  locked e "cleanup_stale_rate_limits" 35
    (clean_up "rate_limits" (text_upto "lastRequest" (to_rfc3339 (ce_now e [0%nat] - hours RATE_LIMIT_STALE_HOURS)))).
Definition cleanup_stale_webhook_events (e : cron_env) : handler unit :=
  locked e "cleanup_stale_webhook_events" 30
    (clean_up "webhook_events" (text_upto "timestamp" (to_rfc3339 (ce_now e [0%nat] - days WEBHOOK_EVENT_RETENTION_DAYS)))).
Definition stale_alert (cutoff : string) (row : DocRow) : bool :=
  text_in "resolved" ["true"] row && text_upto "timestamp" cutoff row.
Definition cleanup_stale_security_alerts (e : cron_env) : handler unit :=
  locked e "cleanup_stale_security_alerts" 30
    (clean_up "security_alerts" (stale_alert (to_rfc3339 (ce_now e [0%nat] - days SECURITY_ALERT_ARCHIVE_DAYS)))).

(** ** The search index, subscriptions and returns *)

Definition resolve_failure (e : cron_env) (i : nat) (failure_id : string) (fields : list (string * Value)) : handler unit :=
  ignored (update_document "meilisearch_sync_failures" failure_id (VObject fields) (ce_clock e [1%nat; i])).
Definition retry_failure (e : cron_env) (i : nat) (failure : Value) : handler unit :=
  let failure_id := str_field failure "id" in
  let product_id := str_field failure "productId" in
  let retry_count := (default 0 (get "retryCount" failure ≫= as_u64) `mod` 2 ^ 32)%N in
  let now := ("updatedAt", VString (to_rfc3339 (ce_now e [1%nat; i]))) in
  if str_empty product_id then resolve_failure e i failure_id [("resolved", VBool true)]
  else if (MEILISEARCH_DLQ_MAX_RETRIES <=? retry_count)%N
  then resolve_failure e i failure_id [("maxRetriesExceeded", VBool true); ("resolved", VBool true); now]
  else _ ← attempt (get_document "products" product_id); resolve_failure e i failure_id [("resolved", VBool true); now].
Definition retry_failures (e : cron_env) : handler unit :=
  failures ← select_limit 50 "meilisearch_sync_failures" (text_in "resolved" ["false"]);
  each (retry_failure e) failures.
Definition retry_failed_meilisearch_syncs (e : cron_env) : handler unit :=
  locked e "retry_failed_meilisearch_syncs" 30 (retry_failures e).

Definition lapsed (now : string) (row : DocRow) : bool :=
  text_before "currentPeriodEnd" now row && text_in "status" ["active"; "past_due"] row.
Definition expire_subscription (e : cron_env) (now : string) (i : nat) (sub : Value) : handler unit :=
  let uid := normalize_record_id (str_field sub "id") in
  if str_empty uid then pure (Ok tt)
  else
    _ ← ignored (update_document "subscriptions" uid (VObject [("status", VString "expired"); ("updatedAt", VString now)])
                   (ce_clock e [1%nat; i; 0%nat]));
    ignored (update_document "users" uid
      (VObject [("isPremium", VBool false); ("premiumExpiresAt", VNull); ("premiumSince", VNull);
                ("stripeSubscriptionId", VNull); ("updatedAt", VString now)]) (ce_clock e [1%nat; i; 1%nat])).
Definition expire_subscriptions (e : cron_env) : handler unit :=
  let now := to_rfc3339 (ce_now e [0%nat]) in
  subs ← select_limit 50 "subscriptions" (lapsed now); each (expire_subscription e now) subs.
Definition sync_expired_subscriptions (e : cron_env) : handler unit :=
  locked e "sync_expired_subscriptions" 30 (expire_subscriptions e).

Definition overdue (cutoff : string) (row : DocRow) : bool :=
  text_in "returnStatus" ["requested"] row && text_before "requestedAt" cutoff row.
Definition escalated_fields (now : string) : list (string * Value) :=
  [("escalatedAt", VString now); ("escalationReason", VString ("No seller response after " +:+ pretty RETURN_ESCALATION_DAYS +:+ " days"));
   ("returnStatus", VString "escalated"); ("updatedAt", VString now)].
Definition escalate_return (e : cron_env) (now : string) (i : nat) (ret : Value) : handler unit :=
  ignored (update_document "return_requests" (str_field ret "id") (VObject (escalated_fields now)) (ce_clock e [1%nat; i])).
Definition escalate_returns (e : cron_env) : handler unit :=
  returns ← select_limit 200 "return_requests" (overdue (to_rfc3339 (ce_now e [0%nat] - days RETURN_ESCALATION_DAYS)));
  each (escalate_return e (to_rfc3339 (ce_now e [0%nat]))) returns.
Definition escalate_stale_return_requests (e : cron_env) : handler unit :=
  locked e "escalate_stale_return_requests" 30 (escalate_returns e).

(** ** Any sequence of jobs *)

Inductive job : Type :=
| AutoCapture | ExpiredAuthorizations | ArchiveOrders | CleanRateLimits | CleanWebhookEvents | CleanSecurityAlerts
| RetrySyncs | SyncSubscriptions | EscalateReturns.
Definition run_job (j : job) (e : cron_env) : handler unit :=
  match j with
  | AutoCapture => auto_capture_confirmed_receipts e
  | ExpiredAuthorizations => check_expired_authorizations e
  | ArchiveOrders => auto_archive_old_orders e
  | CleanRateLimits => cleanup_stale_rate_limits e
  | CleanWebhookEvents => cleanup_stale_webhook_events e
  | CleanSecurityAlerts => cleanup_stale_security_alerts e
  | RetrySyncs => retry_failed_meilisearch_syncs e
  | SyncSubscriptions => sync_expired_subscriptions e
  | EscalateReturns => escalate_stale_return_requests e
  end.
Definition run_jobs (jobs : list (job * cron_env)) (s : store) : store :=
  foldl (λ s je, (run_job je.1 je.2 s).1) s jobs.
End cron.

(** ** Runs of a job *)

(** [m] never fails. *)
Definition calm {A} (m : handler A) : Prop := ∀ s, is_ok (m s).2 = true.
Lemma calm_pure {A} (a : A) : calm (pure (Ok a)).
Proof. done. Qed.
Lemma calm_bind {A B} (m : handler A) (k : A → handler B) : calm m → (∀ a, calm (k a)) → calm (m ≫= k).
Proof. intros Hm Hk s. specialize (Hm s). unfold mbind, handler_bind. destruct (m s) as [s1 [a|err|]]; [apply Hk|done..]. Qed.
Lemma calm_each {A} i (body : nat → A → handler unit) l : (∀ i x, calm (body i x)) → calm (each_from i body l).
Proof. intros Hb. revert i. induction l as [|x l IH]; intros i; [done|]. apply calm_bind; [apply Hb|intros _; apply IH]. Qed.
Lemma calm_run {A} (m : handler A) s : calm m → ∃ a, m s = ((m s).1, Ok a).
Proof. intros Hm. specialize (Hm s). destruct (m s) as [s1 [a|err|]]; [by exists a|done..]. Qed.

(** An operation that panics at no state, with its outcome dropped or recorded. *)
Definition orderly {A} (op : store → store * Result A) : Prop := ∀ s, (op s).2 ≠ Panic.
Lemma calm_ignored {A} (op : store → store * Result A) : orderly op → calm (ignored op).
Proof. intros Ho s. specialize (Ho s). unfold ignored. by destruct (op s) as [s1 [a|err|]]. Qed.
Lemma calm_attempt {A} (op : store → store * Result A) : orderly op → calm (attempt op).
Proof. intros Ho s. specialize (Ho s). unfold attempt. by destruct (op s) as [s1 [a|err|]]. Qed.
Lemma calm_succeeded {A} (op : store → store * Result A) : orderly op → calm (succeeded op).
Proof. intros Ho s. specialize (Ho s). unfold succeeded. by destruct (op s) as [s1 [a|err|]]. Qed.
Lemma keeps_succeeded {A} c (op : store → store * Result A) : keeps c (db op) → keeps c (succeeded op).
Proof. intros H s. specialize (H s). unfold succeeded, db in *. by destruct (op s) as [s' [a|e|]]. Qed.

Lemma each_inv {A} (I : store → Prop) i (body : nat → A → handler unit) l s :
  (∀ i x s, x ∈ l → I s → I (body i x s).1) → I s → I (each_from i body l s).1.
Proof.
  revert i s. induction l as [|x l IH]; intros i s Hb Hs; [done|]. cbn [each_from]. unfold mbind, handler_bind.
  pose proof (Hb i x s (list_elem_of_here _ _) Hs) as H1. destruct (body i x s) as [s1 [[]|err|]]; cbn [fst] in *; [|done..].
  apply IH; [|done]. intros. apply Hb; [by right|done].
Qed.
Lemma keeps_each {A} c i (body : nat → A → handler unit) l : (∀ i x, keeps c (body i x)) → keeps c (each_from i body l).
Proof. intros Hb s. apply (each_inv (λ s', table_rows s' c = table_rows s c)); [|done]. intros j x s' _ <-. apply Hb. Qed.
Lemma each_cons {A} i (body : nat → A → handler unit) x l s :
  calm (body i x) → each_from i body (x :: l) s = each_from (S i) body l (body i x s).1.
Proof. intros Hc. destruct (calm_run _ s Hc) as [[] Hr]. cbn [each_from]. by rewrite (bind_run _ _ _ _ _ Hr). Qed.

Section orderly.
Context `{C : Chrono} `{P : PgJson}.
Lemma orderly_valid {A} c (k : string → store → store * Result A) :
  is_ok (validate_identifier c) = true → (∀ s, (k c s).2 ≠ Panic) → orderly (λ s, with_table c s k).
Proof. intros Hv Hk s. by rewrite with_table_valid. Qed.
Lemma orderly_get c id : is_ok (validate_identifier c) = true → orderly (get_document c id).
Proof. intros Hv. apply orderly_valid; [done|]. intros s. cbv zeta. by case_match. Qed.
Lemma orderly_create c data fresh now : is_ok (validate_identifier c) = true → orderly (create_document c data fresh now).
Proof. intros Hv. apply orderly_valid; [done|]. intros s. cbv zeta. by case_match. Qed.
Lemma orderly_update c id data now : is_ok (validate_identifier c) = true → orderly (update_document c id data now).
Proof. intros Hv. apply orderly_valid; [done|]. intros s. cbv zeta. by case_match. Qed.
Lemma orderly_upsert c id data now : is_ok (validate_identifier c) = true → orderly (upsert_document c id data now).
Proof. intros Hv. by apply orderly_valid. Qed.
Lemma orderly_delete c id : is_ok (validate_identifier c) = true → orderly (delete_document c id).
Proof. intros Hv. apply orderly_valid; [done|]. intros s. cbv zeta. by case_match. Qed.
Lemma orderly_cas c id data field expected now :
  is_ok (validate_identifier c) = true → orderly (update_document_cas c id data field expected now).
Proof. intros Hv. apply orderly_valid; [done|]. intros s. cbv zeta. repeat case_match; done. Qed.
Lemma orderly_pure {A} (r : Result A) : r ≠ Panic → orderly (pure r).
Proof. by intros Hr s. Qed.
Lemma orderly_calm {A} (m : handler A) : calm m → orderly m.
Proof. intros Hc s. specialize (Hc s). by destruct (m s) as [s1 [a|err|]]. Qed.
End orderly.
#[export] Hint Resolve calm_pure calm_ignored calm_attempt calm_succeeded orderly_get orderly_create orderly_update
  orderly_upsert orderly_delete orderly_cas : cron.

(** ** Ids *)

(** An id without colon and underscore, as the ids of orders are (UUIDs). *)
Definition plain_char (c : ascii) : bool := negb (Ascii.eqb c ":") && negb (Ascii.eqb c "_").
Definition plain_id : string → bool := str_forall plain_char.

Lemma plain_split id : plain_id id = true → split_once ":" id = None.
Proof.
  induction id as [|c id IH]; [done|]. unfold plain_id. cbn [str_forall split_once]. intros H. unfold plain_char in H. bools.
  rewrite H. by rewrite IH.
Qed.
Lemma plain_normal id : plain_id id = true → normalize_record_id id = id.
Proof. intros H. unfold normalize_record_id. by rewrite plain_split. Qed.
Lemma plain_prefix c id rest :
  plain_id c = true → plain_id id = true → rest = "" ∨ (∃ x, rest = "_" +:+ x) → strip_prefix (c +:+ ":") (id +:+ rest) = None.
Proof.
  unfold plain_id, plain_char. intros Hc Hid Hrest. revert id Hid. induction c as [|a c IH]; intros id Hid.
  - destruct id as [|b id]; [by destruct Hrest as [-> |[x ->]]|]. cbn [str_forall] in Hid. bools. change (String b id +:+ rest) with (String b (id +:+ rest)).
    change ("" +:+ ":") with ":". cbn [strip_prefix]. rewrite Ascii.eqb_sym. by rewrite H.
  - cbn [str_forall] in Hc. bools. destruct id as [|b id].
    + destruct Hrest as [-> |[x ->]]; [done|]. change (strip_prefix _ _) with (if Ascii.eqb a "_" then strip_prefix (c +:+ ":") x else None). by rewrite H1.
    + cbn [str_forall] in Hid. bools. change (strip_prefix _ _) with (if Ascii.eqb a b then strip_prefix (c +:+ ":") (id +:+ rest) else None).
      destruct (Ascii.eqb a b); [|done]. by apply IH.
Qed.
Lemma plain_bare c id : plain_id c = true → plain_id id = true → bare_id c id = id.
Proof. intros Hc Hid. apply bare_id_plain. rewrite <- (str_app_nil_r id) at 1. by apply plain_prefix; [..|left]. Qed.
Lemma bare_payout id seller : plain_id id = true → bare_id "payouts" (payout_id id seller) = payout_id id seller.
Proof. intros Hid. apply bare_id_plain. unfold payout_id. apply plain_prefix; [done|done|]. right. by exists seller. Qed.
Lemma payout_id_inj id seller id' seller' :
  plain_id id = true → plain_id id' = true → payout_id id seller = payout_id id' seller' → id = id' ∧ seller = seller'.
Proof.
  unfold payout_id, plain_id, plain_char. intros Hid. revert id'. induction id as [|a id IH]; intros [|b id'] Hid'; cbn [str_forall] in *.
  - intros Heq. change (String "_" seller = String "_" seller') in Heq. by injection Heq as ->.
  - intros Heq. change (String "_" seller = String b (id' +:+ "_" +:+ seller')) in Heq. by injection Heq as <- _.
  - intros Heq. change (String a (id +:+ "_" +:+ seller) = String "_" seller') in Heq. by injection Heq as -> _.
  - bools. intros Heq. change (String a (id +:+ "_" +:+ seller) = String b (id' +:+ "_" +:+ seller')) in Heq.
    injection Heq as -> Heq. apply IH in Heq as [-> ->]; done.
Qed.

(** ** What jobs do to orders *)
Section orders.
Context `{C : Chrono} `{P : PgJson} `{T : TextLib} `{L : Collation}.
Context (scan : rows → list (string * DocRow)) (scan_rows : ∀ rs, scan rs ≡ₚ map_to_list rs).
Context (traverse : gmap string Z → list (string * Z)) (stripe_cancels : string → cancel_reply).

Lemma selected_in n p rs id row : (id, row) ∈ selected scan n p rs → rs !! id = Some row ∧ p row = true.
Proof.
  unfold selected. intros Hin. apply elem_of_take in Hin as (k & Hin & _). apply list_elem_of_lookup_2 in Hin.
  apply list_elem_of_filter in Hin as [Hp Hin]. rewrite scan_rows in Hin. by apply elem_of_map_to_list in Hin.
Qed.
Lemma select_run n table p s :
  select_limit scan n table p s
  = ((ensure_table table s).1, Ok ((λ kr : string * DocRow, row_to_doc kr.1 kr.2) <$> selected scan n p (table_rows s table))).
Proof. unfold select_limit. cbv zeta. by rewrite keeps_ensure_first. Qed.
Lemma keeps_select_limit c n table p : keeps c (select_limit scan n table p).
Proof. intros s. apply keeps_ensure_first. Qed.
Lemma text_in_object field values row : text_in field values row = true → ∃ m, row_data row = VObject m.
Proof.
  unfold text_in, field_text. destruct (get field (row_data row)) as [v|] eqn:E; [|done]. intros _. by eapply object_of_get.
Qed.

(** The fields a job writes to an order. *)
Inductive cron_fields (row : DocRow) : list (string * Value) → Prop :=
| payout_fields status now : cron_fields row [("payoutStatus", VString status); ("updatedAt", VString now)]
| expiry_fields now : status_text row ∈ ["pending"; "confirmed"] → cron_fields row (expired_fields now)
| archive_fields e i : cron_fields row (archived_fields e i).
Definition cron_write (row row' : DocRow) : Prop :=
  ∃ fields now m, row_data row = VObject m ∧ cron_fields row fields ∧ row' = merged_row (VObject fields) now row.
Definition cron_evolves (s s' : store) : Prop :=
  ∀ id, option_Forall2 (rtc cron_write) (orders_of s !! id) (orders_of s' !! id).
Definition uuid_orders (s : store) : Prop := ∀ id, is_Some (orders_of s !! id) → plain_id id = true.

Global Instance cron_evolves_preorder : PreOrder cron_evolves.
Proof.
  split.
  - intros s id. destruct (orders_of s !! id); by constructor.
  - intros s1 s2 s3 H1 H2 id. specialize (H1 id). specialize (H2 id).
    destruct (orders_of s1 !! id), (orders_of s2 !! id), (orders_of s3 !! id); inversion H1; inversion H2;
      constructor; by etrans.
Qed.
Lemma cron_evolves_plain s s' : cron_evolves s s' → uuid_orders s → uuid_orders s'.
Proof. intros H1 Hp id [row Hrow]. apply Hp. specialize (H1 id). rewrite Hrow in H1. inversion H1. eauto. Qed.
Lemma cron_evolves_same s s1 s2 : orders_of s2 = orders_of s1 → cron_evolves s s1 → cron_evolves s s2.
Proof. intros He Hs id. rewrite He. apply Hs. Qed.
Lemma cron_keeps {A} (m : handler A) s s1 : keeps "orders" m → cron_evolves s s1 → cron_evolves s (m s1).1.
Proof. intros Hk. apply cron_evolves_same. apply Hk. Qed.
Lemma cron_write_object row row' m : row_data row = VObject m → rtc cron_write row row' → ∃ m', row_data row' = VObject m'.
Proof.
  intros Hm Hw. revert m Hm. induction Hw as [|r1 r2 r3 (fields & now & m1 & Hm1 & _ & ->) _ IH]; intros m Hm; [by eexists|].
  eapply IH. cbn [row_data merged_row]. by rewrite Hm1.
Qed.
Lemma cron_evolves_insert s0 s s' id row fields now m :
  cron_evolves s0 s → orders_of s !! id = Some row → row_data row = VObject m → cron_fields row fields →
  orders_of s' = <[id := merged_row (VObject fields) now row]> (orders_of s) → cron_evolves s0 s'.
Proof.
  intros He Hrow Hm Hf Hs'. etrans; [exact He|]. intros id'. rewrite Hs'. destruct (decide (id = id')) as [<-|Hne].
  - rewrite lookup_insert_eq, Hrow. constructor. apply rtc_once. by exists fields, now, m.
  - rewrite lookup_insert_ne by done. destruct (orders_of s !! id'); by constructor.
Qed.

(** An order that was selected, later in the loop. *)
Lemma cron_later s s1 id row m :
  cron_evolves s s1 → orders_of s !! id = Some row → row_data row = VObject m →
  ∃ row1 m1, orders_of s1 !! id = Some row1 ∧ row_data row1 = VObject m1.
Proof.
  intros He Hrow Hm. specialize (He id). rewrite Hrow in He. inversion He as [? row1 Hw Heq1 Heq2|]; subst.
  destruct (cron_write_object _ _ _ Hm Hw) as [m1 Hm1]. by exists row1, m1.
Qed.
Lemma cron_update s0 s id row m fields now :
  cron_evolves s0 s → orders_of s0 !! id = Some row → row_data row = VObject m → plain_id id = true →
  (∀ row, cron_fields row fields) → cron_evolves s0 (ignored (update_document "orders" id (VObject fields) now) s).1.
Proof.
  intros He Hrow Hm Hid Hf. destruct (cron_later _ _ _ _ _ He Hrow Hm) as (row1 & m1 & Hrow1 & Hm1).
  eapply cron_evolves_insert; [exact He|exact Hrow1|exact Hm1|apply Hf|].
  pose proof (update_rows "orders" id (VObject fields) now s) as Hu. rewrite (plain_bare "orders" id eq_refl Hid) in Hu.
  unfold orders_of in *. rewrite Hrow1 in Hu. change (is_ok (validate_identifier "orders")) with true in Hu. cbn iota in Hu. rewrite <- Hu. unfold ignored.
  by destruct (update_document _ _ _ _ s) as [s2 [v|err|]].
Qed.
Lemma doc_str_id id row m : row_data row = VObject m → str_field (row_to_doc id row) "id" = id.
Proof. intros Hm. unfold str_field. by rewrite (doc_id _ _ _ Hm). Qed.
Lemma cron_loop (body : nat → Value → handler unit) n p s :
  uuid_orders s →
  (∀ i s1 id row m, cron_evolves s s1 → orders_of s !! id = Some row → row_data row = VObject m → p row = true →
     plain_id id = true → cron_evolves s (body i (row_to_doc id row) s1).1) →
  (∀ row, p row = true → ∃ m, row_data row = VObject m) →
  cron_evolves s ((docs ← select_limit scan n "orders" p; each_from 0 body docs) s).1.
Proof.
  intros Hs Hb Hp. rewrite (bind_run _ _ _ _ _ (select_run n "orders" p s)).
  apply (each_inv (cron_evolves s)); [|by apply cron_evolves_same with s; [apply keeps_ensure_first|]].
  intros i x s1 Hx He. apply list_elem_of_fmap in Hx as ([id row] & -> & Hx). apply selected_in in Hx as [Hrow Hpr].
  destruct (Hp row Hpr) as [m Hm]. cbn [fst snd]. eapply Hb; eauto.
Qed.

(** The jobs that write orders. *)
Lemma cron_archive e s : uuid_orders s → cron_evolves s (archive_orders scan e s).1.
Proof.
  intros Hs. apply cron_loop; [done| |].
  - intros i s1 id row m He Hrow Hm _ Hid. unfold archive_order. rewrite (doc_str_id _ _ _ Hm).
    eapply cron_update; eauto using archive_fields.
  - intros row Hp. unfold archivable in Hp. bools. by eapply text_in_object.
Qed.

Lemma keeps_write_payouts c e i j order_id fee sub l : "payouts" ≠ c → keeps c (write_payouts e i j order_id fee sub l).
Proof.
  intros Hc. revert j. induction l as [|[sid amount] l IH]; intros j; [apply keeps_pure|]. cbn [write_payouts].
  apply keeps_bind; [apply keeps_succeeded, keeps_upsert; done|]. intros ok. apply keeps_bind; [apply IH|]. intros. apply keeps_pure.
Qed.
Lemma keeps_provider c : keeps c stripe_provider_enabled.
Proof. unfold stripe_provider_enabled. keeping. Qed.

Lemma cron_bind {A} s s1 (m : handler A) (k : A → handler unit) :
  cron_evolves s (m s1).1 → (∀ a s2, m s1 = (s2, Ok a) → cron_evolves s s2 → cron_evolves s (k a s2).1) →
  cron_evolves s ((m ≫= k) s1).1.
Proof. intros Hm Hk. unfold mbind, handler_bind. destruct (m s1) as [s2 [a|err|]]; [by apply Hk|done..]. Qed.
Lemma cron_payout e s : uuid_orders s → cron_evolves s (run_auto_capture scan traverse e s).1.
Proof.
  intros Hs. unfold run_auto_capture. apply cron_bind; [by apply cron_keeps; [apply keeps_provider|]|].
  intros enabled s0 Hrun He0. destruct (negb enabled); [done|].
  assert (uuid_orders s0) as Hs0 by by eapply cron_evolves_plain. etrans; [exact He0|].
  apply cron_loop; [done| |].
  - intros i s1 id row m He Hrow Hm _ Hid. unfold consider_payout. rewrite (doc_str_id _ _ _ Hm), (plain_normal id Hid).
    destruct (str_empty _); [done|]. apply cron_bind; [by apply cron_keeps; [apply keeps_select_limit|]|].
    intros disputes s2 _ He2. destruct (negb _); [done|]. apply cron_bind; [by apply cron_keeps; [apply keeps_select_limit|]|].
    intros returns s3 _ He3. destruct (negb _); [done|]. unfold pay_out.
    apply cron_bind; [eapply cron_update; eauto using payout_fields|]. intros _ s4 _ He4. cbv zeta.
    apply cron_bind; [by apply cron_keeps; [apply keeps_write_payouts|]|]. intros count s5 _ He5.
    eapply cron_update; eauto using payout_fields.
  - intros row Hp. unfold payable in Hp. bools. by eapply text_in_object.
Qed.

Lemma keeps_add_stock c pid qty updated now : "products" ≠ c → keeps c (add_stock pid qty updated now).
Proof.
  intros Hc s. unfold add_stock. cbv zeta. repeat case_match; cbn [fst]; rewrite ?table_rows_insert_ne by done; apply keeps_ensure_first.
Qed.
Lemma keeps_give_back c e i now j item : "products" ≠ c → keeps c (give_back e i now j item).
Proof. intros Hc. unfold give_back. case_match; [by apply keeps_ignored, keeps_add_stock|apply keeps_pure]. Qed.
Lemma keeps_release_intent c e order : keeps c (release_intent stripe_cancels e order).
Proof. unfold release_intent. case_match; [apply keeps_pure|by apply keeps_ignored]. Qed.
Lemma keeps_after_expiry c e now i order :
  "products" ≠ c → "events" ≠ c → keeps c (after_expiry stripe_cancels e now i order).
Proof.
  intros H1 H2. unfold after_expiry. apply keeps_bind; [apply keeps_release_intent|]. intros _. unfold give_back_items.
  apply keeps_bind; [case_match; [apply keeps_pure|apply keeps_each; intros; by apply keeps_give_back]|]. intros _.
  by apply keeps_ignored, keeps_create.
Qed.
Lemma cas_status row1 id row v :
  cas_matches "orderStatus" (field_or_null "orderStatus" (row_to_doc id row)) row1 = true →
  text_in "orderStatus" v row = true → status_text row1 ∈ v.
Proof.
  unfold cas_matches, field_or_null, text_in, status_text. rewrite get_row_to_doc by concrete. unfold field_text at 2.
  destruct (get "orderStatus" (row_data row)) as [x|]; cbn [mbind option_bind default from_option];
    destruct (field_text "orderStatus" (row_data row1)) as [t|]; try done.
  unfold Datatypes.id. destruct (jsonb_as_text x) as [t'|]; [|done]. intros Heq Hin. bools. by subst.
Qed.
Lemma cron_expire e s : uuid_orders s → cron_evolves s (expire_orders scan stripe_cancels e s).1.
Proof.
  intros Hs. apply cron_loop; [done| |].
  - intros i s1 id row m He Hrow Hm Hp Hid. unfold expire_order. rewrite (doc_str_id _ _ _ Hm), (plain_normal id Hid).
    set (v := field_or_null _ _). set (now := to_rfc3339 _). set (t := ce_clock e _).
    assert (cron_evolves s (update_document_cas "orders" id (VObject (expired_fields now)) "orderStatus" v t s1).1) as He1.
    { pose proof (update_cas_rows "orders" id (VObject (expired_fields now)) "orderStatus" v t s1 eq_refl) as Hu.
      rewrite (plain_bare "orders" id eq_refl Hid) in Hu. destruct (cron_later _ _ _ _ _ He Hrow Hm) as (row1 & m1 & Hrow1 & Hm1).
      unfold orders_of in Hrow1. rewrite Hrow1 in Hu. destruct (cas_matches _ _ _) eqn:Ec; [|by eapply cron_evolves_same].
      eapply cron_evolves_insert; [exact He|exact Hrow1|exact Hm1| |exact Hu]. constructor.
      unfold expirable in Hp. bools. by eapply cas_status. }
    unfold attempt, mbind, handler_bind. destruct (update_document_cas _ _ _ _ _ _ s1) as [s2 [[doc|]|err|]]; cbn [fst] in *; try done.
    apply cron_keeps; [|done]. by apply keeps_after_expiry.
  - intros row Hp. unfold expirable in Hp. bools. by eapply text_in_object.
Qed.

(** What is left of an order whatever jobs run. *)
Definition cron_touched : list string :=
  ["archived"; "archivedAt"; "cancellationReason"; "orderStatus"; "paymentStatus"; "payoutStatus"; "stockRestored"; "updatedAt"].
Record cron_kept (row row' : DocRow) : Prop := {
  ck_fields k : k ∉ cron_touched → get k (row_data row') = get k (row_data row);
  ck_status : (∀ k, k ∈ ["orderStatus"; "paymentStatus"; "cancellationReason"; "stockRestored"] →
                 get k (row_data row') = get k (row_data row))
    ∨ status_text row ∈ ["pending"; "confirmed"] ∧ status_text row' = "expired"
      ∧ str_field (row_data row') "paymentStatus" = "cancelled" ∧ bool_field (row_data row') "stockRestored" = true;
}.
Lemma cron_fields_keys row fields : cron_fields row fields → NoDup fields.*1 ∧ fields.*1 ⊆ cron_touched.
Proof. intros [| |e i]; split; concrete. Qed.
Global Instance cron_kept_preorder : PreOrder cron_kept.
Proof.
  split; [by constructor; [|left]|]. intros r1 r2 r3 [F1 S1] [F2 S2]. constructor; [intros k Hk; by rewrite F2, F1|].
  destruct S1 as [S1|(Ha & Hb & Hc & Hd)], S2 as [S2|(Ha' & Hb' & Hc' & Hd')].
  - left. intros k Hk. by rewrite S2, S1.
  - right. split_and!; [|done..]. unfold status_text, field_text in *. by rewrite S1 in Ha' by concrete.
  - right. unfold status_text, field_text, str_field, bool_field in *. rewrite !S2 by concrete. done.
  - rewrite Hb in Ha'. exfalso. revert Ha'. concrete.
Qed.
Lemma cron_write_kept row row' : cron_write row row' → cron_kept row row'.
Proof.
  intros (fields & now & m & Hm & Hf & ->). destruct (cron_fields_keys _ _ Hf) as [Hnd Hsub].
  assert (∀ k, get k (row_data (merged_row (VObject fields) now row))
    = match assoc_get k fields with Some v => Some v | None => get k (row_data row) end) as Hget by (intros k; by eapply merged_row_get).
  constructor.
  - intros k Hk. rewrite Hget. destruct (assoc_get k fields) as [v|] eqn:E; [|done]. exfalso. apply Hk, Hsub. by eapply assoc_get_elem.
  - destruct Hf as [| now' Hst|]; [left| |left].
    + intros k Hk. rewrite Hget. repeat (apply elem_of_cons in Hk as [-> |Hk]; [done|]). by apply elem_of_nil in Hk.
    + right. unfold status_text at 2, field_text, str_field, bool_field. rewrite !Hget. done.
    + intros k Hk. rewrite Hget. repeat (apply elem_of_cons in Hk as [-> |Hk]; [done|]). by apply elem_of_nil in Hk.
Qed.
Lemma cron_evolves_kept s s' id : cron_evolves s s' → option_Forall2 cron_kept (orders_of s !! id) (orders_of s' !! id).
Proof.
  intros He. specialize (He id). inversion He as [row row' Hw|]; constructor.
  clear -Hw. induction Hw as [|r1 r2 r3 H1 _ IH]; [done|]. etrans; [by apply cron_write_kept|done].
Qed.

(** The jobs that write other tables only. *)
Lemma keeps_acquire c e name ttl : "_cron_locks" ≠ c → keeps c (acquire_cron_lock e name ttl).
Proof. intros Hc. unfold acquire_cron_lock. keeping. by apply keeps_succeeded, keeps_upsert. Qed.
Lemma keeps_release c e name : "_cron_locks" ≠ c → keeps c (release_cron_lock e name).
Proof. intros Hc. unfold release_cron_lock. keeping. Qed.
Lemma keeps_alert c e name msg : "_cron_failures" ≠ c → keeps c (alert_cron_failure e name msg).
Proof. intros Hc. unfold alert_cron_failure. keeping. Qed.
Lemma locked_run c e name ttl work (R : rows → rows → Prop) s :
  "_cron_locks" ≠ c → "_cron_failures" ≠ c → R (table_rows s c) (table_rows s c) →
  (∀ s1, table_rows s1 c = table_rows s c → R (table_rows s c) (table_rows (work s1).1 c)) →
  R (table_rows s c) (table_rows (locked e name ttl work s).1 c).
Proof.
  intros Hl Hf Hs Hw. unfold locked. pose proof (keeps_acquire c e name ttl Hl s) as Ha. unfold mbind, handler_bind.
  destruct (acquire_cron_lock e name ttl s) as [s1 [[]|err|]]; unfold pure; cbn [fst] in *; try (by rewrite Ha).
  specialize (Hw s1 Ha). unfold finish. destruct (work s1) as [s2 [[]|err|]]; cbn [fst] in *; [|
    pose proof (keeps_alert c e name (error_to_string err) Hf s2) as Hal; unfold mbind, handler_bind;
    destruct (alert_cron_failure _ _ _ s2) as [s3 [[]|err'|]]; cbn [fst] in *; rewrite ?Hal; try done|done].
  - by rewrite (keeps_release c e name Hl s2).
  - rewrite (keeps_release c e name Hl s3). by rewrite Hal.
Qed.
Lemma keeps_locked c e name ttl work :
  "_cron_locks" ≠ c → "_cron_failures" ≠ c → keeps c work → keeps c (locked e name ttl work).
Proof. intros Hl Hf Hw s. apply (locked_run c e name ttl work (λ a b, b = a)); [done..|]. intros s1 H1. by rewrite (Hw s1). Qed.

Ltac keep_job :=
  intros; unfold cleanup_stale_rate_limits, cleanup_stale_webhook_events, cleanup_stale_security_alerts,
    retry_failed_meilisearch_syncs, sync_expired_subscriptions, escalate_stale_return_requests;
  apply keeps_locked; [done|done|]; unfold clean_up, retry_failures, expire_subscriptions, escalate_returns; cbv zeta;
  apply keeps_bind; [apply keeps_select_limit|]; intros ?; apply keeps_each; intros ??;
  unfold delete_doc, retry_failure, resolve_failure, expire_subscription, escalate_return; keeping;
  try (by apply keeps_delete).
Lemma run_job_orders j e s : uuid_orders s → cron_evolves s (run_job scan traverse stripe_cancels j e s).1.
Proof.
  intros Hs.
  assert (∀ name ttl work, (∀ s, uuid_orders s → cron_evolves s (work s).1) → cron_evolves s (locked e name ttl work s).1) as Hl.
  { intros name ttl work Hw. unfold cron_evolves, orders_of.
    apply (locked_run "orders" e name ttl work (λ a b, ∀ id, option_Forall2 (rtc cron_write) (a !! id) (b !! id))); [done|done| |].
    - intros id. by apply (reflexivity (R := cron_evolves) s).
    - intros s1 H1 id. rewrite <- H1. apply (Hw s1). intros id' Hid. apply Hs. unfold orders_of in *. by rewrite <- H1. }
  destruct j; cbn [run_job].
  - apply Hl. intros. by apply cron_payout.
  - apply Hl. intros. by apply cron_expire.
  - apply Hl. intros. by apply cron_archive.
  - apply cron_keeps; [|done]. keep_job.
  - apply cron_keeps; [|done]. keep_job.
  - apply cron_keeps; [|done]. keep_job.
  - apply cron_keeps; [|done]. keep_job.
  - apply cron_keeps; [|done]. keep_job.
  - apply cron_keeps; [|done]. keep_job.
Qed.

(** C27: the scheduled jobs respect orders.  Whatever jobs run in whatever order, no
    order is created or removed, its buyer, items and amounts stay, and its status and
    payment status change only when an order that is pending or confirmed expires, with
    its payment cancelled and its stock marked as given back. *)
Theorem cron_respects_orders jobs s id :
  uuid_orders s →
  option_Forall2 cron_kept (orders_of s !! id) (orders_of (run_jobs scan traverse stripe_cancels jobs s) !! id).
Proof.
  intros Hs. apply cron_evolves_kept. unfold run_jobs. revert s Hs. induction jobs as [|[j e] jobs IH]; intros s Hs; [done|].
  cbn [foldl fst snd]. pose proof (run_job_orders j e s Hs) as He. etrans; [exact He|]. apply IH. by eapply cron_evolves_plain.
Qed.
End orders.

(** ** Orders given up *)
Section expiry.
Context `{C : Chrono} `{P : PgJson} `{!PgJsonLaws P} `{T : TextLib} `{L : Collation}.
Context (scan : rows → list (string * DocRow)) (scan_rows : ∀ rs, scan rs ≡ₚ map_to_list rs).
Context (stripe_cancels : string → cancel_reply).
Local Open Scope Z_scope.

(** The units of a product that an item, and an order, give back. *)
Definition i32_max : Z := 2 ^ 31 - 1.
Definition given (pid : string) (item : Value) : Z :=
  if returns_stock item && (str_field item "productId" =s? pid) then quantity_of item else 0.
Definition given_back (pid : string) (row : DocRow) : Z :=
  if bool_field (row_data row) "stockRestored" then 0 else total (given pid <$> items_array (row_data row)).
Lemma given_nonneg pid item : 0 ≤ given pid item.
Proof. unfold given. case_match; [|done]. bools. unfold returns_stock in *. bools. match goal with H : (0 <? _) = true |- _ => apply Z.ltb_lt in H end. lia. Qed.
Lemma total_nonneg {A} (f : A → Z) l : (∀ x, 0 ≤ f x) → 0 ≤ total (f <$> l).
Proof. intros Hf. induction l as [|x l IH]; [done|]. unfold total in *. cbn. specialize (Hf x). lia. Qed.
Lemma given_back_nonneg pid row : 0 ≤ given_back pid row.
Proof. unfold given_back. case_match; [done|]. apply total_nonneg, given_nonneg. Qed.

Lemma added_stocked pid qty updated now s n :
  stocked s pid n → 0 ≤ n → 0 < qty → n + qty ≤ i32_max → stocked (add_stock pid qty updated now s).1 pid (n + qty).
Proof.
  intros (row & Hrow & Hg & Hn) H0 Hq Hle. destruct (object_of_get _ _ _ Hg) as [m Hm]. unfold i32_max in Hle.
  assert (added_stock qty row = Some (n + qty)) as Ha.
  { unfold added_stock, stock_text, field_text. rewrite Hg. cbn [mbind option_bind].
    assert (jsonb_as_text (of_i64 n) = Some (pretty n)) as ->.
    { transitivity (Some (jsonb_text (of_i64 n))); [by destruct n|]. f_equal. by apply jsonb_text_int. }
    rewrite parse_i64_pretty by (unfold i64_max in *; lia).
    assert (∀ z, 0 ≤ z ≤ 2 ^ 31 - 1 → in_i32 z = true) as Hi
      by (intros z Hz; unfold in_i32; apply andb_true_iff; split; apply Z.leb_le; lia).
    cbn [mbind option_bind]. by rewrite !Hi by lia. }
  unfold add_stock. cbv zeta. rewrite keeps_ensure_first, Hrow, Ha, Hm. cbn [fst].
  eexists. rewrite table_rows_insert, lookup_insert_eq. split; [done|]. split; [|unfold i64_max in *; lia].
  by rewrite (merged_row_get _ _ row m) by (done || concrete).
Qed.
Lemma add_frame pid qty updated now s p :
  p ≠ pid → table_rows (add_stock pid qty updated now s).1 "products" !! p = table_rows s "products" !! p.
Proof.
  intros Hp. unfold add_stock. cbv zeta. repeat case_match; cbn [fst]; rewrite ?table_rows_insert, ?lookup_insert_ne by done;
    by rewrite keeps_ensure_first.
Qed.
Lemma orderly_add_stock pid qty updated now : orderly (add_stock pid qty updated now).
Proof. intros s. unfold add_stock. cbv zeta. by repeat case_match. Qed.
Lemma ignored_state {A} (op : store → store * Result A) s : (ignored op s).1 = (op s).1.
Proof. unfold ignored. by destruct (op s) as [s1 [a|err|]]. Qed.
Lemma calm_give_back e i now j item : calm (give_back e i now j item).
Proof. unfold give_back. case_match; [apply calm_ignored, orderly_add_stock|apply calm_pure]. Qed.

Lemma given_stocked e i now j item s pid n :
  stocked s pid n → 0 ≤ n → n + given pid item ≤ i32_max → stocked (give_back e i now j item s).1 pid (n + given pid item).
Proof.
  intros Hs H0 Hle. unfold give_back, given in *. destruct (returns_stock item) eqn:E; cbn [andb] in *; [|by rewrite Z.add_0_r].
  rewrite ignored_state. destruct (str_field item "productId" =s? pid) eqn:Ep; bools.
  - subst pid. apply added_stocked; [done..| |done]. unfold returns_stock in E. bools. by apply Z.ltb_lt.
  - rewrite Z.add_0_r. destruct Hs as (row & Hrow & Hr). exists row. by rewrite add_frame.
Qed.
Lemma given_all e i now j items s pid n :
  stocked s pid n → 0 ≤ n → n + total (given pid <$> items) ≤ i32_max →
  stocked (each_from j (give_back e i now) items s).1 pid (n + total (given pid <$> items)).
Proof.
  revert j s n. induction items as [|item items IH]; intros j s n Hs H0 Hle; [by rewrite Z.add_0_r|].
  rewrite each_cons by apply calm_give_back. unfold total in *. cbn [fmap list_fmap foldr] in *.
  pose proof (given_nonneg pid item). pose proof (total_nonneg (given pid) items (given_nonneg pid)) as Hp. unfold total in Hp.
  rewrite Z.add_assoc. apply IH; [apply given_stocked; [done..|lia]|lia|lia].
Qed.

Lemma stocked_kept {A} (m : handler A) s pid n : keeps "products" m → stocked s pid n → stocked (m s).1 pid n.
Proof. intros Hk. apply stocked_same. apply Hk. Qed.
Lemma calm_release e order : calm (release_intent stripe_cancels e order).
Proof.
  unfold release_intent. case_match; [apply calm_pure|]. apply calm_ignored, orderly_pure. unfold stripe_cancel_pi.
  by destruct (ce_stripe_key e); cbn; [case_match|].
Qed.
Lemma calm_give_items e i now order : calm (give_back_items e i now order).
Proof. unfold give_back_items. case_match; [apply calm_pure|]. apply calm_each. intros. apply calm_give_back. Qed.
Lemma calm_after e now i order : calm (after_expiry stripe_cancels e now i order).
Proof.
  unfold after_expiry. apply calm_bind; [apply calm_release|intros _; apply calm_bind; [apply calm_give_items|intros _; auto with cron]].
Qed.
Lemma after_stocked e now i id row s pid n :
  stocked s pid n → 0 ≤ n → n + given_back pid row ≤ i32_max →
  stocked (after_expiry stripe_cancels e now i (row_to_doc id row) s).1 pid (n + given_back pid row).
Proof.
  intros Hs H0 Hle. unfold after_expiry. set (order := row_to_doc id row).
  destruct (calm_run _ s (calm_release e order)) as [[] R1]. rewrite (bind_run _ _ _ _ _ R1).
  apply (stocked_kept _ _ _ _ (keeps_release_intent stripe_cancels "products" e order)) in Hs.
  set (s1 := (release_intent stripe_cancels e order s).1) in *.
  destruct (calm_run _ s1 (calm_give_items e i now order)) as [[] R2]. rewrite (bind_run _ _ _ _ _ R2).
  apply stocked_kept; [by apply keeps_ignored, keeps_create|]. unfold give_back_items, order. rewrite items_doc.
  assert (bool_field (row_to_doc id row) "stockRestored" = bool_field (row_data row) "stockRestored") as ->
    by (unfold bool_field; by rewrite get_row_to_doc by concrete).
  unfold given_back in *. destruct (bool_field _ _); [by rewrite Z.add_0_r|]. by apply given_all.
Qed.

(** One order, still as it was selected. *)
Lemma expire_one e now i id row s :
  orders_of s !! id = Some row → plain_id id = true → text_in "orderStatus" ["pending"; "confirmed"] row = true →
  calm (expire_order stripe_cancels e now i (row_to_doc id row)) ∧
  let s' := (expire_order stripe_cancels e now i (row_to_doc id row) s).1 in
  orders_of s' = <[id := merged_row (VObject (expired_fields now)) (ce_clock e [1%nat; i; 0%nat]) row]> (orders_of s)
  ∧ ∀ pid n, stocked s pid n → 0 ≤ n → n + given_back pid row ≤ i32_max → stocked s' pid (n + given_back pid row).
Proof.
  intros Hrow Hid Hst. destruct (text_in_object _ _ _ Hst) as [m Hm]. unfold expire_order.
  rewrite (doc_str_id _ _ _ Hm), (plain_normal id Hid). split.
  { apply calm_bind; [auto with cron|]. intros [[v|]|]; [apply calm_after|apply calm_pure..]. }
  set (v := field_or_null _ _). set (t := ce_clock e _).
  assert (cas_matches "orderStatus" v row = true) as Hc.
  { subst v. unfold cas_matches, field_or_null. rewrite get_row_to_doc by concrete. unfold text_in, field_text in *.
    destruct (get "orderStatus" (row_data row)) as [x|]; [|done]. cbn [mbind option_bind default from_option] in *.
    unfold Datatypes.id. destruct (jsonb_as_text x); [apply str_eqb_refl|done]. }
  destruct (cas_applies "orders" id (VObject (expired_fields now)) "orderStatus" v t s row eq_refl) as (s1 & doc & Hcas & Hrows);
    [by rewrite (plain_bare "orders" id)|done|]. rewrite (plain_bare "orders" id eq_refl Hid) in Hrows.
  assert (attempt (update_document_cas "orders" id (VObject (expired_fields now)) "orderStatus" v t) s = (s1, Ok (Some (Some doc)))) as Hat
    by (unfold attempt; by rewrite Hcas).
  rewrite (bind_run _ _ _ _ _ Hat). cbv zeta. split.
  - unfold orders_of in *. rewrite (keeps_after_expiry stripe_cancels "orders" e now i _ ltac:(done) ltac:(done) s1). exact Hrows.
  - intros pid n Hs H0 Hle. apply after_stocked; [|done..]. eapply stocked_same; [|exact Hs].
    pose proof (cas_elsewhere "orders" id (VObject (expired_fields now)) "orderStatus" v t s "products" ltac:(done) eq_refl) as Hp.
    by rewrite Hcas in Hp.
Qed.

Definition given_by (pid : string) (l : list (string * DocRow)) : Z := total ((λ kr, given_back pid kr.2) <$> l).
Lemma given_by_nonneg pid l : 0 ≤ given_by pid l.
Proof. apply total_nonneg. intros kr. apply given_back_nonneg. Qed.
Lemma expire_loop e now i l s :
  NoDup l.*1 →
  (∀ id row, (id, row) ∈ l →
     orders_of s !! id = Some row ∧ plain_id id = true ∧ text_in "orderStatus" ["pending"; "confirmed"] row = true) →
  let run := each_from i (expire_order stripe_cancels e now) ((λ kr : string * DocRow, row_to_doc kr.1 kr.2) <$> l) s in
  run.2 = Ok tt
  ∧ (∀ id row, (id, row) ∈ l → ∃ t, orders_of run.1 !! id = Some (merged_row (VObject (expired_fields now)) t row))
  ∧ (∀ id, id ∉ l.*1 → orders_of run.1 !! id = orders_of s !! id)
  ∧ ∀ pid n, stocked s pid n → 0 ≤ n → n + given_by pid l ≤ i32_max → stocked run.1 pid (n + given_by pid l).
Proof.
  revert i s. induction l as [|[id row] l IH]; intros i s Hnd Hl; cbv zeta.
  { split_and!; [done|by intros ??[]%elem_of_nil|done|]. intros pid n Hs _ _. by rewrite Z.add_0_r. }
  destruct (Hl id row (list_elem_of_here _ _)) as (Hrow & Hid & Hst).
  destruct (expire_one e now i id row s Hrow Hid Hst) as [Hcalm [Ho Hg]].
  cbn [fmap list_fmap fst snd]. rewrite each_cons by done. set (s1 := (expire_order _ _ _ _ _ s).1) in *.
  apply NoDup_cons in Hnd as [Hni Hnd]. destruct (IH (S i) s1) as (Hok & Hin & Hout & Hstock); [done| |].
  { intros id' row' Hin. destruct (Hl id' row') as (H1 & H2); [by right|]. split; [|done]. rewrite Ho, lookup_insert_ne; [done|].
    intros ->. apply Hni. apply list_elem_of_fmap. by exists (id', row'). }
  split_and!; [done| | |].
  - intros id' row' [Heq|Hin']%elem_of_cons; [|by apply Hin]. injection Heq as -> ->. eexists. rewrite Hout by done.
    by rewrite Ho, lookup_insert_eq.
  - intros id' [Hne Hni']%not_elem_of_cons. rewrite Hout by done. by rewrite Ho, lookup_insert_ne.
  - intros pid n Hs H0 Hle. unfold given_by, total in *. cbn [fmap list_fmap foldr snd] in *.
    pose proof (given_back_nonneg pid row). pose proof (given_by_nonneg pid l) as Hp. unfold given_by, total in Hp.
    rewrite Z.add_assoc. apply Hstock; [apply Hg; [done..|lia]|lia|lia].
Qed.

(** The orders a run gives up. *)
Definition given_up (e : cron_env) (s : store) : list (string * DocRow) :=
  selected scan 100 (expirable (expiry_cutoff e)) (orders_of s).
Lemma selected_nodup n p rs : NoDup (selected scan n p rs).*1.
Proof.
  unfold selected. eapply sublist_NoDup; [|apply fmap_sublist, sublist_take]. eapply sublist_NoDup; [|apply fmap_sublist, sublist_filter].
  rewrite scan_rows. apply NoDup_fst_map_to_list.
Qed.
Lemma acquired_rows e name ttl s s1 c :
  acquire_cron_lock e name ttl s = (s1, Ok true) → "_cron_locks" ≠ c → table_rows s1 c = table_rows s c.
Proof. intros Ha Hc. by eapply keeps_run; [by apply keeps_acquire|]. Qed.
Lemma locked_ok e name ttl work s s1 :
  acquire_cron_lock e name ttl s = (s1, Ok true) → (work s1).2 = Ok tt →
  locked e name ttl work s = release_cron_lock e name (work s1).1.
Proof.
  intros Ha Hw. unfold locked. rewrite (bind_run _ _ _ _ _ Ha). unfold finish. destruct (work s1) as [s2 r]. cbn [fst snd] in *. by subst r.
Qed.

Lemma expired_row now t row m :
  row_data row = VObject m → let row' := merged_row (VObject (expired_fields now)) t row in
  status_text row' = "expired" ∧ str_field (row_data row') "paymentStatus" = "cancelled"
  ∧ bool_field (row_data row') "stockRestored" = true ∧ ∀ cutoff, expirable cutoff row' = false.
Proof.
  intros Hm row'. assert (∀ k, get k (row_data row') = match assoc_get k (expired_fields now) with Some v => Some v | None => get k (row_data row) end)
    as Hget by (intros k; eapply merged_row_get; [concrete|exact Hm]).
  unfold status_text, str_field, bool_field, expirable, text_in, field_text. rewrite !Hget. split_and!; [done..|].
  intros cutoff. change (assoc_get "paymentStatus" _) with (Some (VString "cancelled")). cbn [mbind option_bind jsonb_as_text].
  by rewrite bool_decide_eq_false_2 by concrete.
Qed.

(** A run of the job that obtains its lock. *)
Lemma expire_job e s s1 :
  uuid_orders s → acquire_cron_lock e "check_expired_authorizations" 30 s = (s1, Ok true) →
  let l := given_up e s in
  ∃ s', check_expired_authorizations scan stripe_cancels e s = (s', Ok tt)
    ∧ (∀ id row, (id, row) ∈ l → ∃ row', orders_of s' !! id = Some row' ∧ status_text row' = "expired"
         ∧ str_field (row_data row') "paymentStatus" = "cancelled" ∧ bool_field (row_data row') "stockRestored" = true
         ∧ ∀ cutoff, expirable cutoff row' = false)
    ∧ (∀ id, id ∉ l.*1 → orders_of s' !! id = orders_of s !! id)
    ∧ ∀ pid n, stocked s pid n → 0 ≤ n → n + given_by pid l ≤ i32_max → stocked s' pid (n + given_by pid l).
Proof.
  intros Hs Ha l. set (now := to_rfc3339 (ce_now e [1%nat])). set (s2 := (ensure_table "orders" s1).1).
  pose proof (λ c, acquired_rows e _ _ _ _ c Ha) as Hs1.
  assert (∀ c, "_cron_locks" ≠ c → table_rows s2 c = table_rows s c) as Hs2.
  { intros c Hc. unfold s2. rewrite keeps_ensure_first. by apply Hs1. }
  assert (expire_orders scan stripe_cancels e s1
    = each_from 0 (expire_order stripe_cancels e now) ((λ kr : string * DocRow, row_to_doc kr.1 kr.2) <$> l) s2) as Hw.
  { unfold expire_orders. rewrite (bind_run _ _ _ _ _ (select_run scan 100 "orders" _ s1)).
    rewrite Hs1 by done. done. }
  assert (∀ id row, (id, row) ∈ l → orders_of s !! id = Some row ∧ plain_id id = true
    ∧ text_in "orderStatus" ["pending"; "confirmed"] row = true) as Hsel.
  { intros id row Hin. apply (selected_in _ scan_rows) in Hin as [Hrow Hp]. unfold expirable in Hp. bools.
    split_and!; [done| |done]. apply Hs. by eexists. }
  destruct (expire_loop e now 0 l s2) as (Hok & Hin & Hout & Hstock); [apply selected_nodup| |].
  { intros id row Hin. destruct (Hsel id row Hin). unfold orders_of in *. by rewrite Hs2. }
  rewrite <- Hw in *. destruct (expire_orders scan stripe_cancels e s1) as [s3 r] eqn:Hrun. cbn [fst snd] in *. subst r.
  unfold check_expired_authorizations. rewrite (locked_ok _ _ _ _ _ _ Ha) by by rewrite Hrun. rewrite Hrun. cbn [fst].
  assert (calm (release_cron_lock e "check_expired_authorizations")) as Hc by (unfold release_cron_lock; auto with cron).
  destruct (calm_run _ s3 Hc) as [[] Hr]. exists (release_cron_lock e "check_expired_authorizations" s3).1. split; [done|].
  pose proof (λ c Hc, keeps_release c e "check_expired_authorizations" Hc s3) as Hk. unfold orders_of in *. rewrite Hk by done.
  split_and!.
  - intros id row Hrow. destruct (Hin id row Hrow) as [t Ht]. eexists. split; [exact Ht|].
    destruct (Hsel id row Hrow) as (_ & _ & Htext). destruct (text_in_object _ _ _ Htext) as [m Hm]. by eapply expired_row.
  - intros id Hid. rewrite Hout by done. by rewrite Hs2.
  - intros pid n Hn H0 Hle. eapply stocked_same; [by apply Hk|]. apply Hstock; [|done..]. eapply stocked_same; [by apply Hs2|done].
Qed.

(** C25: orders that stay unpaid are given up.  When the job obtains its lock it
    succeeds, whatever Stripe answers: up to a hundred orders that are due become
    expired with their payment cancelled and are never due again, all others stay
    as they are, and to the stock of every product come exactly the units of the
    physical items of these orders that had not been given back before. *)
Theorem expired_orders_restocked e s s1 :
  uuid_orders s → acquire_cron_lock e "check_expired_authorizations" 30 s = (s1, Ok true) →
  let l := given_up e s in
  ∃ s', check_expired_authorizations scan stripe_cancels e s = (s', Ok tt)
    ∧ (∀ id row, (id, row) ∈ l → ∃ row', orders_of s' !! id = Some row' ∧ status_text row' = "expired"
         ∧ str_field (row_data row') "paymentStatus" = "cancelled" ∧ bool_field (row_data row') "stockRestored" = true
         ∧ ∀ cutoff, expirable cutoff row' = false)
    ∧ (∀ id, id ∉ l.*1 → orders_of s' !! id = orders_of s !! id)
    ∧ ∀ pid n, stocked s pid n → 0 ≤ n → n + given_by pid l ≤ i32_max → stocked s' pid (n + given_by pid l).
Proof. apply expire_job. Qed.

(** *** A checkout that is not paid *)
Context (pg_invalid_bigint : string) (pg_missing_table pg_duplicate_key : string → string).
Context (validate_turnstile : string → string → Result unit) (stripe : string → list (string * string) → stripe_reply).
Abbreviation checkout := (create_checkout_session pg_invalid_bigint scan pg_missing_table pg_duplicate_key
  validate_turnstile stripe).

Lemma valid_bare pid : is_ok (validate_document_id pid) = true → bare_id "products" pid = pid.
Proof.
  destruct (validate_document_id pid) as [r| |] eqn:E; [|done|done]. intros _. apply validate_document_id_Ok in E as (_ & _ & _ & Hchars).
  apply bare_id_plain. destruct (strip_prefix _ _) as [rest|] eqn:E; [|done]. apply strip_prefix_Some in E.
  apply (char_free _ ":") in Hchars; [|done]. rewrite E in Hchars. by vm_compute in Hchars.
Qed.
Lemma placed_given pid e auth req s s' resp u pr po sid q a :
  placed pg_invalid_bigint scan pg_missing_table pg_duplicate_key stripe e auth req s s' resp u pr po sid q a →
  total (given pid <$> q_items q) = order_units pid (placed_document e req u pr po sid q a).
Proof.
  intros Hp. rewrite <- (placed_returned _ _ _ _ _ pid _ _ _ _ _ _ _ _ _ _ _ _ Hp).
  destruct (check_request_items _ _ _ (pl_request _ _ _ _ _ _ _ _ _ _ _ _ _ _ _ _ _ Hp)) as (Hc & _ & _).
  destruct (placed_accepted _ _ _ _ _ _ _ _ _ _ _ _ _ _ _ _ _ Hp) as [product_rows Hacc].
  pose proof (check_items_ids _ Hc) as Hids. clear -Hacc Hids.
  induction Hacc as [|item snapshot items snapshots [(product & price & _ & _ & _ & _ & ->) _] _ IH]; [done|].
  inversion Hids; subst. unfold total in *. cbn [fmap list_fmap foldr]. rewrite IH by done. f_equal. unfold given, returned_units.
  change (str_field (validated_item _ _ _ _) "productId") with (ci_product_id item). by rewrite valid_bare.
Qed.

Lemma selected_only n p rs id row :
  rs !! id = Some row → p row = true → (∀ id' row', rs !! id' = Some row' → p row' = true → id' = id) →
  selected scan (S n) p rs = [(id, row)].
Proof.
  intros Hrow Hp Honly. unfold selected. set (l := filter _ _).
  assert (∀ kr, kr ∈ l ↔ kr = (id, row)) as Hl.
  { intros [id' row']. unfold l. rewrite list_elem_of_filter, scan_rows, elem_of_map_to_list. cbn [fst snd]. split; [|by intros [= -> ->]].
    intros [Hp' Hrow']. assert (id' = id) as -> by by eapply Honly. rewrite Hrow in Hrow'. by injection Hrow' as ->. }
  assert (NoDup l) as Hnd.
  { unfold l. eapply sublist_NoDup; [|apply sublist_filter]. rewrite scan_rows. apply NoDup_map_to_list. }
  assert (l = [(id, row)]) as ->; [|by destruct n].
  apply Permutation_singleton_r. apply NoDup_Permutation; [done|apply NoDup_singleton|]. intros kr. rewrite Hl. by rewrite list_elem_of_singleton.
Qed.

(** A checkout that is never paid is undone.  The order of a checkout that is due
    and alone to be due is expired by the job, and the stock of every product of which
    the ordered units were there is again what it was before the checkout. *)
Theorem unpaid_checkout_undone e auth req s s1 resp e' s1' row :
  checkout e auth req s = (s1, Ok resp) → cr_duplicate resp = false →
  let order_id := cr_checkout_order_id resp in
  orders_of s1 !! order_id = Some row → uuid_orders s1 →
  acquire_cron_lock e' "check_expired_authorizations" 30 s1 = (s1', Ok true) →
  text_upto "createdAt" (expiry_cutoff e') row = true →
  (∀ i r, orders_of s !! i = Some r → expirable (expiry_cutoff e') r = false) →
  ∃ s2 row', check_expired_authorizations scan stripe_cancels e' s1 = (s2, Ok tt)
    ∧ orders_of s2 !! order_id = Some row' ∧ status_text row' = "expired"
    ∧ ∀ pid n, stocked s pid n → order_units pid (row_data row) ≤ n ≤ i32_max → stocked s2 pid n.
Proof.
  intros Hc Hd order_id Hrow Hu Ha Hdue Hothers.
  destruct (checkout_cases _ _ scan_rows _ _ _ _ _ _ _ _ _ _ Hc) as [[_ Hr]|(? & u & pr & po & sid & q & a & [= <-] & _ & Hp)].
  { specialize (answered_duplicate _ _ _ _ _ (Hr _ eq_refl)). congruence. }
  destruct (placed_row _ _ _ _ _ _ _ _ _ _ _ _ _ _ _ _ _ Hp) as [_ Hrows].
  pose proof (pl_order _ _ _ _ _ _ _ _ _ _ _ _ _ _ _ _ _ Hp) as Ho. fold order_id in Ho.
  set (doc := placed_document e req u pr po sid q a) in *.
  assert (row_data row = doc) as Hdoc.
  { unfold orders_of in Hrow. rewrite Hrows, <- Ho, lookup_insert_eq in Hrow. by injection Hrow as <-. }
  assert (expirable (expiry_cutoff e') row = true) as Hexp.
  { unfold expirable. rewrite Hdue, andb_true_r. unfold text_in, field_text. by rewrite Hdoc. }
  assert (given_up e' s1 = [(order_id, row)]) as Hl.
  { apply selected_only; [done..|]. intros i r Hr Hexp'. destruct (decide (i = order_id)) as [|Hne]; [done|]. exfalso.
    unfold orders_of in Hr. rewrite Hrows, <- Ho, lookup_insert_ne in Hr by done. by rewrite (Hothers i r Hr) in Hexp'. }
  destruct (expire_job e' s1 s1' Hu Ha) as (s2 & Hrun & Hin & _ & Hstock). rewrite Hl in *.
  destruct (Hin order_id row) as (row' & Hrow' & Hst & _); [left|]. exists s2, row'. split_and!; [done..|].
  intros pid n Hn Hle. specialize (Hstock pid (n - order_units pid doc)).
  assert (given_by pid [(order_id, row)] = order_units pid doc) as Hg.
  { unfold given_by, total. cbn [fmap list_fmap foldr snd]. rewrite Z.add_0_r. unfold given_back. rewrite Hdoc.
    exact (placed_given pid _ _ _ _ _ _ _ _ _ _ _ _ Hp). }
  rewrite Hg in Hstock. rewrite Z.sub_add in Hstock. rewrite Hdoc in Hle. apply Hstock; [|lia|lia].
  pose proof (placed_counted _ _ _ _ _ pid n _ _ _ _ _ _ _ _ _ _ _ _ Hp Hn) as Hk. fold doc in Hk. apply Hk. lia.
Qed.
End expiry.

(** ** Payouts *)
Section payouts.
Context `{C : Chrono} `{P : PgJson} `{T : TextLib} `{L : Collation}.
Context (scan : rows → list (string * DocRow)) (scan_rows : ∀ rs, scan rs ≡ₚ map_to_list rs).
Context (traverse : gmap string Z → list (string * Z)) (traverse_all : ∀ m, traverse m ≡ₚ map_to_list m).
Local Open Scope Z_scope.

(** The record of a payout. *)
Record recorded (order_id seller_id : string) (amount fee : Z) (row : DocRow) : Prop := {
  rc_amount : get "amountCents" (row_data row) = Some (of_i64 amount);
  rc_fee : get "platformFeeTotalCents" (row_data row) = Some (of_i64 fee);
  rc_net : get "netAmountCents" (row_data row) = Some (of_i64 (i64_sub amount fee));
  rc_order : get "orderId" (row_data row) = Some (VString order_id);
  rc_seller : get "sellerId" (row_data row) = Some (VString seller_id);
  rc_status : get "status" (row_data row) = Some (VString "completed");
}.
Abbreviation payouts_of s := (table_rows s "payouts").
Definition object_rows (rs : rows) : Prop := ∀ k r, rs !! k = Some r → ∃ m, row_data r = VObject m.

Lemma payout_written pid oid sid d1 d2 amount fee now s :
  object_rows (payouts_of s) → plain_id oid = true → pid = payout_id oid sid →
  let s' := (succeeded (upsert_document "payouts" pid (payout_doc pid oid sid d1 d2 amount fee) now) s).1 in
  object_rows (payouts_of s') ∧ (∀ k, k ≠ pid → payouts_of s' !! k = payouts_of s !! k)
  ∧ ∃ r, payouts_of s' !! pid = Some r ∧ recorded oid sid amount fee r.
Proof.
  intros Hobj Hid -> s'. set (doc := payout_doc _ _ _ _ _ _ _) in *.
  assert (payouts_of s' = <[payout_id oid sid := match payouts_of s !! payout_id oid sid with
    | Some row => merged_row doc now row | None => {| row_data := doc; row_created_at := now; row_updated_at := now |} end]> (payouts_of s)) as Hs'.
  { pose proof (upsert_rows "payouts" (payout_id oid sid) doc now s eq_refl) as Hu. rewrite (bare_payout oid sid Hid) in Hu.
    rewrite <- Hu. unfold s', succeeded. by destruct (upsert_document _ _ _ _ s) as [s1 [v|err|]]. }
  set (r := match payouts_of s !! _ with Some row => _ | None => _ end) in *.
  assert (∃ m, row_data r = VObject m ∧ ∀ k, assoc_get k (default [] (as_object doc)) ≠ None →
    get k (row_data r) = assoc_get k (default [] (as_object doc))) as (m & Hm & Hget).
  { subst r. destruct (payouts_of s !! payout_id oid sid) as [row|] eqn:E; [|by eexists].
    destruct (Hobj _ _ E) as [m Hm]. exists (merge_objects m (default [] (as_object doc))). split.
    - cbn [row_data merged_row]. by rewrite Hm.
    - intros k Hk. change (merged_row doc now row) with (merged_row (VObject (default [] (as_object doc))) now row).
      rewrite (merged_row_get _ _ row m); [|concrete|done]. by destruct (assoc_get k _). }
  split_and!.
  - intros k r'. rewrite Hs'. intros [[<- <-]|[_ Hr]]%lookup_insert_Some; [by eexists|by eapply Hobj].
  - intros k Hk. by rewrite Hs', lookup_insert_ne.
  - exists r. rewrite Hs', lookup_insert_eq. split; [done|]. by constructor; rewrite Hget.
Qed.

Lemma payouts_written e i j oid fee sub l s :
  object_rows (payouts_of s) → plain_id oid = true → NoDup l.*1 →
  ∃ s', write_payouts e i j oid fee sub l s = (s', Ok (length l))
    ∧ (∀ c, c ≠ "payouts" → table_rows s' c = table_rows s c) ∧ object_rows (payouts_of s')
    ∧ (∀ k, (∀ sid, sid ∈ l.*1 → k ≠ payout_id oid sid) → payouts_of s' !! k = payouts_of s !! k)
    ∧ ∀ sid amount, (sid, amount) ∈ l →
        ∃ r, payouts_of s' !! payout_id oid sid = Some r ∧ recorded oid sid amount (fee_cents amount fee sub) r.
Proof.
  intros Hobj Hid Hnd. revert j s Hobj. induction l as [|[sid amount] l IH]; intros j s Hobj.
  { exists s. split_and!; [done..|]. intros ??[]%elem_of_nil. }
  cbn [write_payouts]. set (op := upsert_document _ _ _ _).
  destruct (payout_written (payout_id oid sid) oid sid (to_rfc3339 (ce_now e [1; i; 2; j]%nat)) (to_rfc3339 (ce_now e [1; i; 3; j]%nat))
    amount (fee_cents amount fee sub) (ce_clock e [1; i; 2; j]%nat) s Hobj Hid eq_refl) as (Hobj1 & Hout1 & r1 & Hr1 & Hrec1).
  assert (succeeded op s = ((succeeded op s).1, Ok true)) as Hop.
  { unfold succeeded. destruct (op s) as [s1 r] eqn:E. unfold op, upsert_document in E. rewrite with_table_valid in E by done. by injection E as <- <-. }
  rewrite (bind_run _ _ _ _ _ Hop). fold op in Hobj1, Hout1, Hr1. set (s1 := (succeeded op s).1) in *.
  apply NoDup_cons in Hnd as [Hni Hnd]. destruct (IH Hnd (S j) s1 Hobj1) as (s' & Hrun & Hk & Hobj' & Hout & Hin).
  exists s'. rewrite (bind_run _ _ _ _ _ Hrun). split_and!; [done| |done| |].
  - intros c Hc. rewrite Hk by done. apply keeps_succeeded. by apply keeps_upsert.
  - intros k Hkey. rewrite Hout, Hout1; [done| |].
    + apply Hkey. left.
    + intros sid' Hs'. apply Hkey. by right.
  - intros sid' amount' [[= -> ->]|Hl]%elem_of_cons; [|by apply Hin]. exists r1. split; [|done]. rewrite Hout; [done|].
    intros sid' Hs' Heq. apply payout_id_inj in Heq as [_ ->]; [|done|done]. done.
Qed.

Lemma order_update_run id doc now s row :
  orders_of s !! id = Some row → plain_id id = true →
  ∃ s', ignored (update_document "orders" id doc now) s = (s', Ok tt)
    ∧ orders_of s' = <[id := merged_row doc now row]> (orders_of s) ∧ ∀ c, c ≠ "orders" → table_rows s' c = table_rows s c.
Proof.
  intros Hrow Hid. destruct (calm_run (ignored (update_document "orders" id doc now)) s) as [[] Hr]; [auto with cron|].
  eexists. split; [exact Hr|]. rewrite ignored_state. split.
  - unfold orders_of in *. rewrite update_rows, (plain_bare "orders" id), Hrow by done. done.
  - intros c Hc. by apply keeps_update.
Qed.
Definition sellers_of (row : DocRow) : gmap string Z := sellers_total_cents (items_array (row_data row)).
Definition fee_of (row : DocRow) (amount : Z) : Z :=
  fee_cents amount (cents (row_data row) "platformFeeTotalCents") (Z.max 1 (cents (row_data row) "subtotalCents")).
Definition payout_outcome (row : DocRow) : string := if bool_decide (sellers_of row = ∅) then "failed" else "completed".
(** What the payout of one order leaves. *)
Record paid_out (id : string) (row : DocRow) (s s' : store) : Prop := {
  po_order : ∃ row', orders_of s' = <[id := row']> (orders_of s)
               ∧ get "payoutStatus" (row_data row') = Some (VString (payout_outcome row));
  po_tables c : c ≠ "orders" → c ≠ "payouts" → table_rows s' c = table_rows s c;
  po_objects : object_rows (payouts_of s');
  po_frame k : (∀ sid, is_Some (sellers_of row !! sid) → k ≠ payout_id id sid) → payouts_of s' !! k = payouts_of s !! k;
  po_records sid amount : sellers_of row !! sid = Some amount →
    ∃ r, payouts_of s' !! payout_id id sid = Some r ∧ recorded id sid amount (fee_of row amount) r;
}.
Lemma traverse_in m sid (amount : Z) : (sid, amount) ∈ traverse m ↔ m !! sid = Some amount.
Proof. by rewrite traverse_all, elem_of_map_to_list. Qed.
Lemma pay_out_run e i id row m s :
  orders_of s !! id = Some row → row_data row = VObject m → plain_id id = true → object_rows (payouts_of s) →
  ∃ s', pay_out traverse e i id (row_to_doc id row) s = (s', Ok tt) ∧ paid_out id row s s'.
Proof.
  intros Hrow Hm Hid Hobj. unfold pay_out. set (d1 := payout_status_doc "processing" _). set (t1 := ce_clock e [1; i; 0]%nat).
  destruct (order_update_run id d1 t1 s row Hrow Hid) as (s1 & R1 & O1 & K1). rewrite (bind_run _ _ _ _ _ R1). cbv zeta.
  rewrite items_doc, !doc_cents by concrete. fold (sellers_of row).
  assert (object_rows (payouts_of s1)) as Hobj1 by (rewrite K1 by done; done).
  destruct (payouts_written e i 0 id (cents (row_data row) "platformFeeTotalCents") (Z.max 1 (cents (row_data row) "subtotalCents"))
    (traverse (sellers_of row)) s1 Hobj1 Hid) as (s2 & R2 & K2 & Hobj2 & F2 & I2).
  { rewrite traverse_all. apply NoDup_fst_map_to_list. }
  rewrite (bind_run _ _ _ _ _ R2).
  assert (length (traverse (sellers_of row)) = size (sellers_of row)) as Hlen by (rewrite traverse_all; apply length_map_to_list).
  rewrite Hlen. set (d3 := payout_status_doc _ _). set (t3 := ce_clock e [1; i; 1]%nat).
  destruct (order_update_run id d3 t3 s2 (merged_row d1 t1 row)) as (s3 & R3 & O3 & K3); [|done|].
  { unfold orders_of in *. by rewrite K2, O1, lookup_insert_eq. }
  exists s3. split; [exact R3|]. constructor.
  - eexists. split; [rewrite O3; unfold orders_of in *; rewrite K2, O1, insert_insert_eq by done; reflexivity|].
    destruct (row_data (merged_row d1 t1 row)) as [| | | | |m1] eqn:E1; try (cbn [row_data merged_row] in E1; by rewrite Hm in E1).
    unfold d3, payout_status_doc. erewrite merged_row_get; [|concrete|exact E1]. cbn [assoc_get]. change ("payoutStatus" =s? "payoutStatus") with true. cbn iota.
    unfold payout_outcome, final_status. rewrite Nat.eqb_refl. case_bool_decide as Hs.
    + rewrite Hs, map_size_empty. done.
    + apply map_size_non_empty_iff in Hs. by destruct (size (sellers_of row)).
  - intros c Hc1 Hc2. by rewrite K3, K2, K1.
  - by rewrite K3.
  - intros k Hk. rewrite K3 by done. rewrite F2; [by rewrite K1|]. intros sid Hs. apply Hk. apply list_elem_of_fmap in Hs as ([sid' a] & -> & Hs).
    apply traverse_in in Hs. by eexists.
  - intros sid amount Hs. rewrite K3 by done. apply I2. by apply traverse_in.
Qed.

(** Orders that nothing stands in the way of. *)
Definition eligible (s : store) (id : string) (row : DocRow) : Prop :=
  str_empty (str_field (row_data row) "paymentIntentId") = false
  ∧ (∀ k r, table_rows s "security_alerts" !! k = Some r → disputed id r = false)
  ∧ ∀ k r, table_rows s "return_requests" !! k = Some r → being_returned id r = false.
Lemma selected_nil n p rs : selected scan (S n) p rs = [] ↔ ∀ k r, rs !! k = Some r → p r = false.
Proof.
  unfold selected. set (l := filter _ _).
  assert (∀ k r, (k, r) ∈ l ↔ rs !! k = Some r ∧ p r = true) as Hl.
  { intros k r. unfold l. rewrite list_elem_of_filter, scan_rows, elem_of_map_to_list. cbn [snd]. tauto. }
  destruct l as [|[k r] l].
  - split; [|done]. intros _ k r Hr. destruct (p r) eqn:E; [|done]. exfalso. apply (not_elem_of_nil (k, r)). by apply Hl.
  - split; [done|]. intros Hp. destruct (proj1 (Hl k r) (list_elem_of_here _ _)) as [Hr E]. by rewrite (Hp k r Hr) in E.
Qed.
Lemma consider_run e i id row m s :
  orders_of s !! id = Some row → row_data row = VObject m → plain_id id = true → object_rows (payouts_of s) →
  ∃ s', consider_payout scan traverse e i (row_to_doc id row) s = (s', Ok tt)
    ∧ (eligible s id row ∧ paid_out id row s s' ∨ ¬ eligible s id row ∧ ∀ c, table_rows s' c = table_rows s c).
Proof.
  intros Hrow Hm Hid Hobj. unfold consider_payout. rewrite (doc_str_id _ _ _ Hm), (plain_normal id Hid). cbv zeta.
  rewrite str_field_doc by concrete. unfold eligible. destruct (str_empty _) eqn:Ei; [exists s; split; [done|right; naive_solver]|].
  rewrite (bind_run _ _ _ _ _ (select_run scan 1 "security_alerts" _ s)). set (s1 := (ensure_table "security_alerts" s).1).
  assert (∀ c, table_rows s1 c = table_rows s c) as K1 by (intros c; apply keeps_ensure_first).
  case_bool_decide as E1.
  2:{ exists s1. split; [done|]. right. split; [|done]. intros (_ & Hd & _). apply E1. by rewrite (proj2 (selected_nil 0 _ _) Hd). }
  cbn [negb]. rewrite (bind_run _ _ _ _ _ (select_run scan 1 "return_requests" _ s1)). set (s2 := (ensure_table "return_requests" s1).1).
  assert (∀ c, table_rows s2 c = table_rows s c) as K2 by (intros c; unfold s2; rewrite keeps_ensure_first; apply K1).
  rewrite K1. case_bool_decide as E2.
  2:{ exists s2. split; [done|]. right. split; [|done]. intros (_ & _ & Hd). apply E2. by rewrite (proj2 (selected_nil 0 _ _) Hd). }
  apply fmap_nil_inv in E1, E2. rewrite selected_nil in E1, E2. cbn [negb].
  destruct (pay_out_run e i id row m s2) as (s3 & R3 & [Ho Ht Hb Hf Hr]); [unfold orders_of; by rewrite K2|done|done|by rewrite K2|].
  exists s3. split; [exact R3|]. left. split; [done|]. unfold orders_of in *. rewrite K2 in Ho. constructor; [done| |done| |done].
  - intros c H1 H2. by rewrite Ht, K2.
  - intros k Hk. by rewrite Hf, K2.
Qed.

(** What the payouts of a list of orders leave. *)
Record all_paid_out (l : list (string * DocRow)) (s s' : store) : Prop := {
  ap_tables c : c ≠ "orders" → c ≠ "payouts" → table_rows s' c = table_rows s c;
  ap_paid id row : (id, row) ∈ l → eligible s id row →
    (∃ row', orders_of s' !! id = Some row' ∧ get "payoutStatus" (row_data row') = Some (VString (payout_outcome row)))
    ∧ ∀ sid amount, sellers_of row !! sid = Some amount →
        ∃ r, payouts_of s' !! payout_id id sid = Some r ∧ recorded id sid amount (fee_of row amount) r;
  ap_orders id : (∀ row, (id, row) ∈ l → ¬ eligible s id row) → orders_of s' !! id = orders_of s !! id;
  ap_payouts k : (∀ id row sid, (id, row) ∈ l → eligible s id row → is_Some (sellers_of row !! sid) → k ≠ payout_id id sid) →
    payouts_of s' !! k = payouts_of s !! k;
}.
Lemma eligible_same s s' id row :
  (∀ c, c ≠ "orders" → c ≠ "payouts" → table_rows s' c = table_rows s c) → eligible s' id row ↔ eligible s id row.
Proof. intros Hk. unfold eligible. by rewrite !Hk by done. Qed.
Lemma head_paid_out id row l s s1 s' :
  (id ∉ l.*1) → plain_id id = true → (∀ id' row', (id', row') ∈ l → plain_id id' = true) →
  eligible s id row → paid_out id row s s1 → all_paid_out l s1 s' → all_paid_out ((id, row) :: l) s s'.
Proof.
  intros Hni Hid Hl Hel [(row1 & Ho & Hst) Ht Hb Hf Hr] [At Ap Ao Ak].
  pose proof (λ id row, eligible_same s s1 id row Ht) as Hsame.
  assert (∀ row', (id, row') ∉ l) as Hni' by (intros row' Hin; apply Hni; apply list_elem_of_fmap; by exists (id, row')).
  constructor.
  - intros c H1 H2. by rewrite At, Ht.
  - intros id' row' [[= -> ->]|Hin]%elem_of_cons He; [|by apply Ap; [|apply Hsame]]. split.
    + exists row1. split; [|done]. rewrite Ao by (intros row' Hin; by destruct (Hni' row')). by rewrite Ho, lookup_insert_eq.
    + intros sid amount Hs. destruct (Hr sid amount Hs) as (r & Hr1 & Hrec). exists r. split; [|done]. rewrite Ak; [done|].
      intros id' row' sid' Hin _ _ Heq. apply payout_id_inj in Heq as [-> _]; [by destruct (Hni' row')|done|by eapply Hl].
  - intros id' Hn. rewrite Ao by (intros row' Hin; rewrite Hsame; apply Hn; by right). rewrite Ho, lookup_insert_ne; [done|].
    intros ->. by apply (Hn row); [left|].
  - intros k Hk. rewrite Ak by (intros id' row' sid' Hin He; apply (Hk id' row' sid'); [by right|by apply Hsame]).
    apply Hf. intros sid Hs. apply (Hk id row sid); [left|done..].
Qed.
Lemma head_skipped id row l s s1 s' :
  ¬ eligible s id row → (∀ c, table_rows s1 c = table_rows s c) → all_paid_out l s1 s' → all_paid_out ((id, row) :: l) s s'.
Proof.
  intros Hel Hk [At Ap Ao Ak]. pose proof (λ id row, eligible_same s s1 id row (λ c _ _, Hk c)) as Hsame.
  unfold orders_of in *. constructor; unfold orders_of in *.
  - intros c H1 H2. by rewrite At, Hk.
  - intros id' row' [[= -> ->]|Hin]%elem_of_cons He; [done|]. by apply Ap; [|apply Hsame].
  - intros id' Hn. rewrite Ao, Hk; [done|]. intros row' Hin. rewrite Hsame. apply Hn. by right.
  - intros k Hn. rewrite Ak, Hk; [done|]. intros id' row' sid' Hin He. apply (Hn id' row' sid'); [by right|by apply Hsame].
Qed.
Lemma payout_loop e i l s :
  NoDup l.*1 → object_rows (payouts_of s) →
  (∀ id row, (id, row) ∈ l → orders_of s !! id = Some row ∧ plain_id id = true ∧ ∃ m, row_data row = VObject m) →
  ∃ s', each_from i (consider_payout scan traverse e) ((λ kr : string * DocRow, row_to_doc kr.1 kr.2) <$> l) s = (s', Ok tt)
    ∧ all_paid_out l s s'.
Proof.
  revert i s. induction l as [|[id row] l IH]; intros i s Hnd Hobj Hl.
  { exists s. split; [done|]. constructor; try done. intros ??[]%elem_of_nil. }
  destruct (Hl id row (list_elem_of_here _ _)) as (Hrow & Hid & m & Hm). apply NoDup_cons in Hnd as [Hni Hnd].
  cbn [fmap list_fmap fst snd each_from]. destruct (consider_run e i id row m s Hrow Hm Hid Hobj) as (s1 & R1 & Hcase).
  rewrite (bind_run _ _ _ _ _ R1).
  assert (∀ id' row', (id', row') ∈ l → orders_of s1 !! id' = orders_of s !! id') as Hkeep.
  { intros id' row' Hin. destruct Hcase as [[_ [(row1 & Ho & _) _ _ _ _]]|[_ Hk]]; [|unfold orders_of; by rewrite Hk].
    rewrite Ho, lookup_insert_ne; [done|]. intros ->. apply Hni, list_elem_of_fmap. by exists (id', row'). }
  destruct (IH (S i) s1) as (s' & R' & Hap); [done| | |].
  { destruct Hcase as [[_ Hpo]|[_ Hk]]; [apply Hpo|by rewrite Hk]. }
  { intros id' row' Hin. rewrite (Hkeep id' row' Hin). apply Hl. by right. }
  exists s'. split; [done|]. destruct Hcase as [[Hel Hpo]|[Hel Hk]]; [|by eapply head_skipped].
  eapply head_paid_out; [done|done| |done|exact Hpo|done]. intros id' row' Hin. by destruct (Hl id' row' ltac:(by right)) as (_ & ? & _).
Qed.

(** The configuration switches Stripe off: the first provider of that name is not enabled. *)
Definition stripe_off (s : store) : Prop :=
  ∃ row providers i p, table_rows s "config" !! "payment_providers" = Some row
    ∧ get "providers" (row_data row) = Some (VArray providers) ∧ providers !! i = Some p
    ∧ get "name" p = Some (VString "stripe") ∧ get "enabled" p = Some (VBool false)
    ∧ ∀ k q, providers !! k = Some q → (k < i)%nat → get "name" q ≠ Some (VString "stripe").
Lemma named_stripe p : get "name" p ≫= as_str = Some "stripe" ↔ get "name" p = Some (VString "stripe").
Proof. destruct (get "name" p) as [[]|]; naive_solver. Qed.
Lemma provider_run s :
  ∃ s' b, stripe_provider_enabled s = (s', Ok b) ∧ (b = false ↔ stripe_off s).
Proof.
  unfold stripe_provider_enabled. erewrite bind_run by (by apply attempt_get). eexists _, _. split; [reflexivity|].
  change (bare_id "config" "payment_providers") with "payment_providers". unfold stripe_off. setoid_rewrite <- named_stripe.
  destruct (table_rows s "config" !! "payment_providers") as [row|]; [|split; [done|by intros (? & ? & ? & ? & [=] & _)]]. cbn [fmap option_fmap option_map].
  rewrite get_row_to_doc by concrete.
  destruct (get "providers" (row_data row)) as [[| | | |providers|]|] eqn:Ep;
    try (split; [done|]; intros (? & ? & ? & ? & [= <-] & E & _); by rewrite Ep in E). cbn [mbind option_bind as_array].
  destruct (list_find _ providers) as [[i p]|] eqn:Ef; cbn [fmap option_fmap option_map mbind option_bind snd default from_option id].
  - apply list_find_Some in Ef as (Hi & Hn & Hf). split.
    + intros Hb. exists row, providers, i, p. destruct (get "enabled" p) as [[]|]; cbn in Hb; try done. by subst.
    + intros (? & ? & i' & p' & [= <-] & E & Hi' & Hn' & He & Hf'). rewrite Ep in E. injection E as <-. destruct (lt_eq_lt_dec i i') as [[Hlt| ->]|Hlt].
      * by destruct (Hf' _ _ Hi Hlt).
      * rewrite Hi in Hi'. injection Hi' as <-. by rewrite He.
      * by destruct (Hf _ _ Hi' Hlt).
  - split; [done|]. intros (? & ? & i' & p' & [= <-] & E & Hi' & Hn' & _). rewrite Ep in E. injection E as <-. apply list_find_None in Ef.
    rewrite Forall_lookup in Ef. by destruct (Ef _ _ Hi').
Qed.

(** The job with its lock, while Stripe is enabled. *)
Lemma payouts_run e s s1 s2 :
  uuid_orders s → object_rows (payouts_of s) →
  acquire_cron_lock e "auto_capture_confirmed_receipts" 30 s = (s1, Ok true) → stripe_provider_enabled s1 = (s2, Ok true) →
  ∃ s', auto_capture_confirmed_receipts scan traverse e s = (s', Ok tt)
    ∧ let l := selected scan 250 (payable (payout_cutoff e)) (orders_of s) in
      (∀ id row, (id, row) ∈ l → eligible s id row →
         (∃ row', orders_of s' !! id = Some row' ∧ get "payoutStatus" (row_data row') = Some (VString (payout_outcome row)))
         ∧ ∀ sid amount, sellers_of row !! sid = Some amount →
             ∃ r, payouts_of s' !! payout_id id sid = Some r ∧ recorded id sid amount (fee_of row amount) r)
      ∧ (∀ id, (∀ row, (id, row) ∈ l → ¬ eligible s id row) → orders_of s' !! id = orders_of s !! id)
      ∧ ∀ k, (∀ id row sid, (id, row) ∈ l → eligible s id row → is_Some (sellers_of row !! sid) → k ≠ payout_id id sid) →
          payouts_of s' !! k = payouts_of s !! k.
Proof.
  intros Hu Hobj Ha Hen. set (l := selected scan 250 _ _).
  assert (∀ c, "_cron_locks" ≠ c → table_rows s2 c = table_rows s c) as K2.
  { intros c Hc. rewrite <- (acquired_rows _ _ _ _ _ c Ha Hc). by eapply keeps_run; [apply keeps_provider|]. }
  set (s3 := (ensure_table "orders" s2).1).
  assert (∀ c, "_cron_locks" ≠ c → table_rows s3 c = table_rows s c) as K3.
  { intros c Hc. unfold s3. rewrite keeps_ensure_first. by apply K2. }
  destruct (payout_loop e 0 l s3) as (s4 & R4 & [At Ap Ao Ak]); [by apply selected_nodup|by rewrite K3| |].
  { intros id row Hin. apply (selected_in _ scan_rows) in Hin as [Hrow Hp]. unfold orders_of in *. rewrite K3 by done.
    split_and!; [done|apply Hu; by eexists|]. unfold payable in Hp. bools. by eapply text_in_object. }
  assert (run_auto_capture scan traverse e s1 = (s4, Ok tt)) as Hw.
  { unfold run_auto_capture. rewrite (bind_run _ _ _ _ _ Hen). cbn [negb].
    rewrite (bind_run _ _ _ _ _ (select_run scan 250 "orders" _ s2)). rewrite K2 by done. done. }
  unfold auto_capture_confirmed_receipts. rewrite (locked_ok _ _ _ _ _ _ Ha) by by rewrite Hw. rewrite Hw. cbn [fst].
  assert (calm (release_cron_lock e "auto_capture_confirmed_receipts")) as Hc by (unfold release_cron_lock; auto with cron).
  destruct (calm_run _ s4 Hc) as [[] Hr]. eexists. split; [exact Hr|]. cbv zeta.
  pose proof (λ c Hc, keeps_release c e "auto_capture_confirmed_receipts" Hc s4) as Hk. unfold orders_of in *. rewrite !Hk by done.
  assert (∀ id row, eligible s3 id row ↔ eligible s id row) as Hel.
  { intros id row. unfold eligible. by rewrite !K3 by done. }
  rewrite !K3 in * by done. split_and!.
  - intros id row Hin He. apply Ap; [done|by apply Hel].
  - intros id Hn. apply Ao. intros row. rewrite Hel. apply Hn.
  - intros k Hn. apply Ak. intros id row sid Hin He. apply (Hn id row sid Hin). by apply Hel.
Qed.

(** The job with its lock, while Stripe is disabled. *)
Lemma payouts_skipped e s s1 s2 :
  acquire_cron_lock e "auto_capture_confirmed_receipts" 30 s = (s1, Ok true) → stripe_provider_enabled s1 = (s2, Ok false) →
  ∃ s', auto_capture_confirmed_receipts scan traverse e s = (s', Ok tt)
    ∧ orders_of s' = orders_of s ∧ payouts_of s' = payouts_of s.
Proof.
  intros Ha Hen.
  assert (run_auto_capture scan traverse e s1 = (s2, Ok tt)) as Hw by (unfold run_auto_capture; by rewrite (bind_run _ _ _ _ _ Hen)).
  unfold auto_capture_confirmed_receipts. rewrite (locked_ok _ _ _ _ _ _ Ha) by by rewrite Hw. rewrite Hw. cbn [fst].
  assert (calm (release_cron_lock e "auto_capture_confirmed_receipts")) as Hc by (unfold release_cron_lock; auto with cron).
  destruct (calm_run _ s2 Hc) as [[] Hr]. eexists. split; [exact Hr|].
  pose proof (λ c Hc, keeps_release c e "auto_capture_confirmed_receipts" Hc s2) as Hk. unfold orders_of in *. rewrite !Hk by done.
  rewrite <- !(acquired_rows _ _ _ _ _ _ Ha) by done.
  split; by eapply keeps_run; [apply keeps_provider|].
Qed.

(** *** Amounts and fees *)
Definition is_delivered (item : Value) : bool := str_field item "status" =s? "delivered".
Definition owed (item : Value) : Z := if is_delivered item then gross item else 0.
Definition owed_to (sid : string) (item : Value) : Z :=
  if is_delivered item && (str_field item "sellerId" =s? sid) then gross item else 0.
Definition sum_of (m : gmap string Z) : Z := total (map_to_list m).*2.
Instance total_perm : Proper (Permutation ==> eq) total.
Proof. intros l l' Hp. unfold total. induction Hp; cbn; lia. Qed.
Lemma total_app l l' : total (l ++ l') = total l + total l'.
Proof. unfold total. induction l as [|x l IH]; cbn in *; lia. Qed.
Lemma sum_insert m k v : sum_of (<[k := v]> m) = sum_of m - default 0 (m !! k) + v.
Proof.
  unfold sum_of. destruct (m !! k) as [x|] eqn:E.
  - rewrite <- insert_delete_eq, map_to_list_insert by apply lookup_delete_eq.
    rewrite <- (insert_delete_id m k x E) at 2. rewrite map_to_list_insert by apply lookup_delete_eq.
    unfold total. cbn. lia.
  - rewrite map_to_list_insert by done. unfold total. cbn. lia.
Qed.

(** The amounts are those of the delivered items, as long as they fit. *)
Lemma gross_exact item : 0 ≤ gross item ≤ i64_max → i64_mul (cents item "priceCents") (quantity_of item) = gross item.
Proof. intros Hg. unfold i64_mul, gross in *. apply wrap_signed_id; unfold i64_max in *; lia. Qed.
Lemma sum_nonneg m : map_Forall (λ _ a, 0 ≤ a) m → 0 ≤ sum_of m.
Proof.
  induction m as [|k x m Hk IH] using map_ind; [done|]. intros [Hx Hm]%map_Forall_insert; [|done].
  rewrite sum_insert, Hk. cbn. specialize (IH Hm). lia.
Qed.
Lemma amount_bounds m k : map_Forall (λ _ a, 0 ≤ a) m → 0 ≤ default 0 (m !! k) ≤ sum_of m.
Proof.
  intros Hm. destruct (m !! k) as [x|] eqn:E; cbn; [|split; [done|by apply sum_nonneg]].
  rewrite <- (insert_delete_id m k x E), sum_insert, lookup_delete_eq. cbn. pose proof (Hm _ _ E). cbn in *.
  assert (0 ≤ sum_of (delete k m)) by (apply sum_nonneg; by apply map_Forall_delete). lia.
Qed.
Lemma add_item_sum m item :
  map_Forall (λ _ a, 0 ≤ a) m → 0 ≤ owed item → sum_of m + owed item ≤ i64_max →
  map_Forall (λ _ a, 0 ≤ a) (add_item m item) ∧ sum_of (add_item m item) = sum_of m + owed item
  ∧ ∀ sid, default 0 (add_item m item !! sid) = default 0 (m !! sid) + owed_to sid item.
Proof.
  intros Hm H0 Hle. unfold add_item, owed, owed_to, is_delivered in *.
  destruct (str_field item "status" =s? "delivered"); cbn [negb andb] in *; [|split_and!; [done|lia|intros; lia]].
  set (seller := str_field item "sellerId"). cbv zeta. pose proof (amount_bounds m seller Hm) as Hb.
  pose proof (sum_nonneg m Hm) as Hs. rewrite gross_exact by lia.
  unfold i64_add. rewrite wrap_signed_id by (unfold i64_max in *; lia). split_and!.
  - apply map_Forall_insert_2; [lia|done].
  - rewrite sum_insert. lia.
  - intros sid. destruct (seller =s? sid) eqn:E; bools; [subst sid; rewrite lookup_insert_eq; cbn; lia|].
    rewrite lookup_insert_ne by done. lia.
Qed.
Lemma add_items_sum items m :
  map_Forall (λ _ a, 0 ≤ a) m → Forall (λ item, 0 ≤ owed item) items → sum_of m + total (owed <$> items) ≤ i64_max →
  let m' := foldl add_item m items in
  map_Forall (λ _ a, 0 ≤ a) m' ∧ sum_of m' = sum_of m + total (owed <$> items)
  ∧ ∀ sid, default 0 (m' !! sid) = default 0 (m !! sid) + total (owed_to sid <$> items).
Proof.
  intros Hm Hf. revert m Hm. induction Hf as [|item items H0 Hf IH]; intros m Hm Hle; cbv zeta.
  { split_and!; [done|unfold total; cbn; lia|intros; unfold total; cbn; lia]. }
  unfold total in *. cbn [fmap list_fmap foldr foldl] in *.
  assert (0 ≤ total (owed <$> items)) as Hp.
  { clear -Hf. unfold total. induction Hf; cbn in *; lia. }
  unfold total in Hp. destruct (add_item_sum m item Hm H0) as (H1 & H2 & H3); [lia|].
  destruct (IH (add_item m item) H1) as (H4 & H5 & H6); [lia|]. split_and!; [done|lia|]. intros sid. rewrite H6, H3. lia.
Qed.

(** The share of the fee, rounded to the nearest cent. *)
Lemma fee_rounded amount fee sub :
  0 ≤ amount → 0 ≤ fee ≤ sub → 1 ≤ sub → amount * fee + sub ≤ i64_max →
  0 ≤ fee_cents amount fee sub ≤ amount ∧ Z.abs (2 * (sub * fee_cents amount fee sub - amount * fee)) ≤ sub.
Proof.
  intros Ha Hf Hs Hle. unfold fee_cents. pose proof (Z.quot_le_upper_bound sub 2 sub ltac:(lia) ltac:(lia)) as Hq.
  assert (0 ≤ amount * fee) as Hm by nia. assert (0 ≤ sub `quot` 2) as Hq0 by (apply Z.quot_pos; lia).
  assert (sub - 1 ≤ 2 * (sub `quot` 2) ≤ sub) as Hq2 by (rewrite Z.quot_div_nonneg by lia; pose proof (Z.div_mod sub 2); pose proof (Z.mod_pos_bound sub 2); lia).
  unfold i64_mul, i64_add. rewrite (wrap_signed_id 64 (amount * fee)) by (unfold i64_max in *; lia).
  rewrite wrap_signed_id by (unfold i64_max in *; lia). rewrite Z.quot_div_nonneg by lia.
  set (x := amount * fee + sub `quot` 2) in *. pose proof (Z.div_mod x sub ltac:(lia)) as Hd. pose proof (Z.mod_pos_bound x sub ltac:(lia)) as Hr.
  assert (0 ≤ x / sub) as H1 by (apply Z.div_pos; lia).
  assert (x / sub ≤ amount) as H2.
  { apply Z.lt_succ_r, Z.div_lt_upper_bound; [lia|]. assert (amount * fee ≤ amount * sub) as Hfs by nia.
    rewrite Z.mul_succ_r, (Z.mul_comm sub amount). unfold x. lia. }
  split; [lia|]. unfold x in *. lia.
Qed.

(** Payouts add up.  For an order whose delivered items and fee are not negative,
    with a fee not above the subtotal and everything within 64 bits, the payouts of the
    sellers are together what the delivered items cost and each seller's is what his
    cost; the share of the fee lies between nothing and the amount, so that no seller
    owes, and the shares together differ from the fee on these items by at most half a
    cent per seller. *)
Theorem payout_shares_add_up items fee sub :
  Forall (λ item, 0 ≤ owed item) items → 0 ≤ fee ≤ sub → 1 ≤ sub →
  total (owed <$> items) * fee + sub ≤ i64_max → total (owed <$> items) ≤ i64_max →
  let payouts := traverse (sellers_total_cents items) in
  let shares := (λ payout, fee_cents payout.2 fee sub) <$> payouts in
  total payouts.*2 = total (owed <$> items)
  ∧ (∀ sid amount, (sid, amount) ∈ payouts → amount = total (owed_to sid <$> items)
       ∧ 0 ≤ fee_cents amount fee sub ≤ amount ∧ i64_sub amount (fee_cents amount fee sub) = amount - fee_cents amount fee sub)
  ∧ Z.abs (2 * (sub * total shares - total (owed <$> items) * fee)) ≤ Z.of_nat (length payouts) * sub.
Proof.
  intros H0 Hfee Hsub Hle Hmax payouts shares. destruct (add_items_sum items ∅) as (Hpos & Hsum & Hof); [apply map_Forall_empty|done|done|].
  fold (sellers_total_cents items) in Hpos, Hsum, Hof. change (sum_of ∅) with 0 in Hsum.
  assert (total payouts.*2 = total (owed <$> items)) as Htot.
  { unfold payouts. rewrite (total_perm _ _ (fmap_Permutation snd _ _ (traverse_all _))). unfold sum_of in Hsum. lia. }
  assert (∀ sid amount, (sid, amount) ∈ payouts → sellers_total_cents items !! sid = Some amount) as Hin.
  { intros sid amount Hp. by apply traverse_in in Hp. }
  assert (∀ sid amount, (sid, amount) ∈ payouts → 0 ≤ amount ≤ total (owed <$> items)) as Hb.
  { intros sid amount Hp. apply Hin in Hp. pose proof (amount_bounds _ sid Hpos) as Ha. rewrite Hp in Ha. cbn in Ha. lia. }
  assert (∀ sid amount, (sid, amount) ∈ payouts → 0 ≤ fee_cents amount fee sub ≤ amount
    ∧ Z.abs (2 * (sub * fee_cents amount fee sub - amount * fee)) ≤ sub) as Hfees.
  { intros sid amount Hp. destruct (Hb sid amount Hp). apply fee_rounded; [done..|]. nia. }
  split_and!; [done| |].
  - intros sid amount Hp. destruct (Hfees sid amount Hp) as [Hs _]. split_and!; [|lia|lia|].
    + specialize (Hof sid). rewrite (Hin _ _ Hp), lookup_empty in Hof. cbn in Hof. lia.
    + destruct (Hb sid amount Hp). unfold i64_sub. apply wrap_signed_id; unfold i64_max in *; lia.
  - rewrite <- Htot. unfold shares. clear -Hfees. induction payouts as [|[sid amount] l IH]; [cbn; lia|].
    unfold total in *. cbn [fmap list_fmap foldr length snd] in *. destruct (Hfees sid amount) as [_ Hone]; [left|].
    specialize (IH (λ sid' a' H, Hfees sid' a' (list_elem_of_further _ _ _ H))). lia.
Qed.

(** *** What is paid out *)

(** The seller has a delivered item in the order. *)
Definition sells_delivered (sid : string) (row : DocRow) : Prop :=
  ∃ item, item ∈ items_array (row_data row) ∧ is_delivered item = true ∧ str_field item "sellerId" = sid.
(** What the seller's delivered items cost, and the fee on the whole order. *)
Definition due_to (sid : string) (row : DocRow) : Z := total (owed_to sid <$> items_array (row_data row)).
Definition order_fee (row : DocRow) : Z := cents (row_data row) "platformFeeTotalCents".
Definition order_subtotal (row : DocRow) : Z := Z.max 1 (cents (row_data row) "subtotalCents").
(** Prices and quantities that are not negative, a fee not above the subtotal, and
    products that fit into 64 bits. *)
Record moderate (row : DocRow) : Prop := {
  md_owed : Forall (λ item, 0 ≤ owed item) (items_array (row_data row));
  md_fee : 0 ≤ order_fee row ≤ order_subtotal row;
  md_total : total (owed <$> items_array (row_data row)) ≤ i64_max;
  md_product : total (owed <$> items_array (row_data row)) * order_fee row + order_subtotal row ≤ i64_max;
}.
(** [fee] is the seller's share of the fee to the nearest cent. *)
Definition fee_share (amount fee : Z) (row : DocRow) : Prop :=
  0 ≤ fee ≤ amount ∧ Z.abs (2 * (order_subtotal row * fee - amount * order_fee row)) ≤ order_subtotal row.

Lemma sold_iff sid items m :
  is_Some (foldl add_item m items !! sid)
  ↔ is_Some (m !! sid) ∨ ∃ item, item ∈ items ∧ is_delivered item = true ∧ str_field item "sellerId" = sid.
Proof.
  revert m. induction items as [|item items IH]; intros m; cbn [foldl]; [set_solver|]. rewrite IH. unfold add_item, is_delivered. cbv zeta.
  setoid_rewrite elem_of_cons. destruct (str_field item "status" =s? "delivered") eqn:E; cbn [negb]; [|naive_solver congruence].
  rewrite lookup_insert_is_Some'. naive_solver congruence.
Qed.
Lemma seller_iff row sid : is_Some (sellers_of row !! sid) ↔ sells_delivered sid row.
Proof. unfold sellers_of, sellers_total_cents. rewrite sold_iff, lookup_empty. unfold sells_delivered. naive_solver. Qed.
Lemma outcome_delivered row :
  payout_outcome row = if existsb is_delivered (items_array (row_data row)) then "completed" else "failed".
Proof.
  unfold payout_outcome. case_bool_decide as Hs; destruct (existsb _ _) eqn:E; try done; exfalso.
  - apply existsb_exists in E as (item & Hin%list_elem_of_In & Hd).
    assert (is_Some (sellers_of row !! str_field item "sellerId")) as [a Ha] by (apply seller_iff; by exists item).
    by rewrite Hs, lookup_empty in Ha.
  - apply map_choose in Hs as (sid & a & Ha). destruct (proj1 (seller_iff row sid) (mk_is_Some _ _ Ha)) as (item & Hin & Hd & _).
    apply Bool.not_true_iff_false in E. apply E, existsb_exists. exists item. split; [by apply list_elem_of_In|done].
Qed.
Lemma moderate_share row sid amount :
  moderate row → sellers_of row !! sid = Some amount →
  amount = due_to sid row ∧ fee_share amount (fee_of row amount) row ∧ i64_sub amount (fee_of row amount) = amount - fee_of row amount.
Proof.
  intros [Ho Hf Ht Hp] Hs. destruct (add_items_sum (items_array (row_data row)) ∅) as (Hpos & Hsum & Hof); [apply map_Forall_empty|done|done|].
  fold (sellers_total_cents (items_array (row_data row))) in Hpos, Hsum, Hof. fold (sellers_of row) in Hpos, Hsum, Hof.
  change (sum_of ∅) with 0 in Hsum. pose proof (amount_bounds _ sid Hpos) as Hb. specialize (Hof sid).
  rewrite Hs, lookup_empty in Hof. rewrite Hs in Hb. cbn in Hof, Hb.
  assert (fee_share amount (fee_of row amount) row) as Hfee.
  { apply fee_rounded; [lia|done|unfold order_subtotal; lia|]. fold (order_fee row) (order_subtotal row). nia. }
  split_and!; [unfold due_to; lia|done|]. destruct Hfee as [? _]. unfold i64_sub. apply wrap_signed_id; unfold i64_max in *; lia.
Qed.

(** *** Which orders *)

Lemma text_in_iff f vs row : text_in f vs row = true ↔ field_text f (row_data row) ∈ Some <$> vs.
Proof.
  unfold text_in. rewrite list_elem_of_fmap. destruct (field_text f (row_data row)) as [x|]; [|naive_solver].
  rewrite bool_decide_eq_true. naive_solver.
Qed.
(** Delivered by the time [cutoff], and paid. *)
Definition due_since (cutoff : string) (row : DocRow) : Prop :=
  field_text "orderStatus" (row_data row) = Some "delivered"
  ∧ field_text "paymentStatus" (row_data row) ∈ [Some "captured"; Some "authorized"]
  ∧ ∃ at_, field_text "deliveredAt" (row_data row) = Some at_ ∧ text_compare at_ cutoff ≠ Gt.
Lemma payable_iff cutoff row : payable cutoff row = true ↔ due_since cutoff row.
Proof.
  unfold payable, due_since, text_upto, text_leb. rewrite !andb_true_iff, !text_in_iff.
  cbn [fmap list_fmap order_status_str payment_status_str]. rewrite list_elem_of_singleton.
  destruct (field_text "deliveredAt" (row_data row)) as [x|]; [|by split; [intros [_ ?]|intros (_ & _ & ? & ? & _)]].
  split.
  - intros [[Ho Hp] Hd]. split_and!; [done|done|]. exists x. split; [done|]. by destruct (text_compare x cutoff).
  - intros (Ho & Hp & ? & [= <-] & Hd). split; [done|]. by destruct (text_compare x cutoff).
Qed.
(** The orders one run looks at: at most 250 that are due, and all if they are fewer. *)
Record batch (cutoff : string) (orders : rows) (l : list (string * DocRow)) : Prop := {
  bt_nodup : NoDup l.*1;
  bt_length : (length l ≤ 250)%nat;
  bt_due id row : (id, row) ∈ l → orders !! id = Some row ∧ due_since cutoff row;
  bt_all : (length l < 250)%nat → ∀ id row, orders !! id = Some row → due_since cutoff row → (id, row) ∈ l;
}.
Lemma selected_batch cutoff orders : batch cutoff orders (selected scan 250 (payable cutoff) orders).
Proof.
  constructor.
  - by apply selected_nodup.
  - unfold selected. rewrite length_take. lia.
  - intros id row Hin. apply (selected_in _ scan_rows) in Hin as [Hrow Hp]. split; [done|by apply payable_iff].
  - unfold selected. rewrite length_take. intros Hlen id row Hrow Hd. rewrite take_ge by lia. apply list_elem_of_filter.
    split; [by apply payable_iff|]. rewrite scan_rows. by apply elem_of_map_to_list.
Qed.
(** With a payment, and neither an open dispute nor a running return. *)
Record clear_to_pay (s : store) (id : string) (row : DocRow) : Prop := {
  cp_payment : str_field (row_data row) "paymentIntentId" ≠ "";
  cp_dispute k r : table_rows s "security_alerts" !! k = Some r → field_text "orderId" (row_data r) = Some id →
    field_text "type" (row_data r) = Some "dispute_created" → field_text "resolved" (row_data r) ≠ Some "false";
  cp_return k r : table_rows s "return_requests" !! k = Some r → field_text "orderId" (row_data r) = Some id →
    field_text "returnStatus" (row_data r)
    ∉ [Some "requested"; Some "approved"; Some "label_issued"; Some "received"; Some "escalated"];
}.
Lemma disputed_iff id r :
  disputed id r = false ↔ (field_text "orderId" (row_data r) = Some id →
    field_text "type" (row_data r) = Some "dispute_created" → field_text "resolved" (row_data r) ≠ Some "false").
Proof.
  rewrite <- Bool.not_true_iff_false. unfold disputed. rewrite !andb_true_iff, !text_in_iff. cbn [fmap list_fmap].
  rewrite !list_elem_of_singleton. naive_solver.
Qed.
Lemma being_returned_iff id r :
  being_returned id r = false ↔ (field_text "orderId" (row_data r) = Some id → field_text "returnStatus" (row_data r)
    ∉ [Some "requested"; Some "approved"; Some "label_issued"; Some "received"; Some "escalated"]).
Proof.
  rewrite <- Bool.not_true_iff_false. unfold being_returned. rewrite !andb_true_iff, !text_in_iff. cbn [fmap list_fmap].
  rewrite list_elem_of_singleton. naive_solver.
Qed.
Lemma eligible_iff s id row : eligible s id row ↔ clear_to_pay s id row.
Proof.
  unfold eligible. setoid_rewrite disputed_iff. setoid_rewrite being_returned_iff.
  assert (str_empty (str_field (row_data row) "paymentIntentId") = false ↔ str_field (row_data row) "paymentIntentId" ≠ "") as ->
    by (destruct (str_field (row_data row) "paymentIntentId"); [by split|]; by split).
  split; [intros (? & ? & ?); by constructor|intros []; done].
Qed.

(** C26: payouts are recorded for what was delivered.  When the job obtains its lock it
    succeeds.  While the configuration switches Stripe off, no order and no payout
    changes.  Otherwise, of up to 250 orders that were delivered six days ago and are
    paid (all of them, if there are fewer), each with a payment intent, no open
    dispute and no running return gets one payout record for each seller of a delivered
    item, under an id that the order and the seller determine, and is marked completed
    (failed, if nothing was delivered).  Where prices and fee are moderate, the amount
    is what the delivered items of the seller cost, the fee his share of the fee of the
    order to the nearest cent, and the net amount the difference.  All other orders and
    payouts stay as they are. *)
Theorem payouts_recorded e s s1 :
  uuid_orders s → object_rows (payouts_of s) →
  acquire_cron_lock e "auto_capture_confirmed_receipts" 30 s = (s1, Ok true) →
  ∃ s', auto_capture_confirmed_receipts scan traverse e s = (s', Ok tt)
    ∧ (stripe_off s → orders_of s' = orders_of s ∧ payouts_of s' = payouts_of s)
    ∧ (¬ stripe_off s → ∃ l, batch (to_rfc3339 (ce_now e [0%nat] - 6 * 86400 * micros_per_sec)) (orders_of s) l
       ∧ (∀ id row, (id, row) ∈ l → clear_to_pay s id row →
          (∃ row', orders_of s' !! id = Some row'
             ∧ get "payoutStatus" (row_data row')
               = Some (VString (if existsb is_delivered (items_array (row_data row)) then "completed" else "failed")))
          ∧ ∀ sid, sells_delivered sid row →
              ∃ r amount fee, payouts_of s' !! payout_id id sid = Some r ∧ recorded id sid amount fee r
                ∧ (moderate row → amount = due_to sid row ∧ fee_share amount fee row
                     ∧ get "netAmountCents" (row_data r) = Some (of_i64 (amount - fee))))
       ∧ (∀ id, (∀ row, (id, row) ∈ l → ¬ clear_to_pay s id row) → orders_of s' !! id = orders_of s !! id)
       ∧ ∀ k, (∀ id row sid, (id, row) ∈ l → clear_to_pay s id row → sells_delivered sid row → k ≠ payout_id id sid) →
           payouts_of s' !! k = payouts_of s !! k).
Proof.
  intros Hu Hobj Ha. destruct (provider_run s1) as (s2 & b & Hen & Hb).
  assert (stripe_off s1 ↔ stripe_off s) as Hoff by (unfold stripe_off; by rewrite (acquired_rows _ _ _ _ _ "config" Ha)).
  rewrite Hoff in Hb. setoid_rewrite <- eligible_iff. destruct b.
  - destruct (payouts_run _ _ _ _ Hu Hobj Ha Hen) as (s' & Hrun & Hpaid & Ho & Hp). exists s'. split; [done|].
    split; [intros H; by apply Hb in H|]. intros _. eexists. split; [apply selected_batch|].
    change (to_rfc3339 (ce_now e [0%nat] - 6 * 86400 * micros_per_sec)) with (payout_cutoff e). split_and!; [|done|].
    + intros id row Hin Hel. destruct (Hpaid id row Hin Hel) as [Hst Hrec]. rewrite outcome_delivered in Hst. split; [done|].
      intros sid [amount Hs]%seller_iff. destruct (Hrec sid amount Hs) as (r & Hr & Hrd). exists r, amount, (fee_of row amount).
      split_and!; [done|done|]. intros Hm. destruct (moderate_share _ _ _ Hm Hs) as (? & ? & <-). split_and!; [done|done|]. by apply rc_net in Hrd.
    + intros k Hk. apply Hp. intros id row sid Hin Hel Hs. apply (Hk id row sid Hin Hel). by apply seller_iff.
  - destruct (payouts_skipped _ _ _ _ Ha Hen) as (s' & Hrun & Hsame). exists s'. split_and!; [done|done|].
    intros Hn. by destruct Hn; apply Hb.
Qed.
End payouts.

(** ** The lock *)
Section lock.
Context `{C : Chrono} `{P : PgJson} `{T : TextLib}.
Local Open Scope Z_scope.

Lemma lock_written e name ttl s s1 :
  acquire_cron_lock e name ttl s = (s1, Ok true) → object_rows (table_rows s "_cron_locks") →
  ∃ row, table_rows s1 "_cron_locks" !! bare_id "_cron_locks" name = Some row
    ∧ get "lockedAt" (row_data row) = Some (VString (to_rfc3339 (ce_now e [])))
    ∧ get "status" (row_data row) = Some (VString "running").
Proof.
  intros Ha Hobj. unfold acquire_cron_lock in Ha. rewrite (bind_run _ _ _ _ _ (attempt_get "_cron_locks" name s eq_refl)) in Ha.
  destruct (match _ <$> _ with Some doc => _ | None => _ end) in Ha; [done|]. unfold succeeded in Ha.
  pose proof (upsert_rows "_cron_locks" name (lock_data name (ce_now e [])) (ce_clock e []) (ensured "_cron_locks" s) eq_refl) as Hu.
  destruct (upsert_document _ _ _ _ _) as [s2 [v|err|]]; [|done..]. injection Ha as <-. cbn [fst] in Hu. rewrite table_rows_ensured in Hu.
  eexists. rewrite Hu, lookup_insert_eq. split; [done|].
  destruct (table_rows s "_cron_locks" !! bare_id "_cron_locks" name) as [row|] eqn:E; [|done].
  destruct (Hobj _ _ E) as [m Hm]. unfold lock_data. by split; (erewrite merged_row_get; [|concrete|exact Hm]).
Qed.

(** While a job runs, and until its lock has outlived its time, further runs of the
    same job do nothing. *)
Theorem running_job_excludes e e' name ttl work s s1 :
  acquire_cron_lock e name ttl s = (s1, Ok true) → object_rows (table_rows s "_cron_locks") →
  parse_rfc3339 (to_rfc3339 (ce_now e [])) = Some (ce_now e []) → ce_now e' [] - minutes ttl < ce_now e [] →
  (locked e' name ttl work s1).2 = Ok tt ∧ ∀ c, table_rows (locked e' name ttl work s1).1 c = table_rows s1 c.
Proof.
  intros Ha Hobj Hp Hlt. destruct (lock_written _ _ _ _ _ Ha Hobj) as (row & Hrow & Hat & Hst).
  assert (acquire_cron_lock e' name ttl s1 = (ensured "_cron_locks" s1, Ok false)) as Hno.
  { unfold acquire_cron_lock. rewrite (bind_run _ _ _ _ _ (attempt_get "_cron_locks" name s1 eq_refl)), Hrow.
    cbn [fmap option_fmap option_map]. unfold lock_held. rewrite !get_row_to_doc by concrete. rewrite Hat, Hst. cbn [mbind option_bind as_str].
    rewrite Hp. by rewrite (proj2 (Z.ltb_lt _ _) Hlt). }
  unfold locked. rewrite (bind_run _ _ _ _ _ Hno). split; [done|]. intros c. apply table_rows_ensured.
Qed.
End lock.

(** ** Where the jobs fall short *)
Section shortcomings.
Context `{C : Chrono} `{P : PgJson} `{T : TextLib} `{L : Collation}.

(** The time of a delivery is stored with the items; only an order that has it itself
    is due for a payout. *)
Lemma payout_needs_delivery_time cutoff row : get "deliveredAt" (row_data row) = None → payable cutoff row = false.
Proof. intros Hd. unfold payable, text_upto, field_text. rewrite Hd. apply andb_false_r. Qed.
(** An order that has been paid out stays due: with 250 of them the others wait. *)
Lemma paid_order_stays_due cutoff status now t row m :
  row_data row = VObject m → payable cutoff (merged_row (payout_status_doc status now) t row) = payable cutoff row.
Proof.
  intros Hm. unfold payable, text_in, text_upto, field_text, payout_status_doc.
  by rewrite !(merged_row_get _ _ row m) by (concrete || done).
Qed.
(** The use of a coupon stays reserved for an order that is given up. *)
Lemma expiry_keeps_coupons scan stripe_cancels e : keeps "coupon_uses" (check_expired_authorizations scan stripe_cancels e).
Proof.
  apply keeps_locked; [done..|]. apply keeps_bind; [apply keeps_select_limit|]. intros docs. apply keeps_each. intros i doc.
  unfold expire_order. apply keeps_bind.
  - apply keeps_attempt. intros s. by apply cas_elsewhere.
  - intros [[v|]|]; [by apply keeps_after_expiry|apply keeps_pure..].
Qed.
(** The records of the limiter have no time of a last request. *)
Lemma limits_never_stale cutoff user_id action t now : text_upto "lastRequest" cutoff (limit_record user_id action t now) = false.
Proof. done. Qed.
End shortcomings.

(** ** Concrete instances *)
Section cron_witnesses.
#[local] Instance demo_j_chrono : Chrono := plain_chrono.
#[local] Instance demo_j_json : PgJson := plain_json.
#[local] Instance demo_j_laws : PgJsonLaws demo_j_json := plain_json_laws.
#[local] Instance demo_j_text : TextLib := plain_textlib.
#[local] Instance demo_j_collation : Collation := byte_collation.

Definition demo_j_now : Z := 9760000000000000.
Definition demo_j_env : cron_env :=
  {| ce_now := λ _, demo_j_now; ce_clock := λ _, 7%Z; ce_fresh := λ _, "f1"; ce_stripe_key := Some "sk" |}.
Definition order_item (status : string) (price : Z) : Value :=
  VObject [("priceCents", of_i64 price); ("productId", VString "p1"); ("quantity", of_i64 1); ("sellerId", VString "sue");
           ("status", VString status)].
Definition due_order (fields : list (string * Value)) : DocRow := plain_row (VObject fields).
Definition delivered_order : DocRow :=
  due_order [("deliveredAt", VString "1"); ("items", VArray [order_item "delivered" 1000; order_item "shipped" 70]);
             ("orderStatus", VString "delivered"); ("paymentIntentId", VString "pi_1"); ("paymentStatus", VString "captured");
             ("platformFeeTotalCents", of_i64 100); ("subtotalCents", of_i64 1070)].
Definition payout_store : store := {["orders" := {["o1" := delivered_order]}]}.
Definition run_payouts (s : store) : store := (auto_capture_confirmed_receipts map_to_list map_to_list demo_j_env s).1.
Example payout_of_delivered_item :
  (λ r : DocRow, (cents (row_data r) "amountCents", cents (row_data r) "platformFeeTotalCents", cents (row_data r) "netAmountCents"))
    <$> (table_rows (run_payouts payout_store) "payouts" !! "o1_sue") = Some (1000, 93, 907)%Z.
Proof. evaluates. Qed.

Definition no_cancel (payment_intent : string) : cancel_reply := CancelDone.
Definition expire_now (s : store) : store * Result unit := check_expired_authorizations map_to_list no_cancel demo_j_env s.
Lemma orders_o1 : orders_of after_two = {["o1" := placed_o1]}.
Proof. by vm_compute. Qed.
Lemma uuid_single s row : orders_of s = {["o1" := row]} → uuid_orders s.
Proof. intros E id [r Hr]. rewrite E in Hr. apply lookup_singleton_Some in Hr as [<- _]. done. Qed.
Definition locked_store (name : string) (s : store) : store := (acquire_cron_lock demo_j_env name 30 s).1.

Lemma cron_respects_orders_witness :
  option_Forall2 cron_kept (orders_of after_two !! "o1")
    (orders_of (run_jobs map_to_list map_to_list no_cancel [(ExpiredAuthorizations, demo_j_env); (ArchiveOrders, demo_j_env)] after_two) !! "o1").
Proof. apply (cron_respects_orders map_to_list demo_scan). apply (uuid_single _ placed_o1). apply orders_o1. Defined.

Lemma left_p1 : stocked after_two "p1" 1.
Proof. exists (default (plain_row VNull) (table_rows after_two "products" !! "p1")). split_and!; [evaluates|evaluates|lia|unfold i64_max; lia]. Qed.
Lemma expired_orders_restocked_witness :
  ∃ s', expire_now after_two = (s', Ok tt) ∧ stocked s' "p1" 3.
Proof.
  destruct (expired_orders_restocked map_to_list demo_scan no_cancel demo_j_env after_two
    (locked_store "check_expired_authorizations" after_two)) as (s' & Hrun & _ & _ & Hst).
  - apply (uuid_single _ placed_o1). apply orders_o1.
  - evaluates.
  - exists s'. split; [exact Hrun|].
    assert (given_by "p1" (given_up map_to_list demo_j_env after_two) = 2)%Z as E by evaluates.
    specialize (Hst "p1" 1%Z). rewrite E in Hst. apply Hst; [|lia|by vm_compute]. apply left_p1.
Defined.

Lemma unpaid_checkout_undone_witness :
  ∃ s2 row', expire_now after_two = (s2, Ok tt) ∧ orders_of s2 !! "o1" = Some row' ∧ status_text row' = "expired"
    ∧ ∀ pid n, stocked demo_shop pid n → (order_units pid (row_data placed_o1) ≤ n ≤ i32_max)%Z → stocked s2 pid n.
Proof.
  apply (unpaid_checkout_undone map_to_list demo_scan no_cancel "" id id (λ _ _, Ok tt) demo_stripe (demo_k_env "o1" "l1")
    (admin_auth "ann") two_of_p1 demo_shop after_two (demo_response 637) demo_j_env
    (locked_store "check_expired_authorizations" after_two) placed_o1).
  - apply demo_placed.
  - reflexivity.
  - apply placed_o1_row.
  - apply (uuid_single _ placed_o1). apply orders_o1.
  - evaluates.
  - evaluates.
  - intros i r Hr. assert (orders_of demo_shop = ∅) as E by evaluates. rewrite E, lookup_empty in Hr. discriminate Hr.
Defined.

Lemma delivered_moderate : moderate delivered_order.
Proof. split; [apply (bool_decide_unpack _)|split..| |]; by vm_compute. Qed.
Lemma stripe_on : ¬ stripe_off payout_store.
Proof.
  intros (row & ps & i & p & Hrow & _). assert (table_rows payout_store "config" = ∅) as E by evaluates. by rewrite E, lookup_empty in Hrow.
Qed.
(** The fee follows: no other whole number is the share of 1000 in 100 of 1070. *)
Lemma payouts_recorded_witness :
  ∃ s' r, auto_capture_confirmed_receipts map_to_list map_to_list demo_j_env payout_store = (s', Ok tt)
    ∧ table_rows s' "payouts" !! "o1_sue" = Some r ∧ recorded "o1" "sue" 1000 93 r
    ∧ get "netAmountCents" (row_data r) = Some (of_i64 907).
Proof.
  destruct (payouts_recorded map_to_list demo_scan map_to_list (λ m, reflexivity _) demo_j_env payout_store
    (locked_store "auto_capture_confirmed_receipts" payout_store)) as (s' & Hrun & _ & Hon).
  - apply (uuid_single _ delivered_order). evaluates.
  - intros k r Hr. assert (table_rows payout_store "payouts" = ∅) as E by evaluates. rewrite E, lookup_empty in Hr. discriminate Hr.
  - evaluates.
  - destruct (Hon stripe_on) as (l & Hl & Hpaid & _). destruct (Hpaid "o1" delivered_order) as [_ Hrec].
    + apply (bt_all _ _ _ Hl); [|evaluates|apply payable_iff; evaluates].
      assert (Forall (λ kr, kr.1 = "o1") l) as Hone.
      { apply Forall_forall. intros [k r] Hin. apply (bt_due _ _ _ Hl) in Hin as [Hr _].
        assert (orders_of payout_store = {["o1" := delivered_order]}) as E by evaluates.
        rewrite E in Hr. by apply lookup_singleton_Some in Hr as [<- _]. }
      destruct l as [|[k1 r1] [|[k2 r2] l]]; [cbn; lia|cbn; lia|exfalso].
      pose proof (bt_nodup _ _ _ Hl) as Hnd. apply Forall_cons in Hone as [H1 [H2 _]%Forall_cons]. cbn in H1, H2, Hnd. subst.
      apply NoDup_cons in Hnd as [Hni _]. apply Hni. left.
    + split; [by vm_compute| |].
      * intros k r Hr. assert (table_rows payout_store "security_alerts" = ∅) as E by evaluates. rewrite E, lookup_empty in Hr. discriminate Hr.
      * intros k r Hr. assert (table_rows payout_store "return_requests" = ∅) as E by evaluates. rewrite E, lookup_empty in Hr. discriminate Hr.
    + destruct (Hrec "sue") as (r & amount & fee & Hr & Hrd & Hm).
      * exists (order_item "delivered" 1000). split; [left|]. split; evaluates.
      * destruct (Hm delivered_moderate) as (Ha & [_ Hf] & Hnet). assert (due_to "sue" delivered_order = 1000%Z) as E by evaluates.
        rewrite E in Ha. subst amount. change (order_subtotal delivered_order) with 1070%Z in Hf.
        change (order_fee delivered_order) with 100%Z in Hf. assert (fee = 93%Z) as Hfee by lia. rewrite Hfee in Hrd, Hnet.
        exists s', r. split; [exact Hrun|]. split; [exact Hr|]. split; [exact Hrd|exact Hnet].
Defined.

Definition two_sellers : list Value :=
  [order_item "delivered" 1000; VObject [("priceCents", of_i64 500); ("quantity", of_i64 3); ("sellerId", VString "bob"); ("status", VString "delivered")]].
Lemma payout_shares_add_up_witness :
  (total (map_to_list (sellers_total_cents two_sellers)).*2 = 2500)%Z.
Proof.
  destruct (payout_shares_add_up map_to_list (λ m, reflexivity _) two_sellers 123 2500) as (Htot & _ & _).
  - apply (bool_decide_unpack _). by vm_compute.
  - lia.
  - lia.
  - by vm_compute.
  - by vm_compute.
  - rewrite Htot. evaluates.
Defined.
End cron_witnesses.

(** *** Times of two kinds *)
Section dated.
(** Printed times start with the year, as in RFC 3339. *)
Definition dated_chrono : Chrono :=
  {| utc_min := utc_min (Chrono := plain_chrono); utc_max := utc_max (Chrono := plain_chrono);
     to_rfc3339 := λ t, "2025-10-09T" +:+ to_rfc3339 (Chrono := plain_chrono) t |}.
#[local] Instance demo_d_chrono : Chrono := dated_chrono.
#[local] Instance demo_d_json : PgJson := plain_json.
#[local] Instance demo_d_text : TextLib := plain_textlib.
#[local] Instance demo_d_collation : Collation := byte_collation.
(** In October 2025, in microseconds. *)
Definition october : Z := 1760000000000000.
Definition october_env : cron_env :=
  {| ce_now := λ _, october; ce_clock := λ _, 7%Z; ce_fresh := λ _, "f1"; ce_stripe_key := None |}.

(** The time of a webhook event is stored in seconds and compared as text with a date:
    the clean-up deletes events that have just been handled, which can then be handled
    again. *)
Definition new_event : DocRow :=
  plain_row (event_record october {| we_id := "evt_1"; we_type := "payout.paid"; we_data := VNull; we_created := 0 |}).
Example new_event_forgotten :
  table_rows (cleanup_stale_webhook_events map_to_list october_env {["webhook_events" := {["evt_1" := new_event]}]}).1
    "webhook_events" = ∅.
Proof. evaluates. Qed.
(** So is the end of a paid period: a subscription that runs for another month expires. *)
Definition running_subscription : DocRow :=
  plain_row (VObject [("currentPeriodEnd", of_i64 (october / micros_per_sec + 30 * 86400)); ("status", VString "active")]).
Definition premium_user : DocRow := plain_row (VObject [("isPremium", VBool true)]).
Example running_subscription_expired :
  let s := (sync_expired_subscriptions map_to_list october_env
    {["subscriptions" := {["ann" := running_subscription]}; "users" := {["ann" := premium_user]}]}).1 in
  (λ r : DocRow, str_field (row_data r) "status") <$> (table_rows s "subscriptions" !! "ann") = Some "expired"
  ∧ (λ r : DocRow, bool_field (row_data r) "isPremium") <$> (table_rows s "users" !! "ann") = Some false.
Proof. split; evaluates. Qed.
(** A payout is computed from prices without the discount, and the fee from a subtotal
    with it: a seller is recorded more than the buyer paid, at twice the fee. *)
Definition discounted_order : DocRow :=
  plain_row (VObject [("deliveredAt", VString "2025-01-01"); ("items", VArray [order_item "delivered" 1000]); ("orderStatus", VString "delivered");
    ("paymentIntentId", VString "pi_1"); ("paymentStatus", VString "captured"); ("platformFeeTotalCents", of_i64 50); ("subtotalCents", of_i64 500)]).
Example payout_ignores_discount :
  (λ r : DocRow, (cents (row_data r) "amountCents", cents (row_data r) "platformFeeTotalCents"))
    <$> (table_rows (auto_capture_confirmed_receipts map_to_list map_to_list october_env {["orders" := {["o1" := discounted_order]}]}).1
           "payouts" !! "o1_sue") = Some (1000, 100)%Z.
Proof. evaluates. Qed.
(** The lock is read and then written: of two runs that both read before either writes,
    both obtain it. *)
Example lock_raced :
  let job := "auto_archive_old_orders" in
  let s1 := (attempt (get_document "_cron_locks" job) ∅).1 in
  (attempt (get_document "_cron_locks" job) ∅).2 = Ok None ∧ (attempt (get_document "_cron_locks" job) s1).2 = Ok None
  ∧ let '(s2, r1) := succeeded (upsert_document "_cron_locks" job (lock_data job october) 7) s1 in
    r1 = Ok true ∧ (succeeded (upsert_document "_cron_locks" job (lock_data job october) 8) s2).2 = Ok true.
Proof. by vm_compute. Qed.
End dated.
