(* ===== verification/Chat.v ===== *)
(** * Chat between buyers and sellers

    crates/ob-handlers/src/chat/mod.rs: a chat is about a product and has a buyer and
    a seller; its messages are documents of one collection, and the chat counts them
    and those either side has not read.  The push that follows a message has no
    effect on the store and its outcome is dropped; the support chat is a call of an
    external service. *)

From S2P Require Export Cron.

Definition MAX_MESSAGE_LENGTH : nat := 2000.
Definition MAX_IMAGES_PER_MESSAGE : nat := 5.
Definition MAX_MESSAGES_PER_THREAD : Z := 10000.
Definition CHAT_RATE_LIMIT_PER_MINUTE : nat := 60.

Record GetOrCreateChatRequest : Type := { gc_other_user_id : string; gc_product_id : option string }.
Record GetOrCreateChatResponse : Type := { gc_chat_id : string; gc_is_new : bool }.
Record SendMessageRequest : Type := {
  sm_chat_id : string; sm_message_text : option string; sm_image_urls : option (list string); sm_message_id : option string }.
Record DeleteMessageRequest : Type := { dm_chat_id : string; dm_message_id : string }.
Record ReportMessageRequest : Type := { rm_chat_id : string; rm_message_id : string; rm_reason : option string }.

Record chat_env : Type := {
  xe_test_mode : bool;
  xe_secs : Z; xe_limit_id : string; xe_limit_now : Z;   (** the limiter's *)
  xe_now : nat → Z;                                      (** [Utc::now()], at each reading *)
  xe_uuid : string;                                      (** the id of a new message or report *)
  xe_clock : nat → Z;                                    (** the database's clock at each write *)
}.

(** The crate regex-lite: every match of the pattern replaced by what the function makes
    of it. *)
Class RegexLib := { regex_replace_all : string → (string → string) → string → string }.

(** [format!("{}__{}", CHATS, CHAT_MESSAGES)]. *)
Definition msg_collection : string := "chats__messages".

Create HintDb chat.

Section chat.
Context `{C : Chrono} `{P : PgJson} `{T : TextLib} `{R : RegexLib}.
Context (pg_invalid_bigint : string) (scan : rows → list (string * DocRow)).

(** ** Text *)

Definition redact_phone (raw : string) : string :=
  let digits := List.length (List.filter is_digit (String.list_ascii_of_string raw)) in
  if (10 <=? digits)%nat && (digits <=? 15)%nat then "[phone removed]" else raw.
Definition sanitize_text (text : string) : string :=
  if str_empty text then ""
  else
    let text := regex_replace_all "[\u{200B}\u{200C}\u{200D}\u{FEFF}]" (λ _, "") text in
    let text := regex_replace_all "(?i)<script[^>]*>.*?</script>" (λ _, "") text in
    let text := sanitize_html text in
    let text := regex_replace_all "(?i)javascript:" (λ _, "") text in
    let text := regex_replace_all "(?i)\b[\w._%+\-]+(\s*[@\[(]at[\])]\s*|@)[\w.\-]+\.[a-zA-Z]{2,}\b" (λ _, "[email removed]") text in
    let text := regex_replace_all "(?i)https?://[^\s]+" (λ _, "[link removed]") text in
    let text := regex_replace_all "(?i)www\.[^\s]+" (λ _, "[link removed]") text in
    trim (regex_replace_all "(\+?[\d\s\-\.()]{10,20}\d)" redact_phone text).

(** ** Opening a chat *)

Definition auth_required : Error := Auth "Authentication required.".
Definition require_signed_in (auth : AuthContext) : Result string :=
  if negb (authenticated auth) then Err auth_required else Ok (auth_user_id auth).
(** The document, or null where it is missing. *)
Definition get_or_null (collection id : string) : handler Value := λ s,
  match get_document collection id s with
  | (s, Err (NotFound _)) => (s, Ok VNull)
  | r => r
  end.
Definition check_premium (user_id : string) : handler bool :=
  sub ← get_or_null "subscriptions" user_id;
  pure (Ok (negb (is_null sub) && bool_decide (get "status" sub ≫= as_str = Some "active"))).
Definition product_scoped_chat_id (product_id buyer_id : string) : string := product_id +:+ "_" +:+ buyer_id.

Definition chat_order (buyer_id : string) (row : DocRow) : bool :=
  text_in "userId" [buyer_id] row && text_in "orderStatus" ["delivered"; "disputed"] row.
Definition names_product (product_id : string) (order : Value) : bool :=
  match get "productIds" order ≫= as_array with
  | Some ids => existsb (λ i, bool_decide (as_str i = Some product_id)) ids
  | None => false
  end.
Definition buyer_has_chat_eligible_order (buyer_id product_id : string) : handler bool :=
  orders ← select_limit scan 50 "orders" (chat_order buyer_id);
  pure (Ok (existsb (names_product product_id) orders)).

Definition new_chat (chat_id product_id buyer_id seller_id : string) (product : Value) (now : string) : Value :=
  let image := ((get "imageUrls" product ≫= as_array) ≫= head) ≫= as_str in
  VObject [("buyerId", VString buyer_id); ("buyerUnreadCount", of_i64 0); ("chatId", VString chat_id); ("createdAt", VString now);
           ("messageCount", of_i64 0); ("productId", VString product_id); ("productImageUrl", VString (default "" image));
           ("productTitle", VString (text_of "name" "Product" product)); ("sellerId", VString seller_id);
           ("sellerUnreadCount", of_i64 0); ("updatedAt", VString now)].
Definition chat_product (req : GetOrCreateChatRequest) : Result string :=
  product_id ← ok_or (Validation "productId is required.")
    (p ← trim <$> gc_product_id req; if str_empty p then None else Some p);
  _ ← validate_uid "productId" product_id; Ok product_id.
Definition chat_seller (buyer_id : string) (product : Value) : Result string :=
  if is_null product then Err (NotFound "Product not found.")
  else if negb (str_field product "lifecycleStatus" =s? "ACTIVE") then Err (NotFound "Product is no longer active.")
  else if str_field product "sellerId" =s? buyer_id then Err (Forbidden "You cannot chat with yourself.")
  else Ok (str_field product "sellerId").
Definition get_or_create_chat (e : chat_env) (auth : AuthContext) (req : GetOrCreateChatRequest) : handler GetOrCreateChatResponse :=
  buyer_id ← pure (require_signed_in auth);
  product_id ← pure (chat_product req);
  premium ← check_premium buyer_id;
  _ ← pure (if negb premium then Err (Forbidden "Premium subscription required to chat with sellers.") else Ok tt);
  product ← db (get_document "products" product_id);
  seller_id ← pure (chat_seller buyer_id product);
  eligible ← buyer_has_chat_eligible_order buyer_id product_id;
  _ ← pure (if negb eligible
            then Err (Validation "You must have a delivered order for this product before starting a chat with the seller.") else Ok tt);
  let chat_id := product_scoped_chat_id product_id buyer_id in
  existing ← get_or_null "chats" chat_id;
  if negb (is_null existing) then pure (Ok {| gc_chat_id := chat_id; gc_is_new := false |})
  else
    _ ← db_map_err (λ err, Database ("Failed to create chat: " +:+ error_to_string err))
          (upsert_document "chats" chat_id (new_chat chat_id product_id buyer_id seller_id product (to_rfc3339 (xe_now e 0))) (xe_clock e 0));
    pure (Ok {| gc_chat_id := chat_id; gc_is_new := true |}).

(** ** Messages *)

Definition send_checks (req : SendMessageRequest) : Result string :=
  let text_raw := default "" (sm_message_text req) in
  let urls := default [] (sm_image_urls req) in
  _ ← (if str_empty (sm_chat_id req) || (str_empty text_raw && bool_decide (urls = []))
       then Err (Validation "chatId and text/images required.") else Ok tt);
  _ ← (if (MAX_IMAGES_PER_MESSAGE <? length urls)%nat then Err (Validation ("Maximum " +:+ pretty MAX_IMAGES_PER_MESSAGE +:+ " images per message."))
       else if negb (forallb (starts_with "https://") urls) then Err (Validation "Image URLs must use HTTPS")
       else if negb (forallb (λ url, str_contains "storage.googleapis.com" url || str_contains "cdn" url) urls)
       then Err (Validation "Chat images must be uploaded to the Origna CDN before sending.") else Ok tt);
  let text := sanitize_text text_raw in
  if negb (str_empty (trim text_raw)) && str_empty text then Err (Validation "Message text is too short after sanitization.")
  else if (MAX_MESSAGE_LENGTH <? String.length text)%nat
  then Err (Validation ("Message exceeds " +:+ pretty MAX_MESSAGE_LENGTH +:+ " characters."))
  else Ok text.

Definition thread_missing : Error := NotFound "Chat thread not found.".
Definition read_chat (chat_id : string) : handler Value := db_map_err (λ _, thread_missing) (get_document "chats" chat_id).
Definition takes_part (uid : string) (chat : Value) : bool :=
  (uid =s? str_field chat "buyerId") || (uid =s? str_field chat "sellerId").
Definition access_denied (message uid : string) (chat : Value) : Result unit :=
  if takes_part uid chat then Ok tt else Err (Forbidden message).
(** The same text within five seconds of the last change of the chat. *)
Definition sent_before (now : Z) (text : string) (chat : Value) : bool :=
  negb (str_empty text) && bool_decide (get "lastMessageText" chat ≫= as_str = Some text)
  && match (get "updatedAt" chat ≫= as_str) ≫= parse_rfc3339 with
     | Some ts => ((now - ts) `quot` micros_per_sec <? 5)%Z
     | None => false
     end.
Definition thread_checks (now : Z) (text : string) (chat : Value) : Result unit :=
  if sent_before now text chat then Err (Validation "Message already sent.")
  else if (MAX_MESSAGES_PER_THREAD <=? cents chat "messageCount")%Z then Err (Validation "Chat limit reached for this thread.")
  else Ok tt.

Definition msg_doc (chat_id uid sender_name text : string) (urls : list string) (now : string) : Value :=
  VObject [("chatId", VString chat_id); ("createdAt", VString now); ("deleted", VBool false);
           ("imageUrls", VArray (VString <$> urls)); ("read", VBool false); ("senderDisplayName", VString sender_name);
           ("senderId", VString uid); ("text", VString text)].
Definition unread_of (by_buyer : bool) : string := if by_buyer then "sellerUnreadCount" else "buyerUnreadCount".
(** How long the seller took for the first answer. *)
Definition reply_fields (e : chat_env) (uid : string) (now : string) (chat : Value) : list (string * Value) :=
  if (uid =s? str_field chat "buyerId") && bool_decide (get "firstBuyerMessageAt" chat = None)
  then [("firstBuyerMessageAt", VString now)]
  else if (uid =s? str_field chat "sellerId") && bool_decide (get "firstSellerReplyAt" chat = None)
  then match (get "firstBuyerMessageAt" chat ≫= as_str) ≫= parse_rfc3339 with
       | Some first_buyer_at =>
           let minutes := ((xe_now e 2 - first_buyer_at) `quot` (60 * micros_per_sec))%Z in
           [("firstReplyHours", json_f64 (f64_div (f64_of_Z minutes) (f64_of_Z 60))); ("firstSellerReplyAt", VString now)]
       | None => []
       end
  else [].
Definition thread_update (e : chat_env) (uid text now : string) (chat : Value) : Result Value :=
  last_message ← (if (100 <? String.length text)%nat then slice_to 100 text else Ok text);
  let unread := unread_of (uid =s? str_field chat "buyerId") in
  Ok (VObject ([("lastMessage", VString last_message); ("lastMessageAt", VString now); ("lastMessageText", VString text);
                ("messageCount", of_i64 (i64_add (cents chat "messageCount") 1));
                (unread, of_i64 (i64_add (cents chat unread) 1)); ("updatedAt", VString now)]
               ++ reply_fields e uid now chat)).

(** What follows the checks: the message is written and the chat brought up to date. *)
Definition post_message (e : chat_env) (req : SendMessageRequest) (uid text : string) (chat : Value) (message_id : string) : handler string :=
  let now := to_rfc3339 (xe_now e 1) in
  sender ← db (get_document "users" uid);
  _ ← db (upsert_document msg_collection message_id
            (msg_doc (sm_chat_id req) uid (text_of "name" "Someone" sender) text (default [] (sm_image_urls req)) now) (xe_clock e 0));
  update ← pure (thread_update e uid text now chat);
  _ ← db (update_document "chats" (sm_chat_id req) update (xe_clock e 1));
  pure (Ok message_id).
Definition send_message (e : chat_env) (auth : AuthContext) (req : SendMessageRequest) : handler string :=
  uid ← pure (require_signed_in auth);
  text ← pure (send_checks req);
  chat ← read_chat (sm_chat_id req);
  _ ← pure (access_denied "Access denied." uid chat);
  _ ← pure (thread_checks (xe_now e 0) text chat);
  premium ← (if uid =s? str_field chat "buyerId" then check_premium uid else pure (Ok true));
  _ ← pure (if negb premium then Err (Forbidden "Premium required.") else Ok tt);
  _ ← check_user_rate_limit pg_invalid_bigint (xe_test_mode e) uid "send_message" CHAT_RATE_LIMIT_PER_MINUTE 1
        (xe_secs e) (xe_limit_id e) (xe_limit_now e);
  match sm_message_id req with
  | None => post_message e req uid text chat (xe_uuid e)
  | Some message_id =>
      existing ← db (get_document msg_collection message_id);
      if negb (is_null existing) then pure (Ok message_id) else post_message e req uid text chat message_id
  end.

(** [data->>'chatId' = $chat_id AND data->>'senderId' != $uid AND data @> '{read: false}']. *)
Definition is_unread (row : DocRow) : bool := match get "read" (row_data row) with Some (VBool false) => true | _ => false end.
Definition to_read (chat_id uid : string) (row : DocRow) : bool :=
  text_in "chatId" [chat_id] row
  && match field_text "senderId" (row_data row) with Some t => negb (t =s? uid) | None => false end
  && is_unread row.
(** [UPDATE .. SET data = data || ..]; a row that has the fields is an object, so the
    statement does not fail. *)
Definition mark_messages_read (e : chat_env) (auth : AuthContext) (chat_id : string) : handler nat :=
  uid ← pure (require_signed_in auth);
  _ ← pure (if str_empty chat_id then Err (Validation "chatId is required.") else Ok tt);
  chat ← read_chat chat_id;
  _ ← pure (access_denied "Access denied." uid chat);
  count ← update_where "" msg_collection (λ _, to_read chat_id uid) [("read", VBool true)] (xe_clock e 0);
  _ ← (if (0 <? count)%nat
       then _ ← db (update_document "chats" chat_id (VObject [(unread_of (negb (uid =s? str_field chat "buyerId")), of_i64 0)]) (xe_clock e 1));
            pure (Ok tt)
       else pure (Ok tt));
  pure (Ok count).

Definition need_ids (chat_id message_id : string) : Result unit :=
  if str_empty chat_id || str_empty message_id then Err (Validation "chatId and messageId required.") else Ok tt.
Definition message_missing : Error := NotFound "Message not found.".
Definition delete_message (e : chat_env) (auth : AuthContext) (req : DeleteMessageRequest) : handler unit :=
  uid ← pure (require_signed_in auth);
  _ ← pure (need_ids (dm_chat_id req) (dm_message_id req));
  msg ← db (get_document msg_collection (dm_message_id req));
  _ ← pure (if is_null msg then Err message_missing else Ok tt);
  if bool_field msg "deleted" then pure (Ok tt)
  else
    _ ← pure (if negb (str_field msg "senderId" =s? uid) && negb (has_role "admin" auth)
              then Err (Forbidden "Only the sender or an admin can delete a message.") else Ok tt);
    _ ← db (update_document msg_collection (dm_message_id req)
              (VObject [("deleted", VBool true); ("imageUrls", VArray []); ("text", VString "");
                        ("updatedAt", VString (to_rfc3339 (xe_now e 0)))]) (xe_clock e 0));
    pure (Ok tt).
Definition report_doc (e : chat_env) (req : ReportMessageRequest) (uid : string) (msg : Value) : Value :=
  VObject [("chatId", VString (rm_chat_id req)); ("createdAt", VString (to_rfc3339 (xe_now e 0))); ("messageId", VString (rm_message_id req));
           ("reason", VString (default "Inappropriate content" (rm_reason req))); ("reportId", VString (xe_uuid e));
           ("reporterId", VString uid); ("senderId", VString (str_field msg "senderId")); ("status", VString "pending");
           ("text", VString (str_field msg "text"))].
Definition report_message (e : chat_env) (auth : AuthContext) (req : ReportMessageRequest) : handler string :=
  uid ← pure (require_signed_in auth);
  _ ← pure (need_ids (rm_chat_id req) (rm_message_id req));
  chat ← db (get_document "chats" (rm_chat_id req));
  _ ← pure (if is_null chat then Err thread_missing else Ok tt);
  _ ← pure (access_denied "You are not a participant in this chat." uid chat);
  msg ← db (get_document msg_collection (rm_message_id req));
  _ ← pure (if is_null msg then Err message_missing else Ok tt);
  _ ← db (upsert_document "message_reports" (xe_uuid e) (report_doc e req uid msg) (xe_clock e 0));
  pure (Ok (xe_uuid e)).

(** ** Any sequence of requests *)

Inductive chat_call : Type :=
| GetOrCreate (auth : AuthContext) (req : GetOrCreateChatRequest)
| Send (auth : AuthContext) (req : SendMessageRequest)
| MarkRead (auth : AuthContext) (chat_id : string)
| Delete (auth : AuthContext) (req : DeleteMessageRequest)
| Report (auth : AuthContext) (req : ReportMessageRequest).
Definition dropped {A} (m : handler A) : handler unit := _ ← m; pure (Ok tt).
Definition run_chat (e : chat_env) (call : chat_call) : handler unit :=
  match call with
  | GetOrCreate auth req => dropped (get_or_create_chat e auth req)
  | Send auth req => dropped (send_message e auth req)
  | MarkRead auth chat_id => dropped (mark_messages_read e auth chat_id)
  | Delete auth req => delete_message e auth req
  | Report auth req => dropped (report_message e auth req)
  end.
End chat.

(** ** The counts of a chat *)
Section counts.
Context `{C : Chrono} `{P : PgJson} `{T : TextLib} `{R : RegexLib}.
Local Open Scope Z_scope.

Definition in_thread (c : string) (row : DocRow) : bool := bool_decide (field_text "chatId" (row_data row) = Some c).
Definition unread_from (c u : string) (row : DocRow) : bool :=
  in_thread c row && bool_decide (field_text "senderId" (row_data row) = Some u) && is_unread row.
(** A chat of the buyer [b] and the seller [l]: what it counts is what the messages are. *)
Record chat_ok (msgs : rows) (c : string) (row : DocRow) (b l : string) : Prop := {
  co_object : ∃ m, row_data row = VObject m;
  co_buyer : get "buyerId" (row_data row) = Some (VString b);
  co_seller : get "sellerId" (row_data row) = Some (VString l);
  co_two : b ≠ l;
  co_count : get "messageCount" (row_data row) = Some (of_i64 (tally (in_thread c) msgs));
  co_bound : tally (in_thread c) msgs ≤ MAX_MESSAGES_PER_THREAD;
  co_seller_unread : get "sellerUnreadCount" (row_data row) = Some (of_i64 (tally (unread_from c b) msgs));
  co_buyer_unread : get "buyerUnreadCount" (row_data row) = Some (of_i64 (tally (unread_from c l) msgs));
}.
Record msg_ok (chats : rows) (row : DocRow) : Prop := {
  mo_object : ∃ m, row_data row = VObject m;
  mo_chat : ∃ c chat u, get "chatId" (row_data row) = Some (VString c) ∧ chats !! c = Some chat
    ∧ get "senderId" (row_data row) = Some (VString u) ∧ takes_part u (row_data chat) = true;
}.
Definition threads_ok (chats msgs : rows) : Prop :=
  (∀ c row, chats !! c = Some row → ∃ b l, chat_ok msgs c row b l) ∧ ∀ k row, msgs !! k = Some row → msg_ok chats row.
Definition chats_ok (s : store) : Prop := threads_ok (table_rows s "chats") (table_rows s msg_collection).

(** *** Counting *)
Lemma tally_mapped rs rs' (g : string → DocRow → DocRow) p p' :
  (∀ id, rs' !! id = g id <$> rs !! id) → (∀ id row, rs !! id = Some row → p (g id row) = p' row) → tally p rs' = tally p' rs.
Proof.
  intros Hrs Hp. unfold tally. f_equal. rewrite <- !size_dom. f_equal. apply set_eq. intros id. rewrite !elem_of_dom. unfold is_Some.
  setoid_rewrite map_lookup_filter_Some. rewrite Hrs. destruct (rs !! id) as [row|] eqn:E; cbn [fmap option_fmap option_map fst snd]; [|naive_solver].
  specialize (Hp id row E). split; intros (r & [= <-] & Hr); (eexists; split; [done|]); cbn [snd] in *; congruence.
Qed.
Lemma tally_none p rs : (∀ k row, rs !! k = Some row → p row = false) → tally p rs = 0.
Proof.
  intros Hp. unfold tally. assert (filter (λ kr : string * DocRow, p kr.2 = true) rs = ∅) as ->; [|done].
  apply map_empty. intros k. apply map_lookup_filter_None. right. intros row Hrow Hpr. cbn in Hpr. by rewrite (Hp k row Hrow) in Hpr.
Qed.
Lemma tally_range p rs : 0 ≤ tally p rs.
Proof. unfold tally. lia. Qed.
Lemma tally_le p q rs : (∀ row, p row = true → q row = true) → tally p rs ≤ tally q rs.
Proof.
  intros Hpq. unfold tally. apply inj_le. apply map_subseteq_size. apply map_subseteq_spec. intros k row.
  rewrite !map_lookup_filter_Some. cbn. naive_solver.
Qed.
Lemma unread_le c u rs : tally (unread_from c u) rs ≤ tally (in_thread c) rs.
Proof. apply tally_le. intros row Hrow. unfold unread_from in Hrow. by bools. Qed.

(** *** One chat and one message *)
Lemma part_of msgs c row b l u : chat_ok msgs c row b l → takes_part u (row_data row) = true ↔ u = b ∨ u = l.
Proof. intros []. unfold takes_part, str_field. rewrite co_buyer0, co_seller0. cbn. rewrite orb_true_iff, !str_eqb_eq. done. Qed.
Lemma thread_string c c' row : get "chatId" (row_data row) = Some (VString c') → in_thread c row = bool_decide (c' = c).
Proof. intros H. unfold in_thread, field_text. rewrite H. cbn. apply bool_decide_ext. naive_solver. Qed.
Lemma sender_string c u u' row : get "senderId" (row_data row) = Some (VString u') →
  unread_from c u row = in_thread c row && bool_decide (u' = u) && is_unread row.
Proof. intros H. unfold unread_from, field_text. rewrite H. cbn. do 2 f_equal. apply bool_decide_ext. naive_solver. Qed.
(** The messages of other threads do not count. *)
Lemma chat_ok_other msgs msgs' c row b l :
  tally (in_thread c) msgs' = tally (in_thread c) msgs → (∀ u, tally (unread_from c u) msgs' = tally (unread_from c u) msgs) →
  chat_ok msgs c row b l → chat_ok msgs' c row b l.
Proof. intros Ht Hu []. split; try done; by rewrite ?Ht, ?Hu. Qed.
Lemma msg_ok_chats chats chats' row :
  (∀ c chat, chats !! c = Some chat → ∃ chat', chats' !! c = Some chat' ∧ ∀ u, takes_part u (row_data chat) = true → takes_part u (row_data chat') = true) →
  msg_ok chats row → msg_ok chats' row.
Proof.
  intros Hc [Ho (c & chat & u & H1 & H2 & H3 & H4)]. split; [done|]. destruct (Hc _ _ H2) as (chat' & H2' & Hp). exists c, chat', u. auto.
Qed.

(** *** A message is sent *)
Section sent.
Context (chats msgs : rows) (c k b l u : string) (chat mrow : DocRow) (m upd : list (string * Value)) (now : Z).
Context (Hok : threads_ok chats msgs) (Hchat : chats !! c = Some chat) (Hc : chat_ok msgs c chat b l) (Hu : u = b ∨ u = l).
Context (Hnew : msgs !! k = None) (Hroom : tally (in_thread c) msgs < MAX_MESSAGES_PER_THREAD).
Context (Hm : row_data mrow = VObject m) (Hthread : get "chatId" (row_data mrow) = Some (VString c))
  (Hsender : get "senderId" (row_data mrow) = Some (VString u)) (Hread : is_unread mrow = true).
Context (Hnd : NoDup upd.*1) (Hparties : assoc_get "buyerId" upd = None ∧ assoc_get "sellerId" upd = None)
  (Hcount : assoc_get "messageCount" upd = Some (of_i64 (tally (in_thread c) msgs + 1)))
  (Hone : assoc_get (unread_of (u =s? b)) upd = Some (of_i64 (tally (unread_from c u) msgs + 1)))
  (Hother : assoc_get (unread_of (negb (u =s? b))) upd = None).

Lemma sent_counts c' u' : tally (in_thread c') (<[k := mrow]> msgs) = tally (in_thread c') msgs + Z.b2z (bool_decide (c = c'))
  ∧ tally (unread_from c' u') (<[k := mrow]> msgs) = tally (unread_from c' u') msgs + Z.b2z (bool_decide (c = c') && bool_decide (u = u')).
Proof.
  rewrite !tally_new by done. by rewrite (sender_string _ _ u), (thread_string _ c), Hread, andb_true_r by done.
Qed.
Lemma sent_chat : chat_ok (<[k := mrow]> msgs) c (merged_row (VObject upd) now chat) b l.
Proof.
  destruct Hc as [[mc Hmc] Hb Hl Hbl Hn Hle Hs Hbu]. destruct Hparties as [Hpb Hpl].
  destruct (sent_counts c u) as [Ht Hu1]. pose proof (λ x, proj2 (sent_counts c x)) as Hux.
  rewrite bool_decide_true in Ht by done. cbn [Z.b2z] in Ht.
  assert (∀ key, get key (row_data (merged_row (VObject upd) now chat))
    = match assoc_get key upd with Some v => Some v | None => get key (row_data chat) end) as Hg by (intros key; by eapply merged_row_get).
  assert (u = b → unread_of (u =s? b) = "sellerUnreadCount" ∧ unread_of (negb (u =s? b)) = "buyerUnreadCount") as Hub.
  { intros ->. by rewrite str_eqb_refl. }
  assert (u = l → unread_of (u =s? b) = "buyerUnreadCount" ∧ unread_of (negb (u =s? b)) = "sellerUnreadCount") as Hul.
  { intros ->. unfold str_eqb. by rewrite bool_decide_false by done. }
  pose proof Hone as H1. pose proof Hother as H2.
  split; rewrite ?Hg, ?Hux, ?Ht, ?(bool_decide_true (c = c)) by done; cbn [andb].
  - eexists. cbn. rewrite Hmc. cbn. done.
  - by rewrite Hpb.
  - by rewrite Hpl.
  - done.
  - by rewrite Hcount.
  - lia.
  - destruct Hu as [E|E]; [destruct (Hub E) as [E1 E2]|destruct (Hul E) as [E1 E2]]; rewrite E1 in H1; rewrite E2 in H2.
    + rewrite H1, E, bool_decide_true by done. done.
    + rewrite H2, Hs, E, bool_decide_false by done. cbn [Z.b2z]. by rewrite Z.add_0_r.
  - destruct Hu as [E|E]; [destruct (Hub E) as [E1 E2]|destruct (Hul E) as [E1 E2]]; rewrite E1 in H1; rewrite E2 in H2.
    + rewrite H2, Hbu, E, bool_decide_false by done. cbn [Z.b2z]. by rewrite Z.add_0_r.
    + rewrite H1, E, bool_decide_true by done. done.
Qed.
Lemma sent_ok : threads_ok (<[c := merged_row (VObject upd) now chat]> chats) (<[k := mrow]> msgs).
Proof.
  pose proof sent_chat as Hc'. destruct Hok as [Hcs Hms]. split.
  - intros c' row [[<- <-]|[Hne Hrow]]%lookup_insert_Some; [by exists b, l|].
    destruct (Hcs _ _ Hrow) as (b' & l' & Hrc). exists b', l'. revert Hrc. apply chat_ok_other.
    + rewrite (proj1 (sent_counts c' u)), bool_decide_false by done. cbn. lia.
    + intros u'. rewrite (proj2 (sent_counts c' u')), bool_decide_false by done. cbn. lia.
  - intros k' row [[<- <-]|[Hne Hrow]]%lookup_insert_Some.
    + split; [by exists m|]. exists c, (merged_row (VObject upd) now chat), u. rewrite lookup_insert_eq.
      split_and!; [done..|]. by apply (part_of _ _ _ _ _ u Hc').
    + eapply msg_ok_chats; [|by eapply Hms]. intros c2 chat2 Hc2. destruct (decide (c = c2)) as [<-|Hne2].
      * rewrite lookup_insert_eq. eexists. split; [done|]. rewrite Hchat in Hc2. injection Hc2 as <-. intros u2 Hp.
        apply (part_of _ _ _ _ _ u2 Hc'). by apply (part_of _ _ _ _ _ u2 Hc).
      * rewrite lookup_insert_ne by done. eauto.
Qed.
End sent.

(** *** Messages are read *)
Lemma to_read_string c u c' u' row :
  get "chatId" (row_data row) = Some (VString c') → get "senderId" (row_data row) = Some (VString u') →
  to_read c u row = bool_decide (c' = c) && negb (bool_decide (u' = u)) && is_unread row.
Proof.
  intros H1 H2. unfold to_read, text_in, field_text. rewrite H1, H2. cbn. do 3 f_equal. apply bool_decide_ext. apply list_elem_of_singleton.
Qed.
Section marked.
Context (chats msgs msgs' : rows) (c b l u : string) (chat : DocRow) (t now : Z).
Context (Hok : threads_ok chats msgs) (Hchat : chats !! c = Some chat) (Hc : chat_ok msgs c chat b l) (Hu : u = b ∨ u = l).
Let mark (row : DocRow) : DocRow := if to_read c u row then merged_row (VObject [("read", VBool true)]) t row else row.
Context (Hmark : ∀ k, msgs' !! k = mark <$> msgs !! k).

Lemma mark_get k row key : msgs !! k = Some row → key ≠ "read" → get key (row_data (mark row)) = get key (row_data row).
Proof.
  intros Hrow Hkey. destruct (proj2 Hok _ _ Hrow) as [[m Hm] _]. unfold mark. destruct (to_read c u row); [|done].
  rewrite (merged_row_get _ _ _ m) by (done || by apply NoDup_singleton). cbn. unfold str_eqb. by rewrite bool_decide_false.
Qed.
Lemma mark_ok k row : msgs !! k = Some row → msg_ok chats (mark row).
Proof.
  intros Hrow. destruct (proj2 Hok _ _ Hrow) as [[m Hm] (c' & chat' & u' & H1 & H2 & H3 & H4)]. split.
  - unfold mark. destruct (to_read c u row); [|by exists m]. cbn. rewrite Hm. cbn. eauto.
  - exists c', chat', u'. by rewrite !(mark_get k) by done.
Qed.
Lemma marked_counts c' v : tally (in_thread c') msgs' = tally (in_thread c') msgs
  ∧ tally (unread_from c' v) msgs' = if bool_decide (c = c') && negb (bool_decide (v = u)) then 0 else tally (unread_from c' v) msgs.
Proof.
  split.
  - apply (tally_mapped _ _ (λ _, mark)); [done|]. intros k row Hrow. unfold in_thread, field_text. by rewrite (mark_get k).
  - assert (∀ k row, msgs !! k = Some row → unread_from c' v (mark row)
      = if bool_decide (c = c') && negb (bool_decide (v = u)) then false else unread_from c' v row) as Hun.
    { intros k row Hrow. destruct (proj2 Hok _ _ Hrow) as [[m Hm] (c1 & chat1 & u1 & H1 & _ & H3 & _)].
      rewrite !(sender_string _ _ u1), !(thread_string _ c1) by (by rewrite ?(mark_get k)).
      pose proof (to_read_string c u c1 u1 row H1 H3) as Hto. unfold mark. destruct (to_read c u row) eqn:Er.
      - symmetry in Hto. bools. subst c1. unfold is_unread at 1. rewrite (merged_row_get _ _ _ m) by (done || by apply NoDup_singleton).
        cbn. rewrite andb_false_r. destruct (decide (c = c')) as [<-|], (decide (v = u)) as [->|];
          rewrite ?(bool_decide_true (_ = _)), ?(bool_decide_false (_ = _)) by congruence; cbn; rewrite ?andb_false_r; done.
      - destruct (decide (c = c')) as [<-|]; [|by rewrite (bool_decide_false (c = c'))].
        destruct (decide (v = u)) as [->|]; [by rewrite (bool_decide_true (u = u)), andb_false_r|].
        rewrite (bool_decide_true (c = c)), (bool_decide_false (v = u)) by done. cbn.
        destruct (decide (c1 = c)) as [->|]; [|by rewrite bool_decide_false].
        destruct (decide (u1 = v)) as [->|]; [|by rewrite (bool_decide_false (u1 = v)), andb_false_r].
        rewrite !bool_decide_true, (bool_decide_false (v = u)) in * by done. cbn in *. congruence. }
    destruct (bool_decide (c = c') && negb (bool_decide (v = u))).
    + apply tally_none. intros k row. rewrite Hmark. intros (row0 & Hrow0 & ->)%fmap_Some. by rewrite (Hun k).
    + by apply (tally_mapped _ _ (λ _, mark)).
Qed.
Lemma marked_ok : let field := unread_of (negb (u =s? b)) in
  threads_ok (<[c := merged_row (VObject [(field, of_i64 0)]) now chat]> chats) msgs'.
Proof.
  intros field. destruct Hc as [[mc Hmc] Hb Hl Hbl Hn Hle Hs Hbu].
  assert (∀ key, get key (row_data (merged_row (VObject [(field, of_i64 0)]) now chat))
    = if key =s? field then Some (of_i64 0) else get key (row_data chat)) as Hg.
  { intros key. rewrite (merged_row_get _ _ _ mc) by (done || by apply NoDup_singleton). cbn. by destruct (key =s? field). }
  pose proof (proj1 (marked_counts c u)) as Ht. pose proof (λ v, proj2 (marked_counts c v)) as Hv.
  assert (chat_ok msgs' c (merged_row (VObject [(field, of_i64 0)]) now chat) b l) as Hc'.
  { assert (u = b ∧ field = "buyerUnreadCount" ∨ u = l ∧ field = "sellerUnreadCount") as Hf.
    { subst field. destruct Hu as [->| ->]; [left; by rewrite str_eqb_refl|right]. unfold str_eqb. by rewrite bool_decide_false. }
    split; rewrite ?Hg, ?Hv, ?Ht; [cbn; rewrite Hmc; cbn; eauto| | |done| |done| |]; destruct Hf as [[-> ->]|[-> ->]];
      rewrite ?(bool_decide_true (_ = _)), ?(bool_decide_false (_ = _)) by done; done. }
  destruct Hok as [Hcs Hms]. split.
  - intros c' row [[<- <-]|[Hne Hrow]]%lookup_insert_Some; [by exists b, l|].
    destruct (Hcs _ _ Hrow) as (b' & l' & Hrc). exists b', l'. revert Hrc. apply chat_ok_other; [apply (marked_counts c' u)|].
    intros v. by rewrite (proj2 (marked_counts c' v)), (bool_decide_false (c = c')).
  - intros k row. rewrite Hmark. intros (row0 & Hrow0 & ->)%fmap_Some. eapply msg_ok_chats; [|by eapply mark_ok].
    intros c2 chat2 Hc2. destruct (decide (c = c2)) as [<-|Hne2]; [|rewrite lookup_insert_ne by done; eauto].
    rewrite lookup_insert_eq. eexists. split; [done|]. rewrite Hchat in Hc2. injection Hc2 as <-. intros u2 Hp.
    apply (part_of _ _ _ _ _ u2 Hc'). by apply (part_of _ _ _ _ _ u2 Hc).
Qed.
End marked.

(** *** A message is deleted, a chat opened *)
Lemma rewritten_ok chats msgs k row upd now :
  threads_ok chats msgs → msgs !! k = Some row → NoDup upd.*1 →
  (∀ key, key ∈ ["chatId"; "senderId"; "read"] → assoc_get key upd = None) →
  threads_ok chats (<[k := merged_row (VObject upd) now row]> msgs).
Proof.
  intros [Hcs Hms] Hrow Hnd Hupd. destruct (Hms _ _ Hrow) as [[m Hm] Hmc].
  assert (∀ key, key ∈ ["chatId"; "senderId"; "read"] →
    get key (row_data (merged_row (VObject upd) now row)) = get key (row_data row)) as Hg.
  { intros key Hkey. rewrite (merged_row_get _ _ _ m) by done. by rewrite Hupd. }
  assert (Hg1 := Hg "chatId" ltac:(set_solver)). assert (Hg2 := Hg "senderId" ltac:(set_solver)).
  assert (Hg3 := Hg "read" ltac:(set_solver)). split.
  - intros c' row' Hrow'. destruct (Hcs _ _ Hrow') as (b' & l' & Hrc). exists b', l'. revert Hrc.
    apply chat_ok_other; intros; apply (tally_same _ _ _ row); try done; unfold unread_from, in_thread, field_text, is_unread;
      by rewrite ?Hg1, ?Hg2, ?Hg3.
  - intros k' row' [[<- <-]|[_ Hrow']]%lookup_insert_Some; [|by eapply Hms]. split; [cbn; rewrite Hm; cbn; eauto|]. by rewrite Hg1, Hg2.
Qed.
Lemma opened_ok chats msgs c row b l :
  threads_ok chats msgs → chats !! c = None → (∃ m, row_data row = VObject m) →
  get "buyerId" (row_data row) = Some (VString b) → get "sellerId" (row_data row) = Some (VString l) → b ≠ l →
  (∀ key, key ∈ ["messageCount"; "sellerUnreadCount"; "buyerUnreadCount"] → get key (row_data row) = Some (of_i64 0)) →
  threads_ok (<[c := row]> chats) msgs.
Proof.
  intros [Hcs Hms] Hnone Ho Hb Hl Hbl Hz.
  assert (tally (in_thread c) msgs = 0) as Ht.
  { apply tally_none. intros k mrow Hk. destruct (Hms _ _ Hk) as [_ (c' & chat & u & H1 & H2 & _)].
    rewrite (thread_string _ c') by done. apply bool_decide_false. congruence. }
  assert (∀ u, tally (unread_from c u) msgs = 0) as Hu0.
  { intros u. pose proof (unread_le c u msgs). pose proof (tally_range (unread_from c u) msgs). lia. }
  split.
  - intros c' row' [[<- <-]|[_ Hrow']]%lookup_insert_Some; [|by eapply Hcs]. exists b, l.
    split; rewrite ?Ht, ?Hu0; try done; apply Hz; set_solver.
  - intros k mrow Hk. eapply msg_ok_chats; [|by eapply Hms]. intros c2 chat2 Hc2.
    rewrite lookup_insert_ne by congruence. eauto.
Qed.

(** *** The handlers *)
Context (pg_invalid_bigint : string) (scan : rows → list (string * DocRow)).
Abbreviation chats_of s := (table_rows s "chats").
Abbreviation messages_of s := (table_rows s msg_collection).

(** A request that does not panic leaves the counts exact. *)
Definition fine {A} (m : handler A) (s : store) : Prop := (m s).2 ≠ Panic → chats_ok (m s).1.
Definition aside {A} (m : handler A) : Prop := keeps "chats" m ∧ keeps msg_collection m.
Definition stands (chats msgs : rows) (s : store) : Prop := chats_of s = chats ∧ messages_of s = msgs ∧ threads_ok chats msgs.
Lemma stands_aside {A} (m : handler A) chats msgs s : aside m → stands chats msgs s → stands chats msgs (m s).1.
Proof. intros [Hc Hm] (<- & <- & Hs). split_and!; [apply Hc|apply Hm|done]. Qed.
Lemma stands_ok chats msgs s : stands chats msgs s → chats_ok s.
Proof. by intros (<- & <- & Hs). Qed.
Lemma fine_aside {A} (m : handler A) chats msgs s : aside m → stands chats msgs s → fine m s.
Proof. intros Ha Hs _. by eapply stands_ok, stands_aside. Qed.
(** A step that touches neither table. *)
Lemma fine_bind {A B} (m : handler A) (k : A → handler B) chats msgs s :
  stands chats msgs s → aside m → (∀ a s', m s = (s', Ok a) → stands chats msgs s' → fine (k a) s') → fine (m ≫= k) s.
Proof.
  intros Hs Ha Hk. pose proof (stands_aside m _ _ _ Ha Hs) as Hs'. unfold fine, mbind, handler_bind.
  destruct (m s) as [s' [a|err|]]; cbn [fst snd] in *; [by apply Hk|intros _; by eapply stands_ok|done].
Qed.
Lemma fine_dropped {A} (m : handler A) s : fine m s → fine (dropped m) s.
Proof. unfold fine, dropped, mbind, handler_bind. destruct (m s) as [s' [a|err|]]; cbn; intros H Hp; by apply H. Qed.

Lemma aside_pure {A} (r : Result A) : aside (pure r).
Proof. split; apply keeps_pure. Qed.
Lemma aside_get c i : aside (db (get_document c i)).
Proof. split; apply keeps_get. Qed.
Lemma aside_bind {A B} (m : handler A) (k : A → handler B) : aside m → (∀ a, aside (k a)) → aside (m ≫= k).
Proof. intros [H1 H2] Hk. split; (apply keeps_bind; [done|intros a; apply Hk]). Qed.
Lemma get_or_null_state c i s : (get_or_null c i s).1 = (get_document c i s).1.
Proof. unfold get_or_null. destruct (get_document c i s) as [s' [a|err|]]; [done| |done]. by destruct err. Qed.
Lemma aside_null c i : aside (get_or_null c i).
Proof. split; intros s; rewrite get_or_null_state; apply keeps_get. Qed.
Lemma aside_premium u : aside (check_premium u).
Proof. apply aside_bind; [apply aside_null|intros; apply aside_pure]. Qed.
Lemma aside_read c : aside (read_chat c).
Proof. split; apply keeps_map_err, keeps_get. Qed.
Lemma aside_limit e u action max window :
  aside (check_user_rate_limit pg_invalid_bigint (xe_test_mode e) u action max window (xe_secs e) (xe_limit_id e) (xe_limit_now e)).
Proof. split; by apply keeps_rate_limit. Qed.
Lemma aside_eligible b p : aside (buyer_has_chat_eligible_order scan b p).
Proof. apply aside_bind; [split; apply keeps_select_limit|intros; apply aside_pure]. Qed.
#[local] Hint Resolve aside_pure aside_get aside_null aside_premium aside_read aside_limit aside_eligible : chat.
Tactic Notation "next" ident(a) ident(H) :=
  let s1 := fresh "s" in
  eapply fine_bind; [eassumption|auto with chat; try (case_match; auto with chat)|intros a s1 H ?];
  lazymatch type of H with pure _ _ = _ => apply pure_ok in H as [-> H] | _ => idtac end.

(** A row of either table, at any step of the request. *)
Ltac settle H :=
  lazymatch type of H with table_rows ?s _ !! _ = _ =>
    match goal with Hs : stands _ _ s |- _ => rewrite ?(proj1 Hs), ?(proj1 (proj2 Hs)) in H end
  end.
(** The rows as they are where the request writes. *)
Tactic Notation "write_at" ident(st) ident(Hok) :=
  lazymatch goal with |- fine _ ?x =>
    match goal with Hs : stands _ _ x |- _ => destruct Hs as (<- & <- & Hok) end; rename x into st
  end.
(** What has been read of a chat. *)
Lemma row_read c i s s' doc : get_document c i s = (s', Ok doc) →
  ∃ row, table_rows s c !! bare_id c i = Some row ∧ doc = row_to_doc (bare_id c i) row.
Proof.
  intros [_ H]%with_table_Ok. cbv beta zeta in H. rewrite table_rows_ensured in H.
  destruct (table_rows s c !! bare_id c i) as [row|]; [|done]. injection H as _ <-. eauto.
Qed.
Lemma read_chat_ok c s s' chat : read_chat c s = (s', Ok chat) →
  ∃ row, chats_of s !! bare_id "chats" c = Some row ∧ chat = row_to_doc (bare_id "chats" c) row.
Proof. intros H%map_err_ok. by apply row_read in H. Qed.
Lemma doc_takes_part c row u : takes_part u (row_to_doc c row) = takes_part u (row_data row).
Proof. unfold takes_part, str_field. by rewrite !get_row_to_doc by concrete. Qed.
Lemma doc_buyer msgs c row b l : chat_ok msgs c row b l → str_field (row_to_doc c row) "buyerId" = b.
Proof. intros []. unfold str_field. rewrite get_row_to_doc by concrete. by rewrite co_buyer0. Qed.
Lemma doc_count c row k n : get k (row_data row) = Some (of_i64 n) → ¬ is_metadata k → n ≤ i64_max → cents (row_to_doc c row) k = n.
Proof. intros H Hk Hn. unfold cents, i64_field. rewrite get_row_to_doc, H by done. cbn [mbind option_bind]. by rewrite as_i64_of_i64. Qed.
Lemma access_ok message u chat a : access_denied message u chat = Ok a → takes_part u chat = true.
Proof. unfold access_denied. by destruct (takes_part u chat). Qed.

(** The changes of a chat when a message is sent. *)
Lemma reply_keys e u now chat :
  let keys := (reply_fields e u now chat).*1 in keys = [] ∨ keys = ["firstBuyerMessageAt"] ∨ keys = ["firstReplyHours"; "firstSellerReplyAt"].
Proof. unfold reply_fields. repeat case_match; auto. Qed.
Lemma assoc_get_none k (m : list (string * Value)) : k ∉ m.*1 → assoc_get k m = None.
Proof.
  induction m as [|[k1 v1] m IH]; [done|]. cbn. rewrite not_elem_of_cons. intros [H1 H2]. unfold str_eqb. rewrite bool_decide_false by done. auto.
Qed.
Lemma reply_none k e u now chat :
  k ∉ ["firstBuyerMessageAt"; "firstReplyHours"; "firstSellerReplyAt"] → assoc_get k (reply_fields e u now chat) = None.
Proof. intros Hk. apply assoc_get_none. destruct (reply_keys e u now chat) as [-> |[-> | ->]]; set_solver. Qed.
Lemma thread_update_ok e u text now chat v : thread_update e u text now chat = Ok v →
  let b := u =s? str_field chat "buyerId" in
  ∃ upd, v = VObject upd ∧ NoDup upd.*1 ∧ (assoc_get "buyerId" upd = None ∧ assoc_get "sellerId" upd = None)
    ∧ assoc_get "messageCount" upd = Some (of_i64 (i64_add (cents chat "messageCount") 1))
    ∧ assoc_get (unread_of b) upd = Some (of_i64 (i64_add (cents chat (unread_of b)) 1))
    ∧ assoc_get (unread_of (negb b)) upd = None.
Proof.
  intros H b. unfold thread_update in H. fold b in H.
  destruct (if (100 <? String.length text)%nat then slice_to 100 text else Ok text) as [short| |]; [|done..].
  injection H as <-. eexists. split; [reflexivity|]. destruct b; cbn [unread_of negb assoc_get fmap list_fmap fst];
    split_and!; try (by rewrite ?reply_none by concrete); destruct (reply_keys e u now chat) as [-> |[-> | ->]]; concrete.
Qed.

Lemma update_runs c i data now s row :
  is_ok (validate_identifier c) = true → table_rows s c !! bare_id c i = Some row →
  ∃ s' doc, update_document c i data now s = (s', Ok doc) ∧ table_rows s' c = <[bare_id c i := merged_row data now row]> (table_rows s c)
    ∧ ∀ c', c ≠ c' → table_rows s' c' = table_rows s c'.
Proof.
  intros Hv Hrow. assert (∃ s' doc, update_document c i data now s = (s', Ok doc)) as (s' & doc & H).
  { unfold update_document. rewrite with_table_valid by done. cbv beta zeta. rewrite table_rows_ensured, Hrow. eauto. }
  exists s', doc. split; [done|]. destruct (update_run _ _ _ _ _ _ _ Hv H) as (row' & Hrow' & H1 & H2).
  rewrite Hrow in Hrow'. injection Hrow' as <-. done.
Qed.
Lemma upsert_new c i data now s :
  is_ok (validate_identifier c) = true → table_rows s c !! bare_id c i = None →
  ∃ s' doc, upsert_document c i data now s = (s', Ok doc)
    ∧ table_rows s' c = <[bare_id c i := {| row_data := data; row_created_at := now; row_updated_at := now |}]> (table_rows s c)
    ∧ ∀ c', c ≠ c' → table_rows s' c' = table_rows s c'.
Proof.
  intros Hv Hrow. pose proof (upsert_rows c i data now s Hv) as Hu. rewrite Hrow in Hu.
  pose proof (λ c' Hc, keeps_upsert c' c i data now Hc s) as Hk. unfold db in Hk.
  assert (∃ s' doc, upsert_document c i data now s = (s', Ok doc)) as (s' & doc & H).
  { unfold upsert_document. rewrite with_table_valid by done. cbv beta zeta. eauto. }
  rewrite H in Hu, Hk. exists s', doc. split_and!; [done..|]. intros c' Hc. by apply Hk.
Qed.

Lemma post_fine e req u text row i chats msgs s (c := sm_chat_id req) :
  stands chats msgs s → bare_id "chats" c = c → chats !! c = Some row → takes_part u (row_data row) = true →
  cents (row_to_doc c row) "messageCount" < MAX_MESSAGES_PER_THREAD → msgs !! bare_id msg_collection i = None →
  fine (post_message e req u text (row_to_doc c row) i) s.
Proof.
  intros Hs Hbare Hrow Hpart Hroom Hnew. unfold post_message. next a Ha. clear Ha Hs s. rename s0 into s1.
  destruct H as (<- & <- & Hcs & Hms).
  destruct (Hcs _ _ Hrow) as (b & l & Hc). pose proof (proj1 (part_of _ _ _ _ _ u Hc) Hpart) as Hu.
  assert (∀ n, n ≤ MAX_MESSAGES_PER_THREAD → n ≤ i64_max) as Hsmall by (unfold MAX_MESSAGES_PER_THREAD, i64_max; lia).
  pose proof (unread_le c u (messages_of s1)) as Hle. pose proof (tally_range (unread_from c u) (messages_of s1)) as Hge.
  pose proof (tally_range (in_thread c) (messages_of s1)) as Hgt. pose proof (co_bound _ _ _ _ _ Hc) as Hbound.
  assert (cents (row_to_doc c row) "messageCount" = tally (in_thread c) (messages_of s1)) as Hnum.
  { apply doc_count; [apply Hc|concrete|by apply Hsmall]. }
  rewrite Hnum in Hroom.
  destruct (upsert_new msg_collection i (msg_doc (sm_chat_id req) u (text_of "name" "Someone" a) text (default [] (sm_image_urls req))
    (to_rfc3339 (xe_now e 1))) (xe_clock e 0) s1) as (s2 & d & Hup & Hm2 & Hk2); [done..|].
  unfold fine. rewrite (bind_run _ _ _ _ _ Hup). clear Hup.
  destruct (thread_update e u text (to_rfc3339 (xe_now e 1)) (row_to_doc c row)) as [v|err|] eqn:Et; [| |done].
  2: { unfold thread_update, slice_to in Et. repeat case_match; done. }
  destruct (thread_update_ok _ _ _ _ _ _ Et) as (upd & -> & Hnd & Hpar & Hcount & Hone & Hother). clear Et.
  rewrite (doc_buyer _ _ _ _ _ Hc) in Hone, Hother.
  destruct (update_runs "chats" c (VObject upd) (xe_clock e 1) s2 row) as (s3 & d3 & Hr3 & Hc3 & Hk3); [done|by rewrite Hbare, Hk2|].
  rewrite (bind_run (pure _) _ s2 s2 (VObject upd)), (bind_run _ _ _ _ _ Hr3) by done. intros _. unfold chats_ok. cbn [fst pure]. rewrite Hc3, Hk3, Hm2, Hk2, Hbare by done.
  assert (i64_add (cents (row_to_doc c row) "messageCount") 1 = tally (in_thread c) (messages_of s1) + 1) as Hn.
  { rewrite Hnum. unfold i64_add. apply wrap_signed_id; [done|].
    unfold MAX_MESSAGES_PER_THREAD in *. lia. }
  assert (cents (row_to_doc c row) (unread_of (u =s? b)) = tally (unread_from c u) (messages_of s1)) as Hun.
  { destruct Hu as [->| ->]; [rewrite str_eqb_refl|unfold str_eqb; rewrite bool_decide_false by (apply not_eq_sym, Hc)]; cbn [unread_of];
      apply doc_count; [apply Hc|concrete|apply Hsmall; lia|apply Hc|concrete|apply Hsmall; lia]. }
  rewrite Hn in Hcount. rewrite Hun in Hone. unfold i64_add in Hone. rewrite wrap_signed_id in Hone by (unfold MAX_MESSAGES_PER_THREAD in *; lia).
  by eapply sent_ok.
Qed.
Lemma room_left now text chat a : thread_checks now text chat = Ok a → cents chat "messageCount" < MAX_MESSAGES_PER_THREAD.
Proof. unfold thread_checks. destruct (sent_before now text chat); [done|]. case_match; [done|]. intros _. by apply Z.leb_gt. Qed.
Lemma send_fine e auth req chats msgs s :
  stands chats msgs s → bare_id "chats" (sm_chat_id req) = sm_chat_id req → msgs !! bare_id msg_collection (xe_uuid e) = None →
  fine (send_message pg_invalid_bigint e auth req) s.
Proof.
  intros Hs Hbare Hnew. unfold send_message. next u Hu. next text Htext. next chat Hchat.
  apply read_chat_ok in Hchat as (row & Hrow & ->). settle Hrow. rewrite Hbare in *. next a Hacc. next a' Hroom.
  next premium Hp. next a2 Hp2. next a3 Hl. apply access_ok in Hacc. rewrite doc_takes_part in Hacc. apply room_left in Hroom.
  destruct (sm_message_id req) as [i|]; [|by eapply post_fine].
  next existing Hex. apply row_read in Hex as (mrow & Hm & ->). settle Hm. destruct Hs as (_ & _ & _ & Hs).
  destruct (Hs _ _ Hm) as [[m Ho] _].
  unfold row_to_doc at 1. rewrite Ho. cbn [is_null negb]. eapply fine_aside; [apply aside_pure|eassumption].
Qed.
Lemma mark_fine e auth c chats msgs s :
  stands chats msgs s → bare_id "chats" c = c → fine (mark_messages_read e auth c) s.
Proof.
  intros Hs Hbare. unfold mark_messages_read. next u Hu. next a Ha. next chat Hchat.
  apply read_chat_ok in Hchat as (row & Hrow & ->). settle Hrow. rewrite Hbare in *. next a' Hacc.
  apply access_ok in Hacc. rewrite doc_takes_part in Hacc. write_at s1 Hok.
  destruct (proj1 Hok _ _ Hrow) as (b & l & Hc). pose proof (proj1 (part_of _ _ _ _ _ u Hc) Hacc) as Hparty.
  destruct (update_where_runs "" msg_collection (λ _, to_read c u) [("read", VBool true)] (xe_clock e 0) s1) as (s2 & n & Hrun & Hm2 & Hz & Hk).
  { intros k mrow Hk _. by destruct (proj2 Hok _ _ Hk). }
  unfold fine. rewrite (bind_run _ _ _ _ _ Hrun), (doc_buyer _ _ _ _ _ Hc). clear Hrun. destruct (Nat.ltb_spec 0 n) as [Hn|Hn].
  - destruct (update_runs "chats" c (VObject [(unread_of (negb (u =s? b)), of_i64 0)]) (xe_clock e 1) s2 row) as (s3 & d & Hrun & Hc3 & Hk3);
      [done|by rewrite Hbare, Hk|].
    rewrite (bind_run _ _ s2 s3 tt) by (by rewrite (bind_run _ _ _ _ _ Hrun)). intros _. cbn [pure fst]. unfold chats_ok.
    rewrite Hc3, Hk3, Hk, Hbare by done. by eapply (marked_ok _ (messages_of s1)).
  - intros _. rewrite (bind_run (pure (Ok tt)) _ s2 s2 tt) by done. cbn [pure fst]. unfold chats_ok. rewrite Hk by done. replace (messages_of s2) with (messages_of s1); [done|].
    apply map_eq. intros k. rewrite Hm2. destruct (messages_of s1 !! k) as [mrow|] eqn:E; [|done]. cbn. by rewrite (Hz ltac:(lia) _ _ E).
Qed.
Lemma delete_fine e auth req chats msgs s : stands chats msgs s → fine (delete_message e auth req) s.
Proof.
  intros Hs. unfold delete_message. next u Hu. next a Ha. next msg Hmsg. apply row_read in Hmsg as (row & Hrow & ->). settle Hrow.
  next a' Ha'. destruct (bool_field _ _); [eapply fine_aside; [apply aside_pure|eassumption]|]. next a2 Ha2.
  write_at s1 Hok.
  unfold fine. destruct (update_runs msg_collection (dm_message_id req) (VObject [("deleted", VBool true); ("imageUrls", VArray []);
    ("text", VString ""); ("updatedAt", VString (to_rfc3339 (xe_now e 0)))]) (xe_clock e 0) s1 row) as (s2 & d & Hrun & Hm2 & Hk2); [done..|].
  rewrite (bind_run _ _ _ _ _ Hrun). intros _. cbn [pure fst]. unfold chats_ok. rewrite Hm2, Hk2 by done.
  apply rewritten_ok; [done..|concrete|]. intros key Hkey. repeat (apply elem_of_cons in Hkey as [->|Hkey]; [done|]). by apply elem_of_nil in Hkey.
Qed.
Lemma aside_report e auth req : aside (report_message e auth req).
Proof.
  unfold report_message. do 7 (apply aside_bind; [auto with chat|intros ?]).
  apply aside_bind; [|auto with chat]. split; by apply keeps_upsert.
Qed.
Lemma upsert_map_err f c i data now s s' doc :
  upsert_document c i data now s = (s', Ok doc) → db_map_err f (upsert_document c i data now) s = (s', Ok doc).
Proof. unfold db_map_err. by intros ->. Qed.
Lemma null_read c i s s' v :
  is_ok (validate_identifier c) = true → (∀ row, table_rows s c !! bare_id c i = Some row → ∃ m, row_data row = VObject m) →
  get_or_null c i s = (s', Ok v) → is_null v = true → table_rows s c !! bare_id c i = None.
Proof.
  intros Hv Hobj. unfold get_or_null, get_document. rewrite with_table_valid by done. cbv beta zeta. rewrite table_rows_ensured.
  destruct (table_rows s c !! bare_id c i) as [row|]; [|done]. destruct (Hobj row eq_refl) as [m Hm]. unfold row_to_doc. rewrite Hm.
  by intros [= _ <-].
Qed.
Lemma seller_other b product l : chat_seller b product = Ok l → b ≠ l.
Proof. unfold chat_seller. repeat case_match; intros [= <-]. bools. by apply not_eq_sym. Qed.
Lemma open_fine e auth req chats msgs s : stands chats msgs s → fine (get_or_create_chat scan e auth req) s.
Proof.
  intros Hs. unfold get_or_create_chat. next b Hb. next pid Hpid. next premium Hp. next a Ha. next product Hproduct. next l Hl.
  next eligible He. next a' Ha'. next existing Hex. destruct (is_null existing) eqn:Hnull; cbn [negb];
    [|eapply fine_aside; [apply aside_pure|eassumption]].
  apply null_read in Hex; [|done| |done].
  2: { intros row Hrow. settle Hrow. destruct Hs as (_ & _ & Hcs & _). by destruct (Hcs _ _ Hrow) as (? & ? & []). }
  settle Hex. write_at s4 Hok. unfold fine. set (c := product_scoped_chat_id pid b) in *.
  destruct (upsert_new "chats" c (new_chat c pid b l product (to_rfc3339 (xe_now e 0))) (xe_clock e 0) s4) as (s5 & d & Hrun & Hc & Hk); [done..|].
  rewrite (bind_run _ _ _ _ _ (upsert_map_err _ _ _ _ _ _ _ _ Hrun)). intros _. cbn [pure fst]. unfold chats_ok. rewrite Hc, Hk by done.
  eapply opened_ok; [done..|by eexists|done|done|by eapply seller_other|].
  intros key Hkey. repeat (apply elem_of_cons in Hkey as [->|Hkey]; [done|]). by apply elem_of_nil in Hkey.
Qed.

(** *** Any sequence of requests *)
(** The ids that a request must not reuse or spell otherwise than the store does. *)
Definition well_addressed (e : chat_env) (s : store) (call : chat_call) : Prop :=
  match call with
  | Send _ req => bare_id "chats" (sm_chat_id req) = sm_chat_id req ∧ messages_of s !! bare_id msg_collection (xe_uuid e) = None
  | MarkRead _ chat_id => bare_id "chats" chat_id = chat_id
  | _ => True
  end.
Lemma call_fine e call s : chats_ok s → well_addressed e s call → fine (run_chat pg_invalid_bigint scan e call) s.
Proof.
  intros Hs Hw. assert (stands (chats_of s) (messages_of s) s) as Hst by done.
  destruct call; cbn in Hw |- *; try apply fine_dropped.
  - by eapply open_fine.
  - destruct Hw. by eapply send_fine.
  - by eapply mark_fine.
  - by eapply delete_fine.
  - eapply fine_aside; [apply aside_report|done].
Qed.
(** A request is served to its end. *)
Inductive chat_step : store → store → Prop :=
| Served e call s s' r : well_addressed e s call → run_chat pg_invalid_bigint scan e call s = (s', r) → r ≠ Panic → chat_step s s'.

(** C28: whatever requests are served, the counts of every chat stay exact: the
    number of messages is that of the messages stored for it, at most 10,000, each
    side's unread count is the number of messages of the other side not yet read,
    and every message is by one of the two parties. *)
Theorem chat_counts_exact s s' : chats_ok s → rtc chat_step s s' → chats_ok s'.
Proof.
  intros Hs Hrun. induction Hrun as [s|s s1 s2 [e call t t1 r Hw Hrun Hr] _ IH]; [done|]. apply IH.
  pose proof (call_fine e call t Hs Hw) as Hf. unfold fine in Hf. rewrite Hrun in Hf. by apply Hf.
Qed.
End counts.

(** ** What the handlers do not do *)
Section chat_shortcomings.
Context `{C : Chrono} `{P : PgJson} `{T : TextLib} `{R : RegexLib}.
Context (pg_invalid_bigint : string) (scan : rows → list (string * DocRow)).

(** A product whose status is [active], as the catalogue has it, opens no chat. *)
Lemma catalogue_product_no_chat buyer fields :
  assoc_get "lifecycleStatus" fields = Some (VString "active") →
  chat_seller buyer (VObject fields) = Err (NotFound "Product is no longer active.").
Proof. intros H. unfold chat_seller, str_field. cbn [is_null get]. by rewrite H. Qed.
(** An order that has no [productIds], as every order of the checkout, makes no product
    eligible. *)
Lemma order_without_ids_not_eligible order product_id : get "productIds" order = None → names_product product_id order = false.
Proof. intros H. unfold names_product. by rewrite H. Qed.
(** A message with an id of the client's own is never stored: it is looked up first, and
    an id that is not there is an error. *)
Theorem own_message_id_never_sent e auth req i s s' r :
  sm_message_id req = Some i → chats_ok s → send_message pg_invalid_bigint e auth req s = (s', r) →
  table_rows s' msg_collection = table_rows s msg_collection.
Proof.
  intros Hi Hok H. assert (stands (table_rows s "chats") (table_rows s msg_collection) s) as Hs by done.
  assert (∀ req text uid chat s1, stands (table_rows s "chats") (table_rows s msg_collection) s1 →
    table_rows ((existing ← db (get_document msg_collection i);
      if negb (is_null existing) then pure (Ok i) else post_message e req uid text chat i) s1).1 msg_collection = table_rows s msg_collection) as Hlast.
  { intros req' text uid chat s1 Hs1. unfold mbind, handler_bind. pose proof (keeps_get msg_collection msg_collection i s1) as Hk.
    destruct (db (get_document msg_collection i) s1) as [s2 [d|err|]] eqn:Hd; cbn [fst] in *; [|by rewrite Hk; apply Hs1..].
    apply row_read in Hd as (row & Hrow & ->). rewrite (proj1 (proj2 Hs1)) in Hrow. destruct (proj2 Hok _ _ Hrow) as [[m Hm] _].
    unfold row_to_doc. rewrite Hm. cbn [is_null negb pure fst]. rewrite Hk. apply Hs1. }
  assert (∀ {A} (m : handler A) (k : A → handler string) s1, aside m → stands (table_rows s "chats") (table_rows s msg_collection) s1 →
    (∀ a s2, stands (table_rows s "chats") (table_rows s msg_collection) s2 → table_rows (k a s2).1 msg_collection = table_rows s msg_collection) →
    table_rows ((m ≫= k) s1).1 msg_collection = table_rows s msg_collection) as Hstep.
  { intros A m k s1 Ha Hs1 Hk. pose proof (stands_aside m _ _ _ Ha Hs1) as Hs2. unfold mbind, handler_bind.
    destruct (m s1) as [s2 [a|err|]]; cbn [fst] in *; [by apply Hk|apply Hs2..]. }
  apply (f_equal fst) in H. cbn [fst] in H. rewrite <- H. unfold send_message. rewrite Hi.
  do 8 (apply Hstep; [first [apply aside_pure|apply aside_read|apply aside_limit|case_match; [apply aside_premium|apply aside_pure]]|done|intros]).
  by apply Hlast.
Qed.
End chat_shortcomings.

(** ** Concrete instances *)
Section chat_witnesses.
#[local] Instance demo_x_chrono : Chrono := plain_chrono.
#[local] Instance demo_x_json : PgJson := plain_json.
#[local] Instance demo_x_text : TextLib := plain_textlib.
(** No pattern matches. *)
#[local] Instance demo_x_regex : RegexLib := {| regex_replace_all := λ _ _ text, text |}.

Definition demo_x_env (id : string) : chat_env :=
  {| xe_test_mode := true; xe_secs := 1000; xe_limit_id := "l"; xe_limit_now := 1; xe_now := λ k, 500 + Z.of_nat k; xe_uuid := id;
     xe_clock := λ k, 600 + Z.of_nat k |}%Z.
Definition chat_shop : store :=
  {["users" := {["ann" := plain_row (VObject [("name", VString "Ann")]); "sue" := plain_row (VObject [("name", VString "Sue")])]};
    "subscriptions" := {["ann" := plain_row (VObject [("status", VString "active")])]};
    "products" := {["p1" := plain_row (VObject [("lifecycleStatus", VString "ACTIVE"); ("sellerId", VString "sue")])]};
    "orders" := {["o1" := plain_row (VObject [("orderStatus", VString "delivered"); ("productIds", VArray [VString "p1"]);
                                              ("userId", VString "ann")])]}]}.
Definition opens : chat_call := GetOrCreate (user_auth "ann") {| gc_other_user_id := "sue"; gc_product_id := Some "p1" |}.
Definition says (u text : string) : chat_call :=
  Send (user_auth u) {| sm_chat_id := "p1_ann"; sm_message_text := Some text; sm_image_urls := None; sm_message_id := None |}.
Definition served (id : string) (call : chat_call) (s : store) : store * Result unit := run_chat "" map_to_list (demo_x_env id) call s.
Definition chat_opened : store := (served "r0" opens chat_shop).1.
Definition chat_written : store := (served "m2" (says "sue" "Hi Ann") (served "m1" (says "ann" "Hello") chat_opened).1).1.
Definition chat_read : store := (served "r3" (MarkRead (user_auth "ann") "p1_ann") chat_written).1.
Definition counts_of (s : store) : option (Z * Z * Z) :=
  (λ row : DocRow, (cents (row_data row) "messageCount", cents (row_data row) "buyerUnreadCount", cents (row_data row) "sellerUnreadCount"))
    <$> table_rows s "chats" !! "p1_ann".
Example chat_counts :
  counts_of chat_opened = Some (0, 0, 0)%Z ∧ counts_of chat_written = Some (2, 1, 1)%Z ∧ counts_of chat_read = Some (2, 0, 1)%Z.
Proof. by vm_compute. Qed.

Lemma serves id call s s' :
  well_addressed (demo_x_env id) s call → s' = (served id call s).1 → is_ok (served id call s).2 = true → chat_step "" map_to_list s s'.
Proof.
  intros Hw -> Hr. destruct (served id call s) as [t r] eqn:E. eapply Served; [exact Hw|exact E|]. cbn in Hr. by intros ->.
Qed.
Lemma chat_shop_ok : chats_ok chat_shop.
Proof.
  split; intros k row Hrow; exfalso.
  - assert (table_rows chat_shop "chats" = ∅) as E by evaluates. by rewrite E, lookup_empty in Hrow.
  - assert (table_rows chat_shop msg_collection = ∅) as E by evaluates. by rewrite E, lookup_empty in Hrow.
Qed.
Lemma chat_served : rtc (chat_step "" map_to_list) chat_shop chat_read.
Proof.
  eapply rtc_l; [|eapply rtc_l; [|eapply rtc_l; [|eapply rtc_l; [|apply rtc_refl]]]].
  - eapply (serves "r0" opens); [done|reflexivity|evaluates].
  - eapply (serves "m1" (says "ann" "Hello")); [split; evaluates|reflexivity|evaluates].
  - eapply (serves "m2" (says "sue" "Hi Ann")); [split; evaluates|reflexivity|evaluates].
  - eapply (serves "r3" (MarkRead (user_auth "ann") "p1_ann")); [by vm_compute|reflexivity|evaluates].
Qed.
Lemma chat_counts_exact_witness : chats_ok chat_read ∧ counts_of chat_read = Some (2, 0, 1)%Z.
Proof.
  split; [|evaluates]. apply (chat_counts_exact "" map_to_list chat_shop chat_read); [exact chat_shop_ok|exact chat_served].
Defined.

(** The preview is cut at a byte: a long message whose hundredth byte is within a
    character is stored, and the request panics before the chat counts it. *)
Definition long_message : string := String.concat "" (repeat "a" 99) +:+ String "195" (String "169" "!").
Example cut_message_uncounted :
  let '(s, r) := served "m1" (says "ann" long_message) chat_opened in
  r = Panic ∧ is_Some (table_rows s msg_collection !! "m1") ∧ counts_of s = Some (0, 0, 0)%Z.
Proof. vm_compute. split_and!; [done|by eexists|done]. Qed.
(** A chat named with the prefix of its collection is the same chat, but the message is
    stored for another: it is counted and never found to be read. *)
Definition says_prefixed : chat_call :=
  Send (user_auth "sue") {| sm_chat_id := "chats:p1_ann"; sm_message_text := Some "Hi"; sm_image_urls := None; sm_message_id := None |}.
Example prefixed_chat_stays_unread :
  counts_of (served "r3" (MarkRead (user_auth "ann") "p1_ann") (served "m1" says_prefixed chat_opened).1).1 = Some (1, 1, 0)%Z.
Proof. evaluates. Qed.
(** A participant of one chat can have any message of another copied into a report. *)
Definition other_message : DocRow :=
  plain_row (VObject [("chatId", VString "p9_bob"); ("deleted", VBool false); ("senderId", VString "bob"); ("text", VString "secret")]).
Example report_of_another_chat :
  let s := <[msg_collection := {["m9" := other_message]}]> chat_opened in
  (λ row : DocRow, str_field (row_data row) "text")
    <$> (table_rows (served "rep1" (Report (user_auth "ann") {| rm_chat_id := "p1_ann"; rm_message_id := "m9"; rm_reason := None |}) s).1
           "message_reports" !! "rep1") = Some "secret".
Proof. cbv zeta. evaluates. Qed.
(** The chat is read and written in separate statements: of two messages at the same
    time one is not counted. *)
Example racing_messages :
  let update := VObject [("messageCount", of_i64 (i64_add 0 1))] in
  counts_of (update_document "chats" "p1_ann" update 2 (update_document "chats" "p1_ann" update 1 chat_opened).1).1 = Some (1, 0, 0)%Z.
Proof. cbv zeta. evaluates. Qed.
End chat_witnesses.
