(* ===== verification/Warehouses.v ===== *)
(** * Warehouses of sellers

    crates/ob-handlers/src/warehouses/mod.rs: a seller keeps warehouses, one of which
    can be the default one; they are documents of one collection that name the seller
    as their parent. *)

From S2P Require Export Chat.

Definition MAX_LABEL_LENGTH : nat := 100.
Definition VALID_TYPES : list string := ["warehouse"; "personal"].
Definition COUNTRY_CANADA : string := "Canada".

Record WarehouseAddressInput : Type := {
  wa_street : string; wa_apartment : option string; wa_city : string; wa_state : string; wa_postal_code : string; wa_country : string;
  wa_phone_number : option string; wa_latitude : option f64; wa_longitude : option f64; wa_label : option string }.
Record CreateWarehouseRequest : Type := {
  cw_user_id : string; cw_label : string; cw_type : string; cw_address : WarehouseAddressInput; cw_is_default : bool }.
Record UpdateWarehouseRequest : Type := {
  uw_user_id : string; uw_warehouse_id : string; uw_label : option string; uw_type : option string;
  uw_address : option WarehouseAddressInput; uw_is_default : option bool }.
Record DeleteWarehouseRequest : Type := { dw_user_id : string; dw_warehouse_id : string }.

Record warehouse_env : Type := {
  ve_test_mode : bool;
  ve_secs : Z; ve_limit_id : string; ve_limit_now : Z;   (** the limiter's *)
  ve_now : Z;                                            (** [Utc::now()] *)
  ve_fresh : string;                                     (** the id of a new document *)
  ve_clock : nat → Z;                                    (** the database's clock at each write *)
}.

(** [format!("{}__{}", USERS, WAREHOUSES)]. *)
Definition warehouses_collection : string := "users__warehouses".
Definition warehouse_parent (user_id : string) : string := "users" +:+ ":" +:+ user_id.

Section warehouses.
Context `{C : Chrono} `{P : PgJson} `{T : TextLib} `{L : Collation}.
Context (pg_invalid_bigint : string).
(** The order in which the database returns the rows of a table; where a quote in an id
    ends its literal, the table and the answer of the statement that results. *)
Context (scan : rows → list (string * DocRow)).
Context (injected : list string → store → string * Result (list Value)).

(** ** Checks *)

Definition sanitize_label (label : string) : Result string :=
  let trimmed := trim label in
  if str_empty trimmed || (MAX_LABEL_LENGTH <? String.length trimmed)%nat then Err (Validation "label must be 1-100 characters")
  else Ok (sanitize_html trimmed).
Definition sanitize_type (warehouse_type : string) : Result string :=
  let trimmed := trim warehouse_type in
  if negb (bool_decide (trimmed ∈ VALID_TYPES))
  then Err (Validation ("type must be one of: [" +:+ join ", " ((λ t, str1 QUOTE +:+ t +:+ str1 QUOTE) <$> VALID_TYPES) +:+ "]"))
  else Ok trimmed.
Definition json_opt {A} (f : A → Value) (o : option A) : Value := match o with Some a => f a | None => VNull end.
Definition sanitize_address (a : WarehouseAddressInput) : Result Value :=
  if str_empty (trim (wa_street a)) || str_empty (trim (wa_city a)) || str_empty (trim (wa_state a)) || str_empty (trim (wa_postal_code a))
  then Err (Validation "street, city, state, and postalCode are required")
  else if negb (trim (wa_country a) =s? COUNTRY_CANADA) then Err (Validation "Warehouse address must be in Canada")
  else
    let clean s := VString (sanitize_html (trim s)) in
    Ok (VObject [("apartment", clean (default "" (wa_apartment a))); ("city", clean (wa_city a)); ("country", VString (trim (wa_country a)));
                 ("label", json_opt clean (wa_label a)); ("latitude", json_opt json_f64 (wa_latitude a));
                 ("longitude", json_opt json_f64 (wa_longitude a)); ("phoneNumber", json_opt clean (wa_phone_number a));
                 ("postalCode", VString (to_uppercase (trim (wa_postal_code a)))); ("state", clean (wa_state a)); ("street", clean (wa_street a))]).

(** ** The default warehouse *)

Definition of_parent (parent : string) (row : DocRow) : bool := text_in "parent_id" [parent] row.
Definition is_default (row : DocRow) : bool := text_in "isDefault" ["true"] row.
(** A statement that holds the ids in literals. *)
Definition query_ids (ids : list string) (query : list string → handler (list Value)) : handler (list Value) :=
  match mapM one_word ids with
  | Some words => query words
  | None => λ s, let '(table, r) := injected ids s in ((ensure_table table s).1, r)
  end.
Definition raw_id_of (doc : Value) : option string := bare_id warehouses_collection <$> (get "id" doc ≫= as_str).
Definition clear_default (e : warehouse_env) (exclude_id : option string) (i : nat) (doc : Value) : handler unit :=
  raw_id ← pure (ok_or (Database "Warehouse record missing id") (raw_id_of doc));
  if bool_decide (exclude_id = Some raw_id) then pure (Ok tt)
  else _ ← db (update_document warehouses_collection raw_id (VObject [("isDefault", VBool false)]) (ve_clock e i)); pure (Ok tt).
Definition clear_other_defaults (e : warehouse_env) (user_id : string) (exclude_id : option string) : handler unit :=
  docs ← query_ids [warehouse_parent user_id] (λ words,
           select_where scan warehouses_collection (λ row, of_parent (List.hd "" words) row && is_default row));
  each_from 1 (clear_default e exclude_id) docs.
Definition load_owned_warehouse (user_id warehouse_id : string) : handler Value :=
  doc ← db (get_document warehouses_collection warehouse_id);
  pure (if str_field doc "parent_id" =s? warehouse_parent user_id then Ok doc else Err (NotFound "Warehouse not found")).
Definition warehouse_limit (e : warehouse_env) (user_id action : string) (max : nat) : handler unit :=
  check_user_rate_limit pg_invalid_bigint (ve_test_mode e) user_id action max 60 (ve_secs e) (ve_limit_id e) (ve_limit_now e).

(** ** The handlers *)

Definition warehouse_doc (e : warehouse_env) (user_id label warehouse_type : string) (address : Value) (default : bool) : Value :=
  VObject [("address", address); ("createdAt", VString (to_rfc3339 (ve_now e))); ("isDefault", VBool default); ("label", VString label);
           ("parent_collection", VString "users"); ("parent_id", VString (warehouse_parent user_id)); ("type", VString warehouse_type)].
Definition create_warehouse (e : warehouse_env) (auth : AuthContext) (req : CreateWarehouseRequest) : handler string :=
  _ ← pure (validate_uid "userId" (cw_user_id req));
  user_id ← pure (resolve_self_user_id auth (Some (cw_user_id req)) "userId");
  _ ← warehouse_limit e user_id "create_warehouse" 15;
  label ← pure (sanitize_label (cw_label req));
  warehouse_type ← pure (sanitize_type (cw_type req));
  address ← pure (sanitize_address (cw_address req));
  _ ← (if cw_is_default req then clear_other_defaults e user_id None else pure (Ok tt));
  created ← db (create_document warehouses_collection (warehouse_doc e user_id label warehouse_type address (cw_is_default req))
                  (ve_fresh e) (ve_clock e 0));
  pure (ok_or (Database "Warehouse create returned no id") (raw_id_of created)).

(** The fields of an update, in the order of their names. *)
Definition patch_checks (req : UpdateWarehouseRequest) : Result (option string * option string * option Value) :=
  label ← match uw_label req with Some l => l ← sanitize_label l; Ok (Some l) | None => Ok None end;
  warehouse_type ← match uw_type req with Some t => t ← sanitize_type t; Ok (Some t) | None => Ok None end;
  address ← match uw_address req with Some a => a ← sanitize_address a; Ok (Some a) | None => Ok None end;
  Ok (label, warehouse_type, address).
Definition field_of {A} (key : string) (f : A → Value) (o : option A) : list (string * Value) :=
  match o with Some a => [(key, f a)] | None => [] end.
Definition patch_fields (req : UpdateWarehouseRequest) (checked : option string * option string * option Value) : list (string * Value) :=
  let '(label, warehouse_type, address) := checked in
  field_of "address" (λ a, a) address ++ field_of "isDefault" VBool (uw_is_default req)
  ++ field_of "label" VString label ++ field_of "type" VString warehouse_type.
Definition update_warehouse (e : warehouse_env) (auth : AuthContext) (req : UpdateWarehouseRequest) : handler string :=
  _ ← pure (validate_uid "userId" (uw_user_id req));
  _ ← pure (validate_uid "warehouseId" (uw_warehouse_id req));
  user_id ← pure (resolve_self_user_id auth (Some (uw_user_id req)) "userId");
  _ ← warehouse_limit e user_id "update_warehouse" 30;
  _ ← load_owned_warehouse user_id (uw_warehouse_id req);
  checked ← pure (patch_checks req);
  _ ← (if bool_decide (uw_is_default req = Some true) then clear_other_defaults e user_id (Some (uw_warehouse_id req)) else pure (Ok tt));
  let patch := patch_fields req checked in
  _ ← pure (match patch with [] => Err (Validation "No valid fields to update") | _ => Ok tt end);
  _ ← db (update_document warehouses_collection (uw_warehouse_id req)
            (VObject (patch ++ [("updatedAt", VString (to_rfc3339 (ve_now e)))])) (ve_clock e 0));
  pure (Ok (uw_warehouse_id req)).

(** [data->'warehouseIds' @> '"id"'::jsonb]. *)
Definition refers_to (warehouse_id : string) (row : DocRow) : bool :=
  match get "warehouseIds" (row_data row) with
  | Some (VArray ids) => existsb (λ v, value_eqb v (VString warehouse_id)) ids
  | Some v => value_eqb v (VString warehouse_id)
  | None => false
  end.
(** The rows by [data->>'createdAt' ASC], NULL last. *)
Definition created_leb (a b : string * DocRow) : bool :=
  match field_text "createdAt" (row_data a.2), field_text "createdAt" (row_data b.2) with
  | Some x, Some y => text_leb x y
  | None, Some _ => false
  | _, None => true
  end.
Definition by_creation (a b : string * DocRow) : Prop := created_leb a b = true.
#[local] Instance by_creation_dec : RelDecision by_creation := λ a b, bool_eq_dec (created_leb a b) true.
Definition oldest_other (parent warehouse_id : string) (s : store) : list Value :=
  (λ kr : string * DocRow, row_to_doc kr.1 kr.2)
    <$> take 1 (merge_sort by_creation (filter (λ kr : string * DocRow, of_parent parent kr.2 && negb (kr.1 =s? warehouse_id) = true)
                                          (scan (table_rows s warehouses_collection)))).
Definition promote (e : warehouse_env) (user_id warehouse_id : string) : handler unit :=
  others ← query_ids [warehouse_parent user_id; warehouse_id] (λ words s,
             let s := (ensure_table warehouses_collection s).1 in (s, Ok (oldest_other (List.hd "" words) (List.nth 1 words "") s)));
  match head others ≫= raw_id_of with
  | Some raw_id => _ ← db (update_document warehouses_collection raw_id (VObject [("isDefault", VBool true)]) (ve_clock e 0)); pure (Ok tt)
  | None => pure (Ok tt)
  end.

(** A product of the seller that is stored in the warehouse.  A backslash of the id is
    doubled in the statement and read as one in the JSON. *)
Definition json_special (c : ascii) : bool := Ascii.eqb c QUOTE || (nat_of_ascii c <? 32)%nat.
Definition products_stored (user_id warehouse_id : string) : handler (list Value) :=
  if str_exists json_special warehouse_id
  then λ s, let '(table, r) := injected [user_id; warehouse_id] s in ((ensure_table table s).1, r)
  else query_ids [user_id; warehouse_id] (λ words,
         select_limit scan 1 "products" (λ row, text_in "sellerId" [List.hd "" words] row && refers_to warehouse_id row)).
Definition delete_warehouse (e : warehouse_env) (auth : AuthContext) (req : DeleteWarehouseRequest) : handler string :=
  _ ← pure (validate_uid "userId" (dw_user_id req));
  _ ← pure (validate_uid "warehouseId" (dw_warehouse_id req));
  user_id ← pure (resolve_self_user_id auth (Some (dw_user_id req)) "userId");
  _ ← warehouse_limit e user_id "delete_warehouse" 15;
  existing ← load_owned_warehouse user_id (dw_warehouse_id req);
  stored ← products_stored user_id (dw_warehouse_id req);
  _ ← pure (match stored with [] => Ok tt | _ => Err (Validation "Cannot delete warehouse while products still reference it") end);
  _ ← (if bool_field existing "isDefault" then promote e user_id (dw_warehouse_id req) else pure (Ok tt));
  _ ← db (delete_document warehouses_collection (dw_warehouse_id req));
  pure (Ok (dw_warehouse_id req)).

(** [ORDER BY data->>'isDefault' DESC, data->>'createdAt' ASC]: NULL comes first in a
    descending order. *)
Definition listing_leb (a b : string * DocRow) : bool :=
  match field_text "isDefault" (row_data a.2), field_text "isDefault" (row_data b.2) with
  | None, None => created_leb a b
  | None, Some _ => true
  | Some _, None => false
  | Some x, Some y => match text_compare x y with Gt => true | Lt => false | Eq => created_leb a b end
  end.
Definition by_listing (a b : string * DocRow) : Prop := listing_leb a b = true.
#[local] Instance by_listing_dec : RelDecision by_listing := λ a b, bool_eq_dec (listing_leb a b) true.
Definition with_warehouse_id (row : Value) : Value :=
  match raw_id_of row, row with
  | Some raw_id, VObject m => VObject (assoc_insert "warehouseId" (VString raw_id) m)
  | _, _ => row
  end.
Definition list_warehouses (auth : AuthContext) (user_id : string) : handler (list Value) :=
  _ ← pure (validate_uid "userId" user_id);
  user_id ← pure (resolve_self_user_id auth (Some user_id) "userId");
  rows ← query_ids [warehouse_parent user_id] (λ words s,
           let s := (ensure_table warehouses_collection s).1 in
           (s, Ok ((λ kr : string * DocRow, row_to_doc kr.1 kr.2)
                     <$> merge_sort by_listing (filter (λ kr : string * DocRow, of_parent (List.hd "" words) kr.2 = true)
                                                  (scan (table_rows s warehouses_collection))))));
  pure (Ok (with_warehouse_id <$> rows)).

Inductive warehouse_call : Type :=
| Create (req : CreateWarehouseRequest)
| Update (req : UpdateWarehouseRequest)
| Remove (req : DeleteWarehouseRequest)
| ListAll (user_id : string).
Definition run_warehouse (e : warehouse_env) (auth : AuthContext) (call : warehouse_call) : handler unit :=
  match call with
  | Create req => dropped (create_warehouse e auth req)
  | Update req => dropped (update_warehouse e auth req)
  | Remove req => dropped (delete_warehouse e auth req)
  | ListAll user_id => dropped (list_warehouses auth user_id)
  end.
End warehouses.

(** ** One default for each seller *)
Section defaults.
Context `{C : Chrono} `{P : PgJson} `{T : TextLib} `{L : Collation}.
(** How PostgreSQL prints a boolean. *)
Context (bool_text : ∀ b, jsonb_text (VBool b) = if b then "true" else "false").
Abbreviation whs s := (table_rows s warehouses_collection).

Definition an_object (row : DocRow) : Prop := ∃ m, row_data row = VObject m.
Record warehouses_ok (rs : rows) : Prop := {
  wo_rows : ∀ k row, rs !! k = Some row → bare_id warehouses_collection k = k ∧ an_object row;
  wo_default : ∀ p k1 k2 r1 r2, rs !! k1 = Some r1 → rs !! k2 = Some r2 → of_parent p r1 = true → of_parent p r2 = true →
    is_default r1 = true → is_default r2 = true → k1 = k2;
}.
(** The warehouses of all but one seller. *)
Definition others_kept (p : string) (rs rs' : rows) : Prop :=
  ∀ k row, of_parent p row = false → rs !! k = Some row ↔ rs' !! k = Some row.

(** *** Defaults that are given up *)
Definition quieter_row (p : string) (r r' : DocRow) : Prop :=
  r' = r ∨ of_parent p r = true ∧ an_object r' ∧ (∀ q, of_parent q r' = of_parent q r) ∧ (is_default r' = true → is_default r = true).
Definition quieter (p : string) (rs rs' : rows) : Prop := ∀ k, option_Forall2 (quieter_row p) (rs !! k) (rs' !! k).
#[local] Instance quieter_row_preorder p : PreOrder (quieter_row p).
Proof.
  split; [by left|]. intros r1 r2 r3 [->|H12] H23; [done|]. destruct H23 as [->|(H5 & H6 & H7 & H8)]; [by right|].
  destruct H12 as (H1 & H2 & H3 & H4). right. split_and!; [done|done|intros q; by rewrite H7, H3|auto].
Qed.
#[local] Instance quieter_preorder p : PreOrder (quieter p).
Proof.
  split.
  - intros rs k. destruct (rs !! k); constructor. reflexivity.
  - intros rs1 rs2 rs3 H1 H2 k. specialize (H1 k). specialize (H2 k). destruct H1 as [r1 r2 H1|]; [|done].
    inversion_clear H2 as [? r3 H2'|]. constructor. by etrans.
Qed.
Lemma quieter_back p rs rs' k r' : quieter p rs rs' → rs' !! k = Some r' → ∃ r, rs !! k = Some r ∧ quieter_row p r r'.
Proof. intros H Hk. specialize (H k). rewrite Hk in H. inversion H; subst; eauto. Qed.
Lemma quieter_forth p rs rs' k r : quieter p rs rs' → rs !! k = Some r → ∃ r', rs' !! k = Some r' ∧ quieter_row p r r'.
Proof. intros H Hk. specialize (H k). rewrite Hk in H. inversion H; subst; eauto. Qed.
Lemma quieter_parent p r r' q : quieter_row p r r' → of_parent q r' = of_parent q r.
Proof. intros [->|(_ & _ & H & _)]; [done|apply H]. Qed.
Lemma quieter_default p r r' : quieter_row p r r' → is_default r' = true → is_default r = true.
Proof. intros [->|(_ & _ & _ & H)]; [done|apply H]. Qed.
Lemma quieter_ok p rs rs' : quieter p rs rs' → warehouses_ok rs → warehouses_ok rs'.
Proof.
  intros Hq [Hr Hd]. split.
  - intros k r' Hk. destruct (quieter_back _ _ _ _ _ Hq Hk) as (r & Hkr & Hrow). destruct (Hr _ _ Hkr) as [Hb Ho]. split; [done|].
    by destruct Hrow as [->|(_ & Ho' & _)].
  - intros q k1 k2 r1' r2' H1 H2 P1 P2 D1 D2. destruct (quieter_back _ _ _ _ _ Hq H1) as (r1 & K1 & Q1).
    destruct (quieter_back _ _ _ _ _ Hq H2) as (r2 & K2 & Q2). rewrite (quieter_parent _ _ _ q Q1) in P1. rewrite (quieter_parent _ _ _ q Q2) in P2.
    eapply (Hd q); eauto using quieter_default.
Qed.
Lemma quieter_others p rs rs' : quieter p rs rs' → others_kept p rs rs'.
Proof.
  intros Hq k row Hp. split.
  - intros Hk. specialize (Hq k). rewrite Hk in Hq. inversion Hq as [? r' Hrow|]; subst.
    destruct Hrow as [->|(Hp' & _)]; [done|congruence].
  - intros Hk. destruct (quieter_back _ _ _ _ _ Hq Hk) as (r & Hkr & [->|(Hp' & _ & Hpar & _)]); [done|].
    rewrite Hpar in Hp. congruence.
Qed.
(** One row that is changed so. *)
Lemma quieter_insert p rs k r r' : rs !! k = Some r → quieter_row p r r' → quieter p rs (<[k := r']> rs).
Proof.
  intros Hk Hq k'. destruct (decide (k' = k)) as [->|Hne]; [rewrite Hk, lookup_insert_eq; by constructor|].
  rewrite lookup_insert_ne by done. destruct (rs !! k'); constructor. reflexivity.
Qed.
Lemma merged_object upd now row : an_object row → an_object (merged_row (VObject upd) now row).
Proof. intros [m Hm]. eexists. cbn. rewrite Hm. done. Qed.
Lemma merged_text_in upd now row key l : NoDup upd.*1 → an_object row → assoc_get key upd = None →
  text_in key l (merged_row (VObject upd) now row) = text_in key l row.
Proof. intros Hnd [m Hm] Hk. unfold text_in, field_text. rewrite (merged_row_get _ _ _ m) by done. by rewrite Hk. Qed.
Lemma merged_default upd now row b : NoDup upd.*1 → an_object row → assoc_get "isDefault" upd = Some (VBool b) →
  is_default (merged_row (VObject upd) now row) = b.
Proof.
  intros Hnd [m Hm] Hk. unfold is_default, text_in, field_text. rewrite (merged_row_get _ _ _ m) by done. rewrite Hk. cbn. rewrite bool_text. by destruct b.
Qed.
Lemma doc_raw_id k row : an_object row → raw_id_of (row_to_doc k row) = Some (bare_id warehouses_collection k).
Proof. intros [m Hm]. unfold raw_id_of. by rewrite (doc_id _ _ m). Qed.

(** *** Clearing *)
Definition no_default : list (string * Value) := [("isDefault", VBool false)].
Lemma cleared_quieter p row now : of_parent p row = true → an_object row → quieter_row p row (merged_row (VObject no_default) now row).
Proof.
  intros Hp Ho. right. split_and!; [done|by apply merged_object| |].
  - intros q. apply merged_text_in; [by apply NoDup_singleton|done|done].
  - rewrite (merged_default _ _ _ false); [done|by apply NoDup_singleton|done|done].
Qed.
(** The rows of [l] are those of the seller, as they were at the start. *)
Lemma clear_each e exclude p l i s :
  warehouses_ok (whs s) →
  (∀ k row, (k, row) ∈ l → ∃ row', whs s !! k = Some row' ∧ of_parent p row' = true ∧ an_object row) →
  ∃ s', each_from i (clear_default e exclude) ((λ kr : string * DocRow, row_to_doc kr.1 kr.2) <$> l) s = (s', Ok tt)
    ∧ quieter p (whs s) (whs s')
    ∧ ∀ k row', k ∈ l.*1 → exclude ≠ Some k → whs s' !! k = Some row' → is_default row' = false.
Proof.
  revert i s. induction l as [|[k row] l IH]; intros i s Hok Hl; [exists s; split_and!; [done|done|]; intros ? ? []%elem_of_nil|].
  destruct (Hl k row) as (row' & Hk & Hp & Ho); [left|]. destruct (wo_rows _ Hok _ _ Hk) as [Hbare Hobj].
  cbn [fmap list_fmap each_from fst snd].
  assert (∃ s1, clear_default e exclude i (row_to_doc k row) s = (s1, Ok tt) ∧ quieter p (whs s) (whs s1)
    ∧ (exclude ≠ Some k → ∃ r1, whs s1 !! k = Some r1 ∧ is_default r1 = false)) as (s1 & Hrun & Hq & Hclear).
  { unfold clear_default. rewrite doc_raw_id, Hbare by done. cbn [ok_or]. rewrite (bind_run _ _ s s k) by done. case_bool_decide as Hex.
    - exists s. split_and!; [done|done|congruence].
    - destruct (update_runs warehouses_collection k (VObject no_default) (ve_clock e i) s row') as (s1 & d & Hrun & Hrows & _); [done|by rewrite Hbare|].
      exists s1. rewrite (bind_run _ _ _ _ _ Hrun). rewrite Hrows, Hbare. split_and!; [done| |].
      + apply (quieter_insert _ _ _ row'); [done|]. by apply cleared_quieter.
      + intros _. exists (merged_row (VObject no_default) (ve_clock e i) row'). rewrite lookup_insert_eq. split; [done|].
        apply merged_default; [by apply NoDup_singleton|done|done]. }
  destruct (IH (S i) s1) as (s' & Hrest & Hq' & Hall).
  { by eapply quieter_ok. }
  { intros k2 row2 Hin. destruct (Hl k2 row2) as (r2 & Hk2 & Hp2 & Ho2); [by right|]. destruct (quieter_forth _ _ _ _ _ Hq Hk2) as (r2' & Hk2' & Hr).
    exists r2'. split; [done|]. split; [|done]. by rewrite (quieter_parent _ _ _ _ Hr). }
  exists s'. rewrite (bind_run _ _ _ _ _ Hrun). split_and!; [done|by etrans|].
  intros k2 r2 [->|Hin]%elem_of_cons Hex Hk2; [|by eapply Hall].
  destruct (Hclear Hex) as (r1 & Hr1 & Hd). destruct (quieter_back _ _ _ _ _ Hq' Hk2) as (r1' & Hr1' & Hrow).
  rewrite Hr1 in Hr1'. injection Hr1' as <-. destruct (is_default r2) eqn:E; [|done]. apply (quieter_default _ _ _ Hrow) in E. congruence.
Qed.

(** *** The handlers *)
Context (pg_invalid_bigint : string).
Context (scan : rows → list (string * DocRow)) (scan_rows : ∀ rs, scan rs ≡ₚ map_to_list rs).
Context (injected : list string → store → string * Result (list Value)).

Lemma keeps_query c ids query : (∀ words, keeps c (query words)) → keeps c (query_ids injected ids query).
Proof.
  intros Hq. unfold query_ids. destruct (mapM one_word ids); [apply Hq|]. intros s. destruct (injected ids s) as [table r]. apply keeps_ensure_first.
Qed.
Lemma keeps_stored c u wid : keeps c (products_stored scan injected u wid).
Proof.
  unfold products_stored. case_match; [|apply keeps_query; intros; apply keeps_select_limit].
  intros s. destruct (injected [u; wid] s) as [table r]. apply keeps_ensure_first.
Qed.
Lemma keeps_owned c u wid : keeps c (load_owned_warehouse u wid).
Proof. apply keeps_bind; [apply keeps_get|intros; apply keeps_pure]. Qed.
Lemma keeps_warehouse_limit c e u action max : c ≠ "rate_limits" → keeps c (warehouse_limit pg_invalid_bigint e u action max).
Proof. intros. by apply keeps_rate_limit. Qed.
Lemma keeps_list c auth u : keeps c (list_warehouses scan injected auth u).
Proof.
  unfold list_warehouses. repeat (apply keeps_bind; [|intros ?]); try apply keeps_pure. apply keeps_query. intros words s. apply keeps_ensure_first.
Qed.

(** The state of the table after a request, whatever its outcome. *)
Definition leads {A} (Q : rows → Prop) (m : handler A) (s : store) : Prop := Q (whs (m s).1).
Lemma leads_bind {A B} Q (m : handler A) (k : A → handler B) s rs :
  whs s = rs → Q rs → keeps warehouses_collection m → (∀ a s1, m s = (s1, Ok a) → whs s1 = rs → leads Q (k a) s1) → leads Q (m ≫= k) s.
Proof.
  intros <- HQ Hm Hk. specialize (Hm s). unfold leads, mbind, handler_bind in *.
  destruct (m s) as [s1 [a|err|]]; cbn [fst] in *; [by apply Hk|by rewrite Hm..].
Qed.
Lemma leads_keeps {A} Q (m : handler A) s : keeps warehouses_collection m → Q (whs s) → leads Q m s.
Proof. intros Hm HQ. unfold leads. by rewrite (Hm s). Qed.
Lemma leads_dropped {A} Q (m : handler A) s : leads Q m s → leads Q (dropped m) s.
Proof. unfold leads, dropped, mbind, handler_bind. by destruct (m s) as [s1 [a|err|]]. Qed.

Lemma clear_others_run e u exclude s :
  warehouses_ok (whs s) → one_word (warehouse_parent u) = Some (warehouse_parent u) →
  ∃ s', clear_other_defaults scan injected e u exclude s = (s', Ok tt) ∧ quieter (warehouse_parent u) (whs s) (whs s')
    ∧ ∀ k r, whs s' !! k = Some r → of_parent (warehouse_parent u) r = true → is_default r = true → exclude = Some k.
Proof.
  intros Hok Hw. set (p := warehouse_parent u) in *. unfold clear_other_defaults, query_ids. fold p. cbn [mapM]. rewrite Hw. cbn [mbind option_bind mret option_ret List.hd].
  set (hits := filter (λ kr : string * DocRow, of_parent p kr.2 && is_default kr.2 = true) (scan (whs s))).
  assert (∀ k row, (k, row) ∈ hits ↔ whs s !! k = Some row ∧ of_parent p row = true ∧ is_default row = true) as Hhits.
  { intros k row. unfold hits. rewrite list_elem_of_filter, scan_rows, elem_of_map_to_list. cbn [snd]. rewrite andb_true_iff. naive_solver. }
  destruct (clear_each e exclude p hits 1 (ensure_table warehouses_collection s).1) as (s' & Hrun & Hq & Hall).
  { by rewrite keeps_ensure_first. }
  { intros k row Hin. rewrite keeps_ensure_first. apply Hhits in Hin as (Hk & Hp & _). exists row. split_and!; [done|done|by eapply wo_rows]. }
  rewrite keeps_ensure_first in Hq. exists s'. split_and!; [|done|].
  - etrans; [|exact Hrun]. unfold select_where, mbind, handler_bind. cbv zeta. rewrite keeps_ensure_first. done.
  - intros k r Hk Hp Hd. destruct (decide (exclude = Some k)) as [|Hex]; [done|exfalso].
    destruct (quieter_back _ _ _ _ _ Hq Hk) as (r0 & Hk0 & Hrow). rewrite (quieter_parent _ _ _ _ Hrow) in Hp.
    assert (k ∈ hits.*1) as Hin.
    { apply list_elem_of_fmap. exists (k, r0). split; [done|]. apply Hhits. eauto using quieter_default. }
    pose proof (Hall k r Hin Hex Hk). congruence.
Qed.

(** *** What a request leaves *)
Definition good (p : string) (rs0 rs : rows) : Prop := warehouses_ok rs ∧ others_kept p rs0 rs.
Lemma others_insert p rs0 rs k row' :
  (∀ row, rs !! k = Some row → of_parent p row = true) → of_parent p row' = true → others_kept p rs0 rs → others_kept p rs0 (<[k := row']> rs).
Proof.
  intros Hold Hp H k2 row2 Hp2. rewrite (H k2 row2 Hp2). destruct (decide (k2 = k)) as [->|Hne]; [|by rewrite lookup_insert_ne].
  rewrite lookup_insert_eq. split; [intros Hk; by rewrite (Hold _ Hk) in Hp2|intros [= ->]; congruence].
Qed.
Lemma others_delete p rs0 rs k :
  (∀ row, rs !! k = Some row → of_parent p row = true) → others_kept p rs0 rs → others_kept p rs0 (delete k rs).
Proof.
  intros Hold H k2 row2 Hp2. rewrite (H k2 row2 Hp2). destruct (decide (k2 = k)) as [->|Hne]; [|by rewrite lookup_delete_ne].
  rewrite lookup_delete_eq. split; [intros Hk; by rewrite (Hold _ Hk) in Hp2|done].
Qed.
Lemma others_refl p rs : others_kept p rs rs.
Proof. done. Qed.
Lemma quieter_good p rs0 rs rs' : quieter p rs rs' → good p rs0 rs → good p rs0 rs'.
Proof.
  intros Hq [Hok Ho]. split; [by eapply quieter_ok|]. intros k row Hp. rewrite (Ho k row Hp). by apply (quieter_others _ _ _ Hq).
Qed.
(** A row of the seller is written; if it is a default, it is the only one. *)
Lemma written_ok p rs k row' :
  warehouses_ok rs → bare_id warehouses_collection k = k → an_object row' → of_parent p row' = true → (∀ q, of_parent q row' = true → q = p) →
  (is_default row' = true → ∀ k2 r2, rs !! k2 = Some r2 → of_parent p r2 = true → is_default r2 = true → k2 = k) →
  warehouses_ok (<[k := row']> rs).
Proof.
  intros [Hr Hd] Hb Ho Hp Hq Hone. split.
  - intros k2 r2 [[<- <-]|[_ Hk2]]%lookup_insert_Some; [done|by eapply Hr].
  - intros q k1 k2 r1 r2 [[<- <-]|[N1 K1]]%lookup_insert_Some [[<- <-]|[N2 K2]]%lookup_insert_Some P1 P2 D1 D2; [done|..|by eapply Hd].
    + rewrite (Hq _ P1) in P2. symmetry. by eapply Hone.
    + rewrite (Hq _ P2) in P1. by eapply Hone.
Qed.
Lemma parent_only p row : field_text "parent_id" (row_data row) = Some p → of_parent p row = true ∧ ∀ q, of_parent q row = true → q = p.
Proof.
  intros H. unfold of_parent, text_in. rewrite H. split; [apply bool_decide_true; by left|].
  intros q Hq. bools. apply list_elem_of_singleton in Hq. done.
Qed.
Lemma of_parent_text p row : of_parent p row = true → field_text "parent_id" (row_data row) = Some p.
Proof.
  unfold of_parent, text_in. destruct (field_text _ _) as [t|]; [|done]. intros H. bools. apply list_elem_of_singleton in H. congruence.
Qed.
Lemma owned_row u wid s s1 doc :
  load_owned_warehouse u wid s = (s1, Ok doc) →
  ∃ row, whs s !! bare_id warehouses_collection wid = Some row ∧ doc = row_to_doc (bare_id warehouses_collection wid) row
    ∧ of_parent (warehouse_parent u) row = true.
Proof.
  intros H. unfold load_owned_warehouse in H. run_inv H. apply row_read in R as (row & Hrow & ->). apply pure_ok in H as [_ H].
  destruct (_ =s? _) eqn:E; [|done]. injection H as <-. exists row. split_and!; [done..|]. bools. unfold str_field in E.
  rewrite get_row_to_doc in E by concrete. unfold of_parent, text_in, field_text.
  destruct (get "parent_id" (row_data row)) as [v|]; [|done]. destruct v; try done. cbn in *. subst. apply bool_decide_true. by left.
Qed.

Tactic Notation "nextw" ident(a) ident(H) :=
  let s1 := fresh "s" in
  eapply leads_bind; [eassumption|by split| |intros a s1 H ?];
  [first [apply keeps_pure|apply keeps_owned|apply keeps_stored|by apply keeps_warehouse_limit]|];
  lazymatch type of H with pure _ _ = _ => apply pure_ok in H as [-> H] | _ => idtac end.

Section request.
Context (e : warehouse_env) (auth : AuthContext).
Abbreviation u := (auth_user_id auth).
Abbreviation p := (warehouse_parent u).
Context (Hword : one_word p = Some p).

Lemma create_good req s :
  warehouses_ok (whs s) → bare_id warehouses_collection (ve_fresh e) = ve_fresh e →
  leads (good p (whs s)) (create_warehouse pg_invalid_bigint scan injected e auth req) s.
Proof.
  intros Hok Hfresh. pose proof (others_refl p (whs s)) as Ho. remember (whs s) as rs eqn:Hs. symmetry in Hs.
  unfold create_warehouse. nextw a1 Hn1. nextw user Hu. apply resolve_self_ok in Hu as ->. nextw a2 Hn2. nextw label Hl. nextw ty Ht. nextw addr Ha.
  match goal with |- leads _ _ ?x => rename x into t end. assert (whs t = rs) as Ht1 by assumption.
  assert (∃ t', (if cw_is_default req then clear_other_defaults scan injected e u None else pure (Ok tt)) t = (t', Ok tt)
    ∧ quieter p rs (whs t') ∧ (cw_is_default req = true → ∀ k r, whs t' !! k = Some r → of_parent p r = true → is_default r = true → False))
    as (t' & Hrun & Hq & Hnone).
  { destruct (cw_is_default req); [|exists t; rewrite Ht1; split_and!; [done|done|done]].
    destruct (clear_others_run e u None t) as (t' & Hrun & Hq & Hall); [by rewrite Ht1|done|]. exists t'. rewrite <- Ht1. split_and!; [done|done|].
    intros _ k r Hk Hp Hd. by specialize (Hall k r Hk Hp Hd). }
  unfold leads. rewrite (bind_run _ _ _ _ _ Hrun). apply (quieter_good p rs) in Hq as [Hok' Ho']; [|by split].
  rewrite bind_keeps_state by (intros; apply keeps_pure). unfold db. rewrite create_rows by done.
  change (document_id _ _) with (ve_fresh e). destruct (whs t' !! ve_fresh e) eqn:Hnew; [by split|].
  set (row := {| row_data := _; row_created_at := _; row_updated_at := _ |}).
  destruct (parent_only p row eq_refl) as [Hp Hp']. split; [|by apply others_insert; [congruence|done|done]].
  apply (written_ok p); [done|done|by eexists|done|done|]. intros Hd k2 r2 Hk2 Hp2 Hd2. exfalso. eapply (Hnone); [|done..].
  assert (field_text "isDefault" (row_data row) = Some (jsonb_text (VBool (cw_is_default req)))) as E by reflexivity.
  unfold is_default, text_in in Hd. rewrite E, bool_text in Hd. by destruct (cw_is_default req).
Qed.

Lemma patch_keys req checked :
  let keys := (patch_fields req checked ++ [("updatedAt", VString (to_rfc3339 (ve_now e)))]).*1 in
  NoDup keys ∧ ("parent_id" ∉ keys) ∧ assoc_get "isDefault" (patch_fields req checked ++ [("updatedAt", VString (to_rfc3339 (ve_now e)))])
    = VBool <$> uw_is_default req.
Proof.
  destruct checked as [[[l|] [t|]] [a|]], (uw_is_default req) as [b|] eqn:E; cbn [patch_fields]; rewrite E; cbn [field_of app fmap list_fmap fst];
    split_and!; first [concrete|done].
Qed.
Lemma update_good req s :
  warehouses_ok (whs s) → leads (good p (whs s)) (update_warehouse pg_invalid_bigint scan injected e auth req) s.
Proof.
  intros Hok. pose proof (others_refl p (whs s)) as Ho. remember (whs s) as rs eqn:Hs. symmetry in Hs.
  unfold update_warehouse. nextw a0 Hn0. nextw a1 Hn1. nextw user Hu. apply resolve_self_ok in Hu as ->. nextw a2 Hn2. nextw doc Hdoc.
  match type of Hdoc with load_owned_warehouse _ _ ?x = _ => assert (whs x = rs) as Hx by assumption end.
  apply owned_row in Hdoc as (row0 & Hrow0 & _ & Hp0). rewrite Hx in Hrow0. nextw checked Hc.
  set (wid := uw_warehouse_id req) in *. set (k0 := bare_id warehouses_collection wid) in *.
  match goal with |- leads _ _ ?x => rename x into t end. assert (whs t = rs) as Ht1 by assumption.
  assert (∃ t', (if bool_decide (uw_is_default req = Some true) then clear_other_defaults scan injected e u (Some wid) else pure (Ok tt)) t = (t', Ok tt)
    ∧ quieter p rs (whs t')
    ∧ (uw_is_default req = Some true → ∀ k r, whs t' !! k = Some r → of_parent p r = true → is_default r = true → k = k0))
    as (t' & Hrun & Hq & Hone).
  { case_bool_decide as Hdef; [|exists t; rewrite Ht1; split_and!; [done|done|done]].
    destruct (clear_others_run e u (Some wid) t) as (t' & Hrun & Hq & Hall); [by rewrite Ht1|done|]. exists t'. rewrite Ht1 in Hq. split_and!; [done|done|].
    intros _ k r Hk Hp Hd. specialize (Hall k r Hk Hp Hd). injection Hall as Hall. unfold k0. rewrite Hall.
    symmetry. by apply (wo_rows _ (quieter_ok _ _ _ Hq Hok) k r). }
  unfold leads. rewrite (bind_run _ _ _ _ _ Hrun). destruct (quieter_forth _ _ _ _ _ Hq Hrow0) as (r0 & E2 & Hr0).
  rewrite <- (quieter_parent _ _ _ p Hr0) in Hp0. apply (quieter_good p rs) in Hq as [Hok' Ho']; [|by split].
  destruct (patch_keys req checked) as (Hnd & Hnp & Hdef). set (patch := patch_fields req checked ++ _) in *.
  match goal with |- good _ _ (whs (?m t').1) => change (leads (good p rs) m t') end.
  eapply leads_bind; [reflexivity|by split|apply keeps_pure|]. intros a3 t2 [-> _]%pure_ok _. unfold leads.
  rewrite bind_keeps_state by (intros; apply keeps_pure). unfold db. rewrite update_rows. fold k0. rewrite E2.
  change (is_ok _) with true. cbn iota. destruct (wo_rows _ Hok' _ _ E2) as [Hb Hob].
  assert (∀ q, of_parent q (merged_row (VObject patch) (ve_clock e 0) r0) = of_parent q r0) as Hpar.
  { intros q. apply merged_text_in; [done|done|]. by apply assoc_get_none. }
  destruct (parent_only _ _ (of_parent_text _ _ Hp0)) as [_ Honly].
  split; [|apply others_insert; [congruence|by rewrite Hpar|done]]. apply (written_ok p); [done|done|by apply merged_object|by rewrite Hpar| |].
  { intros q. rewrite Hpar. apply Honly. }
  intros Hd k2 r2 Hk2 Hp2 Hd2. destruct (uw_is_default req) as [[]|] eqn:Ed.
  - by eapply Hone.
  - by rewrite (merged_default _ _ _ false) in Hd.
  - eapply (wo_default _ Hok' p); [done..| |]; [done|]. revert Hd. unfold is_default. by rewrite merged_text_in.
Qed.

Definition new_default : list (string * Value) := [("isDefault", VBool true)].
Lemma promote_run wid w s :
  warehouses_ok (whs s) → one_word wid = Some w →
  ∃ s', promote scan injected e u wid s = (s', Ok tt)
    ∧ (whs s' = whs s ∧ (∀ k r, whs s !! k = Some r → of_parent p r = true → k = w)
       ∨ ∃ k1 r1, whs s !! k1 = Some r1 ∧ of_parent p r1 = true ∧ k1 ≠ w
           ∧ whs s' = <[k1 := merged_row (VObject new_default) (ve_clock e 0) r1]> (whs s)).
Proof.
  intros Hok Hw. unfold promote, query_ids. cbn [mapM]. rewrite Hword, Hw. cbn [mbind option_bind mret option_ret List.hd List.nth].
  unfold mbind, handler_bind. cbv zeta. set (s0 := (ensure_table warehouses_collection s).1). unfold oldest_other.
  assert (whs s0 = whs s) as Hs0 by apply keeps_ensure_first. rewrite Hs0.
  set (l := merge_sort by_creation _).
  assert (∀ k r, (k, r) ∈ l ↔ whs s !! k = Some r ∧ of_parent p r = true ∧ k ≠ w) as Hl.
  { intros k r. unfold l. rewrite merge_sort_Permutation, list_elem_of_filter, scan_rows, elem_of_map_to_list. cbn [fst snd].
    rewrite andb_true_iff, negb_true_iff. unfold str_eqb. rewrite bool_decide_eq_false. naive_solver. }
  destruct l as [|[k1 r1] l']; cbn [take fmap list_fmap head fst snd mbind option_bind].
  { exists s0. split; [done|]. left. split; [done|]. intros k r Hk Hp. destruct (decide (k = w)) as [|Hne]; [done|].
    destruct (elem_of_nil (k, r)) as [[] _]. by apply Hl. }
  destruct (proj1 (Hl k1 r1)) as (Hk1 & Hp1 & Hne); [left|]. destruct (wo_rows _ Hok _ _ Hk1) as [Hb Ho]. rewrite doc_raw_id, Hb by done.
  destruct (update_runs warehouses_collection k1 (VObject new_default) (ve_clock e 0) s0 r1) as (s' & d & Hrun & Hrows & _); [done|by rewrite Hb, Hs0|].
  unfold db. unfold new_default in Hrun. rewrite Hrun. exists s'. split; [done|]. right. exists k1, r1. split_and!; [done..|]. by rewrite Hrows, Hb, Hs0.
Qed.
Lemma delete_run c i s row :
  is_ok (validate_identifier c) = true → table_rows s c !! bare_id c i = Some row →
  ∃ s' doc, delete_document c i s = (s', Ok doc) ∧ table_rows s' c = delete (bare_id c i) (table_rows s c).
Proof.
  intros Hv Hrow. unfold delete_document. rewrite with_table_valid by done. cbv beta zeta. rewrite table_rows_ensured, Hrow.
  do 2 eexists. split; [reflexivity|]. by rewrite table_rows_insert.
Qed.
Lemma deleted_good rs0 rs k row : rs !! k = Some row → of_parent p row = true → good p rs0 rs → good p rs0 (delete k rs).
Proof.
  intros Hk Hp [[Hr Hd] Ho]. split; [split|apply others_delete; [congruence|done]].
  - intros k2 r2 [_ Hk2]%lookup_delete_Some. by eapply Hr.
  - intros q k1 k2 r1 r2 [_ K1]%lookup_delete_Some [_ K2]%lookup_delete_Some. by eapply Hd.
Qed.
(** The default is taken over by another warehouse. *)
Lemma handed_good rs0 rs k0 row0 k1 r1 :
  good p rs0 rs → rs !! k0 = Some row0 → of_parent p row0 = true → is_default row0 = true → rs !! k1 = Some r1 → of_parent p r1 = true →
  good p rs0 (delete k0 (<[k1 := merged_row (VObject new_default) (ve_clock e 0) r1]> rs)).
Proof.
  intros Hg Hk0 Hp0 Hd0 Hk1 Hp1. pose proof Hg as [Hok _]. destruct (decide (k1 = k0)) as [->|Hne].
  { rewrite delete_insert_eq. by eapply deleted_good. }
  rewrite delete_insert_ne by done. destruct (deleted_good rs0 rs k0 row0 Hk0 Hp0) as [Hok' Ho']; [done|].
  destruct (wo_rows _ Hok _ _ Hk1) as [Hb Hob]. destruct (parent_only _ _ (of_parent_text _ _ Hp1)) as [_ Honly].
  assert (∀ q, of_parent q (merged_row (VObject new_default) (ve_clock e 0) r1) = of_parent q r1) as Hpar.
  { intros q. apply merged_text_in; [by apply NoDup_singleton|done|done]. }
  split; [|apply others_insert; [intros r [_ Hr]%lookup_delete_Some; congruence|by rewrite Hpar|done]].
  apply (written_ok p); [done|done|by apply merged_object|by rewrite Hpar|intros q; rewrite Hpar; apply Honly|].
  intros _ k2 r2 [Hne2 Hk2]%lookup_delete_Some Hp2 Hd2. destruct Hne2. by eapply (wo_default _ Hok p).
Qed.
Lemma delete_good req s w :
  warehouses_ok (whs s) → one_word (dw_warehouse_id req) = Some w →
  leads (good p (whs s)) (delete_warehouse pg_invalid_bigint scan injected e auth req) s.
Proof.
  intros Hok Hw. pose proof (others_refl p (whs s)) as Ho. remember (whs s) as rs eqn:Hs. symmetry in Hs.
  unfold delete_warehouse. nextw a0 Hn0. nextw a1 Hn1. nextw user Hu. apply resolve_self_ok in Hu as ->. nextw a2 Hn2. nextw doc Hdoc.
  match type of Hdoc with load_owned_warehouse _ _ ?x = _ => assert (whs x = rs) as Hx by assumption end.
  apply owned_row in Hdoc as (row0 & Hrow0 & -> & Hp0). rewrite Hx in Hrow0. nextw found Hfound. nextw a3 Hn3.
  set (wid := dw_warehouse_id req) in *. set (k0 := bare_id warehouses_collection wid) in *.
  match goal with |- leads _ _ ?x => rename x into t end. assert (whs t = rs) as Ht1 by assumption.
  assert (∀ t', whs t' !! k0 = Some row0 ∨ (∃ r, whs t' !! k0 = Some r) → good p rs (delete k0 (whs t')) →
    good p rs (whs ((_ ← db (delete_document warehouses_collection wid); pure (Ok wid)) t').1)) as Hlast.
  { intros t' Hk Hg. assert (∃ r, whs t' !! k0 = Some r) as [r Hr] by naive_solver.
    destruct (delete_run warehouses_collection wid t' r) as (t2 & d & Hrun & Hrows); [done|done|].
    rewrite (bind_run _ _ _ _ _ Hrun). cbn [pure fst]. by rewrite Hrows. }
  unfold leads. destruct (bool_field _ _) eqn:Hdef.
  - destruct (promote_run wid w t) as (t' & Hrun & Hcases); [by rewrite Ht1|done|]. rewrite (bind_run _ _ _ _ _ Hrun). rewrite Ht1 in Hcases.
    destruct Hcases as [[E _]|(k1 & r1 & Hk1 & Hp1 & _ & E)]; apply Hlast; rewrite E.
    + by left.
    + by eapply deleted_good.
    + right. destruct (decide (k1 = k0)) as [->|Hne]; [rewrite lookup_insert_eq|rewrite lookup_insert_ne by done]; eauto.
    + eapply handed_good; [by split|done|done| |done|done]. unfold bool_field in Hdef. rewrite get_row_to_doc in Hdef by concrete.
      unfold is_default, text_in, field_text. destruct (get "isDefault" (row_data row0)) as [v|]; [|done].
      destruct v as [|b| | | |]; try done. cbn in *. subst b. rewrite bool_text. done.
  - rewrite (bind_run _ _ t t tt) by done. apply Hlast; rewrite Ht1; [by left|]. by eapply deleted_good.
Qed.
End request.

(** *** Any sequence of requests *)
(** Ids that need no escaping, as those the server makes. *)
Definition plainly_named (request : warehouse_env * AuthContext * warehouse_call) : Prop :=
  let '(e, auth, call) := request in
  let p := warehouse_parent (auth_user_id auth) in
  one_word p = Some p
  ∧ match call with
    | Create _ => bare_id warehouses_collection (ve_fresh e) = ve_fresh e
    | Remove req => is_Some (one_word (dw_warehouse_id req))
    | _ => True
    end.
Definition serve (s : store) (request : warehouse_env * AuthContext * warehouse_call) : store :=
  let '(e, auth, call) := request in (run_warehouse pg_invalid_bigint scan injected e auth call s).1.
Definition caller (request : warehouse_env * AuthContext * warehouse_call) : string := auth_user_id request.1.2.
Lemma serve_good s request :
  plainly_named request → warehouses_ok (whs s) → good (warehouse_parent (caller request)) (whs s) (whs (serve s request)).
Proof.
  destruct request as [[e auth] call]. intros [Hp Hc] Hok. unfold serve, caller. cbn [fst snd].
  change (leads (good (warehouse_parent (auth_user_id auth)) (whs s)) (run_warehouse pg_invalid_bigint scan injected e auth call) s).
  destruct call as [req|req|req|v]; cbn [run_warehouse]; apply leads_dropped.
  - by apply create_good.
  - by apply update_good.
  - destruct Hc as [w Hw]. by eapply delete_good.
  - apply leads_keeps; [apply keeps_list|by split].
Qed.
Lemma other_parent u v row : u ≠ v → of_parent (warehouse_parent v) row = true → of_parent (warehouse_parent u) row = false.
Proof.
  intros Hne Hv. apply not_true_is_false. intros Hu. apply of_parent_text in Hv, Hu. rewrite Hv in Hu. injection Hu as Hu. by destruct Hne.
Qed.

(** C29: whatever requests are served, in any order and with any outcome, a seller has
    at most one default warehouse, and the warehouses of a seller who sends none of
    them stay exactly as they are. *)
Theorem warehouses_one_default requests s :
  Forall plainly_named requests → warehouses_ok (whs s) →
  warehouses_ok (whs (foldl serve s requests))
  ∧ ∀ v, (v ∉ caller <$> requests) → ∀ k row, of_parent (warehouse_parent v) row = true →
      whs s !! k = Some row ↔ whs (foldl serve s requests) !! k = Some row.
Proof.
  intros Hall. revert s. induction Hall as [|request requests Hr _ IH]; intros s Hok; [done|]. cbn [foldl].
  destruct (serve_good s request Hr Hok) as [Hok1 Ho1]. destruct (IH _ Hok1) as [Hok2 Ho2]. split; [done|].
  intros v Hv k row Hp. rewrite fmap_cons, not_elem_of_cons in Hv. destruct Hv as [Hne Hv]. rewrite <- (Ho2 v Hv k row Hp).
  apply Ho1. by apply (other_parent _ v); [apply not_eq_sym|].
Qed.

(** When the default warehouse is deleted and others are left, one of them is the
    default. *)
Theorem default_handed_over e auth req s s' r k0 row0 :
  delete_warehouse pg_invalid_bigint scan injected e auth req s = (s', Ok r) → warehouses_ok (whs s) →
  let p := warehouse_parent (auth_user_id auth) in
  one_word p = Some p → one_word (dw_warehouse_id req) = Some k0 → bare_id warehouses_collection (dw_warehouse_id req) = k0 →
  whs s !! k0 = Some row0 → get "isDefault" (row_data row0) = Some (VBool true) →
  whs s' !! k0 = None
  ∧ ∀ k row, whs s' !! k = Some row → of_parent p row = true → ∃ k1 r1, whs s' !! k1 = Some r1 ∧ of_parent p r1 = true ∧ is_default r1 = true.
Proof.
  intros H Hok p Hp Hw Hb Hk0 Hd0. unfold delete_warehouse in H. run_inv H. clear R. run_inv H. clear R. run_inv H. apply resolve_self_ok in R as ->.
  run_inv H. apply (keeps_run warehouses_collection) in R as E0; [|by apply keeps_warehouse_limit]. clear R.
  run_inv H. pose proof R as Hown. apply owned_row in Hown as (row & Hrow & -> & _). rewrite E0, Hb, Hk0 in Hrow. injection Hrow as <-.
  apply (keeps_run warehouses_collection _ _ _ _ (keeps_owned _ _ _)) in R as E1. clear R. run_inv H. apply (keeps_run warehouses_collection _ _ _ _ (keeps_stored _ _ _)) in R as E2. clear R.
  run_inv H. clear R.
  assert (bool_field (row_to_doc (bare_id warehouses_collection (dw_warehouse_id req)) row0) "isDefault" = true) as Hdef.
  { unfold bool_field. rewrite get_row_to_doc, Hd0 by concrete. done. }
  rewrite Hdef in H. run_inv H. rewrite E1, E0 in E2.
  destruct (promote_run e auth Hp (dw_warehouse_id req) k0 s2) as (t & Hrun & Hcases); [by rewrite E2|done|].
  rewrite Hrun in R. injection R as <- _. run_inv H. apply pure_ok in H as [-> _]. rename s3 into s5. rename t into s3. rename R into R6.
  assert (whs s5 = delete k0 (whs s3)) as E4.
  { destruct Hcases as [[E _]|(k1 & r1 & _ & _ & Hne & E)].
    - destruct (delete_run warehouses_collection (dw_warehouse_id req) s3 row0) as (t2 & d & Hrun2 & Hrows); [done|by rewrite Hb, E, E2|].
      unfold db in R6. rewrite Hrun2 in R6. injection R6 as <- _. by rewrite Hrows, Hb.
    - destruct (delete_run warehouses_collection (dw_warehouse_id req) s3 row0) as (t2 & d & Hrun2 & Hrows);
        [done|by rewrite Hb, E, lookup_insert_ne, E2|].
      unfold db in R6. rewrite Hrun2 in R6. injection R6 as <- _. by rewrite Hrows, Hb. }
  rewrite E4, lookup_delete_eq. split; [done|]. intros k row [Hne Hk]%lookup_delete_Some Hpk.
  destruct Hcases as [[E Hnone]|(k1 & r1 & Hk1 & Hp1 & Hne1 & E)].
  { rewrite E in Hk. destruct Hne. symmetry. by eapply Hnone. }
  destruct (wo_rows _ Hok k1 r1) as [_ Ho1]; [by rewrite <- E2|].
  exists k1, (merged_row (VObject new_default) (ve_clock e 0) r1). rewrite E, lookup_delete_ne, lookup_insert_eq by done.
  split_and!; [done| |].
  - unfold of_parent. rewrite merged_text_in; [done|by apply NoDup_singleton|done|done].
  - apply merged_default; [by apply NoDup_singleton|done|done].
Qed.
End defaults.

(** ** Concrete instances *)
Section warehouse_witnesses.
#[local] Instance demo_v_chrono : Chrono := plain_chrono.
#[local] Instance demo_v_json : PgJson := plain_json.
#[local] Instance demo_v_text : TextLib := plain_textlib.
#[local] Instance demo_v_collation : Collation := byte_collation.

Definition demo_wh_env (id : string) (now : Z) : warehouse_env :=
  {| ve_test_mode := true; ve_secs := 1000; ve_limit_id := "l"; ve_limit_now := 1; ve_now := now; ve_fresh := id;
     ve_clock := λ k, 600 + Z.of_nat k |}%Z.
Definition nothing_injected (ids : list string) (s : store) : string * Result (list Value) := ("users__warehouses", Ok []).
Definition dock : WarehouseAddressInput :=
  {| wa_street := "1 Dock Rd"; wa_apartment := None; wa_city := "Toronto"; wa_state := "ON"; wa_postal_code := "m5v3a8"; wa_country := "Canada";
     wa_phone_number := None; wa_latitude := None; wa_longitude := None; wa_label := None |}.
Definition builds (u id : string) (now : Z) : warehouse_env * AuthContext * warehouse_call :=
  (demo_wh_env id now, user_auth u, Create {| cw_user_id := u; cw_label := id; cw_type := "warehouse"; cw_address := dock; cw_is_default := true |}).
Definition removes (u id : string) : warehouse_env * AuthContext * warehouse_call :=
  (demo_wh_env "x" 9, user_auth u, Remove {| dw_user_id := u; dw_warehouse_id := id |}).
Definition demo_serve : store → warehouse_env * AuthContext * warehouse_call → store := serve "" map_to_list nothing_injected.
Definition defaults_of (s : store) : list string :=
  fst <$> filter (λ kr : string * DocRow, is_default kr.2 = true) (map_to_list (table_rows s warehouses_collection)).
Definition two_sellers_build : list (warehouse_env * AuthContext * warehouse_call) :=
  [builds "sue" "w1" 11; builds "bob" "w2" 12; builds "sue" "w3" 13; removes "sue" "w3"]%Z.
Example the_last_default :
  defaults_of (foldl demo_serve ∅ (take 2 two_sellers_build)) ≡ₚ ["w1"; "w2"]
  ∧ defaults_of (foldl demo_serve ∅ (take 3 two_sellers_build)) ≡ₚ ["w2"; "w3"]
  ∧ defaults_of (foldl demo_serve ∅ two_sellers_build) ≡ₚ ["w1"; "w2"].
Proof. split_and!; apply (bool_decide_unpack _); by vm_compute. Qed.

(** The defaults are cleared and the new one is written in separate statements: two
    warehouses that are made default at the same time both are. *)
Example racing_defaults :
  let new id := create_document warehouses_collection (warehouse_doc (demo_wh_env id 1) "sue" id "warehouse" VNull true) id 1 in
  let cleared := (clear_other_defaults map_to_list nothing_injected (demo_wh_env "x" 1) "sue" None
                    (clear_other_defaults map_to_list nothing_injected (demo_wh_env "x" 1) "sue" None ∅).1).1 in
  defaults_of (new "w2" (new "w1" cleared).1).1 ≡ₚ ["w1"; "w2"].
Proof. cbv zeta. apply (bool_decide_unpack _). by vm_compute. Qed.

Lemma demo_named : Forall plainly_named two_sellers_build.
Proof. repeat (constructor; [split; [by vm_compute|first [by vm_compute|by eexists]]|]). constructor. Qed.
Lemma no_warehouses : warehouses_ok (table_rows ∅ warehouses_collection).
Proof. split; intros; simplify_map_eq. Qed.
Lemma plain_booleans (b : bool) : jsonb_text (VBool b) = if b then "true" else "false".
Proof. by destruct b. Qed.
Lemma warehouses_one_default_witness :
  warehouses_ok (table_rows (foldl demo_serve ∅ two_sellers_build) warehouses_collection).
Proof.
  apply (warehouses_one_default plain_booleans "" map_to_list (λ rs, reflexivity _) nothing_injected two_sellers_build ∅); [exact demo_named|exact no_warehouses].
Defined.
End warehouse_witnesses.
