(* ===== verification/ShippingCalc.v ===== *)
(** * Quotes for shipping

    crates/ob-handlers/src/shipping_calc/mod.rs: what the items of a cart cost to ship,
    by distance where the service Geoapify answers, else by province.  The service is
    a function of the coordinates; the order in which a [HashMap] is walked is a
    parameter. *)

From S2P Require Export Warehouses.

(** ** Constants *)

Definition DISTANCE_TIERS : list (f64 * f64) :=
  [(f64_of_Z 5, f64_of_decimal false 499 2); (f64_of_Z 15, f64_of_decimal false 699 2); (f64_of_Z 50, f64_of_decimal false 899 2);
   (f64_of_Z 150, f64_of_decimal false 1199 2); (f64_of_Z 500, f64_of_decimal false 1499 2); (f64_of_Z 1000, f64_of_decimal false 1799 2)].
Definition NATIONAL_CEILING : f64 := f64_of_decimal false 2199 2.
Definition ADDITIONAL_ITEM_RATE_BP : Z := 35.
Definition DEFAULT_WEIGHT_KG : f64 := f64_of_decimal false 5 1.
Definition DEFAULT_DIMENSION_CM : f64 := f64_of_Z 15.
Definition VOLUMETRIC_DIVISOR : f64 := f64_of_Z 5000.
Definition WEIGHT_SURCHARGE_THRESHOLD_KG : f64 := f64_of_Z 5.
Definition WEIGHT_SURCHARGE_PER_KG_CENTS : Z := 150.
Definition FALLBACK_SAME_PROVINCE : f64 := f64_of_decimal false 899 2.
Definition FALLBACK_ADJACENT : f64 := f64_of_decimal false 1199 2.
Definition FALLBACK_SAME_REGION : f64 := f64_of_decimal false 1499 2.
Definition EXPRESS_HYPER_LOCAL_BP : Z := 130.
Definition EXPRESS_LOCAL_BP : Z := 150.
Definition EXPRESS_REGIONAL_BP : Z := 180.
Definition EXPRESS_DEFAULT_BP : Z := 200.
Definition SAME_DAY_HYPER_LOCAL_BP : Z := 200.
Definition SAME_DAY_LOCAL_BP : Z := 250.
Definition SAME_DAY_REGIONAL_BP : Z := 300.
Definition SAME_DAY_DEFAULT_BP : Z := 350.
Definition PERISHABLE_MAX_DISTANCE_KM : f64 := f64_of_Z 50.

Definition dollars_to_cents (dollars : f64) : Z := f64_round_as_i64 (f64_mul dollars (f64_of_Z 100)).

(** ** Provinces *)

Definition adjacent_provinces (p : string) : list string :=
  if p =s? "BC" then ["AB"; "YT"; "NT"] else if p =s? "AB" then ["BC"; "SK"; "NT"] else if p =s? "SK" then ["AB"; "MB"; "NT"; "NU"]
  else if p =s? "MB" then ["SK"; "ON"; "NU"] else if p =s? "ON" then ["MB"; "QC"] else if p =s? "QC" then ["ON"; "NB"; "NL"]
  else if p =s? "NB" then ["QC"; "NS"; "PE"] else if p =s? "NS" then ["NB"; "PE"] else if p =s? "PE" then ["NB"; "NS"]
  else if p =s? "NL" then ["QC"] else if p =s? "YT" then ["BC"; "NT"] else if p =s? "NT" then ["BC"; "AB"; "SK"; "YT"; "NU"]
  else if p =s? "NU" then ["SK"; "MB"; "NT"] else [].
Definition are_adjacent (p1 p2 : string) : bool := bool_decide (p2 ∈ adjacent_provinces p1).
Definition province_region (p : string) : string :=
  if bool_decide (p ∈ ["BC"; "AB"]) then "West" else if bool_decide (p ∈ ["SK"; "MB"]) then "Prairies"
  else if bool_decide (p ∈ ["ON"; "QC"]) then "Central" else if bool_decide (p ∈ ["NB"; "NS"; "PE"; "NL"]) then "Atlantic"
  else if bool_decide (p ∈ ["YT"; "NT"; "NU"]) then "North" else "Unknown".
Definition are_same_region (p1 p2 : string) : bool :=
  let r1 := province_region p1 in let r2 := province_region p2 in negb (r1 =s? "Unknown") && (r1 =s? r2).

(** ** Requests *)

Record CalcAddress : Type := { sa_latitude : option f64; sa_longitude : option f64; sa_state : option string }.
Record ShippingItem : Type := {
  si_product_id : string; si_seller_id : option string; si_cart_item_id : option string; si_quantity : Z;
  si_weight_kg : option f64; si_length_cm : option f64; si_width_cm : option f64; si_height_cm : option f64;
  si_free_shipping : option bool; si_is_digital : option bool; si_is_perishable : option bool; si_is_local_delivery_only : option bool;
  si_seller_address : option CalcAddress; si_ship_from_province : option string }.
Record CalculateShippingRequest : Type := {
  cs_buyer_address : CalcAddress; cs_items : list ShippingItem; cs_speed : string; cs_subtotal_cents : option Z }.
Record CalculateShippingResponse : Type := { cs_total_cost_cents : Z; cs_breakdown : gmap string Z }.

(** ** Costs *)

Definition by_distance (distance_km : f64) (hyper_local local regional default_ : Z) : Z :=
  if f64_leb distance_km (f64_of_Z 15) then hyper_local
  else if f64_leb distance_km (f64_of_Z 50) then local
  else if f64_leb distance_km (f64_of_Z 150) then regional else default_.
Definition get_speed_multiplier_bp (speed : string) (distance_km : f64) : Z :=
  if speed =s? "express" then by_distance distance_km EXPRESS_HYPER_LOCAL_BP EXPRESS_LOCAL_BP EXPRESS_REGIONAL_BP EXPRESS_DEFAULT_BP
  else if speed =s? "same_day" then by_distance distance_km SAME_DAY_HYPER_LOCAL_BP SAME_DAY_LOCAL_BP SAME_DAY_REGIONAL_BP SAME_DAY_DEFAULT_BP
  else 100.
Fixpoint tier_cost (tiers : list (f64 * f64)) (distance_km : f64) : f64 :=
  match tiers with
  | [] => NATIONAL_CEILING
  | (threshold, cost) :: tiers => if f64_leb distance_km threshold then cost else tier_cost tiers distance_km
  end.
Definition base_cost_for_distance : f64 → f64 := tier_cost DISTANCE_TIERS.

(** [f64::max]: a NaN is ignored. *)
Definition f64_max (a b : f64) : f64 :=
  match a, b with
  | S754_nan, _ => b
  | _, S754_nan => a
  | _, _ => if f64_ltb a b then b else a
  end.
Definition f64_sub (a b : f64) : f64 := SFsub f64_prec f64_emax a b.
Definition effective_weight (item : ShippingItem) : f64 :=
  let actual := f64_max (default DEFAULT_WEIGHT_KG (si_weight_kg item)) (f64_of_Z 0) in
  let l := f64_max (default DEFAULT_DIMENSION_CM (si_length_cm item)) (f64_of_Z 1) in
  let w := f64_max (default DEFAULT_DIMENSION_CM (si_width_cm item)) (f64_of_Z 1) in
  let h := f64_max (default DEFAULT_DIMENSION_CM (si_height_cm item)) (f64_of_Z 1) in
  f64_max actual (f64_div (f64_mul (f64_mul l w) h) VOLUMETRIC_DIVISOR).
Definition item_identifier (item : ShippingItem) : string := default (si_product_id item) (si_cart_item_id item).

(** The price of an item, of which the first pays the full base. *)
Definition item_qty (item : ShippingItem) : Z := Z.max (si_quantity item) 1.
Definition share (units base : Z) : Z := i64_add (i64_mul (i64_mul units base) ADDITIONAL_ITEM_RATE_BP) 50 `quot` 100.
Definition item_base (first : bool) (base qty : Z) : Z :=
  if first then i64_add base (share (Z.max (i64_sub qty 1) 0) base) else share qty base.
Definition excess_centikgs (item : ShippingItem) : Z :=
  f64_round_as_i64 (f64_mul (f64_sub (effective_weight item) WEIGHT_SURCHARGE_THRESHOLD_KG) (f64_of_Z 100)).
Definition weight_surcharge (item : ShippingItem) : Z :=
  if f64_ltb WEIGHT_SURCHARGE_THRESHOLD_KG (effective_weight item)
  then i64_add (i64_mul (i64_mul (excess_centikgs item) WEIGHT_SURCHARGE_PER_KG_CENTS) (item_qty item)) 50 `quot` 100
  else 0.
Definition at_speed (cost multiplier_bp : Z) : Z := i64_add (i64_mul cost multiplier_bp) 50 `quot` 100.
(** The loop both computations have. *)
Fixpoint itemized (price : bool → ShippingItem → Z) (first : bool) (items : list ShippingItem) (acc : Z * gmap string Z) : Z * gmap string Z :=
  match items with
  | [] => acc
  | item :: items =>
      let cost := price first item in
      itemized price false items (i64_add acc.1 cost, <[item_identifier item := cost]> acc.2)
  end.
Definition tiered_price (base multiplier_bp : Z) (first : bool) (item : ShippingItem) : Z :=
  at_speed (i64_add (item_base first base (item_qty item)) (weight_surcharge item)) multiplier_bp.
Definition calculate_tiered_itemized (distance_km : f64) (items : list ShippingItem) (speed : string) : Z * gmap string Z :=
  itemized (tiered_price (dollars_to_cents (base_cost_for_distance distance_km)) (get_speed_multiplier_bp speed distance_km)) true items (0%Z, ∅).
Definition fallback_base (seller_province buyer_province : string) : Z :=
  dollars_to_cents (if seller_province =s? buyer_province then FALLBACK_SAME_PROVINCE
                    else if are_adjacent seller_province buyer_province then FALLBACK_ADJACENT
                    else if are_same_region seller_province buyer_province then FALLBACK_SAME_REGION else NATIONAL_CEILING).
Definition fallback_multiplier (speed : string) : Z :=
  if speed =s? "express" then EXPRESS_REGIONAL_BP else if speed =s? "same_day" then SAME_DAY_HYPER_LOCAL_BP else 100.
Definition fallback_price (base multiplier_bp : Z) (first : bool) (item : ShippingItem) : Z :=
  at_speed (item_base first base (item_qty item)) multiplier_bp.
Definition calculate_fallback_itemized (items : list ShippingItem) (seller_province buyer_province speed : string) : Z * gmap string Z :=
  itemized (fallback_price (fallback_base seller_province buyer_province) (fallback_multiplier speed)) true items (0%Z, ∅).

(** ** The distance *)

Definition element (i : nat) (v : Value) : option Value := as_array v ≫= λ l, l !! i.
(** The kilometres of the answer; what is wrong with it is only logged. *)
Definition distance_of (body : Value) : option f64 :=
  distance_m ← ((((get "sources_to_targets" body ≫= element 0) ≫= element 0) ≫= get "distance") ≫= as_f64);
  Some (f64_max (f64_div distance_m (f64_of_Z 1000)) (f64_of_Z 0)).
(** [format!("{:.1}", f)]: the nearest multiple of a tenth, ties to even. *)
Definition tenths (m e : Z) : Z :=
  if (0 <=? e)%Z then (m * 10 * 2 ^ e)%Z
  else let q := (m * 10 / 2 ^ (- e))%Z in let r := ((m * 10) `mod` 2 ^ (- e))%Z in
       match (2 * r ?= 2 ^ (- e))%Z with Gt => (q + 1)%Z | Eq => (q + q `mod` 2)%Z | Lt => q end.
Definition one_decimal (f : f64) : string :=
  match f with
  | S754_zero s => (if s then "-" else "") +:+ "0.0"
  | S754_infinity s => (if s then "-" else "") +:+ "inf"
  | S754_nan => "NaN"
  | S754_finite s m e =>
      let h := tenths (Zpos m) e in (if s then "-" else "") +:+ pretty (h / 10)%Z +:+ "." +:+ pretty (h `mod` 10)%Z
  end.

(** ** The handler *)
Section calc.
Context `{C : Chrono}.
(** The answer of the route service to a request that succeeds, by the coordinates, and
    the key; the order in which the sellers come. *)
Context (geo_body : f64 → f64 → f64 → f64 → option Value) (geo_key : option string).
Context (walk : gmap string (list ShippingItem) → list (list ShippingItem)).

Definition geoapify_distance (from_lon from_lat to_lon to_lat : f64) : option f64 := geo_body from_lon from_lat to_lon to_lat ≫= distance_of.

Fixpoint group_by_seller (items : list ShippingItem) (by_seller : gmap string (list ShippingItem)) : Result (gmap string (list ShippingItem)) :=
  match items with
  | [] => Ok by_seller
  | item :: items =>
      sid ← ok_or (Validation "All items must have a valid seller ID for shipping calculation") (si_seller_id item);
      group_by_seller items (<[sid := default [] (by_seller !! sid) ++ [item]]> by_seller)
  end.

Definition warehouse_checks (seller_id : string) (seller : Value) : Result unit :=
  match get "warehouseAddress" seller ≫= as_object with
  | None => Err (Validation ("Seller " +:+ seller_id +:+ " has no warehouse configured. Please contact seller to set up warehouse address."))
  | Some w => match assoc_get "state" w ≫= as_str with
              | None => Err (Validation ("Seller " +:+ seller_id +:+ " warehouse missing province field"))
              | Some _ => Ok tt
              end
  end.
Definition has_warehouse (seller_items : list ShippingItem) : handler unit :=
  match seller_items with
  | [] => pure (Ok tt)
  | first :: _ =>
      let seller_id := default "unknown" (si_seller_id first) in
      seller ← db_map_err (λ _, NotFound ("Seller " +:+ seller_id +:+ " not found")) (get_document "users" seller_id);
      pure (warehouse_checks seller_id seller)
  end.

Definition chargeable (item : ShippingItem) : bool := negb (default false (si_free_shipping item)) && negb (default false (si_is_digital item)).
Definition seller_province_of (first : ShippingItem) : Result string :=
  ok_or (Validation "Seller province is required for shipping calculation")
    (match si_seller_address first ≫= sa_state with Some p => Some p | None => si_ship_from_province first end).
Definition has_perishable (items : list ShippingItem) : bool := existsb (λ it, default false (si_is_perishable it)) items.
Definition province_checks (seller_province buyer_province : string) (items : list ShippingItem) : Result unit :=
  if existsb (λ it, default false (si_is_local_delivery_only it)) items && negb (seller_province =s? buyer_province)
  then Err (Validation ("Local delivery only: items cannot be shipped from " +:+ seller_province +:+ " to " +:+ buyer_province))
  else if has_perishable items && negb (seller_province =s? buyer_province)
  then Err (Validation "Perishable items cannot be shipped across provinces. Please select a local seller or item without perishable products.")
  else Ok tt.
Definition wants_distance (speed : string) (items : list ShippingItem) : bool := (speed =s? "express") || (speed =s? "same_day") || has_perishable items.
Definition coordinates (seller buyer : option CalcAddress) : option (f64 * f64 * (f64 * f64)) :=
  slat ← seller ≫= sa_latitude; slon ← seller ≫= sa_longitude; blat ← buyer ≫= sa_latitude; blon ← buyer ≫= sa_longitude;
  Some (slon, slat, (blon, blat)).
Definition distance_checks (speed : string) (items : list ShippingItem) (distance_km : f64) : Result unit :=
  if (speed =s? "same_day") && f64_ltb PERISHABLE_MAX_DISTANCE_KM distance_km
  then Err (Validation ("Same Day delivery not available: distance " +:+ one_decimal distance_km +:+ "km exceeds 50km limit"))
  else if has_perishable items && f64_ltb PERISHABLE_MAX_DISTANCE_KM distance_km
  then Err (Validation ("Perishable items can only be delivered within 50km local radius. Buyer is " +:+ one_decimal distance_km +:+ "km away."))
  else Ok tt.
Definition no_distance (speed : string) (items : list ShippingItem) : Result unit :=
  if speed =s? "same_day" then Err (Validation "Same Day delivery temporarily unavailable (location check failed)")
  else if has_perishable items
  then Err (Validation "Perishable delivery temporarily unavailable (distance verification failed). Please try again later.")
  else Ok tt.

(** The items of one seller that are charged. *)
Definition quote_items (buyer : CalcAddress) (buyer_province speed : string) (items : list ShippingItem) : Result (Z * gmap string Z) :=
  match items with
  | [] => Ok (0%Z, ∅)
  | first :: _ =>
      seller_province ← seller_province_of first;
      _ ← province_checks seller_province buyer_province items;
      let fallback := calculate_fallback_itemized items seller_province buyer_province speed in
      match (if wants_distance speed items then coordinates (si_seller_address first) (Some buyer) else None), geo_key with
      | Some (slon, slat, (blon, blat)), Some _ =>
          match geoapify_distance slon slat blon blat with
          | Some distance_km => _ ← distance_checks speed items distance_km; Ok (calculate_tiered_itemized distance_km items speed)
          | None => _ ← no_distance speed items; Ok fallback
          end
      | _, _ => Ok fallback
      end
  end.
Fixpoint quote_sellers (buyer : CalcAddress) (buyer_province speed : string) (sellers : list (list ShippingItem)) (acc : Z * gmap string Z) :
    handler (Z * gmap string Z) :=
  match sellers with
  | [] => pure (Ok acc)
  | seller_items :: sellers =>
      _ ← has_warehouse seller_items;
      quote ← pure (quote_items buyer buyer_province speed (List.filter chargeable seller_items));
      quote_sellers buyer buyer_province speed sellers (i64_add acc.1 quote.1, quote.2 ∪ acc.2)
  end.
Definition calculate_shipping (auth : AuthContext) (req : CalculateShippingRequest) : handler CalculateShippingResponse :=
  _ ← pure (require_authenticated auth);
  buyer_province ← pure (ok_or (Validation "Buyer province is required for shipping calculation") (sa_state (cs_buyer_address req)));
  by_seller ← pure (group_by_seller (cs_items req) ∅);
  quote ← quote_sellers (cs_buyer_address req) buyer_province (cs_speed req) (walk by_seller) (0%Z, ∅);
  let free := match cs_subtotal_cents req with Some s => (FREE_SHIPPING_THRESHOLD_CENTS <=? s)%Z | None => false end in
  pure (Ok {| cs_total_cost_cents := if free then 0%Z else quote.1; cs_breakdown := quote.2 |}).
End calc.

(** ** Numbers *)
Section numbers.
Local Open Scope Z_scope.

Definition no_sign (f : f64) : Prop := match f with S754_finite s _ _ | S754_infinity s => s = false | _ => True end.
Lemma rounded_no_sign m e l : no_sign (binary_round_aux f64_prec f64_emax false m e l).
Proof. unfold binary_round_aux. by repeat case_match. Qed.
Lemma round_no_sign f : no_sign f → 0 ≤ f64_round_as_i64 f.
Proof.
  destruct f as [|s| |s m e]; cbn; [done|intros ->; done|done|intros ->]. unfold saturate_i64, i64_max, signed, round_int. case_match eqn:H.
  - apply Z.leb_le in H. assert (0 < 2 ^ e) by (apply Z.pow_pos_nonneg; lia). assert (0 ≤ Zpos m * 2 ^ e) by nia. lia.
  - assert (0 ≤ (Zpos m + 2 ^ (- e - 1)) / 2 ^ (- e)); [|lia]. apply Z.leb_gt in H.
    assert (0 < 2 ^ (- e - 1)) by (apply Z.pow_pos_nonneg; lia). apply Z.div_pos; [lia|]. apply Z.pow_pos_nonneg; lia.
Qed.
(** What is above five kilograms has no sign. *)
Lemma above_five w : f64_valid w = true → f64_ltb WEIGHT_SURCHARGE_THRESHOLD_KG w = true → no_sign (f64_sub w WEIGHT_SURCHARGE_THRESHOLD_KG).
Proof.
  change WEIGHT_SURCHARGE_THRESHOLD_KG with (S754_finite false 5629499534213120 (-50)). intros Hv Hlt.
  destruct w as [|[]| |[] m e]; try done. unfold f64_ltb, SFltb in Hlt. cbn [SFcompare] in Hlt.
  unfold f64_sub, SFsub. cbv zeta. set (ez := Z.min e (-50)). unfold binary_normalize. cbn [cond_Zopp].
  assert (0 < Zpos (fst (shl_align m e ez)) - Zpos (fst (shl_align 5629499534213120 (-50) ez))) as Hpos.
  { unfold ez. destruct (Z.compare_spec (-50) e) as [<-|Hlt'|Hgt]; [| |done].
    - change (Z.min (-50) (-50)) with (-50). unfold shl_align. cbn [Z.sub Z.opp Z.add Z.pos_sub Pos.add].
      change (-50 - -50) with 0. cbn [fst]. destruct (Pos.compare_cont Eq 5629499534213120 m) eqn:E; try done.
      apply Z.lt_0_sub. exact E.
    - rewrite Z.min_r by lia. unfold shl_align. change (-50 - -50) with 0. destruct (-50 - e) as [|d|d] eqn:Ed; [lia|lia|]. cbn [fst].
      change (PosDef.Pos.iter xO m d) with (Zpower.shift_pos d m). rewrite Zpower.shift_pos_correct, Z.pow_pos_fold. replace (Zpos d) with (e + 50) by lia.
      assert (2 ^ 52 ≤ Zpos m) as Hm.
      { unfold f64_valid, valid_binary, bounded, canonical_mantissa in Hv. bools. apply Z.eqb_eq in H. unfold fexp, emin in H.
        change f64_prec with 53 in H. change f64_emax with 1024 in H. change (Zpos (digits2_pos m)) with (Zdigits2 (Zpos m)) in H.
        rewrite digits2_log2 in H by lia. assert (Z.log2 (Zpos m) = 52) as Hl by lia. destruct (Z.log2_spec (Zpos m)) as [Hm _]; [lia|]. by rewrite Hl in Hm. }
      assert (2 ^ 1 ≤ 2 ^ (e + 50)) by (apply Z.pow_le_mono_r; lia). nia. }
  destruct (_ - _) as [|d|d]; [lia| |lia]. unfold binary_round. destruct (shl_align _ _ _) as [mz ez']. apply rounded_no_sign.
Qed.
Lemma times_no_sign f m e : no_sign f → no_sign (f64_mul f (S754_finite false m e)).
Proof. destruct f as [s|s| |s m' e']; cbn; try done; [by intros ->|]. intros ->. unfold f64_mul. cbn [SFmul xorb]. apply rounded_no_sign. Qed.
Lemma excess_nonneg item :
  f64_valid (effective_weight item) = true → f64_ltb WEIGHT_SURCHARGE_THRESHOLD_KG (effective_weight item) = true → 0 ≤ excess_centikgs item.
Proof.
  intros Hv Hw. apply round_no_sign. change (f64_of_Z 100) with (S754_finite false 7036874417766400 (-46)). apply times_no_sign. by apply above_five.
Qed.

Lemma i64_small z : - 2 ^ 63 ≤ z < 2 ^ 63 → wrap_signed 64 z = z.
Proof. intros H. by apply (wrap_signed_id 64). Qed.
Lemma base_range d : 0 ≤ dollars_to_cents (base_cost_for_distance d) ≤ 2199.
Proof. unfold base_cost_for_distance, DISTANCE_TIERS, tier_cost. repeat case_match; by vm_compute. Qed.
Lemma fallback_base_range p q : 0 ≤ fallback_base p q ≤ 2199.
Proof. unfold fallback_base. repeat case_match; by vm_compute. Qed.
Lemma speed_range speed d : 100 ≤ get_speed_multiplier_bp speed d ≤ 350.
Proof. unfold get_speed_multiplier_bp, by_distance. repeat case_match; by vm_compute. Qed.
Lemma fallback_speed_range speed : 100 ≤ fallback_multiplier speed ≤ 350.
Proof. unfold fallback_multiplier. repeat case_match; by vm_compute. Qed.

(** An item of at most a million pieces of at most a hundred tons each; every f64 is
    valid. *)
Definition moderate (item : ShippingItem) : bool :=
  (si_quantity item <=? 10 ^ 6) && f64_valid (effective_weight item) && (excess_centikgs item <=? 10 ^ 7).
Definition max_cost : Z := 9 * 10 ^ 15.

Lemma rounded_up n : 0 ≤ n → n + 50 < 2 ^ 63 → 0 ≤ i64_add n 50 `quot` 100 ≤ n.
Proof.
  intros H0 H1. unfold i64_add. rewrite i64_small by lia. rewrite Z.quot_div_nonneg by lia.
  split; [apply Z.div_pos; lia|]. destruct (decide (n = 0)) as [->|]; [done|]. apply Z.div_le_upper_bound; lia.
Qed.
Lemma share_range units base : 0 ≤ units ≤ 10 ^ 6 → 0 ≤ base ≤ 2199 → 0 ≤ share units base ≤ 10 ^ 11.
Proof.
  intros Hu Hb. unfold share, i64_mul, ADDITIONAL_ITEM_RATE_BP. rewrite (i64_small (units * base)) by nia. rewrite i64_small by nia.
  destruct (rounded_up (units * base * 35)) as [H1 H2]; [nia|nia|]. split; [done|]. nia.
Qed.
Lemma item_base_range first base qty : 0 ≤ base ≤ 2199 → 1 ≤ qty ≤ 10 ^ 6 → 0 ≤ item_base first base qty ≤ 10 ^ 12.
Proof.
  intros Hb Hq. unfold item_base, i64_sub. destruct first; [|pose proof (share_range qty base); lia].
  rewrite (i64_small (qty - 1)) by lia. pose proof (share_range (Z.max (qty - 1) 0) base). unfold i64_add. rewrite i64_small by lia. lia.
Qed.
Lemma surcharge_range item : moderate item = true → 0 ≤ weight_surcharge item ≤ 2 * 10 ^ 15.
Proof.
  unfold moderate. intros H. bools. apply Z.leb_le in H, H0. unfold weight_surcharge. case_match eqn:E; [|lia]. pose proof (excess_nonneg item H1 E) as Hx.
  assert (1 ≤ item_qty item ≤ 10 ^ 6) as Hq by (unfold item_qty; lia). unfold i64_mul, WEIGHT_SURCHARGE_PER_KG_CENTS.
  rewrite (i64_small (excess_centikgs item * 150)) by lia. rewrite i64_small by nia.
  destruct (rounded_up (excess_centikgs item * 150 * item_qty item)) as [Ha Hb]; [nia|nia|]. split; [done|]. nia.
Qed.
Lemma at_speed_range cost bp : 0 ≤ cost ≤ 3 * 10 ^ 15 → 100 ≤ bp ≤ 350 → 0 ≤ at_speed cost bp ≤ 4 * cost + 1.
Proof.
  intros Hc Hb. unfold at_speed, i64_mul. rewrite i64_small by nia. unfold i64_add. rewrite i64_small by nia. rewrite Z.quot_div_nonneg by nia.
  split; [apply Z.div_pos; nia|]. apply Z.div_le_upper_bound; nia.
Qed.
End numbers.

(** ** What the items cost together *)
Section sums.
Local Open Scope Z_scope.

Definition cost_sum (m : gmap string Z) : Z := map_fold (λ _ cost acc, cost + acc) 0 m.
Lemma cost_sum_insert m k v : m !! k = None → cost_sum (<[k := v]> m) = v + cost_sum m.
Proof. intros Hk. unfold cost_sum. rewrite map_fold_insert_L; [done|intros; lia|done]. Qed.
Lemma cost_sum_union m1 m2 : m1 ##ₘ m2 → cost_sum (m1 ∪ m2) = cost_sum m1 + cost_sum m2.
Proof.
  revert m2. induction m1 as [|k v m1 Hk IH] using map_ind; intros m2 Hd; [by rewrite (left_id_L ∅ (∪))|].
  apply map_disjoint_insert_l in Hd as [Hk2 Hd]. rewrite <- insert_union_l, !cost_sum_insert, IH; [lia|done|done|by apply lookup_union_None].
Qed.
Definition affordable (m : gmap string Z) : Prop := map_Forall (λ _ cost, 0 ≤ cost ≤ max_cost) m.
Lemma cost_sum_range m : affordable m → 0 ≤ cost_sum m ≤ max_cost * Z.of_nat (size m).
Proof.
  induction m as [|k v m Hk IH] using map_ind; intros Ha; [done|]. apply map_Forall_insert in Ha as [Hv Ha]; [|done].
  rewrite cost_sum_insert, map_size_insert_None by done. specialize (IH Ha). lia.
Qed.
(** A quote whose total is what its entries add up to. *)
Record balanced (q : Z * gmap string Z) (ids : list string) : Prop := {
  bal_total : q.1 = cost_sum q.2;
  bal_range : affordable q.2;
  bal_dom : dom q.2 = list_to_set ids;
}.
Lemma balanced_size q ids : balanced q ids → (size q.2 ≤ length ids)%nat.
Proof.
  intros [_ _ Hd]. rewrite <- size_dom, Hd. clear. induction ids as [|i ids IH]; [done|]. cbn [list_to_set length].
  rewrite size_union_alt, size_singleton. assert (size (list_to_set (C := gset string) ids ∖ {[i]}) ≤ size (list_to_set (C := gset string) ids))%nat
    by (apply subseteq_size; set_solver). lia.
Qed.
Lemma small_sum m n : affordable m → (size m ≤ n)%nat → (n ≤ 1000)%nat → 0 ≤ cost_sum m < 2 ^ 63.
Proof. intros Ha Hn Hle. pose proof (cost_sum_range m Ha). unfold max_cost in *. nia. Qed.

(** *** The loop over the items *)
Lemma itemized_spec price items first q ids :
  balanced q ids → NoDup (ids ++ (item_identifier <$> items)) → (length ids + length items ≤ 1000)%nat →
  (∀ f item, item ∈ items → 0 ≤ price f item ≤ max_cost) →
  balanced (itemized price first items q) (ids ++ (item_identifier <$> items)).
Proof.
  revert first q ids. induction items as [|item items IH]; intros first q ids Hq Hnd Hlen Hp; [by rewrite app_nil_r|].
  cbn [itemized fmap list_fmap] in *. rewrite (cons_middle _ ids), (assoc_L (++)) in *. cbn [length] in Hlen.
  pose proof (balanced_size _ _ Hq) as Hsize. destruct Hq as [Ht Hr Hd].
  assert (q.2 !! item_identifier item = None) as Hnew.
  { apply not_elem_of_dom. rewrite Hd, elem_of_list_to_set. apply NoDup_app in Hnd as (Hnd & _ & _). apply NoDup_app in Hnd as (_ & Hnd & _).
    intros Hin. apply (Hnd _ Hin). by left. }
  destruct (Hp first item) as [H0 H1]; [by left|]. apply IH; [|done|rewrite length_app; cbn; lia|intros f it Hit; apply Hp; by right].
  split; cbn [fst snd].
  - rewrite cost_sum_insert by done. pose proof (small_sum (<[item_identifier item := price first item]> q.2) 1000) as Hs.
    rewrite cost_sum_insert, map_size_insert_None in Hs by done. unfold i64_add. rewrite i64_small; [lia|].
    rewrite Ht. destruct Hs; [by apply map_Forall_insert|lia|lia|lia].
  - by apply map_Forall_insert.
  - rewrite dom_insert_L, Hd, list_to_set_app_L. cbn. set_solver.
Qed.
Lemma balanced_empty : balanced (0, ∅) [].
Proof. split; [done|apply map_Forall_empty|done]. Qed.
Lemma moderate_qty item : moderate item = true → 1 ≤ item_qty item ≤ 10 ^ 6.
Proof. unfold moderate. intros H. bools. apply Z.leb_le in H. unfold item_qty. lia. Qed.
Lemma tiered_spec d items speed :
  Forall (λ item, moderate item = true) items → NoDup (item_identifier <$> items) → (length items ≤ 1000)%nat →
  balanced (calculate_tiered_itemized d items speed) (item_identifier <$> items).
Proof.
  rewrite Forall_forall. intros Hm Hnd Hlen. apply (itemized_spec _ _ _ _ []); [apply balanced_empty|done|done|]. intros f item Hin. unfold tiered_price.
  pose proof (item_base_range f _ (item_qty item) (base_range d) (moderate_qty _ (Hm _ Hin))) as Hb. pose proof (surcharge_range _ (Hm _ Hin)) as Hs.
  unfold i64_add. rewrite i64_small by lia. unfold max_cost.
  match goal with |- 0 ≤ at_speed ?cost ?bp ≤ _ => pose proof (at_speed_range cost bp ltac:(lia) (speed_range _ _)) end. lia.
Qed.
Lemma fallback_spec items p q speed :
  Forall (λ item, moderate item = true) items → NoDup (item_identifier <$> items) → (length items ≤ 1000)%nat →
  balanced (calculate_fallback_itemized items p q speed) (item_identifier <$> items).
Proof.
  rewrite Forall_forall. intros Hm Hnd Hlen. apply (itemized_spec _ _ _ _ []); [apply balanced_empty|done|done|]. intros f item Hin. unfold fallback_price.
  pose proof (item_base_range f _ (item_qty item) (fallback_base_range p q) (moderate_qty _ (Hm _ Hin))) as Hb. unfold max_cost.
  match goal with |- 0 ≤ at_speed ?cost ?bp ≤ _ => pose proof (at_speed_range cost bp ltac:(lia) (fallback_speed_range _)) end. lia.
Qed.
End sums.

(** ** The quote *)
Section quote.
Context `{C : Chrono}.
Context (geo_body : f64 → f64 → f64 → f64 → option Value) (geo_key : option string).
Local Open Scope Z_scope.
Abbreviation quote := (quote_items geo_body geo_key).
Abbreviation ids_of items := (item_identifier <$> items).

Lemma quote_items_cases buyer bp speed items q :
  quote buyer bp speed items = Ok q →
  items = [] ∧ q = (0, ∅) ∨ (∃ d, q = calculate_tiered_itemized d items speed) ∨ ∃ sp, q = calculate_fallback_itemized items sp bp speed.
Proof.
  intros H. destruct items as [|first items]; cbn [quote_items] in H; [injection H as <-; by left|right].
  destruct (seller_province_of first) as [sp| |]; [|done..]. cbn [mbind outcome_bind] in H.
  destruct (province_checks _ _ _) as [| |]; [|done..]. cbn [mbind outcome_bind] in H. cbv zeta in H.
  repeat (case_match; try done);
    repeat match goal with E : (?r ≫= _) = Ok _ |- _ => destruct r as [[]| |]; cbn [mbind outcome_bind] in E; try done end;
    injection H as <-; eauto.
Qed.
Lemma quote_items_spec buyer bp speed items q :
  quote buyer bp speed items = Ok q → Forall (λ item, moderate item = true) items → NoDup (ids_of items) → (length items ≤ 1000)%nat →
  balanced q (ids_of items).
Proof.
  intros [[-> ->]|[[d ->]|[sp ->]]]%quote_items_cases Hm Hnd Hlen; [apply balanced_empty|by apply tiered_spec|by apply fallback_spec].
Qed.
Lemma itemized_dom price first items q : dom (itemized price first items q).2 = dom q.2 ∪ list_to_set (ids_of items).
Proof.
  revert first q. induction items as [|item items IH]; intros first q; cbn [itemized]; [set_solver|]. rewrite IH. cbn [snd]. rewrite dom_insert_L. cbn. set_solver.
Qed.
Lemma quote_items_dom buyer bp speed items q : quote buyer bp speed items = Ok q → dom q.2 = list_to_set (ids_of items).
Proof.
  intros [[-> ->]|[[d ->]|[sp ->]]]%quote_items_cases; [done|..]; unfold calculate_tiered_itemized, calculate_fallback_itemized;
    rewrite itemized_dom; cbn [snd]; rewrite dom_empty_L; set_solver.
Qed.

(** Perishable goods stay in their province, and within fifty kilometres where the
    distance is known. *)
Theorem perishables_stay_local buyer bp speed first items q :
  quote buyer bp speed (first :: items) = Ok q → has_perishable (first :: items) = true →
  seller_province_of first = Ok bp
  ∧ (is_Some geo_key → ∀ slon slat blon blat, coordinates (si_seller_address first) (Some buyer) = Some (slon, slat, (blon, blat)) →
     ∃ d, geoapify_distance geo_body slon slat blon blat = Some d ∧ f64_ltb PERISHABLE_MAX_DISTANCE_KM d = false).
Proof.
  intros H Hp. cbn [quote_items] in H. destruct (seller_province_of first) as [sp| |]; [|done..]. cbn [mbind outcome_bind] in H.
  unfold province_checks in H. rewrite Hp in H. cbn [andb] in H. destruct (sp =s? bp) eqn:E; cbn [negb] in H; rewrite ?andb_true_r in H;
    [|by repeat case_match]. bools. subst sp. split; [done|]. intros [key Hk] slon slat blon blat Hc. rewrite andb_false_r in H. cbn [mbind outcome_bind] in H.
  cbv zeta in H. unfold wants_distance in H. rewrite Hp, orb_true_r, Hc, Hk in H. destruct (geoapify_distance geo_body slon slat blon blat) as [d|] eqn:Hd.
  - exists d. split; [done|]. unfold distance_checks in H. rewrite Hp in H. cbn [andb] in H.
    destruct (f64_ltb PERISHABLE_MAX_DISTANCE_KM d); [|done]. by rewrite andb_true_r in H; case_match.
  - exfalso. unfold no_distance in H. rewrite Hp in H. by case_match.
Qed.

(** *** Sellers *)
Lemma group_spec items m m' :
  group_by_seller items m = Ok m' → concat (map_to_list m').*2 ≡ₚ concat (map_to_list m).*2 ++ items.
Proof.
  revert m. induction items as [|item items IH]; intros m H; cbn [group_by_seller] in H; [injection H as <-; by rewrite app_nil_r|].
  destruct (si_seller_id item) as [sid|]; [|done]. cbn [ok_or mbind outcome_bind] in H. apply IH in H. rewrite H.
  change (item :: items) with ([item] ++ items). rewrite (app_assoc _ [item] items). apply Permutation_app_tail. destruct (m !! sid) as [l|] eqn:E; cbn [default].
  - rewrite <- (insert_delete_eq m sid (l ++ [item])), map_to_list_insert by apply lookup_delete_eq.
    rewrite <- (insert_id m sid l E) at 2. rewrite <- (insert_delete_eq m sid l), map_to_list_insert by apply lookup_delete_eq.
    cbn. rewrite <- !app_assoc. apply Permutation_app_head. apply Permutation_app_comm.
  - rewrite map_to_list_insert by done. cbn. by rewrite Permutation_app_comm.
Qed.
(** One seller, by the documents of the users. *)
Definition warehouse_known (users : rows) (seller_items : list ShippingItem) : Result unit :=
  match seller_items with
  | [] => Ok tt
  | first :: _ =>
      let seller_id := default "unknown" (si_seller_id first) in
      match users !! bare_id "users" seller_id with
      | Some row => warehouse_checks seller_id (row_to_doc (bare_id "users" seller_id) row)
      | None => Err (NotFound ("Seller " +:+ seller_id +:+ " not found"))
      end
  end.
Definition seller_quote (users : rows) (buyer : CalcAddress) (bp speed : string) (seller_items : list ShippingItem) : Result (Z * gmap string Z) :=
  _ ← warehouse_known users seller_items; quote buyer bp speed (List.filter chargeable seller_items).
Lemma has_warehouse_run seller_items s :
  ∃ s', has_warehouse seller_items s = (s', warehouse_known (table_rows s "users") seller_items) ∧ ∀ c, table_rows s' c = table_rows s c.
Proof.
  destruct seller_items as [|first items]; [by exists s|]. cbn [has_warehouse warehouse_known]. set (u := default "unknown" (si_seller_id first)). cbv zeta.
  exists (ensured "users" s). split; [|intros c; apply table_rows_ensured]. unfold mbind, handler_bind, db_map_err, get_document.
  rewrite with_table_valid by done. cbv beta zeta. rewrite table_rows_ensured. by destruct (table_rows s "users" !! bare_id "users" u).
Qed.
Fixpoint add_quotes (users : rows) (buyer : CalcAddress) (bp speed : string) (sellers : list (list ShippingItem)) (acc : Z * gmap string Z) :
    Result (Z * gmap string Z) :=
  match sellers with
  | [] => Ok acc
  | l :: sellers => q ← seller_quote users buyer bp speed l; add_quotes users buyer bp speed sellers (i64_add acc.1 q.1, q.2 ∪ acc.2)
  end.
Lemma quote_sellers_run buyer bp speed sellers acc s :
  ∃ s', quote_sellers geo_body geo_key buyer bp speed sellers acc s = (s', add_quotes (table_rows s "users") buyer bp speed sellers acc)
    ∧ ∀ c, table_rows s' c = table_rows s c.
Proof.
  revert acc s. induction sellers as [|l sellers IH]; intros acc s; [by exists s|]. cbn [quote_sellers add_quotes].
  destruct (has_warehouse_run l s) as (s1 & Hrun & Hs1). unfold seller_quote, mbind at 1, handler_bind at 1. rewrite Hrun.
  destruct (warehouse_known _ l) as [[]| |]; cbn [mbind outcome_bind]; [|by exists s1..].
  unfold mbind, handler_bind, pure. destruct (quote buyer bp speed _) as [q| |]; cbn [outcome_bind]; [|by exists s1..].
  destruct (IH (i64_add acc.1 q.1, q.2 ∪ acc.2) s1) as (s2 & Hrun2 & Hs2). exists s2. rewrite Hrun2, Hs1. split; [done|]. intros c. by rewrite Hs2.
Qed.

(** *** The order of the sellers *)
Lemma seller_quote_dom users buyer bp speed l q :
  seller_quote users buyer bp speed l = Ok q → dom q.2 = list_to_set (ids_of (List.filter chargeable l)).
Proof. unfold seller_quote. destruct (warehouse_known users l); [|done..]. cbn [mbind outcome_bind]. apply quote_items_dom. Qed.
Lemma filter_ids l : list_to_set (C := gset string) (ids_of (List.filter chargeable l)) ⊆ list_to_set (ids_of l).
Proof.
  induction l as [|item l IH]; [done|]. cbn [List.filter]. destruct (chargeable item); cbn; set_solver.
Qed.
Lemma quotes_disjoint users buyer bp speed l1 l2 q1 q2 :
  seller_quote users buyer bp speed l1 = Ok q1 → seller_quote users buyer bp speed l2 = Ok q2 → NoDup (ids_of l1 ++ ids_of l2) → q1.2 ##ₘ q2.2.
Proof.
  intros H1%seller_quote_dom H2%seller_quote_dom Hnd. apply map_disjoint_dom. rewrite H1, H2.
  apply NoDup_app in Hnd as (_ & Hnd & _). pose proof (filter_ids l1). pose proof (filter_ids l2).
  apply elem_of_disjoint. intros i Hi1 Hi2. apply (Hnd i).
  - apply (elem_of_list_to_set (C := gset string)). set_solver.
  - apply (elem_of_list_to_set (C := gset string)). set_solver.
Qed.
Lemma i64_add_swap a b c : i64_add (i64_add a b) c = i64_add (i64_add a c) b.
Proof. unfold i64_add at 2 4. rewrite !wrap_add. f_equal. lia. Qed.
Lemma add_quotes_perm users buyer bp speed l1 l2 acc r :
  l1 ≡ₚ l2 → NoDup (ids_of (concat l1)) → add_quotes users buyer bp speed l1 acc = Ok r → add_quotes users buyer bp speed l2 acc = Ok r.
Proof.
  intros Hp. revert acc. induction Hp as [|l l1 l2 Hp IH|la lb l|l1 l2 l3 H12 IH1 H23 IH2]; intros acc Hnd H; [done| | |].
  - cbn [add_quotes concat] in *. destruct (seller_quote users buyer bp speed l) as [q| |]; [|done..]. cbn [mbind outcome_bind] in *.
    apply IH; [|done]. rewrite fmap_app in Hnd. by apply NoDup_app in Hnd as (_ & _ & Hnd).
  - cbn [add_quotes concat] in *. destruct (seller_quote users buyer bp speed lb) as [qb| |] eqn:Eb; [|done..]. cbn [mbind outcome_bind] in H.
    destruct (seller_quote users buyer bp speed la) as [qa| |] eqn:Ea; [|done..]. cbn [mbind outcome_bind fst snd] in *.
    rewrite <- H. f_equal. f_equal; [apply i64_add_swap|]. rewrite !(assoc_L (∪)). f_equal. apply map_union_comm.
    eapply quotes_disjoint; [done|done|]. rewrite !fmap_app, (assoc_L (++)) in Hnd. apply NoDup_app in Hnd as (Hnd & _ & _).
    first [exact Hnd|by rewrite Permutation_app_comm].
  - apply IH2; [by rewrite <- H12|]. by apply IH1.
Qed.

(** C31: a quote does not depend on the order in which the map of sellers is walked: of
    items with distinct identifiers, whatever order one run takes, a run that takes
    another gives the same answer. *)
Theorem quote_order_free walk1 walk2 auth req s s1 resp :
  (∀ m, walk1 m ≡ₚ (map_to_list m).*2) → (∀ m, walk2 m ≡ₚ (map_to_list m).*2) → NoDup (ids_of (cs_items req)) →
  calculate_shipping geo_body geo_key walk1 auth req s = (s1, Ok resp) →
  (calculate_shipping geo_body geo_key walk2 auth req s).2 = Ok resp.
Proof.
  intros Hw1 Hw2 Hnd H. unfold calculate_shipping in *. run_inv H. run_inv H. run_inv H. rewrite R, R0, R1. run_inv H. apply pure_ok in H as [_ H].
  rewrite !(bind_run (pure (Ok _)) _ s s _ eq_refl).
  destruct (quote_sellers_run (cs_buyer_address req) a0 (cs_speed req) (walk1 a1) (0, ∅) s) as (t1 & Hrun1 & _).
  destruct (quote_sellers_run (cs_buyer_address req) a0 (cs_speed req) (walk2 a1) (0, ∅) s) as (t2 & Hrun2 & _).
  rewrite Hrun1 in R2. injection R2 as _ R2. apply (add_quotes_perm _ _ _ _ _ (walk2 a1)) in R2.
  - rewrite R2 in Hrun2. rewrite (bind_run _ _ _ _ _ Hrun2). cbn [pure snd]. by rewrite <- H.
  - by rewrite Hw1, Hw2.
  - apply group_spec in R1. cbn in R1. rewrite Hw1, R1. done.
Qed.

(** *** The total *)
#[local] Instance charged_perm : Proper (Permutation ==> Permutation) (List.filter chargeable).
Proof.
  induction 1 as [|x l1 l2 _ IH|x y l|l1 l2 l3 _ IH1 _ IH2]; [done| | |by etrans].
  - cbn. destruct (chargeable x); by try constructor.
  - cbn. destruct (chargeable x), (chargeable y); first [reflexivity|apply perm_swap].
Qed.
Lemma charged_sublist l : sublist (ids_of (List.filter chargeable l)) (ids_of l).
Proof. induction l as [|x l IH]; [done|]. cbn. destruct (chargeable x); by constructor. Qed.
Lemma charged_moderate l : Forall (λ item, moderate item = true) l → Forall (λ item, moderate item = true) (List.filter chargeable l).
Proof. induction 1 as [|x l Hx _ IH]; [constructor|]. cbn. destruct (chargeable x); by try constructor. Qed.
Lemma balanced_add q1 q2 ids1 ids2 :
  balanced q1 ids1 → balanced q2 ids2 → q2.2 ##ₘ q1.2 → (length ids1 + length ids2 ≤ 1000)%nat →
  balanced (i64_add q1.1 q2.1, q2.2 ∪ q1.2) (ids1 ++ ids2).
Proof.
  intros H1 H2 Hd Hlen. pose proof (balanced_size _ _ H1) as S1. pose proof (balanced_size _ _ H2) as S2.
  destruct H1 as [T1 R1 D1], H2 as [T2 R2 D2]. assert (affordable (q2.2 ∪ q1.2)) as Hr by (by apply map_Forall_union_2). split; cbn [fst snd].
  - pose proof (small_sum (q2.2 ∪ q1.2) 1000 Hr) as Hs. rewrite map_size_disj_union, cost_sum_union in Hs by done. rewrite cost_sum_union by done.
    unfold i64_add. rewrite T1, T2. rewrite i64_small; [lia|]. lia.
  - done.
  - rewrite dom_union_L, D1, D2, list_to_set_app_L. apply (comm_L (∪)).
Qed.
Lemma add_quotes_spec users buyer bp speed sellers acc ids r :
  add_quotes users buyer bp speed sellers acc = Ok r → balanced acc ids →
  Forall (λ item, moderate item = true) (concat sellers) → NoDup (ids ++ ids_of (concat sellers)) → (length ids + length (concat sellers) ≤ 1000)%nat →
  balanced r (ids ++ ids_of (List.filter chargeable (concat sellers))).
Proof.
  revert acc ids. induction sellers as [|l sellers IH]; intros acc ids H Hacc Hm Hnd Hlen; cbn [add_quotes concat] in *.
  { injection H as <-. by rewrite app_nil_r. }
  destruct (seller_quote users buyer bp speed l) as [q| |] eqn:Eq; [|done..]. cbn [mbind outcome_bind] in H.
  unfold seller_quote in Eq. destruct (warehouse_known users l); [|done..]. cbn [mbind outcome_bind] in Eq.
  apply Forall_app in Hm as [Hml Hm]. rewrite fmap_app, (assoc_L (++)) in Hnd. rewrite length_app in Hlen.
  pose proof (charged_sublist l) as Hsub. pose proof (sublist_length _ _ Hsub) as Hsl. rewrite !length_fmap in Hsl.
  apply NoDup_app in Hnd as Hnd'. destruct Hnd' as (Hnd1 & Hnd2 & Hnd3). apply NoDup_app in Hnd1 as (Hni & Hdisj & Hnl).
  assert (balanced q (ids_of (List.filter chargeable l))) as Hq.
  { eapply quote_items_spec; [done|by apply charged_moderate|by apply (sublist_NoDup _ (ids_of l))|lia]. }
  rewrite List.filter_app, fmap_app, (assoc_L (++)).
  assert (NoDup ((ids ++ ids_of (List.filter chargeable l)) ++ ids_of (concat sellers))) as Hnd'.
  { eapply sublist_NoDup; [exact Hnd|]. apply sublist_app; [|done]. by apply sublist_app. }
  eapply IH; [exact H| |done|done|rewrite length_app, length_fmap; lia].
  apply balanced_add; [done|done| |rewrite length_fmap; lia]. apply map_disjoint_dom. rewrite (bal_dom _ _ Hq), (bal_dom _ _ Hacc).
  apply NoDup_app in Hnd' as (Hnd' & _ & _). apply NoDup_app in Hnd' as (_ & Hnd' & _). set_solver.
Qed.
(** C30: the answer adds up.  For up to a thousand items of moderate size with distinct
    identifiers, the breakdown names exactly the items that are charged, no cost is
    negative or wraps around, and the total is the sum of the breakdown, or nothing
    from the threshold of free shipping on; nothing stored changes. *)
Theorem quote_adds_up walk auth req s s' resp :
  (∀ m, walk m ≡ₚ (map_to_list m).*2) → NoDup (ids_of (cs_items req)) → (length (cs_items req) ≤ 1000)%nat →
  Forall (λ item, moderate item = true) (cs_items req) →
  calculate_shipping geo_body geo_key walk auth req s = (s', Ok resp) →
  dom (cs_breakdown resp) = list_to_set (ids_of (List.filter chargeable (cs_items req)))
  ∧ affordable (cs_breakdown resp)
  ∧ cs_total_cost_cents resp
    = (if match cs_subtotal_cents req with Some c => FREE_SHIPPING_THRESHOLD_CENTS <=? c | None => false end then 0 else cost_sum (cs_breakdown resp))
  ∧ ∀ c, table_rows s' c = table_rows s c.
Proof.
  intros Hw Hnd Hlen Hm H. unfold calculate_shipping in H. run_inv H. run_inv H. run_inv H. run_inv H. apply pure_ok in H as [-> H].
  destruct (quote_sellers_run (cs_buyer_address req) a0 (cs_speed req) (walk a1) (0, ∅) s) as (t1 & Hrun1 & Ht1).
  rewrite Hrun1 in R2. injection R2 as <- R2. injection H as <-. cbn [cs_breakdown cs_total_cost_cents].
  apply group_spec in R1. cbn in R1. rewrite <- Hw in R1. apply (add_quotes_spec _ _ _ _ _ _ []) in R2 as [Htot Hr Hd];
    [|apply balanced_empty|by rewrite R1|cbn; by rewrite R1|cbn; by rewrite R1].
  split_and!; [|done| |done].
  - rewrite Hd. cbn [app]. apply list_to_set_perm_L. by rewrite R1.
  - by rewrite Htot.
Qed.
End quote.

(** ** Concrete instances *)
Section calc_witnesses.
#[local] Instance demo_q_chrono : Chrono := plain_chrono.
Definition plain_item (id seller : string) (qty : Z) (weight : option f64) : ShippingItem :=
  {| si_product_id := id; si_seller_id := Some seller; si_cart_item_id := None; si_quantity := qty; si_weight_kg := weight;
     si_length_cm := None; si_width_cm := None; si_height_cm := None; si_free_shipping := None; si_is_digital := None;
     si_is_perishable := None; si_is_local_delivery_only := None;
     si_seller_address := Some {| sa_latitude := Some (f64_of_Z 43); sa_longitude := Some (f64_of_Z (-79)); sa_state := Some "ON" |};
     si_ship_from_province := None |}.
Definition perishable (item : ShippingItem) : ShippingItem :=
  {| si_product_id := si_product_id item; si_seller_id := si_seller_id item; si_cart_item_id := si_cart_item_id item; si_quantity := si_quantity item;
     si_weight_kg := si_weight_kg item; si_length_cm := None; si_width_cm := None; si_height_cm := None; si_free_shipping := None; si_is_digital := None;
     si_is_perishable := Some true; si_is_local_delivery_only := None; si_seller_address := si_seller_address item; si_ship_from_province := None |}.
Definition at_home (located : bool) : CalcAddress :=
  {| sa_latitude := if located then Some (f64_of_Z 43) else None; sa_longitude := if located then Some (f64_of_Z (-80)) else None; sa_state := Some "ON" |}.
Definition seller_row : DocRow := plain_row (VObject [("warehouseAddress", VObject [("state", VString "ON")])]).
Definition sellers_store : store := {["users" := {["sue" := seller_row; "bob" := seller_row]}]}.
(** Thirty kilometres, whatever is asked. *)
Definition thirty_km (_ _ _ _ : f64) : option Value :=
  Some (VObject [("sources_to_targets", VArray [VArray [VObject [("distance", of_i64 30000)]]])]).
Definition walk_fwd (m : gmap string (list ShippingItem)) : list (list ShippingItem) := (map_to_list m).*2.
Definition walk_back (m : gmap string (list ShippingItem)) : list (list ShippingItem) := reverse (map_to_list m).*2.
Definition asks (speed : string) (located : bool) (subtotal : option Z) (items : list ShippingItem) : CalculateShippingRequest :=
  {| cs_buyer_address := at_home located; cs_items := items; cs_speed := speed; cs_subtotal_cents := subtotal |}.
Definition quote_now (req : CalculateShippingRequest) : Result CalculateShippingResponse :=
  (calculate_shipping thirty_km (Some "key") walk_fwd (user_auth "ann") req sellers_store).2.
Definition mixed_cart : list ShippingItem := [plain_item "p1" "sue" 2 None; plain_item "p2" "bob" 1 (Some (f64_of_Z 7)); plain_item "p3" "sue" 1 None].
(** Express, thirty kilometres: 8.99 and 35 % of it for the second piece, half as much
    again for the speed; two kilograms too much for the second seller. *)
Example quote_of_cart :
  quote_now (asks "express" true None mixed_cart) = Ok {| cs_total_cost_cents := 4093; cs_breakdown := {["p1" := 1821; "p2" := 1799; "p3" := 473]} |}%Z.
Proof. by vm_compute. Qed.
Lemma quote_order_free_witness :
  (calculate_shipping thirty_km (Some "key") walk_back (user_auth "ann") (asks "express" true None mixed_cart) sellers_store).2
  = Ok {| cs_total_cost_cents := 4093; cs_breakdown := {["p1" := 1821; "p2" := 1799; "p3" := 473]} |}%Z.
Proof.
  apply (quote_order_free thirty_km (Some "key") walk_fwd walk_back (user_auth "ann") (asks "express" true None mixed_cart) sellers_store
    (calculate_shipping thirty_km (Some "key") walk_fwd (user_auth "ann") (asks "express" true None mixed_cart) sellers_store).1).
  - intros m. reflexivity.
  - intros m. apply reverse_Permutation.
  - apply (bool_decide_unpack _). by vm_compute.
  - evaluates.
Defined.
Definition cart_quote : CalculateShippingResponse :=
  {| cs_total_cost_cents := 4093; cs_breakdown := {["p1" := 1821; "p2" := 1799; "p3" := 473]} |}%Z.
Lemma quote_adds_up_witness : cs_total_cost_cents cart_quote = cost_sum (cs_breakdown cart_quote).
Proof.
  destruct (quote_adds_up thirty_km (Some "key") walk_fwd (user_auth "ann") (asks "express" true None mixed_cart) sellers_store
    (calculate_shipping thirty_km (Some "key") walk_fwd (user_auth "ann") (asks "express" true None mixed_cart) sellers_store).1 cart_quote)
    as (_ & _ & Htotal & _).
  - intros m. reflexivity.
  - apply (bool_decide_unpack _). by vm_compute.
  - apply (bool_decide_unpack _). by vm_compute.
  - apply (bool_decide_unpack _). by vm_compute.
  - evaluates.
  - exact Htotal.
Defined.

(** *** What the handler does not do *)
(** Without coordinates the distance is not asked for: perishable goods, which are
    refused when the distance cannot be verified, go anywhere in the province. *)
Example perishable_without_distance :
  is_ok (quote_now (asks "standard" false None [perishable (plain_item "p1" "sue" 1 None)])) = true
  ∧ is_ok ((calculate_shipping (λ _ _ _ _, None) (Some "key") walk_fwd (user_auth "ann")
              (asks "standard" true None [perishable (plain_item "p1" "sue" 1 None)]) sellers_store).2) = false.
Proof. by vm_compute. Qed.
(** Then also same-day delivery is available at any distance, at the rate of the nearest
    one. *)
Example same_day_without_distance :
  quote_now (asks "same_day" false None [plain_item "p1" "sue" 1 None])
  = Ok {| cs_total_cost_cents := 1798; cs_breakdown := {["p1" := 1798]} |}%Z
  ∧ fallback_multiplier "same_day" = SAME_DAY_HYPER_LOCAL_BP.
Proof. by vm_compute. Qed.
(** The quantity is not bounded: a large one wraps around and makes the cost negative. *)
Example huge_quantity_negative :
  quote_now (asks "standard" false None [plain_item "p1" "sue" (3 * 10 ^ 14) None])
  = Ok {| cs_total_cost_cents := -90072440737094930; cs_breakdown := {["p1" := -90072440737094930]} |}%Z.
Proof. by vm_compute. Qed.
(** The total is free from a subtotal that the client states. *)
Example free_by_claim :
  cs_total_cost_cents <$> (match quote_now (asks "same_day" true (Some 7500%Z) mixed_cart) with Ok r => Some r | _ => None end) = Some 0%Z.
Proof. by vm_compute. Qed.
(** Two entries of a cart without ids of their own share one place in the breakdown: the
    total is more than the entries add up to. *)
Example same_product_twice :
  quote_now (asks "standard" false None [plain_item "p1" "sue" 1 None; plain_item "p1" "sue" 1 None])
  = Ok {| cs_total_cost_cents := 1214; cs_breakdown := {["p1" := 315]} |}%Z.
Proof. by vm_compute. Qed.
End calc_witnesses.
