(* ===== verification/Storefront.v ===== *)
(** * Stock alerts, questions and addresses

    crates/ob-handlers/src/products/stock.rs: users ask to be told when a product is
    back in stock; products/questions.rs: users ask about a product and its seller
    answers; addresses/mod.rs: the addresses of buyers.  The suggestions for an address
    are a call of an external service. *)

From S2P Require Export ShippingCalc.

Record front_env : Type := {
  fe_test_mode : bool;
  fe_secs : Z; fe_limit_id : string; fe_limit_now : Z;   (** the limiter's *)
  fe_now : Z;                                            (** [Utc::now()] *)
  fe_uuid : string;                                      (** the id the handler draws *)
  fe_fresh : string;                                     (** the id of a new document *)
  fe_clock : Z;                                          (** the database's clock *)
}.

(** ** Stock alerts *)
Section stock.
Context `{C : Chrono} `{P : PgJson}.
(** Where an id ends its literal: whether the SELECT finds a row (its failure counts as
    none), and the rows the DELETE hits, if it is not refused. *)
Context (scan : rows → list (string * DocRow)).
Context (injected_select : string → string → store → bool) (injected_delete : string → string → store → Result (DocRow → bool)).

Record StockSubscribeRequest : Type := { ss_product_id : string; ss_user_id : string }.

Definition NotFoundProduct : Error := NotFound "Product not found".
(** [data->>'productId' = .. AND data->>'userId' = .. AND (data->>'notifiedAt') IS NULL]. *)
Definition alert_waiting (product_id user_id : string) (row : DocRow) : bool :=
  text_in "productId" [product_id] row && text_in "userId" [user_id] row && bool_decide (field_text "notifiedAt" (row_data row) = None).
Definition product_path_checks (product_id : string) : Result unit :=
  if str_contains "/" product_id || (product_id =s? ".") || (product_id =s? "..") then Err (Validation "Invalid productId format") else Ok tt.
Definition alert_checks (user_id : string) (product : Value) : Result unit :=
  if is_null product then Err NotFoundProduct
  else if str_field product "sellerId" =s? user_id then Err (Forbidden "Sellers cannot subscribe to their own product notifications")
  else if (0 <? cents product "stockQuantity")%Z then Err (Validation "Product is already in stock")
  else Ok tt.
Definition already_waiting (product_id user_id : string) : handler bool :=
  match one_word product_id, one_word user_id with
  | Some p, Some u => docs ← select_limit scan 1 "stock_notifications" (alert_waiting p u); pure (Ok match docs with [] => false | _ => true end)
  | _, _ => (λ s, let s := (ensure_table "stock_notifications" s).1 in (s, Ok (injected_select product_id user_id s))) : handler bool
  end.
Definition alert_doc (product_id user_id email product_name now : string) : Value :=
  VObject [("createdAt", VString now); ("email", VString email); ("notifiedAt", VNull); ("productId", VString product_id);
           ("productName", VString product_name); ("userId", VString user_id)].
Definition stock_subscribe (e : front_env) (auth : AuthContext) (req : StockSubscribeRequest) : handler unit :=
  user_id ← pure (resolve_self_user_id auth (Some (ss_user_id req)) "userId");
  _ ← pure (validate_uid "productId" (ss_product_id req));
  _ ← pure (validate_uid "userId" user_id);
  _ ← pure (product_path_checks (ss_product_id req));
  product ← db_map_err (λ _, NotFoundProduct) (get_document "products" (ss_product_id req));
  _ ← pure (alert_checks user_id product);
  existing ← already_waiting (ss_product_id req) user_id;
  if (existing : bool) then pure (Ok tt)
  else
    user ← db_map_err (λ _, NotFound "User not found") (get_document "users" user_id);
    _ ← pure (if str_empty (str_field user "email") then Err (Validation "Account has no email") else Ok tt);
    _ ← db_map_err (λ err, Database ("Failed to create subscription: " +:+ error_to_string err))
          (create_document "stock_notifications"
             (alert_doc (ss_product_id req) user_id (str_field user "email") (str_field product "name") (to_rfc3339 (fe_now e)))
             (fe_fresh e) (fe_clock e));
    pure (Ok tt).
Definition delete_waiting (product_id user_id : string) : handler unit :=
  match one_word product_id, one_word user_id with
  | Some p, Some u => delete_where "stock_notifications" (alert_waiting p u)
  | _, _ => λ s,
      let s := (ensure_table "stock_notifications" s).1 in
      match injected_delete product_id user_id s with
      | Ok hit => delete_where "stock_notifications" hit s
      | Err err => (s, Err (Database ("Failed to unsubscribe: " +:+ error_to_string err)))
      | Panic => (s, Panic)
      end
  end.
Definition stock_unsubscribe (auth : AuthContext) (req : StockSubscribeRequest) : handler unit :=
  user_id ← pure (resolve_self_user_id auth (Some (ss_user_id req)) "userId");
  _ ← pure (validate_uid "productId" (ss_product_id req));
  _ ← pure (validate_uid "userId" user_id);
  delete_waiting (ss_product_id req) user_id.
End stock.

(** ** Questions *)
Section questions.
Context `{C : Chrono} `{P : PgJson} `{T : TextLib}.
Context (pg_invalid_bigint : string).
Definition MIN_QUESTION_LENGTH : nat := 10.
Definition MAX_QUESTION_LENGTH : nat := 500.
Definition MIN_ANSWER_LENGTH : nat := 10.
Definition MAX_ANSWER_LENGTH : nat := 2000.
Definition MAX_QA_LIMIT : nat := 50.

Record AskQuestionRequest : Type := { aq_product_id : string; aq_question : string; aq_user_id : string }.
Record AnswerQuestionRequest : Type := { nq_question_id : string; nq_answer : string; nq_user_id : string }.
Record ListQuestionsRequest : Type := { lq_product_id : string; lq_limit : nat; lq_answered_only : bool }.
Record QuestionItem : Type := {
  qi_question_id : string; qi_question_text : string; qi_answer_text : option string; qi_is_answered : bool; qi_upvotes : Z;
  qi_created_at : option string; qi_answered_at : option string }.

(** Sanitised, cut and long enough. *)
Definition qa_text (what : string) (min max : nat) (text : string) : Result string :=
  let clean := sanitize_html (trim text) in
  clean ← (if (max <? String.length clean)%nat then slice_to max clean else Ok clean);
  if (String.length clean <? min)%nat then Err (Validation (what +:+ " must be at least 10 characters")) else Ok clean.
Definition qa_limit (e : front_env) (user_id action : string) (max : nat) : handler unit :=
  check_user_rate_limit pg_invalid_bigint (fe_test_mode e) user_id action max 60 (fe_secs e) (fe_limit_id e) (fe_limit_now e).
Definition question_doc (question_id product_id seller_id asker question now : string) : Value :=
  VObject [("answerText", VNull); ("answeredAt", VNull); ("answeredBy", VNull); ("askerId", VString asker); ("createdAt", VString now);
           ("isAnswered", VBool false); ("productId", VString product_id); ("questionId", VString question_id);
           ("questionText", VString question); ("sellerId", VString seller_id); ("upvotes", of_i64 0)].
Definition ask_question (e : front_env) (auth : AuthContext) (req : AskQuestionRequest) : handler string :=
  user_id ← pure (resolve_self_user_id auth (Some (aq_user_id req)) "userId");
  _ ← pure (validate_uid "productId" (aq_product_id req));
  _ ← pure (validate_uid "userId" user_id);
  _ ← qa_limit e user_id "ask_question" 10;
  question ← pure (qa_text "Question" MIN_QUESTION_LENGTH MAX_QUESTION_LENGTH (aq_question req));
  product ← db_map_err (λ _, NotFoundProduct) (get_document "products" (aq_product_id req));
  _ ← pure (if is_null product then Err NotFoundProduct else Ok tt);
  _ ← db_map_err (λ err, Database ("Failed to create question: " +:+ error_to_string err))
        (create_document "product_questions"
           (question_doc (fe_uuid e) (aq_product_id req) (str_field product "sellerId") user_id question (to_rfc3339 (fe_now e)))
           (fe_fresh e) (fe_clock e));
  pure (Ok (fe_uuid e)).
Definition no_question : Error := NotFound "Question not found".
Definition answer_doc (answer now user_id : string) : list (string * Value) :=
  [("answerText", VString answer); ("answeredAt", VString now); ("answeredBy", VString user_id); ("isAnswered", VBool true)].
Definition answer_question (e : front_env) (auth : AuthContext) (req : AnswerQuestionRequest) : handler unit :=
  user_id ← pure (resolve_self_user_id auth (Some (nq_user_id req)) "userId");
  _ ← pure (validate_uid "questionId" (nq_question_id req));
  _ ← pure (validate_uid "userId" user_id);
  _ ← qa_limit e user_id "answer_question" 30;
  answer ← pure (qa_text "Answer" MIN_ANSWER_LENGTH MAX_ANSWER_LENGTH (nq_answer req));
  question ← db_map_err (λ _, no_question) (get_document "product_questions" (nq_question_id req));
  _ ← pure (if is_null question then Err no_question else Ok tt);
  is_admin ← is_user_admin user_id;
  _ ← pure (if negb is_admin && negb (user_id =s? str_field question "sellerId")
            then Err (Forbidden "Only the seller or an admin can answer this question") else Ok tt);
  _ ← db_map_err (λ err, Database ("Failed to update question: " +:+ error_to_string err))
        (update_document "product_questions" (nq_question_id req) (VObject (answer_doc answer (to_rfc3339 (fe_now e)) user_id)) (fe_clock e));
  pure (Ok tt).

(** The rows by [data->>'createdAt' DESC], and the answer where the product's id ends its
    literal. *)
Context (latest : rows → list (string * DocRow)) (injected_questions : string → store → Result (list Value)).
Definition asked_about (product_id : string) (answered_only : bool) (row : DocRow) : bool :=
  text_in "productId" [product_id] row && (negb answered_only || text_in "isAnswered" ["true"] row).
Definition question_item (doc : Value) : QuestionItem :=
  {| qi_question_id := default "" (match get "questionId" doc with Some v => Some v | None => get "id" doc end ≫= as_str);
     qi_question_text := str_field doc "questionText"; qi_answer_text := get "answerText" doc ≫= as_str;
     qi_is_answered := bool_field doc "isAnswered"; qi_upvotes := cents doc "upvotes";
     qi_created_at := get "createdAt" doc ≫= as_str; qi_answered_at := get "answeredAt" doc ≫= as_str |}.
Definition list_questions (req : ListQuestionsRequest) : handler (list QuestionItem) :=
  _ ← pure (validate_uid "productId" (lq_product_id req));
  let limit := Nat.min (lq_limit req) MAX_QA_LIMIT in
  docs ← (λ s, let s := (ensure_table "product_questions" s).1 in
             (s, match one_word (lq_product_id req) with
                 | Some p => Ok ((λ kr : string * DocRow, row_to_doc kr.1 kr.2)
                                   <$> take limit (filter (λ kr, asked_about p (lq_answered_only req) kr.2 = true) (latest (table_rows s "product_questions"))))
                 | None => match injected_questions (lq_product_id req) s with
                           | Err err => Err (Database ("Failed to fetch questions: " +:+ error_to_string err)) | r => r end
                 end)) : handler (list Value);
  pure (Ok (question_item <$> docs)).
End questions.

(** ** Addresses *)

(** The characters of a text and their classes in Unicode. *)
Class CharLib := { chars : string → list string; char_alphabetic : string → bool; char_numeric : string → bool }.
(** Of ASCII texts. *)
Definition ascii_chars : CharLib :=
  {| chars := λ s, (λ c, String c "") <$> String.list_ascii_of_string s;
     char_alphabetic := λ c, match c with String a "" => is_alpha a | _ => false end;
     char_numeric := λ c, match c with String a "" => is_digit a | _ => false end |}.

Section addresses.
Context `{C : Chrono} `{P : PgJson} `{T : TextLib} `{K : CharLib}.

Record AddressPayload : Type := {
  ap_label : string; ap_street : string; ap_city : string; ap_province : string; ap_postal_code : string; ap_country : string;
  ap_apartment : option string }.
Record AddBuyerAddressRequest : Type := { ab_user_id : string; ab_address : AddressPayload }.
Record UpdateBuyerAddressRequest : Type := { ub_user_id : string; ub_address_id : string; ub_address : AddressPayload }.
Record BuyerAddressRequest : Type := { ba_user_id : string; ba_address_id : string }.

Fixpoint postal_checks (letter : bool) (cs : list string) : Result unit :=
  match cs with
  | [] => Ok tt
  | c :: cs => if (if letter then char_alphabetic c else char_numeric c) then postal_checks (negb letter) cs
               else Err (Validation "Invalid postal code format")
  end.
Definition validate_postal_code (pc : string) : Result unit :=
  let clean := to_uppercase (replace_char " " "" pc) in
  if negb (String.length clean =? 6)%nat then Err (Validation "Canadian postal code must be 6 characters")
  else postal_checks true (chars clean).
Definition validate_address_payload (a : AddressPayload) : Result unit :=
  if str_empty (trim (ap_label a)) then Err (Validation "label is required")
  else if str_empty (trim (ap_street a)) then Err (Validation "street is required")
  else if str_empty (trim (ap_city a)) then Err (Validation "city is required")
  else if str_empty (trim (ap_province a)) then Err (Validation "province is required")
  else if negb (to_uppercase (ap_country a) =s? "CA") then Err (Validation "Only Canadian addresses are currently supported")
  else
    _ ← validate_postal_code (ap_postal_code a);
    if match ap_apartment a with Some apt => (50 <? String.length apt)%nat | None => false end then Err (Validation "apartment too long") else Ok tt.
Definition payload_fields (a : AddressPayload) : list (string * Value) :=
  [("apartment", json_str (ap_apartment a)); ("city", VString (ap_city a)); ("country", VString (ap_country a)); ("label", VString (ap_label a));
   ("postalCode", VString (ap_postal_code a)); ("state", VString (ap_province a)); ("street", VString (ap_street a))].
Definition own_account (auth : AuthContext) (user_id : string) : Result unit :=
  if negb (authenticated auth) || negb (auth_user_id auth =s? user_id) then Err (Auth "Unauthorized") else Ok tt.
Definition add_buyer_address (e : front_env) (auth : AuthContext) (req : AddBuyerAddressRequest) : handler string :=
  _ ← pure (own_account auth (ab_user_id req));
  _ ← pure (validate_address_payload (ab_address req));
  let address_id := "addr_" +:+ fe_uuid e in
  _ ← db (create_document "buyer_addresses"
            (VObject (foldl (λ m kv, assoc_insert kv.1 kv.2 m) (payload_fields (ab_address req))
               [("uid", VString (ab_user_id req)); ("id", VString address_id); ("createdAt", VString (to_rfc3339 (fe_now e)))]))
            (fe_fresh e) (fe_clock e));
  pure (Ok address_id).
Definition update_buyer_address (e : front_env) (auth : AuthContext) (req : UpdateBuyerAddressRequest) : handler unit :=
  _ ← pure (own_account auth (ub_user_id req));
  _ ← pure (validate_uid "addressId" (ub_address_id req));
  _ ← pure (validate_address_payload (ub_address req));
  _ ← db (update_document "buyer_addresses" (ub_address_id req)
            (VObject (payload_fields (ub_address req) ++ [("updatedAt", VString (to_rfc3339 (fe_now e)))])) (fe_clock e));
  pure (Ok tt).
Definition delete_buyer_address (auth : AuthContext) (req : BuyerAddressRequest) : handler unit :=
  _ ← pure (own_account auth (ba_user_id req));
  _ ← pure (validate_uid "addressId" (ba_address_id req));
  _ ← db (delete_document "buyer_addresses" (ba_address_id req));
  pure (Ok tt).
Definition set_default_buyer_address (e : front_env) (auth : AuthContext) (req : BuyerAddressRequest) : handler unit :=
  _ ← pure (own_account auth (ba_user_id req));
  _ ← pure (validate_uid "addressId" (ba_address_id req));
  _ ← db (update_document "users" (ba_user_id req) (VObject [("defaultAddressId", VString (ba_address_id req))]) (fe_clock e));
  pure (Ok tt).
End addresses.

(** ** The rows of a table after a request, whatever its outcome *)
Definition reaches {A} (c : string) (Q : rows → Prop) (m : handler A) (s : store) : Prop := Q (table_rows (m s).1 c).
Lemma reaches_bind {A B} c Q (m : handler A) (k : A → handler B) s rs :
  table_rows s c = rs → Q rs → keeps c m → (∀ a s1, m s = (s1, Ok a) → table_rows s1 c = rs → reaches c Q (k a) s1) → reaches c Q (m ≫= k) s.
Proof.
  intros <- HQ Hm Hk. specialize (Hm s). unfold reaches, mbind, handler_bind in *.
  destruct (m s) as [s1 [a|err|]]; cbn [fst] in *; [by apply Hk|by rewrite Hm..].
Qed.
Lemma reaches_keeps {A} c Q (m : handler A) s rs : table_rows s c = rs → Q rs → keeps c m → reaches c Q m s.
Proof. intros <- HQ Hm. unfold reaches. by rewrite (Hm s). Qed.
Tactic Notation "pass" ident(a) ident(H) "by" tactic3(t) :=
  let s1 := fresh "s" in
  eapply reaches_bind; [eassumption|by t| |intros a s1 H ?];
  [first [apply keeps_pure|by apply keeps_map_err, keeps_get|by apply keeps_rate_limit|idtac]|];
  try lazymatch type of H with pure _ _ = _ => apply pure_ok in H as [-> H] | _ => idtac end.

(** ** One alert for a user and a product *)
Section alerts.
Context `{C : Chrono} `{P : PgJson}.
Context (scan : rows → list (string * DocRow)) (scan_rows : ∀ rs, scan rs ≡ₚ map_to_list rs).
Context (injected_select : string → string → store → bool) (injected_delete : string → string → store → Result (DocRow → bool)).
Abbreviation alerts_of s := (table_rows s "stock_notifications").

Definition alerts_once (rs : rows) : Prop :=
  ∀ p u k1 k2 r1 r2, rs !! k1 = Some r1 → rs !! k2 = Some r2 → alert_waiting p u r1 = true → alert_waiting p u r2 = true → k1 = k2.
(** The ids of the request need no escaping. *)
Definition plain_request (auth : AuthContext) (req : StockSubscribeRequest) : Prop :=
  one_word (ss_product_id req) = Some (ss_product_id req) ∧ one_word (auth_user_id auth) = Some (auth_user_id auth).

Lemma waiting_alert p u p' u' email name now clock :
  alert_waiting p' u' {| row_data := alert_doc p u email name now; row_created_at := clock; row_updated_at := clock |} = true ↔ p' = p ∧ u' = u.
Proof.
  unfold alert_waiting, text_in. change (field_text "productId" _) with (Some p). change (field_text "userId" _) with (Some u).
  change (field_text "notifiedAt" _) with (@None string). rewrite !andb_true_iff, !bool_decide_eq_true, !list_elem_of_singleton. naive_solver.
Qed.
Lemma keeps_waiting c p u : keeps c (already_waiting scan injected_select p u).
Proof.
  unfold already_waiting. destruct (one_word p); [|intros ?; apply keeps_ensure_first].
  destruct (one_word u); [|intros ?; apply keeps_ensure_first]. apply keeps_bind; [apply keeps_select_limit|intros; apply keeps_pure].
Qed.
(** The search finds an alert that waits. *)
Lemma none_waiting p u s s' :
  one_word p = Some p → one_word u = Some u → already_waiting scan injected_select p u s = (s', Ok false) →
  ∀ k r, alerts_of s !! k = Some r → alert_waiting p u r = false.
Proof.
  intros Hp Hu. unfold already_waiting. rewrite Hp, Hu. unfold select_limit, mbind, handler_bind. cbv zeta. rewrite keeps_ensure_first.
  intros H k r Hk. apply not_true_is_false. intros Hw. unfold selected in H.
  assert ((k, r) ∈ filter (λ kr : string * DocRow, alert_waiting p u kr.2 = true) (scan (alerts_of s))) as Hin.
  { apply list_elem_of_filter. split; [done|]. rewrite scan_rows. by apply elem_of_map_to_list. }
  by destruct (filter _ _); [apply elem_of_nil in Hin|].
Qed.
(** What a subscription does to the table. *)
Definition alert_added (e : front_env) (p u : string) (rs rs' : rows) : Prop :=
  rs' = rs
  ∨ ∃ row, rs' = <[fe_fresh e := row]> rs ∧ rs !! fe_fresh e = None ∧ (∀ p' u', alert_waiting p' u' row = true ↔ p' = p ∧ u' = u)
      ∧ (∀ k r, rs !! k = Some r → alert_waiting p u r = false).
Lemma subscribe_adds e auth req s :
  plain_request auth req →
  reaches "stock_notifications" (alert_added e (ss_product_id req) (auth_user_id auth) (alerts_of s)) (stock_subscribe scan injected_select e auth req) s.
Proof.
  intros [Hp Hu]. remember (alerts_of s) as rs eqn:Hs. symmetry in Hs. unfold stock_subscribe. pass u Hself by left. apply resolve_self_ok in Hself as ->.
  pass a1 Hn1 by left. pass a2 Hn2 by left. pass a3 Hn3 by left. pass product Hprod by left. pass a4 Hn4 by left. pass b Hb by left; [apply keeps_waiting|].
  destruct b; [eapply reaches_keeps; [eassumption|by left|apply keeps_pure]|]. pass user Huser by left. pass a5 Hn5 by left.
  match goal with H : alerts_of ?t = rs |- reaches _ _ _ ?t => rename t into t1; rename H into Ht1 end.
  assert (∀ k r, rs !! k = Some r → alert_waiting (ss_product_id req) (auth_user_id auth) r = false) as Hnone.
  { match type of Hb with already_waiting _ _ _ _ ?t = _ => assert (alerts_of t = rs) as Et by assumption end. rewrite <- Et. by eapply none_waiting. }
  unfold reaches. rewrite bind_keeps_state by (intros; apply keeps_pure).
  match goal with |- context [db_map_err ?f ?op t1] => assert ((db_map_err f op t1).1 = (op t1).1) as -> by (unfold db_map_err; by destruct (op t1)) end.
  rewrite create_rows by done. change (document_id _ _) with (fe_fresh e). rewrite Ht1. destruct (rs !! fe_fresh e) eqn:Hnew; [by left|]. right.
  eexists. split_and!; [reflexivity|done| |done]. intros p' u'. apply waiting_alert.
Qed.
Lemma unsubscribe_removes auth req s :
  plain_request auth req →
  reaches "stock_notifications" (λ rs, rs = alerts_of s
    ∨ rs = filter (λ kr : string * DocRow, alert_waiting (ss_product_id req) (auth_user_id auth) kr.2 = false) (alerts_of s)) (stock_unsubscribe injected_delete auth req) s.
Proof.
  intros [Hp Hu]. remember (alerts_of s) as rs eqn:Hs. symmetry in Hs. unfold stock_unsubscribe. pass u Hself by left. apply resolve_self_ok in Hself as ->.
  pass a1 Hn1 by left. pass a2 Hn2 by left. unfold reaches, delete_waiting, delete_where. rewrite Hp, Hu. cbn [fst]. right.
  rewrite table_rows_insert, keeps_ensure_first. by rewrite Hs.
Qed.

Inductive alert_call : Type := CallSubscribe (e : front_env) (auth : AuthContext) (req : StockSubscribeRequest)
| CallUnsubscribe (auth : AuthContext) (req : StockSubscribeRequest).
Definition run_alert (s : store) (call : alert_call) : store :=
  match call with
  | CallSubscribe e auth req => (stock_subscribe scan injected_select e auth req s).1
  | CallUnsubscribe auth req => (stock_unsubscribe injected_delete auth req s).1
  end.
Definition plain_call (call : alert_call) : Prop :=
  match call with CallSubscribe _ auth req | CallUnsubscribe auth req => plain_request auth req end.
(** However users subscribe and unsubscribe, at most one alert waits for each user and
    product. *)
Theorem one_alert_each calls s : Forall plain_call calls → alerts_once (alerts_of s) → alerts_once (alerts_of (foldl run_alert s calls)).
Proof.
  intros Hc. revert s. induction Hc as [|call calls Hcall _ IH]; intros s Hs; [done|]. cbn [foldl]. apply IH. destruct call as [e auth req|auth req]; cbn in Hcall |- *.
  - destruct (subscribe_adds e auth req s Hcall) as [->|(row & -> & Hnew & Hrow & Hnone)]; [done|].
    intros p u k1 k2 r1 r2 [[<- <-]|[N1 K1]]%lookup_insert_Some [[<- <-]|[N2 K2]]%lookup_insert_Some W1 W2; [done| | |by eapply Hs].
    + apply Hrow in W1 as [-> ->]. by rewrite (Hnone _ _ K2) in W2.
    + apply Hrow in W2 as [-> ->]. by rewrite (Hnone _ _ K1) in W1.
  - destruct (unsubscribe_removes auth req s Hcall) as [-> | ->]; [done|].
    intros p u k1 k2 r1 r2 [K1 _]%map_lookup_filter_Some [K2 _]%map_lookup_filter_Some. by eapply Hs.
Qed.
(** An alert that is taken back leaves the table as it was. *)
Theorem alert_taken_back e auth req s :
  plain_request auth req → (stock_unsubscribe injected_delete auth req (stock_subscribe scan injected_select e auth req s).1).2 = Ok tt →
  (∀ k r, alerts_of s !! k = Some r → alert_waiting (ss_product_id req) (auth_user_id auth) r = false) →
  alerts_of (stock_unsubscribe injected_delete auth req (stock_subscribe scan injected_select e auth req s).1).1 = alerts_of s.
Proof.
  intros Hreq Hok Hnone. set (s1 := (stock_subscribe scan injected_select e auth req s).1) in *.
  assert (alerts_of (stock_unsubscribe injected_delete auth req s1).1
    = filter (λ kr : string * DocRow, alert_waiting (ss_product_id req) (auth_user_id auth) kr.2 = false) (alerts_of s1)) as ->.
  { destruct (stock_unsubscribe injected_delete auth req s1) as [s2 r] eqn:H. cbn [snd] in Hok. subst r. unfold stock_unsubscribe in H. run_inv H. apply resolve_self_ok in R as ->.
    run_inv H. run_inv H. destruct Hreq as [Hp Hu]. unfold delete_waiting, delete_where in H. rewrite Hp, Hu in H. apply (f_equal fst) in H. cbn [fst] in *.
    rewrite <- H. by rewrite table_rows_insert, keeps_ensure_first. }
  assert (filter (λ kr : string * DocRow, alert_waiting (ss_product_id req) (auth_user_id auth) kr.2 = false) (alerts_of s) = alerts_of s) as Hsame.
  { apply map_filter_id. intros k r Hk. by apply (Hnone k). }
  destruct (subscribe_adds e auth req s Hreq) as [H|(row & H & Hnew & Hrow & _)]; unfold reaches in H; fold s1 in H; rewrite H; [done|].
  rewrite map_filter_insert_False, delete_id by (cbn; rewrite ?(proj2 (Hrow _ _)); done). done.
Qed.
End alerts.

(** ** Who answers *)
Section answers.
Context `{C : Chrono} `{P : PgJson} `{T : TextLib}.
Context (pg_invalid_bigint : string).
Abbreviation questions_of s := (table_rows s "product_questions").

Lemma stored_admin_users s s' u : table_rows s' "users" = table_rows s "users" → stored_admin s u = stored_admin s' u.
Proof. intros H. unfold stored_admin. by rewrite H. Qed.
Lemma keeps_user_admin c u : keeps c (is_user_admin u).
Proof. intros s. unfold is_user_admin. pose proof (keeps_get c "users" u s) as H. unfold db in H. by destruct (get_document "users" u s) as [s1 []]. Qed.
Lemma is_admin_run u s s' b : is_user_admin u s = (s', Ok b) → b = stored_admin s u.
Proof.
  intros H. pose proof (runs_is_user_admin u s s (λ _ r, r = Ok (stored_admin s u)) (same_refl s)) as Hr. unfold runs in Hr. rewrite H in Hr.
  cbn [fst snd] in Hr. assert (Ok b = Ok (stored_admin s u)) as [= ->] by (by apply Hr). done.
Qed.
(** A question is answered by the seller it names or by an administrator, and only its
    answer changes; a request that fails changes no question. *)
Theorem answered_by_seller e auth req s :
  questions_of (answer_question pg_invalid_bigint e auth req s).1 = questions_of s
  ∨ ∃ row answer, questions_of s !! bare_id "product_questions" (nq_question_id req) = Some row
      ∧ (auth_user_id auth = str_field (row_data row) "sellerId" ∨ stored_admin s (auth_user_id auth) = true)
      ∧ questions_of (answer_question pg_invalid_bigint e auth req s).1
        = <[bare_id "product_questions" (nq_question_id req)
            := merged_row (VObject (answer_doc answer (to_rfc3339 (fe_now e)) (auth_user_id auth))) (fe_clock e) row]> (questions_of s).
Proof.
  assert (reaches "product_questions" (λ rs, rs = questions_of s ∨ ∃ row answer, questions_of s !! bare_id "product_questions" (nq_question_id req) = Some row
      ∧ (auth_user_id auth = str_field (row_data row) "sellerId" ∨ stored_admin s (auth_user_id auth) = true)
      ∧ rs = <[bare_id "product_questions" (nq_question_id req)
               := merged_row (VObject (answer_doc answer (to_rfc3339 (fe_now e)) (auth_user_id auth))) (fe_clock e) row]> (questions_of s))
    (answer_question pg_invalid_bigint e auth req) s); [|done].
  remember (questions_of s) as rs eqn:Hs. symmetry in Hs. unfold answer_question. pass u Hself by left. apply resolve_self_ok in Hself as ->.
  pass a1 Hn1 by left. pass a2 Hn2 by left. pass a3 Hn3 by left. pass answer Hans by left. pass q Hq by left. pass a4 Hn4 by left.
  apply (keeps_run "users") in Hn3; [|by apply keeps_rate_limit]. apply (keeps_run "users") in Hq as Hu; [|apply keeps_map_err, keeps_get].
  apply map_err_ok, row_read in Hq as (row & Hrow & ->).
  match type of Hrow with table_rows ?t _ !! _ = _ => assert (questions_of t = rs) as Et by assumption; rewrite Et in Hrow end.
  pass b Hb by left; [apply keeps_user_admin|]. apply is_admin_run in Hb as ->. pass a5 Hn5 by left.
  unfold reaches. rewrite bind_keeps_state by (intros; apply keeps_pure).
  match goal with |- context [db_map_err ?f ?op ?t] => assert ((db_map_err f op t).1 = (op t).1) as -> by (unfold db_map_err; by destruct (op t)) end.
  rewrite update_rows. match goal with H : questions_of ?t = rs |- context [questions_of ?t] => rewrite H end. rewrite Hrow.
  change (is_ok _) with true. right. exists row, answer. split_and!; [done| |done].
  rewrite stored_admin_users with (s' := s) in Hn5 by congruence. destruct (stored_admin s (auth_user_id auth)); [by right|left].
  cbn [negb andb] in Hn5. destruct (_ =s? _) eqn:E; [|done]. bools. rewrite E. unfold str_field. by rewrite get_row_to_doc by concrete.
Qed.
End answers.

(** ** What the handlers do not do *)
Section front_shortcomings.
Context `{C : Chrono} `{P : PgJson} `{T : TextLib} `{K : CharLib}.
Context (pg_invalid_bigint : string).

(** The id that asking a question reports is not the one it is stored under: the answer to
    it is refused, whoever sends it. *)
Theorem asked_question_unanswerable e auth req s s' question_id :
  ask_question pg_invalid_bigint e auth req s = (s', Ok question_id) →
  table_rows s "product_questions" !! bare_id "product_questions" question_id = None → fe_fresh e ≠ bare_id "product_questions" question_id →
  ∀ e' auth' answer user, is_ok (answer_question pg_invalid_bigint e' auth' {| nq_question_id := question_id; nq_answer := answer; nq_user_id := user |} s').2 = false.
Proof.
  intros H Hnone Hne e' auth' answer user.
  assert (table_rows s' "product_questions" !! bare_id "product_questions" question_id = None) as Hnone'.
  { assert (reaches "product_questions" (λ rs, rs !! bare_id "product_questions" question_id = None) (ask_question pg_invalid_bigint e auth req) s) as Hr;
      [|unfold reaches in Hr; by rewrite H in Hr].
    remember (table_rows s "product_questions") as rs eqn:Hs. symmetry in Hs. unfold ask_question. clear H.
    pass u Hself by idtac. pass a1 Hn1 by idtac. pass a2 Hn2 by idtac. pass a3 Hn3 by idtac. pass text Htext by idtac. pass product Hprod by idtac. pass a4 Hn4 by idtac.
    unfold reaches. rewrite bind_keeps_state by (intros; apply keeps_pure).
    match goal with |- context [db_map_err ?f ?op ?t] => assert ((db_map_err f op t).1 = (op t).1) as -> by (unfold db_map_err; by destruct (op t)) end.
    rewrite create_rows by done. change (document_id _ _) with (fe_fresh e).
    match goal with H : table_rows ?t _ = rs |- context [table_rows ?t _] => rewrite H end.
    destruct (rs !! fe_fresh e) eqn:?; [done|]. by rewrite lookup_insert_ne by done. }
  destruct (answer_question _ _ _ _ _) as [s2 [a|err|]] eqn:Ha; [exfalso|done..]. unfold answer_question in Ha.
  run_inv Ha. run_inv Ha. run_inv Ha. run_inv Ha. apply (keeps_run "product_questions") in R2; [|by apply keeps_rate_limit].
  run_inv Ha. run_inv Ha. apply row_read in R4 as (row & Hrow & _). cbn [nq_question_id] in Hrow. congruence.
Qed.
(** Addresses are changed and deleted without a look at whose they are. *)
Theorem any_user_deletes_address auth address_id s row :
  authenticated auth = true → is_ok (validate_uid "addressId" address_id) = true →
  table_rows s "buyer_addresses" !! bare_id "buyer_addresses" address_id = Some row →
  ∃ s', delete_buyer_address auth {| ba_user_id := auth_user_id auth; ba_address_id := address_id |} s = (s', Ok tt)
    ∧ table_rows s' "buyer_addresses" !! bare_id "buyer_addresses" address_id = None.
Proof.
  intros Hauth Hv Hrow. destruct (delete_run "buyer_addresses" address_id s row) as (s' & d & Hrun & Hrows); [done|done|]. exists s'.
  unfold delete_buyer_address, own_account. cbn [ba_user_id ba_address_id]. rewrite Hauth, str_eqb_refl. cbn [negb orb].
  destruct (validate_uid "addressId" address_id) as [a| |] eqn:E; [|done..].
  rewrite (bind_run (pure (Ok tt)) _ s s tt) by done. rewrite (bind_run (pure (Ok a)) _ s s a) by done. rewrite (bind_run _ _ _ _ _ Hrun).
  split; [done|]. by rewrite Hrows, lookup_delete_eq.
Qed.
End front_shortcomings.

(** ** Concrete instances *)
Section front_witnesses.
#[local] Instance demo_f_chrono : Chrono := plain_chrono.
#[local] Instance demo_f_json : PgJson := plain_json.
#[local] Instance demo_f_text : TextLib := plain_textlib.
#[local] Instance demo_f_chars : CharLib := ascii_chars.
Definition demo_front_env (uuid fresh : string) : front_env :=
  {| fe_test_mode := true; fe_secs := 1000; fe_limit_id := "l"; fe_limit_now := 1; fe_now := 5; fe_uuid := uuid; fe_fresh := fresh; fe_clock := 6 |}%Z.
Definition front_store : store :=
  {["users" := {["ann" := plain_row (VObject [("email", VString "ann@x.ca")]); "sue" := plain_row (VObject [("email", VString "sue@x.ca")])]};
    "products" := {["p1" := plain_row (VObject [("name", VString "Jam"); ("sellerId", VString "sue"); ("stockQuantity", of_i64 0)])]}]}.
Definition no_select (p u : string) (s : store) : bool := false.
Definition no_delete (p u : string) (s : store) : Result (DocRow → bool) := Err (Database "").
Definition wants (u : string) : StockSubscribeRequest := {| ss_product_id := "p1"; ss_user_id := u |}.
Definition told (id u : string) (s : store) : store := (stock_subscribe map_to_list no_select (demo_front_env "q" id) (user_auth u) (wants u) s).1.
Example alert_kept_once :
  size (table_rows (told "a1" "ann" front_store) "stock_notifications") = 1%nat
  ∧ size (table_rows (told "a2" "ann" (told "a1" "ann" front_store)) "stock_notifications") = 1%nat
  ∧ (stock_subscribe map_to_list no_select (demo_front_env "q" "a1") (user_auth "sue") (wants "sue") front_store).2
    = Err (Forbidden "Sellers cannot subscribe to their own product notifications").
Proof. by vm_compute. Qed.
(** The text after a quote of the product's id is part of the DELETE: the alerts of
    everyone go. *)
Example unsubscribe_injected :
  lex_standard (escape_sql_string ("x" +:+ str1 APOS +:+ " OR true --") +:+ str1 APOS +:+ " AND data->>'userId' = 'ann'")
  = Some ("x" +:+ str1 BACKSLASH, " OR true --" +:+ str1 APOS +:+ " AND data->>'userId' = 'ann'")
  ∧ is_ok (validate_uid "productId" ("x" +:+ str1 APOS +:+ " OR true --")) = true.
Proof. by vm_compute. Qed.

Definition question : AskQuestionRequest := {| aq_product_id := "p1"; aq_question := "Is it organic?"; aq_user_id := "ann" |}.
Definition asked_store : store * Result string := ask_question "" (demo_front_env "q1" "doc1") (user_auth "ann") question front_store.
Definition replies (id : string) : Result unit :=
  (answer_question "" (demo_front_env "x" "x") (user_auth "sue") {| nq_question_id := id; nq_answer := "Yes, all of it."; nq_user_id := "sue" |} asked_store.1).2.
Example answered_by_stored_id : asked_store.2 = Ok "q1" ∧ replies "q1" = Err no_question ∧ replies "doc1" = Ok tt.
Proof. by vm_compute. Qed.

Definition home (postal_code : string) : AddressPayload :=
  {| ap_label := "Home"; ap_street := "1 Main St"; ap_city := "Toronto"; ap_province := "ON"; ap_postal_code := postal_code; ap_country := "ca";
     ap_apartment := None |}.
Example address_checked :
  validate_address_payload (home "m5v 3a8") = Ok tt ∧ validate_address_payload (home "55v 3a8") = Err (Validation "Invalid postal code format")
  ∧ validate_address_payload (home "m5v") = Err (Validation "Canadian postal code must be 6 characters").
Proof. by vm_compute. Qed.
(** Another user's address is replaced. *)
Definition at_home_now : store :=
  (add_buyer_address (demo_front_env "1" "x") (user_auth "ann") {| ab_user_id := "ann"; ab_address := home "M5V3A8" |} front_store).1.
Example foreign_address_replaced :
  let s := (update_buyer_address (demo_front_env "2" "x") (user_auth "bob") {| ub_user_id := "bob"; ub_address_id := "addr_1"; ub_address := home "V5K0A1" |}
              at_home_now).1 in
  (λ r : DocRow, (str_field (row_data r) "uid", str_field (row_data r) "postalCode")) <$> (table_rows at_home_now "buyer_addresses" !! "addr_1") = Some ("ann", "M5V3A8")
  ∧ (λ r : DocRow, (str_field (row_data r) "uid", str_field (row_data r) "postalCode")) <$> (table_rows s "buyer_addresses" !! "addr_1") = Some ("ann", "V5K0A1").
Proof. by vm_compute. Qed.
End front_witnesses.
